(* ===== verification/_CoqProject ===== *)
-Q . S2P
Prelude.v
Float.v
Order.v
Net.v
Text.v
Encoding.v
Stream.v
Locking.v
External.v
Contract.v
Revision.v
Chain.v
Alerts.v
Hosts.v
HostManager.v
Slabs.v
Objects.v
Api.v
HostQueue.v
Uploads.v
Recovery.v
Accounts.v
Integrity.v
Sharing.v
App.v
Connect.v
Store.v
Tables.v
SlabTables.v
SectorTables.v
ContractTables.v
HostTables.v
AppTables.v
FundingTables.v
SharingTables.v
RepairStore.v
PinStore.v
Totals.v
SlabStore.v
ObjectStore.v
SectorStore.v
ContractStore.v
ContractRefine.v
HostStore.v
References.v
AppStore.v
History.v
AppHistory.v
FundingStore.v
Serving.v
PruneStore.v
SharingStore.v
TablesWitness.v
AppWitness.v
Cors.v
Subscriber.v
WalletTables.v
WalletStore.v
Funder.v
Funding.v
Deps.v
ContractQueries.v
Pins.v
Form.v
Renew.v
Pinning.v
Pruning.v
Maintenance.v
Migrations.v
Remote.v
