(* ===== verification/Prelude.v ===== *)
(** * A verification library for indexd

    indexd is the renter side of a decentralised storage network: it forms
    contracts with hosts, funds accounts at the hosts, uploads, pins, repairs and
    prunes sectors, and follows the chain. This library models its core in Rocq
    and proves what makes the parts correct. Paths below are relative to src/.

    ** How the program is modelled

    A Go call that touches shared state, the database, a host or the wallet is a
    computation [M S A], a function from the state [S] to a [result A] (a value,
    an error or a panic) and the new state: the state survives errors and panics.
    [let*], [;;], [try] and [wrapM] spell Go's sequencing, error values and
    [fmt.Errorf]; variables that a closure assigns to are a second component of
    the state ([with_locals], [local], [set_local], [lift1]). The interfaces the
    Go packages are written against are type classes over [S]; what a theorem
    needs of an implementation is a class of laws. The libraries (go.sia.tech/core,
    coreutils) are parameters: [CurrencyOps]/[CurrencyLaws] for types.Currency,
    [RhpOps] for the RHP4 protocol types and costs (External.v). Integers keep
    their width: [u64], [i64] reduce a [Z] as Go's conversions and overflow do;
    floats are IEEE binary64 (Float.v). Where Go ranges over a map the order is a
    parameter of the model. Loops that are not structural carry fuel, and running
    out of fuel is a result of its own ([None]), never an answer; the termination
    theorems say how much fuel is enough. Logging, timeouts and metrics are left
    out.

    ** The files

    - Prelude.v: errors, results, the monad [M] with its weakest preconditions,
      machine integers, paging loops, tactics.
    - Float.v, Order.v, Net.v, Encoding.v, Stream.v: binary64 arithmetic and its
      rounding, comparison functions and the sorts of the slices package, host/port
      and IP parsing as the net package does them, the encoder of signed and hashed
      data with its injectivity laws, and the decoder that reads it back.
    - External.v: what the program uses of its libraries, with concrete instances
      ([U128], [TestRhp]) for the witnesses.
    - Locking.v: contracts/locking.go, as a step relation over goroutines: every
      critical section of [LockContract] and [TryLockContract] is one step.
    - Contract.v: contracts/contract.go and the funding calculation of
      contracts/form.go: the record, [GoodForAppend], [GoodForRefresh], renewable
      sizes.
    - Revision.v: contracts/revision.go: [WithRevision] and [syncRevision]; rules
      for callers ([WithRevision_invariant], [WithRevision_phases]).
    - Chain.v: contracts/chain.go with the transaction of
      persist/postgres/contracts.go: applying and reverting blocks.
    - Alerts.v, Hosts.v, HostManager.v: alerts/, hosts/host.go with the spaced set
      of hosts, and hosts/manager.go: importing, announcements, scans, unblocking.
    - Slabs.v, Objects.v: slabs/slabs.go, slabs/objects.go and slabs/encoding.go:
      slabs, their digests and the checks of pinned slabs, sealed objects, their
      identity, signatures and wire encoding, and the calls of slabs/manager.go.
    - HostQueue.v: client/v2/hostqueue.go: the statistics a client keeps of its
      hosts, the comparison, the picks that reserve transfers, the queue.
    - Uploads.v, Recovery.v, Migrations.v, Remote.v: slabs/uploads.go and
      slabs/downloads.go as step relations over the pool of hosts (an interface
      that the provider of HostQueue.v implements), slabs/migrations.go, and the
      remote workers of slabs/remote.go.
    - Integrity.v: slabs/sectorverifier.go and slabs/dataintegrity.go.
    - Accounts.v, Funder.v, Funding.v: accounts/, contracts/funder.go and
      contracts/funding.go: balances of service accounts, fund targets, backoff,
      topping up accounts contract by contract, quotas.
    - Sharing.v: sharing/: the requests that create and attach shared keys.
    - Text.v, Api.v, App.v, Connect.v, Cors.v: the application API (api/app): signed
      URLs and the parameters of requests, the handlers as functions from requests
      to responses, connecting an app, and the CORS routes.
    - Store.v: persist/postgres/store.go: transactions that are retried.
    - Tables.v: the tables of the database (persist/postgres/init.sql) as a record of
      finite maps, constraints as checks that fail with the code of PostgreSQL,
      counters and statistics; [commits], the rules for what a transaction that
      commits has done.
    - SlabTables.v, SectorTables.v, ContractTables.v, ContractQueries.v,
      HostTables.v, AppTables.v, FundingTables.v, SharingTables.v, WalletTables.v: the
      transactions of slabs.go, objects.go, blocked.go, sectors.go, contracts.go,
      hosts.go, apps.go, quotas.go, accounts.go, funding.go, sharing.go, wallet.go
      and chain.go of persist/postgres, statement by statement.
    - RepairStore.v, PinStore.v, Totals.v, SlabStore.v, ObjectStore.v,
      SectorStore.v, ContractStore.v, HostStore.v, References.v, AppStore.v: what
      each of them keeps of the invariant of the tables ([store_ok], [refs_ok]);
      History.v puts them together: [history] is any sequence of transactions.
    - Serving.v, PruneStore.v, ContractRefine.v, AppHistory.v, FundingStore.v,
      SharingStore.v, WalletStore.v: what clients of the store see; TablesWitness.v, AppWitness.v:
      concrete databases.
    - Subscriber.v: subscriber/subscriber.go: following the chain.
    - Deps.v: the interfaces of the contract manager (contracts/manager.go).
    - Pins.v: pins/manager.go: prices pinned to an external currency.
    - Form.v, Renew.v, Pinning.v, Pruning.v, Maintenance.v: contracts/form.go,
      renew.go, pinning.go, pruning.go, and one round of each loop of
      maintenance.go with broadcast.go.

    ** What is proved

    - The database keeps its data: over any history of transactions in which slabs are
      pinned only for accounts that are not deleted every slab that
      an account has pinned or an object refers to is stored with all its sectors,
      and the totals and counters of accounts, keys, hosts and statistics are the
      sums they stand for ([slab_tables_kept], [sharing_totals_kept]); what was
      stored is what is read back ([pinned_slab_roundtrip], [stored_object_roundtrip],
      [served_slices_match], [formed_contract_roundtrip], [shared_object_roundtrip]);
      limits hold ([pinned_within_limits], [register_within_quota],
      [preauth_uses_bounded]); queries list exactly what they say
      ([unhealthy_slabs_exact], [usability_filter_exact], [blocked_hosts_exact],
      [accounts_for_funding_exact], [contracts_for_funding_richest]); pruning
      removes what it should ([prune_slabs_complete]); contracts hand over their
      sectors ([renewal_hands_over], [deleted_contract_unpins]); the tables
      implement the store of revisions the revision manager is proved against
      ([tables_refine_revision_store]), and a transaction that is retried takes
      effect once or not at all ([transaction_atomic]).
    - The application API: requests reach only the data of the account that signed
      them, besides the object a share link names and the list of hosts
      ([requests_reach_own_data]), what is signed binds the request
      ([request_hash_binds]), an approval connects one account
      ([one_approval_one_account]), an object that was signed is stored, and no
      other ([signed_object_stored]), preflights are answered as the routes say
      ([options_tree_spec]).
    - Data survives: the shards a recovery returns are the ones that were stored,
      whatever order the reads end in ([recovered_shards_exact]); a sector moves
      exactly when it must ([sectors_to_migrate_exact]) and to hosts that fit
      ([migration_candidates], [migration_uploads_fit], [upload_hosts_distinct]); a
      slab counts as repaired only when every moved sector was recorded
      ([repaired_only_if_recorded]), and every result of a remote worker is
      reported once ([results_reported_once]); pruning never frees a sector the
      database refers to ([prune_keeps_referenced]); integrity checks record what
      the hosts answered ([verify_sectors_spec], [integrity_records_answers],
      [integrity_records_once]).
    - Identity and signatures: objects decode to what was encoded
      ([sealed_object_roundtrip]), identifiers and signature hashes bind what they
      are made of, or there is a hash collision ([object_id_binds],
      [sharing_sig_hash_binds]); only requests that pass the checks reach the store
      ([validate_slab_spec], [pin_signed_object], [sharing_requests_checked]).
    - Safety of what is sent to hosts: two hosts that agree on the requests within
      the limits give the same run, so no other request is made
      ([pin_within_limits], [fund_affordable], [with_revision_revisable]); new
      contracts are formed only with affordable, spaced hosts and never too many
      ([additional_contracts_spec]); a host keeps at most one empty contract
      ([renewals_one_empty]).
    - Consistency: stored revisions never go back ([with_revision_monotone]);
      reverting a block undoes applying it, except that it clears a link to a renewal
      that was recorded before the block ([chain_revert_apply],
      [chain_apply_spec], [wallet_revert_apply]); the subscriber implements the specification that follows
      the chain of the node ([sync_follows_chain]); locks exclude each other and
      make progress ([lock_exclusive], [lock_progress]); wallet inputs do not leak
      ([broadcast_leaks_nothing]).
    - Numbers: the floating point check of the erasure coding parameters decides
      the exact rule ([ec_params_float_exact]); converted prices are within a
      rounding of the exact quotient ([convert_currency_close], [rate_window],
      [pinned_settings_exact]).
    - Functional behaviour: the best contract per host ([collect_contracts_best]),
      the best hosts to read from ([pick_reads_best]), the predicates and
      calculations of contracts, balances ([service_account_balances]), addresses
      kept per announcement.
    - Further theorems, among them bounds, panics and overflow
      ([max_renewable_bounds], [max_renewable_panics], [backoff_overflows],
      [pauses_bounded]) and termination ([upload_terminates],
      [prune_loop_terminates], [prune_accounts_terminates]).

    The witnesses are in the module at the end of each file, with the
    counterexamples that delimit the theorems ([candidate_too_close],
    [metadata_bytes_move], [double_unnoticed], [drained_is_not_a_prefix], ...).

    ** Bounds and fuel

    A loop over a batch of the database carries fuel and returns [None] without
    it; the statements hold for every amount, or say how much is enough. The fuel
    of [chunks_from] is the number of chunks, of [performIntegrityChecksForHost]
    the number of batches. [ec_params_float_exact] is decided for slabs of up to
    30 shards, the size in use; beyond it the exact rule is not compared.

    The invariant of the tables holds for pins of less than 2^64 bytes in one request
    ([tx_ok]), which the limits of accounts imply for sensible slabs, and for accounts
    that are not deleted ([live_account]).

    ** Assumptions on the database

    Transactions run one after another (SERIALIZABLE or the locks they take); the
    locks themselves, SKIP LOCKED and the isolation levels are not modelled. Rows
    that a query does not order come in the order of a parameter. Times are
    nanoseconds, where PostgreSQL rounds to microseconds. Digests do not collide
    among the slabs that are hashed ([Hashed]). The columns of protocol structs that
    only the store reads are a pair of functions with their round trip as a law
    ([ContractColumns], [HostColumns]); secrets and keys that the program draws at
    random are arguments, and the collation of texts is one. PinSlabs is called for
    an account that is not deleted: the API checks this before the call, the store does
    not, and without it the totals go wrong ([pin_after_delete]).

    ** What is not modelled

    The concurrency across hosts of a maintenance pass (goroutines behind a
    semaphore; the contract lock they share is modelled), tickers and shutdown;
    the producers that feed migrations to workers. The administration API
    (api/admin), the command (cmd/, config/) and the HTTP clients: they forward to
    the parts above. The store of peers, funding events, the
    reports of statistics and the migrations of the schema; the explorer and the
    metrics. The geoip database is a parameter but for its distances. *)

From stdpp Require Export base tactics list gmap strings sorting relations.
From Stdlib Require Export ZArith Lia.

(** ** Notations and scopes *)

Declare Scope go_scope.
Delimit Scope go_scope with go.

(** ** Machine integers

    A Go [uint64] is a [Z] in [0, 2^64); an [int64] (and [int] on the supported
    64-bit platforms, and [time.Duration]) is a [Z] in [-2^63, 2^63). *)

Definition two64 : Z := 18446744073709551616.
Definition two63 : Z := 9223372036854775808.

(** [u64 z] is the value of a [uint64] expression whose exact result is [z]. *)
Definition u64 (z : Z) : Z := (z mod two64)%Z.

(** [i64 z] is the value of an [int64] expression whose exact result is [z]. *)
Definition i64 (z : Z) : Z := ((z + two63) mod two64 - two63)%Z.

Definition is_u64 (z : Z) : Prop := (0 <= z < two64)%Z.
Definition is_i64 (z : Z) : Prop := (- two63 <= z < two63)%Z.

Lemma u64_range z : is_u64 (u64 z).
Proof. unfold is_u64, u64, two64. apply Z.mod_pos_bound. lia. Qed.

Lemma u64_id z : is_u64 z → u64 z = z.
Proof. intros H. unfold u64. by apply Z.mod_small. Qed.

Lemma i64_range z : is_i64 (i64 z).
Proof.
  unfold is_i64, i64, two64, two63.
  pose proof (Z.mod_pos_bound (z + 9223372036854775808) 18446744073709551616). lia.
Qed.

Lemma i64_id z : is_i64 z → i64 z = z.
Proof.
  unfold is_i64, i64, two64, two63. intros H. rewrite Z.mod_small; lia.
Qed.

Lemma i64_add_i64 a b : i64 (i64 a + b) = i64 (a + b).
Proof.
  unfold i64. f_equal.
  replace ((a + two63) mod two64 - two63 + b + two63)%Z with ((a + two63) mod two64 + b)%Z by lia.
  rewrite Zplus_mod_idemp_l. f_equal. lia.
Qed.

Lemma u64_add_wrap a b :
  is_u64 a → is_u64 b → (two64 <= a + b)%Z → u64 (a + b) = (a + b - two64)%Z.
Proof.
  unfold is_u64, u64. intros Ha Hb Hw.
  symmetry. apply Z.mod_unique with (q := 1%Z); unfold two64 in *; lia.
Qed.

(** ** Identifiers

    The 32-byte identifiers of the program (public keys, contract ids, hashes)
    are only compared, stored and used as map keys by the modelled code; they
    are the natural number their bytes spell, so the all-zero value is [0]. *)

Abbreviation Hash256 := N (only parsing).
Abbreviation PublicKey := N (only parsing).
Abbreviation FileContractID := N (only parsing).

(** ** Errors

    A Go [error] value: a sentinel of the program or of a library, a message,
    or the wrapping [fmt.Errorf("pre %w post", e)]. [error_string] is [Error()],
    [errors_Is] is [errors.Is] for a sentinel target, which looks through
    wrapping; [EJoin] is [errors.Join] and [EWrap2] is [fmt.Errorf] with two [%w],
    which keep both errors. A message with other verbs is its format string. *)

Inductive error :=
  | ESentinel (text : string)
  | EMsg (text : string)
  | EWrap (pre : string) (e : error) (post : string)
  | EJoin (e1 e2 : error)
  | EWrap2 (e1 : error) (mid : string) (e2 : error).

#[export] Instance error_eq_dec : EqDecision error.
Proof. solve_decision. Defined.

Fixpoint error_string (e : error) : string :=
  match e with
  | ESentinel t | EMsg t => t
  | EWrap pre e post => (pre +:+ error_string e +:+ post)%string
  | EJoin e1 e2 => (error_string e1 +:+ String (Ascii.ascii_of_nat 10) (error_string e2))%string
  | EWrap2 e1 mid e2 => (error_string e1 +:+ mid +:+ error_string e2)%string
  end.

Fixpoint errors_Is (e : error) (target : string) : bool :=
  match e with
  | ESentinel t => String.eqb t target
  | EMsg _ => false
  | EWrap _ e _ => errors_Is e target
  | EJoin e1 e2 | EWrap2 e1 _ e2 => errors_Is e1 target || errors_Is e2 target
  end.

(** [strings.Contains]. *)
Definition strings_Contains (s sub : string) : bool :=
  match String.index 0 sub s with Some _ => true | None => false end.

(** ** Time

    A [time.Time] is the number of nanoseconds since the zero time, a
    [time.Duration] is an [int64] of nanoseconds. [t.Sub(u)] saturates. *)

Definition Second : Z := 1000000000.
Definition Minute : Z := 60 * Second.
Definition Hour : Z := 60 * Minute.
Definition time_Sub (t u : Z) : Z := Z.max (- two63) (Z.min (two63 - 1) (t - u)).
Definition time_IsZero (t : Z) : bool := (t =? 0)%Z.

(** ** Contexts

    The errors of a context that is done. *)
Definition context_Canceled : string := "context canceled".
Definition context_DeadlineExceeded : string := "context deadline exceeded".
Definition is_ctx_err (e : error) : bool :=
  errors_Is e context_Canceled || errors_Is e context_DeadlineExceeded.

(** ** Results

    A Go call returns a value, returns an error, or panics. *)

Inductive result (A : Type) :=
  | Ok (a : A)
  | Err (e : error)
  | Panic.
Arguments Ok {A} a.
Arguments Err {A} e.
Arguments Panic {A}.

#[export] Instance result_eq_dec {A} `{EqDecision A} : EqDecision (result A).
Proof. solve_decision. Defined.

#[export] Instance result_ret : MRet result := @Ok.
#[export] Instance result_bind : MBind result :=
  λ A B f m, match m with Ok a => f a | Err e => Err e | Panic => Panic end.

(** [wrap pre r] is [if err != nil { return fmt.Errorf("pre%w", err) }]. *)
Definition wrap {A} (pre : string) (r : result A) : result A :=
  match r with Err e => Err (EWrap pre e "") | r => r end.

Definition is_ok {A} (r : result A) : bool := match r with Ok _ => true | _ => false end.

Definition of_option {A} (o : option A) : result A :=
  match o with Some a => Ok a | None => Panic end.

Lemma bind_ok {A B} (m : result A) (f : A → result B) b :
  (m ≫= f) = Ok b → ∃ a, m = Ok a ∧ f a = Ok b.
Proof. destruct m; simpl; naive_solver. Qed.

(** ** Stateful calls

    A call that may change the state [S]: the state survives errors and panics,
    as the heap and the database do. *)

Definition M (S A : Type) : Type := S → result A * S.

#[export] Instance M_ret {S} : MRet (M S) := λ A a s, (Ok a, s).
#[export] Instance M_bind {S} : MBind (M S) := λ A B f m s,
  match m s with
  | (Ok a, s') => f a s'
  | (Err e, s') => (Err e, s')
  | (Panic, s') => (Panic, s')
  end.

Definition bindM {S A B} (m : M S A) (f : A → M S B) : M S B := mbind f m.

Notation "'let*' x := m 'in' k" := (bindM m (λ x, k))
  (at level 200, x binder, m at level 100, k at level 200, right associativity) : go_scope.
Notation "m ;; k" := (bindM m (λ _ : unit, k))
  (at level 100, k at level 200, right associativity) : go_scope.

Definition throw {S A} (e : error) : M S A := λ s, (Err e, s).
Definition panic {S A} : M S A := λ s, (Panic, s).
Definition get {S} : M S S := λ s, (Ok s, s).
Definition gets {S A} (f : S → A) : M S A := λ s, (Ok (f s), s).
Definition modify {S} (f : S → S) : M S unit := λ s, (Ok tt, f s).
Definition lift {S A} (r : result A) : M S A := λ s, (r, s).

(** [try m] turns an error into a value, so the caller can inspect it; a panic
    still unwinds. *)
Definition try {S A} (m : M S A) : M S (result A) := λ s,
  match m s with
  | (Panic, s') => (Panic, s')
  | (r, s') => (Ok r, s')
  end.

Definition wrapM {S A} (pre : string) (m : M S A) : M S A := λ s,
  let '(r, s') := m s in (wrap pre r, s').

(** Run a call on the first component of a larger state: the callee does not see
    the caller's local variables [L]. *)
Definition lift1 {S L A} (m : M S A) : M (S * L) A := λ '(s, l), let '(r, s') := m s in (r, (s', l)).
(** Read and write the local variables. *)
Definition local {S L A} (f : L → A) : M (S * L) A := λ '(s, l), (Ok (f l), (s, l)).
Definition set_local {S L} (f : L → L) : M (S * L) unit := λ '(s, l), (Ok tt, (s, f l)).
(** Run [m] with fresh local variables and return their final values. *)
Definition with_locals {S L A} (l : L) (m : M (S * L) A) : M S (A * L) := λ s,
  match m (s, l) with
  | (Ok a, (s', l')) => (Ok (a, l'), s')
  | (Err e, (s', _)) => (Err e, s')
  | (Panic, (s', _)) => (Panic, s')
  end.

Definition when {S} (b : bool) (m : M S unit) : M S unit := if b then m else mret tt.

Fixpoint forM {S A} (l : list A) (f : A → M S unit) : M S unit :=
  match l with
  | [] => mret tt
  | x :: l => bindM (f x) (λ _, forM l f)
  end.

Fixpoint foldM {S A B} (f : B → A → M S B) (acc : B) (l : list A) : M S B :=
  match l with
  | [] => mret acc
  | x :: l => bindM (f acc x) (λ acc, foldM f acc l)
  end.

(** [for offset := 0; ; offset += batch]: fetch a page, process its elements,
    stop at a page that is not full. [None] when [fuel] pages were not enough. *)
Fixpoint pages {S A B} (fuel : nat) (batch offset : Z) (fetch : Z → M S (list A)) (f : B → A → M S B) (acc : B) :
    M S (option B) :=
  match fuel with
  | O => mret None
  | Datatypes.S fuel =>
      bindM (fetch offset) (λ l, bindM (foldM f acc l) (λ acc,
        if (Z.of_nat (length l) <? batch)%Z then mret (Some acc) else pages fuel batch (offset + batch) fetch f acc))
  end.

Lemma bindM_ok {S A B} (m : M S A) (f : A → M S B) s b s' :
  bindM m f s = (Ok b, s') → ∃ a s1, m s = (Ok a, s1) ∧ f a s1 = (Ok b, s').
Proof. unfold bindM, mbind, M_bind. destruct (m s) as [[a|e|] s1]; naive_solver. Qed.

(** A call that goes on after [m], or ends with it. *)
Lemma bindM_cases {S A B} (m : M S A) (f : A → M S B) s r s' :
  bindM m f s = (r, s') →
  (∃ a s1, m s = (Ok a, s1) ∧ f a s1 = (r, s')) ∨
  ((m s).2 = s' ∧ (∀ a, (m s).1 ≠ Ok a) ∧ ∀ b, r ≠ Ok b).
Proof. unfold bindM, mbind, M_bind. destruct (m s) as [[a|e|] s1]; intros H; [left; eauto|right; by injection H as <- <-..]. Qed.
Lemma wrapM_ok {S A} pre (m : M S A) s a s' : wrapM pre m s = (Ok a, s') → m s = (Ok a, s').
Proof. unfold wrapM. destruct (m s) as [[]?]; simpl; congruence. Qed.
Lemma wrapM_state {S A} pre (m : M S A) s : (wrapM pre m s).2 = (m s).2.
Proof. unfold wrapM. by destruct (m s). Qed.
Lemma try_state {S A} (m : M S A) s : (try m s).2 = (m s).2.
Proof. unfold try. by destruct (m s) as [[]?]. Qed.

(** Calls with the same runs give the same runs of what is built from them. *)
Lemma bindM_ext {S A B} (m m' : M S A) (f f' : A → M S B) s :
  m s = m' s → (∀ a s1, f a s1 = f' a s1) → bindM m f s = bindM m' f' s.
Proof. unfold bindM, mbind, M_bind. intros -> Hf. destruct (m' s) as [[a|e|] s1]; auto. Qed.
Lemma bindM_ext_ok {S A B} (m m' : M S A) (f f' : A → M S B) s :
  m s = m' s → (∀ a s1, m' s = (Ok a, s1) → f a s1 = f' a s1) → bindM m f s = bindM m' f' s.
Proof. unfold bindM, mbind, M_bind. intros -> Hf. destruct (m' s) as [[a|e|] s1]; auto. Qed.
Lemma with_locals_ext {S L A} (l : L) (m m' : M (S * L) A) s : m (s, l) = m' (s, l) → with_locals l m s = with_locals l m' s.
Proof. unfold with_locals. by intros ->. Qed.
Lemma try_ext {S A} (m m' : M S A) s : m s = m' s → try m s = try m' s.
Proof. unfold try. by intros ->. Qed.
Lemma wrapM_ext {S A} pre (m m' : M S A) s : m s = m' s → wrapM pre m s = wrapM pre m' s.
Proof. unfold wrapM. by intros ->. Qed.

Lemma bindM_assoc {S A B C} (m : M S A) (f : A → M S B) (g : B → M S C) s :
  bindM (bindM m f) g s = bindM m (λ a, bindM (f a) g) s.
Proof. unfold bindM, mbind, M_bind. by destruct (m s) as [[a|e|] s']. Qed.

Lemma foldM_app {S A B} (f : B → A → M S B) acc l1 l2 s :
  foldM f acc (l1 ++ l2) s = bindM (foldM f acc l1) (λ acc, foldM f acc l2) s.
Proof.
  revert acc s. induction l1 as [|x l1 IH]; intros acc s; simpl; [done|].
  rewrite bindM_assoc. by apply bindM_ext.
Qed.

Lemma foldM_ext {S A B} (f g : B → A → M S B) acc l s :
  (∀ acc x s, x ∈ l → f acc x s = g acc x s) → foldM f acc l s = foldM g acc l s.
Proof.
  revert acc s. induction l as [|x l IH]; intros acc s H; simpl; [done|].
  apply bindM_ext; [apply H; left|]. intros a s1. apply IH. intros b y s2 Hy. apply H. by right.
Qed.

(** A fold whose steps are pure. *)
Lemma foldM_pure {S A B} (f : B → A → B) acc (l : list A) (s : S) :
  foldM (λ acc x, mret (f acc x)) acc l s = (Ok (foldl f acc l), s).
Proof. revert acc. induction l as [|x l IH]; intros acc; simpl; [done|]. apply IH. Qed.

(** With a store that pages through [l], enough fuel processes all of [l]. *)
Lemma pages_all {S A B} fuel (batch : Z) (fetch : Z → M S (list A)) (f : B → A → M S B) acc l s :
  (0 < batch)%Z →
  (∀ offset s, (0 ≤ offset)%Z → fetch offset s = (Ok (take (Z.to_nat batch) (drop (Z.to_nat offset) l)), s)) →
  (Z.of_nat (length l) < Z.of_nat fuel * batch)%Z →
  pages fuel batch 0 fetch f acc s = bindM (foldM f acc l) (λ acc, mret (Some acc)) s.
Proof.
  intros Hb Hfetch Hfuel.
  assert (∀ fuel offset acc s, (0 ≤ offset)%Z → (Z.of_nat (length l) - offset < Z.of_nat fuel * batch)%Z →
    (offset ≤ Z.of_nat (length l))%Z →
    pages fuel batch offset fetch f acc s = bindM (foldM f acc (drop (Z.to_nat offset) l)) (λ acc, mret (Some acc)) s) as Hgen.
  2: { rewrite Hgen by lia. done. }
  clear Hfuel acc s fuel. induction fuel as [|fuel IH]; intros offset acc s Ho Hlen Hle; [lia|].
  simpl. unfold bindM at 1, mbind, M_bind. rewrite Hfetch by done. rewrite length_take, length_drop.
  destruct (Z.ltb_spec (Z.of_nat (Z.to_nat batch `min` (length l - Z.to_nat offset))) batch) as [Hlt|Hge].
  - rewrite take_ge by (rewrite length_drop; lia). done.
  - rewrite <-(take_drop (Z.to_nat batch) (drop (Z.to_nat offset) l)) at 2.
    etrans; [|symmetry; apply (bindM_ext _ (bindM (foldM f acc (take (Z.to_nat batch) (drop (Z.to_nat offset) l)))
      (λ acc, foldM f acc (drop (Z.to_nat batch) (drop (Z.to_nat offset) l)))) _ (λ acc, mret (Some acc))); [apply foldM_app|done]].
    rewrite bindM_assoc. apply bindM_ext; [done|]. intros acc' s'.
    rewrite IH by lia. rewrite drop_drop. by replace (Z.to_nat offset + Z.to_nat batch) with (Z.to_nat (offset + batch)) by lia.
Qed.

(** *** Weakest preconditions

    [wp m Q s]: called in [s], [m] returns a result and a state that satisfy
    [Q]. [bindM] composes: the continuation only runs on [Ok]. *)

Definition wp {S A} (m : M S A) (Q : result A → S → Prop) (s : S) : Prop := Q (m s).1 (m s).2.

(** The postcondition of [m] in [bindM m f]. *)
Definition on_ok {S A B} (f : A → S → Prop) (Q : result B → S → Prop) (r : result A) (s : S) : Prop :=
  match r with Ok a => f a s | Err e => Q (Err e) s | Panic => Q Panic s end.

Section wp.
Context {S : Type}.

Lemma wp_elim {A} (m : M S A) Q s r s' : m s = (r, s') → wp m Q s → Q r s'.
Proof. unfold wp. by intros ->. Qed.
Lemma wp_intro {A} (m : M S A) (Q : result A → S → Prop) s :
  (∀ r s', m s = (r, s') → Q r s') → wp m Q s.
Proof. unfold wp. destruct (m s) as [r s']. naive_solver. Qed.
Lemma wp_mono {A} (m : M S A) (Q Q' : result A → S → Prop) s :
  (∀ r s', Q r s' → Q' r s') → wp m Q s → wp m Q' s.
Proof. unfold wp. naive_solver. Qed.
Lemma wp_bind {A B} (m : M S A) (f : A → M S B) Q s :
  wp m (on_ok (λ a, wp (f a) Q) Q) s → wp (bindM m f) Q s.
Proof. unfold wp, bindM, mbind, M_bind. by destruct (m s) as [[a|e|] s1]. Qed.
Lemma wp_ret {A} (a : A) Q s : Q (Ok a) s → wp (mret a : M S A) Q s.
Proof. done. Qed.
Lemma wp_throw {A} e (Q : result A → S → Prop) s : Q (Err e) s → wp (throw e) Q s.
Proof. done. Qed.
Lemma wp_panic {A} (Q : result A → S → Prop) s : Q Panic s → wp panic Q s.
Proof. done. Qed.
Lemma wp_lift {A} (r : result A) (Q : result A → S → Prop) s : Q r s → wp (lift r) Q s.
Proof. done. Qed.
Lemma wp_gets {A} (f : S → A) (Q : result A → S → Prop) s : Q (Ok (f s)) s → wp (gets f) Q s.
Proof. done. Qed.
Lemma wp_modify (f : S → S) (Q : result unit → S → Prop) s : Q (Ok tt) (f s) → wp (modify f) Q s.
Proof. done. Qed.
Lemma wp_try {A} (m : M S A) (Q : result (result A) → S → Prop) s :
  wp m (λ r s', match r with Panic => Q Panic s' | _ => Q (Ok r) s' end) s → wp (try m) Q s.
Proof. unfold wp, try. by destruct (m s) as [[a|e|] s1]. Qed.
Lemma wp_wrapM {A} pre (m : M S A) Q s :
  wp m (λ r s', Q (wrap pre r) s') s → wp (wrapM pre m) Q s.
Proof. unfold wp, wrapM. by destruct (m s) as [r s1]. Qed.
Lemma wp_local {L A} (f : L → A) (Q : result A → S * L → Prop) p : Q (Ok (f p.2)) p → wp (local f) Q p.
Proof. by destruct p. Qed.
Lemma wp_set_local {L} (f : L → L) (Q : result unit → S * L → Prop) p : Q (Ok tt) (p.1, f p.2) → wp (set_local f) Q p.
Proof. by destruct p. Qed.
Lemma wp_lift1 {L A} (m : M S A) (Q : result A → S * L → Prop) p :
  wp m (λ r s, Q r (s, p.2)) p.1 → wp (lift1 m) Q p.
Proof. destruct p as [s l]. unfold wp. simpl. by destruct (m s). Qed.
Lemma wp_forM {A} (I : S → Prop) (f : A → M S unit) (l : list A) Q s :
  I s →
  (∀ x s, x ∈ l → I s → wp (f x) (on_ok (λ _, I) Q) s) →
  (∀ s, I s → Q (Ok tt) s) →
  wp (forM l f) Q s.
Proof.
  revert s. induction l as [|x l IH]; intros s HI Hf HQ; simpl; [by apply wp_ret, HQ|].
  apply wp_bind. eapply wp_mono; [|apply Hf; [left|done]].
  intros [[]|e|] s'; simpl; [|done..]. intros HI'. apply IH; [done| |done].
  intros y s'' Hy. apply Hf. by right.
Qed.
End wp.

(** ** Lists *)

Lemma filter_all {A} (P : A → Prop) `{∀ x, Decision (P x)} (l : list A) :
  (∀ x, x ∈ l → P x) → filter P l = l.
Proof.
  induction l as [|x l IH]; [done|]. intros HP. rewrite filter_cons, decide_True by (apply HP; left).
  f_equal. apply IH. intros y Hy. apply HP. by right.
Qed.

Lemma filter_none {A} (P : A → Prop) `{∀ x, Decision (P x)} (l : list A) :
  (∀ x, x ∈ l → ¬ P x) → filter P l = [].
Proof.
  induction l as [|x l IH]; [done|]. intros HP. rewrite filter_cons, decide_False by (apply HP; left).
  apply IH. intros y Hy. apply HP. by right.
Qed.

(** ** Tactics *)

(** Split every conjunction, conditional and match the context offers. *)
Ltac go_split :=
  repeat match goal with
  | H : _ ∧ _ |- _ => destruct H
  | H : ∃ _, _ |- _ => destruct H
  | H : (_, _) = (_, _) |- _ => injection H as H; subst
  | H : Ok _ = Ok _ |- _ => injection H as H; subst
  | H : Err _ = Err _ |- _ => injection H as H; subst
  | H : Some _ = Some _ |- _ => injection H as H; subst
  | H : Ok _ = Err _ |- _ => discriminate H
  | H : Err _ = Ok _ |- _ => discriminate H
  | H : Ok _ = Panic |- _ => discriminate H
  | H : Panic = Ok _ |- _ => discriminate H
  | H : Err _ = Panic |- _ => discriminate H
  | H : Panic = Err _ |- _ => discriminate H
  | H : None = Some _ |- _ => discriminate H
  | H : Some _ = None |- _ => discriminate H
  end.

(** Case analysis on the first [match] scrutinee of a hypothesis. *)
Ltac case_in H :=
  match type of H with
  | context [match ?x with _ => _ end] =>
      lazymatch x with
      | context [match _ with _ => _ end] => fail
      | _ => destruct x eqn:?
      end
  end.

Create HintDb go discriminated.

(** One step of a call under [wp]. *)
Ltac wp_step :=
  lazymatch goal with
  | |- wp (bindM _ _) _ _ => apply wp_bind
  | |- wp (mret _) _ _ => apply wp_ret
  | |- wp (throw _) _ _ => apply wp_throw
  | |- wp panic _ _ => apply wp_panic
  | |- wp (lift _) _ _ => apply wp_lift
  | |- wp (gets _) _ _ => apply wp_gets
  | |- wp (modify _) _ _ => apply wp_modify
  | |- wp (try _) _ _ => apply wp_try
  | |- wp (wrapM _ _) _ _ => apply wp_wrapM
  | |- wp (local _) _ _ => apply wp_local; cbn [snd]
  | |- wp (set_local _) _ _ => apply wp_set_local; cbn [fst snd]
  | |- wp (lift1 _) _ _ => apply wp_lift1; cbn [fst snd]
  | |- wp (when ?b _) _ _ => unfold when; destruct b eqn:?
  | |- wp (match ?x with _ => _ end) _ _ => destruct x eqn:?
  | |- on_ok _ _ (wrap _ ?r) _ => is_var r; destruct r; simpl
  | |- on_ok _ _ ?r _ => first [ is_var r; destruct r | idtac ]; simpl
  | |- match ?x with _ => _ end => destruct x eqn:?
  | |- match ?x with _ => _ end _ => destruct x eqn:?
  end; cbv beta; simpl on_ok; simpl wrap.
Ltac wp_steps := repeat wp_step.
