(* ===== verification/Float.v ===== *)
(** * Floating point

    Go's [float64] is IEEE 754 binary64, evaluated without fused operations; the
    operations are those of the Standard Library's specification floats at
    precision 53. *)

From S2P Require Import Prelude.
From Stdlib Require Export SpecFloat.

Abbreviation float64 := spec_float (only parsing).
Definition fadd : float64 → float64 → float64 := SFadd 53 1024.
Definition fsub : float64 → float64 → float64 := SFsub 53 1024.
Definition fmul : float64 → float64 → float64 := SFmul 53 1024.
Definition fdiv : float64 → float64 → float64 := SFdiv 53 1024.
Definition fsqrt : float64 → float64 := SFsqrt 53 1024.
Definition flt : float64 → float64 → bool := SFltb.
(** [float64(z)] of an integer *)
Definition of_int (z : Z) : float64 := binary_normalize 53 1024 z 0 false.
(** The float nearest to [num / 10^k], as the compiler rounds a decimal
    constant; [k] is at most 15 and [num] below [2^53], so that one division of
    exact floats rounds correctly. *)
Definition of_decimal (num : Z) (k : nat) : float64 := fdiv (of_int num) (of_int (10 ^ Z.of_nat k)).
(** [math.Pi], rounded to a [float64] *)
Definition Pi : float64 := S754_finite false 7074237752028440 (-51).

Example of_decimal_half : of_decimal 5 1 = S754_finite false 4503599627370496 (-53).
Proof. reflexivity. Qed.

#[global] Arguments fadd : simpl never.
#[global] Arguments fsub : simpl never.
#[global] Arguments fmul : simpl never.
#[global] Arguments fdiv : simpl never.
#[global] Arguments fsqrt : simpl never.
#[global] Arguments flt : simpl never.
#[global] Arguments of_int : simpl never.

(** ** Symmetry *)

(** Equal up to the sign bit. *)
Definition same_abs (x y : float64) : Prop := x = y ∨ x = SFopp y.

Lemma SFopp_involutive x : SFopp (SFopp x) = x.
Proof. destruct x as [s|s| |s m e]; simpl; rewrite ?negb_involutive; done. Qed.

Lemma fmul_comm x y : fmul x y = fmul y x.
Proof.
  unfold fmul. destruct x as [sx|sx| |sx mx ex], y as [sy|sy| |sy my ey]; simpl; try (by rewrite (xorb_comm sx)); try done.
  by rewrite (xorb_comm sx), Pos.mul_comm, Z.add_comm.
Qed.

Lemma round_aux_opp s m e l :
  binary_round_aux 53 1024 (negb s) m e l = SFopp (binary_round_aux 53 1024 s m e l).
Proof.
  unfold binary_round_aux. destruct (shr_fexp _ _ m e l) as [r1 e1].
  destruct (shr_fexp _ _ (round_nearest_even _ _) _ _) as [r2 e2].
  destruct (shr_m r2); simpl; [done| |done]. by destruct (e2 <=? _)%Z.
Qed.

Lemma normalize_opp z e : same_abs (binary_normalize 53 1024 (- z) e false) (binary_normalize 53 1024 z e false).
Proof.
  unfold binary_normalize. destruct z as [|p|p]; simpl; [by left|right..].
  all: unfold binary_round; destruct (shl_align _ _ _) as [mz ez].
  - apply (round_aux_opp false).
  - apply (round_aux_opp true).
Qed.

Lemma fsub_swap x y : same_abs (fsub y x) (fsub x y).
Proof.
  unfold fsub. destruct x as [sx|sx| |sx mx ex], y as [sy|sy| |sy my ey]; simpl;
    try (by left); try (by right; simpl; rewrite ?negb_involutive).
  - destruct sx, sy; by (left + right).
  - destruct sx, sy; by (left + right).
  - rewrite Z.min_comm.
    set (a := cond_Zopp sx _). set (b := cond_Zopp sy _).
    replace (b - a)%Z with (- (a - b))%Z by lia. apply normalize_opp.
Qed.

Lemma fmul_opp x y : fmul (SFopp x) y = SFopp (fmul x y).
Proof.
  unfold fmul. destruct x as [sx|sx| |sx mx ex], y as [sy|sy| |sy my ey]; simpl; try done;
    rewrite ?negb_xorb_l; try done.
  rewrite <-negb_xorb_l. apply round_aux_opp.
Qed.

Lemma fdiv_opp x y : fdiv (SFopp x) y = SFopp (fdiv x y).
Proof.
  unfold fdiv. destruct x as [sx|sx| |sx mx ex], y as [sy|sy| |sy my ey]; simpl; try done;
    rewrite ?negb_xorb_l; try done.
  destruct (SFdiv_core_binary _ _ _ _ _ _) as [[mz ez] lz].
  rewrite <-negb_xorb_l. apply round_aux_opp.
Qed.

Lemma same_abs_mul x x' y : same_abs x x' → same_abs (fmul x y) (fmul x' y).
Proof. intros [->| ->]; [by left|]. right. apply fmul_opp. Qed.
Lemma same_abs_div x x' y : same_abs x x' → same_abs (fdiv x y) (fdiv x' y).
Proof. intros [->| ->]; [by left|]. right. apply fdiv_opp. Qed.
Lemma same_abs_square x x' : same_abs x x' → fmul x x = fmul x' x'.
Proof.
  intros [->| ->]; [done|]. by rewrite fmul_opp, fmul_comm, fmul_opp, SFopp_involutive.
Qed.

(** ** Conversions to integers *)

(** [int64(f)]: the fraction is dropped; the Go specification leaves the result
    open when it does not fit, so [oor] is a parameter. *)
Definition to_int64 (oor : float64 → Z) (f : float64) : Z :=
  match f with
  | S754_zero _ => 0
  | S754_finite s m e =>
      let z := if (0 <=? e)%Z then (Z.pos m * 2 ^ e)%Z else (Z.pos m / 2 ^ (- e))%Z in
      let z := if s : bool then (- z)%Z else z in
      if ((- two63 <=? z) && (z <? two63))%Z then z else oor f
  | _ => oor f
  end.

(** [d.Seconds()] of a duration *)
Definition duration_Seconds (d : Z) : float64 :=
  fadd (of_int (Z.quot d Second)) (fdiv (of_int (Z.rem d Second)) (of_int (10 ^ 9))).
