(* ===== verification/Order.v ===== *)
(** * Comparison functions and stable sorting

    A Go comparison function returns a negative number, zero or a positive number.
    [sort.SliceStable] with a comparison that is a total preorder has one result,
    the one of a stable insertion sort. [float_Compare] is [cmp.Compare] on
    [float64]. *)

From S2P Require Import Prelude Float.

(** A comparison function that orders its arguments, up to ties. *)
Record preorder {A} (c : A → A → Z) : Prop := {
  pre_anti : ∀ a b, Z.sgn (c b a) = (- Z.sgn (c a b))%Z;
  pre_trans : ∀ x y z, (c x y ≤ 0 → c y z ≤ 0 → c x z ≤ 0)%Z }.

(** [cmp.Compare] on integers *)
Definition int_Compare (x y : Z) : Z := match (x ?= y)%Z with Lt => -1 | Eq => 0 | Gt => 1 end.

(** Compare by [c1], ties by [c2]. *)
Definition then_by {A} (c1 c2 : A → A → Z) (a b : A) : Z := if (c1 a b =? 0)%Z then c2 a b else c1 a b.

Section preorder.
Context {A : Type}.
Implicit Types c : A → A → Z.

Lemma pre_refl c a : preorder c → c a a = 0%Z.
Proof. intros H. pose proof (pre_anti c H a a). destruct (c a a); simpl in *; lia. Qed.

Lemma pre_neg c a b : preorder c → (c a b ≤ 0 ↔ 0 ≤ c b a)%Z.
Proof. intros H. pose proof (pre_anti c H a b). destruct (c a b), (c b a); simpl in *; lia. Qed.

Lemma pre_zero c a b : preorder c → (c a b = 0 ↔ c b a = 0)%Z.
Proof. intros H. pose proof (pre_anti c H a b). destruct (c a b), (c b a); simpl in *; lia. Qed.

(** [c2] only has to order the elements that [c1] ties. *)
Lemma then_by_preorder c1 c2 :
  preorder c1 →
  (∀ a b, c1 a b = 0%Z → Z.sgn (c2 b a) = - Z.sgn (c2 a b))%Z →
  (∀ x y z, c1 x y = 0 → c1 y z = 0 → c2 x y ≤ 0 → c2 y z ≤ 0 → c2 x z ≤ 0)%Z →
  preorder (then_by c1 c2).
Proof.
  intros H1 Ha Ht. split.
  - intros a b. unfold then_by. pose proof (pre_anti c1 H1 a b). pose proof (pre_zero c1 a b H1).
    destruct (Z.eqb_spec (c1 a b) 0), (Z.eqb_spec (c1 b a) 0); auto; lia.
  - intros x y z. unfold then_by.
    pose proof (pre_trans c1 H1 x y z) as T1. pose proof (pre_trans c1 H1 y z x) as T2.
    pose proof (pre_trans c1 H1 z x y) as T3. specialize (Ht x y z).
    pose proof (pre_neg c1 x y H1). pose proof (pre_neg c1 y z H1). pose proof (pre_neg c1 z x H1).
    pose proof (pre_neg c1 y x H1). pose proof (pre_neg c1 z y H1). pose proof (pre_neg c1 x z H1).
    destruct (Z.eqb_spec (c1 x y) 0), (Z.eqb_spec (c1 y z) 0), (Z.eqb_spec (c1 x z) 0); lia.
Qed.

Lemma pull_preorder {B} (c : B → B → Z) (f : A → B) : preorder c → preorder (λ a b, c (f a) (f b)).
Proof. intros H. split; intros; [by apply pre_anti|by eapply pre_trans]. Qed.

Lemma flip_preorder c : preorder c → preorder (λ a b, c b a).
Proof. intros H. split; intros; [by apply pre_anti|by eapply pre_trans]. Qed.

Lemma ext_preorder c c' : (∀ a b, c a b = c' a b) → preorder c' → preorder c.
Proof. intros He H. split; intros *; rewrite !He; [by apply pre_anti|by eapply pre_trans]. Qed.
End preorder.

Lemma int_preorder : preorder int_Compare.
Proof.
  unfold int_Compare. split.
  - intros a b. destruct (Z.compare_spec a b), (Z.compare_spec b a); simpl; lia.
  - intros x y z. destruct (Z.compare_spec x y), (Z.compare_spec y z), (Z.compare_spec x z); lia.
Qed.

(** ** Floats *)

(** A NaN is less than any number and equal to a NaN. *)
Definition is_nan (x : float64) : bool := match x with S754_nan => true | _ => false end.
Definition float_Compare (x y : float64) : Z :=
  if is_nan x then (if is_nan y then 0 else -1)
  else if is_nan y then 1
  else if flt x y then -1 else if flt y x then 1 else 0.

(** The place of a float on the line. *)
Definition float_key (x : float64) : Z * (Z * Z) :=
  match x with
  | S754_nan => (-3, (0, 0))
  | S754_infinity s => (if s then -2 else 2, (0, 0))
  | S754_zero _ => (0, (0, 0))
  | S754_finite s m e => if s then (-1, (- e, Z.neg m)) else (1, (e, Z.pos m))
  end%Z.

Definition key_Compare : Z * (Z * Z) → Z * (Z * Z) → Z :=
  then_by (λ a b, int_Compare a.1 b.1)
    (then_by (λ a b, int_Compare a.2.1 b.2.1) (λ a b, int_Compare a.2.2 b.2.2)).

Lemma key_preorder : preorder key_Compare.
Proof.
  assert (∀ f : Z * (Z * Z) → Z, preorder (λ a b, int_Compare (f a) (f b))) as H
    by (intros f; apply (pull_preorder int_Compare f int_preorder)).
  assert (preorder (then_by (λ a b : Z * (Z * Z), int_Compare a.2.1 b.2.1) (λ a b, int_Compare a.2.2 b.2.2))) as H2.
  { apply then_by_preorder; [apply (H (λ a, a.2.1))|intros; by apply (pre_anti _ (H (λ a, a.2.2)))|].
    intros x y z _ _. apply (pre_trans _ (H (λ a, a.2.2))). }
  apply then_by_preorder; [apply (H fst)|intros; by apply pre_anti|].
  intros x y z _ _. by apply pre_trans.
Qed.

Lemma float_Compare_key x y : float_Compare x y = key_Compare (float_key x) (float_key y).
Proof.
  unfold float_Compare, flt, SFltb, key_Compare, then_by, int_Compare.
  destruct x as [[]|[]| |[] m e], y as [[]|[]| |[] m' e']; try done; simpl.
  - rewrite !Z.compare_opp. destruct (Z.compare_spec e e') as [->|H|H]; simpl.
    + rewrite Z.compare_refl. simpl.
      change (PosDef.Pos.compare_cont Eq m m') with (m ?= m')%positive.
      change (PosDef.Pos.compare_cont Eq m' m) with (m' ?= m)%positive. rewrite (Pos.compare_antisym m m'). by destruct (m ?= m')%positive.
    + rewrite (proj2 (Z.compare_gt_iff _ _) H). done.
    + rewrite (proj2 (Z.compare_lt_iff _ _) H). done.
  - destruct (Z.compare_spec e e') as [->|H|H]; simpl.
    + rewrite Z.compare_refl. simpl.
      change (PosDef.Pos.compare_cont Eq m m') with (m ?= m')%positive.
      change (PosDef.Pos.compare_cont Eq m' m) with (m' ?= m)%positive. rewrite (Pos.compare_antisym m m'). by destruct (m ?= m')%positive.
    + done.
    + rewrite (proj2 (Z.compare_lt_iff _ _) H). done.
Qed.

Lemma float_preorder : preorder float_Compare.
Proof.
  eapply ext_preorder; [apply float_Compare_key|]. apply (pull_preorder key_Compare float_key key_preorder).
Qed.

(** ** Stable sorting *)

Section sort.
Context {A : Type} (c : A → A → Z).

(** Before the first element that is not smaller. *)
Fixpoint insert_before (x : A) (l : list A) : list A :=
  match l with
  | [] => [x]
  | y :: l' => if (c y x <? 0)%Z then y :: insert_before x l' else x :: l
  end.

(** [sort.SliceStable(l, func(i, j) { return c(l[i], l[j]) < 0 })] *)
Definition SliceStable (l : list A) : list A := foldr insert_before [] l.

Lemma insert_before_perm x l : insert_before x l ≡ₚ x :: l.
Proof.
  induction l as [|y l IH]; simpl; [done|]. destruct (c y x <? 0)%Z; [|done]. rewrite IH. constructor.
Qed.

Lemma SliceStable_perm l : SliceStable l ≡ₚ l.
Proof. induction l as [|x l IH]; [done|]. simpl. by rewrite insert_before_perm, IH. Qed.

Hypothesis Hc : preorder c.

Lemma insert_before_sorted x l :
  StronglySorted (λ a b, c a b ≤ 0)%Z l → StronglySorted (λ a b, c a b ≤ 0)%Z (insert_before x l).
Proof.
  induction 1 as [|y l Hs IH Hy]; simpl; [repeat constructor|].
  destruct (Z.ltb_spec (c y x) 0) as [Hlt|Hge].
  - constructor; [done|]. rewrite insert_before_perm. constructor; [lia|done].
  - assert (c x y ≤ 0)%Z as Hxy by (by apply pre_neg).
    constructor; [by constructor|]. constructor; [done|].
    eapply Forall_impl; [exact Hy|]. intros z Hz. by eapply (pre_trans c Hc x y z).
Qed.

Lemma SliceStable_sorted l : StronglySorted (λ a b, c a b ≤ 0)%Z (SliceStable l).
Proof. induction l as [|x l IH]; [constructor|]. by apply insert_before_sorted. Qed.

(** The first [n] elements are not after the others. *)
Lemma SliceStable_best l n a b :
  a ∈ take n (SliceStable l) → b ∈ drop n (SliceStable l) → (c a b ≤ 0)%Z.
Proof.
  pose proof (SliceStable_sorted l) as H. revert n. induction H as [|x l' Hs IH Hx]; intros n Ha Hb.
  - rewrite take_nil in Ha. by apply elem_of_nil in Ha.
  - destruct n as [|n]; simpl in *; [by apply elem_of_nil in Ha|].
    apply elem_of_cons in Ha as [->|Ha]; [|by eapply IH].
    rewrite Forall_forall in Hx. apply Hx. rewrite <-(take_drop n l'). apply elem_of_app. by right.
Qed.
End sort.
