(* ===== verification/Net.v ===== *)
(** * The parts of Go's net and strconv packages the program uses

    [net.SplitHostPort], [strconv.Atoi] and [net.IPNet.Contains], on byte
    strings. *)

From S2P Require Import Prelude.
From Stdlib Require Import Ascii.
From Stdlib Require String.

Definition bytes := list ascii.
(** The bytes of a Go string, and back. *)
Definition bytes_of : string → bytes := String.list_ascii_of_string.
Definition string_of : bytes → string := String.string_of_list_ascii.

Definition colon : ascii := ":"%char.
Definition lbrack : ascii := "["%char.
Definition rbrack : ascii := "]"%char.

Fixpoint indexByte (s : bytes) (c : ascii) : option nat :=
  match s with
  | [] => None
  | x :: s => if Ascii.eqb x c then Some 0 else S <$> indexByte s c
  end.

Fixpoint lastIndexByte (s : bytes) (c : ascii) : option nat :=
  match s with
  | [] => None
  | x :: s =>
      match lastIndexByte s c with
      | Some i => Some (S i)
      | None => if Ascii.eqb x c then Some 0 else None
      end
  end.

Definition hasByte (s : bytes) (c : ascii) : bool := match indexByte s c with Some _ => true | None => false end.

(** [net.SplitHostPort] *)
Definition SplitHostPort (hostport : bytes) : result (bytes * bytes) :=
  match lastIndexByte hostport colon with
  | None => Err (EMsg "missing port in address")
  | Some i =>
      let port := drop (i + 1) hostport in
      let finish host j k :=
        if hasByte (drop j hostport) lbrack then Err (EMsg "unexpected '[' in address")
        else if hasByte (drop k hostport) rbrack then Err (EMsg "unexpected ']' in address")
        else Ok (host, port) in
      match hostport with
      | x :: _ =>
          if Ascii.eqb x lbrack then
            match indexByte hostport rbrack with
            | None => Err (EMsg "missing ']' in address")
            | Some e =>
                if Nat.eqb (e + 1) (length hostport) then Err (EMsg "missing port in address")
                else if Nat.eqb (e + 1) i then finish (take (e - 1) (drop 1 hostport)) 1 (e + 1)
                else match nth_error hostport (e + 1) with
                     | Some c => if Ascii.eqb c colon then Err (EMsg "too many colons in address")
                                 else Err (EMsg "missing port in address")
                     | None => Err (EMsg "missing port in address")
                     end
            end
          else
            let host := take i hostport in
            if hasByte host colon then Err (EMsg "too many colons in address") else finish host 0 0
      | [] => Err (EMsg "missing port in address")
      end
  end.

Definition digit (c : ascii) : option Z :=
  let n := Z.of_nat (nat_of_ascii c) in
  if ((48 <=? n) && (n <=? 57))%Z then Some (n - 48)%Z else None.

Fixpoint digits (s : bytes) (acc : Z) : option Z :=
  match s with
  | [] => Some acc
  | c :: s => match digit c with Some d => digits s (acc * 10 + d)%Z | None => None end
  end.

(** [strconv.Atoi]: an optional sign and decimal digits, within an [int]. *)
Definition Atoi (s : bytes) : result Z :=
  let '(neg, ds) :=
    match s with
    | c :: r => if Ascii.eqb c "-" then (true, r) else if Ascii.eqb c "+" then (false, r) else (false, s)
    | [] => (false, [])
    end in
  match ds with
  | [] => Err (EMsg "invalid syntax")
  | _ =>
      match digits ds 0 with
      | None => Err (EMsg "invalid syntax")
      | Some n =>
          let n := if (neg : bool) then (- n)%Z else n in
          if ((- two63 <=? n) && (n <? two63))%Z then Ok n else Err (EMsg "value out of range")
      end
  end.

Example split_ipv4 : SplitHostPort (bytes_of "1.2.3.4:9984") =
  Ok (bytes_of "1.2.3.4", bytes_of "9984").
Proof. reflexivity. Qed.
Example split_ipv6 : SplitHostPort (bytes_of "[fe80::1]:80") =
  Ok (bytes_of "fe80::1", bytes_of "80").
Proof. reflexivity. Qed.
Example split_colons : is_ok (SplitHostPort (bytes_of "fe80::1:80")) = false.
Proof. reflexivity. Qed.
Example atoi_neg : Atoi (bytes_of "-42") = Ok (-42)%Z.
Proof. reflexivity. Qed.

(** ** IP addresses

    [net.IP] in its 4-byte or 16-byte form, as big-endian numbers. *)
Inductive IP := IPv4 (v : Z) | IPv6 (v : Z).

(** [ip.To4()] where it is not nil: the IPv4-mapped addresses ::ffff:0:0/96 are
    IPv4 addresses. *)
Definition To4 (ip : IP) : IP :=
  match ip with
  | IPv4 v => IPv4 v
  | IPv6 v => if (Z.shiftr v 32 =? 65535)%Z then IPv4 (v mod 2 ^ 32) else IPv6 v
  end.

(** The first [bits] bits of two [width]-bit addresses agree. *)
Definition same_prefix (v base bits width : Z) : bool :=
  (Z.shiftr v (width - bits) =? Z.shiftr base (width - bits))%Z.
Definition ipv4 (a b c d : Z) : Z := (((a * 256 + b) * 256 + c) * 256 + d)%Z.

(** A network in CIDR notation and [net.IPNet.Contains]. *)
Inductive IPNet := Net4 (base bits : Z) | Net6 (base bits : Z).
Definition Contains (n : IPNet) (ip : IP) : bool :=
  match n, To4 ip with
  | Net4 base bits, IPv4 v => same_prefix v base bits 32
  | Net6 base bits, IPv6 v => same_prefix v base bits 128
  | _, _ => false
  end.

Definition IsLoopback (ip : IP) : bool :=
  match To4 ip with
  | IPv4 v => same_prefix v (ipv4 127 0 0 0) 8 32
  | IPv6 v => (v =? 1)%Z
  end.
Definition IsLinkLocalUnicast (ip : IP) : bool :=
  match To4 ip with
  | IPv4 v => same_prefix v (ipv4 169 254 0 0) 16 32
  | IPv6 v => same_prefix v (Z.shiftl 65152 112) 10 128
  end.
(** 224.0.0.0/24, and ff?2::/16 whatever the flags *)
Definition IsLinkLocalMulticast (ip : IP) : bool :=
  match To4 ip with
  | IPv4 v => same_prefix v (ipv4 224 0 0 0) 24 32
  | IPv6 v => (Z.land (Z.shiftr v 112) 65295 =? 65282)%Z
  end.
