(* ===== verification/Text.v ===== *)
(** * Text forms: encoding/base64 and decimal integers

    [base64.URLEncoding], decoding into a destination of a fixed size as the
    program does, and [fmt.Sprint] of an [int64], with their round trips. *)

From S2P Require Import Prelude Net.
From Stdlib Require Import Ascii.

(** ** Numbers as big-endian bytes *)

Fixpoint be (k : nat) (n : N) : bytes :=
  match k with
  | O => []
  | S k => be k (n / 256) ++ [ascii_of_N (n mod 256)]
  end.

Definition of_be (l : bytes) : N := foldl (λ acc c, acc * 256 + N_of_ascii c)%N 0%N l.

Lemma length_be k n : length (be k n) = k.
Proof. revert n. induction k as [|k IH]; intros n; simpl; [done|]. rewrite length_app, IH. simpl. lia. Qed.

Lemma of_be_be k n : (n < 256 ^ N.of_nat k)%N → of_be (be k n) = n.
Proof.
  revert n. induction k as [|k IH]; intros n Hn; simpl; [simpl in Hn; cbn; lia|].
  unfold of_be in *. rewrite foldl_app, IH.
  - simpl. rewrite N_ascii_embedding by (apply N.mod_lt; lia). pose proof (N.Div0.div_mod n 256). lia.
  - rewrite Nat2N.inj_succ, N.pow_succ_r' in Hn. apply N.Div0.div_lt_upper_bound. lia.
Qed.

(** ** Base64 *)

(** The alphabet of [base64.URLEncoding]. *)
Definition b64_alphabet : bytes := bytes_of "ABCDEFGHIJKLMNOPQRSTUVWXYZabcdefghijklmnopqrstuvwxyz0123456789-_".
Definition b64_pad : ascii := "="%char.

Definition b64_char (n : N) : ascii := default b64_pad (b64_alphabet !! N.to_nat n).
Definition b64_value (c : ascii) : option N := N.of_nat <$> indexByte b64_alphabet c.

Lemma b64_value_char n : (n < 64)%N → b64_value (b64_char n) = Some n.
Proof.
  intros Hn. assert (forallb (λ k, bool_decide (b64_value (b64_char (N.of_nat k)) = Some (N.of_nat k))) (seq 0 64) = true) as H
    by (vm_compute; reflexivity).
  rewrite forallb_forall in H. specialize (H (N.to_nat n)). rewrite N2Nat.id in H.
  apply bool_decide_eq_true in H; [done|]. apply in_seq. lia.
Qed.

Lemma b64_char_not_pad n : (n < 64)%N → b64_char n ≠ b64_pad.
Proof. intros Hn H. pose proof (b64_value_char n Hn) as Hv. rewrite H in Hv. vm_compute in Hv. done. Qed.

(** The four sextets of three bytes. *)
Definition sextets (a b c : N) : N * N * N * N :=
  (a / 4, (a mod 4) * 16 + b / 16, (b mod 16) * 4 + c / 64, c mod 64)%N.
(** The three bytes of four sextets. *)
Definition octets (x y z w : N) : N * N * N :=
  (x * 4 + y / 16, (y mod 16) * 16 + z / 4, (z mod 4) * 64 + w)%N.

Fixpoint b64_EncodeToString (l : bytes) : bytes :=
  match l with
  | [] => []
  | a :: r1 =>
      match r1 with
      | [] => let '(x, y, _, _) := sextets (N_of_ascii a) 0 0 in [b64_char x; b64_char y; b64_pad; b64_pad]
      | b :: r2 =>
          match r2 with
          | [] => let '(x, y, z, _) := sextets (N_of_ascii a) (N_of_ascii b) 0 in [b64_char x; b64_char y; b64_char z; b64_pad]
          | c :: r =>
              let '(x, y, z, w) := sextets (N_of_ascii a) (N_of_ascii b) (N_of_ascii c) in
              b64_char x :: b64_char y :: b64_char z :: b64_char w :: b64_EncodeToString r
          end
      end
  end.

Definition b64_corrupt : error := EMsg "illegal base64 data".

(** [decodeQuantum] over the input without line breaks, into a destination with
    [room] bytes left. The bytes of a quantum are written before the input that
    follows a padding is found to be garbage; a write past the destination panics. *)
Fixpoint b64_quanta (room : nat) (l : bytes) : result bytes :=
  match l with
  | [] => Ok []
  | a :: b :: c :: d :: r =>
      match b64_value a, b64_value b with
      | Some x, Some y =>
          match b64_value c with
          | Some z =>
              match b64_value d with
              | Some w =>
                  let '(o1, o2, o3) := octets x y z w in
                  if Nat.ltb room 3 then Panic
                  else rest ← b64_quanta (room - 3) r; mret (ascii_of_N o1 :: ascii_of_N o2 :: ascii_of_N o3 :: rest)
              | None =>
                  let '(o1, o2, _) := octets x y z 0 in
                  if negb (Ascii.eqb d b64_pad) then Err b64_corrupt
                  else if Nat.ltb room 2 then Panic
                  else match r with [] => Ok [ascii_of_N o1; ascii_of_N o2] | _ => Err b64_corrupt end
              end
          | None =>
              let '(o1, _, _) := octets x y 0 0 in
              if negb (Ascii.eqb c b64_pad && Ascii.eqb d b64_pad) then Err b64_corrupt
              else if Nat.ltb room 1 then Panic
              else match r with [] => Ok [ascii_of_N o1] | _ => Err b64_corrupt end
          end
      | _, _ => Err b64_corrupt
      end
  | _ => Err b64_corrupt
  end.

Definition newline (c : ascii) : bool := Ascii.eqb c (ascii_of_nat 10) || Ascii.eqb c (ascii_of_nat 13).

(** [base64.URLEncoding.Decode(dst, src)] with a [dst] of [room] bytes: the bytes
    written, whose number is the [n] it returns. *)
Definition b64_Decode (room : nat) (src : bytes) : result bytes :=
  b64_quanta room (filter (λ c, newline c = false) src).

Lemma byte_lt (c : ascii) : (N_of_ascii c < 256)%N.
Proof. apply N_ascii_bounded. Qed.

Lemma euclid_N n d : (d ≠ 0)%N → ∃ q r, (n / d = q ∧ n mod d = r ∧ n = d * q + r ∧ r < d)%N.
Proof. intros Hd. exists (n / d)%N, (n mod d)%N. split_and!; [done..|apply N.Div0.div_mod|by apply N.mod_lt]. Qed.

(** Quotients and remainders by [d] as variables, for [lia]. *)
Ltac euclid n d :=
  let q := fresh "q" in let r := fresh "r" in let Hq := fresh "Hq" in let Hr := fresh "Hr" in
  destruct (euclid_N n d ltac:(done)) as (q & r & Hq & Hr & ? & ?); rewrite ?Hq, ?Hr; clear Hq Hr.

Lemma sextets_lt a b c x y z w :
  (a < 256)%N → (b < 256)%N → (c < 256)%N → sextets a b c = (x, y, z, w) → (x < 64 ∧ y < 64 ∧ z < 64 ∧ w < 64)%N.
Proof.
  unfold sextets. intros Ha Hb Hc [= <- <- <- <-].
  euclid a 4%N. euclid b 16%N. euclid c 64%N. lia.
Qed.

Lemma div_mod_eq q d r : (r < d)%N → ((q * d + r) / d = q ∧ (q * d + r) mod d = r)%N.
Proof.
  intros H. split; symmetry; [apply (N.div_unique _ _ q r)|apply (N.mod_unique _ _ q r)]; lia.
Qed.

Lemma octets_sextets a b c x y z w :
  (a < 256)%N → (b < 256)%N → (c < 256)%N → sextets a b c = (x, y, z, w) → octets x y z w = (a, b, c).
Proof.
  unfold sextets, octets. intros Ha Hb Hc [= <- <- <- <-].
  euclid a 4%N. euclid b 16%N. euclid c 64%N.
  destruct (div_mod_eq r 16 q0) as [-> ->]; [lia|]. destruct (div_mod_eq r0 4 q1) as [-> ->]; [lia|].
  f_equal; [f_equal|]; lia.
Qed.

Lemma b64_char_pads n : (n < 64)%N → Ascii.eqb (b64_char n) b64_pad = false.
Proof. intros H%b64_char_not_pad. by apply Ascii.eqb_neq. Qed.

(** What was encoded decodes into a destination that has room for it. *)
Lemma b64_quanta_encode l room : length l ≤ room → b64_quanta room (b64_EncodeToString l) = Ok l.
Proof.
  revert room. induction l as [l IH] using (induction_ltof1 _ length). unfold ltof in IH. intros room Hr.
  destruct l as [|a [|b [|c r]]]; [done|..].
  - cbn [b64_EncodeToString]. destruct (sextets (N_of_ascii a) 0 0) as [[[x y] z] w] eqn:E.
    pose proof E as (Hx & Hy & Hz & Hw)%sextets_lt; [|by try apply byte_lt..].
    assert (z = 0%N ∧ w = 0%N) as [-> ->] by (by injection E as _ _ <- <-).
    cbn [b64_quanta]. rewrite !b64_value_char by done. apply octets_sextets in E; [|by try apply byte_lt..].
    destruct (octets x y 0 0) as [[o1 o2] o3]. injection E as -> _ _. change (b64_value b64_pad) with (@None N). cbv iota beta.
    simpl in Hr. destruct (Nat.ltb_spec room 1); [lia|]. cbn. by rewrite ascii_N_embedding.
  - cbn [b64_EncodeToString]. destruct (sextets (N_of_ascii a) (N_of_ascii b) 0) as [[[x y] z] w] eqn:E.
    pose proof E as (Hx & Hy & Hz & Hw)%sextets_lt; [|by try apply byte_lt..].
    assert (w = 0%N) as -> by (by injection E as _ _ _ <-).
    cbn [b64_quanta]. rewrite !b64_value_char by done. apply octets_sextets in E; [|by try apply byte_lt..].
    destruct (octets x y z 0) as [[o1 o2] o3]. injection E as -> -> _. change (b64_value b64_pad) with (@None N). cbv iota beta.
    simpl in Hr. destruct (Nat.ltb_spec room 2); [lia|]. cbn. by rewrite !ascii_N_embedding.
  - cbn [b64_EncodeToString]. destruct (sextets (N_of_ascii a) (N_of_ascii b) (N_of_ascii c)) as [[[x y] z] w] eqn:E.
    pose proof E as (Hx & Hy & Hz & Hw)%sextets_lt; [|by try apply byte_lt..].
    cbn [b64_quanta]. rewrite !b64_value_char by done. apply octets_sextets in E; [|apply byte_lt..]. rewrite E.
    simpl in Hr. destruct (Nat.ltb_spec room 3); [lia|]. rewrite IH by (simpl; lia). cbn. by rewrite !ascii_N_embedding.
Qed.

Lemma b64_no_newline l : Forall (λ c, newline c = false) (b64_EncodeToString l).
Proof.
  assert (∀ n, (n < 64)%N → newline (b64_char n) = false) as Hc.
  { intros n Hn. assert (forallb (λ k, negb (newline (b64_char (N.of_nat k)))) (seq 0 64) = true) as H by (vm_compute; reflexivity).
    rewrite forallb_forall in H. specialize (H (N.to_nat n)). rewrite N2Nat.id in H. apply negb_true_iff, H, in_seq. lia. }
  assert (newline b64_pad = false) as Hp by done.
  induction l as [l IH] using (induction_ltof1 _ length). unfold ltof in IH.
  destruct l as [|a [|b [|c r]]]; [constructor|..]; cbn [b64_EncodeToString].
  - destruct (sextets _ 0 0) as [[[x y] z] w] eqn:E. apply sextets_lt in E as (? & ? & ? & ?); [|by try apply byte_lt..]. auto.
  - destruct (sextets _ _ 0) as [[[x y] z] w] eqn:E. apply sextets_lt in E as (? & ? & ? & ?); [|by try apply byte_lt..]. auto.
  - destruct (sextets _ _ _) as [[[x y] z] w] eqn:E. apply sextets_lt in E as (? & ? & ? & ?); [|apply byte_lt..].
    repeat constructor; auto. apply IH. simpl. lia.
Qed.

Lemma b64_roundtrip l room : length l ≤ room → b64_Decode room (b64_EncodeToString l) = Ok l.
Proof. intros H. unfold b64_Decode. rewrite (filter_all (λ c, newline c = false) _ (proj1 (Forall_forall _ _) (b64_no_newline l))). by apply b64_quanta_encode. Qed.

(** Decoding never yields more than the destination holds. *)
Lemma b64_Decode_room src room out : b64_Decode room src = Ok out → length out ≤ room.
Proof.
  unfold b64_Decode. generalize (filter (λ c, newline c = false) src). clear src. intros l. revert room out.
  induction l as [l IH] using (induction_ltof1 _ length). unfold ltof in IH. intros room out.
  destruct l as [|a [|b [|c [|d r]]]]; try done; [intros [= <-]; simpl; lia|]. cbn [b64_quanta].
  destruct (b64_value a) as [x|]; [|done]. destruct (b64_value b) as [y|]; [|done]. destruct (b64_value c) as [z|].
  - destruct (b64_value d) as [w|]; destruct (octets _ _ _ _) as [[o1 o2] o3].
    + destruct (Nat.ltb_spec room 3); [done|]. intros (rest & Hrest & [= <-])%bind_ok.
      apply IH in Hrest; simpl; lia.
    + destruct (negb _); [done|]. destruct (Nat.ltb_spec room 2); [done|]. destruct r; [|done]. intros [= <-]. simpl. lia.
  - destruct (octets _ _ _ _) as [[o1 o2] o3]. destruct (negb _); [done|].
    destruct (Nat.ltb_spec room 1); [done|]. destruct r; [|done]. intros [= <-]. simpl. lia.
Qed.

(** ** Decimal integers *)

Definition digit_char (d : Z) : ascii := ascii_of_nat (48 + Z.to_nat d).

Fixpoint dec_digits (fuel : nat) (z : Z) : bytes :=
  match fuel with
  | O => []
  | S fuel => (if (z <? 10)%Z then [] else dec_digits fuel (z / 10)) ++ [digit_char (z mod 10)]
  end.

(** [fmt.Sprint(z)]; an [int64] has at most 19 digits. *)
Definition FormatInt (z : Z) : bytes :=
  if (z <? 0)%Z then "-"%char :: dec_digits 19 (- z) else dec_digits 19 z.

Lemma digit_digit_char d : (0 ≤ d < 10)%Z → digit (digit_char d) = Some d.
Proof.
  intros Hd. assert (d ∈ [0; 1; 2; 3; 4; 5; 6; 7; 8; 9]%Z) as H.
  { rewrite !elem_of_cons. lia. }
  repeat (apply elem_of_cons in H as [->|H]; [reflexivity|]). by apply elem_of_nil in H.
Qed.

Lemma digits_snoc l c acc : digits (l ++ [c]) acc = (n ← digits l acc; (λ d, n * 10 + d)%Z <$> digit c).
Proof. revert acc. induction l as [|x l IH]; intros acc; simpl; [by destruct (digit c)|]. by destruct (digit x). Qed.

Lemma dec_digits_spec fuel z : (0 ≤ z < 10 ^ Z.of_nat fuel)%Z → digits (dec_digits fuel z) 0 = Some z.
Proof.
  revert z. induction fuel as [|fuel IH]; intros z Hz; [simpl in *; f_equal; lia|].
  rewrite Nat2Z.inj_succ, Z.pow_succ_r in Hz by lia.
  pose proof (Z.div_mod z 10 ltac:(lia)). pose proof (Z.mod_pos_bound z 10 ltac:(lia)).
  cbn [dec_digits]. rewrite digits_snoc, digit_digit_char by done. destruct (Z.ltb_spec z 10).
  - cbn. f_equal. rewrite Z.mod_small; lia.
  - rewrite IH by (split; [apply Z.div_pos; lia|apply Z.div_lt_upper_bound; lia]). cbn. f_equal. lia.
Qed.

Lemma dec_digits_cons fuel z : (0 ≤ z)%Z → ∃ c l, dec_digits (S fuel) z = c :: l ∧ digit c ≠ None.
Proof.
  revert z. induction fuel as [|fuel IH]; intros z Hz; pose proof (Z.mod_pos_bound z 10 ltac:(lia)).
  - exists (digit_char (z mod 10)), []. rewrite digit_digit_char by done. split; [|done]. cbn. by destruct (z <? 10)%Z.
  - destruct (IH (z / 10)%Z) as (c & l & E & Hc); [apply Z.div_pos; lia|].
    set (n := S fuel) in *. cbn [dec_digits]. destruct (z <? 10)%Z.
    + eexists _, _. split; [done|]. by rewrite digit_digit_char.
    + rewrite E. eexists _, _. by split.
Qed.

(** A decimal integer reads back. *)
Lemma Atoi_FormatInt z : is_i64 z → Atoi (FormatInt z) = Ok z.
Proof.
  unfold is_i64, two63. intros Hz. assert (∀ n, (0 ≤ n ≤ 9223372036854775808)%Z → digits (dec_digits 19 n) 0 = Some n) as Hd.
  { intros n Hn. apply dec_digits_spec. change (10 ^ Z.of_nat 19)%Z with 10000000000000000000%Z. lia. }
  unfold FormatInt. destruct (Z.ltb_spec z 0).
  - destruct (dec_digits_cons 18 (- z)) as (c & l & E & Hc); [lia|]. specialize (Hd (- z)%Z ltac:(lia)).
    rewrite E in *. unfold Atoi. change (Ascii.eqb "-" "-") with true. cbv beta iota. rewrite Hd. cbv zeta iota.
    rewrite Z.opp_involutive. by rewrite (proj2 (Z.leb_le _ _)), (proj2 (Z.ltb_lt _ _)) by (unfold two63; lia).
  - destruct (dec_digits_cons 18 z) as (c & l & E & Hc); [lia|]. specialize (Hd z ltac:(lia)). rewrite E in *. unfold Atoi.
    assert (Ascii.eqb c "-" = false) as -> by (apply Ascii.eqb_neq; intros ->; done).
    assert (Ascii.eqb c "+" = false) as -> by (apply Ascii.eqb_neq; intros ->; done). cbv beta iota. rewrite Hd. cbv zeta iota.
    by rewrite (proj2 (Z.leb_le _ _)), (proj2 (Z.ltb_lt _ _)) by (unfold two63; lia).
Qed.

Example b64_texts : (λ l, string_of (b64_EncodeToString (bytes_of l))) <$> ["M"; "Ma"; "Man"; "Many"]%string =
  ["TQ=="; "TWE="; "TWFu"; "TWFueQ=="]%string.
Proof. reflexivity. Qed.
