(* ===== verification/Encoding.v ===== *)
(** * The Sia binary encoding

    [types.Encoder] and [types.NewHasher] of go.sia.tech/core are outside the
    repository. The code relies on each write being uniquely decodable: integers,
    booleans and hashes have a fixed width, strings and byte strings carry their
    length. [SiaEncoding] is the concrete format. *)

From S2P Require Import Prelude.
From Stdlib Require Import Ascii.

Abbreviation byte := ascii (only parsing).

(** An encoding whose values, out of those that satisfy [P], can be read back
    from the front of a stream, up to [R]. *)
Definition decodable_upto {A} (P : A → Prop) (R : A → A → Prop) (enc : A → list byte) : Prop :=
  ∀ a b r r', P a → P b → enc a ++ r = enc b ++ r' → R a b ∧ r = r'.
Abbreviation decodable P enc := (decodable_upto P (=) enc) (only parsing).

(** The 32 bytes of a hash, a key or an id. *)
Definition is_hash (h : N) : Prop := (h < 2 ^ 256)%N.

(** [t.Unix()]: the seconds since 1970, which is [unix_epoch] seconds after the
    zero time. *)
Definition unix_epoch : Z := 62135596800.
Definition Unix (t : Z) : Z := (t / Second - unix_epoch)%Z.

Class EncoderOps := {
  WriteUint8 : Z → list byte;
  WriteUint64 : Z → list byte;
  WriteBool : bool → list byte;
  WriteHash : N → list byte;            (* e.Write(h[:]) of a 32-byte array *)
  WriteString : string → list byte;
  WriteTime : Z → list byte;
  Sum : list byte → Hash256 }.

Class EncoderLaws (E : EncoderOps) : Prop := {
  WriteUint8_dec : decodable (λ z, 0 ≤ z < 256)%Z WriteUint8;
  WriteUint64_dec : decodable is_u64 WriteUint64;
  WriteBool_dec : decodable (λ _, True) WriteBool;
  WriteHash_dec : decodable is_hash WriteHash;
  WriteString_dec : decodable (λ s, Z.of_nat (String.length s) < two63)%Z WriteString;
  WriteTime_dec : decodable_upto (λ t, is_i64 (Unix t)) (λ t u, Unix t = Unix u) WriteTime;
  WriteUint8_length : ∀ z, length (WriteUint8 z) = 1;
  WriteUint64_length : ∀ z, length (WriteUint64 z) = 8;
  WriteHash_length : ∀ h, length (WriteHash h) = 32 }.

(** Two different inputs of the hash function with the same digest. *)
Definition collides {E : EncoderOps} (x y : list byte) : Prop := x ≠ y ∧ Sum x = Sum y.

Lemma Sum_inj {E : EncoderOps} x y : Sum x = Sum y → x = y ∨ collides x y.
Proof. intros H. destruct (decide (x = y)) as [->|Hne]; [by left|by right]. Qed.

(** The inputs that were ever hashed, among which no two have the same digest. *)
Class Hashed {E : EncoderOps} := {
  hashed : list byte → Prop;
  hashed_inj : ∀ x y, hashed x → hashed y → Sum x = Sum y → x = y }.

(** A list of values, one after the other. *)
Lemma concat_dec {A} (P : A → Prop) enc (n : nat) (l l' : list A) :
  decodable P enc → (∀ a, length (enc a) = Datatypes.S n) → Forall P l → Forall P l' →
  concat (enc <$> l) = concat (enc <$> l') → l = l'.
Proof.
  intros Hdec Hlen Hl. revert l'. induction Hl as [|a l Ha Hl IH]; intros l' Hl' H.
  - destruct l' as [|b l']; [done|]. csimpl in H. apply (f_equal length) in H.
    rewrite length_app, Hlen in H. done.
  - destruct Hl' as [|b l' Hb Hl']; csimpl in H.
    + apply (f_equal length) in H. rewrite length_app, Hlen in H. done.
    + apply Hdec in H as [-> H]; [|done|done]. f_equal. auto.
Qed.

(** ** The concrete format *)

(** Reducing an [int64] to a [uint64] loses nothing. *)
Lemma u64_inj_i64 a b : is_i64 a → is_i64 b → u64 a = u64 b → a = b.
Proof.
  unfold u64, is_i64. intros Ha Hb H.
  pose proof (Z.div_mod a two64 ltac:(done)). pose proof (Z.div_mod b two64 ltac:(done)).
  unfold two63, two64 in *. lia.
Qed.

Module SiaEncoding.

Definition byte_of (z : Z) : byte := ascii_of_N (Z.to_N (z mod 256)).

Fixpoint le (n : nat) (z : Z) : list byte :=
  match n with O => [] | Datatypes.S n => byte_of z :: le n (z / 256) end.

Lemma le_length n z : length (le n z) = n.
Proof. revert z. induction n; intros z; simpl; auto. Qed.

Lemma byte_of_inj z z' : byte_of z = byte_of z' → (z mod 256 = z' mod 256)%Z.
Proof.
  unfold byte_of. intros H. apply (f_equal N_of_ascii) in H.
  pose proof (Z.mod_pos_bound z 256). pose proof (Z.mod_pos_bound z' 256).
  rewrite !N_ascii_embedding in H by lia. lia.
Qed.

Lemma le_dec n z z' r r' :
  (0 ≤ z < 256 ^ Z.of_nat n)%Z → (0 ≤ z' < 256 ^ Z.of_nat n)%Z → le n z ++ r = le n z' ++ r' → z = z' ∧ r = r'.
Proof.
  revert z z'. induction n as [|n IH]; intros z z' Hz Hz' H; simpl in *; [split; [lia|done]|].
  injection H as Hb H. apply byte_of_inj in Hb.
  rewrite Nat2Z.inj_succ, Z.pow_succ_r in Hz, Hz' by lia.
  apply IH in H as [Hd ->].
  - split; [|done]. rewrite (Z.div_mod z 256), (Z.div_mod z' 256) by done. congruence.
  - split; [apply Z.div_pos; lia|apply Z.div_lt_upper_bound; lia].
  - split; [apply Z.div_pos; lia|apply Z.div_lt_upper_bound; lia].
Qed.

(** Any function of the bytes will do as a digest in the examples; this one adds
    them up. *)
Definition checksum (l : list byte) : N := foldr (λ c n, N_of_ascii c + 31 * n)%N 0%N l.

#[export] Instance ops : EncoderOps := {|
  WriteUint8 := le 1;
  WriteUint64 := le 8;
  WriteBool b := le 1 (if b then 1 else 0);
  WriteHash h := le 32 (Z.of_N h);
  WriteString s := le 8 (Z.of_nat (String.length s)) ++ String.list_ascii_of_string s;
  WriteTime t := le 8 (u64 (Unix t));
  Sum := checksum |}.

#[export] Instance laws : EncoderLaws ops.
Proof.
  split; cbn [WriteUint8 WriteUint64 WriteBool WriteHash WriteString WriteTime Sum ops].
  - intros a b r r' Ha Hb H. by apply (le_dec 1) in H.
  - intros a b r r' Ha Hb H. by apply (le_dec 8) in H.
  - intros a b r r' _ _ H. apply (le_dec 1) in H as [H ->]; [|by destruct a, b..]. by destruct a, b.
  - intros a b r r' Ha Hb H. unfold is_hash in *. apply (le_dec 32) in H as [H ->]; [split; [lia|done]|..].
    + change (256 ^ Z.of_nat 32)%Z with (Z.of_N (2 ^ 256)). lia.
    + change (256 ^ Z.of_nat 32)%Z with (Z.of_N (2 ^ 256)). lia.
  - intros a b r r' Ha Hb H. rewrite <-!app_assoc in H. apply (le_dec 8) in H as [Hn H].
    2, 3: change (256 ^ Z.of_nat 8)%Z with two64; unfold two63, two64 in *; lia.
    apply Nat2Z.inj in Hn. assert (∀ s, length (String.list_ascii_of_string s) = String.length s) as Hlen
      by (intros s; induction s; simpl; auto).
    apply app_inj_1 in H as [H ->]; [|by rewrite !Hlen]. split; [|done].
    by rewrite <-(String.string_of_list_ascii_of_string a), <-(String.string_of_list_ascii_of_string b), H.
  - intros a b r r' Ha Hb H. apply (le_dec 8) in H as [H ->]; [|apply u64_range..]. split; [|done].
    by apply u64_inj_i64.
  - done.
  - done.
  - intros h. apply le_length.
Qed.

End SiaEncoding.
