(* ===== verification/Stream.v ===== *)
(** * Reading the Sia encoding back

    [types.Encoder] and [types.Decoder] of go.sia.tech/core on byte strings and
    slices. A decoder is an abstract buffer with a sticky error; what the code
    relies on is that reading what was written returns it and leaves the rest
    unread. [SiaStream] is a concrete decoder for the format of Encoding.v. *)

From S2P Require Import Prelude Encoding.
From Stdlib Require Import Ascii.

Class StreamOps {E : EncoderOps} := {
  Write : list byte → list byte;                              (* e.Write(b) of a []byte *)
  WriteBytes : list byte → list byte;                         (* with a length prefix *)
  WriteSignature : N → list byte;                             (* types.Signature.EncodeTo *)
  EncodeSlice : ∀ {T : Type}, (T → list byte) → list T → list byte;
  Decoder : Type;
  NewBufDecoder : list byte → Decoder;
  d_Err : Decoder → option error;
  ReadUint8 : Decoder → Z * Decoder;
  ReadUint64 : Decoder → Z * Decoder;
  ReadHash : Decoder → N * Decoder;                           (* d.Read(h[:]) of a 32-byte array *)
  ReadBytes : Decoder → list byte * Decoder;
  ReadTime : Decoder → Z * Decoder;
  ReadSignature : Decoder → N * Decoder;
  (** [DecodeSlice] decodes each element into a zero value *)
  DecodeSlice : ∀ {T : Type}, (Decoder → T * Decoder) → Decoder → list T * Decoder }.

(** The 64 bytes of a signature. *)
Definition is_signature (s : N) : Prop := (s < 2 ^ 512)%N.

(** A length that fits a Go [int]. *)
Definition int_length {A} (l : list A) : Prop := (Z.of_nat (length l) < two63)%Z.

(** The time [t] cut to the second, as [time.Unix(t.Unix(), 0)]. *)
Definition to_second (t : Z) : Z := (t / Second * Second)%Z.

(** [dec] reads back the values in [P] that [enc] wrote, up to [f]. *)
Definition reads_back {D A} (unread : D → list byte → Prop) (P : A → Prop) (f : A → A)
    (enc : A → list byte) (dec : D → A * D) : Prop :=
  ∀ a d r, P a → unread d (enc a ++ r) → ∃ d', dec d = (f a, d') ∧ unread d' r.

Class StreamLaws {E : EncoderOps} (O : StreamOps) := {
  (** The decoder has met no error and has these bytes to read. *)
  unread : Decoder → list byte → Prop;
  unread_new : ∀ b, unread (NewBufDecoder b) b;
  unread_err : ∀ d b, unread d b → d_Err d = None;
  Write_id : ∀ b, Write b = b;
  WriteBytes_dec : decodable int_length WriteBytes;
  ReadUint8_back : reads_back unread (λ z, 0 ≤ z < 256)%Z id WriteUint8 ReadUint8;
  ReadUint64_back : reads_back unread is_u64 id WriteUint64 ReadUint64;
  ReadHash_back : reads_back unread is_hash id WriteHash ReadHash;
  ReadBytes_back : reads_back unread int_length id WriteBytes ReadBytes;
  ReadTime_back : reads_back unread (λ t, is_i64 (Unix t)) to_second WriteTime ReadTime;
  ReadSignature_back : reads_back unread is_signature id WriteSignature ReadSignature;
  DecodeSlice_back : ∀ {T} (P : T → Prop) f (enc : T → list byte) dec,
    (∀ a, P a → enc a ≠ []) → reads_back unread P f enc dec →
    reads_back unread (λ l, int_length l ∧ Forall P l) (fmap f) (EncodeSlice enc) (DecodeSlice dec) }.

(** Read the next field of a record. *)
Ltac read_field lem H :=
  let d := fresh "d" in let E := fresh "E" in
  eapply lem in H as (d & E & H); [rewrite E; clear E; cbv beta iota zeta|].

(** ** A concrete decoder *)

Module SiaStream.
#[local] Existing Instances SiaEncoding.ops SiaEncoding.laws.

(** The unread bytes, or nothing after an error. *)
Definition decoder : Type := option (list byte).

Definition val_of (l : list byte) : Z := foldr (λ c n, Z.of_N (N_of_ascii c) + 256 * n)%Z 0%Z l.

Definition read_le (n : nat) (d : decoder) : Z * decoder :=
  match d with
  | Some b => if Nat.leb n (length b) then (val_of (take n b), Some (drop n b)) else (0%Z, None)
  | None => (0%Z, None)
  end.

Definition read_bytes (d : decoder) : list byte * decoder :=
  match read_le 8 d with
  | (n, Some b) => if (n <=? Z.of_nat (length b))%Z then (take (Z.to_nat n) b, Some (drop (Z.to_nat n) b)) else ([], None)
  | (_, None) => ([], None)
  end.

Fixpoint read_n {T} (dec : decoder → T * decoder) (n : nat) (d : decoder) : list T * decoder :=
  match n with
  | O => ([], d)
  | Datatypes.S n => let '(a, d) := dec d in let '(l, d) := read_n dec n d in (a :: l, d)
  end.

Definition read_slice {T} (dec : decoder → T * decoder) (d : decoder) : list T * decoder :=
  match read_le 8 d with
  | (n, Some b) => if (n <=? Z.of_nat (length b))%Z then read_n dec (Z.to_nat n) (Some b) else ([], None)
  | (_, None) => ([], None)
  end.

#[export] Instance ops : StreamOps := {|
  Write b := b;
  WriteBytes b := SiaEncoding.le 8 (Z.of_nat (length b)) ++ b;
  WriteSignature h := SiaEncoding.le 64 (Z.of_N h);
  EncodeSlice T enc l := SiaEncoding.le 8 (Z.of_nat (length l)) ++ concat (enc <$> l);
  Decoder := decoder;
  NewBufDecoder b := Some b;
  d_Err d := match d with Some _ => None | None => Some (EMsg "unexpected EOF") end;
  ReadUint8 := read_le 1;
  ReadUint64 := read_le 8;
  ReadHash d := let '(z, d) := read_le 32 d in (Z.to_N z, d);
  ReadBytes := read_bytes;
  ReadTime d := let '(z, d) := read_le 8 d in (((i64 z) + unix_epoch) * Second, d)%Z;
  ReadSignature d := let '(z, d) := read_le 64 d in (Z.to_N z, d);
  DecodeSlice T := read_slice |}.

Lemma val_le n z : (0 ≤ z < 256 ^ Z.of_nat n)%Z → val_of (SiaEncoding.le n z) = z.
Proof.
  revert z. induction n as [|n IH]; intros z Hz; [simpl in *; lia|].
  rewrite Nat2Z.inj_succ, Z.pow_succ_r in Hz by lia. cbn [SiaEncoding.le val_of foldr].
  fold (val_of (SiaEncoding.le n (z / 256))). rewrite IH by (split; [apply Z.div_pos; lia|apply Z.div_lt_upper_bound; lia]).
  unfold SiaEncoding.byte_of. pose proof (Z.mod_pos_bound z 256).
  rewrite N_ascii_embedding by lia. rewrite Z2N.id by lia. pose proof (Z.div_mod z 256). lia.
Qed.

Lemma read_le_back n z r :
  (0 ≤ z < 256 ^ Z.of_nat n)%Z → read_le n (Some (SiaEncoding.le n z ++ r)) = (z, Some r).
Proof.
  intros Hz. unfold read_le. rewrite length_app, SiaEncoding.le_length, (proj2 (Nat.leb_le _ _)) by lia.
  rewrite take_app_length', drop_app_length' by (by rewrite SiaEncoding.le_length). by rewrite val_le.
Qed.

Lemma read_n_back {T} (P : T → Prop) f (enc : T → list byte) dec l r :
  reads_back (λ d b, d = Some b) P f enc dec → Forall P l →
  read_n dec (length l) (Some (concat (enc <$> l) ++ r)) = (f <$> l, Some r).
Proof.
  intros Hd Hl. induction Hl as [|a l Ha Hl IH]; [done|]. csimpl. rewrite <-app_assoc.
  destruct (Hd a _ (concat (enc <$> l) ++ r) Ha eq_refl) as (d' & -> & ->). by rewrite IH.
Qed.

Lemma concat_length {T} (P : T → Prop) (enc : T → list byte) l :
  (∀ a, P a → enc a ≠ []) → Forall P l → length l ≤ length (concat (enc <$> l)).
Proof.
  intros He. induction 1 as [|a l Ha Hl IH]; [done|]. csimpl. rewrite length_app.
  specialize (He a Ha). destruct (enc a); [done|]. simpl. lia.
Qed.

Lemma u64_length {A} (l : list A) : int_length l → (0 ≤ Z.of_nat (length l) < 256 ^ Z.of_nat 8)%Z.
Proof. unfold int_length, two63. lia. Qed.

#[export] Instance laws : StreamLaws ops.
Proof.
  refine {| unread := λ d b, d = Some b |}; cbn -[read_le SiaEncoding.le].
  - done.
  - by intros d b ->.
  - done.
  - intros a b r r' Ha Hb H. rewrite <-!app_assoc in H.
    apply SiaEncoding.le_dec in H as [Hn H]; [|by apply u64_length..].
    by apply app_inj_1 in H as [-> ->]; [|lia].
  - intros z d r Hz ->. eexists. split; [by apply read_le_back|done].
  - intros z d r Hz ->. eexists. split; [by apply read_le_back|done].
  - intros h d r Hh ->. eexists. rewrite read_le_back; [by rewrite N2Z.id|].
    unfold is_hash in Hh. change (256 ^ Z.of_nat 32)%Z with (Z.of_N (2 ^ 256)). lia.
  - intros b d r Hb ->. unfold read_bytes. rewrite <-app_assoc, read_le_back by by apply u64_length.
    rewrite length_app, (proj2 (Z.leb_le _ _)) by lia. rewrite Nat2Z.id, take_app_length, drop_app_length. eauto.
  - intros t d r Ht ->. rewrite read_le_back by apply u64_range. eexists. split; [|done]. f_equal.
    unfold to_second. f_equal. replace (i64 (u64 (Unix t))) with (Unix t); [unfold Unix; lia|].
    unfold i64, u64. rewrite <-Zplus_mod_idemp_l, Z.mod_mod, Zplus_mod_idemp_l by done.
    rewrite Z.mod_small; [lia|]. unfold is_i64, two63, two64 in *. lia.
  - intros h d r Hh ->. eexists. rewrite read_le_back; [by rewrite N2Z.id|].
    unfold is_signature in Hh. change (256 ^ Z.of_nat 64)%Z with (Z.of_N (2 ^ 512)). lia.
  - intros T P f enc dec Hne Hd l d r [Hlen Hl] ->. unfold read_slice.
    rewrite <-app_assoc, read_le_back by by apply u64_length.
    rewrite length_app. pose proof (concat_length P enc l Hne Hl). rewrite (proj2 (Z.leb_le _ _)) by lia.
    rewrite Nat2Z.id. eexists. split; [by eapply read_n_back|done].
Qed.
End SiaStream.
