(* ===== verification/Locking.v ===== *)
(** * Contract locks (src/contracts/locking.go)

    [ContractLocker] hands out at most one lock per contract id. The model keeps
    the heap of [LockedContract] objects explicit, because two goroutines share
    the object through [lockedContracts], and runs any number of goroutines as
    an interleaving of the atomic steps of [LockContract], [TryLockContract] and
    the unlock functions they return: each critical section of [cl.mu], each
    acquisition of [lc.mu] and each release of it is one step. *)

From S2P Require Import Prelude.
From stdpp Require Import fin_maps.

Module Locker.

Abbreviation addr := positive (only parsing).
Abbreviation tid := nat (only parsing).

(** A [LockedContract] object: [mu] is whether the mutex is taken. *)
Record LockedContract := mkLC { id : FileContractID; mu : bool; refcount : Z }.

(** The locker and the heap its objects live in. *)
Record ContractLocker := mkCL {
  lockedContracts : gmap FileContractID addr;
  heap : gmap addr LockedContract;
  next : addr }.

Definition NewContractLocker : ContractLocker := mkCL ∅ ∅ 1%positive.

Definition alloc (lc : LockedContract) (cl : ContractLocker) : addr * ContractLocker :=
  (next cl, mkCL (lockedContracts cl) (<[next cl := lc]> (heap cl)) (Pos.succ (next cl))).

Definition update (a : addr) (f : LockedContract → LockedContract) (cl : ContractLocker) : ContractLocker :=
  mkCL (lockedContracts cl) (alter f a (heap cl)) (next cl).

Definition set_entry (i : FileContractID) (a : addr) (cl : ContractLocker) : ContractLocker :=
  mkCL (<[i := a]> (lockedContracts cl)) (heap cl) (next cl).

Definition del_entry (i : FileContractID) (cl : ContractLocker) : ContractLocker :=
  mkCL (delete i (lockedContracts cl)) (heap cl) (next cl).

Definition with_mu (b : bool) (lc : LockedContract) : LockedContract := mkLC (id lc) b (refcount lc).
Definition add_ref (d : Z) (lc : LockedContract) : LockedContract := mkLC (id lc) (mu lc) (refcount lc + d).

(** The first critical section of [LockContract]: find or create the object and
    count the caller. *)
Definition lock_register (i : FileContractID) (cl : ContractLocker) : addr * ContractLocker :=
  match lockedContracts cl !! i with
  | Some a => (a, update a (add_ref 1) cl)
  | None =>
      let '(a, cl) := alloc (mkLC i false 0) cl in
      (a, update a (add_ref 1) (set_entry i a cl))
  end.

(** [lc.mu.Lock()]: possible only while the mutex is free. *)
Definition mu_lock (a : addr) (cl : ContractLocker) : option ContractLocker :=
  match heap cl !! a with
  | Some lc => if mu lc then None else Some (update a (with_mu true) cl)
  | None => None
  end.

(** [lc.mu.Unlock()]. *)
Definition mu_unlock (a : addr) (cl : ContractLocker) : ContractLocker := update a (with_mu false) cl.

(** The critical section of the unlock function for contract [i]. *)
Definition unlock_deregister (i : FileContractID) (a : addr) (cl : ContractLocker) : ContractLocker :=
  let cl := update a (add_ref (-1)) cl in
  match heap cl !! a with
  | Some lc => if (refcount lc =? 0)%Z then del_entry i cl else cl
  | None => cl
  end.

(** [TryLockContract]: one critical section; the fresh object's mutex cannot be
    contended. *)
Definition TryLockContract (i : FileContractID) (cl : ContractLocker) : option addr * ContractLocker :=
  match lockedContracts cl !! i with
  | Some _ => (None, cl)
  | None =>
      let '(a, cl) := alloc (mkLC i true 1) cl in
      (Some a, set_entry i a cl)
  end.

(** ** Goroutines *)

(** Where a goroutine is between the atomic steps of a lock call; a goroutine
    that is not listed holds nothing. *)
Inductive pc := Waiting (a : addr) | Holding (a : addr) | Releasing (a : addr).

Definition pc_addr (p : pc) : addr :=
  match p with Waiting a | Holding a | Releasing a => a end.

#[export] Instance pc_eq_dec : EqDecision pc.
Proof. solve_decision. Defined.

Record state := mkState { locker : ContractLocker; threads : gmap tid pc }.

Definition initial : state := mkState NewContractLocker ∅.

(** The id a goroutine's closure captured is the id of its object. *)
Definition id_of (cl : ContractLocker) (a : addr) : option FileContractID := id <$> heap cl !! a.

Inductive step : state → state → Prop :=
  | step_register t i s a cl :
      threads s !! t = None →
      lock_register i (locker s) = (a, cl) →
      step s (mkState cl (<[t := Waiting a]> (threads s)))
  | step_acquire t s a cl :
      threads s !! t = Some (Waiting a) →
      mu_lock a (locker s) = Some cl →
      step s (mkState cl (<[t := Holding a]> (threads s)))
  | step_try_ok t i s a cl :
      threads s !! t = None →
      TryLockContract i (locker s) = (Some a, cl) →
      step s (mkState cl (<[t := Holding a]> (threads s)))
  | step_try_fail t i s cl :
      threads s !! t = None →
      TryLockContract i (locker s) = (None, cl) →
      step s (mkState cl (threads s))
  | step_unlock t s a :
      threads s !! t = Some (Holding a) →
      step s (mkState (mu_unlock a (locker s)) (<[t := Releasing a]> (threads s)))
  | step_deregister t s a i :
      threads s !! t = Some (Releasing a) →
      id_of (locker s) a = Some i →
      step s (mkState (unlock_deregister i a (locker s)) (delete t (threads s))).

Definition reachable (s : state) : Prop := rtc step initial s.

(** Goroutine [t] holds the lock of contract [i]. *)
Definition holds (s : state) (t : tid) (i : FileContractID) : Prop :=
  ∃ a, threads s !! t = Some (Holding a) ∧ id_of (locker s) a = Some i.

(** ** The invariant *)

(** How many goroutines refer to the object at [a]. *)
Definition users (a : addr) (ts : gmap tid pc) : Z :=
  Z.of_nat (size (filter (λ p : tid * pc, pc_addr p.2 = a) ts)).

(** What is true of one object: its reference count is the number of goroutines
    that refer to it, it is in the table exactly while that is positive, and its
    mutex is taken exactly while one goroutine holds it. *)
Record live_ok (s : state) (a : addr) (lc : LockedContract) : Prop := {
  ok_entry : ∀ i, lockedContracts (locker s) !! i = Some a ↔
                  i = id lc ∧ (0 < users a (threads s))%Z;
  ok_count : refcount lc = users a (threads s);
  ok_mu : mu lc = true ↔ ∃ t, threads s !! t = Some (Holding a);
  ok_unique : ∀ t1 t2, threads s !! t1 = Some (Holding a) →
                       threads s !! t2 = Some (Holding a) → t1 = t2 }.

Record absent_ok (s : state) (a : addr) : Prop := {
  abs_entry : ∀ i, lockedContracts (locker s) !! i ≠ Some a;
  abs_users : ∀ t p, threads s !! t = Some p → pc_addr p ≠ a }.

Definition obj_ok (s : state) (a : addr) : Prop :=
  match heap (locker s) !! a with
  | Some lc => live_ok s a lc ∧ (a < next (locker s))%positive
  | None => absent_ok s a
  end.

Definition Inv (s : state) : Prop := ∀ a, obj_ok s a.

(** *** Counting goroutines *)

Lemma users_insert_new a t p ts :
  ts !! t = None →
  users a (<[t := p]> ts) = (users a ts + if decide (pc_addr p = a) then 1 else 0)%Z.
Proof.
  intros Ht. unfold users. case_decide as Hp.
  - rewrite map_filter_insert_True by done.
    rewrite map_size_insert_None; [lia|]. by apply map_lookup_filter_None_2; left.
  - rewrite map_filter_insert_False by done. rewrite delete_id by done. lia.
Qed.

Lemma users_delete a t p ts :
  ts !! t = Some p →
  users a ts = (users a (delete t ts) + if decide (pc_addr p = a) then 1 else 0)%Z.
Proof.
  intros Ht. rewrite <- (insert_delete_id ts t p) at 1 by done.
  apply users_insert_new, lookup_delete_eq.
Qed.

Lemma users_update a t p q ts :
  ts !! t = Some p → pc_addr q = pc_addr p → users a (<[t := q]> ts) = users a ts.
Proof.
  intros Ht Hpq. rewrite (users_delete a t p ts Ht).
  rewrite <- insert_delete_eq, users_insert_new by apply lookup_delete_eq. by rewrite Hpq.
Qed.

Lemma users_pos a t p ts : ts !! t = Some p → pc_addr p = a → (0 < users a ts)%Z.
Proof.
  intros Ht Hp. rewrite (users_delete a t p), decide_True by done. unfold users. lia.
Qed.

Lemma users_none a ts : (∀ t p, ts !! t = Some p → pc_addr p ≠ a) → users a ts = 0%Z.
Proof.
  intros H. unfold users. replace (filter _ ts) with (∅ : gmap tid pc); [done|].
  symmetry. apply map_empty. intros t. apply map_lookup_filter_None. right.
  intros p Ht Hp. by apply (H t p).
Qed.

(** *** Each step changes one object *)

(** Two states that agree on everything about the object at [b]. *)
Record same_at (s s' : state) (b : addr) : Prop := {
  same_heap : heap (locker s') !! b = heap (locker s) !! b;
  same_thread : ∀ t p, pc_addr p = b → threads s' !! t = Some p ↔ threads s !! t = Some p;
  same_entry : ∀ i, lockedContracts (locker s') !! i = Some b ↔
                    lockedContracts (locker s) !! i = Some b;
  same_next : (next (locker s) <= next (locker s'))%positive }.

Lemma users_same s s' b : same_at s s' b → users b (threads s') = users b (threads s).
Proof.
  intros [_ H _ _]. unfold users. do 2 f_equal. apply map_eq. intros t.
  apply option_eq. intros p. rewrite !map_lookup_filter_Some. simpl. naive_solver.
Qed.

Lemma obj_ok_same s s' b : same_at s s' b → obj_ok s b → obj_ok s' b.
Proof.
  intros Hs. pose proof (users_same _ _ _ Hs) as Hu. destruct Hs as [Hh Ht He Hn].
  unfold obj_ok. rewrite Hh. destruct (heap (locker s) !! b) as [lc|].
  - intros [[E C M U] Hb]. split; [|lia]. split.
    + intros i. by rewrite He, Hu.
    + by rewrite Hu.
    + rewrite M. split; intros [t H]; exists t; by apply Ht.
    + intros t1 t2 H1 H2. apply U; by apply Ht.
  - intros [E U]. split; [intros i; by rewrite He|].
    intros t p Hp Hb. apply (U t p); [by apply Ht|done].
Qed.

Lemma inv_step_at s s' a :
  Inv s → (∀ b, b ≠ a → same_at s s' b) → obj_ok s' a → Inv s'.
Proof. intros I Hsame Ha b. destruct (decide (b = a)) as [->|]; eauto using obj_ok_same. Qed.

Lemma inv_initial : Inv initial.
Proof.
  intros a. unfold obj_ok; simpl. rewrite lookup_empty. split; simpl; intros *; by rewrite lookup_empty.
Qed.

Lemma inv_next_free s : Inv s → heap (locker s) !! next (locker s) = None.
Proof.
  intros I. specialize (I (next (locker s))). unfold obj_ok in I.
  destruct (heap (locker s) !! next (locker s)); [destruct I; lia|done].
Qed.

(** The goroutine [t] refers to a live object, which the table lists. *)
Lemma inv_thread s t p :
  Inv s → threads s !! t = Some p →
  ∃ lc, heap (locker s) !! pc_addr p = Some lc ∧ live_ok s (pc_addr p) lc ∧
        (pc_addr p < next (locker s))%positive.
Proof.
  intros I Ht. specialize (I (pc_addr p)). unfold obj_ok in I.
  destruct (heap (locker s) !! pc_addr p) as [lc|]; [naive_solver|].
  destruct I as [_ U]. by destruct (U t p Ht).
Qed.

Lemma inv_entry s i a :
  Inv s → lockedContracts (locker s) !! i = Some a →
  ∃ lc, heap (locker s) !! a = Some lc ∧ live_ok s a lc ∧ id lc = i ∧
        (a < next (locker s))%positive.
Proof.
  intros I Hi. specialize (I a). unfold obj_ok in I.
  destruct (heap (locker s) !! a) as [lc|].
  - destruct I as [O ?]. exists lc. split_and!; try done. symmetry. by apply (ok_entry _ _ _ O).
  - destruct I as [E _]. by destruct (E i).
Qed.

Lemma inv_next_unused s :
  Inv s → users (next (locker s)) (threads s) = 0%Z.
Proof.
  intros I. apply users_none. intros t p Ht Hp.
  destruct (inv_thread s t p I Ht) as (lc & ? & _ & ?). lia.
Qed.

(** Discharges the frame conditions of a step: the updated tables agree with the
    old ones away from the object that changed. *)
Ltac solve_same :=
  intros ? ?; split; simpl;
  [ rewrite ?lookup_alter_ne, ?lookup_insert_ne by done; done
  | intros ? ? ?; rewrite ?lookup_insert_Some, ?lookup_delete_Some; naive_solver
  | intros ?; rewrite ?lookup_insert_Some, ?lookup_delete_Some; naive_solver
  | lia ].

Lemma inv_register s t i a cl :
  Inv s → threads s !! t = None → lock_register i (locker s) = (a, cl) →
  Inv (mkState cl (<[t := Waiting a]> (threads s))).
Proof.
  intros I Ht. unfold lock_register.
  destruct (lockedContracts (locker s) !! i) as [b|] eqn:Hi; intros [= <- <-].
  - destruct (inv_entry s i b I Hi) as (lc & Hlc & [E C Mu U] & Hid & Hb).
    apply (inv_step_at s _ b I); [solve_same|].
    unfold obj_ok; simpl. rewrite lookup_alter_eq, Hlc. simpl. split; [|done].
    split; simpl; rewrite ?users_insert_new, ?decide_True by done.
    + intros j. rewrite E. pose proof (proj1 (E i) Hi). naive_solver lia.
    + lia.
    + rewrite Mu. setoid_rewrite lookup_insert_Some. naive_solver.
    + intros t1 t2. rewrite !lookup_insert_Some. naive_solver.
  - pose proof (inv_next_free s I) as Hfree. pose proof (inv_next_unused s I) as Hnone.
    apply (inv_step_at s _ (next (locker s)) I); [solve_same|].
    pose proof (I (next (locker s))) as Ia. unfold obj_ok in *. rewrite Hfree in Ia.
    destruct Ia as [Ea Ua]. simpl. rewrite lookup_alter_eq, lookup_insert_eq. simpl. split; [|lia].
    split; simpl; rewrite ?users_insert_new, ?decide_True by done.
    + intros j. rewrite lookup_insert_Some. specialize (Ea j). naive_solver lia.
    + lia.
    + setoid_rewrite lookup_insert_Some. split; [done|]. intros [t' [?|[? H]]]; [naive_solver|].
      by destruct (Ua t' _ H).
    + intros t1 t2. rewrite !lookup_insert_Some. intros [[??]|[? H]]; [done|]. by destruct (Ua _ _ H).
Qed.

(** Acquiring and releasing [lc.mu] only moves one goroutine between the states
    that refer to the same object. *)
Lemma inv_set_mu s t a p q b :
  Inv s → threads s !! t = Some p → pc_addr p = a → pc_addr q = a →
  (b = true → q = Holding a ∧ ∀ t', threads s !! t' ≠ Some (Holding a)) →
  (b = false → p = Holding a ∧ q ≠ Holding a) →
  Inv (mkState (update a (with_mu b) (locker s)) (<[t := q]> (threads s))).
Proof.
  intros I Ht Hp Hq Htrue Hfalse.
  destruct (inv_thread s t p I Ht) as (lc & Hlc & [E C Mu U] & Hb). rewrite Hp in *.
  apply (inv_step_at s _ a I); [solve_same|].
  unfold obj_ok; simpl. rewrite lookup_alter_eq, Hlc. simpl. split; [|done].
  split; simpl; rewrite ?(users_update a t p q) by congruence; try done.
  - setoid_rewrite lookup_insert_Some. destruct b; [naive_solver|].
    destruct Hfalse as [-> Hne]; [done|]. split; [done|].
    intros [t' [?|[Hne' Ht']]]; [naive_solver|]. by destruct Hne'; eapply U.
  - intros t1 t2. rewrite !lookup_insert_Some. destruct b; naive_solver.
Qed.

Lemma inv_acquire s t a cl :
  Inv s → threads s !! t = Some (Waiting a) → mu_lock a (locker s) = Some cl →
  Inv (mkState cl (<[t := Holding a]> (threads s))).
Proof.
  intros I Ht. unfold mu_lock.
  destruct (inv_thread s t _ I Ht) as (lc & Hlc & [_ _ Mu _] & _). simpl in *. rewrite Hlc.
  destruct (mu lc) eqn:Hm; intros [= <-].
  apply (inv_set_mu s t a (Waiting a)); try done. intros _. split; [done|].
  intros t' Ht'. enough (false = true) by done. apply Mu. by exists t'.
Qed.

Lemma inv_unlock s t a :
  Inv s → threads s !! t = Some (Holding a) →
  Inv (mkState (mu_unlock a (locker s)) (<[t := Releasing a]> (threads s))).
Proof. intros I Ht. by apply (inv_set_mu s t a (Holding a)). Qed.

Lemma inv_try s t i a cl :
  Inv s → threads s !! t = None → TryLockContract i (locker s) = (Some a, cl) →
  Inv (mkState cl (<[t := Holding a]> (threads s))).
Proof.
  intros I Ht. unfold TryLockContract.
  destruct (lockedContracts (locker s) !! i) as [b|] eqn:Hi; intros [= <- <-].
  pose proof (inv_next_free s I) as Hfree. pose proof (inv_next_unused s I) as Hnone.
  apply (inv_step_at s _ (next (locker s)) I); [solve_same|].
  pose proof (I (next (locker s))) as Ia. unfold obj_ok in *. rewrite Hfree in Ia.
  destruct Ia as [Ea Ua]. simpl. rewrite lookup_insert_eq. split; [|lia].
  split; simpl; rewrite ?users_insert_new, ?decide_True by done.
  - intros j. rewrite lookup_insert_Some. specialize (Ea j). naive_solver lia.
  - lia.
  - split; [|done]. intros _. exists t. apply lookup_insert_eq.
  - intros t1 t2. rewrite !lookup_insert_Some.
    intros [[??]|[? H]] [[??]|[? H']]; try congruence; [by destruct (Ua _ _ H')|by destruct (Ua _ _ H)|by destruct (Ua _ _ H)].
Qed.

Lemma inv_deregister s t a i :
  Inv s → threads s !! t = Some (Releasing a) → id_of (locker s) a = Some i →
  Inv (mkState (unlock_deregister i a (locker s)) (delete t (threads s))).
Proof.
  intros I Ht Hid. unfold id_of in Hid.
  destruct (inv_thread s t _ I Ht) as (lc & Hlc & [E C Mu U] & Hb). simpl in *.
  rewrite Hlc in Hid. injection Hid as <-.
  pose proof (users_delete a t _ _ Ht) as Hd. simpl in Hd. rewrite decide_True in Hd by done.
  assert (0 ≤ users a (delete t (threads s)))%Z as Hnn by (unfold users; lia).
  assert (lockedContracts (locker s) !! id lc = Some a) as Hent by (apply E; split; [done|lia]).
  unfold unlock_deregister. simpl. rewrite lookup_alter_eq, Hlc. simpl.
  apply (inv_step_at s _ a I).
  { case_match; [|solve_same]. intros b Hne.
    split; simpl; [by rewrite lookup_alter_ne| | |lia].
    - intros t' p Hp. rewrite lookup_delete_Some. split; [by intros [??]|].
      intros H'. split; [|done]. intros <-. by simplify_eq/=.
    - intros j. rewrite lookup_delete_Some. split; [by intros [??]|].
      intros H'. split; [|done]. intros <-. congruence. }
  assert (∀ t', delete t (threads s) !! t' = Some (Holding a) ↔ threads s !! t' = Some (Holding a)) as Hdel.
  { intros t'. rewrite lookup_delete_Some. split; [by intros [??]|].
    intros H'. split; [|done]. intros <-. congruence. }
  unfold obj_ok. destruct (refcount lc + -1 =? 0)%Z eqn:Hz; simpl; rewrite lookup_alter_eq, Hlc; simpl;
    (split; [split; simpl|done]); try (by setoid_rewrite Hdel); try (by intros t1 t2; rewrite !Hdel; apply U); try lia.
  - intros j. rewrite lookup_delete_Some, E. split; [intros (? & -> & _); done|lia].
  - intros j. rewrite E. split; (intros [-> ?]; split; [done|lia]).
Qed.

Lemma inv_step s s' : step s s' → Inv s → Inv s'.
Proof.
  destruct 1 as [t i s a cl Ht Hr|t s a cl Ht Ha|t i s a cl Ht Hr|t i s cl Ht Hr|t s a Ht|t s a i Ht Hi]; intros I.
  - by eapply inv_register.
  - by eapply inv_acquire.
  - by eapply inv_try.
  - unfold TryLockContract in Hr. case_match; simplify_eq. by destruct s.
  - by eapply inv_unlock.
  - by eapply inv_deregister.
Qed.

Lemma inv_reachable s : reachable s → Inv s.
Proof. apply rtc_ind_r; eauto using inv_initial, inv_step. Qed.

(** The table lists exactly the contracts some goroutine refers to. *)
Lemma entry_users s i :
  Inv s →
  is_Some (lockedContracts (locker s) !! i) ↔
  ∃ t p, threads s !! t = Some p ∧ id_of (locker s) (pc_addr p) = Some i.
Proof.
  intros I. unfold id_of. split.
  - intros [a Ha]. destruct (inv_entry s i a I Ha) as (lc & Hlc & [E _ _ _] & Hid & _).
    destruct (proj1 (E i) Ha) as [_ Hu].
    destruct (decide (∃ t p, threads s !! t = Some p ∧ pc_addr p = a)) as [(t & p & Ht & <-)|Hno].
    { exists t, p. by rewrite Hlc, <- Hid. }
    rewrite users_none in Hu; [lia|]. intros t p Ht Hp. naive_solver.
  - intros (t & p & Ht & Hid). destruct (inv_thread s t p I Ht) as (lc & Hlc & [E _ _ _] & _).
    rewrite Hlc in Hid. injection Hid as <-. exists (pc_addr p). apply E. split; [done|]. by eapply users_pos.
Qed.

(** ** What the locker promises *)

(** C34. Mutual exclusion: however the lock calls of any number of goroutines
    interleave, two goroutines never hold the lock of one contract at once. *)
Theorem lock_exclusive (s : state) (t1 t2 : tid) (i : FileContractID) :
  reachable s → holds s t1 i → holds s t2 i → t1 = t2.
Proof.
  intros Hr (a1 & H1 & Hi1) (a2 & H2 & Hi2). pose proof (inv_reachable s Hr) as I.
  destruct (inv_thread s _ _ I H1) as (l1 & Hl1 & O1 & _).
  destruct (inv_thread s _ _ I H2) as (l2 & Hl2 & O2 & _). unfold id_of in *. simpl in *.
  rewrite Hl1 in Hi1. rewrite Hl2 in Hi2. simplify_eq/=.
  assert (a1 = a2) as ->; [|by eapply (ok_unique _ _ _ O1)].
  pose proof (proj2 (ok_entry _ _ _ O1 (id l1)) (conj eq_refl (users_pos _ _ _ _ H1 eq_refl))).
  pose proof (proj2 (ok_entry _ _ _ O2 (id l2)) (conj eq_refl (users_pos _ _ _ _ H2 eq_refl))). congruence.
Qed.

(** C40. No deadlock: whenever some goroutine is inside a lock call or holds a
    lock, one of those goroutines can take its next step. *)
Theorem lock_progress (s : state) :
  reachable s → threads s ≠ ∅ →
  ∃ t p s', threads s !! t = Some p ∧ step s s' ∧ threads s' !! t ≠ Some p.
Proof.
  intros Hr Hne. pose proof (inv_reachable s Hr) as I.
  destruct (map_choose _ Hne) as (t & p & Ht).
  destruct (inv_thread s t p I Ht) as (lc & Hlc & [_ _ Mu _] & _).
  destruct p as [a|a|a]; simpl in *.
  - destruct (mu lc) eqn:Hm.
    + destruct (proj1 Mu eq_refl) as [t' Ht'].
      eexists t', _, _. split; [done|]. split; [by apply step_unlock|]. simpl. by rewrite lookup_insert_eq.
    + eexists t, _, _. split; [done|]. split; [eapply step_acquire; [done|]; unfold mu_lock; by rewrite Hlc, Hm|].
      simpl. by rewrite lookup_insert_eq.
  - eexists t, _, _. split; [done|]. split; [by apply step_unlock|]. simpl. by rewrite lookup_insert_eq.
  - eexists t, _, _. split; [done|]. split; [eapply step_deregister; [done|]; unfold id_of; by rewrite Hlc|].
    simpl. by rewrite lookup_delete_eq.
Qed.

(** [TryLockContract] succeeds exactly when no goroutine refers to the
    contract, and the table leaks nothing: an entry exists exactly while some
    goroutine is inside a lock call for that contract. *)
Theorem try_lock_spec (s : state) (i : FileContractID) :
  reachable s →
  (is_Some (TryLockContract i (locker s)).1 ↔
   ¬ ∃ t p, threads s !! t = Some p ∧ id_of (locker s) (pc_addr p) = Some i) ∧
  (is_Some (lockedContracts (locker s) !! i) ↔
   ∃ t p, threads s !! t = Some p ∧ id_of (locker s) (pc_addr p) = Some i).
Proof.
  intros Hr. pose proof (entry_users s i (inv_reachable s Hr)) as He. split; [|done].
  rewrite <- He. unfold TryLockContract.
  destruct (lockedContracts (locker s) !! i); simpl; split; naive_solver eauto.
Qed.

(** *** A run: goroutine 0 locks contract 7, goroutine 1 waits, 0 unlocks, 1 gets it. *)

Definition run1 : state :=
  let cl0 := (lock_register 7%N NewContractLocker).2 in
  mkState (default cl0 (mu_lock 1%positive cl0)) {[ 0%nat := Holding 1%positive ]}.

Lemma run1_reachable : reachable run1.
Proof.
  unfold reachable. eapply rtc_l; [by eapply (step_register 0 7%N)|].
  eapply rtc_l; [by eapply (step_acquire 0)|].
  match goal with |- rtc _ ?x ?y => replace x with y; [constructor|] end. by vm_compute.
Qed.

Example lock_exclusive_witness : 0%nat = 0%nat.
Proof.
  apply (lock_exclusive run1 0 0 7%N); [exact run1_reachable| |];
    exists 1%positive; split; reflexivity.
Defined.

Example lock_progress_witness :
  ∃ t p s', threads run1 !! t = Some p ∧ step run1 s' ∧ threads s' !! t ≠ Some p.
Proof. apply (lock_progress run1); [exact run1_reachable|by vm_compute]. Defined.

Example try_lock_spec_witness :
  (is_Some (TryLockContract 8%N (locker run1)).1 ↔
   ¬ ∃ t p, threads run1 !! t = Some p ∧ id_of (locker run1) (pc_addr p) = Some 8%N) ∧
  (is_Some (lockedContracts (locker run1) !! 8%N) ↔
   ∃ t p, threads run1 !! t = Some p ∧ id_of (locker run1) (pc_addr p) = Some 8%N).
Proof. apply (try_lock_spec run1 8%N). exact run1_reachable. Defined.

End Locker.
