(* ===== verification/External.v ===== *)
(** * What the program uses of its libraries

    The modelled code computes with [types.Currency] of go.sia.tech/core and
    calls the RHP4 protocol types of [core/rhp/v4] ([proto]) and
    [coreutils/rhp/v4]. None of them is in the repository: they are parameters,
    and the classes [..Laws] state the documented behaviour the code relies on.
    [U128] is a concrete instance of the currency, used by the witnesses. *)

From S2P Require Import Prelude.

(** ** types.Currency *)

Definition two128 : Z := 340282366920938463463374607431768211456.

(** [Big] is [Currency.Big()], the amount in hastings; operations that the
    library documents to panic return a [result]. *)
Class CurrencyOps := {
  Currency : Type;
  Big : Currency → Z;
  NewCurrency64 : Z → Currency;
  Siacoins : Z → Currency;
  Cmp : Currency → Currency → Z;
  cAdd : Currency → Currency → result Currency;
  cSub : Currency → Currency → result Currency;
  SubWithUnderflow : Currency → Currency → Currency * bool;
  Mul64 : Currency → Z → result Currency;
  Div : Currency → Currency → result Currency;
  Div64 : Currency → Z → result Currency }.

(** The documented behaviour: 128-bit unsigned amounts; addition,
    subtraction and multiplication panic instead of wrapping, division panics
    on zero. *)
Class CurrencyLaws (C : CurrencyOps) : Prop := {
  Big_range : ∀ c : Currency, (0 ≤ Big c < two128)%Z;
  Big_inj : ∀ c d : Currency, Big c = Big d → c = d;
  NewCurrency64_Big : ∀ z, is_u64 z → Big (NewCurrency64 z) = z;
  Siacoins_Big : ∀ n, (0 ≤ n < 2 ^ 32)%Z → Big (Siacoins n) = (n * 10 ^ 24)%Z;
  Cmp_spec : ∀ c d, Cmp c d = match (Big c ?= Big d)%Z with Lt => (-1)%Z | Eq => 0%Z | Gt => 1%Z end;
  cAdd_ok : ∀ c d, (Big c + Big d < two128)%Z → ∃ e, cAdd c d = Ok e ∧ Big e = (Big c + Big d)%Z;
  cAdd_panic : ∀ c d, (two128 ≤ Big c + Big d)%Z → cAdd c d = Panic;
  cSub_ok : ∀ c d, (Big d ≤ Big c)%Z → ∃ e, cSub c d = Ok e ∧ Big e = (Big c - Big d)%Z;
  cSub_panic : ∀ c d, (Big c < Big d)%Z → cSub c d = Panic;
  SubWithUnderflow_ok : ∀ c d, (Big d ≤ Big c)%Z →
    (SubWithUnderflow c d).2 = false ∧ Big (SubWithUnderflow c d).1 = (Big c - Big d)%Z;
  SubWithUnderflow_under : ∀ c d, (Big c < Big d)%Z → (SubWithUnderflow c d).2 = true;
  Mul64_ok : ∀ c z, is_u64 z → (Big c * z < two128)%Z → ∃ e, Mul64 c z = Ok e ∧ Big e = (Big c * z)%Z;
  Mul64_panic : ∀ c z, is_u64 z → (two128 ≤ Big c * z)%Z → Mul64 c z = Panic;
  Div_ok : ∀ c d, Big d ≠ 0%Z → ∃ e, Div c d = Ok e ∧ Big e = (Big c / Big d)%Z;
  Div_zero : ∀ c d, Big d = 0%Z → Div c d = Panic;
  Div64_ok : ∀ c z, is_u64 z → z ≠ 0%Z → ∃ e, Div64 c z = Ok e ∧ Big e = (Big c / z)%Z;
  Div64_zero : ∀ c, Div64 c 0 = Panic }.

Section currency.
Context `{C : CurrencyOps}.

Definition ZeroCurrency : Currency := NewCurrency64 0.
Definition IsZero (c : Currency) : bool := (Cmp c ZeroCurrency =? 0)%Z.
(** [c.Cmp(d) < 0] and [c.Cmp(d) > 0] *)
Definition cLt (c d : Currency) : bool := (Cmp c d <? 0)%Z.
Definition cGt (c d : Currency) : bool := (Cmp c d >? 0)%Z.

Context {L : CurrencyLaws C}.

Lemma ZeroCurrency_Big : Big ZeroCurrency = 0%Z.
Proof. apply NewCurrency64_Big. done. Qed.

Lemma cLt_spec c d : cLt c d = (Big c <? Big d)%Z.
Proof. unfold cLt. rewrite Cmp_spec. destruct (Z.compare_spec (Big c) (Big d)); lia. Qed.

Lemma cGt_spec c d : cGt c d = (Big d <? Big c)%Z.
Proof. unfold cGt. rewrite Cmp_spec. destruct (Z.compare_spec (Big c) (Big d)); lia. Qed.

Lemma IsZero_spec c : IsZero c = (Big c =? 0)%Z.
Proof.
  unfold IsZero. rewrite Cmp_spec, ZeroCurrency_Big.
  destruct (Z.compare_spec (Big c) 0); lia.
Qed.

Lemma Big_nonneg c : (0 ≤ Big c)%Z.
Proof. apply Big_range. Qed.

Lemma cAdd_inv c d e : cAdd c d = Ok e → Big e = (Big c + Big d)%Z.
Proof.
  intros H. destruct (Z.lt_ge_cases (Big c + Big d) two128) as [Hlt|Hge].
  - destruct (cAdd_ok c d Hlt) as (e' & E & ?). congruence.
  - rewrite (cAdd_panic c d Hge) in H. done.
Qed.

Lemma cSub_inv c d e : cSub c d = Ok e → (Big d ≤ Big c)%Z ∧ Big e = (Big c - Big d)%Z.
Proof.
  intros H. destruct (Z.lt_ge_cases (Big c) (Big d)) as [Hlt|Hge].
  - rewrite (cSub_panic c d Hlt) in H. done.
  - destruct (cSub_ok c d Hge) as (e' & E & ?). split; [done|congruence].
Qed.

Lemma Mul64_inv c z e : is_u64 z → Mul64 c z = Ok e → Big e = (Big c * z)%Z.
Proof.
  intros Hz H. destruct (Z.lt_ge_cases (Big c * z) two128) as [Hlt|Hge].
  - destruct (Mul64_ok c z Hz Hlt) as (e' & E & ?). congruence.
  - rewrite (Mul64_panic c z Hz Hge) in H. done.
Qed.

Lemma Div_inv c d e : Div c d = Ok e → Big d ≠ 0%Z ∧ Big e = (Big c / Big d)%Z.
Proof.
  intros H. destruct (decide (Big d = 0%Z)) as [Hz|Hz].
  - rewrite (Div_zero c d Hz) in H. done.
  - destruct (Div_ok c d Hz) as (e' & E & ?). split; [done|congruence].
Qed.

Lemma Div64_inv c z e : is_u64 z → z ≠ 0%Z → Div64 c z = Ok e → Big e = (Big c / z)%Z.
Proof. intros Hz Hn H. destruct (Div64_ok c z Hz Hn) as (e' & E & ?). congruence. Qed.
End currency.

(** ** A concrete currency *)

Module U128.

Record t := mk { val : Z; ok : ((0 <=? val) && (val <? two128))%Z = true }.

Definition inj (z : Z) : result t :=
  match bool_decide (((0 <=? z) && (z <? two128))%Z = true) as b
    return bool_decide (((0 <=? z) && (z <? two128))%Z = true) = b → result t with
  | true => λ H, Ok (mk z (bool_decide_eq_true_1 _ H))
  | false => λ _, Panic
  end eq_refl.

(** The value reduced to 128 bits. *)
Definition wrapped (z : Z) : t.
Proof.
  refine (mk (z mod two128) _). abstract (apply andb_true_iff; pose proof (Z.mod_pos_bound z two128 ltac:(done)); lia).
Defined.

Lemma inj_ok z : (0 ≤ z < two128)%Z → ∃ e, inj z = Ok e ∧ val e = z.
Proof.
  intros Hz. unfold inj.
  assert (((0 <=? z) && (z <? two128))%Z = true) as Hb by lia.
  generalize (bool_decide_eq_true_1 (((0 <=? z) && (z <? two128))%Z = true)).
  rewrite (bool_decide_eq_true_2 _ Hb). intros f. eauto.
Qed.

Lemma inj_panic z : (z < 0 ∨ two128 ≤ z)%Z → inj z = Panic.
Proof.
  intros Hz. unfold inj.
  assert (((0 <=? z) && (z <? two128))%Z ≠ true) as Hb by lia.
  generalize (bool_decide_eq_true_1 (((0 <=? z) && (z <? two128))%Z = true)).
  rewrite (bool_decide_eq_false_2 _ Hb). done.
Qed.

#[export] Instance ops : CurrencyOps := {|
  Currency := t;
  Big := val;
  NewCurrency64 := wrapped;
  Siacoins n := wrapped (n * 10 ^ 24);
  Cmp c d := match (val c ?= val d)%Z with Lt => (-1)%Z | Eq => 0%Z | Gt => 1%Z end;
  cAdd c d := inj (val c + val d);
  cSub c d := inj (val c - val d);
  SubWithUnderflow c d := (wrapped (val c - val d), (val c <? val d)%Z);
  Mul64 c z := inj (val c * z);
  Div c d := if (val d =? 0)%Z then Panic else inj (val c / val d);
  Div64 c z := if (z =? 0)%Z then Panic else inj (val c / z) |}.

Lemma range (c : t) : (0 ≤ val c < two128)%Z.
Proof. destruct c as [v H]. simpl. lia. Qed.

Lemma div_range (c : t) z : (0 < z)%Z → (0 ≤ val c / z < two128)%Z.
Proof.
  intros Hz. pose proof (range c). split; [apply Z.div_pos; lia|].
  apply Z.div_lt_upper_bound; [done|]. nia.
Qed.

#[export] Instance laws : CurrencyLaws ops.
Proof.
  split; simpl.
  - apply range.
  - intros [v Hv] [w Hw]; simpl. intros ->. f_equal. apply (proof_irrel Hv Hw).
  - intros z Hz. apply Z.mod_small. unfold is_u64, two64, two128 in *. lia.
  - intros n Hn. apply Z.mod_small. unfold two128. lia.
  - done.
  - intros c d H. apply inj_ok. pose proof (range c). pose proof (range d). lia.
  - intros c d H. apply inj_panic. lia.
  - intros c d H. apply inj_ok. pose proof (range c). pose proof (range d). lia.
  - intros c d H. apply inj_panic. lia.
  - intros c d H. pose proof (range c). pose proof (range d). split; [lia|]. apply Z.mod_small. lia.
  - intros c d H. lia.
  - intros c z Hz H. apply inj_ok. pose proof (range c). unfold is_u64 in Hz. nia.
  - intros c z Hz H. apply inj_panic. lia.
  - intros c d H. pose proof (range d). destruct (Z.eqb_spec (val d) 0); [done|]. apply inj_ok, div_range. lia.
  - intros c d H. by rewrite H.
  - intros c z Hz H. unfold is_u64 in Hz. destruct (Z.eqb_spec z 0); [done|]. apply inj_ok, div_range. lia.
  - done.
Qed.

End U128.

(** ** proto and rhp: the RHP4 protocol types

    Sizes and heights are [uint64]. A usage is what an RPC costs; prices are
    the host's signed prices. The cost functions may panic on overflow, as the
    currency operations they are built from do. *)
Class RhpOps {C : CurrencyOps} := {
  Usage : Type;
  NoUsage : Usage;
  StorageUsage : Currency → Usage;              (* proto.Usage{Storage: c} *)
  RenterCost : Usage → result Currency;
  HostRiskedCollateral : Usage → Currency;      (* also the field RiskedCollateral *)
  HostPrices : Type;
  StoragePrice : HostPrices → Currency;
  IngressPrice : HostPrices → Currency;
  EgressPrice : HostPrices → Currency;
  ContractPrice : HostPrices → Currency;
  TipHeight : HostPrices → Z;
  ValidUntil : HostPrices → Z;
  ValidatePrices : HostPrices → PublicKey → option error;
  RPCWriteSectorCost : HostPrices → Z → result Usage;
  RPCReadSectorCost : HostPrices → Z → result Usage;
  RPCAppendSectorsCost : HostPrices → Z → Z → result Usage;
  MaxHostCollateral : HostPrices → Currency → result Currency;
  SectorSize : Z;
  ProofWindow : Z;
  MaxAccountBatchSize : Z;
  MaxSectorBatchSize : Z;
  Version : Type;
  VersionCmp : Version → Version → Z;
  ProtocolVersion500 : Version;
  ProtocolVersion502 : Version;
  ProtocolVersion510 : Version;
  ErrInvalidSignature : string;
  ErrPricesExpired : string }.

Class RhpLaws {C : CurrencyOps} (R : RhpOps) : Prop := {
  SectorSize_pos : (0 < SectorSize < 2 ^ 40)%Z;
  ProofWindow_range : (0 ≤ ProofWindow < 2 ^ 32)%Z;
  MaxAccountBatchSize_pos : (0 < MaxAccountBatchSize < 2 ^ 32)%Z;
  MaxSectorBatchSize_pos : (0 < MaxSectorBatchSize < 2 ^ 32)%Z;
  TipHeight_range : ∀ p, is_u64 (TipHeight p) }.

(** [proto.HostSettings]: the fields of the library's struct the program reads. *)
Record HostSettings {C : CurrencyOps} {R : RhpOps} := mkSettings {
  ProtocolVersion : Version;
  WalletAddress : N;
  MaxCollateral : Currency;
  RemainingStorage : Z;
  Prices : HostPrices }.
Arguments mkSettings {C R} _ _ _ _ _.

(** [types.V2FileContract]: the fields of the library's struct the program
    reads, and its accessor methods, which are parameters. *)
Module V2.
Record FileContract {C : CurrencyOps} := mk {
  Filesize : Z;
  Capacity : Z;
  ProofHeight : Z;
  ExpirationHeight : Z;
  RevisionNumber : Z;
  RenterOutputValue : Currency;
  TotalCollateral : Currency;
  HostPublicKey : PublicKey }.
Arguments mk {C} _ _ _ _ _ _ _ _.

Class Methods {C : CurrencyOps} := {
  RemainingAllowance : FileContract → Currency;
  RemainingCollateral : FileContract → Currency;
  RiskedCollateral : FileContract → result Currency }.
End V2.

(** [rhp.ContractRevision] *)
Record ContractRevision {C : CurrencyOps} := mkRevision { CR_ID : FileContractID; CR_Revision : V2.FileContract }.
Arguments mkRevision {C} _ _.

(** ** types.PrivateKey and types.PublicKey: signatures of hashes *)
Class SigOps := {
  PrivateKey : Type;
  PublicKeyOf : PrivateKey → PublicKey;
  SignHash : PrivateKey → Hash256 → N;
  VerifyHash : PublicKey → Hash256 → N → bool }.

(** A signature verifies against the key that made it. *)
Class SigLaws (G : SigOps) : Prop := {
  SignHash_verifies : ∀ sk h, VerifyHash (PublicKeyOf sk) h (SignHash sk h) = true }.

(** A concrete scheme, for the witnesses: private and public keys coincide. *)
Module TestSig.
#[export] Instance ops : SigOps := {|
  PrivateKey := N;
  PublicKeyOf sk := sk;
  SignHash sk h := (sk + h)%N;
  VerifyHash pk h s := (s =? pk + h)%N |}.
#[export] Instance laws : SigLaws ops.
Proof. split. intros sk h. apply N.eqb_refl. Qed.
End TestSig.

(** A concrete protocol, for the witnesses: 4 MiB sectors, prices per sector. *)
Module TestRhp.

#[local] Existing Instance U128.ops.

Record prices := mkPrices { storage : U128.t; ingress : U128.t; egress : U128.t; tip : Z }.
Record usage := mkUsage { rpc : U128.t; store : U128.t; risked : U128.t }.

#[export] Instance ops : RhpOps := {|
  Usage := usage;
  NoUsage := mkUsage (U128.wrapped 0) (U128.wrapped 0) (U128.wrapped 0);
  StorageUsage c := mkUsage (U128.wrapped 0) c (U128.wrapped 0);
  RenterCost u := cAdd (rpc u) (store u);
  HostRiskedCollateral := risked;
  HostPrices := prices;
  StoragePrice := storage;
  IngressPrice := ingress;
  EgressPrice := egress;
  ContractPrice _ := U128.wrapped 0;
  TipHeight p := u64 (tip p);
  ValidUntil _ := 0%Z;
  ValidatePrices _ _ := None;
  RPCWriteSectorCost p n := c ← Mul64 (ingress p) n; mret (mkUsage c (U128.wrapped 0) (U128.wrapped 0));
  RPCReadSectorCost p n := c ← Mul64 (egress p) n; mret (mkUsage c (U128.wrapped 0) (U128.wrapped 0));
  RPCAppendSectorsCost p k d :=
    c ← Mul64 (storage p) (u64 (k * d * 4194304)); r ← Mul64 c 2; mret (mkUsage (U128.wrapped 0) c r);
  MaxHostCollateral p c := Mul64 c 2;
  SectorSize := 4194304;
  ProofWindow := 144;
  MaxAccountBatchSize := 1000;
  MaxSectorBatchSize := 262144;
  Version := Z;
  VersionCmp a b := match (a ?= b)%Z with Lt => (-1)%Z | Eq => 0%Z | Gt => 1%Z end;
  ProtocolVersion500 := 500%Z;
  ProtocolVersion502 := 502%Z;
  ProtocolVersion510 := 510%Z;
  ErrInvalidSignature := "invalid signature";
  ErrPricesExpired := "prices expired" |}.

#[export] Instance laws : RhpLaws ops.
Proof. split; simpl; try lia. intros p. apply u64_range. Qed.

#[export] Instance methods : V2.Methods := {|
  V2.RemainingAllowance r := V2.RenterOutputValue r;
  V2.RemainingCollateral r := V2.TotalCollateral r;
  V2.RiskedCollateral r := Ok (U128.wrapped 0) |}.

End TestRhp.
