(* ===== verification/Contract.v ===== *)
(** * Contracts (src/contracts/contract.go, the funding helpers of
    src/contracts/form.go)

    The contract record, the predicates the maintenance code decides with
    ([GoodForAppend], [GoodForRefresh], [GoodForAccountFunding],
    [maxRenewableContractSize], [isBeyondMaxRevisionHeight]) and the calculation
    of the funds of a contract ([contractFunding]). Currency arithmetic may
    panic, so the functions return a [result] whose value is the error (or nil)
    the Go function returns. *)

From S2P Require Import Prelude External.

(** ** Contract states *)

Inductive ContractState :=
  | ContractStatePending
  | ContractStateActive
  | ContractStateResolved
  | ContractStateExpired
  | ContractStateRejected
  | ContractStateUnknown (n : Z).   (* a [ContractState] is a [uint]: 5 and above *)

#[export] Instance ContractState_eq_dec : EqDecision ContractState.
Proof. solve_decision. Defined.

Definition ContractState_String (s : ContractState) : string :=
  match s with
  | ContractStatePending => "pending"
  | ContractStateActive => "active"
  | ContractStateResolved => "resolved"
  | ContractStateExpired => "expired"
  | ContractStateRejected => "rejected"
  | ContractStateUnknown _ => ""
  end.

Definition ContractState_MarshalText (s : ContractState) : result string :=
  let str := ContractState_String s in
  if String.eqb str "" then Err (EMsg "unknown contract state") else Ok str.

Definition ContractState_UnmarshalText (b : string) : result ContractState :=
  if String.eqb b "pending" then Ok ContractStatePending
  else if String.eqb b "active" then Ok ContractStateActive
  else if String.eqb b "resolved" then Ok ContractStateResolved
  else if String.eqb b "expired" then Ok ContractStateExpired
  else if String.eqb b "rejected" then Ok ContractStateRejected
  else Err (EMsg "unknown contract state").

Section contract.
Context {C : CurrencyOps} {R : RhpOps}.

(** ** The contract record *)

Record ContractSpending := mkSpending {
  AppendSector : Currency;
  FreeSector : Currency;
  FundAccount : Currency;
  SectorRoots : Currency }.

Record Contract := mkContract {
  ID : FileContractID;
  HostKey : PublicKey;
  Formation : Z;
  RenewedFrom : FileContractID;
  NextPrune : Z;
  LastBroadcastAttempt : Z;
  RevisionNumber : Z;
  ProofHeight : Z;
  ExpirationHeight : Z;
  Capacity : Z;
  Size : Z;
  InitialAllowance : Currency;
  RemainingAllowance : Currency;
  TotalCollateral : Currency;
  RenewedTo : FileContractID;
  UsedCollateral : Currency;
  CContractPrice : Currency;
  MinerFee : Currency;
  Good : bool;
  State : ContractState;
  Spending : ContractSpending }.

(** ** Renewable size *)

Definition maxContractSize : Z := 10 * 2 ^ 40.

Definition maxRenewableContractSize (hostSettings : HostSettings) (period : Z) : result Z :=
  let maxCollateral := MaxCollateral hostSettings in
  sectorUsage ← RPCAppendSectorsCost (Prices hostSettings) 1 (u64 (period + ProofWindow));
  let sectorCollateral := HostRiskedCollateral sectorUsage in
  let sectorCollateral := if IsZero sectorCollateral then NewCurrency64 1 else sectorCollateral in
  maxSectors ← Div maxCollateral sectorCollateral;
  maxSectorsSize ← Mul64 maxSectors SectorSize;
  let maxSize := maxContractSize in
  let maxSize := if (Big maxSectorsSize <? two64)%Z then Z.min maxSize (Big maxSectorsSize) else maxSize in
  let maxSize := (u64 (maxSize * 8) / 10)%Z in
  mret (u64 (maxSize / SectorSize * SectorSize)).

(** ** Predicates *)

(** A nil error is [None]. *)
Abbreviation nil_or_error := (option error) (only parsing).

Definition GoodForAccountFunding (c : Contract) (target : Currency) : nil_or_error :=
  if negb (Good c) then Some (EMsg "contract is not good")
  else if cLt (RemainingAllowance c) target then
    Some (EMsg "not enough remaining allowance to fund accounts")
  else None.

Definition inRenewWindow (c : Contract) (renewWindow height : Z) : bool :=
  (ProofHeight c <=? u64 (height + renewWindow))%Z.

Definition GoodForAppend (c : Contract) (settings : HostSettings) (renewWindow height period : Z) : result nil_or_error :=
  let prices := Prices settings in
  maxRenewableSize ← maxRenewableContractSize settings period;
  if negb (Good c) then mret (Some (EMsg "contract is not good"))
  else if (maxRenewableSize <=? Size c)%Z then mret (Some (EMsg "contract has reached maximum renewable size"))
  else if (ProofHeight c <=? height)%Z then mret (Some (EMsg "contract is not revisable"))
  else if inRenewWindow c renewWindow height then mret (Some (EMsg "contract is in renew window"))
  else if (Size c <? Capacity c)%Z then mret None
  else
    appendUsage ← RPCAppendSectorsCost prices 1 (u64 (ExpirationHeight c - height));
    renterCost ← RenterCost appendUsage;
    let hostCollateral := HostRiskedCollateral appendUsage in
    remainingCollateral ← cSub (TotalCollateral c) (UsedCollateral c);
    if cLt (RemainingAllowance c) renterCost then
      mret (Some (EMsg "not enough remaining allowance to append a sector"))
    else if cLt remainingCollateral hostCollateral then
      mret (Some (EMsg "not enough remaining collateral to append a sector"))
    else mret None.

(** ** Funding *)

Definition minContractGrowthRate : Z := 32 * 2 ^ 30.
Definition maxContractGrowthRate : Z := 256 * 2 ^ 30.
Definition minAllowance : Currency := Siacoins 10.
Definition minHostCollateral : Currency := Siacoins 1.

(** The sectors a contract is funded to grow by. *)
Definition contractGrowth (existingData : Z) : Z :=
  let multiplier := u64 (1 + existingData / minContractGrowthRate) in
  (Z.min (u64 (minContractGrowthRate * multiplier)) maxContractGrowthRate / SectorSize)%Z.

Definition contractFunding (settings : HostSettings) (existingData : Z) (minAllowance : Currency)
    (duration : Z) : result (Currency * Currency) :=
  let growth := contractGrowth existingData in
  writeUsage ← RPCWriteSectorCost (Prices settings) SectorSize;
  writeCost ← RenterCost writeUsage;
  uploadCost ← Mul64 writeCost growth;
  readUsage ← RPCReadSectorCost (Prices settings) SectorSize;
  readCost ← RenterCost readUsage;
  downloadCost ← Mul64 readCost growth;
  storeUsage ← RPCAppendSectorsCost (Prices settings) growth duration;
  storeCost ← RenterCost storeUsage;
  allowance ← cAdd uploadCost storeCost;
  allowance ← cAdd allowance downloadCost;
  let allowance := if cLt allowance minAllowance then minAllowance else allowance in
  collateral ← MaxHostCollateral (Prices settings) storeCost;
  let collateral := if cGt collateral (MaxCollateral settings) then MaxCollateral settings else collateral in
  let collateral := if cLt collateral minHostCollateral then minHostCollateral else collateral in
  mret (allowance, collateral).

Definition GoodForRefresh (c : Contract) (settings : HostSettings) (fundTarget : Currency)
    (renewWindow height period : Z) : result nil_or_error :=
  if inRenewWindow c renewWindow height then mret (Some (EMsg "contract is in renew window"))
  else
    let duration := u64 (ExpirationHeight c - height) in
    '(_, collateral) ← contractFunding settings (Size c) fundTarget duration;
    totalCollateral ←
      (if (VersionCmp (ProtocolVersion settings) ProtocolVersion502 >=? 0)%Z
       then cAdd (UsedCollateral c) collateral
       else cAdd (TotalCollateral c) collateral);
    maxRenewableSize ← maxRenewableContractSize settings period;
    if negb (Good c) then mret (Some (EMsg "contract is not good"))
    else if (maxRenewableSize <=? Size c)%Z then mret (Some (EMsg "contract has reached maximum renewable size"))
    else if (ProofHeight c <=? height)%Z then mret (Some (EMsg "contract is not revisable"))
    else if cGt totalCollateral (MaxCollateral settings) then
      mret (Some (EMsg "host's max collateral is less than estimated collateral for refresh"))
    else mret None.

(** [isBeyondMaxRevisionHeight] of src/contracts/revision.go *)
Definition isBeyondMaxRevisionHeight (proofHeight revisionSubmissionBuffer blockHeight : Z) : bool :=
  let maxRevisionHeight :=
    if (proofHeight >? revisionSubmissionBuffer)%Z then u64 (proofHeight - revisionSubmissionBuffer) else 0%Z in
  (blockHeight >=? maxRevisionHeight)%Z.

Definition withinGougingLeeway (cost limit : Currency) : result bool :=
  c ← Mul64 cost 10; l ← Mul64 limit 8; mret (cGt c l).

End contract.

(** ** Properties *)

(** The text form of a contract state round-trips: [MarshalText] yields [b]
    for [s] exactly when [UnmarshalText] reads [s] back from [b], and it fails
    on every value that is not one of the five states. *)
Lemma contract_state_roundtrip (s : ContractState) (b : string) :
  ContractState_MarshalText s = Ok b ↔ ContractState_UnmarshalText b = Ok s.
Proof.
  unfold ContractState_MarshalText, ContractState_UnmarshalText. split.
  - destruct s; simpl; intros [= <-]; done.
  - intros H. repeat case_match; simplify_eq/=; f_equal; symmetry; by apply String.eqb_eq.
Qed.

Example contract_state_roundtrip_example :
  ContractState_UnmarshalText "expired" = Ok ContractStateExpired.
Proof. reflexivity. Qed.

(** The revisability test of [WithRevision] is the comparison its error
    message prints: a contract is beyond its maximum revision height exactly when
    [proofHeight <= blockHeight + buffer], without the overflow a literal
    [blockHeight + buffer] could have. *)
Lemma beyond_max_revision_height_spec (proofHeight buffer blockHeight : Z) :
  is_u64 proofHeight → is_u64 buffer → is_u64 blockHeight →
  isBeyondMaxRevisionHeight proofHeight buffer blockHeight = (proofHeight <=? blockHeight + buffer)%Z.
Proof.
  unfold is_u64, isBeyondMaxRevisionHeight. intros Hp Hb Hh.
  destruct (Z.gtb_spec proofHeight buffer) as [Hgt|Hle].
  - rewrite u64_id by (unfold is_u64; lia). lia.
  - lia.
Qed.

Example beyond_max_revision_height_spec_witness :
  isBeyondMaxRevisionHeight 1000 144 856 = (1000 <=? 856 + 144)%Z.
Proof. apply beyond_max_revision_height_spec; unfold is_u64, two64; lia. Defined.

Section properties.
Context {C : CurrencyOps} {L : CurrencyLaws C} {R : RhpOps} {RL : RhpLaws R}.

(** The collateral a host risks for one more sector, as
    [maxRenewableContractSize] uses it. *)
Definition sectorCollateral (u : Usage) : Z := Z.max 1 (Big (HostRiskedCollateral u)).

Lemma sectorCollateral_Big u :
  Big (if IsZero (HostRiskedCollateral u) then NewCurrency64 1 else HostRiskedCollateral u) = sectorCollateral u.
Proof.
  unfold sectorCollateral. rewrite IsZero_spec. pose proof (Big_nonneg (HostRiskedCollateral u)).
  destruct (Z.eqb_spec (Big (HostRiskedCollateral u)) 0) as [E|E]; [|lia].
  rewrite NewCurrency64_Big by done. lia.
Qed.

(** What [maxRenewableContractSize] computes, once the library's cost function
    returned. *)
Lemma maxRenewable_eq settings period u :
  RPCAppendSectorsCost (Prices settings) 1 (u64 (period + ProofWindow)) = Ok u →
  let sectors := (Big (MaxCollateral settings) / sectorCollateral u)%Z in
  maxRenewableContractSize settings period =
    if (sectors * SectorSize <? two128)%Z
    then Ok ((Z.min maxContractSize (sectors * SectorSize) * 8 / 10) / SectorSize * SectorSize)%Z
    else Panic.
Proof.
  intros Hu sectors. pose proof (SectorSize_pos) as HS.
  unfold maxRenewableContractSize. rewrite Hu. simpl.
  assert (1 ≤ sectorCollateral u)%Z as Hsc by (unfold sectorCollateral; lia).
  assert (0 ≤ sectors)%Z as Hnn by (apply Z.div_pos; [apply Big_range|lia]).
  destruct (Div_ok (MaxCollateral settings) (if IsZero (HostRiskedCollateral u) then NewCurrency64 1 else HostRiskedCollateral u)) as (ms & Hms & HBms).
  { rewrite sectorCollateral_Big. lia. }
  rewrite Hms. simpl. rewrite sectorCollateral_Big in HBms. fold sectors in HBms.
  assert (is_u64 SectorSize) as HSu by (unfold is_u64, two64; lia).
  destruct (Z.ltb_spec (sectors * SectorSize) two128) as [Hlt|Hge].
  2: { rewrite Mul64_panic; [done|done|by rewrite HBms]. }
  destruct (Mul64_ok ms SectorSize HSu) as (mss & Hmss & HBmss); [by rewrite HBms|].
  rewrite Hmss. unfold mret, result_ret. simpl. rewrite HBmss, HBms.
  assert ((if (sectors * SectorSize <? two64)%Z then Z.min maxContractSize (sectors * SectorSize) else maxContractSize)
          = Z.min maxContractSize (sectors * SectorSize)) as ->.
  { destruct (Z.ltb_spec (sectors * SectorSize) two64); [done|]. unfold maxContractSize, two64 in *. lia. }
  set (x := Z.min maxContractSize (sectors * SectorSize)).
  assert (0 ≤ x ≤ 10 * 2 ^ 40)%Z as Hx by (subst x; unfold maxContractSize; nia).
  clearbody x. rewrite (u64_id (x * 8)) by (unfold is_u64, two64; lia).
  f_equal. apply u64_id. unfold is_u64, two64.
  assert (0 ≤ x * 8 / 10 ≤ 10 * 2 ^ 40)%Z by (split; [apply Z.div_pos|apply Z.div_le_upper_bound]; lia).
  pose proof (Z.mul_div_le (x * 8 / 10) SectorSize (proj1 HS)).
  pose proof (Z.div_pos (x * 8 / 10) SectorSize (proj1 H) (proj1 HS)). nia.
Qed.

(** The maximum renewable size is a whole number of sectors, at most 80% of
    10 TiB, and at that size the collateral the sectors need is at most 80% of
    the host's maximum collateral, so a renewal at that size stays affordable
    for the host. *)
Theorem max_renewable_bounds (settings : HostSettings) (period m : Z) (u : Usage) :
  RPCAppendSectorsCost (Prices settings) 1 (u64 (period + ProofWindow)) = Ok u →
  maxRenewableContractSize settings period = Ok m →
  (SectorSize | m)%Z ∧ (0 ≤ m)%Z ∧ (10 * m ≤ 8 * maxContractSize)%Z ∧
  (10 * (m / SectorSize * Big (HostRiskedCollateral u)) ≤ 8 * Big (MaxCollateral settings))%Z.
Proof.
  intros Hu. rewrite (maxRenewable_eq _ _ _ Hu). cbv zeta.
  set (s := (Big (MaxCollateral settings) / sectorCollateral u)%Z).
  destruct (s * SectorSize <? two128)%Z; [|done]. intros [= <-].
  pose proof SectorSize_pos as HS.
  assert (Big (HostRiskedCollateral u) ≤ sectorCollateral u ∧ 1 ≤ sectorCollateral u)%Z as [Hsc1 Hsc2]
    by (unfold sectorCollateral; lia).
  assert (0 ≤ s)%Z as Hs by (apply Z.div_pos; [apply Big_range|lia]).
  pose proof (Z.mul_div_le (Big (MaxCollateral settings)) (sectorCollateral u) ltac:(lia)) as Hmul. fold s in Hmul.
  set (y := (Z.min maxContractSize (s * SectorSize) * 8 / 10)%Z).
  assert (0 ≤ y)%Z as Hy by (apply Z.div_pos; unfold maxContractSize; nia).
  assert (10 * y ≤ Z.min maxContractSize (s * SectorSize) * 8)%Z as Hy10 by (apply Z.mul_div_le; lia).
  clearbody y s.
  pose proof (Z.mul_div_le y SectorSize (proj1 HS)) as Hfl.
  pose proof (Z.div_pos y SectorSize Hy (proj1 HS)) as Hq.
  split_and!; [apply Z.divide_factor_r|nia|nia|].
  rewrite Z.div_mul by lia. set (q := (y / SectorSize)%Z) in *.
  assert (10 * q ≤ 8 * s)%Z by nia. pose proof (Big_nonneg (HostRiskedCollateral u)).
  assert (10 * q * Big (HostRiskedCollateral u) ≤ 8 * s * sectorCollateral u)%Z by nia. nia.
Qed.

(** [maxRenewableContractSize] is not total: with a risk-free sector price it
    panics exactly when the host advertises a maximum collateral of
    [2^128 / SectorSize] hastings or more, because [Mul64] overflows before the
    result is compared with 64 bits. *)
Theorem max_renewable_panics (settings : HostSettings) (period : Z) (u : Usage) :
  RPCAppendSectorsCost (Prices settings) 1 (u64 (period + ProofWindow)) = Ok u →
  Big (HostRiskedCollateral u) = 0%Z →
  maxRenewableContractSize settings period = Panic ↔
  (two128 ≤ Big (MaxCollateral settings) * SectorSize)%Z.
Proof.
  intros Hu Hz. rewrite (maxRenewable_eq _ _ _ Hu).
  cbv zeta. unfold sectorCollateral. rewrite Hz. change (Z.max 1 0) with 1%Z. rewrite Z.div_1_r.
  destruct (Z.ltb_spec (Big (MaxCollateral settings) * SectorSize) two128); split; try done; lia.
Qed.

(** What a contract must satisfy to take one more sector, in unbounded
    arithmetic: it is good, below the renewable size [m], revisable and outside
    its renew window, and it has paid-for capacity left or the allowance and
    collateral of one more sector. *)
Definition can_append (c : Contract) (m renewWindow height renterCost hostCollateral : Z) : Prop :=
  Good c = true ∧ (Size c < m)%Z ∧ (height + renewWindow < ProofHeight c)%Z ∧
  ((Size c < Capacity c)%Z ∨
   (renterCost ≤ Big (RemainingAllowance c) ∧
    hostCollateral ≤ Big (TotalCollateral c) - Big (UsedCollateral c))%Z).

(** Heights the predicates compare without overflow. *)
Definition heights_ok (c : Contract) (renewWindow height : Z) : Prop :=
  (0 ≤ height)%Z ∧ (0 ≤ renewWindow)%Z ∧ is_u64 (height + renewWindow) ∧
  is_u64 (ProofHeight c) ∧ is_u64 (ExpirationHeight c) ∧ (ProofHeight c ≤ ExpirationHeight c)%Z.

Lemma inRenewWindow_spec c renewWindow height :
  heights_ok c renewWindow height →
  inRenewWindow c renewWindow height = (ProofHeight c <=? height + renewWindow)%Z.
Proof. intros (? & ? & Hu & _). unfold inRenewWindow. by rewrite (u64_id (height + renewWindow)). Qed.

(** [GoodForAppend] returns nil exactly for the contracts that can take one
    more sector, and reports an error for every other contract; it panics for
    none whose used collateral is within its total collateral. *)
Theorem good_for_append_spec (c : Contract) (settings : HostSettings)
    (renewWindow height period m : Z) (u : Usage) (renterCost : Currency) :
  heights_ok c renewWindow height →
  (Big (UsedCollateral c) ≤ Big (TotalCollateral c))%Z →
  maxRenewableContractSize settings period = Ok m →
  RPCAppendSectorsCost (Prices settings) 1 (u64 (ExpirationHeight c - height)) = Ok u →
  RenterCost u = Ok renterCost →
  ∃ e, GoodForAppend c settings renewWindow height period = Ok e ∧
    (e = None ↔ can_append c m renewWindow height (Big renterCost) (Big (HostRiskedCollateral u))).
Proof.
  intros Hh Hcol Hm Hu Hr. unfold GoodForAppend, can_append.
  destruct (cSub_ok _ _ Hcol) as (rem & Hrem & HBrem).
  pose proof Hh as (? & ? & _).
  rewrite Hm. simpl. rewrite inRenewWindow_spec by done.
  destruct (Good c); simpl; [|naive_solver].
  destruct (Z.leb_spec m (Size c)); [eexists; split; [done|]; split; [done|]; lia|].
  destruct (Z.leb_spec (ProofHeight c) height); [eexists; split; [done|]; split; [done|]; lia|].
  destruct (Z.leb_spec (ProofHeight c) (height + renewWindow)); [eexists; split; [done|]; split; [done|]; lia|].
  destruct (Z.ltb_spec (Size c) (Capacity c)); [eexists; split; [done|]; split; [|done]; lia|].
  rewrite Hu. simpl. rewrite Hr. simpl. rewrite Hrem. simpl. rewrite !cLt_spec.
  destruct (Z.ltb_spec (Big (RemainingAllowance c)) (Big renterCost)); [eexists; split; [done|]; split; [done|]; lia|].
  destruct (Z.ltb_spec (Big rem) (Big (HostRiskedCollateral u))); eexists; (split; [done|]); split; try done; lia.
Qed.

(** *** Funding *)

Lemma contractGrowth_range existingData :
  (0 ≤ existingData < two63)%Z →
  contractGrowth existingData =
    (Z.min (minContractGrowthRate * (1 + existingData / minContractGrowthRate)) maxContractGrowthRate / SectorSize)%Z.
Proof.
  intros Hd. unfold contractGrowth, minContractGrowthRate, maxContractGrowthRate, two63 in *.
  assert (0 ≤ existingData / (32 * 2 ^ 30) < 2 ^ 28)%Z
    by (split; [apply Z.div_pos|apply Z.div_lt_upper_bound]; lia).
  rewrite (u64_id (1 + _)) by (unfold is_u64, two64; lia).
  by rewrite u64_id by (unfold is_u64, two64; lia).
Qed.

Lemma contractGrowth_bounds existingData :
  (0 ≤ existingData < two63)%Z →
  (minContractGrowthRate / SectorSize ≤ contractGrowth existingData ≤ maxContractGrowthRate / SectorSize)%Z.
Proof.
  intros Hd. pose proof SectorSize_pos. rewrite contractGrowth_range by done.
  assert (0 ≤ existingData / minContractGrowthRate)%Z by (apply Z.div_pos; unfold minContractGrowthRate; lia).
  split; apply Z.div_le_mono; unfold minContractGrowthRate, maxContractGrowthRate in *; lia.
Qed.

Lemma contractGrowth_u64 existingData : (0 ≤ existingData < two63)%Z → is_u64 (contractGrowth existingData).
Proof.
  intros Hd. pose proof SectorSize_pos as HS. pose proof (contractGrowth_bounds _ Hd) as [Hl Hu].
  pose proof (Z.div_pos minContractGrowthRate SectorSize ltac:(done) (proj1 HS)).
  pose proof (Z.mul_div_le maxContractGrowthRate SectorSize (proj1 HS)).
  unfold is_u64, two64, maxContractGrowthRate in *. nia.
Qed.

(** What the funds of a contract must cover: writing, reading and storing the
    sectors it is expected to grow by. *)
Definition growth_cost (settings : HostSettings) (existingData duration cost : Z) : Prop :=
  ∃ wu wc ru rc su sc,
    RPCWriteSectorCost (Prices settings) SectorSize = Ok wu ∧ RenterCost wu = Ok wc ∧
    RPCReadSectorCost (Prices settings) SectorSize = Ok ru ∧ RenterCost ru = Ok rc ∧
    RPCAppendSectorsCost (Prices settings) (contractGrowth existingData) duration = Ok su ∧
    RenterCost su = Ok sc ∧
    cost = (Big wc * contractGrowth existingData + Big rc * contractGrowth existingData + Big sc)%Z.

(** The funds [contractFunding] asks for: the allowance is the larger of the
    requested minimum and the cost of writing, reading and storing the expected
    growth (32 GiB to 256 GiB); the collateral is at least 1 SC, and at most the
    host's maximum collateral whenever that maximum is itself at least 1 SC. *)
Theorem contract_funding_spec (settings : HostSettings) (existingData : Z) (minAllowance : Currency)
    (duration : Z) (allowance collateral : Currency) :
  (0 ≤ existingData < two63)%Z →
  contractFunding settings existingData minAllowance duration = Ok (allowance, collateral) →
  (∃ cost, growth_cost settings existingData duration cost ∧
     Big allowance = Z.max (Big minAllowance) cost) ∧
  (Big minHostCollateral ≤ Big collateral)%Z ∧
  (Big minHostCollateral ≤ Big (MaxCollateral settings) → Big collateral ≤ Big (MaxCollateral settings))%Z.
Proof.
  intros Hd H. pose proof (contractGrowth_u64 _ Hd) as Hg. unfold contractFunding in H.
  apply bind_ok in H as (wu & Hwu & H). apply bind_ok in H as (wc & Hwc & H).
  apply bind_ok in H as (up & Hup & H). apply bind_ok in H as (ru & Hru & H).
  apply bind_ok in H as (rc & Hrc & H). apply bind_ok in H as (down & Hdown & H).
  apply bind_ok in H as (su & Hsu & H). apply bind_ok in H as (sc & Hsc & H).
  apply bind_ok in H as (a1 & Ha1 & H). apply bind_ok in H as (a2 & Ha2 & H).
  apply bind_ok in H as (col & Hcol & H). injection H as <- <-.
  apply Mul64_inv in Hup, Hdown; [|done..]. apply cAdd_inv in Ha1, Ha2.
  rewrite cLt_spec, !cGt_spec, cLt_spec. split.
  - eexists. split; [by exists wu, wc, ru, rc, su, sc|]. destruct (Z.ltb_spec (Big a2) (Big minAllowance)); lia.
  - destruct (Z.ltb_spec (Big (MaxCollateral settings)) (Big col)).
    + destruct (Z.ltb_spec (Big (MaxCollateral settings)) (Big minHostCollateral)); lia.
    + destruct (Z.ltb_spec (Big col) (Big minHostCollateral)); lia.
Qed.

End properties.

(** ** Concrete instances *)

Module ContractWitness.
#[local] Existing Instances U128.ops U128.laws TestRhp.ops TestRhp.laws.

Definition sc (n : Z) : U128.t := U128.wrapped (n * 10 ^ 24).
Definition prices : TestRhp.prices := TestRhp.mkPrices (U128.wrapped 1000) (U128.wrapped 1000) (U128.wrapped 1000) 100.
Definition settings : HostSettings := mkSettings 502%Z 0%N (sc 1000) 1000000 prices.
Definition greedy : HostSettings :=
  mkSettings 502%Z 0%N (U128.wrapped (2 ^ 107)) 1000000
    (TestRhp.mkPrices (U128.wrapped 0) (U128.wrapped 1) (U128.wrapped 1) 100).
Definition zero : U128.t := U128.wrapped 0.
Definition contract : Contract :=
  mkContract 7%N 3%N 0 0%N 0 0 5 2000 2144 4194304 4194304 (sc 10) (sc 5) (sc 20) 0%N (sc 1) zero zero
    true ContractStateActive (mkSpending zero zero zero zero).

Definition unwrap {A} (d : A) (r : result A) : A := match r with Ok a => a | _ => d end.
Definition append_usage (s : HostSettings) (d : Z) : TestRhp.usage :=
  unwrap (TestRhp.mkUsage zero zero zero) (RPCAppendSectorsCost (Prices s) 1 d).

Example max_renewable_bounds_witness :
  let u := append_usage settings (u64 (6048 + ProofWindow)) in
  let m := unwrap 0%Z (maxRenewableContractSize settings 6048) in
  (SectorSize | m)%Z ∧ (0 ≤ m)%Z ∧ (10 * m ≤ 8 * maxContractSize)%Z ∧
  (10 * (m / SectorSize * Big (HostRiskedCollateral u)) ≤ 8 * Big (MaxCollateral settings))%Z.
Proof. apply (max_renewable_bounds settings 6048); vm_compute; reflexivity. Defined.

Example max_renewable_panics_witness :
  maxRenewableContractSize greedy 6048 = Panic ↔ (two128 ≤ Big (MaxCollateral greedy) * SectorSize)%Z.
Proof.
  apply (max_renewable_panics greedy 6048 (append_usage greedy (u64 (6048 + ProofWindow)))); vm_compute; reflexivity.
Defined.

Example max_renewable_panics_reached : maxRenewableContractSize greedy 6048 = Panic.
Proof. vm_compute. reflexivity. Qed.

Example good_for_append_spec_witness :
  let m := unwrap 0%Z (maxRenewableContractSize settings 6048) in
  let u := append_usage settings (u64 (2144 - 900)) in
  ∃ e, GoodForAppend contract settings 1000 900 6048 = Ok e ∧
    (e = None ↔ can_append contract m 1000 900 (Big (unwrap zero (RenterCost u))) (Big (HostRiskedCollateral u))).
Proof.
  apply (good_for_append_spec contract settings 1000 900 6048).
  - unfold heights_ok, is_u64, two64; simpl; lia.
  - vm_compute. discriminate.
  - vm_compute. reflexivity.
  - vm_compute. reflexivity.
  - vm_compute. reflexivity.
Defined.

Example contract_funding_spec_witness :
  let f := unwrap (zero, zero) (contractFunding settings 4194304 (sc 10) 6192) in
  (∃ cost, growth_cost settings 4194304 6192 cost ∧ Big f.1 = Z.max (Big (sc 10)) cost) ∧
  (Big minHostCollateral ≤ Big f.2)%Z ∧
  (Big minHostCollateral ≤ Big (MaxCollateral settings) → Big f.2 ≤ Big (MaxCollateral settings))%Z.
Proof. apply (contract_funding_spec settings 4194304 (sc 10) 6192); [unfold two63; lia|vm_compute; reflexivity]. Defined.

End ContractWitness.
