(* ===== verification/Revision.v ===== *)
(** * Revisions (src/contracts/revision.go)

    [RevisionManager.WithRevision] fetches a contract's stored revision, lets
    the caller revise it with the host and stores what the host returned; when
    the host rejects the signature it syncs the stored revision once and
    retries. The store, the host client and the chain are interfaces of the
    component, as in the code: classes over an abstract state [S], with the laws
    the theorems need. *)

From S2P Require Import Prelude External Contract.

(** ** The interfaces [WithRevision] is written against *)

Section interfaces.
Context {C : CurrencyOps} {R : RhpOps}.

(** [RevisionStore] *)
Class RevisionStore (S : Type) := {
  store_ContractRevision : FileContractID → M S (ContractRevision * bool);
  store_UpdateContractRevision : ContractRevision → Usage → M S unit;
  store_MarkContractBad : FileContractID → M S unit }.

(** [LatestRevisionClient]: the host's revision and whether it was renewed. *)
Class LatestRevisionClient (S : Type) := {
  client_LatestRevision : PublicKey → FileContractID → M S (V2.FileContract * bool) }.

(** [ChainManager], as far as revisions need it: the height of the tip. *)
Class ChainTip (S : Type) := { tipHeight : S → Z }.

(** What the store promises: [stored s id] is the revision the database holds.
    Reading changes nothing; an update that succeeds stores the revision, one
    that fails stores nothing (it runs in a transaction); other revisions and
    marking a contract leave stored revisions alone, and so do the client's
    RPCs, which touch no database. *)
Class RevisionStoreLaws {S : Type} (RS : RevisionStore S) (LC : LatestRevisionClient S)
    (CT : ChainTip S) (stored : S → FileContractID → option V2.FileContract) : Prop := {
  law_read : ∀ i s r s', store_ContractRevision i s = (r, s') → s' = s;
  law_read_ok : ∀ i s c b s', store_ContractRevision i s = (Ok (c, b), s') →
    CR_ID c = i ∧ stored s i = Some (CR_Revision c);
  law_update_ok : ∀ c u s s', store_UpdateContractRevision c u s = (Ok tt, s') →
    stored s' (CR_ID c) = Some (CR_Revision c) ∧ ∀ j, j ≠ CR_ID c → stored s' j = stored s j;
  law_update_err : ∀ c u s r s', store_UpdateContractRevision c u s = (r, s') →
    r ≠ Ok tt → stored s' = stored s;
  law_bad : ∀ i s r s', store_MarkContractBad i s = (r, s') → stored s' = stored s;
  law_client : ∀ k i s r s', client_LatestRevision k i s = (r, s') → stored s' = stored s }.

End interfaces.

(** ** The revision manager *)

Definition ErrContractInsufficientFunds : string := "contract has insufficient funds".
Definition ErrContractNotRevisable : string := "contract is not revisable".
Definition ErrContractRenewed : string := "contract got renewed".
Definition ErrContractMaxSize : string := "contract has reached maximum size".
Definition ErrContractOutOfFunds : string := "contract is out of funds".
Definition ErrContractOutOfCollateral : string := "contract is out of collateral".

Section revision.
#[local] Open Scope go_scope.
Context {C : CurrencyOps} {R : RhpOps} {V : V2.Methods}.
Context {S : Type} {RS : RevisionStore S} {LC : LatestRevisionClient S} {CT : ChainTip S}.

(** [RevisionManager.buffer] *)
Variable buffer : Z.

Definition syncRevision (contractID : FileContractID) (revision : V2.FileContract) : M S (V2.FileContract * bool) :=
  let* resp := try (client_LatestRevision (V2.HostPublicKey revision) contractID) in
  match resp with
  | Err e => throw (EWrap "" e "; failed to fetch latest revision")
  | Panic => panic
  | Ok (latest, renewed) =>
      if (V2.RevisionNumber latest <? V2.RevisionNumber revision)%Z then
        (* a failure to mark the contract is only logged *)
        let* _ := try (store_MarkContractBad contractID) in
        throw (EMsg "local revision is newer than host revision")
      else
        let* usage := lift (
          if cLt (V2.RemainingAllowance latest) (V2.RemainingAllowance revision)
          then d ← cSub (V2.RemainingAllowance revision) (V2.RemainingAllowance latest); mret (StorageUsage d)
          else mret NoUsage) in
        (* a failure to store the revision is only logged *)
        let* _ := try (store_UpdateContractRevision (mkRevision contractID latest) usage) in
        mret (latest, renewed)
  end.

Definition not_revisable : error := EWrap "" (ESentinel ErrContractNotRevisable) "".

Definition WithRevision (contractID : FileContractID)
    (reviseFn : ContractRevision → M S (ContractRevision * Usage)) : M S unit :=
  let* bh := gets tipHeight in
  let* '(contract, renewed) := wrapM "failed to fetch contract revision: " (store_ContractRevision contractID) in
  if renewed then throw (ESentinel ErrContractRenewed)
  else if isBeyondMaxRevisionHeight (V2.ProofHeight (CR_Revision contract)) buffer bh then throw not_revisable
  else
    let* first := try (reviseFn contract) in
    let* '(contract, revised, usage) :=
      match first with
      | Err e =>
          if strings_Contains (error_string e) ErrInvalidSignature then
            let* '(latest, renewed) := wrapM "failed to sync revision: " (syncRevision contractID (CR_Revision contract)) in
            if renewed then throw (ESentinel ErrContractRenewed)
            else if isBeyondMaxRevisionHeight (V2.ProofHeight latest) buffer bh then throw not_revisable
            else
              let contract := mkRevision (CR_ID contract) latest in
              let* '(revised, usage) := reviseFn contract in
              mret (contract, revised, usage)
          else throw e
      | Ok (revised, usage) => mret (contract, revised, usage)
      | Panic => panic
      end in
    if negb (CR_ID revised =? contractID)%N then panic
    else if (V2.RevisionNumber (CR_Revision revised) >? V2.RevisionNumber (CR_Revision contract))%Z then
      wrapM "failed to update contract revision: " (store_UpdateContractRevision revised usage)
    else mret tt.

(** *** Reasoning about callers *)

(** Two revise functions with the same runs give the same run. *)
Lemma WithRevision_ext contractID f g s :
  (∀ c s, f c s = g c s) → WithRevision contractID f s = WithRevision contractID g s.
Proof.
  intros Hfg. unfold WithRevision, bindM, mbind, M_bind, try.
  destruct (gets tipHeight s) as [[bh|e|] s0]; [|done..].
  destruct (wrapM _ (store_ContractRevision contractID) s0) as [[[c b]|e|] s1]; [|done..].
  destruct b; [done|]. destruct (isBeyondMaxRevisionHeight _ _ _); [done|]. rewrite (Hfg c).
  destruct (g c s1) as [[[]|e|] s2]; [done| |done]. destruct (strings_Contains _ _); [|done].
  destruct (wrapM _ (syncRevision contractID (CR_Revision c)) s2) as [[[l b]|e'|] s3]; [|done..].
  destruct b; [done|]. destruct (isBeyondMaxRevisionHeight _ _ _); [done|]. by rewrite Hfg.
Qed.

(** An invariant every call keeps is kept by the whole run, however it ends. *)
Lemma WithRevision_invariant (I : S → Prop) contractID reviseFn s :
  (∀ i s, I s → I (store_ContractRevision i s).2) →
  (∀ c u s, I s → I (store_UpdateContractRevision c u s).2) →
  (∀ i s, I s → I (store_MarkContractBad i s).2) →
  (∀ k i s, I s → I (client_LatestRevision k i s).2) →
  (∀ c s, I s → I (reviseFn c s).2) →
  I s → I (WithRevision contractID reviseFn s).2.
Proof.
  intros Hread Hupd Hbad Hcl Hrev HI.
  assert (∀ {A} (m : M S A) (Q : result A → S → Prop) s,
    (∀ s, I s → I (m s).2) → I s → (∀ r s', I s' → Q r s') → wp m Q s) as call.
  { intros A m Q s0 Hm Hs HQ. apply wp_intro. intros r s' E. apply HQ. specialize (Hm s0 Hs). by rewrite E in Hm. }
  change (wp (WithRevision contractID reviseFn) (λ _ s', I s') s).
  assert (∀ i rev (Q : result (V2.FileContract * bool) → S → Prop) s,
    I s → (∀ r s', I s' → Q r s') → wp (syncRevision i rev) Q s) as sync.
  { intros i rev Q s0 Hs HQ. unfold syncRevision.
    repeat first [solve [auto] | progress wp_steps | apply call; [solve [auto]|done|intros ? ? ?]
                 | match goal with |- context [if cLt ?a ?b then _ else _] => destruct (if cLt a b then _ else _) end]. }
  unfold WithRevision.
  repeat first [solve [auto] | progress wp_steps | apply sync; [done|intros ? ? ?] | apply call; [solve [auto]|done|intros ? ? ?]].
Qed.

(** A caller whose revise function moves from [P] to [R], except when the host
    rejects the signature, which leaves [P] for the retry. *)
Lemma WithRevision_phases (P Q : S → Prop) contractID reviseFn s :
  (∀ i s c b s', store_ContractRevision i s = (Ok (c, b), s') → CR_ID c = i) →
  (∀ i s, P s → P (store_ContractRevision i s).2) →
  (∀ c u s, P s → P (store_UpdateContractRevision c u s).2) →
  (∀ c u s, Q s → Q (store_UpdateContractRevision c u s).2) →
  (∀ i s, P s → P (store_MarkContractBad i s).2) →
  (∀ k i s, P s → P (client_LatestRevision k i s).2) →
  (∀ s, P s → Q s) →
  (∀ c s, CR_ID c = contractID → P s →
    match (reviseFn c s).1 with
    | Err e => if strings_Contains (error_string e) ErrInvalidSignature then P (reviseFn c s).2 else Q (reviseFn c s).2
    | _ => Q (reviseFn c s).2
    end) →
  P s → Q (WithRevision contractID reviseFn s).2.
Proof.
  intros Hid Hread HupdP HupdQ Hbad Hcl HPQ Hrev HP.
  change (wp (WithRevision contractID reviseFn) (λ _ s', Q s') s).
  assert (∀ {A} (m : M S A) (I J : S → Prop) (Post : result A → S → Prop) s,
    (∀ s, I s → J (m s).2) → I s → (∀ r s', m s = (r, s') → J s' → Post r s') → wp m Post s) as call.
  { intros A m I J Post s0 Hm Hs HPost. apply wp_intro. intros r s' E. apply (HPost r s' E). specialize (Hm s0 Hs). by rewrite E in Hm. }
  assert (∀ i rev (Post : result (V2.FileContract * bool) → S → Prop) s,
    P s → (∀ r s', P s' → Post r s') → wp (syncRevision i rev) Post s) as sync.
  { intros i rev Post s0 Hs HPost. unfold syncRevision.
    repeat first [solve [auto] | progress wp_steps | apply (call _ _ P P); [solve [auto]|done|intros ? ? ? ?]
                 | match goal with |- context [if cLt ?a ?b then _ else _] => destruct (if cLt a b then _ else _) end]. }
  assert (∀ c u (Post : result unit → S → Prop) s, Q s → (∀ r s', Q s' → Post r s') → wp (store_UpdateContractRevision c u) Post s) as upd.
  { intros c u Post s0 Hs HPost. apply (call _ _ Q Q); [intros; by apply HupdQ|done|]. intros r s1 _. apply HPost. }
  unfold WithRevision. do 4 wp_step. apply (call _ _ P P); [intros; by apply Hread|done|]. intros r s1 Er HP1.
  destruct r as [[c b]|e|]; simpl; [|by auto..]. apply Hid in Er. wp_steps; try (by auto).
  pose proof (Hrev c s1 Er HP1) as H1. apply wp_intro. intros r s2 E2. rewrite E2 in H1. simpl in H1.
  destruct r as [[rv u]|e|]; simpl; [| |done]; wp_steps; try done.
  - apply upd; [done|]. intros r s3 H3. by destruct r.
  - apply sync; [done|]. intros r s3 H3. wp_steps; try (by auto).
    match goal with |- wp (reviseFn ?c') _ _ => pose proof (Hrev c' s3 Er H3) as H4 end.
    apply wp_intro. intros r s4 E4. rewrite E4 in H4. simpl in H4.
    destruct r as [[rv u]|e2|]; simpl; [|by case_match; auto|done]. wp_steps; try done.
    apply upd; [done|]. intros r s5 H5. by destruct r.
Qed.

(** ** Properties *)

Context (stored : S → FileContractID → option V2.FileContract).
Context {SL : RevisionStoreLaws RS LC CT stored}.

(** Every stored revision is still stored, with a number at least as high. *)
Definition revisions_grow (s s' : S) : Prop :=
  ∀ i r, stored s i = Some r → ∃ r', stored s' i = Some r' ∧ (V2.RevisionNumber r ≤ V2.RevisionNumber r')%Z.

#[local] Instance revisions_grow_preorder : PreOrder revisions_grow.
Proof.
  split.
  - intros s i r H. eauto with lia.
  - intros s1 s2 s3 H1 H2 i r H. destruct (H1 i r H) as (r1 & ? & ?).
    destruct (H2 i r1) as (r2 & ? & ?); [done|]. exists r2. split; [done|lia].
Qed.

Lemma same_grow s s' : stored s' = stored s → revisions_grow s s'.
Proof. intros E i r H. exists r. rewrite E. split; [done|lia]. Qed.

(** The stored revision of [i] has a number of at most [n]. *)
Definition at_most (s : S) (i : FileContractID) (n : Z) : Prop :=
  ∃ q, stored s i = Some q ∧ (V2.RevisionNumber q ≤ n)%Z.

(** The contract id check of [WithRevision] passed. *)
Ltac same_id :=
  match goal with H : negb (?x =? _)%N = false |- context [?x] => apply negb_false_iff, N.eqb_eq in H; rewrite H end.

Lemma wp_client k i Q s :
  (∀ r s', stored s' = stored s → Q r s') → wp (client_LatestRevision k i) Q s.
Proof. intros H. apply wp_intro. intros r s' E. eapply H, law_client, E. Qed.

Lemma wp_bad i Q s :
  (∀ r s', stored s' = stored s → Q r s') → wp (store_MarkContractBad i) Q s.
Proof. intros H. apply wp_intro. intros r s' E. eapply H, law_bad, E. Qed.

Lemma wp_update c u Q s :
  at_most s (CR_ID c) (V2.RevisionNumber (CR_Revision c)) →
  (∀ r s', revisions_grow s s' → at_most s' (CR_ID c) (V2.RevisionNumber (CR_Revision c)) → Q r s') →
  wp (store_UpdateContractRevision c u) Q s.
Proof.
  intros (old & Hold & Hle) H. apply wp_intro. intros r s' E.
  destruct (decide (r = Ok tt)) as [->|Hne].
  - apply law_update_ok in E as [Heq Hother]. apply H; [|exists (CR_Revision c); split; [done|lia]].
    intros i q Hq. destruct (decide (i = CR_ID c)) as [->|Hi]; [|exists q; rewrite Hother by done; split; [done|lia]].
    rewrite Hold in Hq. injection Hq as <-. eauto.
  - pose proof (law_update_err _ _ _ _ _ E Hne) as Es. apply H; [by apply same_grow|].
    exists old. by rewrite Es.
Qed.

Lemma wp_syncRevision contractID rev Q s :
  stored s contractID = Some rev →
  (∀ r s', revisions_grow s s' →
     (∀ latest b, r = Ok (latest, b) → at_most s' contractID (V2.RevisionNumber latest)) → Q r s') →
  wp (syncRevision contractID rev) Q s.
Proof.
  intros Hs H. unfold syncRevision. wp_step. wp_step. apply wp_client. intros r s1 E1.
  apply same_grow in E1 as G1. wp_steps; try (by apply H); simplify_eq.
  - apply wp_bad. intros r s2 E2. apply same_grow in E2. wp_steps; (apply H; [by transitivity s1|done]).
  - destruct (if cLt _ _ then _ else _); simpl; try (by apply H). wp_steps.
    apply wp_update; simpl.
    + exists rev. rewrite E1. split; [done|lia].
    + intros r s2 G2 Hm. wp_steps; (apply H; [by transitivity s1|naive_solver]).
Qed.

(** C6. [WithRevision] never loses a revision: whatever the host answers, every
    contract's stored revision stays stored with a revision number at least as
    high, on success, error and panic alike. The revise function only talks to
    the host: it leaves the database alone. *)
Theorem with_revision_monotone (contractID : FileContractID)
    (reviseFn : ContractRevision → M S (ContractRevision * Usage)) (s : S) :
  (∀ c s, stored (reviseFn c s).2 = stored s) →
  revisions_grow s (WithRevision contractID reviseFn s).2.
Proof.
  intros Hf. change (wp (WithRevision contractID reviseFn) (λ _ s', revisions_grow s s') s).
  assert (∀ c Q s, (∀ r s', stored s' = stored s → Q r s') → wp (reviseFn c) Q s) as wp_revise.
  { intros c Q s0 H. apply H, Hf. }
  unfold WithRevision. do 4 wp_step. apply wp_intro. intros r s0 Hr.
  pose proof (law_read _ _ _ _ Hr) as ->. destruct r as [[c b]|e|]; simpl; [|reflexivity..].
  apply law_read_ok in Hr as [Hid Hst]. wp_steps; try reflexivity.
  apply wp_revise. intros r s1 E1. apply same_grow in E1 as G1. wp_steps; try done; simplify_eq.
  - apply wp_update; [|intros; by transitivity s1]. exists (CR_Revision c). rewrite E1. same_id.
    split; [congruence|lia].
  - apply wp_syncRevision; [by rewrite E1|]. intros r s2 G2 Hm.
    assert (revisions_grow s s2) as G02 by by transitivity s1.
    wp_steps; try done. specialize (Hm _ _ eq_refl).
    apply wp_revise. intros r s3 E3. apply same_grow in E3 as G3.
    wp_steps; try (by transitivity s2). apply wp_update.
    + destruct Hm as (q & Hq & Hle). exists q. rewrite E3. same_id. simplify_eq/=. split; [done|lia].
    + intros r s4 G4 _. transitivity s2; [done|]. by transitivity s3.
Qed.

(** [WithRevision] never asks a host to revise a contract that is too close
    to its proof height: two revise functions that agree on the revisable
    revisions of the contract give the same run, so the function is not called
    on any other. *)
Theorem with_revision_revisable (contractID : FileContractID)
    (f g : ContractRevision → M S (ContractRevision * Usage)) (s : S) :
  (∀ c, CR_ID c = contractID →
     isBeyondMaxRevisionHeight (V2.ProofHeight (CR_Revision c)) buffer (tipHeight s) = false → f c = g c) →
  WithRevision contractID f s = WithRevision contractID g s.
Proof.
  intros Hfg. unfold WithRevision, bindM, mbind, M_bind, gets, wrapM, try.
  destruct (store_ContractRevision contractID s) as [[[c b]|e|] s0] eqn:Hr; simpl; [|done..].
  pose proof (law_read _ _ _ _ Hr) as ->. apply law_read_ok in Hr as [Hid _].
  destruct b; [done|]. destruct (isBeyondMaxRevisionHeight _ _ _) eqn:Hb; [done|].
  rewrite (Hfg c Hid Hb). destruct (g c s) as [[[]|e|] s1]; [done| |done].
  destruct (strings_Contains _ _); [|done].
  destruct (syncRevision contractID (CR_Revision c) s1) as [[[l b]|e'|] s2]; simpl; [|done..].
  destruct b; [done|]. destruct (isBeyondMaxRevisionHeight (V2.ProofHeight l) _ _) eqn:Hb2; [done|].
  by rewrite (Hfg (mkRevision (CR_ID c) l) Hid Hb2).
Qed.

(** A contract the database knows to be renewed is never revised:
    [WithRevision] returns [ErrContractRenewed] and changes nothing. *)
Lemma with_revision_renewed (contractID : FileContractID)
    (f : ContractRevision → M S (ContractRevision * Usage)) (s : S) (c : ContractRevision) :
  (store_ContractRevision contractID s).1 = Ok (c, true) →
  WithRevision contractID f s = (Err (ESentinel ErrContractRenewed), s).
Proof.
  intros H. unfold WithRevision, bindM, mbind, M_bind, gets, wrapM.
  destruct (store_ContractRevision contractID s) as [r s0] eqn:Hr. simpl in H. subst r.
  pose proof (law_read _ _ _ _ Hr) as ->. done.
Qed.

End revision.

(** ** The interfaces with local variables

    A caller of [WithRevision] passes a closure that assigns to its local
    variables [L]: the state is then [S * L], on whose second half the store,
    the client and the chain have no effect. *)

#[export] Instance store_locals {C : CurrencyOps} {R : RhpOps} {S L} `{!RevisionStore S} : RevisionStore (S * L) := {|
  store_ContractRevision i := lift1 (store_ContractRevision i);
  store_UpdateContractRevision c u := lift1 (store_UpdateContractRevision c u);
  store_MarkContractBad i := lift1 (store_MarkContractBad i) |}.
#[export] Instance client_locals {C : CurrencyOps} {S L} `{!LatestRevisionClient S} : LatestRevisionClient (S * L) := {|
  client_LatestRevision k i := lift1 (client_LatestRevision k i) |}.
#[export] Instance tip_locals {S L} `{!ChainTip S} : ChainTip (S * L) := {| tipHeight := tipHeight ∘ fst |}.

Lemma lift1_inv {S L A} (m : M S A) (p p' : S * L) r :
  lift1 m p = (r, p') → m p.1 = (r, p'.1) ∧ p'.2 = p.2.
Proof. destruct p as [s l]. simpl. destruct (m s) as [r0 s0]. by intros [= <- <-]. Qed.

#[export] Instance laws_locals {C : CurrencyOps} {R : RhpOps} {S L} (RS : RevisionStore S)
    (LC : LatestRevisionClient S) (CT : ChainTip S) stored :
  RevisionStoreLaws RS LC CT stored →
  RevisionStoreLaws (S:=S * L) store_locals client_locals tip_locals (stored ∘ fst).
Proof.
  intros SL. split; simpl.
  - intros i [s l] r [s' l'] [H E]%lift1_inv. apply law_read in H. simpl in *. congruence.
  - intros i [s l] c b [s' l'] [H _]%lift1_inv. by apply law_read_ok in H.
  - intros c u [s l] [s' l'] [H _]%lift1_inv. by apply law_update_ok in H.
  - intros c u [s l] r [s' l'] [H _]%lift1_inv. by apply (law_update_err _ _ _ _ _ H).
  - intros i [s l] r [s' l'] [H _]%lift1_inv. by apply law_bad in H.
  - intros k i [s l] r [s' l'] [H _]%lift1_inv. by apply law_client in H.
Qed.

(** ** A concrete store, for the witnesses *)

Module RevisionWitness.
#[local] Existing Instances U128.ops U128.laws TestRhp.ops TestRhp.laws TestRhp.methods.

(** The database maps ids to revisions and a renewed flag; the host answers
    with [hostRev]. *)
Record db := mkDb { rows : gmap N (V2.FileContract * bool); tip : Z; hostRev : V2.FileContract }.

#[export] Instance store : RevisionStore db := {|
  store_ContractRevision i := λ s,
    match rows s !! i with
    | Some (r, b) => (Ok (mkRevision i r, b), s)
    | None => (Err (ESentinel "contract not found"), s)
    end;
  store_UpdateContractRevision c u := λ s,
    match rows s !! CR_ID c with
    | Some (_, b) => (Ok tt, mkDb (<[CR_ID c := (CR_Revision c, b)]> (rows s)) (tip s) (hostRev s))
    | None => (Err (ESentinel "contract not found"), s)
    end;
  store_MarkContractBad i := λ s, (Ok tt, s) |}.
#[export] Instance client : LatestRevisionClient db := {| client_LatestRevision k i := λ s, (Ok (hostRev s, false), s) |}.
#[export] Instance chain : ChainTip db := {| tipHeight := tip |}.

Definition stored (s : db) (i : N) : option V2.FileContract := fst <$> rows s !! i.

#[export] Instance store_laws : RevisionStoreLaws store client chain stored.
Proof.
  split; simpl; unfold stored.
  - intros i s r s'. destruct (rows s !! i) as [[]|]; naive_solver.
  - intros i s c b s'. destruct (rows s !! i) as [[]|] eqn:E; [|done]. by intros [= <- <- <-].
  - intros c u s s'. destruct (rows s !! CR_ID c) as [[]|] eqn:E; [|done]. intros [= <-]. simpl.
    rewrite lookup_insert_eq. split; [done|]. intros j Hj. by rewrite lookup_insert_ne.
  - intros c u s r s'. destruct (rows s !! CR_ID c) as [[]|] eqn:E; intros [= <- <-]; done.
  - by intros i s r s' [= <- <-].
  - by intros k i s r s' [= <- <-].
Qed.

Definition rev (n : Z) : V2.FileContract :=
  V2.mk 4194304 8388608 2000 2144 n (U128.wrapped (10 ^ 25)) (U128.wrapped (10 ^ 25)) 3%N.
Definition s0 : db := mkDb {[ 7%N := (rev 5, false); 8%N := (rev 6, true) ]} 900 (rev 9).
(** A host that rejects signatures below its own revision number. *)
Definition revise (c : ContractRevision) : M db (ContractRevision * Usage) := λ s,
  if (V2.RevisionNumber (CR_Revision c) <? 9)%Z then (Err (EMsg "host: invalid signature"), s)
  else (Ok (mkRevision (CR_ID c) (rev 10), NoUsage), s).

Example with_revision_monotone_witness : revisions_grow stored s0 (WithRevision 144 7%N revise s0).2.
Proof. apply (with_revision_monotone 144 stored 7%N revise s0). intros c s. unfold revise. by case_match. Defined.

(** The stale revision 5 is synced to 9, revised to 10 and stored. *)
Example with_revision_syncs :
  (WithRevision 144 7%N revise s0).1 = Ok tt ∧
  (V2.RevisionNumber <$> stored (WithRevision 144 7%N revise s0).2 7%N) = Some 10%Z.
Proof. vm_compute. done. Qed.

(** A revise function that would panic on an unrevisable contract: with a buffer
    of 2000 blocks no revision of contract 7 is revisable, and it never runs. *)
Definition careful (c : ContractRevision) : M db (ContractRevision * Usage) :=
  if isBeyondMaxRevisionHeight (V2.ProofHeight (CR_Revision c)) 2000 900 then panic else revise c.

Example with_revision_revisable_witness :
  WithRevision 2000 7%N revise s0 = WithRevision 2000 7%N careful s0.
Proof.
  apply (with_revision_revisable 2000 stored 7%N revise careful s0).
  intros c _ Hb. unfold careful. cbn [tipHeight chain tip s0] in Hb. by rewrite Hb.
Defined.

Example with_revision_renewed_witness :
  WithRevision 144 8%N revise s0 = (Err (ESentinel ErrContractRenewed), s0).
Proof. apply (with_revision_renewed 144 stored 8%N revise s0 (mkRevision 8%N (rev 6))). reflexivity. Defined.

End RevisionWitness.
