(* ===== verification/Chain.v ===== *)
(** * Chain updates (src/contracts/chain.go)

    How the contract manager follows the chain: applying and reverting the
    contract diffs of a block inside a database transaction, the cache of known
    contracts, and the actions after a sync. Contract elements and their proofs
    are the library's. *)

From S2P Require Import Prelude External Contract.

(** ** Diffs *)

(** [types.V2FileContractElement] and the id of a contract's renewal are the
    library's. *)
Class ElementOps := {
  Element : Type;
  ElementID : Element → FileContractID;
  V2RenewalID : FileContractID → FileContractID }.

(** [consensus.V2FileContractElementDiff]: [Resolution] is [None] for nil, else
    whether the resolution is a renewal; [V2RevisionElement] is [None] when there
    is no revision. *)
Record Diff {E : ElementOps} := mkDiff {
  V2FileContractElement : Element;
  Created : bool;
  Resolution : option bool;
  V2RevisionElement : option Element }.
Arguments mkDiff {E} _ _ _ _.

Definition DiffID {E : ElementOps} (d : Diff) : FileContractID := ElementID (V2FileContractElement d).

(** [UpdateTx] *)
Class UpdateTx {E : ElementOps} (S : Type) := {
  tx_ContractElements : M S (list Element);
  tx_IsKnownContract : FileContractID → M S bool;
  tx_DeleteContractElements : list FileContractID → M S unit;
  tx_UpdateContractElements : list Element → M S unit;
  tx_UpdateContractState : FileContractID → ContractState → M S unit;
  tx_UpdateContractRenewedTo : FileContractID → option FileContractID → M S unit }.

Section chain.
#[local] Open Scope go_scope.
Context {E : ElementOps} {S : Type} {T : UpdateTx S}.

(** ** Applying and reverting

    The state is the transaction and [knownContracts], the cache of the
    wrapping [updateTx]. *)
Abbreviation cache := (gmap FileContractID bool) (only parsing).
Abbreviation MT := (M (S * cache)) (only parsing).

Definition IsKnownContract (fcid : FileContractID) : MT bool :=
  let* found := local (λ m : cache, m !! fcid) in
  match found with
  | Some known => mret known
  | None =>
      let* known := wrapM "failed to determine whether contract is known: " (lift1 (tx_IsKnownContract fcid)) in
      set_local (λ m : cache, <[fcid := known]> m) ;;
      mret known
  end.

(** The loop over the diffs of an applied block, collecting the elements to
    update and the contracts that were resolved. *)
Fixpoint apply_loop (diffs : list Diff) (updated : list Element) (resolved : list FileContractID) :
    MT (list Element * list FileContractID) :=
  match diffs with
  | [] => mret (updated, resolved)
  | diff :: diffs =>
      let* known := wrapM "failed to determine whether contract is known: " (IsKnownContract (DiffID diff)) in
      if negb known then apply_loop diffs updated resolved
      else if Created diff then
        wrapM "failed to update contract state: " (lift1 (tx_UpdateContractState (DiffID diff) ContractStateActive)) ;;
        apply_loop diffs (updated ++ [V2FileContractElement diff]) resolved
      else
        match Resolution diff with
        | Some renewal =>
            wrapM "failed to update contract state: " (lift1 (tx_UpdateContractState (DiffID diff) ContractStateResolved)) ;;
            when renewal (wrapM "failed to update renewed to: "
              (lift1 (tx_UpdateContractRenewedTo (DiffID diff) (Some (V2RenewalID (DiffID diff)))))) ;;
            apply_loop diffs updated (resolved ++ [DiffID diff])
        | None =>
            let fce := default (V2FileContractElement diff) (V2RevisionElement diff) in
            apply_loop diffs (updated ++ [fce]) resolved
        end
  end.

Definition nonempty {A} (l : list A) : bool := negb (Nat.eqb (length l) 0).

Definition applyV2ContractDiffs (diffs : list Diff) : MT unit :=
  let* '(updated, resolved) := apply_loop diffs [] [] in
  when (nonempty updated) (wrapM "failed to update modified contract elements: " (lift1 (tx_UpdateContractElements updated))) ;;
  when (nonempty resolved) (wrapM "failed to delete resolved contract elements: " (lift1 (tx_DeleteContractElements resolved))).

Fixpoint revert_loop (diffs : list Diff) (reverted : list FileContractID) (updated : list Element) :
    MT (list FileContractID * list Element) :=
  match diffs with
  | [] => mret (reverted, updated)
  | diff :: diffs =>
      let* known := wrapM "failed to determine whether contract is known: " (IsKnownContract (DiffID diff)) in
      if negb known then revert_loop diffs reverted updated
      else if Created diff then
        wrapM "failed to update contract state: " (lift1 (tx_UpdateContractState (DiffID diff) ContractStatePending)) ;;
        revert_loop diffs (reverted ++ [DiffID diff]) updated
      else
        match Resolution diff with
        | Some renewal =>
            wrapM "failed to update contract state: " (lift1 (tx_UpdateContractState (DiffID diff) ContractStateActive)) ;;
            when renewal (wrapM "failed to null renewed to: " (lift1 (tx_UpdateContractRenewedTo (DiffID diff) None))) ;;
            revert_loop diffs reverted (updated ++ [V2FileContractElement diff])
        | None => revert_loop diffs reverted (updated ++ [V2FileContractElement diff])
        end
  end.

Definition revertV2ContractDiffs (diffs : list Diff) : MT unit :=
  let* '(reverted, updated) := revert_loop diffs [] [] in
  when (nonempty reverted) (wrapM "failed to revert deleted contract elements: " (lift1 (tx_DeleteContractElements reverted))) ;;
  when (nonempty updated) (wrapM "failed to revert updated contract elements: " (lift1 (tx_UpdateContractElements updated))).

(** [wallet.ProofUpdater.UpdateElementProof] of a block. *)
Definition updateContractElementProofs (UpdateElementProof : Element → Element) : MT unit :=
  let* fces := lift1 tx_ContractElements in
  wrapM "failed to update contract state elements: " (lift1 (tx_UpdateContractElements (UpdateElementProof <$> fces))).

(** A block update: its diffs and its proof updater. *)
Record BlockUpdate := mkUpdate { Diffs : list Diff; UpdateElementProof : Element → Element }.

Definition applyChainUpdate (cau : BlockUpdate) : MT unit :=
  wrapM "failed to apply contract diffs: " (applyV2ContractDiffs (Diffs cau)) ;;
  updateContractElementProofs (UpdateElementProof cau).

Definition revertChainUpdate (cru : BlockUpdate) : MT unit :=
  wrapM "failed to revert contract diffs: " (revertV2ContractDiffs (Diffs cru)) ;;
  updateContractElementProofs (UpdateElementProof cru).

Definition UpdateChainState (reverted applied : list BlockUpdate) : M S unit :=
  let* _ := with_locals (∅ : cache) (
    forM reverted (λ cru, wrapM "failed to revert chain update: " (revertChainUpdate cru)) ;;
    forM applied (λ cau, wrapM "failed to apply chain update: " (applyChainUpdate cau))) in
  mret tt.

End chain.

(** ** Post-sync actions *)

Section actions.
#[local] Open Scope go_scope.
Context {S : Type} {E : ElementOps} {C : CurrencyOps}.

(** The store's and the wallet's parts in [ProcessActions]: transactions are the
    library's. *)
Context {Txn Basis : Type}.
Class ActionOps := {
  store_RejectPendingContracts : Z → M S unit;
  store_ContractElementsForBroadcast : Z → M S (list Element);
  store_PruneExpiredContractElements : Z → M S unit;
  store_PruneContractSectorsMap : Z → M S unit;
  wallet_RecommendedFee : M S Currency;
  wallet_FundV2Transaction : Txn → Currency → M S (Basis * list nat * Txn);
  wallet_SignV2Inputs : Txn → list nat → M S Txn;
  chain_V2TransactionSet : Basis → Txn → M S (Basis * list Txn);
  wallet_BroadcastV2TransactionSet : Basis → list Txn → M S unit;
  wallet_ReleaseInputs : list Txn → M S unit;
  expirationTxn : Element → Currency → Txn;     (* an expiration resolution of a contract, with a miner fee *)
  action_Now : M S Z }.
Context {A : ActionOps}.

Variable contractRejectBuffer expiredContractBroadcastBuffer expiredContractPruneBuffer expiredContractSectorsPruneBuffer : Z.

Definition contractResolutionTxnWeight : Z := 1000.

(** Failures of one contract are logged and the loop goes on with the next. *)
Definition broadcastExpired (fce : Element) : M S unit :=
  let* fee := wallet_RecommendedFee in
  let* fee := lift (Mul64 fee contractResolutionTxnWeight) in
  let txn := expirationTxn fce fee in
  let* funded := try (wallet_FundV2Transaction txn fee) in
  match funded with
  | Ok (basis, toSign, txn) =>
      let* txn := wallet_SignV2Inputs txn toSign in
      let* set := try (chain_V2TransactionSet basis txn) in
      match set with
      | Ok (basis, txnSet) =>
          let* sent := try (wallet_BroadcastV2TransactionSet basis txnSet) in
          match sent with
          | Ok _ => mret tt
          | Err _ => wallet_ReleaseInputs [txn]
          | Panic => panic
          end
      | Err _ => wallet_ReleaseInputs [txn]
      | Panic => panic
      end
  | Err _ => mret tt
  | Panic => panic
  end.

Definition broadcastExpiredContracts : M S unit :=
  let* expiredFCEs := wrapM "failed to get expired contracts for broadcast: "
    (store_ContractElementsForBroadcast expiredContractBroadcastBuffer) in
  forM expiredFCEs broadcastExpired.

Definition ProcessActions : M S unit :=
  let* now := action_Now in
  wrapM "failed to reject pending contracts: " (store_RejectPendingContracts (now - contractRejectBuffer)) ;;
  let* err := try broadcastExpiredContracts in
  match err with
  | Err e => if errors_Is e context_Canceled then mret tt else throw (EWrap "failed to broadcast expired contracts: " e "")
  | r => lift r
  end ;;
  wrapM "failed to prune expired contracts: "
    (store_PruneExpiredContractElements (u64 (expiredContractBroadcastBuffer + expiredContractPruneBuffer))) ;;
  wrapM "failed to prune expired contracts: " (store_PruneContractSectorsMap expiredContractSectorsPruneBuffer).

End actions.

(** ** The database transaction (src/persist/postgres/contracts.go)

    The rows a chain update touches: the state and the renewal of each contract,
    and the contract elements. Failures of the database itself are not
    modelled. *)

Module Db.
Section db.
Context {E : ElementOps}.

Record row := mkRow { row_state : ContractState; row_renewed_to : option FileContractID }.
Record t := mk { contracts : gmap FileContractID row; contract_elements : gmap FileContractID Element }.

Definition known (d : t) (i : FileContractID) : bool := bool_decide (is_Some (contracts d !! i)).
Definition upd (i : FileContractID) (f : row → row) (d : t) : t := mk (alter f i (contracts d)) (contract_elements d).

Definition ContractElements : M t (list Element) := gets (λ d, (map_to_list (contract_elements d)).*2).
Definition IsKnownContract (i : FileContractID) : M t bool := gets (λ d, known d i).
Definition DeleteContractElements (ids : list FileContractID) : M t unit :=
  modify (λ d, mk (contracts d) (foldl (λ m i, delete i m) (contract_elements d) ids)).
Definition UpdateContractElements (fces : list Element) : M t unit :=
  modify (λ d, mk (contracts d) (foldl (λ m e, <[ElementID e := e]> m) (contract_elements d) fces)).
Definition UpdateContractState (i : FileContractID) (state : ContractState) : M t unit :=
  modify (upd i (λ r, mkRow state (row_renewed_to r))).
(** A renewal that is not in the database is not recorded. *)
Definition UpdateContractRenewedTo (i : FileContractID) (renewedTo : option FileContractID) : M t unit := λ d,
  match renewedTo with
  | Some r =>
      if negb (known d r) then (Ok tt, d)
      else if negb (known d i) then (Err (EMsg "expected 1 row to be affected"), d)
      else (Ok tt, upd i (λ row, mkRow (row_state row) (Some r)) d)
  | None =>
      if negb (known d i) then (Err (EMsg "expected 1 row to be affected"), d)
      else (Ok tt, upd i (λ row, mkRow (row_state row) None) d)
  end.

#[export] Instance tx : UpdateTx t := {|
  tx_ContractElements := ContractElements;
  tx_IsKnownContract := IsKnownContract;
  tx_DeleteContractElements := DeleteContractElements;
  tx_UpdateContractElements := UpdateContractElements;
  tx_UpdateContractState := UpdateContractState;
  tx_UpdateContractRenewedTo := UpdateContractRenewedTo |}.
End db.
Arguments row : clear implicits.
Arguments t {E}.
End Db.

(** ** What a block does to the database *)

Section effects.
Context {E : ElementOps}.
#[local] Existing Instance Db.tx.

(** One applied, one reverted diff, on the contract's row: [k] says which
    contracts are known. *)
Definition row_apply (k : FileContractID → bool) (diff : Diff) (r : Db.row) : Db.row :=
  if Created diff then Db.mkRow ContractStateActive (Db.row_renewed_to r)
  else match Resolution diff with
       | Some renewal =>
           Db.mkRow ContractStateResolved
             (if renewal && k (V2RenewalID (DiffID diff)) then Some (V2RenewalID (DiffID diff)) else Db.row_renewed_to r)
       | None => r
       end.
Definition row_revert (k : FileContractID → bool) (diff : Diff) (r : Db.row) : Db.row :=
  if Created diff then Db.mkRow ContractStatePending (Db.row_renewed_to r)
  else match Resolution diff with
       | Some renewal => Db.mkRow ContractStateActive (if renewal then None else Db.row_renewed_to r)
       | None => r
       end.
Definition row_step (f : (FileContractID → bool) → Diff → Db.row → Db.row) (d : Db.t) (diff : Diff) : Db.t :=
  Db.upd (DiffID diff) (f (Db.known d) diff) d.

(** The elements a diff puts and removes. *)
Definition apply_put (diff : Diff) : list Element :=
  if Created diff then [V2FileContractElement diff]
  else match Resolution diff with Some _ => [] | None => [default (V2FileContractElement diff) (V2RevisionElement diff)] end.
Definition apply_del (diff : Diff) : list FileContractID :=
  if Created diff then [] else match Resolution diff with Some _ => [DiffID diff] | None => [] end.
Definition revert_put (diff : Diff) : list Element := if Created diff then [] else [V2FileContractElement diff].
Definition revert_del (diff : Diff) : list FileContractID := if Created diff then [DiffID diff] else [].

Definition knowns (d : Db.t) (diffs : list Diff) : list Diff := filter (λ x, Db.known d (DiffID x) = true) diffs.

(** The cache holds what the database says. *)
Definition cached (d : Db.t) (c : gmap FileContractID bool) : Prop := ∀ i b, c !! i = Some b → b = Db.known d i.

Lemma known_upd i f d j : Db.known (Db.upd i f d) j = Db.known d j.
Proof.
  unfold Db.known, Db.upd. simpl. apply bool_decide_ext. destruct (decide (i = j)) as [->|Hne].
  - rewrite lookup_alter_eq, fmap_is_Some. done.
  - by rewrite lookup_alter_ne.
Qed.

Lemma upd_unknown i f d : Db.known d i = false → Db.upd i f d = d.
Proof.
  unfold Db.known, Db.upd. intros H%bool_decide_eq_false_1. destruct d as [m es]. simpl in *. f_equal.
  apply map_eq. intros j. destruct (decide (i = j)) as [->|Hne]; [|by rewrite lookup_alter_ne].
  rewrite lookup_alter_eq. destruct (m !! j); [|done]. by destruct H.
Qed.

Lemma upd_upd i f g h d : (∀ r, f (g r) = h r) → Db.upd i f (Db.upd i g d) = Db.upd i h d.
Proof.
  intros H. unfold Db.upd. simpl. f_equal. apply map_eq. intros j. destruct (decide (i = j)) as [->|Hne].
  - rewrite !lookup_alter_eq. destruct (Db.contracts d !! j); simpl; [by rewrite H|done].
  - by rewrite !lookup_alter_ne.
Qed.

Lemma upd_ext i f g d : (∀ r, f r = g r) → Db.upd i f d = Db.upd i g d.
Proof. intros H. unfold Db.upd. f_equal. by apply alter_ext. Qed.

Lemma upd_id i f d : (∀ r, f r = r) → Db.upd i f d = d.
Proof. intros H. unfold Db.upd. rewrite alter_id; [by destruct d|done]. Qed.

Lemma known_row_step f d diff j : Db.known (row_step f d diff) j = Db.known d j.
Proof. apply known_upd. Qed.

Lemma known_ext d d' : (∀ j, Db.known d' j = Db.known d j) →
  (∀ c, cached d c → cached d' c) ∧ (∀ diffs, knowns d' diffs = knowns d diffs).
Proof.
  intros H. split.
  - intros c Hc i b Hi. rewrite H. by apply Hc.
  - intros diffs. unfold knowns. apply list_filter_iff. intros x. by rewrite H.
Qed.

Lemma knowns_cons d x diffs :
  knowns d (x :: diffs) = if Db.known d (DiffID x) then x :: knowns d diffs else knowns d diffs.
Proof. unfold knowns. rewrite filter_cons. by destruct (Db.known d (DiffID x)). Qed.

Lemma IsKnown_run i d c : cached d c → ∃ c', cached d c' ∧ IsKnownContract i (d, c) = (Ok (Db.known d i), (d, c')).
Proof.
  intros Hc. unfold IsKnownContract, bindM, mbind, M_bind. simpl. destruct (c !! i) as [b|] eqn:Ei.
  - exists c. by rewrite <-(Hc _ _ Ei).
  - exists (<[i:=Db.known d i]> c). split; [|done]. intros j b. destruct (decide (j = i)) as [->|Hj].
    + rewrite lookup_insert_eq. by intros [= <-].
    + rewrite lookup_insert_ne by done. apply Hc.
Qed.

Lemma apply_loop_run diffs us rs d c :
  cached d c → ∃ c', cached (foldl (row_step row_apply) d diffs) c' ∧
  apply_loop diffs us rs (d, c) =
    (Ok (us ++ concat (apply_put <$> knowns d diffs), rs ++ concat (apply_del <$> knowns d diffs)), (foldl (row_step row_apply) d diffs, c')).
Proof.
  revert us rs d c. induction diffs as [|x diffs IH]; intros us rs d c Hc; simpl; [exists c; by rewrite !app_nil_r|].
  destruct (IsKnown_run (DiffID x) d c Hc) as (c1 & Hc1 & Hk).
  unfold bindM, mbind, M_bind, wrapM. rewrite Hk. simpl.
  destruct (known_ext d (row_step row_apply d x) (known_row_step row_apply d x)) as [Hcext Hkext].
  assert (∀ c, cached d c → ∀ us rs, ∃ c', cached (foldl (row_step row_apply) (row_step row_apply d x) diffs) c' ∧
    apply_loop diffs us rs (row_step row_apply d x, c) = (Ok (us ++ concat (apply_put <$> knowns d diffs), rs ++ concat (apply_del <$> knowns d diffs)), (foldl (row_step row_apply) (row_step row_apply d x) diffs, c'))) as Hrest.
  { intros c2 Hc2 us2 rs2. destruct (IH us2 rs2 (row_step row_apply d x) c2 (Hcext _ Hc2)) as (c3 & Hc3 & Hl).
    exists c3. split; [done|]. rewrite Hkext in Hl. exact Hl. }
  rewrite !knowns_cons. destruct (Db.known d (DiffID x)) eqn:Ek.
  2: { destruct (Hrest c1 Hc1 us rs) as (c' & Hc' & Hl). exists c'. split; [done|].
       rewrite <-Hl. unfold row_step. by rewrite upd_unknown. }
  csimpl. unfold apply_put at 1, apply_del at 1. destruct (Created x) eqn:Ecr; simpl.
  - destruct (Hrest c1 Hc1 (us ++ [V2FileContractElement x]) rs) as (c' & Hc' & Hl). exists c'. split; [done|].
    rewrite <-app_assoc in Hl. simpl in Hl. rewrite <-Hl. f_equal. f_equal.
    apply upd_ext. intros r. unfold row_apply. by rewrite Ecr.
  - destruct (Resolution x) as [ren|] eqn:Er; simpl.
    + destruct (Hrest c1 Hc1 us (rs ++ [DiffID x])) as (c' & Hc' & Hl). exists c'. split; [done|].
      rewrite <-app_assoc in Hl. simpl in Hl. rewrite <-Hl. unfold when. destruct ren; simpl.
      * unfold lift1, Db.UpdateContractRenewedTo. rewrite !known_upd.
        destruct (Db.known d (V2RenewalID (DiffID x))) eqn:Ek2; simpl; [rewrite Ek; simpl|]; f_equal; f_equal.
        -- apply upd_upd. intros r. unfold row_apply. by rewrite Ecr, Er, Ek2.
        -- apply upd_ext. intros r. unfold row_apply. by rewrite Ecr, Er, Ek2.
      * f_equal. f_equal. apply upd_ext. intros r. unfold row_apply. by rewrite Ecr, Er.
    + destruct (Hrest c1 Hc1 (us ++ [default (V2FileContractElement x) (V2RevisionElement x)]) rs) as (c' & Hc' & Hl).
      exists c'. split; [done|]. rewrite <-app_assoc in Hl. simpl in Hl. rewrite <-Hl. f_equal. f_equal.
      symmetry. apply upd_id. intros r. unfold row_apply. by rewrite Ecr, Er.
Qed.

Lemma revert_loop_run diffs rs us d c :
  cached d c → ∃ c', cached (foldl (row_step row_revert) d diffs) c' ∧
  revert_loop diffs rs us (d, c) =
    (Ok (rs ++ concat (revert_del <$> knowns d diffs), us ++ concat (revert_put <$> knowns d diffs)),
     (foldl (row_step row_revert) d diffs, c')).
Proof.
  revert rs us d c. induction diffs as [|x diffs IH]; intros rs us d c Hc; simpl; [exists c; by rewrite !app_nil_r|].
  destruct (IsKnown_run (DiffID x) d c Hc) as (c1 & Hc1 & Hk).
  unfold bindM, mbind, M_bind, wrapM. rewrite Hk. simpl.
  destruct (known_ext d (row_step row_revert d x) (known_row_step _ d x)) as [Hcext Hkext].
  assert (∀ rs us, ∃ c', cached (foldl (row_step row_revert) (row_step row_revert d x) diffs) c' ∧
    revert_loop diffs rs us (row_step row_revert d x, c1) =
      (Ok (rs ++ concat (revert_del <$> knowns d diffs), us ++ concat (revert_put <$> knowns d diffs)),
       (foldl (row_step row_revert) (row_step row_revert d x) diffs, c'))) as Hrest.
  { intros rs2 us2. destruct (IH rs2 us2 (row_step row_revert d x) c1 (Hcext _ Hc1)) as (c3 & Hc3 & Hl).
    exists c3. split; [done|]. rewrite Hkext in Hl. exact Hl. }
  rewrite !knowns_cons. destruct (Db.known d (DiffID x)) eqn:Ek.
  2: { destruct (Hrest rs us) as (c' & Hc' & Hl). exists c'. split; [done|].
       rewrite <-Hl. unfold row_step. by rewrite upd_unknown. }
  csimpl. unfold revert_put at 1, revert_del at 1. destruct (Created x) eqn:Ecr; simpl.
  - destruct (Hrest (rs ++ [DiffID x]) us) as (c' & Hc' & Hl). exists c'. split; [done|].
    rewrite <-app_assoc in Hl. simpl in Hl. rewrite <-Hl. f_equal. f_equal.
    apply upd_ext. intros r. unfold row_revert. by rewrite Ecr.
  - destruct (Hrest rs (us ++ [V2FileContractElement x])) as (c' & Hc' & Hl). exists c'. split; [done|].
    rewrite <-app_assoc in Hl. simpl in Hl. rewrite <-Hl. destruct (Resolution x) as [ren|] eqn:Er; simpl.
    + unfold when. destruct ren; simpl.
      * unfold lift1, Db.UpdateContractRenewedTo. rewrite known_upd, Ek. simpl. f_equal. f_equal.
        apply upd_upd. intros r. unfold row_revert. by rewrite Ecr, Er.
      * f_equal. f_equal. apply upd_ext. intros r. unfold row_revert. by rewrite Ecr, Er.
    + f_equal. f_equal. symmetry. apply upd_id. intros r. unfold row_revert. by rewrite Ecr, Er.
Qed.

(** *** Looking up what the batches write *)

Definition ins (m : gmap FileContractID Element) (es : list Element) : gmap FileContractID Element :=
  foldl (λ m e, <[ElementID e := e]> m) m es.
Definition dels (m : gmap FileContractID Element) (ids : list FileContractID) : gmap FileContractID Element :=
  foldl (λ m i, delete i m) m ids.

Lemma ins_ne es m i : i ∉ ElementID <$> es → ins m es !! i = m !! i.
Proof.
  revert m. induction es as [|e es IH]; intros m Hi; [done|]. csimpl. csimpl in Hi. apply not_elem_of_cons in Hi as [Hne Hi].
  unfold ins in *. simpl. rewrite IH by done. by rewrite lookup_insert_ne.
Qed.

Lemma ins_eq es m e : e ∈ es → NoDup (ElementID <$> es) → ins m es !! ElementID e = Some e.
Proof.
  revert m. induction es as [|e' es IH]; intros m Hin Hnd; [by apply elem_of_nil in Hin|].
  csimpl in Hnd. apply NoDup_cons in Hnd as [Hni Hnd]. unfold ins in *. simpl. apply elem_of_cons in Hin as [->|Hin].
  - pose proof (ins_ne es (<[ElementID e':=e']> m) (ElementID e') Hni) as H. unfold ins in H. rewrite H. apply lookup_insert_eq.
  - by apply IH.
Qed.

Lemma dels_lookup ids m i : dels m ids !! i = if bool_decide (i ∈ ids) then None else m !! i.
Proof.
  unfold dels. revert m. induction ids as [|j ids IH]; intros m; simpl; [done|]. rewrite IH.
  destruct (decide (i = j)) as [->|Hne].
  - rewrite (bool_decide_eq_true_2 (j ∈ j :: ids)) by set_solver. case_bool_decide; [done|]. apply lookup_delete_eq.
  - rewrite lookup_delete_ne by done. repeat case_bool_decide; set_solver.
Qed.

Lemma foldl_row_ne f diffs d i : i ∉ DiffID <$> diffs →
  Db.contracts (foldl (row_step f) d diffs) !! i = Db.contracts d !! i.
Proof.
  revert d. induction diffs as [|x diffs IH]; intros d Hi; [done|]. csimpl. csimpl in Hi.
  apply not_elem_of_cons in Hi as [Hne Hi]. rewrite IH by done. unfold row_step, Db.upd. simpl. by rewrite lookup_alter_ne.
Qed.

Lemma foldl_row_eq f diffs d x : NoDup (DiffID <$> diffs) → x ∈ diffs →
  (∀ k k' d r, (∀ i, k i = k' i) → f k d r = f k' d r) →
  Db.contracts (foldl (row_step f) d diffs) !! DiffID x = f (Db.known d) x <$> Db.contracts d !! DiffID x.
Proof.
  intros Hnd Hin Hf. revert d. induction diffs as [|y diffs IH]; intros d; [by apply elem_of_nil in Hin|].
  csimpl in Hnd. apply NoDup_cons in Hnd as [Hni Hnd]. simpl. apply elem_of_cons in Hin as [->|Hin].
  - rewrite foldl_row_ne by done. unfold row_step, Db.upd. simpl. apply lookup_alter_eq.
  - rewrite IH by done. unfold row_step, Db.upd. simpl. rewrite lookup_alter_ne.
    + destruct (Db.contracts d !! DiffID x) as [r|]; [|done]. simpl. f_equal. apply Hf.
      intros i. apply (known_row_step f d y).
    + intros He. apply Hni. rewrite He. apply list_elem_of_fmap. by exists x.
Qed.

Lemma foldl_row_elements f diffs d : Db.contract_elements (foldl (row_step f) d diffs) = Db.contract_elements d.
Proof. revert d. induction diffs as [|x diffs IH]; intros d; simpl; [done|]. by rewrite IH. Qed.

Lemma foldl_row_known f diffs d i : Db.known (foldl (row_step f) d diffs) i = Db.known d i.
Proof. revert d. induction diffs as [|x diffs IH]; intros d; simpl; [done|]. rewrite IH. apply known_row_step. Qed.

(** *** Whole blocks *)

Definition apply_db (d : Db.t) (diffs : list Diff) : Db.t :=
  Db.mk (Db.contracts (foldl (row_step row_apply) d diffs))
    (dels (ins (Db.contract_elements d) (concat (apply_put <$> knowns d diffs))) (concat (apply_del <$> knowns d diffs))).
Definition revert_db (d : Db.t) (diffs : list Diff) : Db.t :=
  Db.mk (Db.contracts (foldl (row_step row_revert) d diffs))
    (ins (dels (Db.contract_elements d) (concat (revert_del <$> knowns d diffs))) (concat (revert_put <$> knowns d diffs))).
Definition proofs_db (P : Element → Element) (d : Db.t) : Db.t :=
  Db.mk (Db.contracts d) (P <$> Db.contract_elements d).

Definition keyed (d : Db.t) : Prop := ∀ i e, Db.contract_elements d !! i = Some e → ElementID e = i.

Lemma apply_db_known d diffs j : Db.known (apply_db d diffs) j = Db.known d j.
Proof. apply (foldl_row_known row_apply). Qed.

Lemma revert_db_known d diffs j : Db.known (revert_db d diffs) j = Db.known d j.
Proof. apply (foldl_row_known row_revert). Qed.

Lemma apply_run diffs d c : cached d c → ∃ c', cached (apply_db d diffs) c' ∧
  applyV2ContractDiffs diffs (d, c) = (Ok tt, (apply_db d diffs, c')).
Proof.
  intros Hc. destruct (apply_loop_run diffs [] [] d c Hc) as (c' & Hc' & Hl). exists c'. split.
  { intros i b Hi. by apply Hc'. }
  unfold applyV2ContractDiffs, bindM, mbind, M_bind. rewrite Hl. simpl. unfold when, apply_db. rewrite <-(foldl_row_elements row_apply diffs d).
  destruct (foldl (row_step row_apply) d diffs) as [cs es]. simpl. unfold wrapM, lift1. simpl.
  destruct (concat (apply_put <$> knowns d diffs)), (concat (apply_del <$> knowns d diffs)); done.
Qed.

Lemma revert_run diffs d c : cached d c → ∃ c', cached (revert_db d diffs) c' ∧
  revertV2ContractDiffs diffs (d, c) = (Ok tt, (revert_db d diffs, c')).
Proof.
  intros Hc. destruct (revert_loop_run diffs [] [] d c Hc) as (c' & Hc' & Hl). exists c'. split.
  { intros i b Hi. by apply Hc'. }
  unfold revertV2ContractDiffs, bindM, mbind, M_bind. rewrite Hl. simpl. unfold when, revert_db. rewrite <-(foldl_row_elements row_revert diffs d).
  destruct (foldl (row_step row_revert) d diffs) as [cs es]. simpl. unfold wrapM, lift1. simpl.
  destruct (concat (revert_put <$> knowns d diffs)), (concat (revert_del <$> knowns d diffs)); done.
Qed.

Lemma ins_values P m : (∀ e, ElementID (P e) = ElementID e) → (∀ i e, m !! i = Some e → ElementID e = i) →
  ins m (P <$> (map_to_list m).*2) = P <$> m.
Proof.
  intros HP Hm. assert (ElementID <$> (P <$> (map_to_list m).*2) = (map_to_list m).*1) as Hids.
  { rewrite <-!list_fmap_compose. apply list_fmap_ext. intros j [i e] Hj. simpl. rewrite HP. apply Hm.
    by apply elem_of_map_to_list, list_elem_of_lookup; exists j. }
  apply map_eq. intros i. rewrite lookup_fmap. destruct (m !! i) as [e|] eqn:Ei; simpl.
  - rewrite <-(Hm _ _ Ei), <-(HP e). apply ins_eq.
    + apply list_elem_of_fmap. exists e. split; [done|]. apply list_elem_of_fmap. exists (i, e). split; [done|]. by apply elem_of_map_to_list.
    + rewrite Hids. apply NoDup_fst_map_to_list.
  - rewrite ins_ne; [done|]. rewrite Hids. intros ([i' e] & -> & Hie)%list_elem_of_fmap.
    apply elem_of_map_to_list in Hie. simpl in Ei. congruence.
Qed.

Lemma proofs_run P d c : (∀ e, ElementID (P e) = ElementID e) → keyed d →
  updateContractElementProofs P (d, c) = (Ok tt, (proofs_db P d, c)).
Proof.
  intros HP Hk. unfold updateContractElementProofs, bindM, mbind, M_bind, wrapM, lift1. simpl. unfold proofs_db. do 3 f_equal.
  by apply ins_values.
Qed.

Lemma ins_keyed es m : (∀ i e, m !! i = Some e → ElementID e = i) → ∀ i e, ins m es !! i = Some e → ElementID e = i.
Proof.
  revert m. induction es as [|x es IH]; intros m Hm; [done|]. apply IH. intros i e.
  destruct (decide (i = ElementID x)) as [->|Hne].
  - rewrite lookup_insert_eq. by intros [= <-].
  - rewrite lookup_insert_ne by done. apply Hm.
Qed.

Lemma dels_keyed ids m : (∀ i e, m !! i = Some e → ElementID e = i) → ∀ i e, dels m ids !! i = Some e → ElementID e = i.
Proof. intros Hm i e. rewrite dels_lookup. case_bool_decide; [done|]. apply Hm. Qed.

Lemma apply_db_keyed d diffs : keyed d → keyed (apply_db d diffs).
Proof. intros Hd i e. apply dels_keyed. intros j x. apply ins_keyed. exact Hd. Qed.

Lemma revert_db_keyed d diffs : keyed d → keyed (revert_db d diffs).
Proof. intros Hd i e. apply ins_keyed. intros j x. apply dels_keyed. exact Hd. Qed.

Lemma update_applied cau d : (∀ e, ElementID (UpdateElementProof cau e) = ElementID e) → keyed d →
  UpdateChainState [] [cau] d = (Ok tt, proofs_db (UpdateElementProof cau) (apply_db d (Diffs cau))).
Proof.
  intros HP Hd. destruct (apply_run (Diffs cau) d ∅) as (c & Hc & Hr); [done|].
  unfold UpdateChainState, bindM, mbind, M_bind, with_locals. simpl. unfold applyChainUpdate, bindM, mbind, M_bind, wrapM.
  rewrite Hr. rewrite proofs_run by (done || by apply apply_db_keyed). done.
Qed.

Lemma update_reverted cru d : (∀ e, ElementID (UpdateElementProof cru e) = ElementID e) → keyed d →
  UpdateChainState [cru] [] d = (Ok tt, proofs_db (UpdateElementProof cru) (revert_db d (Diffs cru))).
Proof.
  intros HP Hd. destruct (revert_run (Diffs cru) d ∅) as (c & Hc & Hr); [done|].
  unfold UpdateChainState, bindM, mbind, M_bind, with_locals. simpl. unfold revertChainUpdate, bindM, mbind, M_bind, wrapM.
  rewrite Hr. rewrite proofs_run by (done || by apply revert_db_keyed). done.
Qed.

(** Each diff puts at most one element, its contract's. *)
Definition puts (f : Diff → list Element) (L : list Diff) : Prop :=
  ∀ x, x ∈ L → f x = [] ∨ ∃ e, f x = [e] ∧ ElementID e = DiffID x.

Lemma ins_puts_ne f L m i : puts f L → i ∉ DiffID <$> L → ins m (concat (f <$> L)) !! i = m !! i.
Proof.
  intros Hf Hi. apply ins_ne. intros (e & -> & He)%list_elem_of_fmap. apply list_elem_of_In, in_concat in He as (l & Hl & Hin).
  apply list_elem_of_In in Hl. apply list_elem_of_In in Hin. apply list_elem_of_fmap in Hl as (x & -> & Hx).
  destruct (Hf x Hx) as [Hn|(e' & Hn & He')]; rewrite Hn in Hin; [by apply elem_of_nil in Hin|].
  apply list_elem_of_singleton in Hin as ->. apply Hi. rewrite He'. apply list_elem_of_fmap. by exists x.
Qed.

Lemma ins_puts_eq f L m x : puts f L → NoDup (DiffID <$> L) → x ∈ L →
  ins m (concat (f <$> L)) !! DiffID x = match f x with e :: _ => Some e | [] => m !! DiffID x end.
Proof.
  revert m. induction L as [|y L IH]; intros m Hf Hnd Hin; [by apply elem_of_nil in Hin|]. csimpl. csimpl in Hnd.
  apply NoDup_cons in Hnd as [Hni Hnd]. unfold ins. rewrite foldl_app. fold (ins m (f y)).
  fold (ins (ins m (f y)) (concat (f <$> L))).
  assert (puts f L) as HfL by (intros z Hz; apply Hf; set_solver).
  apply elem_of_cons in Hin as [->|Hin].
  - rewrite ins_puts_ne by done. destruct (Hf y) as [->|(e & -> & He)]; [set_solver|done|].
    unfold ins. simpl. rewrite <-He. apply lookup_insert_eq.
  - rewrite IH by done. destruct (f x); [|done]. apply ins_ne. intros (e & He1 & He2)%list_elem_of_fmap.
    destruct (Hf y) as [Hn|(e' & Hn & He')]; [set_solver| |]; rewrite Hn in He2; [by apply elem_of_nil in He2|].
    apply list_elem_of_singleton in He2 as ->. apply Hni. rewrite <-He', <-He1. apply list_elem_of_fmap. by exists x.
Qed.

Lemma elem_of_delids (f : Diff → list FileContractID) L i : (∀ x j, j ∈ f x → j = DiffID x) →
  i ∈ concat (f <$> L) ↔ ∃ x, x ∈ L ∧ DiffID x = i ∧ i ∈ f x.
Proof.
  intros Hf. etrans; [apply list_elem_of_In|]. etrans; [apply in_concat|]. split.
  - intros (l & Hl & Hin). apply list_elem_of_In in Hl. apply list_elem_of_In in Hin.
    apply list_elem_of_fmap in Hl as (x & -> & Hx). exists x. split; [done|]. split; [|done]. symmetry. by apply Hf.
  - intros (x & Hx & _ & Hi). exists (f x). split; apply list_elem_of_In; [|done]. apply list_elem_of_fmap. by exists x.
Qed.

Lemma DiffID_inj (L : list Diff) x y : NoDup (DiffID <$> L) → x ∈ L → y ∈ L → DiffID x = DiffID y → x = y.
Proof.
  induction L as [|z L IH]; intros Hnd Hx Hy He; [by apply elem_of_nil in Hx|]. csimpl in Hnd. apply NoDup_cons in Hnd as [Hni Hnd].
  apply elem_of_cons in Hx. apply elem_of_cons in Hy.
  destruct Hx as [->|Hx], Hy as [->|Hy]; [done| | |by apply IH]; exfalso; apply Hni.
  - rewrite He. apply list_elem_of_fmap. by exists y.
  - rewrite <-He. apply list_elem_of_fmap. by exists x.
Qed.

Lemma elem_of_delids_eq (f : Diff → list FileContractID) L x : (∀ x j, j ∈ f x → j = DiffID x) →
  NoDup (DiffID <$> L) → x ∈ L → DiffID x ∈ concat (f <$> L) ↔ DiffID x ∈ f x.
Proof.
  intros Hf Hnd Hx. rewrite elem_of_delids by done. split.
  - intros (y & Hy & Heq & Hin). by assert (y = x) as -> by by apply (DiffID_inj L).
  - intros Hin. by exists x.
Qed.

Lemma apply_del_id x j : j ∈ apply_del x → j = DiffID x.
Proof. unfold apply_del. repeat case_match; intros Hj; try (by apply elem_of_nil in Hj); by apply list_elem_of_singleton in Hj. Qed.

Lemma revert_del_id x j : j ∈ revert_del x → j = DiffID x.
Proof. unfold revert_del. case_match; intros Hj; try (by apply elem_of_nil in Hj); by apply list_elem_of_singleton in Hj. Qed.

(** A block's diffs: one per contract, revisions keep the contract's id. *)
Definition wf_diffs (diffs : list Diff) : Prop :=
  NoDup (DiffID <$> diffs) ∧ ∀ x e, x ∈ diffs → V2RevisionElement x = Some e → ElementID e = DiffID x.

Lemma wf_knowns d diffs : wf_diffs diffs →
  NoDup (DiffID <$> knowns d diffs) ∧ puts apply_put (knowns d diffs) ∧ puts revert_put (knowns d diffs).
Proof.
  intros [Hnd Hrev]. split; [|split].
  - unfold knowns. clear Hrev. induction diffs as [|x diffs IH]; [constructor|]. csimpl in Hnd. apply NoDup_cons in Hnd as [Hni Hnd].
    rewrite filter_cons. case_decide; [|auto]. csimpl. apply NoDup_cons. split; [|auto]. intros (y & Hy & Hin)%list_elem_of_fmap.
    apply Hni. rewrite Hy. apply list_elem_of_fmap. exists y. split; [done|]. by apply list_elem_of_filter in Hin as [_ ?].
  - intros x [_ Hx]%list_elem_of_filter. unfold apply_put. destruct (Created x); [right; by eexists|].
    destruct (Resolution x); [by left|]. right. eexists. split; [done|]. destruct (V2RevisionElement x) as [e|] eqn:Ee; [|done].
    by apply Hrev.
  - intros x _. unfold revert_put. destruct (Created x); [by left|]. right. by eexists.
Qed.

(** The elements after a block, for a contract it touches and for the others. *)
Lemma apply_db_elem d diffs x : wf_diffs diffs → x ∈ knowns d diffs →
  Db.contract_elements (apply_db d diffs) !! DiffID x =
    if Created x then Some (V2FileContractElement x)
    else match Resolution x with Some _ => None | None => Some (default (V2FileContractElement x) (V2RevisionElement x)) end.
Proof.
  intros Hwf Hx. destruct (wf_knowns d diffs Hwf) as (Hnd & Hput & _). unfold apply_db. simpl. rewrite dels_lookup.
  rewrite (bool_decide_ext _ _ (elem_of_delids_eq apply_del _ x apply_del_id Hnd Hx)).
  rewrite ins_puts_eq by done. unfold apply_del, apply_put. destruct (Created x); [|destruct (Resolution x)]; try done.
  by rewrite bool_decide_eq_true_2 by set_solver.
Qed.

Lemma apply_db_elem_ne d diffs i : wf_diffs diffs → i ∉ DiffID <$> knowns d diffs →
  Db.contract_elements (apply_db d diffs) !! i = Db.contract_elements d !! i.
Proof.
  intros Hwf Hi. destruct (wf_knowns d diffs Hwf) as (_ & Hput & _). unfold apply_db. simpl. rewrite dels_lookup.
  rewrite bool_decide_eq_false_2; [by apply ins_puts_ne|]. rewrite elem_of_delids by apply apply_del_id.
  intros (x & Hx & <- & _). apply Hi. apply list_elem_of_fmap. by exists x.
Qed.

Lemma revert_db_elem d diffs x : wf_diffs diffs → x ∈ knowns d diffs →
  Db.contract_elements (revert_db d diffs) !! DiffID x = if Created x then None else Some (V2FileContractElement x).
Proof.
  intros Hwf Hx. destruct (wf_knowns d diffs Hwf) as (Hnd & _ & Hput). unfold revert_db. simpl.
  rewrite ins_puts_eq by done. unfold revert_put. rewrite dels_lookup.
  rewrite (bool_decide_ext _ _ (elem_of_delids_eq revert_del _ x revert_del_id Hnd Hx)). unfold revert_del.
  destruct (Created x); [|done]. by rewrite bool_decide_eq_true_2 by set_solver.
Qed.

Lemma revert_db_elem_ne d diffs i : wf_diffs diffs → i ∉ DiffID <$> knowns d diffs →
  Db.contract_elements (revert_db d diffs) !! i = Db.contract_elements d !! i.
Proof.
  intros Hwf Hi. destruct (wf_knowns d diffs Hwf) as (_ & _ & Hput). unfold revert_db. simpl. rewrite ins_puts_ne by done.
  rewrite dels_lookup, bool_decide_eq_false_2; [done|]. rewrite elem_of_delids by apply revert_del_id.
  intros (x & Hx & <- & _). apply Hi. apply list_elem_of_fmap. by exists x.
Qed.

Lemma row_apply_ext k k' d r : (∀ i, k i = k' i) → row_apply k d r = row_apply k' d r.
Proof.
  intros H. unfold row_apply. destruct (Created d); [done|]. destruct (Resolution d) as [ren|]; [|done].
  by destruct ren; simpl; rewrite ?H.
Qed.

Lemma row_revert_ext k k' d r : (∀ i, k i = k' i) → row_revert k d r = row_revert k' d r.
Proof. unfold row_revert. done. Qed.

Lemma knowns_in d diffs x : x ∈ knowns d diffs ↔ Db.known d (DiffID x) = true ∧ x ∈ diffs.
Proof. unfold knowns. apply (list_elem_of_filter (λ x, Db.known d (DiffID x) = true)). Qed.

Lemma not_in_knowns d diffs i : i ∉ DiffID <$> knowns d diffs → Db.known d i = true → i ∉ DiffID <$> diffs.
Proof.
  intros Hni Hk (x & -> & Hx)%list_elem_of_fmap. apply Hni. apply list_elem_of_fmap. exists x. split; [done|].
  by apply knowns_in.
Qed.

(** *** Reverting undoes applying *)

Section roundtrip.
Context {B : Type} (body : Element → B).

(** A diff fits the elements of the database: a created contract has none, any other has
    the diff's. Nothing is asked of the row: a renewal may have been recorded before its
    block ([AddRenewedContract]), or a contract rejected that is created after all. *)
Definition ready (d : Db.t) (x : Diff) : Prop :=
  is_Some (Db.contracts d !! DiffID x) →
  if Created x then Db.contract_elements d !! DiffID x = None
  else body <$> (Db.contract_elements d !! DiffID x) = Some (body (V2FileContractElement x)).

(** The row is as the chain left it: a created contract was pending, a resolved one was
    active, and a renewal was not recorded before its block. *)
Definition from_chain (x : Diff) (r : Db.row) : Prop :=
  if Created x then Db.row_state r = ContractStatePending
  else match Resolution x with
  | Some renewal => Db.row_state r = ContractStateActive ∧ (renewal = true → Db.row_renewed_to r = None)
  | None => True
  end.

(** The row after a block was applied and reverted. *)
Definition restored_row (x : Diff) (r r' : Db.row) : Prop :=
  if Created x then Db.row_state r' = ContractStatePending ∧ Db.row_renewed_to r' = Db.row_renewed_to r
  else match Resolution x with
  | Some renewal => Db.row_state r' = ContractStateActive ∧ Db.row_renewed_to r' = (if renewal then None else Db.row_renewed_to r)
  | None => r' = r
  end.

Definition keeps_body (P : Element → Element) : Prop := ∀ e, ElementID (P e) = ElementID e ∧ body (P e) = body e.

Lemma row_roundtrip x r k k' : restored_row x r (row_revert k x (row_apply k' x r)).
Proof.
  unfold restored_row, row_revert, row_apply. destruct r as [st to]. simpl. destruct (Created x); simpl; [done|].
  destruct (Resolution x) as [[]|]; done.
Qed.
Lemma restored_same x r r' : from_chain x r → restored_row x r r' → r' = r.
Proof.
  unfold from_chain, restored_row. destruct r as [st to], r' as [st' to']. simpl. destruct (Created x); [by intros -> [-> ->]|].
  destruct (Resolution x) as [[]|]; [|by intros [-> _] [-> ->]|done]. intros [-> Hto] [-> ->]. by rewrite Hto.
Qed.

Lemma contracts_restored d d1 diffs i : NoDup (DiffID <$> diffs) → Db.contracts d1 = Db.contracts (apply_db d diffs) →
  (i ∉ DiffID <$> diffs → Db.contracts (revert_db d1 diffs) !! i = Db.contracts d !! i) ∧
  ∀ x, x ∈ diffs → i = DiffID x → Db.contracts (revert_db d1 diffs) !! i =
    row_revert (Db.known d1) x <$> (row_apply (Db.known d) x <$> Db.contracts d !! i).
Proof.
  intros Hnd Hd1. unfold revert_db. simpl. split.
  - intros Hi. rewrite foldl_row_ne by done. rewrite Hd1. unfold apply_db. simpl. by rewrite foldl_row_ne.
  - intros x Hx ->. rewrite foldl_row_eq by (done || intros; by apply row_revert_ext). rewrite Hd1. unfold apply_db. simpl.
    by rewrite foldl_row_eq by (done || intros; by apply row_apply_ext).
Qed.

Lemma elements_roundtrip d d1 diffs P : wf_diffs diffs → (∀ x, x ∈ diffs → ready d x) → keeps_body P →
  Db.contracts d1 = Db.contracts (apply_db d diffs) →
  Db.contract_elements d1 = P <$> Db.contract_elements (apply_db d diffs) →
  body <$> Db.contract_elements (revert_db d1 diffs) = body <$> Db.contract_elements d.
Proof.
  intros Hwf Hready HP Hc1 He1. apply map_eq. intros i. rewrite !lookup_fmap.
  assert (∀ j, Db.known d1 j = Db.known d j) as Hk.
  { intros j. rewrite <-(apply_db_known d diffs). unfold Db.known. by rewrite Hc1. }
  assert (knowns d1 diffs = knowns d diffs) as Hks by by apply known_ext.
  destruct (decide (i ∈ DiffID <$> knowns d diffs)) as [Hi|Hi].
  - apply list_elem_of_fmap in Hi as (x & -> & Hx). rewrite revert_db_elem by (done || by rewrite Hks).
    apply knowns_in in Hx as [Hkx Hx]. unfold Db.known in Hkx. apply bool_decide_eq_true_1 in Hkx as [r Hr].
    specialize (Hready x Hx (ex_intro _ r Hr)). destruct (Created x); by rewrite Hready.
  - rewrite revert_db_elem_ne by (done || by rewrite Hks). rewrite He1, lookup_fmap, apply_db_elem_ne by done.
    destruct (Db.contract_elements d !! i) as [e|]; [|done]. simpl. f_equal. by apply HP.
Qed.

(** C23. Reverting a block undoes applying it. For a block with one diff per contract whose elements are those of the database, each stored under its contract's id, [UpdateChainState] succeeds both times. Then every contract element is what it was before the block, apart from its proof, which follows the chain; the contracts that the block does not touch keep their rows; a created contract is pending; a resolved one is active, and when it was renewed its link to the renewal is cleared, also when that link had been recorded before the block; nothing else changes in a row. So all rows are what they were if the created contracts were pending, the resolved ones active, and no renewal had been recorded early. *)
Theorem chain_revert_apply (cau cru : BlockUpdate) (d : Db.t) :
  keyed d → Diffs cru = Diffs cau → wf_diffs (Diffs cau) → (∀ x, x ∈ Diffs cau → ready d x) →
  keeps_body (UpdateElementProof cau) → keeps_body (UpdateElementProof cru) →
  ∃ d1 d2, UpdateChainState [] [cau] d = (Ok tt, d1) ∧ UpdateChainState [cru] [] d1 = (Ok tt, d2) ∧
    body <$> Db.contract_elements d2 = body <$> Db.contract_elements d ∧
    (∀ i, Db.contracts d !! i = None ∨ i ∉ DiffID <$> Diffs cau → Db.contracts d2 !! i = Db.contracts d !! i) ∧
    (∀ x r, x ∈ Diffs cau → Db.contracts d !! DiffID x = Some r → ∃ r', Db.contracts d2 !! DiffID x = Some r' ∧ restored_row x r r') ∧
    ((∀ x r, x ∈ Diffs cau → Db.contracts d !! DiffID x = Some r → from_chain x r) → Db.contracts d2 = Db.contracts d).
Proof.
  intros Hkey Hdiffs Hwf Hready HP HQ. set (d1 := proofs_db (UpdateElementProof cau) (apply_db d (Diffs cau))).
  assert (keyed d1) as Hkey1.
  { intros i e. unfold d1, proofs_db. cbn [Db.contract_elements]. rewrite lookup_fmap. intros (e' & He' & ->)%fmap_Some. rewrite (proj1 (HP e')). by apply (apply_db_keyed d (Diffs cau) Hkey i e'). }
  exists d1, (proofs_db (UpdateElementProof cru) (revert_db d1 (Diffs cru))). split; [apply update_applied; [apply HP|done]|].
  split; [apply update_reverted; [apply HQ|done]|]. rewrite Hdiffs. split.
  { unfold proofs_db at 1. cbn [Db.contract_elements]. rewrite <-map_fmap_compose, <-(elements_roundtrip d d1 (Diffs cau) (UpdateElementProof cau)) by done.
    apply map_fmap_ext. intros i e _. apply HQ. }
  cbn [proofs_db Db.contracts].
  assert (∀ i, Db.contracts d !! i = None ∨ i ∉ DiffID <$> Diffs cau → Db.contracts (revert_db d1 (Diffs cau)) !! i = Db.contracts d !! i) as Hsame.
  { intros i Hi. destruct (contracts_restored d d1 (Diffs cau) i (proj1 Hwf) eq_refl) as [Hne He]. destruct (decide (i ∈ DiffID <$> Diffs cau)) as [Hin|]; [|by apply Hne].
    destruct Hi as [Hi|]; [|done]. apply list_elem_of_fmap in Hin as (x & Hx & Hin). by rewrite (He x Hin Hx), Hi. }
  assert (∀ x r, x ∈ Diffs cau → Db.contracts d !! DiffID x = Some r → ∃ r', Db.contracts (revert_db d1 (Diffs cau)) !! DiffID x = Some r' ∧ restored_row x r r') as Hrow.
  { intros x r Hx Hr. eexists. rewrite (proj2 (contracts_restored d d1 (Diffs cau) _ (proj1 Hwf) eq_refl) x Hx eq_refl), Hr. split; [done|]. apply row_roundtrip. }
  split; [exact Hsame|]. split; [exact Hrow|]. intros Hch. apply map_eq. intros i.
  destruct (Db.contracts d !! i) as [r|] eqn:Hr; [|rewrite Hsame; by auto].
  destruct (decide (i ∈ DiffID <$> Diffs cau)) as [(x & -> & Hx)%list_elem_of_fmap|]; [|rewrite Hsame; by auto].
  destruct (Hrow x r Hx Hr) as (r' & -> & Hres). f_equal. apply (restored_same x); [by apply Hch|done].
Qed.

End roundtrip.

(** What applying a block does. Contracts the database does not know, and
    contracts the block does not touch, keep their row and their element but for
    its proof. A created contract becomes active and its element is stored; a
    resolved one becomes resolved, loses its element, and is linked to its
    renewal when the resolution is a renewal and the renewed contract is known;
    a revised one keeps its row and has the revision's element. *)
Theorem chain_apply_spec (cau : BlockUpdate) (d : Db.t) :
  keyed d → wf_diffs (Diffs cau) → (∀ e, ElementID (UpdateElementProof cau e) = ElementID e) →
  ∃ d', UpdateChainState [] [cau] d = (Ok tt, d') ∧
  (∀ i, Db.contracts d !! i = None → Db.contracts d' !! i = None) ∧
  (∀ i, Db.contracts d !! i = None ∨ i ∉ DiffID <$> Diffs cau →
    Db.contracts d' !! i = Db.contracts d !! i ∧
    Db.contract_elements d' !! i = UpdateElementProof cau <$> Db.contract_elements d !! i) ∧
  ∀ x r, x ∈ Diffs cau → Db.contracts d !! DiffID x = Some r →
    ∃ r', Db.contracts d' !! DiffID x = Some r' ∧
    (if Created x then
       Db.row_state r' = ContractStateActive ∧ Db.row_renewed_to r' = Db.row_renewed_to r ∧
       Db.contract_elements d' !! DiffID x = Some (UpdateElementProof cau (V2FileContractElement x))
     else match Resolution x with
     | Some renewal =>
         Db.row_state r' = ContractStateResolved ∧ Db.contract_elements d' !! DiffID x = None ∧
         Db.row_renewed_to r' =
           (if renewal && Db.known d (V2RenewalID (DiffID x)) then Some (V2RenewalID (DiffID x)) else Db.row_renewed_to r)
     | None =>
         r' = r ∧ Db.contract_elements d' !! DiffID x =
           Some (UpdateElementProof cau (default (V2FileContractElement x) (V2RevisionElement x)))
     end).
Proof.
  intros Hkey Hwf HP. pose proof Hwf as [Hnd _].
  exists (proofs_db (UpdateElementProof cau) (apply_db d (Diffs cau))). split; [by apply update_applied|].
  unfold proofs_db. cbn [Db.contracts Db.contract_elements].
  assert (∀ i, i ∉ DiffID <$> knowns d (Diffs cau) →
    (UpdateElementProof cau <$> Db.contract_elements (apply_db d (Diffs cau))) !! i = UpdateElementProof cau <$> Db.contract_elements d !! i) as Hne.
  { intros i Hi. by rewrite lookup_fmap, apply_db_elem_ne. }
  assert (∀ i, Db.contracts d !! i = None → i ∉ DiffID <$> knowns d (Diffs cau)) as Hunk.
  { intros i Hi (x & -> & [Hk _]%knowns_in)%list_elem_of_fmap. unfold Db.known in Hk. rewrite Hi in Hk. by apply bool_decide_eq_true_1, is_Some_None in Hk. }
  assert (∀ i, Db.contracts d !! i = None → Db.contracts (apply_db d (Diffs cau)) !! i = None) as Hnone.
  { intros i Hi. pose proof (apply_db_known d (Diffs cau) i) as Hk. unfold Db.known in Hk. rewrite Hi in Hk.
    apply eq_None_not_Some. intros Hs. by rewrite (bool_decide_eq_true_2 _ Hs) in Hk. }
  split; [exact Hnone|]. split.
  - intros i [Hi|Hi]; (split; [|apply Hne]).
    + by rewrite Hi, Hnone.
    + by apply Hunk.
    + by apply foldl_row_ne.
    + intros (x & -> & [_ Hx]%knowns_in)%list_elem_of_fmap. apply Hi. apply list_elem_of_fmap. by exists x.
  - intros x r Hx Hr. eexists. split.
    { unfold apply_db. cbn [Db.contracts]. rewrite foldl_row_eq by (done || intros; by apply row_apply_ext). by rewrite Hr. }
    rewrite lookup_fmap, apply_db_elem by (done || (apply knowns_in; split; [by apply bool_decide_eq_true_2; rewrite Hr|done])).
    unfold row_apply. destruct (Created x); [done|]. by destruct (Resolution x).
Qed.

End effects.

Module ChainWitness.
#[local] Existing Instance Db.tx.
(** An element: its contract, its content and its proof. *)
#[local] Instance elements : ElementOps :=
  {| Element := FileContractID * Z * Z; ElementID := λ e, e.1.1; V2RenewalID := λ i, (i + 100)%N |}.
Definition el (i : FileContractID) (v p : Z) : Element := (i, v, p).
Definition content (e : Element) : FileContractID * Z := e.1.
Definition prove (p : Z) (e : Element) : Element := (e.1, p).

(** Contract 1 is created, 2 renewed to 102, 3 revised; 4 is not ours. *)
Definition diffs : list Diff := [
  mkDiff (el 1 10 0) true None None;
  mkDiff (el 2 20 0) false (Some true) None;
  mkDiff (el 3 30 0) false None (Some (el 3 31 0));
  mkDiff (el 4 40 0) true None None].
Definition applied : BlockUpdate := mkUpdate diffs (prove 1).
Definition reverted : BlockUpdate := mkUpdate diffs (prove 2).
Definition db : Db.t := Db.mk
  (list_to_map [(1%N, Db.mkRow ContractStatePending None); (2%N, Db.mkRow ContractStateActive None);
                (3%N, Db.mkRow ContractStateActive None); (102%N, Db.mkRow ContractStatePending None)])
  (list_to_map [(2%N, (el 2 20 5)); (3%N, (el 3 30 5))]).

Lemma db_keyed : keyed db.
Proof.
  intros i e. unfold db. cbn [Db.contract_elements]. intros H%elem_of_list_to_map_2.
  repeat (apply elem_of_cons in H as [H|H]; [by inversion H|]). by apply elem_of_nil in H.
Defined.

Lemma diffs_wf : wf_diffs diffs.
Proof.
  split; [by apply (bool_decide_unpack _); vm_compute|]. intros x e Hx.
  repeat (apply elem_of_cons in Hx as [->|Hx]; [by intros [=<-] || done|]). by apply elem_of_nil in Hx.
Defined.

Lemma diffs_ready x : x ∈ diffs → ready content db x.
Proof.
  intros Hx Hs. repeat (apply elem_of_cons in Hx as [->|Hx]; [first [vm_compute; reflexivity|vm_compute in Hs; by destruct Hs]|]). by apply elem_of_nil in Hx.
Defined.

(** The renewal of contract 2 was recorded before its block: the link is lost when the
    block is reverted. *)
Definition recorded : Db.t := Db.mk (<[(2%N : FileContractID) := Db.mkRow ContractStateActive (Some 102%N)]> (Db.contracts db)) (Db.contract_elements db).
Lemma recorded_ready x : x ∈ diffs → ready content recorded x.
Proof.
  intros Hx Hs. repeat (apply elem_of_cons in Hx as [->|Hx]; [first [vm_compute; reflexivity|vm_compute in Hs; by destruct Hs]|]). by apply elem_of_nil in Hx.
Defined.
Lemma renewal_link_lost : Db.contracts (UpdateChainState [reverted] [] (UpdateChainState [] [applied] recorded).2).2 !! (2%N : FileContractID) =
  Some (Db.mkRow ContractStateActive None).
Proof. vm_compute. done. Qed.

Lemma chain_revert_apply_witness :
  (∃ d1 d2, UpdateChainState [] [applied] db = (Ok tt, d1) ∧ UpdateChainState [reverted] [] d1 = (Ok tt, d2) ∧
    Db.contracts d2 = Db.contracts db ∧ content <$> Db.contract_elements d2 = content <$> Db.contract_elements db) ∧
  ∃ d1 d2, UpdateChainState [] [applied] recorded = (Ok tt, d1) ∧ UpdateChainState [reverted] [] d1 = (Ok tt, d2) ∧
    Db.contracts d2 !! (2%N : FileContractID) = Some (Db.mkRow ContractStateActive None) ∧
    content <$> Db.contract_elements d2 = content <$> Db.contract_elements recorded.
Proof.
  split.
  - destruct (chain_revert_apply content applied reverted db db_keyed eq_refl diffs_wf diffs_ready) as (d1 & d2 & H1 & H2 & He & _ & _ & Hc); [by intros [[??]?]..|].
    exists d1, d2. split; [exact H1|]. split; [exact H2|]. split; [|exact He]. apply Hc. intros x r Hx.
    repeat (apply elem_of_cons in Hx as [->|Hx]; [vm_compute; intros [=<-] || intros [=]; done|]). by apply elem_of_nil in Hx.
  - destruct (chain_revert_apply content applied reverted recorded db_keyed eq_refl diffs_wf recorded_ready) as (d1 & d2 & H1 & H2 & He & _ & Hr & _); [by intros [[??]?]..|].
    exists d1, d2. split; [exact H1|]. split; [exact H2|]. split; [|exact He].
    destruct (Hr (mkDiff (el 2 20 0) false (Some true) None) (Db.mkRow ContractStateActive (Some 102%N))) as ([st to] & E' & Hs & Ht); [set_solver|done|].
    cbn in Hs, Ht. subst st to. exact E'.
Defined.

Lemma chain_apply_spec_witness : ∃ d', UpdateChainState [] [applied] db = (Ok tt, d') ∧
  Db.contracts d' !! (1%N : FileContractID) = Some (Db.mkRow ContractStateActive None) ∧
  Db.contracts d' !! (2%N : FileContractID) = Some (Db.mkRow ContractStateResolved (Some 102%N)) ∧
  Db.contract_elements d' !! (3%N : FileContractID) = Some (el 3 31 1).
Proof.
  destruct (chain_apply_spec applied db db_keyed diffs_wf) as (d' & Hd & _ & _ & Hx); [by intros [[??]?]|].
  exists d'. split; [exact Hd|].
  destruct (Hx (mkDiff (el 1 10 0) true None None) (Db.mkRow ContractStatePending None)) as (r1 & H1 & Hs1 & Ht1 & _); [set_solver|done|].
  destruct (Hx (mkDiff (el 2 20 0) false (Some true) None) (Db.mkRow ContractStateActive None)) as (r2 & H2 & Hs2 & _ & Ht2); [set_solver|done|].
  destruct (Hx (mkDiff (el 3 30 0) false None (Some (el 3 31 0))) (Db.mkRow ContractStateActive None)) as (r3 & _ & _ & H3); [set_solver|done|].
  destruct r1, r2. simpl in *. subst. done.
Defined.
End ChainWitness.
