(* ===== verification/Alerts.v ===== *)
(** * Alerts (src/alerts/alerts.go)

    The in-memory alert manager: alerts by id, listed with the most recent
    first. Every operation is one critical section of [Manager.mu]. *)

From S2P Require Import Prelude.
From stdpp Require Import sorting fin_maps.

(** ** Severities *)

(** [Severity] is a [uint8]. *)
Abbreviation Severity := Z (only parsing).
Definition SeverityInfo : Severity := 1%Z.
Definition SeverityWarning : Severity := 2%Z.
Definition SeverityError : Severity := 3%Z.
Definition SeverityCritical : Severity := 4%Z.

Definition Severity_String (s : Severity) : result string :=
  if (s =? SeverityInfo)%Z then Ok "info"%string
  else if (s =? SeverityWarning)%Z then Ok "warning"%string
  else if (s =? SeverityError)%Z then Ok "error"%string
  else if (s =? SeverityCritical)%Z then Ok "critical"%string
  else Panic.

Definition Severity_UnmarshalText (b : string) : result Severity :=
  if String.eqb b "info" then Ok SeverityInfo
  else if String.eqb b "warning" then Ok SeverityWarning
  else if String.eqb b "error" then Ok SeverityError
  else if String.eqb b "critical" then Ok SeverityCritical
  else Err (EMsg ("unrecognized severity " +:+ b)).

(** The quote character, what [%q] prints for a text that needs no escapes, and
    [strings.Trim] of quotes. *)
Definition dquote : Ascii.ascii := Ascii.ascii_of_nat 34.
Definition quoted (s : string) : string := String dquote (s +:+ String dquote "").
Fixpoint trim_left (s : string) : string :=
  match s with String c s' => if Ascii.eqb c dquote then trim_left s' else s | EmptyString => s end.
Definition trim_quotes (s : string) : string :=
  String.rev (trim_left (String.rev (trim_left s))).

Definition Severity_MarshalJSON (s : Severity) : result string := str ← Severity_String s; mret (quoted str).
Definition Severity_UnmarshalJSON (b : string) : result Severity :=
  let status := trim_quotes b in
  if String.eqb status "info" then Ok SeverityInfo
  else if String.eqb status "warning" then Ok SeverityWarning
  else if String.eqb status "error" then Ok SeverityError
  else if String.eqb status "critical" then Ok SeverityCritical
  else Err (EMsg ("unrecognized severity: " +:+ status)).

(** ** The manager *)

Section alerts.
(** The values of [Data map[string]any] are opaque. *)
Context {Data : Type}.

Record Alert := mkAlert {
  ID : Hash256;
  AlertSeverity : Severity;
  Message : string;
  AlertData : Data;
  Timestamp : Z }.

(** [Manager.alerts] *)
Abbreviation Manager := (gmap Hash256 Alert) (only parsing).
Definition NewManager : Manager := ∅.

Record alertQueryOpts := mkAlertOpts { OptSeverity : option Severity }.
Definition WithSeverity (severity : Severity) : alertQueryOpts → alertQueryOpts :=
  λ _, mkAlertOpts (Some severity).

Definition validateOffsetLimit (offset limit : Z) : option error :=
  if (offset <? 0)%Z then Some (EMsg "offset can not be negative")
  else if (limit <? 0)%Z then Some (EMsg "limit can not be negative")
  else None.

(** [range m.alerts] visits the map in any order and [sort.Slice] leaves equal
    timestamps in any order: [order] is what the two together produce from the
    filtered alerts. *)
Variable order : list Alert → list Alert.

Definition selects (options : alertQueryOpts) (a : Alert) : bool :=
  match OptSeverity options with Some s => (AlertSeverity a =? s)%Z | None => true end.

Definition Alerts (m : Manager) (offset limit : Z) (opts : list (alertQueryOpts → alertQueryOpts)) : result (list Alert) :=
  match validateOffsetLimit offset limit with
  | Some e => Err e
  | None =>
      let options := foldl (λ o f, f o) (mkAlertOpts None) opts in
      let filtered := order (filter (λ a, selects options a = true) (map_to_list m).*2) in
      if (offset >=? Z.of_nat (length filtered))%Z then Ok []
      else
        let filtered := drop (Z.to_nat offset) filtered in
        if (limit >? 0)%Z && (limit <? Z.of_nat (length filtered))%Z
        then Ok (take (Z.to_nat limit) filtered) else Ok filtered
  end.

Definition ErrNotFound : string := "alert not found".

Definition GetAlert (m : Manager) (id : Hash256) : result Alert :=
  match m !! id with Some a => Ok a | None => Err (ESentinel ErrNotFound) end.

Definition DismissAlerts (ids : list Hash256) (m : Manager) : Manager :=
  foldl (λ m id, delete id m) m ids.

Definition RegisterAlert (alert : Alert) (m : Manager) : result unit * Manager :=
  if (ID alert =? 0)%N then (Err (EMsg "cannot register alert with zero id"), m)
  else if time_IsZero (Timestamp alert) then (Err (EMsg "cannot register alert with zero timestamp"), m)
  else if (AlertSeverity alert =? 0)%Z then (Err (EMsg "cannot register alert without severity"), m)
  else (Ok tt, <[ID alert := alert]> m).

(** ** Paging *)

Definition newest_first : relation Alert := λ a b, (Timestamp b ≤ Timestamp a)%Z.

(** What [order] may do: any permutation that is sorted. *)
Definition sorts : Prop := ∀ l, order l ≡ₚ l ∧ Sorted newest_first (order l).

(** The [n]-th page of [size] alerts. *)
Definition page (l : list Alert) (offset limit : Z) : list Alert :=
  let l := drop (Z.to_nat offset) l in if (limit =? 0)%Z then l else take (Z.to_nat limit) l.

Lemma Alerts_page m offset limit opts :
  (0 ≤ offset)%Z → (0 ≤ limit)%Z →
  Alerts m offset limit opts =
    Ok (page (order (filter (λ a, selects (foldl (λ o f, f o) (mkAlertOpts None) opts) a = true) (map_to_list m).*2)) offset limit).
Proof.
  intros Ho Hl. unfold Alerts, validateOffsetLimit, page.
  destruct (Z.ltb_spec offset 0); [lia|]. destruct (Z.ltb_spec limit 0); [lia|].
  set (l := order _). destruct (Z.geb_spec offset (Z.of_nat (length l))) as [Hge|Hlt].
  - rewrite drop_ge by lia. by destruct (limit =? 0)%Z; rewrite ?take_nil.
  - destruct (Z.eqb_spec limit 0) as [->|Hne]; [done|]. destruct (Z.gtb_spec limit 0); [|lia]. simpl.
    destruct (Z.ltb_spec limit (Z.of_nat (length (drop (Z.to_nat offset) l)))); [done|].
    rewrite take_ge; [done|lia].
Qed.
End alerts.

(** ** Properties *)

(** Listing alerts is a faithful view of what was registered and not
    dismissed: with no limit and no options the list is a permutation of the
    registered alerts, sorted with the most recent first; an alert registered
    last under its id is the one [Alert] returns, a dismissed one is not found,
    and pages of any size cut consecutive pieces from the sorted list. *)
Theorem alerts_spec {Data} (order : list (Alert (Data:=Data)) → list Alert) (m : gmap Hash256 (Alert (Data:=Data))) (a : Alert) (ids : list Hash256) :
  sorts order →
  (∃ l, Alerts order m 0 0 [] = Ok l ∧ l ≡ₚ (map_to_list m).*2 ∧ Sorted newest_first l ∧
     ∀ offset limit, (0 ≤ offset)%Z → (0 < limit)%Z →
       Alerts order m offset limit [] = Ok (take (Z.to_nat limit) (drop (Z.to_nat offset) l))) ∧
  (∀ m', RegisterAlert a m = (Ok tt, m') →
     GetAlert m' (ID a) = Ok a ∧ ∀ j, j ≠ ID a → GetAlert m' j = GetAlert m j) ∧
  (∀ i, GetAlert (DismissAlerts ids m) i = if bool_decide (i ∈ ids) then Err (ESentinel ErrNotFound) else GetAlert m i).
Proof.
  intros Hs. split_and!.
  - assert (filter (λ a, selects (mkAlertOpts None) a = true) (map_to_list m).*2 = (map_to_list m).*2) as Hf.
    by by apply filter_all.
    eexists. rewrite Alerts_page by done. simpl. rewrite Hf. split; [done|]. split_and!; [apply Hs..|].
    intros offset limit Ho Hl. rewrite Alerts_page by lia. simpl. rewrite Hf. unfold page.
    destruct (Z.eqb_spec limit 0); [lia|]. by rewrite drop_0.
  - unfold RegisterAlert, GetAlert. intros m' H. repeat case_match; simplify_eq/=;
      rewrite ?lookup_insert_eq in *; simplify_eq; (split; [done|]); intros j Hj; by rewrite lookup_insert_ne.
  - unfold GetAlert, DismissAlerts. intros i. revert m. induction ids as [|x ids IH]; intros m; simpl; [done|].
    rewrite IH. destruct (decide (i = x)) as [->|Hne].
    + rewrite lookup_delete_eq. rewrite (bool_decide_eq_true_2 (x ∈ x :: ids)) by by left. by destruct (bool_decide _).
    + rewrite lookup_delete_ne by done. erewrite (bool_decide_ext (i ∈ x :: ids)); [done|]. set_solver.
Qed.

(** A severity's JSON form round-trips for the four severities, and printing
    any other severity panics. *)
Theorem severity_roundtrip (s : Severity) :
  (1 ≤ s ≤ 4 → ∃ b, Severity_MarshalJSON s = Ok b ∧ Severity_UnmarshalJSON b = Ok s)%Z ∧
  (¬ (1 ≤ s ≤ 4) → Severity_MarshalJSON s = Panic)%Z.
Proof.
  split.
  - intros H. assert (s = 1 ∨ s = 2 ∨ s = 3 ∨ s = 4)%Z as [->|[->|[->| ->]]] by lia; eexists; by split.
  - intros H. unfold Severity_MarshalJSON, Severity_String, SeverityInfo, SeverityWarning, SeverityError, SeverityCritical.
    repeat (case_match; [lia|]). done.
Qed.

Module AlertsWitness.

#[local] Instance newest_first_dec : RelDecision (newest_first (Data:=unit)).
Proof. intros a b. unfold newest_first. apply _. Defined.
#[local] Instance newest_first_total : Total (newest_first (Data:=unit)).
Proof. intros a b. unfold newest_first. lia. Qed.

Definition alert (i : N) (t : Z) : Alert := mkAlert (Data:=unit) i SeverityWarning "Host(s) are stuck" tt t.
Definition m0 : gmap N (Alert (Data:=unit)) := {[ 1%N := alert 1 10; 2%N := alert 2 30; 3%N := alert 3 20 ]}.
Definition sort (l : list (Alert (Data:=unit))) : list Alert := merge_sort newest_first l.

Lemma sort_sorts : sorts sort.
Proof. intros l. split; [apply merge_sort_Permutation|apply Sorted_merge_sort, _]. Qed.

Example alerts_spec_witness :
  (∃ l, Alerts sort m0 0 0 [] = Ok l ∧ l ≡ₚ (map_to_list m0).*2 ∧ Sorted newest_first l ∧
     ∀ offset limit, (0 ≤ offset)%Z → (0 < limit)%Z →
       Alerts sort m0 offset limit [] = Ok (take (Z.to_nat limit) (drop (Z.to_nat offset) l))) ∧
  (∀ m', RegisterAlert (alert 4 40) m0 = (Ok tt, m') →
     GetAlert m' 4%N = Ok (alert 4 40) ∧ ∀ j, j ≠ 4%N → GetAlert m' j = GetAlert m0 j) ∧
  (∀ i, GetAlert (DismissAlerts [2%N] m0) i =
     if bool_decide (i ∈ [2%N]) then Err (ESentinel ErrNotFound) else GetAlert m0 i).
Proof. exact (alerts_spec sort m0 (alert 4 40) [2%N] sort_sorts). Defined.

Example alerts_page : Alerts sort m0 1 1 [] = Ok [alert 3 20].
Proof. vm_compute. reflexivity. Qed.

End AlertsWitness.
