(* ===== verification/Hosts.v ===== *)
(** * Hosts (src/hosts/host.go, distance.go, src/geoip/geoip.go)

    The host record, its usability checks, and the set of hosts spaced apart by
    a minimum distance that contract formation, slab pinning and migrations pick
    hosts with. *)

From S2P Require Import Prelude Float External.

(** ** Usability *)

Module Usability.

Record Usability := mk {
  Uptime : bool; MaxContractDuration : bool; MaxCollateral : bool; ProtocolVersion : bool;
  PriceValidity : bool; AcceptingContracts : bool;
  QUIC : bool; Siamux : bool;
  ContractPrice : bool; Collateral : bool; StoragePrice : bool; IngressPrice : bool;
  EgressPrice : bool; FreeSectorPrice : bool }.

#[export] Instance eq_dec : EqDecision Usability.
Proof. solve_decision. Defined.

(** [Usability{}] *)
Definition zero : Usability :=
  mk false false false false false false false false false false false false false false.

Definition GoodUsability : Usability :=
  mk true true true true true true true true true true true true true true.

Definition Usable (u : Usability) : bool := bool_decide (u = GoodUsability).

(** [if !ok { reasons = append(reasons, name) }] *)
Definition check (ok : bool) (name : string) (reasons : list string) : list string :=
  if negb ok then reasons ++ [name] else reasons.

Definition FailedChecks (u : Usability) : list string :=
  let reasons := [] in
  let reasons := check (Uptime u) "Uptime" reasons in
  let reasons := check (MaxContractDuration u) "MaxContractDuration" reasons in
  let reasons := check (MaxCollateral u) "MaxCollateral" reasons in
  let reasons := check (ProtocolVersion u) "ProtocolVersion" reasons in
  let reasons := check (PriceValidity u) "PriceValidity" reasons in
  let reasons := check (AcceptingContracts u) "AcceptingContracts" reasons in
  let reasons := check (QUIC u) "QUIC" reasons in
  let reasons := check (Siamux u) "Siamux" reasons in
  let reasons := check (ContractPrice u) "ContractPrice" reasons in
  let reasons := check (Collateral u) "Collateral" reasons in
  let reasons := check (StoragePrice u) "StoragePrice" reasons in
  let reasons := check (IngressPrice u) "IngressPrice" reasons in
  let reasons := check (EgressPrice u) "EgressPrice" reasons in
  let reasons := check (FreeSectorPrice u) "FreeSectorPrice" reasons in
  reasons.

(** The checks in order, as a reference. *)
Definition checks (u : Usability) : list (string * bool) :=
  [("Uptime", Uptime u); ("MaxContractDuration", MaxContractDuration u);
   ("MaxCollateral", MaxCollateral u); ("ProtocolVersion", ProtocolVersion u);
   ("PriceValidity", PriceValidity u); ("AcceptingContracts", AcceptingContracts u);
   ("QUIC", QUIC u); ("Siamux", Siamux u); ("ContractPrice", ContractPrice u);
   ("Collateral", Collateral u); ("StoragePrice", StoragePrice u);
   ("IngressPrice", IngressPrice u); ("EgressPrice", EgressPrice u);
   ("FreeSectorPrice", FreeSectorPrice u)]%string.

Lemma check_fold l reasons :
  foldl (λ r c, check c.2 c.1 r) reasons l = reasons ++ (filter (λ c, c.2 = false) l).*1.
Proof.
  revert reasons. induction l as [|[n b] l IH]; intros reasons; [by rewrite app_nil_r|].
  simpl. rewrite IH, filter_cons. destruct b; cbn [check negb snd fst].
  - by rewrite decide_False.
  - rewrite decide_True by done. unfold check. simpl. by rewrite <-app_assoc.
Qed.

Lemma FailedChecks_checks u :
  FailedChecks u = (filter (λ c, c.2 = false) (checks u)).*1.
Proof. exact (check_fold (checks u) []). Qed.

Lemma elem_of_FailedChecks u n : n ∈ FailedChecks u ↔ (n, false) ∈ checks u.
Proof.
  rewrite FailedChecks_checks, list_elem_of_fmap. split.
  - intros ([n' b] & -> & [Hb Hin]%list_elem_of_filter). simpl in *. by subst b.
  - intros H. exists (n, false). by rewrite list_elem_of_filter.
Qed.

Lemma Usable_nil u : Usable u = true ↔ FailedChecks u = [].
Proof.
  unfold Usable. rewrite bool_decide_eq_true. split; [by intros ->|]. intros H.
  assert (∀ n b, (n, b) ∈ checks u → b = true) as Hall.
  { intros n [] Hc; [done|]. exfalso. apply elem_of_FailedChecks in Hc. rewrite H in Hc. by apply elem_of_nil in Hc. }
  clear H. destruct u. unfold GoodUsability, checks in *. simpl in Hall.
  f_equal; eapply Hall; repeat (apply list_elem_of_here || apply list_elem_of_further).
Qed.

Lemma FailedChecks_zero (u : Usability) n : n ∈ FailedChecks u → n ∈ FailedChecks zero.
Proof.
  rewrite !elem_of_FailedChecks. intros H.
  assert (n ∈ (checks u).*1) as Hn by (apply list_elem_of_fmap; by exists (n, false)).
  change (checks u).*1 with (checks zero).*1 in Hn.
  apply list_elem_of_fmap in Hn as ([n' b] & -> & Hn). replace false with b; [done|].
  assert (∀ x : string * bool, x ∈ checks zero → x.2 = false) as Hz by
    (apply list.Forall_forall; repeat constructor).
  apply (Hz _ Hn).
Qed.

End Usability.

(** ** Locations *)

Record Location := mkLocation { CountryCode : string; Latitude : float64; Longitude : float64 }.

(** [Location{}] *)
Definition no_location : Location := mkLocation "" (of_int 0) (of_int 0).

(** The transcendental functions of package math, whose last bits the
    documentation leaves open: odd sine, as IEEE 754 recommends. *)
Class MathOps := { Sin : float64 → float64; Cos : float64 → float64; Atan2 : float64 → float64 → float64 }.
Class MathLaws (MO : MathOps) : Prop := { Sin_odd : ∀ x, Sin (SFopp x) = SFopp (Sin x) }.

Section distance.
Context {MO : MathOps}.

(** 6371.0088 *)
Definition radiusKm : float64 := of_decimal 63710088 4.

Definition HaversineDistanceKm (l other : Location) : float64 :=
  let φ1 := fdiv (fmul (Latitude l) Pi) (of_int 180) in
  let φ2 := fdiv (fmul (Latitude other) Pi) (of_int 180) in
  let dφ := fdiv (fmul (fsub (Latitude other) (Latitude l)) Pi) (of_int 180) in
  let dλ := fdiv (fmul (fsub (Longitude other) (Longitude l)) Pi) (of_int 180) in
  let sinDφ := Sin (fdiv dφ (of_int 2)) in
  let sinDλ := Sin (fdiv dλ (of_int 2)) in
  let a := fadd (fmul sinDφ sinDφ) (fmul (fmul (fmul (Cos φ1) (Cos φ2)) sinDλ) sinDλ) in
  let c := fmul (of_int 2) (Atan2 (fsqrt a) (fsqrt (fsub (of_int 1) a))) in
  fmul radiusKm c.

Lemma same_abs_Sin {ML : MathLaws MO} x y : same_abs x y → same_abs (Sin x) (Sin y).
Proof. intros [->| ->]; [by left|]. right. apply Sin_odd. Qed.

#[global] Arguments HaversineDistanceKm : simpl never.

(** [(k * s) * s] forgets the sign of [s]. *)
Lemma same_abs_twice k s s' : same_abs s s' → fmul (fmul k s) s = fmul (fmul k s') s'.
Proof.
  intros [->| ->]; [done|].
  by rewrite (fmul_comm k), fmul_opp, fmul_opp, fmul_comm, fmul_opp, SFopp_involutive, fmul_comm, (fmul_comm s').
Qed.

Lemma Haversine_sym {ML : MathLaws MO} l m : HaversineDistanceKm l m = HaversineDistanceKm m l.
Proof.
  unfold HaversineDistanceKm.
  assert (∀ x y, same_abs (Sin (fdiv (fdiv (fmul (fsub x y) Pi) (of_int 180)) (of_int 2)))
                          (Sin (fdiv (fdiv (fmul (fsub y x) Pi) (of_int 180)) (of_int 2)))) as Hsin.
  { intros x y. by apply same_abs_Sin, same_abs_div, same_abs_div, same_abs_mul, fsub_swap. }
  rewrite (same_abs_square _ _ (Hsin (Latitude m) (Latitude l))).
  rewrite (same_abs_twice _ _ _ (Hsin (Longitude m) (Longitude l))).
  by rewrite (fmul_comm (Cos (fdiv (fmul (Latitude l) Pi) (of_int 180)))).
Qed.

End distance.

(** ** Hosts *)

(** [chain.Protocol] and [chain.NetAddress] of coreutils. *)
Abbreviation Protocol := string (only parsing).
Record NetAddress := mkNetAddress { NA_Protocol : Protocol; NA_Address : string }.

#[export] Instance NetAddress_eq_dec : EqDecision NetAddress.
Proof. solve_decision. Defined.

Module Host.
Record Host {C : CurrencyOps} {R : RhpOps} := mk {
  PublicKey : N;
  LastAnnouncement : Z;
  LastFailedScan : Z;
  LastSuccessfulScan : Z;
  NextScan : Z;
  ConsecutiveFailedScans : Z;
  RecentUptime : float64;
  Addresses : list NetAddress;
  CountryCode : string;
  Latitude : float64;
  Longitude : float64;
  Settings : HostSettings;
  Usability : Usability.Usability;
  Blocked : bool;
  BlockedReasons : list string;
  LostSectors : Z;
  UnpinnedSectors : Z;
  AccountFunding : Currency;
  TotalSpent : Currency;
  StuckSince : Z }.
Arguments mk {C R} _ _ _ _ _ _ _ _ _ _ _ _ _ _ _ _ _ _ _ _.
End Host.
Abbreviation Host := Host.Host (only parsing).

Section host.
Context {C : CurrencyOps} {R : RhpOps}.

Definition HasPoolSupport (h : Host) : bool :=
  (VersionCmp (ProtocolVersion (Host.Settings h)) ProtocolVersion510 >=? 0)%Z.

Definition IsGood (h : Host) : bool := Usability.Usable (Host.Usability h) && negb (Host.Blocked h).

Definition GoodForUpload (h : Host) : bool :=
  IsGood h && time_IsZero (Host.StuckSince h) && (RemainingStorage (Host.Settings h) >? 0)%Z.

Definition host_Location (h : Host) : Location :=
  mkLocation (Host.CountryCode h) (Host.Latitude h) (Host.Longitude h).

Definition RHP4Addrs (h : Host) : list NetAddress := Host.Addresses h.
End host.

(** ** Query options *)

Record HostSortOpt := mkSort { Field : string; Descending : bool }.
Record hostsQueryOpts := mkQuery {
  ActiveContracts : option bool;
  QBlocked : option bool;
  QUsable : option bool;
  PublicKeys : list PublicKey;
  Sorting : list HostSortOpt }.

(** A [HostQueryOpt] edits the options it is given. *)
Abbreviation HostQueryOpt := (hostsQueryOpts → hostsQueryOpts) (only parsing).
Definition DefaultHostsQueryOpts : hostsQueryOpts := mkQuery None None None [] [].

Definition WithSorting (field : string) (descending : bool) : HostQueryOpt := λ o,
  mkQuery (ActiveContracts o) (QBlocked o) (QUsable o) (PublicKeys o) (Sorting o ++ [mkSort field descending]).
Definition WithUsable (usable : bool) : HostQueryOpt := λ o,
  mkQuery (ActiveContracts o) (QBlocked o) (Some usable) (PublicKeys o) (Sorting o).
Definition WithBlocked (blocked : bool) : HostQueryOpt := λ o,
  mkQuery (ActiveContracts o) (Some blocked) (QUsable o) (PublicKeys o) (Sorting o).
Definition WithActiveContracts (active : bool) : HostQueryOpt := λ o,
  mkQuery (Some active) (QBlocked o) (QUsable o) (PublicKeys o) (Sorting o).
Definition WithPublicKeys (hks : list PublicKey) : HostQueryOpt := λ o,
  mkQuery (ActiveContracts o) (QBlocked o) (QUsable o) hks (Sorting o).

(** The options a store builds from its variadic argument. *)
Definition apply_opts (opts : list HostQueryOpt) : hostsQueryOpts :=
  foldl (λ o f, f o) DefaultHostsQueryOpts opts.

(** ** Spaced sets *)

Section spaced.
Context {C : CurrencyOps} {R : RhpOps} {MO : MathOps}.

Record SpacedSet := mkSpaced { minDistanceKm : float64; selected : gmap PublicKey Location }.

Definition NewSpacedSet (minDistanceKm : float64) : SpacedSet := mkSpaced minDistanceKm ∅.

(** The order in which [range] visits the map does not matter: every element has
    to pass. *)
Definition CanAddHost (s : SpacedSet) (h : Host) : bool :=
  if selected s !! Host.PublicKey h then false
  else if flt (of_int 0) (minDistanceKm s) then
    let location := host_Location h in
    forallb (λ other, negb (flt (HaversineDistanceKm location other) (minDistanceKm s)))
      (map_to_list (selected s)).*2
  else true.

Definition Add (s : SpacedSet) (h : Host) : SpacedSet * bool :=
  if CanAddHost s h
  then (mkSpaced (minDistanceKm s) (<[Host.PublicKey h := host_Location h]> (selected s)), true)
  else (s, false).

(** Add a list of hosts, keeping the ones that were added. *)
Fixpoint add_all (s : SpacedSet) (hosts : list Host) : SpacedSet * list Host :=
  match hosts with
  | [] => (s, [])
  | h :: hosts =>
      let '(s, ok) := Add s h in
      let '(s, kept) := add_all s hosts in
      (s, if ok : bool then h :: kept else kept)
  end.

(** *** Spacing *)

(** Any two members are at least the minimum distance apart. *)
Definition spaced (s : SpacedSet) : Prop :=
  flt (of_int 0) (minDistanceKm s) = true →
  ∀ a b la lb, selected s !! a = Some la → selected s !! b = Some lb → a ≠ b →
    flt (HaversineDistanceKm la lb) (minDistanceKm s) = false.

Lemma CanAddHost_spec s h :
  CanAddHost s h = true ↔
  selected s !! Host.PublicKey h = None ∧
  (flt (of_int 0) (minDistanceKm s) = true →
   ∀ a la, selected s !! a = Some la → flt (HaversineDistanceKm (host_Location h) la) (minDistanceKm s) = false).
Proof.
  unfold CanAddHost. destruct (selected s !! Host.PublicKey h); [naive_solver|].
  destruct (flt (of_int 0) (minDistanceKm s)); [|naive_solver].
  rewrite forallb_forall. setoid_rewrite <-list_elem_of_In. split.
  - intros H. split; [done|]. intros _ a la Ha. apply negb_true_iff, H.
    apply list_elem_of_fmap. exists (a, la). by rewrite elem_of_map_to_list.
  - intros [_ H] la ([a la'] & -> & Ha%elem_of_map_to_list)%list_elem_of_fmap. simpl.
    by rewrite (H eq_refl a la' Ha).
Qed.

Lemma Add_spaced {ML : MathLaws MO} s h : spaced s → spaced (Add s h).1.
Proof.
  unfold Add. destruct (CanAddHost s h) eqn:E; [|done].
  apply CanAddHost_spec in E as [Hnew Hd]. intros Hs Hmin a b la lb; simpl in *.
  destruct (decide (a = Host.PublicKey h)) as [->|Ha], (decide (b = Host.PublicKey h)) as [->|Hb]; [done|..];
    rewrite ?lookup_insert_eq, ?lookup_insert_ne by done; intros; simplify_eq.
  - eapply Hd; eauto.
  - rewrite Haversine_sym. eapply Hd; eauto.
  - eapply Hs; eauto.
Qed.

Lemma Add_minDistance s h : minDistanceKm (Add s h).1 = minDistanceKm s.
Proof. unfold Add. by destruct (CanAddHost s h). Qed.

(** A host was not added to [s] because of a member of [s]: the same host, or one
    that is too close. *)
Definition conflicts (s : SpacedSet) (h : Host) : Prop :=
  ∃ a la, selected s !! a = Some la ∧
    (a = Host.PublicKey h ∨
     flt (of_int 0) (minDistanceKm s) = true ∧
     flt (HaversineDistanceKm (host_Location h) la) (minDistanceKm s) = true).

Lemma CanAddHost_conflicts s h : CanAddHost s h = false ↔ conflicts s h.
Proof.
  unfold CanAddHost, conflicts. split.
  - destruct (selected s !! Host.PublicKey h) as [la|] eqn:E; [naive_solver|].
    destruct (flt (of_int 0) (minDistanceKm s)); [|done]. intros H.
    apply not_true_iff_false in H. rewrite forallb_forall in H.
    setoid_rewrite <-list_elem_of_In in H.
    destruct (decide (Exists (λ p : PublicKey * Location,
      flt (HaversineDistanceKm (host_Location h) p.2) (minDistanceKm s) = true) (map_to_list (selected s)))) as [Hex|Hne].
    + apply list.Exists_exists in Hex as ([a la] & Hin%elem_of_map_to_list & Hlt). exists a, la. auto.
    + exfalso. apply H. intros la (p & -> & Hp)%list_elem_of_fmap. apply negb_true_iff, not_true_iff_false.
      intros Hlt. apply Hne, list.Exists_exists. eauto.
  - intros (a & la & Ha & [->|[Hmin Hlt]]); [by rewrite Ha|].
    destruct (selected s !! Host.PublicKey h); [done|]. rewrite Hmin. apply not_true_iff_false.
    rewrite forallb_forall. intros H.
    assert (negb (flt (HaversineDistanceKm (host_Location h) la) (minDistanceKm s)) = true) as Hn; [|by rewrite Hlt in Hn].
    apply H, list_elem_of_In, list_elem_of_fmap. exists (a, la). by rewrite elem_of_map_to_list.
Qed.

Lemma conflicts_mono s s' h :
  minDistanceKm s' = minDistanceKm s → selected s ⊆ selected s' → conflicts s h → conflicts s' h.
Proof.
  intros Hm Hsub (a & la & Ha & Hc). exists a, la. rewrite Hm.
  split; [eapply lookup_weaken; eauto|done].
Qed.

Lemma Add_subset s h : selected s ⊆ selected (Add s h).1.
Proof.
  unfold Add. destruct (CanAddHost s h) eqn:E; [|done]. apply CanAddHost_spec in E as [E _]. by apply insert_subseteq.
Qed.

Lemma add_all_spec {ML : MathLaws MO} hosts s :
  let '(s', kept) := add_all s hosts in
  minDistanceKm s' = minDistanceKm s ∧ selected s ⊆ selected s' ∧ (spaced s → spaced s') ∧
  sublist kept hosts ∧
  (∀ h, h ∈ hosts → h ∈ kept ∨ conflicts s' h) ∧
  (∀ a la, selected s' !! a = Some la →
     selected s !! a = Some la ∨ ∃ h, h ∈ kept ∧ Host.PublicKey h = a ∧ host_Location h = la).
Proof.
  revert s. induction hosts as [|h hosts IH]; intros s; simpl.
  { split_and!; [done|done|done|constructor| |by left]. intros h H. by apply elem_of_nil in H. }
  destruct (Add s h) as [s1 ok] eqn:E.
  pose proof (Add_minDistance s h) as Hm1. pose proof (Add_subset s h) as Hsub1.
  pose proof (Add_spaced s h) as Hsp1. rewrite E in *. simpl in *.
  specialize (IH s1). destruct (add_all s1 hosts) as [s2 kept]. destruct IH as (Hm & Hsub & Hsp & Hsl & Hall & Hsel).
  unfold Add in E. destruct (CanAddHost s h) eqn:Hc; simplify_eq/=; split_and!.
  - congruence.
  - by etrans.
  - auto.
  - by constructor.
  - intros h' [->|Hin]%elem_of_cons; [left; left|]. destruct (Hall h' Hin); [left; by right|by right].
  - intros a la Ha. destruct (Hsel a la Ha) as [Hs|(h' & ? & ? & ?)]; [|right; exists h'; split_and!; [by right|done..]].
    destruct (decide (a = Host.PublicKey h)) as [->|Hne]; [|rewrite lookup_insert_ne in Hs by done; auto].
    rewrite lookup_insert_eq in Hs. simplify_eq. right. exists h. split_and!; [by left|done..].
  - done.
  - done.
  - done.
  - by constructor.
  - intros h' [->|Hin]%elem_of_cons; [|auto]. right. apply (conflicts_mono s1); [done..|].
    by apply CanAddHost_conflicts.
  - intros a la Ha. destruct (Hsel a la Ha); auto.
Qed.
End spaced.

(** ** Properties *)

(** A host passes all usability checks exactly when it has no failed check to
    report, and no usability ever reports a check outside the list the empty
    usability reports: the reasons [unblockUsableHosts] strips from the blocklist
    are therefore all the reasons a failed check can have put there. *)
Lemma failed_checks_complete (u : Usability.Usability) :
  (Usability.Usable u = true ↔ Usability.FailedChecks u = []) ∧
  (∀ reason, reason ∈ Usability.FailedChecks u → reason ∈ Usability.FailedChecks Usability.zero).
Proof. split; [apply Usability.Usable_nil|]. intros n. apply Usability.FailedChecks_zero. Qed.

(** Offering hosts to a spaced set one by one keeps a sublist of them such
    that any two members of the set are at least the minimum distance apart, in
    both directions of the distance function, and the choice is maximal: every
    host that was offered is kept, or is a member already or too close to one.
    The distance is computed in floating point as the code does. *)
Theorem spaced_set_picks {C : CurrencyOps} {R : RhpOps} {MO : MathOps} {ML : MathLaws MO}
    (hosts : list Host) (d : float64) (s : SpacedSet) (kept : list Host) :
  add_all (NewSpacedSet d) hosts = (s, kept) →
  sublist kept hosts ∧ spaced s ∧
  (∀ a la, selected s !! a = Some la →
     ∃ h, h ∈ kept ∧ Host.PublicKey h = a ∧ host_Location h = la) ∧
  (∀ h, h ∈ hosts → h ∈ kept ∨ conflicts s h).
Proof.
  intros E. pose proof (add_all_spec hosts (NewSpacedSet d)) as H. rewrite E in H.
  destruct H as (_ & _ & Hsp & Hsl & Hall & Hsel). split_and!; [done| |intros a la Ha|done].
  - apply Hsp. intros _ a b la lb Ha. simpl in Ha. by rewrite lookup_empty in Ha.
  - destruct (Hsel a la Ha) as [Hs|?]; [simpl in Hs; by rewrite lookup_empty in Hs|done].
Qed.

(** ** Concrete hosts *)

Module HostsWitness.
#[local] Existing Instances U128.ops U128.laws TestRhp.ops TestRhp.laws.

(** Small-angle approximations: sin x = x, cos x = 1, atan2(y, x) = y / x. *)
#[export] Instance math : MathOps := {| Sin x := x; Cos _ := of_int 1; Atan2 := fdiv |}.
#[export] Instance math_laws : MathLaws math.
Proof. split. done. Qed.

Definition zero : U128.t := U128.wrapped 0.
Definition settings : HostSettings :=
  mkSettings 502%Z 0%N (U128.wrapped (10 ^ 27)) 1000000
    (TestRhp.mkPrices (U128.wrapped 1000) (U128.wrapped 1000) (U128.wrapped 1000) 100).
Definition host (key : N) (lat lon : Z) : Host :=
  Host.mk key 0 0 0 0 0 (of_int 1) [] "NL" (of_int lat) (of_int lon) settings Usability.GoodUsability
    false [] 0 0 zero zero 0.
Definition hosts : list Host := [host 1 0 0; host 2 0 1; host 1 50 50; host 3 5 5].

(** The second host is 111 km from the first, the third is the first again. *)
Example spaced_set_picks_witness :
  let '(s, kept) := add_all (NewSpacedSet (of_int 200)) hosts in
  sublist kept hosts ∧ spaced s ∧
  (∀ a la, selected s !! a = Some la → ∃ h, h ∈ kept ∧ Host.PublicKey h = a ∧ host_Location h = la) ∧
  (∀ h, h ∈ hosts → h ∈ kept ∨ conflicts s h).
Proof.
  destruct (add_all (NewSpacedSet (of_int 200)) hosts) as [s kept] eqn:E.
  exact (spaced_set_picks hosts (of_int 200) s kept E).
Defined.

Example spaced_set_keys :
  Host.PublicKey <$> (add_all (NewSpacedSet (of_int 200)) hosts).2 = [1; 3]%N.
Proof. vm_compute. reflexivity. Qed.

End HostsWitness.
