(* ===== verification/HostManager.v ===== *)
(** * The host manager (src/hosts/manager.go, utils.go)

    Importing hosts and host announcements, scanning, refreshing prices, calling
    hosts with fresh prices and lifting blocks. The store, the scanner, the
    resolver, the clock and the random source are the manager's interfaces:
    operations on an abstract state [S], each of which may fail. *)

From S2P Require Import Prelude Float Net External Hosts Alerts.

(** ** Addresses *)

(** The protocol names of coreutils. *)
Class ProtocolNames := { siamux_Protocol : Protocol; quic_Protocol : Protocol }.

Section addresses.
Context {PN : ProtocolNames}.

Definition badQUICPorts : list Z :=
  [1; 7; 9; 11; 13; 15; 17; 19; 20; 21; 22; 23; 25; 37; 42; 43; 53; 69; 77; 79; 87; 95; 101; 102;
   103; 104; 109; 110; 111; 113; 115; 117; 119; 123; 135; 137; 139; 143; 161; 179; 389; 427;
   465; 512; 513; 514; 515; 526; 530; 531; 532; 540; 548; 554; 556; 563; 587; 601; 636; 989;
   990; 993; 995; 1719; 1720; 1723; 2049; 3659; 4045; 4190; 5060; 5061; 6000; 6566; 6665; 6666;
   6667; 6668; 6669; 6679; 6697; 10080]%Z.

(** [net.SplitHostPort] on strings *)
Definition split_host_port (addr : string) : result (bytes * bytes) := SplitHostPort (bytes_of addr).

Definition IsBadQUICAddress (na : NetAddress) : bool :=
  if negb (String.eqb (NA_Protocol na) quic_Protocol) then false
  else match split_host_port (NA_Address na) with
       | Ok (_, portStr) =>
           match Atoi portStr with
           | Ok port => bool_decide (port ∈ badQUICPorts)
           | _ => true
           end
       | _ => true
       end.

(** [None] is the nil error. *)
Definition validateAddress (na : NetAddress) : option error :=
  if negb (String.eqb (NA_Protocol na) siamux_Protocol || String.eqb (NA_Protocol na) quic_Protocol)
  then Some (EMsg "unknown protocol")
  else if String.eqb (NA_Address na) "" then Some (EMsg "empty address")
  else match split_host_port (NA_Address na) with
       | Ok (host, portStr) =>
           if bool_decide (host = []) then Some (EMsg "empty host")
           else match Atoi portStr with
                | Ok port =>
                    if (port <? 1)%Z || (port >? 65535)%Z then Some (EMsg "port must be between 1 and 65535")
                    else None
                | _ => Some (EMsg "invalid port")
                end
       | Err e => Some (EWrap "invalid address: " e "")
       | Panic => None
       end.

Definition announcementMaxAddressesPerProtocol : nat := 2.

(** What a usable address is: a known protocol, a host and a port. *)
Definition valid_address (na : NetAddress) : Prop :=
  (NA_Protocol na = siamux_Protocol ∨ NA_Protocol na = quic_Protocol) ∧
  ∃ host portStr port, split_host_port (NA_Address na) = Ok (host, portStr) ∧ host ≠ [] ∧
    Atoi portStr = Ok port ∧ (1 ≤ port ≤ 65535)%Z.

Lemma SplitHostPort_no_panic s : SplitHostPort s ≠ Panic.
Proof. unfold SplitHostPort. repeat case_match; done. Qed.
Lemma Atoi_no_panic s : Atoi s ≠ Panic.
Proof. unfold Atoi. repeat case_match; done. Qed.

Lemma validateAddress_spec na : validateAddress na = None ↔ valid_address na.
Proof.
  unfold validateAddress, valid_address. split.
  - intros H. repeat case_match; simplify_eq/=; try (by exfalso; eapply SplitHostPort_no_panic).
    apply negb_false_iff, orb_true_iff in H0. rewrite !String.eqb_eq in H0.
    apply orb_false_iff in H6. rewrite bool_decide_eq_false in H4.
    split; [done|]. do 3 eexists. split_and!; [done..|lia|lia].
  - intros (Hp & host & ps & port & Hs & Hh & Ha & Hr).
    assert (String.eqb (NA_Protocol na) siamux_Protocol || String.eqb (NA_Protocol na) quic_Protocol = true) as ->
      by (apply orb_true_iff; rewrite !String.eqb_eq; done).
    rewrite Hs, Ha. simpl. destruct (String.eqb_spec (NA_Address na) "") as [E|E]; [by rewrite E in Hs|].
    rewrite bool_decide_eq_false_2 by done. destruct (Z.ltb_spec port 1); [lia|].
    destruct (Z.gtb_spec port 65535); [lia|done].
Qed.

(** ** Private networks *)

Definition privateIPBlocks : list IPNet :=
  [Net4 (ipv4 10 0 0 0) 8; Net4 (ipv4 172 16 0 0) 12; Net4 (ipv4 192 168 0 0) 16; Net4 (ipv4 100 64 0 0) 10;
   Net6 (Z.shiftl 64512 112) 7; Net6 (Z.shiftl 65152 112) 10].

Definition isPrivateIP (ip : IP) : bool :=
  if IsLoopback ip || IsLinkLocalUnicast ip || IsLinkLocalMulticast ip then true
  else existsb (λ block, Contains block ip) privateIPBlocks.

End addresses.

(** ** The manager's interfaces *)

Record StuckHost := mkStuck { SH_PublicKey : PublicKey; SH_StuckSince : Z; SH_UnpinnedSectors : Z }.

Section interfaces.
Context {C : CurrencyOps} {R : RhpOps}.

(** [Store] *)
Class HostStore (S : Type) := {
  store_Host : PublicKey → M S Host;
  store_Hosts : Z → Z → list HostQueryOpt → M S (list Host);
  store_ImportHost : PublicKey → list NetAddress → M S unit;
  store_UpdateHostPrices : PublicKey → HostPrices → M S unit;
  store_UpdateHostScan : PublicKey → HostSettings → Location → bool → Z → M S unit;
  store_HostsForScanning : M S (list PublicKey);
  store_RemoveBlocklistReasons : list PublicKey → list string → M S Z;
  store_PruneHosts : Z → Z → M S Z;
  store_StuckHosts : M S (list StuckHost) }.

(** [HostClient], [Resolver], [Scanner], [Locator], [OnlineChecker],
    [AlertsManager], the clock, [frand] and the caller's context. *)
Class HostNet (S : Type) := {
  client_Prices : PublicKey → M S HostPrices;
  LookupIPAddr : string → M S (list IP);
  ScanSiamux : PublicKey → string → M S HostSettings;
  ScanQuic : PublicKey → string → M S HostSettings;
  Locate : IP → M S Location;
  IsOnline : M S bool;
  alerter_RegisterAlert : Alert (Data:=list StuckHost) → M S unit;
  alerter_DismissAlerts : list Hash256 → M S unit;
  time_Now : M S Z;
  frand_Intn : Z → M S Z;
  ctx_Err : M S (option error) }.

(** [proto4.HostSettings{}] and comparison with it. *)
Class SettingsOps := { zeroSettings : HostSettings; isZeroSettings : HostSettings → bool }.

End interfaces.

(** ** Operations *)

Definition ErrBadHost : string := "host is bad".
Definition errNodeOffline : string := "node is offline".
Definition ErrInvalidAddress : string := "invalid host address".
Definition ErrInvalidHostKey : string := "invalid host key".

Definition scanIntervalOffsetHours : Z := 6.
Definition scanExponentialBackoffHours : Z := 8.
Definition scanExponentialBackoffMaxHours : Z := 128.
Definition pruneMinConsecutiveScanFailures : Z := 10.
Definition pruneMinDowntime : Z := Hour * 24 * 365.

Section manager.
#[local] Open Scope go_scope.
Context {C : CurrencyOps} {R : RhpOps} {PN : ProtocolNames} {SO : SettingsOps}.
Context {S : Type} {HS : HostStore S} {HN : HostNet S}.

(** *** ImportHost *)

(** The loop over the addresses: [counts] is the addresses seen per protocol. *)
Fixpoint import_check (counts : gmap string nat) (addresses : list NetAddress) : option error :=
  match addresses with
  | [] => None
  | address :: addresses =>
      match validateAddress address with
      | Some e => Some (EJoin (ESentinel ErrInvalidAddress) e)
      | None =>
          let n := (default 0 (counts !! NA_Protocol address) + 1) in
          if Nat.ltb announcementMaxAddressesPerProtocol n
          then Some (EWrap "" (ESentinel ErrInvalidAddress) ": too many addresses")
          else import_check (<[NA_Protocol address := n]> counts) addresses
      end
  end.

Definition ImportHost (hostKey : PublicKey) (addresses : list NetAddress) : M S Host :=
  if (hostKey =? 0)%N then throw (EWrap "" (ESentinel ErrInvalidHostKey) ": public key is required")
  else if Nat.eqb (length addresses) 0 then throw (EWrap "" (ESentinel ErrInvalidAddress) ": at least one address is required")
  else match import_check ∅ addresses with
       | Some e => throw e
       | None => store_ImportHost hostKey addresses ;; store_Host hostKey
       end.

(** *** Scanning *)

(** The resolver that falls back to a second one ([resolver.LookupIPAddr]). *)
Definition resolver_LookupIPAddr (main fallback : string → M S (list IP)) (host : string) : M S (list IP) :=
  let* addrs := try (main host) in
  match addrs with
  | Err e => if is_ctx_err e then throw e else fallback host
  | Ok addrs => mret addrs
  | Panic => panic
  end.

Fixpoint resolveHost_loop (addresses filtered : list NetAddress) (loc : Location) : M S (list NetAddress * Location) :=
  match addresses with
  | [] => mret (filtered, loc)
  | na :: addresses =>
      match split_host_port (NA_Address na) with
      | Ok (host, _) =>
          let* ips := try (LookupIPAddr (string_of host)) in
          match ips with
          | Err e => if errors_Is e context_Canceled then throw e else resolveHost_loop addresses filtered loc
          | Ok [] => resolveHost_loop addresses filtered loc
          | Ok ((ip :: _) as ips) =>
              if existsb isPrivateIP ips then resolveHost_loop addresses filtered loc
              else
                let* loc :=
                  (if String.eqb (CountryCode loc) "" then
                     let* located := try (Locate ip) in
                     (* on an error the locator returns the empty location *)
                     mret (match located with Ok l => l | _ => no_location end)
                   else mret loc) in
                resolveHost_loop addresses (filtered ++ [na]) loc
          | Panic => panic
          end
      | _ => resolveHost_loop addresses filtered loc
      end
  end.

Definition resolveHost (addresses : list NetAddress) : M S (list NetAddress * Location) :=
  resolveHost_loop addresses [] no_location.

(** The scan the protocol of an address calls for. *)
Definition scan_address (hk : PublicKey) (addr : NetAddress) : option (M S HostSettings) :=
  if String.eqb (NA_Protocol addr) siamux_Protocol then Some (ScanSiamux hk (NA_Address addr))
  else if String.eqb (NA_Protocol addr) quic_Protocol then Some (ScanQuic hk (NA_Address addr))
  else None.

Fixpoint fetchSettings_loop (hk : PublicKey) (addresses : list NetAddress) (settings : list HostSettings) : M S (list HostSettings) :=
  match addresses with
  | [] => mret settings
  | addr :: addresses =>
      match scan_address hk addr with
      | None => fetchSettings_loop hk addresses settings
      | Some scan =>
          let* hs := try scan in
          match hs with
          | Err e => if is_ctx_err e then throw e else mret []    (* break *)
          | Ok hs => fetchSettings_loop hk addresses (settings ++ [hs])
          | Panic => panic
          end
      end
  end.

Definition fetchSettings (hk : PublicKey) (addresses : list NetAddress) : M S HostSettings :=
  let* settings := fetchSettings_loop hk addresses [] in
  if Nat.eqb (length settings) 0 then mret zeroSettings
  else
    let* i := frand_Intn (Z.of_nat (length settings)) in
    lift (of_option (nth_error settings (Z.to_nat i))).

Definition calculateNextScanTime (lastScan : Z) (success : bool)
    (consecScanFailures interval offsetHours expBackoffHours expBackoffHoursMax : Z) : M S Z :=
  if (interval =? 0)%Z then panic
  else if (offsetHours <? 0)%Z then panic
  else
    let offsetHours := if (interval <? i64 (offsetHours * Hour))%Z then 0%Z else offsetHours in
    if success then
      let* r := frand_Intn (i64 (2 * offsetHours + 1)) in
      let randomOffset := i64 (i64 (r - offsetHours) * Hour) in
      mret (lastScan + interval + randomOffset)%Z
    else
      let expBackoff := i64 (Z.min (i64 (expBackoffHours * consecScanFailures)) expBackoffHoursMax * Hour) in
      mret (lastScan + expBackoff)%Z.

(** [HostManager.scanInterval] *)
Variable scanInterval : Z.

Definition ScanHost (hk : PublicKey) : M S Host :=
  let* host := wrapM "failed to get host, " (store_Host hk) in
  let* '(addrs, loc) := wrapM "failed to resolve host, " (resolveHost (Host.Addresses host)) in
  let* settings := wrapM "failed to fetch settings, " (fetchSettings hk addrs) in
  let consecutiveFailures := Host.ConsecutiveFailedScans host in
  let success := negb (isZeroSettings settings) in
  let* consecutiveFailures :=
    (if success then mret consecutiveFailures
     else
       let* online := IsOnline in
       if online then mret (i64 (consecutiveFailures + 1)) else throw (ESentinel errNodeOffline)) in
  let* now := time_Now in
  let* nextScan := calculateNextScanTime now success consecutiveFailures scanInterval
    scanIntervalOffsetHours scanExponentialBackoffHours scanExponentialBackoffMaxHours in
  wrapM "failed to update host, " (store_UpdateHostScan hk settings loc success nextScan) ;;
  store_Host hk.

(** *** Usable, WithScannedHost *)

(** On an error of the last read the caller gets (false, err). *)
Definition Usable (hostKey : PublicKey) : M S bool :=
  let* host := wrapM "failed to get host, " (store_Host hostKey) in
  if Host.Blocked host then mret false
  else
    let* prices := wrapM "failed to fetch host prices, " (client_Prices hostKey) in
    match ValidatePrices prices hostKey with
    | Some _ => mret false
    | None =>
        wrapM "failed to update host prices, " (store_UpdateHostPrices hostKey prices) ;;
        let* host := store_Host hostKey in
        mret (IsGood host)
    end.

Definition bad_host : error := EWrap "" (ESentinel ErrBadHost) ": blocked=%t, usable=%t".
Definition validPriceBuf : Z := 5 * Minute.

Definition WithScannedHost (hk : PublicKey) (fn : Host → M S unit) : M S unit :=
  let* host := wrapM "failed to get host, " (store_Host hk) in
  if negb (IsGood host) then throw bad_host
  else
    let* now := time_Now in
    let* done :=
      (if (ValidUntil (Prices (Host.Settings host)) >? now + validPriceBuf)%Z then
         let* r := try (fn host) in
         match r with
         | Err e => if errors_Is e ErrPricesExpired then mret false else throw e
         | Ok _ => mret true
         | Panic => panic
         end
       else mret false) in
    if done : bool then mret tt
    else
      let* host := wrapM "failed to scan host, " (ScanHost hk) in
      if negb (IsGood host) then throw bad_host else fn host.

(** *** Maintenance *)

Definition hostsForScanning (force : bool) : M S (list PublicKey) :=
  let* r := try (if negb force then store_HostsForScanning
                 else let* hosts := store_Hosts 0 (two63 - 1) [] in mret (Host.PublicKey <$> hosts)) in
  (* errors are only logged *)
  mret (match r with Ok hks => hks | _ => [] end).

Definition pruneHosts : M S unit :=
  let* now := time_Now in
  let* _ := try (store_PruneHosts (now - pruneMinDowntime) pruneMinConsecutiveScanFailures) in
  mret tt.

Definition batchSize : Z := 100.

(** The paging loop of [unblockUsableHosts]; [None] when [fuel] pages were not
    enough. *)
Fixpoint unblock_loop (fuel : nat) (offset : Z) (toUnblock : list PublicKey) : M S (option (list PublicKey)) :=
  match fuel with
  | O => mret None
  | Datatypes.S fuel =>
      let* err := ctx_Err in
      match err with
      | Some e => throw e
      | None =>
          let* hosts := wrapM "failed to fetch hosts to unblock: "
            (store_Hosts offset batchSize [WithBlocked true; WithUsable true; WithActiveContracts false]) in
          let toUnblock := toUnblock ++ (Host.PublicKey <$> hosts) in
          if (Z.of_nat (length hosts) <? batchSize)%Z then mret (Some toUnblock)
          else unblock_loop fuel (offset + batchSize) toUnblock
      end
  end.

Definition unblockUsableHosts (fuel : nat) : M S (option Z) :=
  let* toUnblock := unblock_loop fuel 0 [] in
  match toUnblock with
  | None => mret None
  | Some [] => mret (Some 0%Z)
  | Some toUnblock =>
      let* n := wrapM "failed to remove usability blocklist reasons: "
        (store_RemoveBlocklistReasons toUnblock (Usability.FailedChecks Usability.zero)) in
      mret (Some n)
  end.

(** The random id drawn at program start. *)
Variable alertStuckHostsID : Hash256.

Definition newStuckHostsAlert (now : Z) (hosts : list StuckHost) : Alert :=
  mkAlert alertStuckHostsID SeverityWarning "Host(s) are stuck" hosts now.

Definition registerStuckHostsAlert : M S unit :=
  let* r := try store_StuckHosts in
  match r with
  | Ok [] => alerter_DismissAlerts [alertStuckHostsID]
  | Ok stuckHosts =>
      let* now := time_Now in
      let* _ := try (alerter_RegisterAlert (newStuckHostsAlert now stuckHosts)) in
      mret tt
  | _ => mret tt
  end.

End manager.

(** ** Host announcements *)

(** A block: its timestamp and the announcements
    [chain.ForEachV2HostAnnouncement] visits, in order. *)
Record Block := mkBlock { BlockTimestamp : Z; announcements : list (PublicKey * list NetAddress) }.

Section announcements.
#[local] Open Scope go_scope.
Context {PN : ProtocolNames} {S : Type}.

(** [UpdateTx.AddHostAnnouncement] *)
Variable tx_AddHostAnnouncement : PublicKey → list NetAddress → Z → M S unit.
Variable time_Now : M S Z.
Variable announcementMaxAge : Z.

(** The order in which [range] visits a map. *)
Variable range_filtered : gmap string (list NetAddress) → list (string * list NetAddress).
Variable range_has : gmap PublicKey (list NetAddress) → list (PublicKey * list NetAddress).

Definition filter_step (filtered : gmap string (list NetAddress)) (addr : NetAddress) : gmap string (list NetAddress) :=
  match validateAddress addr with
  | Some _ => filtered
  | None =>
      let l := default [] (filtered !! NA_Protocol addr) in
      if Nat.ltb (length l) announcementMaxAddressesPerProtocol
      then <[NA_Protocol addr := l ++ [addr]]> filtered else filtered
  end.

Definition filter_addrs (addrs : list NetAddress) : gmap string (list NetAddress) := foldl filter_step ∅ addrs.

(** [has[hk] = append(has[hk], addrs...)] *)
Definition append_addrs (hk : PublicKey) (has : gmap PublicKey (list NetAddress)) (c : string * list NetAddress) : gmap PublicKey (list NetAddress) :=
  <[hk := default [] (has !! hk) ++ c.2]> has.

Definition announce (has : gmap PublicKey (list NetAddress)) (a : PublicKey * list NetAddress) : gmap PublicKey (list NetAddress) :=
  foldl (append_addrs a.1) has (range_filtered (filter_addrs a.2)).

Definition block_announcements (b : Block) : gmap PublicKey (list NetAddress) :=
  foldl announce ∅ (announcements b).

Definition UpdateChainState (applied : list Block) : M S unit :=
  forM applied (λ update,
    let* now := time_Now in
    if (time_Sub now (BlockTimestamp update) >? announcementMaxAge)%Z then mret tt
    else forM (range_has (block_announcements update)) (λ a,
      wrapM "failed to add host announcement: " (tx_AddHostAnnouncement a.1 a.2 (BlockTimestamp update)))).

(** *** What is stored *)

Context (range_filtered_perm : ∀ m, range_filtered m ≡ₚ map_to_list m).

(** The addresses of protocol [p] that an announcement contributes. *)
Definition usable_addrs (p : string) (addrs : list NetAddress) : list NetAddress :=
  take announcementMaxAddressesPerProtocol
    (filter (λ a, NA_Protocol a = p ∧ validateAddress a = None) addrs).

Lemma filter_addrs_lookup addrs p : default [] (filter_addrs addrs !! p) = usable_addrs p addrs.
Proof.
  unfold filter_addrs, usable_addrs. induction addrs as [|a addrs IH] using rev_ind; [done|].
  rewrite foldl_app, filter_app. simpl. set (m := foldl filter_step ∅ addrs) in *.
  unfold filter_step. rewrite filter_cons. destruct (validateAddress a) eqn:Ha.
  { rewrite decide_False by naive_solver. by rewrite filter_nil, app_nil_r. }
  destruct (decide (NA_Protocol a = p)) as [<-|Hp].
  - rewrite decide_True by done. rewrite filter_nil, IH.
    set (l := filter _ addrs) in *. rewrite length_take.
    destruct (Nat.ltb_spec (announcementMaxAddressesPerProtocol `min` length l) announcementMaxAddressesPerProtocol).
    + rewrite lookup_insert_eq. simpl. rewrite take_ge by lia. rewrite (take_ge (l ++ [a])); [done|].
      rewrite length_app. simpl. lia.
    + by rewrite IH, take_app_le by lia.
  - rewrite decide_False by naive_solver. rewrite filter_nil, app_nil_r, <-IH.
    destruct (Nat.ltb _ _); [by rewrite lookup_insert_ne|done].
Qed.

Lemma filter_addrs_chunk addrs p l : filter_addrs addrs !! p = Some l → l = usable_addrs p addrs.
Proof. intros H. rewrite <-filter_addrs_lookup, H. done. Qed.

Lemma filter_addrs_nonempty addrs p : filter_addrs addrs !! p ≠ Some [].
Proof.
  unfold filter_addrs. induction addrs as [|a addrs IH] using rev_ind; [done|].
  rewrite foldl_app. simpl. unfold filter_step at 1. repeat case_match; [done| |done].
  destruct (decide (NA_Protocol a = p)) as [<-|Hp]; [|by rewrite lookup_insert_ne].
  rewrite lookup_insert_eq. intros [= Hl%app_eq_nil]. naive_solver.
Qed.

Lemma foldl_append_addrs hk chunks has i :
  default [] (foldl (append_addrs hk) has chunks !! i) =
    default [] (has !! i) ++ (if decide (i = hk) then concat chunks.*2 else []).
Proof.
  revert has. induction chunks as [|c chunks IH]; intros has; simpl.
  { case_decide; by rewrite app_nil_r. }
  rewrite IH. unfold append_addrs. case_decide as Hi.
  - subst i. by rewrite lookup_insert_eq, app_assoc.
  - by rewrite lookup_insert_ne.
Qed.

Lemma foldl_append_addrs_nonempty hk chunks has :
  Forall (λ c, c.2 ≠ []) chunks → (∀ i, has !! i ≠ Some []) → ∀ i, foldl (append_addrs hk) has chunks !! i ≠ Some [].
Proof.
  intros Hc. revert has. induction Hc as [|c chunks Hne _ IH]; intros has Hhas; simpl; [done|]. apply IH.
  intros i. unfold append_addrs. destruct (decide (i = hk)) as [->|Hi]; [|by rewrite lookup_insert_ne].
  rewrite lookup_insert_eq. intros [= Hl%app_eq_nil]. naive_solver.
Qed.

(** Picking one protocol from chunks of addresses tagged by distinct protocols. *)
Lemma filter_chunks (chunks : list (string * list NetAddress)) p :
  NoDup chunks.*1 →
  (∀ q l a, (q, l) ∈ chunks → a ∈ l → NA_Protocol a = q) →
  filter (λ a, NA_Protocol a = p) (concat chunks.*2) = default [] ((list_to_map chunks : gmap string _) !! p).
Proof.
  induction chunks as [|[q l] chunks IH]; intros Hnd Htag; [done|].
  csimpl in *. apply NoDup_cons in Hnd as [Hq Hnd]. rewrite filter_app, IH; [|done|].
  2: { intros q' l' a Hin. apply Htag. by right. }
  destruct (decide (p = q)) as [->|Hp].
  - rewrite lookup_insert_eq, not_elem_of_list_to_map_1, app_nil_r by done.
    apply filter_all. intros a Ha. eapply Htag; [by left|done].
  - rewrite lookup_insert_ne, filter_none; [done| |done]. intros a Ha.
    rewrite (Htag q l a) by (done || by left). congruence.
Qed.

Lemma usable_addrs_elem p addrs a :
  a ∈ usable_addrs p addrs → NA_Protocol a = p ∧ validateAddress a = None ∧ a ∈ addrs.
Proof.
  unfold usable_addrs. intros H%elem_of_take. destruct H as (i & H & _).
  apply list_elem_of_lookup_2, list_elem_of_filter in H. naive_solver.
Qed.

(** The addresses [has] holds for host [i], per protocol. *)
Definition addrs_of (has : gmap PublicKey (list NetAddress)) (i : PublicKey) (p : string) : list NetAddress :=
  filter (λ a, NA_Protocol a = p) (default [] (has !! i)).

Lemma announce_spec has a i p :
  addrs_of (announce has a) i p = addrs_of has i p ++ (if decide (a.1 = i) then usable_addrs p a.2 else []).
Proof.
  unfold addrs_of, announce. rewrite foldl_append_addrs, filter_app. f_equal.
  destruct (decide (i = a.1)) as [->|Hi]; [rewrite decide_True by done|by rewrite decide_False].
  pose proof (range_filtered_perm (filter_addrs a.2)) as Hperm.
  assert (NoDup (range_filtered (filter_addrs a.2)).*1) as Hnd
    by (rewrite Hperm; apply NoDup_fst_map_to_list).
  rewrite filter_chunks; [|done|].
  - assert ((list_to_map (range_filtered (filter_addrs a.2)) : gmap string _) = filter_addrs a.2) as ->.
    { rewrite <-(list_to_map_to_list (filter_addrs a.2)) at 2. by apply list_to_map_proper. }
    apply filter_addrs_lookup.
  - intros q l x Hin Hx. rewrite Hperm in Hin. apply elem_of_map_to_list, filter_addrs_chunk in Hin. subst l.
    by apply usable_addrs_elem in Hx as [? _].
Qed.

Lemma announce_nonempty has a : (∀ i, has !! i ≠ Some []) → ∀ i, announce has a !! i ≠ Some [].
Proof.
  intros Hhas. apply foldl_append_addrs_nonempty; [|done]. rewrite range_filtered_perm.
  apply Forall_forall. intros [p l] Hin%elem_of_map_to_list. simpl. intros ->. by apply filter_addrs_nonempty in Hin.
Qed.

Lemma announces_spec l i p :
  addrs_of (foldl announce ∅ l) i p = concat ((λ a, usable_addrs p a.2) <$> filter (λ a, a.1 = i) l).
Proof.
  induction l as [|a l IH] using rev_ind; [done|].
  rewrite foldl_app. simpl. rewrite announce_spec, IH, filter_app, fmap_app, concat_app. f_equal.
  rewrite filter_cons, filter_nil. destruct (decide (a.1 = i)); csimpl; by rewrite ?app_nil_r.
Qed.

Lemma announces_nonempty l i : foldl announce ∅ l !! i ≠ Some [].
Proof.
  revert i. induction l as [|a l IH] using rev_ind; intros i; [done|].
  rewrite foldl_app. simpl. by apply announce_nonempty.
Qed.

(** What one block stores for a host: per protocol, the first two usable
    addresses of each of its announcements, in order, and nothing else; a host
    none of whose addresses are usable is not stored at all. The order in which
    Go visits the maps does not matter. *)
Theorem block_announcements_spec (b : Block) (i : PublicKey) :
  (∀ p, addrs_of (block_announcements b) i p =
     concat ((λ a, usable_addrs p a.2) <$> filter (λ a, a.1 = i) (announcements b))) ∧
  block_announcements b !! i ≠ Some [] ∧
  (∀ a, a ∈ default [] (block_announcements b !! i) → valid_address a).
Proof.
  split_and!; [intros p; apply announces_spec|apply announces_nonempty|].
  intros a Ha. apply validateAddress_spec.
  assert (a ∈ addrs_of (block_announcements b) i (NA_Protocol a)) as H by (by apply list_elem_of_filter).
  unfold block_announcements in H. rewrite announces_spec in H.
  apply list_elem_of_In, in_concat in H as (l & Hl & Hin).
  apply list_elem_of_In, list_elem_of_fmap in Hl as (x & -> & _).
  apply list_elem_of_In, usable_addrs_elem in Hin. naive_solver.
Qed.

End announcements.

(** ** Properties *)

Section properties.
#[local] Open Scope go_scope.
Context {C : CurrencyOps} {R : RhpOps} {PN : ProtocolNames} {SO : SettingsOps}.
Context {S : Type} {HS : HostStore S} {HN : HostNet S}.

Lemma import_check_counts counts addresses :
  import_check counts addresses = None →
  Forall (λ a, validateAddress a = None) addresses ∧
  ∀ p, (∃ a, a ∈ addresses ∧ NA_Protocol a = p) →
    default 0 (counts !! p) + length (filter (λ a, NA_Protocol a = p) addresses) ≤ announcementMaxAddressesPerProtocol.
Proof.
  revert counts. induction addresses as [|a l IH]; intros counts H; simpl in H.
  { split; [done|]. intros p (a & Ha & _). by apply elem_of_nil in Ha. }
  destruct (validateAddress a) eqn:Ha; [done|]. case_match eqn:Hn; [done|]. apply Nat.ltb_ge in Hn.
  destruct (IH _ H) as [Hall Hc]. split; [by constructor|]. intros p Hp. rewrite filter_cons.
  destruct (decide (NA_Protocol a = p)) as [<-|Hne].
  - cbn [length]. destruct (decide (Exists (λ x, NA_Protocol x = NA_Protocol a) l)) as [Hex|Hnex].
    + apply list.Exists_exists in Hex as (x & Hx & Ex).
      specialize (Hc (NA_Protocol a) (ex_intro _ x (conj Hx Ex))). rewrite lookup_insert_eq in Hc.
      set (n := default 0 (counts !! NA_Protocol a)) in *. cbn [default from_option id] in Hc. lia.
    + rewrite filter_none; [cbn [length]; lia|]. intros x Hx E. apply Hnex, list.Exists_exists. eauto.
  - destruct Hp as (x & [->|Hx]%elem_of_cons & E); [done|].
    specialize (Hc p (ex_intro _ x (conj Hx E))). by rewrite lookup_insert_ne in Hc.
Qed.

(** [ImportHost] hands the store only usable address lists: a non-zero key,
    at least one address, every address valid and at most two per protocol. On
    any other input it fails without touching the store: with a store that
    panics on them the run is the same. *)
Theorem import_host_validates (hostKey : PublicKey) (addresses : list NetAddress) (s : S) :
  ImportHost hostKey addresses s = (store_ImportHost hostKey addresses ;; store_Host hostKey) s ∧
    hostKey ≠ 0%N ∧ addresses ≠ [] ∧ Forall valid_address addresses ∧
    (∀ p, length (filter (λ a, NA_Protocol a = p) addresses) ≤ announcementMaxAddressesPerProtocol)
  ∨ ∃ e, ImportHost hostKey addresses s = (Err e, s) ∧
      (errors_Is e ErrInvalidHostKey = true ∨ errors_Is e ErrInvalidAddress = true).
Proof.
  unfold ImportHost. destruct (N.eqb_spec hostKey 0) as [->|Hk].
  { right. eexists. split; [done|by left]. }
  destruct addresses as [|a l] eqn:El; [right; eexists; split; [done|by right]|].
  rewrite <-El. assert (addresses ≠ []) as Hne by (by rewrite El). clear El.
  replace (Nat.eqb (length addresses) 0) with false by (by destruct addresses).
  destruct (import_check ∅ addresses) as [e|] eqn:E.
  - right. exists e. split; [done|]. right. clear Hne. revert E. generalize (∅ : gmap string nat).
    induction addresses as [|x l' IH]; intros counts; simpl; [done|].
    repeat case_match; try (by intros [= <-]); eauto.
  - left. apply import_check_counts in E as [Hall Hc]. split_and!; [done..| |].
    + eapply Forall_impl; [exact Hall|]. intros x. apply validateAddress_spec.
    + intros p. destruct (decide (Exists (λ x, NA_Protocol x = p) addresses)) as [Hex|Hnex].
      * apply list.Exists_exists in Hex as (x & Hx & Ex).
        specialize (Hc p (ex_intro _ x (conj Hx Ex))). by rewrite lookup_empty in Hc.
      * rewrite filter_none; [simpl; lia|]. intros x Hx Ex. apply Hnex, list.Exists_exists. eauto.
Qed.

(** *** Scans *)

(** Scanning the addresses one after the other, every scan succeeding. *)
Inductive scanned (hk : PublicKey) : list NetAddress → list HostSettings → S → S → Prop :=
  | scanned_nil s : scanned hk [] [] s s
  | scanned_skip a l hss s s' : scan_address hk a = None → scanned hk l hss s s' → scanned hk (a :: l) hss s s'
  | scanned_cons a l scan hs hss s s1 s' :
      scan_address hk a = Some scan → scan s = (Ok hs, s1) → scanned hk l hss s1 s' →
      scanned hk (a :: l) (hs :: hss) s s'.

Lemma fetchSettings_loop_ok hk addrs acc s hss s' :
  fetchSettings_loop hk addrs acc s = (Ok hss, s') →
  hss = [] ∨ ∃ new, hss = acc ++ new ∧ scanned hk addrs new s s'.
Proof.
  revert acc s. induction addrs as [|a l IH]; intros acc s; simpl.
  { intros [= <- <-]. right. exists []. rewrite app_nil_r. split; [done|constructor]. }
  destruct (scan_address hk a) as [scan|] eqn:Ea.
  - intros (r & s1 & Hr & Hk)%bindM_ok. unfold try in Hr. destruct (scan s) as [[hs|e|] s1'] eqn:Es; simplify_eq/=.
    + apply IH in Hk as [->|(new & -> & Hnew)]; [by left|]. right. exists (hs :: new).
      rewrite <-app_assoc. split; [done|]. by econstructor.
    + destruct (is_ctx_err e); [done|]. injection Hk as <- _. by left.
  - intros [->|(new & -> & Hnew)]%IH; [by left|]. right. exists new. split; [done|]. by constructor.
Qed.

(** A scan reports settings only when the host answered on every address it
    can be dialled on: the addresses were scanned one after the other, each scan
    succeeded, and the settings are those one of the scans returned. *)
Theorem fetch_settings_all (hk : PublicKey) (addrs : list NetAddress) (hs : HostSettings) (s s' : S) :
  isZeroSettings zeroSettings = true →
  fetchSettings hk addrs s = (Ok hs, s') → isZeroSettings hs = false →
  ∃ hss s1, scanned hk addrs hss s s1 ∧ hs ∈ hss.
Proof.
  intros Hzero (hss & s1 & Hl & H)%bindM_ok Hhs.
  destruct (Nat.eqb_spec (length hss) 0) as [E|E]; [injection H as <- _; congruence|].
  apply bindM_ok in H as (i & s2 & _ & H). unfold lift, of_option in H.
  destruct (nth_error hss (Z.to_nat i)) eqn:Hn; simplify_eq. apply nth_error_In in Hn.
  apply fetchSettings_loop_ok in Hl as [->|(new & -> & Hnew)]; [done|].
  exists new, s1. split; [done|]. by apply list_elem_of_In.
Qed.

(** When a host is scanned again: after a success between [interval - 6h] and
    [interval + 6h] later (never before the scan, as the offset is dropped for
    intervals shorter than it), after [n] consecutive failures [min (8 n) 128]
    hours later. *)
Lemma next_scan_spec (lastScan n interval : Z) (success : bool) (s s' : S) (t : Z) :
  (∀ k s r s', frand_Intn k s = (Ok r, s') → 0 ≤ r < k)%Z →
  (0 < interval < two63)%Z → (0 ≤ n < 2 ^ 59)%Z →
  calculateNextScanTime lastScan success n interval scanIntervalOffsetHours
    scanExponentialBackoffHours scanExponentialBackoffMaxHours s = (Ok t, s') →
  if success
  then (Z.abs (t - (lastScan + interval)) ≤ 6 * Hour)%Z ∧ (lastScan ≤ t)%Z
  else t = (lastScan + Z.min (8 * n) 128 * Hour)%Z.
Proof.
  intros Hrand Hi Hn. unfold calculateNextScanTime, scanIntervalOffsetHours, scanExponentialBackoffHours,
    scanExponentialBackoffMaxHours.
  destruct (Z.eqb_spec interval 0); [lia|]. simpl (_ <? 0)%Z. cbv iota.
  change (i64 (6 * Hour)) with (6 * Hour)%Z. destruct success.
  - set (off := if (interval <? 6 * Hour)%Z then 0%Z else 6%Z).
    assert (off = 0 ∨ off = 6 ∧ 6 * Hour ≤ interval)%Z as Hoff
      by (unfold off; destruct (Z.ltb_spec interval (6 * Hour)); lia).
    intros (r & s1 & Hr & H)%bindM_ok. apply Hrand in Hr. injection H as <- _.
    rewrite (i64_id (2 * off + 1)) in Hr by (unfold is_i64, two63; lia).
    rewrite (i64_id (r - off)) by (unfold is_i64, two63; lia).
    rewrite i64_id by (unfold is_i64, two63, Hour, Minute, Second in *; lia).
    unfold Hour, Minute, Second in *. lia.
  - intros [= <- _]. rewrite (i64_id (8 * n)) by (unfold is_i64, two63; lia).
    rewrite i64_id by (unfold is_i64, two63, Hour, Minute, Second in *; lia). lia.
Qed.

(** [WithScannedHost] never calls the function on a bad host: two functions
    that agree on the hosts that are usable and not blocked give the same run. *)
Theorem with_scanned_host_good (scanInterval : Z) (hk : PublicKey) (f g : Host → M S unit) (s : S) :
  (∀ h, IsGood h = true → f h = g h) →
  WithScannedHost scanInterval hk f s = WithScannedHost scanInterval hk g s.
Proof.
  intros Hfg. unfold WithScannedHost, bindM, mbind, M_bind.
  destruct (wrapM _ (store_Host hk) s) as [[h|e|] s1]; [|done..].
  destruct (IsGood h) eqn:Hg; [|done]. simpl. rewrite (Hfg h Hg).
  destruct (time_Now s1) as [[now|e|] s2]; [|done..].
  match goal with |- context [match ?x with _ => _ end] => destruct x as [[[]|e|] s3]; [done| |done..] end.
  destruct (wrapM _ (ScanHost scanInterval hk) s3) as [[h'|e|] s4]; [|done..].
  destruct (IsGood h') eqn:Hg'; [|done]. simpl. by rewrite (Hfg h' Hg').
Qed.

(** *** Unblocking *)

Section unblock.
(** A store whose blocked but usable hosts without contracts are [hosts], and a
    context that is not done. *)
Context (hosts : list Host).
Context (store_pages : ∀ offset limit s, (0 ≤ offset)%Z → (0 ≤ limit)%Z →
  store_Hosts offset limit [WithBlocked true; WithUsable true; WithActiveContracts false] s =
    (Ok (take (Z.to_nat limit) (drop (Z.to_nat offset) hosts)), s)).
Context (not_done : ∀ s, ctx_Err s = (Ok None, s)).

Lemma unblock_loop_all fuel offset acc s :
  (0 ≤ offset ≤ Z.of_nat (length hosts))%Z →
  (Z.of_nat (length hosts) < offset + Z.of_nat fuel * batchSize)%Z →
  unblock_loop fuel offset acc s = (Ok (Some (acc ++ (Host.PublicKey <$> drop (Z.to_nat offset) hosts))), s).
Proof.
  revert offset acc. induction fuel as [|fuel IH]; intros offset acc Ho Hlen; [lia|].
  simpl. unfold bindM at 1, mbind, M_bind. rewrite not_done. unfold bindM, mbind, M_bind, wrapM.
  rewrite store_pages by (unfold batchSize; lia). cbn [wrap]. rewrite length_take, length_drop.
  destruct (Z.ltb_spec (Z.of_nat (Z.to_nat batchSize `min` (length hosts - Z.to_nat offset))) batchSize) as [Hlt|Hge].
  - rewrite take_ge by (rewrite length_drop; unfold batchSize in *; lia). done.
  - rewrite IH by (unfold batchSize in *; lia). do 3 f_equal. rewrite <-app_assoc, <-fmap_app. do 2 f_equal.
    rewrite <-(take_drop (Z.to_nat batchSize) (drop (Z.to_nat offset) hosts)) at 2. rewrite drop_drop. do 2 f_equal.
    unfold batchSize in *. lia.
Qed.

(** The unblocking loop ends: with [n] hosts to unblock, [n / 100 + 1] pages
    are enough, and it then strips the usability reasons from every one of them
    (and writes nothing when there is none). *)
Theorem unblock_usable_hosts_all (fuel : nat) (s : S) :
  (Z.of_nat (length hosts) < Z.of_nat fuel * batchSize)%Z →
  unblockUsableHosts fuel s =
    if bool_decide (hosts = []) then (Ok (Some 0%Z), s)
    else (let* n := wrapM "failed to remove usability blocklist reasons: "
            (store_RemoveBlocklistReasons (Host.PublicKey <$> hosts) (Usability.FailedChecks Usability.zero)) in
          mret (Some n)) s.
Proof.
  intros Hf. unfold unblockUsableHosts, bindM at 1, mbind, M_bind.
  rewrite unblock_loop_all by (simpl; lia). simpl. by destruct hosts.
Qed.
End unblock.

End properties.

(** ** A concrete environment *)

Module HostManagerWitness.
#[local] Existing Instances U128.ops U128.laws TestRhp.ops TestRhp.laws.

#[local] Instance names : ProtocolNames := {| siamux_Protocol := "siamux"; quic_Protocol := "quic" |}.

Definition zero : U128.t := U128.wrapped 0.
Definition settings (remaining validUntil : Z) : HostSettings :=
  mkSettings 502%Z 0%N zero remaining (TestRhp.mkPrices zero zero zero validUntil).
#[local] Instance settings_ops : SettingsOps := {|
  zeroSettings := settings 0 0; isZeroSettings hs := (RemainingStorage hs =? 0)%Z |}.

Definition host (key : N) (blocked : bool) : Host :=
  Host.mk key 0 0 0 0 2 (of_int 1) [mkNetAddress "siamux" "1.2.3.4:9984"; mkNetAddress "quic" "1.2.3.4:9984"]
    "NL" (of_int 52) (of_int 5) (settings 7 1000) Usability.GoodUsability blocked ["Uptime"] 0 0 zero zero 0.

Definition table : list Host := [host 1 true; host 2 true; host 3 false].

Definition matches (o : hostsQueryOpts) (h : Host) : bool :=
  match QBlocked o with Some b => Bool.eqb b (Host.Blocked h) | None => true end &&
  match QUsable o with Some b => Bool.eqb b (Usability.Usable (Host.Usability h)) | None => true end.

(** The state counts the scans. *)
#[local] Instance store : HostStore nat := {|
  store_Host k := λ s, (match list_find (λ h, Host.PublicKey h = k) table with
                        | Some (_, h) => Ok h | None => Err (ESentinel "host not found") end, s);
  store_Hosts offset limit opts := λ s,
    (Ok (take (Z.to_nat limit) (drop (Z.to_nat offset) (filter (λ h, matches (apply_opts opts) h = true) table))), s);
  store_ImportHost _ _ := mret tt;
  store_UpdateHostPrices _ _ := mret tt;
  store_UpdateHostScan _ _ _ _ _ := mret tt;
  store_HostsForScanning := mret [3%N];
  store_RemoveBlocklistReasons hks _ := mret (Z.of_nat (length hks));
  store_PruneHosts _ _ := mret 0%Z;
  store_StuckHosts := mret [] |}.
#[local] Instance net : HostNet nat := {|
  client_Prices _ := mret (Prices (settings 7 1000));
  LookupIPAddr _ := mret [IPv4 16909060];
  ScanSiamux _ _ := λ s, (Ok (settings (Z.of_nat s + 1) 1000), Datatypes.S s);
  ScanQuic _ _ := λ s, (Ok (settings (Z.of_nat s + 1) 1000), Datatypes.S s);
  Locate _ := mret no_location;
  IsOnline := mret true;
  alerter_RegisterAlert _ := mret tt;
  alerter_DismissAlerts _ := mret tt;
  time_Now := mret 5000%Z;
  frand_Intn n := λ s, (if (0 <? n)%Z then Ok (n - 1)%Z else Panic, s);
  ctx_Err := mret None |}.

Definition block : Block := mkBlock 0
  [(1%N, [mkNetAddress "quic" "a.com:1"; mkNetAddress "siamux" "a.com:x"; mkNetAddress "quic" "b.com:1"; mkNetAddress "quic" "c.com:1"]);
   (1%N, [mkNetAddress "quic" "d.com:1"])].

Example block_announcements_spec_witness :
  (∀ p, addrs_of (block_announcements map_to_list block) 1%N p =
     concat ((λ a, usable_addrs p a.2) <$> filter (λ a, a.1 = 1%N) (announcements block))) ∧
  block_announcements map_to_list block !! 1%N ≠ Some [] ∧
  (∀ a, a ∈ default [] (block_announcements map_to_list block !! 1%N) → valid_address a).
Proof. exact (block_announcements_spec map_to_list (λ m, Permutation_refl _) block 1%N). Defined.

(** Two announcements in one block add up to three addresses of one protocol. *)
Example block_announcements_add_up :
  block_announcements map_to_list block !! 1%N =
    Some [mkNetAddress "quic" "a.com:1"; mkNetAddress "quic" "b.com:1"; mkNetAddress "quic" "d.com:1"].
Proof. vm_compute. reflexivity. Qed.

Example import_host_ok : is_ok (ImportHost 3%N [mkNetAddress "quic" "a.com:9984"] 0).1 = true.
Proof. vm_compute. reflexivity. Qed.
Example import_host_bad : is_ok (ImportHost 3%N [mkNetAddress "quic" "a.com:70000"] 0).1 = false.
Proof. vm_compute. reflexivity. Qed.

Example fetch_settings_all_witness :
  ∃ hss s1, scanned 3%N (Host.Addresses (host 3 false)) hss 0 s1 ∧ settings 2 1000 ∈ hss.
Proof.
  apply (fetch_settings_all 3%N (Host.Addresses (host 3 false)) (settings 2 1000) 0 2); reflexivity.
Defined.

Lemma intn_law : ∀ k s r s', frand_Intn k s = (Ok r, s') → (0 ≤ r < k)%Z.
Proof. intros k s r s'. simpl. destruct (Z.ltb_spec 0 k); [|done]. intros [= <- _]. lia. Qed.

Example next_scan_spec_witness :
  (5000 + 32 * Hour = 5000 + Z.min (8 * 4) 128 * Hour)%Z.
Proof.
  apply (next_scan_spec 5000 4 (24 * Hour) false 0 0); [apply intn_law|vm_compute; split; congruence..|].
  vm_compute. reflexivity.
Defined.

Definition checked (f : Host → M nat unit) (h : Host) : M nat unit := if IsGood h then f h else panic.

Example with_scanned_host_good_witness :
  WithScannedHost (24 * Hour) 3%N (λ h, mret tt) 0 =
  WithScannedHost (24 * Hour) 3%N (checked (λ h, mret tt)) 0.
Proof.
  apply (with_scanned_host_good (24 * Hour) 3%N (λ h, mret tt) (checked (λ h, mret tt)) 0).
  intros h Hg. unfold checked. by rewrite Hg.
Defined.

Lemma blocked_hosts :
  filter (λ h, matches (apply_opts [WithBlocked true; WithUsable true; WithActiveContracts false]) h = true) table = take 2 table.
Proof. unfold table. rewrite !filter_cons. reflexivity. Qed.

Example unblock_usable_hosts_all_witness :
  unblockUsableHosts 1 0 = (Ok (Some 2%Z), 0).
Proof.
  refine (eq_trans (unblock_usable_hosts_all (take 2 table) _ _ 1 0 _) _).
  - intros offset limit s _ _. cbn [store_Hosts store]. by rewrite blocked_hosts.
  - reflexivity.
  - vm_compute. reflexivity.
  - reflexivity.
Defined.

End HostManagerWitness.
