(* ===== verification/Slabs.v ===== *)
(** * Slabs (src/slabs/slabs.go, src/slabs/encoding.go)

    Slabs and their sectors, the digest that identifies a slab, the checks of a
    slab that is pinned, and the erasure coding parameters they allow. *)

From S2P Require Import Prelude Float Encoding Stream.

(** ** Data *)

Abbreviation SlabID := N (only parsing).
Abbreviation EncryptionKey := N (only parsing).

(** [Sector]: a sector that lost its host has no host key. *)
Record Sector := mkSector {
  Sec_Root : Hash256; Sec_ContractID : option FileContractID; Sec_HostKey : option PublicKey }.

Record Slab := mkSlab {
  Slab_ID : SlabID; Slab_Version : Z; Slab_EncryptionKey : EncryptionKey; Slab_MinShards : Z;
  Slab_Sectors : list Sector; Slab_PinnedAt : Z }.

Record PinnedSector := mkPinnedSector {
  PS_Root : Hash256; PS_HostKey : PublicKey; PS_UploadedAt : option Z }.

Record SlabPinParams := mkPinParams {
  SP_Version : Z; SP_EncryptionKey : EncryptionKey; SP_MinShards : Z; SP_Sectors : list PinnedSector }.

Record PinnedSlab := mkPinnedSlab {
  PSl_ID : SlabID; PSl_Version : Z; PSl_EncryptionKey : EncryptionKey; PSl_MinShards : Z;
  PSl_Sectors : list PinnedSector }.

(** [SlabSlice] of src/slabs/objects.go *)
Record SlabSlice := mkSlice {
  SS_Version : Z; SS_EncryptionKey : EncryptionKey; SS_MinShards : Z; SS_Sectors : list PinnedSector;
  SS_Offset : Z; SS_Length : Z }.

(** ** Errors *)

Definition ErrSlabNotFound : string := "slab not found".
Definition ErrUnsupportedSlabVersion : string := "unsupported slab version".
Definition ErrInvalidPinParams : string := "invalid slab pin params".
Definition ErrSlabUploadTooOld : string := "slab upload is too old".
Definition ErrSlabUploadInFuture : string := "slab upload time is in the future".

Definition maxTotalShards : Z := 256.
Definition maxSlabVersion : Z := 1.
(** [contracts.UnpinnableSectorThreshold] is three days. *)
Definition MaxSlabUploadAge : Z := 3 * 24 * Hour - 24 * Hour.
Definition MaxSlabUploadSkew : Z := 5 * Minute.

(** ** Digests *)

Section digest.
Context {E : EncoderOps}.

Definition slabDigest_preimage (version minShards : Z) (ec : EncryptionKey) (sectors : list PinnedSector) : list byte :=
  (if (version >? 0)%Z then WriteUint8 version else []) ++
  WriteUint64 minShards ++
  WriteHash ec ++
  concat ((λ s, WriteHash (PS_Root s)) <$> sectors).

Definition slabDigest (version minShards : Z) (ec : EncryptionKey) (sectors : list PinnedSector) : SlabID :=
  Sum (slabDigest_preimage version minShards ec sectors).

Definition SlabPinParams_Digest (s : SlabPinParams) : SlabID :=
  slabDigest (SP_Version s) (SP_MinShards s) (SP_EncryptionKey s) (SP_Sectors s).

Definition SlabSlice_Digest (s : SlabSlice) : SlabID :=
  slabDigest (SS_Version s) (SS_MinShards s) (SS_EncryptionKey s) (SS_Sectors s).

(** The parameters of a slab have the width of their Go types. *)
Definition slab_ok (version minShards : Z) (ec : EncryptionKey) (sectors : list PinnedSector) : Prop :=
  (0 ≤ version < 256)%Z ∧ is_u64 minShards ∧ is_hash ec ∧ Forall (λ s, is_hash (PS_Root s)) sectors.

Context {EL : EncoderLaws E}.

Lemma roots_length sectors : length (concat ((λ s, WriteHash (PS_Root s)) <$> sectors)) = 32 * length sectors.
Proof. induction sectors as [|s l IH]; [done|]. csimpl. rewrite length_app, IH, WriteHash_length. lia. Qed.

(** The part of the preimage after the version. *)
Lemma digest_tail_inj minShards ec sectors minShards' ec' sectors' :
  is_u64 minShards → is_u64 minShards' → is_hash ec → is_hash ec' →
  Forall (λ s, is_hash (PS_Root s)) sectors → Forall (λ s, is_hash (PS_Root s)) sectors' →
  WriteUint64 minShards ++ WriteHash ec ++ concat ((λ s, WriteHash (PS_Root s)) <$> sectors) =
  WriteUint64 minShards' ++ WriteHash ec' ++ concat ((λ s, WriteHash (PS_Root s)) <$> sectors') →
  minShards = minShards' ∧ ec = ec' ∧ PS_Root <$> sectors = PS_Root <$> sectors'.
Proof.
  intros Hm Hm' He He' Hs Hs' H.
  apply WriteUint64_dec in H as [-> H]; [|done..]. apply WriteHash_dec in H as [-> H]; [|done..].
  split_and!; [done..|]. change (λ s, WriteHash (PS_Root s)) with (WriteHash ∘ PS_Root) in H.
  rewrite !list_fmap_compose in H.
  eapply (concat_dec is_hash WriteHash 31); [apply WriteHash_dec|apply WriteHash_length|by apply Forall_fmap..|done].
Qed.

(** The preimage separates slabs, and so does the digest up to collisions. *)
Lemma slabDigest_preimage_inj v m ec ss v' m' ec' ss' :
  slab_ok v m ec ss → slab_ok v' m' ec' ss' → slabDigest_preimage v m ec ss = slabDigest_preimage v' m' ec' ss' →
  v = v' ∧ m = m' ∧ ec = ec' ∧ PS_Root <$> ss = PS_Root <$> ss'.
Proof.
  intros (Hv & Hm & He & Hs) (Hv' & Hm' & He' & Hs') H. unfold slabDigest_preimage in H.
  destruct (Z.gtb_spec v 0) as [Hp|Hz], (Z.gtb_spec v' 0) as [Hp'|Hz']; cbn [app] in H.
  - apply WriteUint8_dec in H as [-> H]; [|lia..]. split; [done|]. by apply digest_tail_inj in H.
  - exfalso. apply (f_equal length) in H.
    rewrite !length_app, !roots_length, WriteUint8_length, !WriteUint64_length, !WriteHash_length in H. lia.
  - exfalso. apply (f_equal length) in H.
    rewrite !length_app, !roots_length, WriteUint8_length, !WriteUint64_length, !WriteHash_length in H. lia.
  - split; [lia|]. by apply digest_tail_inj in H.
Qed.
Lemma slabDigest_inj v m ec ss v' m' ec' ss' :
  slab_ok v m ec ss → slab_ok v' m' ec' ss' → slabDigest v m ec ss = slabDigest v' m' ec' ss' →
  (v = v' ∧ m = m' ∧ ec = ec' ∧ PS_Root <$> ss = PS_Root <$> ss') ∨
  collides (slabDigest_preimage v m ec ss) (slabDigest_preimage v' m' ec' ss').
Proof. intros Ha Hb [H|H]%Sum_inj; [left; by apply slabDigest_preimage_inj|by right]. Qed.
End digest.

(** ** Erasure coding parameters *)

(** [math.Pow(x, float64(n))] of a non-negative integer [n], by repeated
    multiplication. [math.Pow] squares repeatedly; on the base used here, a power
    of two, neither order rounds. *)
Fixpoint math_Pow (x : float64) (n : nat) : float64 :=
  match n with O => of_int 1 | Datatypes.S n => fmul (math_Pow x n) x end.

Definition recoveryProbability : float64 := of_decimal 75 2.
Definition minRecoveryProbability : float64 := of_decimal 9999 2.
Definition minRedundancy : float64 := of_decimal 15 1.
Definition maxRedundancy : float64 := of_int 4.

(** [float64(totalShards-i) / float64(i+1) * (recoveryProbability / q)] *)
Definition term_ratio (q : float64) (totalShards i : Z) : float64 :=
  fmul (fdiv (of_int (totalShards - i)) (of_int (i + 1))) (fdiv recoveryProbability q).

(** [for i := from; i < from + n; i++ { term *= ...; sum += term }] *)
Fixpoint sum_terms (q : float64) (totalShards from : Z) (n : nat) (term sum : float64) : float64 * float64 :=
  match n with
  | O => (term, sum)
  | Datatypes.S n =>
      let term := fmul term (term_ratio q totalShards from) in
      sum_terms q totalShards (from + 1) n term (fadd sum term)
  end.

(** The first loop only multiplies; its sum is dropped. *)
Definition recovery_prob (dataShards totalShards : Z) : float64 :=
  let q := fsub (of_int 1) recoveryProbability in
  let term := math_Pow q (Z.to_nat totalShards) in
  let term := (sum_terms q totalShards 0 (Z.to_nat dataShards) term (of_int 0)).1 in
  let sum := (sum_terms q totalShards dataShards (Z.to_nat (totalShards - dataShards)) term term).2 in
  fmul sum (of_int 100).

Definition ValidateECParams (dataShards totalShards : Z) : option error :=
  if (totalShards >? maxTotalShards)%Z then Some (EMsg "total number of shards %d exceeds maximum of %d")
  else if (dataShards =? 0)%Z then Some (EMsg "data shards cannot be zero")
  else if (totalShards =? 0)%Z then Some (EMsg "total shards cannot be zero")
  else if (dataShards >? totalShards)%Z then Some (EMsg "data shards %d cannot be greater than total shards %d")
  else if (dataShards >? 255)%Z then Some (EMsg "data shards %d exceeds maximum of 255")
  else if (totalShards - dataShards >? 255)%Z then Some (EMsg "parity shards %d exceeds maximum of 255")
  else
    let redundancy := fdiv (of_int totalShards) (of_int dataShards) in
    if flt redundancy minRedundancy then Some (EMsg "redundancy of %0.2f is too low")
    else if flt maxRedundancy redundancy then Some (EMsg "redundancy of %0.2f is too high")
    else if flt (recovery_prob dataShards totalShards) minRecoveryProbability
    then Some (EMsg "not enough redundancy %d-of-%d: recovery probability %0.2f%% is below minimum threshold of %0.2f%%")
    else None.

(** *** The exact rule

    Without floats: the redundancy is between 1.5 and 4, and of the
    [4 ^ totalShards] equally likely outcomes in which a shard is good in three of
    four cases, at least 99.99% have [dataShards] good shards. *)

(** How many of the outcomes of [n] shards have [0, 1, .., n] good shards. *)
Fixpoint outcomes (n : nat) : list Z :=
  match n with
  | O => [1%Z]
  | Datatypes.S n => let l := outcomes n in zip_with Z.add (l ++ [0%Z]) (0%Z :: (Z.mul 3 <$> l))
  end.

Definition good_outcomes (dataShards totalShards : nat) : Z :=
  foldr Z.add 0%Z (drop dataShards (outcomes totalShards)).

Definition ec_params_exact (dataShards totalShards : Z) : bool :=
  ((1 <=? dataShards) && (3 * dataShards <=? 2 * totalShards) && (totalShards <=? 4 * dataShards) &&
   (9999 * 4 ^ totalShards <=? 10000 * good_outcomes (Z.to_nat dataShards) (Z.to_nat totalShards)))%Z.

Definition ec_agrees (dataShards totalShards : Z) : bool :=
  Bool.eqb (bool_decide (ValidateECParams dataShards totalShards = None)) (ec_params_exact dataShards totalShards).

Definition ec_max : nat := 30.

Lemma ec_agrees_all :
  forallb (λ t, forallb (λ d, ec_agrees (Z.of_nat d) (Z.of_nat t)) (seq 0 (t + 1))) (seq 0 (ec_max + 1)) = true.
Proof. vm_compute. reflexivity. Qed.

(** C38. For slabs of up to 30 shards the floating point check of the erasure coding
    parameters decides the exact rule: a redundancy between 1.5 and 4 and a
    probability of at least 99.99% that enough shards survive when each does with
    probability 3/4. Rounding never accepts or rejects wrongly. *)
Theorem ec_params_float_exact (dataShards totalShards : Z) :
  (0 ≤ dataShards)%Z → (0 ≤ totalShards ≤ Z.of_nat ec_max)%Z →
  ValidateECParams dataShards totalShards = None ↔ ec_params_exact dataShards totalShards = true.
Proof.
  intros Hd Ht. destruct (Z.le_gt_cases dataShards totalShards) as [Hle|Hgt].
  - pose proof ec_agrees_all as H. rewrite forallb_forall in H.
    specialize (H (Z.to_nat totalShards)). rewrite forallb_forall in H.
    specialize (λ Hin, H Hin (Z.to_nat dataShards)). unfold ec_agrees in H.
    rewrite !in_seq, !Z2Nat.id in H by lia.
    specialize (H ltac:(unfold ec_max in *; lia) ltac:(lia)). apply eqb_prop in H. rewrite <-H.
    by rewrite bool_decide_eq_true.
  - split; intros H; exfalso.
    + unfold ValidateECParams in H. repeat case_match; try done; lia.
    + unfold ec_params_exact in H. lia.
Qed.

(** ** Validation *)

Definition within_upload_window (now t : Z) : option error :=
  if (t <? now - MaxSlabUploadAge)%Z then Some (EWrap "sector %d invalid: " (ESentinel ErrSlabUploadTooOld) " (max %v)")
  else if (t >? now + MaxSlabUploadSkew)%Z
  then Some (EWrap "sector %d invalid: " (ESentinel ErrSlabUploadInFuture) " (max %v ahead)")
  else None.

(** The loop over the sectors; [hks] is the map of host keys seen. *)
Fixpoint validate_sectors (now : Z) (hks : gset PublicKey) (sectors : list PinnedSector) : option error :=
  match sectors with
  | [] => None
  | sector :: sectors =>
      if (PS_Root sector =? 0)%N then Some (EMsg "sector %d invalid: root is empty")
      else if (PS_HostKey sector =? 0)%N then Some (EMsg "sector %d invalid: host key is empty")
      else if bool_decide (PS_HostKey sector ∈ hks) then Some (EMsg "sector %d is invalid: duplicate host key %q")
      else match PS_UploadedAt sector with
           | Some t => match within_upload_window now t with
                       | Some e => Some e
                       | None => validate_sectors now ({[PS_HostKey sector]} ∪ hks) sectors
                       end
           | None => validate_sectors now ({[PS_HostKey sector]} ∪ hks) sectors
           end
  end.

(** [int(s.MinShards)] of the unsigned [MinShards] *)
Definition SlabPinParams_Validate (s : SlabPinParams) (now : Z) : option error :=
  if (SP_Version s >? maxSlabVersion)%Z then Some (EWrap "" (ESentinel ErrUnsupportedSlabVersion) ": %d")
  else if (SP_EncryptionKey s =? 0)%N then Some (EMsg "encryption key is empty")
  else match ValidateECParams (i64 (SP_MinShards s)) (Z.of_nat (length (SP_Sectors s))) with
       | Some e => Some e
       | None => validate_sectors now ∅ (SP_Sectors s)
       end.

(** A sector that may be pinned at [now]. *)
Definition sector_valid (now : Z) (s : PinnedSector) : Prop :=
  PS_Root s ≠ 0%N ∧ PS_HostKey s ≠ 0%N ∧
  ∀ t, PS_UploadedAt s = Some t → (now - MaxSlabUploadAge ≤ t ≤ now + MaxSlabUploadSkew)%Z.

Lemma within_upload_window_spec now t :
  within_upload_window now t = None ↔ (now - MaxSlabUploadAge ≤ t ≤ now + MaxSlabUploadSkew)%Z.
Proof.
  unfold within_upload_window.
  destruct (Z.ltb_spec t (now - MaxSlabUploadAge)), (Z.gtb_spec t (now + MaxSlabUploadSkew)); naive_solver lia.
Qed.

Lemma validate_sectors_spec now hks sectors :
  validate_sectors now hks sectors = None ↔
  Forall (sector_valid now) sectors ∧ NoDup (PS_HostKey <$> sectors) ∧ Forall (λ s, PS_HostKey s ∉ hks) sectors.
Proof.
  revert hks. induction sectors as [|s l IH]; intros hks; simpl.
  { split; [intros _; split_and!; constructor|done]. }
  rewrite !Forall_cons, NoDup_cons. unfold sector_valid at 1.
  destruct (N.eqb_spec (PS_Root s) 0) as [H1|H1]; [naive_solver|].
  destruct (N.eqb_spec (PS_HostKey s) 0) as [H2|H2]; [naive_solver|].
  case_bool_decide as H3; [naive_solver|].
  assert (Forall (λ s', PS_HostKey s' ∉ {[PS_HostKey s]} ∪ hks) l ↔
          PS_HostKey s ∉ PS_HostKey <$> l ∧ Forall (λ s', PS_HostKey s' ∉ hks) l) as Hset.
  { rewrite list_elem_of_fmap, !Forall_forall. set_solver. }
  destruct (PS_UploadedAt s) as [t|].
  - destruct (within_upload_window now t) as [e|] eqn:Hw.
    + split; [done|]. intros (((_ & _ & Ht) & _) & _). rewrite (proj2 (within_upload_window_spec now t)) in Hw; auto.
    + apply within_upload_window_spec in Hw. rewrite IH, Hset. naive_solver.
  - rewrite IH, Hset. naive_solver.
Qed.

(** A slab may be pinned exactly when its version is known, its key is set, its
    erasure coding parameters are valid, its sectors are on distinct hosts, have a
    root and a host, and were uploaded neither more than two days ago nor more than
    five minutes ahead of the clock. *)
Theorem validate_slab_spec (s : SlabPinParams) (now : Z) :
  SlabPinParams_Validate s now = None ↔
  (SP_Version s ≤ 1)%Z ∧ SP_EncryptionKey s ≠ 0%N ∧
  ValidateECParams (i64 (SP_MinShards s)) (Z.of_nat (length (SP_Sectors s))) = None ∧
  NoDup (PS_HostKey <$> SP_Sectors s) ∧
  ∀ sector, sector ∈ SP_Sectors s →
    PS_Root sector ≠ 0%N ∧ PS_HostKey sector ≠ 0%N ∧
    ∀ t, PS_UploadedAt sector = Some t → (now - 48 * Hour ≤ t ≤ now + 5 * Minute)%Z.
Proof.
  unfold SlabPinParams_Validate, maxSlabVersion.
  destruct (Z.gtb_spec (SP_Version s) 1); [naive_solver lia|].
  destruct (N.eqb_spec (SP_EncryptionKey s) 0); [naive_solver|].
  destruct (ValidateECParams _ _); [naive_solver|].
  rewrite validate_sectors_spec, !Forall_forall. unfold sector_valid.
  change MaxSlabUploadAge with (48 * Hour)%Z. change MaxSlabUploadSkew with (5 * Minute)%Z.
  set_solver.
Qed.

(** ** The slab manager's pinning calls *)

(** The slab part of [Store]. *)
Class SlabStore {S : Type} := {
  store_PinSlabs : N → Z → list SlabPinParams → M S (list SlabID);
  store_UnpinSlab : N → SlabID → M S unit;
  store_Slabs : N → list SlabID → M S (list Slab);
  store_PinnedSlab : N → SlabID → M S PinnedSlab;
  store_SlabIDs : N → Z → Z → M S (list SlabID);
  store_PruneSlabs : N → Z → M S unit;
  store_PruneDeletedSlabs : Z → M S Z }.

Section pin.
Local Open Scope go_scope.
Context {S : Type} {SS : @SlabStore S}.
Variable time_Now : M S Z.

Definition validate_all (now : Z) : list SlabPinParams → option error :=
  fix go l := match l with
  | [] => None
  | s :: l => match SlabPinParams_Validate s now with
              | Some err => Some (EWrap2 (ESentinel ErrInvalidPinParams) ": slab %d: " err)
              | None => go l
              end
  end.

Definition PinSlabs (account : N) (nextIntegrityCheck : Z) (toPin : list SlabPinParams) : M S (list SlabID) :=
  let* now := time_Now in
  match validate_all now toPin with
  | Some err => throw err
  | None => store_PinSlabs account nextIntegrityCheck toPin
  end.

Definition UnpinSlab (account : N) (slabID : SlabID) : M S unit := store_UnpinSlab account slabID.
Definition Slabs (account : N) (slabIDs : list SlabID) : M S (list Slab) := store_Slabs account slabIDs.
Definition GetPinnedSlab (account : N) (slabID : SlabID) : M S PinnedSlab := store_PinnedSlab account slabID.
Definition SlabIDs (account : N) (offset limit : Z) : M S (list SlabID) := store_SlabIDs account offset limit.
Definition PruneSlabs (account : N) (cutoff : Z) : M S unit := store_PruneSlabs account cutoff.

(** [performPruneDeletedSlabs] (src/slabs/manager.go), one element of fuel per
    batch; [None] when the fuel ran out. *)
Fixpoint performPruneDeletedSlabs (ctx_Err : M S (option error)) (fuel : nat) : M S (option unit) :=
  match fuel with
  | O => mret None
  | Datatypes.S fuel =>
      let* e := ctx_Err in
      match e with
      | Some err => throw err
      | None =>
          let* n := wrapM "failed to prune deleted slabs: " (store_PruneDeletedSlabs 100) in
          if (n =? 0)%Z then mret (Some tt) else performPruneDeletedSlabs ctx_Err fuel
      end
  end.

Lemma validate_all_spec now l :
  match validate_all now l with
  | None => ∀ s, s ∈ l → SlabPinParams_Validate s now = None
  | Some e => errors_Is e ErrInvalidPinParams = true ∧ ∃ s, s ∈ l ∧ SlabPinParams_Validate s now ≠ None
  end.
Proof.
  induction l as [|s l IH]; simpl; [by intros s ?%elem_of_nil|].
  destruct (SlabPinParams_Validate s now) as [e|] eqn:Hs.
  - split; [done|]. exists s. split; [left|]. by rewrite Hs.
  - destruct (validate_all now l) as [e|]; [destruct IH as (? & s' & ? & ?); split; [done|]; exists s'; split; [by right|done]|].
    intros s' [->|Hs']%elem_of_cons; auto.
Qed.

(** Pinning is all or nothing: the store is called with all the slabs when each
    is valid at the time the clock was read, and not at all otherwise. *)
Theorem pin_slabs_validates (account : N) (next : Z) (toPin : list SlabPinParams) (s s1 : S) (now : Z) :
  time_Now s = (Ok now, s1) →
  ((∀ p, p ∈ toPin → SlabPinParams_Validate p now = None) ∧
   PinSlabs account next toPin s = store_PinSlabs account next toPin s1) ∨
  (∃ p e, p ∈ toPin ∧ SlabPinParams_Validate p now ≠ None ∧ errors_Is e ErrInvalidPinParams = true ∧
     PinSlabs account next toPin s = (Err e, s1)).
Proof.
  intros Hnow. unfold PinSlabs, bindM, mbind, M_bind. rewrite Hnow.
  pose proof (validate_all_spec now toPin) as H. destruct (validate_all now toPin) as [e|]; [|by left].
  right. destruct H as (He & p & Hp & Hv). by exists p, e.
Qed.

(** The deletion of queued slabs ends when every batch removes slabs from a queue. *)
Lemma prune_deleted_terminates (ctx_Err : M S (option error)) (queued : S → nat) fuel s :
  (∀ s e s', ctx_Err s = (Ok e, s') → queued s' = queued s) →
  (∀ s n s', store_PruneDeletedSlabs 100 s = (Ok n, s') → n = 0%Z ∨ queued s' < queued s) →
  queued s < fuel → (performPruneDeletedSlabs ctx_Err fuel s).1 ≠ Ok None.
Proof.
  intros Hctx Hprune. revert s. induction fuel as [|fuel IH]; intros s Hf; [lia|].
  simpl. unfold bindM, mbind, M_bind. destruct (ctx_Err s) as [[[e|]|e|] s1] eqn:E1; simpl; [done| |done|done].
  apply Hctx in E1. unfold wrapM. destruct (store_PruneDeletedSlabs 100 s1) as [[n|e|] s2] eqn:E2; simpl; [|done..].
  destruct (Z.eqb_spec n 0) as [->|Hn]; [done|]. apply IH. destruct (Hprune _ _ _ E2); lia.
Qed.
End pin.

(** ** Concrete instances *)

Module SlabsWitness.
Definition sectors (n : nat) : list PinnedSector := (λ i, mkPinnedSector (N.of_nat i) (N.of_nat i) (Some 1000%Z)) <$> seq 1 n.
Definition params : SlabPinParams := mkPinParams 1 5 10 (sectors 30).
(** Too few parity shards. *)
Definition bad_params : SlabPinParams := mkPinParams 1 5 20 (sectors 30).

#[local] Instance store : @SlabStore nat := {|
  store_PinSlabs _ _ l := λ s, (Ok (SP_EncryptionKey <$> l), (s + length l)%nat);
  store_UnpinSlab _ _ := mret tt;
  store_Slabs _ _ := λ s, (Ok [], s);
  store_PinnedSlab _ _ := throw (ESentinel ErrSlabNotFound);
  store_SlabIDs _ _ _ := λ s, (Ok [], s);
  store_PruneSlabs _ _ := mret tt;
  store_PruneDeletedSlabs _ := λ s, (Ok 0%Z, s) |}.

Example ec_params_float_exact_witness : ValidateECParams 10 30 = None ∧ ValidateECParams 10 24 ≠ None.
Proof.
  split.
  - apply (ec_params_float_exact 10 30); [lia|unfold ec_max; lia|]. vm_compute. reflexivity.
  - intros H. assert (ec_params_exact 10 24 = true) as He
      by (apply (ec_params_float_exact 10 24); [lia|unfold ec_max; lia|exact H]).
    revert He. vm_compute. congruence.
Defined.

Example pin_slabs_validates_witness :
  ((∀ p, p ∈ [params; bad_params] → SlabPinParams_Validate p 1000 = None) ∧
   PinSlabs (λ s, (Ok 1000%Z, s)) 7 0 [params; bad_params] 0 = store_PinSlabs 7 0 [params; bad_params] 0) ∨
  (∃ p e, p ∈ [params; bad_params] ∧ SlabPinParams_Validate p 1000 ≠ None ∧ errors_Is e ErrInvalidPinParams = true ∧
     PinSlabs (λ s, (Ok 1000%Z, s)) 7 0 [params; bad_params] 0 = (Err e, 0)).
Proof. apply (pin_slabs_validates (λ s, (Ok 1000%Z, s)) 7 0 [params; bad_params] 0 0 1000 eq_refl). Defined.

Example one_is_bad : SlabPinParams_Validate params 1000 = None ∧ SlabPinParams_Validate bad_params 1000 ≠ None.
Proof. vm_compute. split; congruence. Qed.
End SlabsWitness.
