(* ===== verification/Objects.v ===== *)
(** * Objects (src/slabs/objects.go, src/slabs/encoding.go, src/slabs/blocked.go)

    Sealed objects: their identity, their signatures, the checks of the server
    that pins them, and their encoding on the wire. *)

From S2P Require Import Prelude Float Encoding Stream External Slabs.

(** ** Data *)

Abbreviation Signature := N (only parsing).

Record SealedObject := mkSealed {
  SO_EncryptedDataKey : list byte; SO_Slabs : list SlabSlice; SO_DataSignature : Signature;
  SO_EncryptedMetadataKey : list byte; SO_EncryptedMetadata : list byte; SO_MetadataSignature : Signature;
  SO_CreatedAt : Z; SO_UpdatedAt : Z }.

(** [SealedObject{}] *)
Definition no_object : SealedObject := mkSealed [] [] 0 [] [] 0 0 0.

Record ObjectSlab := mkObjectSlab { OS_ID : SlabID; OS_Offset : Z; OS_Length : Z }.

Record PinObjectRequest := mkPinRequest {
  PR_ID : Hash256; PR_EncryptedDataKey : list byte; PR_Slabs : list ObjectSlab; PR_DataSignature : Signature;
  PR_EncryptedMetadataKey : list byte; PR_EncryptedMetadata : list byte; PR_MetadataSignature : Signature }.

Record SharedObject := mkShared { Shared_Slabs : list SlabSlice }.

Record Cursor := mkCursor { After : Z; Cursor_Key : Hash256 }.

Record ObjectEvent := mkEvent {
  OE_Key : Hash256; OE_Deleted : bool; OE_UpdatedAt : Z; OE_Object : option SealedObject }.

Record BlockedObject := mkBlocked { BO_Key : Hash256; BO_Reason : string; BO_CreatedAt : Z }.

Definition MaxMetadataSize : Z := 1024.
Definition ErrInvalidObjectSignature : string := "invalid object signature".
Definition ErrObjectMinimumSlabs : string := "object must have at least one slab".
Definition ErrObjectMetadataLimitExceeded : string := "object metadata size limit (1024) exceeded".

(** [uint64(offset)<<32 | uint64(length)] and back *)
Definition combine_range (offset length : Z) : Z := Z.lor (u64 (Z.shiftl offset 32)) length.
Definition u32 (z : Z) : Z := (z mod 2 ^ 32)%Z.
Definition is_u32 (z : Z) : Prop := (0 ≤ z < 2 ^ 32)%Z.

Lemma combine_range_value offset length :
  is_u32 offset → is_u32 length → combine_range offset length = (offset * 2 ^ 32 + length)%Z.
Proof.
  intros Ho Hl. unfold combine_range, is_u32 in *.
  rewrite Z.shiftl_mul_pow2, u64_id by (unfold is_u64, two64; lia).
  rewrite <-Z.add_lor_land.
  - replace (Z.land (offset * 2 ^ 32) length) with 0%Z; [lia|]. symmetry. apply Z.bits_inj'. intros n Hn.
    rewrite Z.land_spec, Z.bits_0. destruct (Z.lt_ge_cases n 32).
    + rewrite Z.mul_pow2_bits_low by done. done.
    + rewrite (Z.bits_above_log2 length), andb_false_r; [done|lia|].
      destruct (decide (length = 0)%Z) as [->|]; [simpl; lia|]. apply Z.log2_lt_pow2; [lia|].
      apply Z.lt_le_trans with (2 ^ 32)%Z; [lia|]. apply Z.pow_le_mono_r; lia.
Qed.

Lemma combine_range_u64 offset length : is_u32 offset → is_u32 length → is_u64 (combine_range offset length).
Proof. intros. rewrite combine_range_value by done. unfold is_u64, is_u32, two64 in *. lia. Qed.

Lemma combine_range_split offset length :
  is_u32 offset → is_u32 length →
  u32 (Z.shiftr (combine_range offset length) 32) = offset ∧ u32 (combine_range offset length) = length.
Proof.
  intros Ho Hl. rewrite combine_range_value by done. unfold u32, is_u32 in *.
  rewrite Z.shiftr_div_pow2 by lia. split.
  - rewrite Z.div_add_l, (Z.div_small length), Z.add_0_r by lia. by apply Z.mod_small.
  - rewrite Z.add_comm, Z_mod_plus_full. by apply Z.mod_small.
Qed.

Lemma combine_range_inj o l o' l' :
  is_u32 o → is_u32 l → is_u32 o' → is_u32 l' → combine_range o l = combine_range o' l' → o = o' ∧ l = l'.
Proof.
  intros Ho Hl Ho' Hl' H. destruct (combine_range_split o l), (combine_range_split o' l'); try done. split; congruence.
Qed.

(** ** Encoding *)

Section encoding.
Context {E : EncoderOps} {O : StreamOps}.

Definition SlabID_EncodeTo (s : SlabID) : list byte := WriteHash s.
Definition SlabID_DecodeFrom (d : Decoder) : SlabID * Decoder := ReadHash d.

Definition PinnedSector_EncodeTo (ps : PinnedSector) : list byte :=
  WriteHash (PS_Root ps) ++ WriteHash (PS_HostKey ps).

(** The receiver keeps its upload time. *)
Definition PinnedSector_DecodeFrom (ps : PinnedSector) (d : Decoder) : PinnedSector * Decoder :=
  let '(root, d) := ReadHash d in
  let '(hostKey, d) := ReadHash d in
  (mkPinnedSector root hostKey (PS_UploadedAt ps), d).

(** [types.DecodeSlice(d, &sectors)] *)
Definition decode_sectors : Decoder → list PinnedSector * Decoder :=
  DecodeSlice (PinnedSector_DecodeFrom (mkPinnedSector 0 0 None)).

Definition PinnedSlab_EncodeTo (ps : PinnedSlab) : list byte :=
  SlabID_EncodeTo (PSl_ID ps) ++
  WriteUint8 (PSl_Version ps) ++
  WriteHash (PSl_EncryptionKey ps) ++
  WriteUint64 (PSl_MinShards ps) ++
  EncodeSlice PinnedSector_EncodeTo (PSl_Sectors ps).

Definition PinnedSlab_DecodeFrom (d : Decoder) : PinnedSlab * Decoder :=
  let '(id, d) := SlabID_DecodeFrom d in
  let '(version, d) := ReadUint8 d in
  let '(key, d) := ReadHash d in
  let '(minShards, d) := ReadUint64 d in
  let '(sectors, d) := decode_sectors d in
  (mkPinnedSlab id version key minShards sectors, d).

Definition SlabSlice_EncodeTo (s : SlabSlice) : list byte :=
  WriteUint8 (SS_Version s) ++
  WriteHash (SS_EncryptionKey s) ++
  WriteUint8 (SS_MinShards s mod 256) ++
  EncodeSlice PinnedSector_EncodeTo (SS_Sectors s) ++
  WriteUint64 (combine_range (SS_Offset s) (SS_Length s)).

Definition SlabSlice_DecodeFrom (d : Decoder) : SlabSlice * Decoder :=
  let '(version, d) := ReadUint8 d in
  let '(key, d) := ReadHash d in
  let '(minShards, d) := ReadUint8 d in
  let '(sectors, d) := decode_sectors d in
  let '(combined, d) := ReadUint64 d in
  (mkSlice version key minShards sectors (u32 (Z.shiftr combined 32)) (u32 combined), d).

Definition SealedObject_EncodeTo (so : SealedObject) : list byte :=
  WriteBytes (SO_EncryptedDataKey so) ++
  EncodeSlice SlabSlice_EncodeTo (SO_Slabs so) ++
  WriteSignature (SO_DataSignature so) ++
  WriteBytes (SO_EncryptedMetadataKey so) ++
  WriteBytes (SO_EncryptedMetadata so) ++
  WriteSignature (SO_MetadataSignature so) ++
  WriteTime (SO_CreatedAt so) ++
  WriteTime (SO_UpdatedAt so).

Definition SealedObject_DecodeFrom (d : Decoder) : SealedObject * Decoder :=
  let '(dataKey, d) := ReadBytes d in
  let '(slabs, d) := DecodeSlice SlabSlice_DecodeFrom d in
  let '(dataSig, d) := ReadSignature d in
  let '(metaKey, d) := ReadBytes d in
  let '(meta, d) := ReadBytes d in
  let '(metaSig, d) := ReadSignature d in
  let '(created, d) := ReadTime d in
  let '(updated, d) := ReadTime d in
  (mkSealed dataKey slabs dataSig metaKey meta metaSig created updated, d).

Definition MarshalSia (so : SealedObject) : list byte := SealedObject_EncodeTo so.

(** The object and [d.Err()]. *)
Definition UnmarshalSia (b : list byte) : SealedObject * option error :=
  let '(so, d) := SealedObject_DecodeFrom (NewBufDecoder b) in (so, d_Err d).

(** *** Reading back

    What the format keeps: the upload times of sectors are not written, times are
    cut to the second, and the minimum number of shards has one byte. *)

Definition stored_sector (ps : PinnedSector) : PinnedSector := mkPinnedSector (PS_Root ps) (PS_HostKey ps) None.
Definition stored_slice (s : SlabSlice) : SlabSlice :=
  mkSlice (SS_Version s) (SS_EncryptionKey s) (SS_MinShards s mod 256) (stored_sector <$> SS_Sectors s)
    (SS_Offset s) (SS_Length s).
Definition stored_slab (s : PinnedSlab) : PinnedSlab :=
  mkPinnedSlab (PSl_ID s) (PSl_Version s) (PSl_EncryptionKey s) (PSl_MinShards s) (stored_sector <$> PSl_Sectors s).
Definition stored_object (so : SealedObject) : SealedObject :=
  mkSealed (SO_EncryptedDataKey so) (stored_slice <$> SO_Slabs so) (SO_DataSignature so)
    (SO_EncryptedMetadataKey so) (SO_EncryptedMetadata so) (SO_MetadataSignature so)
    (to_second (SO_CreatedAt so)) (to_second (SO_UpdatedAt so)).

(** The fields have the width of their Go types. *)
Definition sector_ok (ps : PinnedSector) : Prop := is_hash (PS_Root ps) ∧ is_hash (PS_HostKey ps).
Definition sectors_ok (l : list PinnedSector) : Prop := int_length l ∧ Forall sector_ok l.
Definition slice_ok (s : SlabSlice) : Prop :=
  (0 ≤ SS_Version s < 256)%Z ∧ is_hash (SS_EncryptionKey s) ∧ sectors_ok (SS_Sectors s) ∧
  is_u32 (SS_Offset s) ∧ is_u32 (SS_Length s).
Definition pinned_slab_ok (s : PinnedSlab) : Prop :=
  is_hash (PSl_ID s) ∧ (0 ≤ PSl_Version s < 256)%Z ∧ is_hash (PSl_EncryptionKey s) ∧ is_u64 (PSl_MinShards s) ∧
  sectors_ok (PSl_Sectors s).
Definition object_ok (so : SealedObject) : Prop :=
  int_length (SO_EncryptedDataKey so) ∧ (int_length (SO_Slabs so) ∧ Forall slice_ok (SO_Slabs so)) ∧
  is_signature (SO_DataSignature so) ∧ int_length (SO_EncryptedMetadataKey so) ∧
  int_length (SO_EncryptedMetadata so) ∧ is_signature (SO_MetadataSignature so) ∧
  is_i64 (Unix (SO_CreatedAt so)) ∧ is_i64 (Unix (SO_UpdatedAt so)).

Context {EL : EncoderLaws E} {SL : StreamLaws O}.

Lemma PinnedSector_back :
  reads_back unread sector_ok stored_sector PinnedSector_EncodeTo (PinnedSector_DecodeFrom (mkPinnedSector 0 0 None)).
Proof.
  intros ps d r (H1 & H2) H. unfold PinnedSector_EncodeTo in H. rewrite <-!app_assoc in H.
  unfold PinnedSector_DecodeFrom. read_field ReadHash_back H; [|done]. read_field ReadHash_back H; [|done]. eauto.
Qed.

Lemma sectors_back :
  reads_back unread sectors_ok (fmap stored_sector) (EncodeSlice PinnedSector_EncodeTo) decode_sectors.
Proof.
  apply (DecodeSlice_back sector_ok); [|apply PinnedSector_back]. intros ps _ H.
  apply (f_equal length) in H. unfold PinnedSector_EncodeTo in H.
  by rewrite length_app, !WriteHash_length in H.
Qed.

Lemma PinnedSlab_back :
  reads_back unread pinned_slab_ok stored_slab PinnedSlab_EncodeTo PinnedSlab_DecodeFrom.
Proof.
  intros s d r (H1 & H2 & H3 & H4 & H5) H. unfold PinnedSlab_EncodeTo, SlabID_EncodeTo in H. rewrite <-!app_assoc in H.
  unfold PinnedSlab_DecodeFrom, SlabID_DecodeFrom.
  read_field ReadHash_back H; [|done]. read_field ReadUint8_back H; [|done]. read_field ReadHash_back H; [|done].
  read_field ReadUint64_back H; [|done]. read_field sectors_back H; [|done]. eauto.
Qed.

Lemma SlabSlice_back : reads_back unread slice_ok stored_slice SlabSlice_EncodeTo SlabSlice_DecodeFrom.
Proof.
  intros s d r (H1 & H2 & H3 & H4 & H5) H. unfold SlabSlice_EncodeTo in H. rewrite <-!app_assoc in H.
  unfold SlabSlice_DecodeFrom.
  read_field ReadUint8_back H; [|done]. read_field ReadHash_back H; [|done].
  read_field ReadUint8_back H; [|apply Z.mod_pos_bound; lia]. read_field sectors_back H; [|done].
  read_field ReadUint64_back H; [|by apply combine_range_u64].
  eexists. split; [|done]. unfold id. by destruct (combine_range_split (SS_Offset s) (SS_Length s) H4 H5) as [-> ->].
Qed.

Lemma SlabSlice_EncodeTo_nonempty s : SlabSlice_EncodeTo s ≠ [].
Proof.
  intros H. apply (f_equal length) in H. unfold SlabSlice_EncodeTo in H.
  by rewrite length_app, WriteUint8_length in H.
Qed.

(** C28. Reading a marshalled object back returns it without an error, with the
    times cut to the second, without the upload times of its sectors and with the
    minimum number of shards of each slab reduced to a byte, which every number
    that [ValidateECParams] accepts fits. *)
Theorem sealed_object_roundtrip (so : SealedObject) :
  object_ok so → UnmarshalSia (MarshalSia so) = (stored_object so, None).
Proof.
  intros (H1 & H2 & H3 & H4 & H5 & H6 & H7 & H8).
  pose proof (unread_new (MarshalSia so)) as H. unfold UnmarshalSia, SealedObject_DecodeFrom.
  rewrite <-(app_nil_r (MarshalSia so)) in H at 2. unfold MarshalSia at 2, SealedObject_EncodeTo in H.
  rewrite <-!app_assoc in H.
  read_field ReadBytes_back H; [|done].
  read_field (DecodeSlice_back slice_ok stored_slice _ _ (λ s _, SlabSlice_EncodeTo_nonempty s) SlabSlice_back) H; [|done].
  read_field ReadSignature_back H; [|done]. read_field ReadBytes_back H; [|done]. read_field ReadBytes_back H; [|done].
  read_field ReadSignature_back H; [|done]. read_field ReadTime_back H; [|done]. read_field ReadTime_back H; [|done].
  by rewrite (unread_err _ _ H).
Qed.
End encoding.

(** ** Identity and signatures *)

(** [errors.Join] of two possibly nil errors *)
Definition errors_Join (a b : option error) : option error :=
  match a, b with
  | None, e | e, None => e
  | Some a, Some b => Some (EJoin a b)
  end.

Section identity.
Context {E : EncoderOps} {O : StreamOps} {G : SigOps}.

(** What [ObjectID] and [pinnedObjectID] write for one slab. *)
Definition object_slab_bytes (id : SlabID) (offset length : Z) : list byte :=
  WriteHash id ++ WriteUint64 (combine_range offset length).

Definition ObjectID_preimage (slabs : list SlabSlice) : list byte :=
  concat ((λ s, object_slab_bytes (SlabSlice_Digest s) (SS_Offset s) (SS_Length s)) <$> slabs).
Definition ObjectID (slabs : list SlabSlice) : Hash256 := Sum (ObjectID_preimage slabs).

Definition pinnedObjectID (slabs : list ObjectSlab) : Hash256 :=
  Sum (concat ((λ s, object_slab_bytes (OS_ID s) (OS_Offset s) (OS_Length s)) <$> slabs)).

Definition data_sig_hash (id : Hash256) (dataKey : list byte) : Hash256 := Sum (WriteHash id ++ Write dataKey).
Definition meta_sig_hash (id : Hash256) (metaKey meta : list byte) : Hash256 :=
  Sum (WriteHash id ++ Write metaKey ++ Write meta).

Definition PR_DataSigHash (pr : PinObjectRequest) : Hash256 := data_sig_hash (PR_ID pr) (PR_EncryptedDataKey pr).
Definition PR_MetaSigHash (pr : PinObjectRequest) : Hash256 :=
  meta_sig_hash (PR_ID pr) (PR_EncryptedMetadataKey pr) (PR_EncryptedMetadata pr).

Definition PR_VerifyDataSignature (pr : PinObjectRequest) (pk : PublicKey) : option error :=
  if negb (VerifyHash pk (PR_DataSigHash pr) (PR_DataSignature pr))
  then Some (EWrap "" (ESentinel ErrInvalidObjectSignature) ": invalid data signature") else None.
Definition PR_VerifyMetadataSignature (pr : PinObjectRequest) (pk : PublicKey) : option error :=
  if negb (VerifyHash pk (PR_MetaSigHash pr) (PR_MetadataSignature pr))
  then Some (EWrap "" (ESentinel ErrInvalidObjectSignature) ": invalid metadata signature") else None.
Definition PR_VerifySignatures (pr : PinObjectRequest) (pk : PublicKey) : option error :=
  errors_Join (PR_VerifyDataSignature pr pk) (PR_VerifyMetadataSignature pr pk).

Definition SharedObject_Size (o : SharedObject) : Z :=
  foldl (λ size ss, u64 (size + SS_Length ss)) 0%Z (Shared_Slabs o).

Definition SO_ID (so : SealedObject) : Hash256 := ObjectID (SO_Slabs so).
Definition SO_DataSigHash (so : SealedObject) : Hash256 := data_sig_hash (SO_ID so) (SO_EncryptedDataKey so).
Definition SO_MetaSigHash (so : SealedObject) : Hash256 :=
  meta_sig_hash (SO_ID so) (SO_EncryptedMetadataKey so) (SO_EncryptedMetadata so).

Definition SO_VerifyDataSignature (so : SealedObject) (pk : PublicKey) : option error :=
  if negb (VerifyHash pk (SO_DataSigHash so) (SO_DataSignature so))
  then Some (EWrap "" (ESentinel ErrInvalidObjectSignature) ": invalid data signature") else None.
Definition SO_VerifyMetadataSignature (so : SealedObject) (pk : PublicKey) : option error :=
  if negb (VerifyHash pk (SO_MetaSigHash so) (SO_MetadataSignature so))
  then Some (EWrap "" (ESentinel ErrInvalidObjectSignature) ": invalid metadata signature") else None.
Definition SO_VerifySignatures (so : SealedObject) (pk : PublicKey) : option error :=
  errors_Join (SO_VerifyDataSignature so pk) (SO_VerifyMetadataSignature so pk).

Definition PinRequest (so : SealedObject) : PinObjectRequest :=
  mkPinRequest (SO_ID so) (SO_EncryptedDataKey so)
    ((λ slab, mkObjectSlab (SlabSlice_Digest slab) (SS_Offset slab) (SS_Length slab)) <$> SO_Slabs so)
    (SO_DataSignature so) (SO_EncryptedMetadataKey so) (SO_EncryptedMetadata so) (SO_MetadataSignature so).

Definition SO_Sign (so : SealedObject) (pk : PrivateKey) : SealedObject :=
  let so := mkSealed (SO_EncryptedDataKey so) (SO_Slabs so) (SignHash pk (SO_DataSigHash so))
              (SO_EncryptedMetadataKey so) (SO_EncryptedMetadata so) (SO_MetadataSignature so)
              (SO_CreatedAt so) (SO_UpdatedAt so) in
  mkSealed (SO_EncryptedDataKey so) (SO_Slabs so) (SO_DataSignature so)
    (SO_EncryptedMetadataKey so) (SO_EncryptedMetadata so) (SignHash pk (SO_MetaSigHash so))
    (SO_CreatedAt so) (SO_UpdatedAt so).

Definition SlabSlice_Pin (s : SlabSlice) : SlabPinParams :=
  mkPinParams (SS_Version s) (SS_EncryptionKey s) (SS_MinShards s) (SS_Sectors s).

Definition SlabPinParams_Slice (s : SlabPinParams) (offset length : Z) : SlabSlice :=
  mkSlice (SP_Version s) (SP_EncryptionKey s) (SP_MinShards s)
    ((λ ps, mkPinnedSector (PS_Root ps) (PS_HostKey ps) None) <$> SP_Sectors s) offset length.

Definition PinnedSlab_Slice (s : PinnedSlab) (offset length : Z) : SlabSlice :=
  mkSlice (PSl_Version s) (PSl_EncryptionKey s) (PSl_MinShards s) (PSl_Sectors s) offset length.

(** The identity the server computes from the request is the client's. *)
Lemma PinRequest_ID so : pinnedObjectID (PR_Slabs (PinRequest so)) = PR_ID (PinRequest so).
Proof. unfold pinnedObjectID, SO_ID, ObjectID. simpl. by rewrite <-list_fmap_compose. Qed.

(** Slicing a slab and pinning the slice keeps its identity. *)
Lemma Slice_Digest s offset length : SlabSlice_Digest (SlabPinParams_Slice s offset length) = SlabPinParams_Digest s.
Proof.
  unfold SlabSlice_Digest, SlabPinParams_Digest, slabDigest, slabDigest_preimage. simpl.
  by rewrite <-list_fmap_compose.
Qed.

Lemma VerifySignatures_PinRequest so pk : PR_VerifySignatures (PinRequest so) pk = SO_VerifySignatures so pk.
Proof. done. Qed.

Lemma SO_Sign_verifies {GL : SigLaws G} so sk : SO_VerifySignatures (SO_Sign so sk) (PublicKeyOf sk) = None.
Proof.
  unfold SO_VerifySignatures, SO_VerifyDataSignature, SO_VerifyMetadataSignature. cbn [SO_DataSignature SO_MetadataSignature SO_Sign].
  change (SO_DataSigHash (SO_Sign so sk)) with (SO_DataSigHash so).
  change (SO_MetaSigHash (SO_Sign so sk)) with (SO_MetaSigHash so). by rewrite !SignHash_verifies.
Qed.

(** *** What the hashes bind *)

Context {EL : EncoderLaws E}.

(** The slices of an object have the width of their Go types. *)
Definition id_ok (s : SlabSlice) : Prop :=
  slab_ok (SS_Version s) (SS_MinShards s) (SS_EncryptionKey s) (SS_Sectors s) ∧ is_u32 (SS_Offset s) ∧ is_u32 (SS_Length s).

Definition slice_preimage (s : SlabSlice) : list byte :=
  slabDigest_preimage (SS_Version s) (SS_MinShards s) (SS_EncryptionKey s) (SS_Sectors s).

(** What is stored under a slice: everything but where the sectors are. *)
Definition slice_content (s : SlabSlice) : Z * Z * EncryptionKey * list Hash256 * Z * Z :=
  (SS_Version s, SS_MinShards s, SS_EncryptionKey s, PS_Root <$> SS_Sectors s, SS_Offset s, SS_Length s).

Lemma object_slab_bytes_length id o l : length (object_slab_bytes id o l) = 40.
Proof. unfold object_slab_bytes. by rewrite length_app, WriteHash_length, WriteUint64_length. Qed.

(** C37. An object's ID commits to its data: two lists of slices with the same ID
    agree, slice by slice, on the slab's version, shards, encryption key and sector
    roots and on the range, or the lists or two of their slabs are a collision of the
    hash function. Only the hosts of the
    sectors, which migrations change, are free. *)
Theorem object_id_binds (a b : list SlabSlice) :
  (∀ h, is_hash (Sum h)) → Forall id_ok a → Forall id_ok b → ObjectID a = ObjectID b →
  slice_content <$> a = slice_content <$> b ∨ collides (ObjectID_preimage a) (ObjectID_preimage b) ∨
  ∃ s t, s ∈ a ∧ t ∈ b ∧ collides (slice_preimage s) (slice_preimage t).
Proof.
  intros Hsum Ha Hb [H|H]%Sum_inj; [|by right; left]. enough (slice_content <$> a = slice_content <$> b ∨
    ∃ s t, s ∈ a ∧ t ∈ b ∧ collides (slice_preimage s) (slice_preimage t)) by tauto. revert b Hb H. unfold ObjectID_preimage. induction Ha as [|s a (Hs & Ho & Hl) Ha IH]; intros b Hb H.
  - destruct b as [|s' b]; [by left|]. csimpl in H. apply (f_equal length) in H.
    by rewrite length_app, object_slab_bytes_length in H.
  - destruct Hb as [|s' b (Hs' & Ho' & Hl') Hb]; csimpl in H.
    { apply (f_equal length) in H. by rewrite length_app, object_slab_bytes_length in H. }
    unfold object_slab_bytes at 1 3 in H. rewrite <-!app_assoc in H.
    apply WriteHash_dec in H as [Hd H]; [|apply Hsum..].
    apply WriteUint64_dec in H as [Hr H]; [|by apply combine_range_u64..].
    apply combine_range_inj in Hr as [Hr1 Hr2]; [|done..].
    apply slabDigest_inj in Hd as [(Hv & Hm & He & Hss)|]; [|right; exists s, s'; split_and!; [left|left|done]|done..].
    destruct (IH b Hb H) as [IH'|(x & y & Hx & Hy & Hxy)]; [left|right; exists x, y; split_and!; [by right|by right|done]]. csimpl. unfold slice_content at 1 3. congruence.
Qed.

(** Signing one object authorises no other data key. *)
Lemma data_sig_hash_binds {SL : StreamLaws O} id key id' key' :
  is_hash id → is_hash id' → data_sig_hash id key = data_sig_hash id' key' → (id = id' ∧ key = key') ∨ collides (WriteHash id ++ Write key) (WriteHash id' ++ Write key').
Proof.
  intros Hi Hi' [H|H]%Sum_inj; [|by right]. left. rewrite !Write_id in H. by apply WriteHash_dec in H.
Qed.

(** The metadata signature does not: the key and the metadata are hashed without
    their lengths, so bytes can be moved from one to the other. *)
Lemma meta_sig_hash_ambiguous {SL : StreamLaws O} id key meta key' meta' :
  key ++ meta = key' ++ meta' → meta_sig_hash id key meta = meta_sig_hash id key' meta'.
Proof. intros H. unfold meta_sig_hash. by rewrite !Write_id, H. Qed.
End identity.

(** ** The slab manager's object calls *)

Class ObjectStore {S : Type} := {
  store_Object : N → Hash256 → M S SealedObject;
  store_DeleteObject : N → Hash256 → M S unit;
  store_PinObject : N → PinObjectRequest → M S unit;
  store_ListObjects : N → Cursor → Z → M S (list ObjectEvent);
  store_SharedObject : Hash256 → M S SharedObject;
  store_BlockObject : Hash256 → string → M S unit;
  store_UnblockObject : Hash256 → M S unit;
  store_BlockedObject : Hash256 → M S BlockedObject;
  store_BlockedObjects : Z → Z → M S (list BlockedObject) }.

Section manager.
Context {E : EncoderOps} {O : StreamOps} {G : SigOps} {S : Type} {OSt : @ObjectStore S}.

Definition GetObject (account : N) (key : Hash256) : M S SealedObject := store_Object account key.
Definition DeleteObject (account : N) (objectKey : Hash256) : M S unit := store_DeleteObject account objectKey.
Definition ListObjects (account : N) (cursor : Cursor) (limit : Z) : M S (list ObjectEvent) :=
  store_ListObjects account cursor limit.
Definition GetSharedObject (key : Hash256) : M S SharedObject := store_SharedObject key.
Definition BlockObject (objectKey : Hash256) (reason : string) : M S unit := store_BlockObject objectKey reason.
Definition UnblockObject (objectKey : Hash256) : M S unit := store_UnblockObject objectKey.
Definition GetBlockedObject (objectKey : Hash256) : M S BlockedObject := store_BlockedObject objectKey.
Definition BlockedObjects (offset limit : Z) : M S (list BlockedObject) := store_BlockedObjects offset limit.

(** An account is the public key of its owner. *)
Definition PinObject (account : N) (obj : PinObjectRequest) : M S unit :=
  if Nat.eqb (length (PR_Slabs obj)) 0 then throw (ESentinel ErrObjectMinimumSlabs)
  else if (Z.of_nat (length (PR_EncryptedMetadata obj)) >? MaxMetadataSize)%Z
  then throw (EWrap "" (ESentinel ErrObjectMetadataLimitExceeded) ": got %d bytes")
  else if negb (pinnedObjectID (PR_Slabs obj) =? PR_ID obj)%N
  then throw (EWrap "" (ESentinel ErrInvalidObjectSignature) ": object ID does not match slabs")
  else match PR_VerifySignatures obj account with
       | Some err => throw err
       | None => store_PinObject account obj
       end.

(** The server pins what its owner signed: the request of an object signed with
    a key is stored under that key's account, provided it has a slab and at most
    1024 bytes of metadata. *)
Theorem pin_signed_object {GL : SigLaws G} (so : SealedObject) (sk : PrivateKey) (s : S) :
  let req := PinRequest (SO_Sign so sk) in
  PinObject (PublicKeyOf sk) req s =
  if bool_decide (SO_Slabs so = []) then (Err (ESentinel ErrObjectMinimumSlabs), s)
  else if (1024 <? Z.of_nat (length (SO_EncryptedMetadata so)))%Z
  then (Err (EWrap "" (ESentinel ErrObjectMetadataLimitExceeded) ": got %d bytes"), s)
  else store_PinObject (PublicKeyOf sk) req s.
Proof.
  intros req. unfold PinObject, req. rewrite PinRequest_ID, N.eqb_refl, VerifySignatures_PinRequest, SO_Sign_verifies.
  cbn [PR_Slabs PinRequest negb PR_EncryptedMetadata]. rewrite length_fmap. unfold MaxMetadataSize. rewrite Z.gtb_ltb.
  cbn [SO_EncryptedMetadata SO_Slabs SO_Sign]. destruct (SO_Slabs so); simpl; [done|]. by destruct (1024 <? _)%Z.
Qed.

(** Whatever reaches the store was checked: the object has a slab, its ID is the
    hash of its slabs, its metadata fits, and both signatures verify against the
    account that stores it. *)
Theorem pin_object_checked (account : N) (obj : PinObjectRequest) (s : S) :
  (PinObject account obj s = store_PinObject account obj s ∧
   PR_Slabs obj ≠ [] ∧ (Z.of_nat (length (PR_EncryptedMetadata obj)) ≤ 1024)%Z ∧
   PR_ID obj = pinnedObjectID (PR_Slabs obj) ∧
   VerifyHash account (data_sig_hash (PR_ID obj) (PR_EncryptedDataKey obj)) (PR_DataSignature obj) = true ∧
   VerifyHash account (meta_sig_hash (PR_ID obj) (PR_EncryptedMetadataKey obj) (PR_EncryptedMetadata obj))
     (PR_MetadataSignature obj) = true) ∨
  ∃ e, PinObject account obj s = (Err e, s).
Proof.
  unfold PinObject.
  destruct (Nat.eqb_spec (length (PR_Slabs obj)) 0) as [|H1]; [right; by eexists|].
  destruct (Z.gtb_spec (Z.of_nat (length (PR_EncryptedMetadata obj))) MaxMetadataSize) as [|H2]; [right; by eexists|].
  destruct (N.eqb_spec (pinnedObjectID (PR_Slabs obj)) (PR_ID obj)) as [H3|]; simpl; [|right; by eexists].
  destruct (PR_VerifySignatures obj account) as [e|] eqn:H4; [right; by eexists|]. left.
  unfold PR_VerifySignatures, PR_VerifyDataSignature, PR_VerifyMetadataSignature, PR_DataSigHash, PR_MetaSigHash in H4.
  destruct (VerifyHash account (data_sig_hash _ _) _), (VerifyHash account (meta_sig_hash _ _ _) _); try done.
  split_and!; try done. by intros H; rewrite H in H1.
Qed.
End manager.

(** ** Concrete instances *)

Module ObjectsWitness.
#[local] Existing Instances SiaEncoding.ops SiaEncoding.laws SiaStream.ops SiaStream.laws TestSig.ops TestSig.laws.

Definition sectors : list PinnedSector := [mkPinnedSector 3 7 (Some 5%Z); mkPinnedSector 4 8 None].
Definition slice : SlabSlice := mkSlice 1 9 1 sectors 64 4096.
Definition key : list byte := String.list_ascii_of_string "key".
Definition object : SealedObject := mkSealed key [slice; slice] 11 key key 12 (63000000000 * Second + 7) (63000000001 * Second).

Example object_fits : object_ok object.
Proof.
  unfold object_ok, slice_ok, sectors_ok, sector_ok.
  repeat match goal with
  | |- _ ∧ _ => split
  | |- Forall _ _ => repeat constructor
  end; vm_compute; intuition congruence.
Defined.

Example sealed_object_roundtrip_witness : UnmarshalSia (MarshalSia object) = (stored_object object, None).
Proof. apply (sealed_object_roundtrip object), object_fits. Defined.

Definition sk : @PrivateKey TestSig.ops := 5%N.

(** The store counts the objects it was asked to pin. *)
#[local] Instance store : @ObjectStore nat := {|
  store_Object _ _ := λ s, (Ok no_object, s);
  store_DeleteObject _ _ := mret tt;
  store_PinObject _ _ := modify Datatypes.S;
  store_ListObjects _ _ _ := λ s, (Ok [], s);
  store_SharedObject _ := λ s, (Ok (mkShared []), s);
  store_BlockObject _ _ := mret tt;
  store_UnblockObject _ := mret tt;
  store_BlockedObject _ := throw (EMsg "object is not blocked");
  store_BlockedObjects _ _ := λ s, (Ok [], s) |}.

Example pin_signed_object_witness :
  (PinObject (PublicKeyOf sk) (PinRequest (SO_Sign object sk)) 0).2 = 1.
Proof. exact (eq_trans (f_equal snd (pin_signed_object object sk 0)) eq_refl). Defined.

(** The hash of the concrete encoding has 32 bytes. *)
Definition small_sum : EncoderOps := {|
  WriteUint8 := SiaEncoding.le 1; WriteUint64 := SiaEncoding.le 8;
  WriteBool b := SiaEncoding.le 1 (if b then 1 else 0);
  WriteHash h := SiaEncoding.le 32 (Z.of_N h);
  WriteString := @WriteString SiaEncoding.ops; WriteTime := @WriteTime SiaEncoding.ops;
  Sum l := (SiaEncoding.checksum l mod 2 ^ 256)%N |}.

#[local] Instance small_sum_laws : EncoderLaws small_sum.
Proof. destruct SiaEncoding.laws. split; assumption. Qed.

Example object_id_binds_witness :
  slice_content <$> [slice] = slice_content <$> [mkSlice 1 9 1 (stored_sector <$> sectors) 64 4096] ∨
  @collides small_sum (@ObjectID_preimage small_sum [slice]) (@ObjectID_preimage small_sum [mkSlice 1 9 1 (stored_sector <$> sectors) 64 4096]) ∨
  ∃ s t, s ∈ [slice] ∧ t ∈ [mkSlice 1 9 1 (stored_sector <$> sectors) 64 4096] ∧ @collides small_sum (@slice_preimage small_sum s) (@slice_preimage small_sum t).
Proof.
  apply (@object_id_binds small_sum _ [slice] [mkSlice 1 9 1 (stored_sector <$> sectors) 64 4096]).
  - intros h. unfold is_hash. apply N.mod_upper_bound. done.
  - repeat constructor; vm_compute; congruence.
  - repeat constructor; vm_compute; congruence.
  - reflexivity.
Defined.

(** Moving a byte from the metadata to its key keeps the signature valid. *)
Example metadata_bytes_move (sk : PrivateKey) (id : Hash256) :
  let pr k m := mkPinRequest id [] [] 0 (String.list_ascii_of_string k) (String.list_ascii_of_string m)
                  (SignHash sk (PR_MetaSigHash (mkPinRequest id [] [] 0 (String.list_ascii_of_string "ab") (String.list_ascii_of_string "cd") 0))) in
  PR_VerifyMetadataSignature (pr "ab" "cd")%string (PublicKeyOf sk) = None ∧
  PR_VerifyMetadataSignature (pr "abc" "d")%string (PublicKeyOf sk) = None.
Proof.
  intros pr. unfold PR_VerifyMetadataSignature, PR_MetaSigHash, pr. cbn [PR_ID PR_EncryptedMetadataKey PR_EncryptedMetadata PR_MetadataSignature].
  rewrite (meta_sig_hash_ambiguous id (String.list_ascii_of_string "abc") (String.list_ascii_of_string "d")
    (String.list_ascii_of_string "ab") (String.list_ascii_of_string "cd") eq_refl).
  by rewrite SignHash_verifies.
Defined.
End ObjectsWitness.
