(* ===== verification/Api.v ===== *)
(** * Requests of the application API and their signatures (src/api/app/auth.go,
    src/api/app/client.go, src/api/options.go)

    An HTTP request as the handlers see it, the parameters that page through
    results, the signature in the URL of a request with the check the server makes
    of it, and the client that signs. *)

From S2P Require Import Prelude Net Text Encoding External Stream.
From Stdlib Require Import Ascii.
From Stdlib Require String.

(** ** Requests and responses *)

(** [http.Request]: the fields the program reads. The query is the decoded list of
    parameters in their order; parameters of the path and the body are decoded by
    the library jape. *)
Record Request := mkRequest {
  rq_Method : string;
  rq_Host : string;
  rq_Path : string;                       (* URL.Path *)
  rq_Query : list (string * string);      (* URL.Query() *)
  rq_Params : list (string * string);     (* parameters of the route *)
  rq_Accept : string;                     (* the Accept header *)
  rq_BasicAuth : option (string * string);
  rq_Body : bytes;
  rq_ReadErr : option error }.            (* the connection fails while the body is read *)

(** What a handler writes: an error with its status, a JSON value, a binary body, or
    nothing. *)
Inductive Response {B : Type} :=
  | RError (status : Z) (err : error)
  | REncode (body : B)
  | RBinary (body : bytes)
  | RNone.
Arguments Response B : clear implicits.

Definition StatusBadRequest : Z := 400.
Definition StatusUnauthorized : Z := 401.
Definition StatusForbidden : Z := 403.
Definition StatusNotFound : Z := 404.
Definition StatusConflict : Z := 409.
Definition StatusGone : Z := 410.
Definition StatusRequestEntityTooLarge : Z := 413.
Definition StatusTooManyRequests : Z := 429.
Definition StatusUnavailableForLegalReasons : Z := 451.
Definition StatusInternalServerError : Z := 500.

(** [q.Get(key)] and [q.Has(key)] of [url.Values]. *)
Fixpoint Query_Get (q : list (string * string)) (key : string) : string :=
  match q with
  | [] => ""
  | (k, v) :: q => if String.eqb k key then v else Query_Get q key
  end.
Definition Query_Has (q : list (string * string)) (key : string) : bool :=
  existsb (λ p, String.eqb p.1 key) q.

Lemma Query_Get_app q q' key : Query_Has q key = false → Query_Get (q ++ q') key = Query_Get q' key.
Proof.
  induction q as [|[k v] q IH]; [done|]. unfold Query_Has. simpl. intros [Hk Hq]%orb_false_iff. rewrite Hk. by apply IH.
Qed.
Lemma Query_Has_app q q' key : Query_Has (q ++ q') key = Query_Has q key || Query_Has q' key.
Proof. apply existsb_app. Qed.

(** ** Pages of results (options.go) *)

Definition defaultLimit : Z := 100.
Definition MaxLimit : Z := 500.
Definition DefaultSlabPruneCutoff : Z := 72 * Hour.
Definition ErrInvalidOffset : error := ESentinel "offset must be non-negative".
Definition ErrInvalidCursor : error := ESentinel "cursor must be non-negative".
Definition ErrInvalidLimit : error := ESentinel "limit must be between 1 and 500".
Definition ErrInvalidSortPair : string := "'sortby' must be a valid field and 'desc' must be a boolean".
Definition ErrMissingSortPair : error := ESentinel "must provide both 'sortby' and 'desc' parameters".

(** The library jape: decoding a value of the query or of the path. A parameter that
    is absent leaves the variable as it was. When it fails, jape has written the
    response. *)
Class JapeOps := {
  DecodeForm_int : Request → string → Z → error + Z;
  DecodeForm_int64 : Request → string → Z → error + Z;
  DecodeForm_string : Request → string → string → error + string;
  DecodeForm_Hash : Request → string → Hash256 → error + Hash256;
  DecodeForm_Time : Request → string → Z → error + Z;
  DecodeParam_Hash : Request → string → error + Hash256;
  DecodeParam_string : Request → string → error + string }.

(** The status and the text of an error response. *)
Abbreviation HttpError := (Z * error)%type (only parsing).

(** A parse that ends with an error response, as an error of a [sum]. *)
Definition checked (A : Type) : Type := HttpError + A.
Definition checked_bind {A B} (c : checked A) (f : A → checked B) : checked B :=
  match c with inl e => inl e | inr a => f a end.
Definition of_jape {A} (r : error + A) : checked A :=
  match r with inl e => inl (StatusBadRequest, e) | inr a => inr a end.

Section options.
Context {J : JapeOps}.

Definition parseLimit (r : Request) : checked Z :=
  checked_bind (of_jape (DecodeForm_int r "limit" defaultLimit)) (λ limit,
    if (limit <? 1)%Z || (MaxLimit <? limit)%Z then inl (StatusBadRequest, ErrInvalidLimit) else inr limit).

Definition ParseOffsetLimit (r : Request) : checked (Z * Z) :=
  checked_bind (of_jape (DecodeForm_int r "offset" 0)) (λ offset,
    if (offset <? 0)%Z then inl (StatusBadRequest, ErrInvalidOffset)
    else checked_bind (parseLimit r) (λ limit, inr (offset, limit))).

Definition ParseCursorLimit (r : Request) : checked (Z * Z) :=
  checked_bind (of_jape (DecodeForm_int64 r "cursor" 0)) (λ cursor,
    if (cursor <? 0)%Z then inl (StatusBadRequest, ErrInvalidCursor)
    else checked_bind (parseLimit r) (λ limit, inr (cursor, limit))).

Lemma ParseOffsetLimit_bounds r offset limit :
  ParseOffsetLimit r = inr (offset, limit) → (0 ≤ offset ∧ 1 ≤ limit ≤ 500)%Z.
Proof.
  unfold ParseOffsetLimit, parseLimit, checked_bind, MaxLimit. destruct (of_jape _) as [|o]; [done|].
  destruct (Z.ltb_spec o 0); [done|]. destruct (of_jape _) as [|l]; [done|].
  destruct (Z.ltb_spec l 1); [done|]. destruct (Z.ltb_spec 500 l); [done|]. intros [= <- <-]. lia.
Qed.

Record SortOption := mkSort { Sort_Field : string; Sort_Descending : bool }.

(** [strconv.ParseBool] *)
Definition ParseBool (s : string) : option bool :=
  if bool_decide (s ∈ ["1"; "t"; "T"; "TRUE"; "true"; "True"]%string) then Some true
  else if bool_decide (s ∈ ["0"; "f"; "F"; "FALSE"; "false"; "False"]%string) then Some false
  else None.

(** The loop over the pairs. *)
Fixpoint sort_options (sortBy sortDesc : list string) : checked (list SortOption) :=
  match sortBy, sortDesc with
  | field :: sortBy, d :: sortDesc =>
      if String.eqb field "" then inl (StatusBadRequest, EWrap "" (ESentinel ErrInvalidSortPair) ": sortby is required")
      else match ParseBool d with
           | None => inl (StatusBadRequest, EWrap "" (ESentinel ErrInvalidSortPair) ": invalid desc value %q")
           | Some desc => checked_bind (sort_options sortBy sortDesc) (λ l, inr (mkSort field desc :: l))
           end
  | _, _ => inr []
  end.

Definition form_values (q : list (string * string)) (key : string) : list string :=
  (filter (λ p, p.1 = key) q).*2.

(** [jc.Request.Form] of a request without a form in its body is the query. *)
Definition ParseSortOptions (r : Request) : checked (list SortOption) :=
  let sortBy := form_values (rq_Query r) "sortby" in
  let sortDesc := form_values (rq_Query r) "desc" in
  if Nat.eqb (length sortBy + length sortDesc) 0 then inr []
  else if negb (Nat.eqb (length sortBy) (length sortDesc)) then inl (StatusBadRequest, ErrMissingSortPair)
  else sort_options sortBy sortDesc.
End options.

(** ** Signed URLs (auth.go) *)

Definition maxRequestSize : Z := Z.shiftl 10 20.

Definition queryParamCredential : string := "sc".
Definition queryParamSignature : string := "ss".
Definition queryParamValidUntil : string := "sv".

(** [time.Unix(sec, 0)]: the seconds since the zero time wrap around like the [int64]
    that holds them. *)
Definition time_Unix (sec : Z) : Z := (i64 (sec + unix_epoch) * Second)%Z.

(** The text of [http.MaxBytesError]. *)
Definition MaxBytesError : string := "http: request body too large".

(** [io.ReadAll(r.Body)] behind [maxBytesMiddleware]. *)
Definition ReadAll (r : Request) : result bytes :=
  if (maxRequestSize <? Z.of_nat (length (rq_Body r)))%Z then Err (ESentinel MaxBytesError)
  else match rq_ReadErr r with Some e => Err e | None => Ok (rq_Body r) end.

Definition isSignedRequest (r : Request) : bool :=
  Query_Has (rq_Query r) queryParamCredential && Query_Has (rq_Query r) queryParamSignature && Query_Has (rq_Query r) queryParamValidUntil.

(** A fixed-size array decoded from base64; [Decode] panics when the text has more
    bytes than the array. *)
Definition parse_array (size : nat) (what : string) (text : string) : result N :=
  match b64_Decode size (bytes_of text) with
  | Ok b => if Nat.eqb (length b) size then Ok (of_be b) else Err (EMsg ("invalid " +:+ what +:+ " length: expected %d bytes"))
  | Err _ => Err (EMsg ("invalid base64 encoding for " +:+ what))
  | Panic => Panic
  end.

Definition parseCredential (r : Request) : result PublicKey := parse_array 32 "credential" (Query_Get (rq_Query r) queryParamCredential).
Definition parseSignature (r : Request) : result N := parse_array 64 "signature" (Query_Get (rq_Query r) queryParamSignature).

Definition parseValidUntil (r : Request) : result Z :=
  match Atoi (bytes_of (Query_Get (rq_Query r) queryParamValidUntil)) with
  | Ok ts => Ok (time_Unix ts)
  | _ => Err (EMsg "invalid timestamp %q, must be a unix timestamp")
  end.

Lemma bytes_string b : bytes_of (string_of b) = b.
Proof. apply String.list_ascii_of_string_of_list_ascii. Qed.

Definition array_text (size : nat) (n : N) : string := string_of (b64_EncodeToString (be size n)).

Lemma parse_array_text size what n : (n < 256 ^ N.of_nat size)%N → parse_array size what (array_text size n) = Ok n.
Proof.
  intros Hn. unfold parse_array, array_text. rewrite bytes_string, b64_roundtrip by (by rewrite length_be).
  by rewrite length_be, Nat.eqb_refl, of_be_be.
Qed.

Section signed.
Local Open Scope go_scope.
Context {E : EncoderOps} {O : StreamOps} {G : SigOps}.

Definition requestHash_preimage (method hostname path : string) (validUntil : Z) (body : bytes) : list byte :=
  Write (bytes_of method) ++ Write (bytes_of hostname) ++ Write (bytes_of path) ++ WriteUint64 (u64 (Unix validUntil)) ++ Write body.

(** A nil body writes nothing, like an empty one. *)
Definition requestHash (method hostname path : string) (validUntil : Z) (body : bytes) : Hash256 :=
  Sum (requestHash_preimage method hostname path validUntil body).

Section server.
Context {S : Type}.
Variable time_Now : M S Z.

Definition unauthorized (text : string) : HttpError := (StatusUnauthorized, EMsg text).

(** The result: an error response that was written, or the key. *)
Definition ValidateURLSignature (r : Request) (hostname : string) : M S (checked PublicKey) :=
  match ReadAll r with
  | Err e => if errors_Is e MaxBytesError then mret (inl (StatusRequestEntityTooLarge, EMsg "request body too large"))
             else mret (inl (unauthorized "failed to read request body"))
  | Panic => panic
  | Ok buf =>
      if negb (isSignedRequest r) then mret (inl (unauthorized "missing required query parameters: %q, %q, %q"))
      else match parseValidUntil r with
      | Err e => mret (inl (unauthorized "invalid %q parameter: %v"))
      | Panic => panic
      | Ok ts =>
          match parseCredential r with
          | Err e => mret (inl (unauthorized "invalid %q parameter: %v"))
          | Panic => panic
          | Ok pk =>
              match parseSignature r with
              | Err e => mret (inl (unauthorized "invalid %q parameter: %v"))
              | Panic => panic
              | Ok sig =>
                  let* now := time_Now in
                  if (ts <? now)%Z || negb (VerifyHash pk (requestHash (rq_Method r) hostname (rq_Path r) ts buf) sig)
                  then mret (inl (unauthorized "invalid signature for %q host %q"))
                  else mret (inr pk)
              end
          end
      end
  end.
End server.

(** *** The client (client.go) *)

Record URL := mkURL { u_Host : string; u_Path : string; u_Query : list (string * string) }.

(** [sign] after [url.Parse]: the URL with the parameters of the signature added to
    its query. *)
Definition sign (appKey : PrivateKey) (validUntil : Z) (method : string) (u : URL) (requestBuf : bytes) : URL :=
  let sigHash := requestHash method (u_Host u) (u_Path u) validUntil requestBuf in
  let pk := PublicKeyOf appKey in
  let sig := SignHash appKey sigHash in
  mkURL (u_Host u) (u_Path u) (u_Query u ++
    [(queryParamValidUntil, string_of (FormatInt (Unix validUntil)));
     (queryParamCredential, array_text 32 pk);
     (queryParamSignature, array_text 64 sig)]).

(** The request the server receives when the client calls a URL. *)
Definition received (method : string) (u : URL) (params : list (string * string)) (accept : string) (body : bytes) : Request :=
  mkRequest method (u_Host u) (u_Path u) (u_Query u) params accept None body None.

(** *** What the signature is worth *)

(** The methods of net/http. *)
Definition http_methods : list string := ["GET"; "HEAD"; "POST"; "PUT"; "PATCH"; "DELETE"; "CONNECT"; "OPTIONS"; "TRACE"]%string.

Context {EL : EncoderLaws E} {SL : StreamLaws O}.

Lemma methods_prefix_free a b x y :
  a ∈ http_methods → b ∈ http_methods → bytes_of a ++ x = bytes_of b ++ y → a = b.
Proof.
  unfold http_methods. intros Ha Hb H.
  repeat (apply elem_of_cons in Ha as [->|Ha]; [repeat (apply elem_of_cons in Hb as [->|Hb]; [done|]); by apply elem_of_nil in Hb|]).
  by apply elem_of_nil in Ha.
Qed.

Lemma u64_Unix_time_Unix t : is_i64 (Unix t) → u64 (Unix (time_Unix (Unix t))) = u64 (Unix t).
Proof.
  intros Ht. unfold time_Unix, Unix at 1. rewrite Z.div_mul by done. unfold u64, i64.
  set (x := (Unix t + unix_epoch + two63)%Z). rewrite (Z.mod_eq x two64) by done.
  replace (x - two64 * (x / two64) - two63 - unix_epoch)%Z with (Unix t + - (x / two64) * two64)%Z by (unfold x; lia).
  by rewrite Z.mod_add.
Qed.

Lemma time_Unix_ok t : is_i64 (t / Second) → time_Unix (Unix t) = to_second t.
Proof.
  intros Ht. unfold time_Unix, Unix, to_second. replace (t / Second - unix_epoch + unix_epoch)%Z with (t / Second)%Z by lia.
  by rewrite i64_id.
Qed.

(** Two requests to the same host with the same hash: the method is the same, and so
    are the path, the expiration and the body, if the paths or the bodies have the
    same length. *)
Lemma hash_determines hostname m m' p p' t t' body body' :
  m ∈ http_methods → m' ∈ http_methods → is_i64 (Unix t) → is_i64 (Unix t') →
  requestHash m hostname p t body = requestHash m' hostname p' t' body' →
  collides (requestHash_preimage m hostname p t body) (requestHash_preimage m' hostname p' t' body') ∨ m = m' ∧
    (length (bytes_of p) = length (bytes_of p') ∨ length body = length body' →
     p = p' ∧ Unix t = Unix t' ∧ body = body').
Proof.
  intros Hm Hm' Ht Ht' [H|H]%Sum_inj; [right|by left]. unfold requestHash_preimage in H. rewrite !Write_id in H.
  pose proof (methods_prefix_free _ _ _ _ Hm Hm' H) as <-. split; [done|]. intros Hlen.
  apply app_inv_head in H. apply app_inv_head in H.
  assert (length (bytes_of p) = length (bytes_of p')) as Hp.
  { destruct Hlen as [|Hb]; [done|]. apply (f_equal length) in H. rewrite !length_app, !WriteUint64_length in H. lia. }
  apply app_inj_1 in H as [Hpp H]; [|done]. apply WriteUint64_dec in H as [Hu Hb]; [|apply u64_range..].
  split_and!; [|by apply u64_inj_i64|done].
  rewrite <-(String.string_of_list_ascii_of_string p), <-(String.string_of_list_ascii_of_string p').
  unfold bytes_of in Hpp. by rewrite Hpp.
Qed.

Section accepted.
Context {S : Type} {GL : SigLaws G}.
Variable time_Now : M S Z.

(** The requests that are accepted at the time [now], as those of [pk]. *)
Definition url_ok (r : Request) (hostname : string) (now : Z) (pk : PublicKey) : Prop :=
  (Z.of_nat (length (rq_Body r)) ≤ maxRequestSize)%Z ∧ rq_ReadErr r = None ∧ isSignedRequest r = true ∧
  ∃ ts sig, parseValidUntil r = Ok ts ∧ parseCredential r = Ok pk ∧ parseSignature r = Ok sig ∧
    (now ≤ ts)%Z ∧ VerifyHash pk (requestHash (rq_Method r) hostname (rq_Path r) ts (rq_Body r)) sig = true.

Lemma ValidateURLSignature_accepts r hostname s pk s' :
  ValidateURLSignature time_Now r hostname s = (Ok (inr pk), s') →
  ∃ now, time_Now s = (Ok now, s') ∧ url_ok r hostname now pk.
Proof.
  unfold ValidateURLSignature, ReadAll, url_ok. destruct (Z.ltb_spec maxRequestSize (Z.of_nat (length (rq_Body r)))); [done|].
  destruct (rq_ReadErr r) as [e|]; [by destruct (errors_Is _ _)|]. destruct (isSignedRequest r); [|done]. cbn [negb].
  destruct (parseValidUntil r) as [ts|e|]; [|done..]. destruct (parseCredential r) as [k|e|]; [|done..].
  destruct (parseSignature r) as [sig|e|]; [|done..]. intros (now & s1 & Hn & Hr)%bindM_ok.
  destruct (Z.ltb_spec ts now); [done|]. destruct (VerifyHash _ _ _) eqn:Hv; [|done]. injection Hr as -> ->.
  exists now. split; [done|]. split_and!; [lia|done..|]. by exists ts, sig.
Qed.

Lemma ValidateURLSignature_ok r hostname s s' now pk :
  url_ok r hostname now pk → time_Now s = (Ok now, s') → ValidateURLSignature time_Now r hostname s = (Ok (inr pk), s').
Proof.
  intros (Hl & He & Hs & ts & sig & Ht & Hc & Hg & Hle & Hv) Hn. unfold ValidateURLSignature, ReadAll.
  destruct (Z.ltb_spec maxRequestSize (Z.of_nat (length (rq_Body r)))); [lia|]. rewrite He, Hs, Ht, Hc, Hg. cbn [negb].
  unfold bindM, mbind, M_bind. cbv beta. rewrite Hn, Hv. by destruct (Z.ltb_spec ts now); [lia|].
Qed.

(** What is written when the request is rejected. *)
Lemma ValidateURLSignature_status r hostname s status e s' :
  ValidateURLSignature time_Now r hostname s = (Ok (inl (status, e)), s') →
  status = StatusUnauthorized ∨ status = StatusRequestEntityTooLarge.
Proof.
  unfold ValidateURLSignature, unauthorized. destruct (ReadAll r) as [buf|e'|]; [|destruct (errors_Is _ _); intros [= <- _ _]; auto|done].
  destruct (isSignedRequest r); simpl negb; cbv iota; [|intros [= <- _ _]; auto].
  destruct (parseValidUntil r) as [ts|e'|]; [|intros [= <- _ _]; auto|done].
  destruct (parseCredential r) as [k|e'|]; [|intros [= <- _ _]; auto|done].
  destruct (parseSignature r) as [sig|e'|]; [|intros [= <- _ _]; auto|done]. intros (now & s1 & _ & H)%bindM_ok.
  destruct (_ || _); [|done]. injection H as <- _ _. auto.
Qed.

(** The query that [sign] leaves. *)
Lemma sign_query appKey validUntil method u body :
  Query_Has (u_Query u) queryParamCredential = false → Query_Has (u_Query u) queryParamSignature = false →
  Query_Has (u_Query u) queryParamValidUntil = false →
  let q := u_Query (sign appKey validUntil method u body) in
  Query_Get q queryParamValidUntil = string_of (FormatInt (Unix validUntil)) ∧
  Query_Get q queryParamCredential = array_text 32 (PublicKeyOf appKey) ∧
  Query_Get q queryParamSignature = array_text 64 (SignHash appKey (requestHash method (u_Host u) (u_Path u) validUntil body)) ∧
  Query_Has q queryParamCredential && Query_Has q queryParamSignature && Query_Has q queryParamValidUntil = true.
Proof.
  intros H1 H2 H3 q. unfold q, sign. cbn [u_Query]. rewrite !Query_Get_app, !Query_Has_app by done. rewrite H1, H2, H3. done.
Qed.

(** The server accepts what the client signs: a request to the host's own name,
    signed by a key, is that key's until the second the signature ends, and rejected
    from then on. *)
Theorem signed_url_accepted (appKey : PrivateKey) (validUntil : Z) (method : string) (u : URL)
    (params : list (string * string)) (accept : string) (body : bytes) (s s1 : S) (now : Z) :
  is_i64 (validUntil / Second) → is_i64 (Unix validUntil) →
  is_hash (PublicKeyOf appKey) → is_signature (SignHash appKey (requestHash method (u_Host u) (u_Path u) validUntil body)) →
  (Z.of_nat (length body) ≤ maxRequestSize)%Z →
  Query_Has (u_Query u) queryParamCredential = false → Query_Has (u_Query u) queryParamSignature = false →
  Query_Has (u_Query u) queryParamValidUntil = false →
  time_Now s = (Ok now, s1) →
  let r := received method (sign appKey validUntil method u body) params accept body in
  ((now ≤ to_second validUntil)%Z → ValidateURLSignature time_Now r (u_Host u) s = (Ok (inr (PublicKeyOf appKey)), s1)) ∧
  ((to_second validUntil < now)%Z →
     ValidateURLSignature time_Now r (u_Host u) s = (Ok (inl (unauthorized "invalid signature for %q host %q")), s1)).
Proof.
  intros Ht Hu Hk Hs Hb H1 H2 H3 Hn r. destruct (sign_query appKey validUntil method u body H1 H2 H3) as (Qt & Qc & Qs & Qh).
  assert (parseValidUntil r = Ok (to_second validUntil)) as Pt.
  { unfold parseValidUntil, r, received. cbn [rq_Query]. rewrite Qt, bytes_string, Atoi_FormatInt by done. by rewrite time_Unix_ok. }
  assert (parseCredential r = Ok (PublicKeyOf appKey)) as Pc.
  { unfold parseCredential, r, received. cbn [rq_Query]. rewrite Qc. by apply parse_array_text. }
  assert (parseSignature r = Ok (SignHash appKey (requestHash method (u_Host u) (u_Path u) validUntil body))) as Ps.
  { unfold parseSignature, r, received. cbn [rq_Query]. rewrite Qs. by apply parse_array_text. }
  assert (requestHash (rq_Method r) (u_Host u) (rq_Path r) (to_second validUntil) (rq_Body r) =
          requestHash method (u_Host u) (u_Path u) validUntil body) as Hh.
  { unfold requestHash, requestHash_preimage, r, received. cbn [rq_Method rq_Path rq_Body sign u_Path].
    by rewrite <-(time_Unix_ok validUntil), u64_Unix_time_Unix by done. }
  split; intros Hle.
  - apply (ValidateURLSignature_ok _ _ _ _ now); [|done]. split_and!; [done..|]. eexists _, _.
    split_and!; [done..|]. rewrite Hh. apply SignHash_verifies.
  - unfold ValidateURLSignature, ReadAll. change (rq_Body r) with body. change (rq_ReadErr r) with (@None error).
    destruct (Z.ltb_spec maxRequestSize (Z.of_nat (length body))); [lia|]. rewrite Pt, Pc, Ps.
    change (isSignedRequest r) with (Query_Has (rq_Query r) queryParamCredential && Query_Has (rq_Query r) queryParamSignature &&
      Query_Has (rq_Query r) queryParamValidUntil). change (rq_Query r) with (u_Query (sign appKey validUntil method u body)).
    rewrite Qh. cbn [negb]. unfold bindM, mbind, M_bind. cbv beta. rewrite Hn. destruct (Z.ltb_spec (to_second validUntil) now); [done|lia].
Qed.

(** C30. A signed URL is worth what its hash binds: if a request is accepted with a
    signature that was made for another one at the same host, the methods are the
    same, and when the bodies have the same length - for every request without a body -
    or the paths do, the path, the expiration and the body are the signed ones. Else
    the two requests are a collision of the hash function, or the signature of the
    one's hash verifies for the other's. *)
Theorem request_hash_binds (r : Request) (hostname method path : string) (validUntil : Z) (body : bytes)
    (appKey : PrivateKey) (s s' : S) :
  method ∈ http_methods → rq_Method r ∈ http_methods → is_i64 (Unix validUntil) →
  (∀ ts, parseValidUntil r = Ok ts → is_i64 (Unix ts)) →
  parseSignature r = Ok (SignHash appKey (requestHash method hostname path validUntil body)) →
  ValidateURLSignature time_Now r hostname s = (Ok (inr (PublicKeyOf appKey)), s') →
  (∃ ts, parseValidUntil r = Ok ts ∧
     let made := requestHash method hostname path validUntil body in
     let got := requestHash (rq_Method r) hostname (rq_Path r) ts (rq_Body r) in
     collides (requestHash_preimage method hostname path validUntil body) (requestHash_preimage (rq_Method r) hostname (rq_Path r) ts (rq_Body r)) ∨
     made ≠ got ∧ VerifyHash (PublicKeyOf appKey) got (SignHash appKey made) = true) ∨
  rq_Method r = method ∧
  (length (rq_Body r) = length body ∨ length (bytes_of (rq_Path r)) = length (bytes_of path) →
   rq_Path r = path ∧ rq_Body r = body ∧ ∃ ts, parseValidUntil r = Ok ts ∧ Unix ts = Unix validUntil).
Proof.
  intros Hm Hm' Hv Hts Hsig H. apply ValidateURLSignature_accepts in H as (now & _ & _ & _ & _ & ts & sig & Ht & _ & Hg & _ & Hver).
  rewrite Hsig in Hg. injection Hg as <-. specialize (Hts ts Ht).
  destruct (decide (requestHash method hostname path validUntil body = requestHash (rq_Method r) hostname (rq_Path r) ts (rq_Body r))) as [Heq|Hne].
  - destruct (hash_determines _ _ _ _ _ _ _ _ _ Hm Hm' Hv Hts Heq) as [?|[<- Hrest]]; [left; exists ts; split; [done|by left]|]. right.
    split; [done|]. intros Hlen. destruct Hrest as (-> & Hu & ->); [destruct Hlen; auto|]. split_and!; [done..|]. by exists ts.
  - left. exists ts. split; [done|]. by right.
Qed.
End accepted.
End signed.

(** ** Concrete instances *)

Module ApiWitness.
#[local] Existing Instances SiaEncoding.ops SiaEncoding.laws SiaStream.ops SiaStream.laws TestSig.ops TestSig.laws.

Definition sk : @PrivateKey TestSig.ops := 5%N.
Definition clock : M Z Z := λ t, (Ok t, t).
Definition url : URL := mkURL "indexer" "/slabs" [("limit", "10")].
Definition until : Z := (unix_epoch + 1000) * Second + 7.
Definition signed : URL := sign sk until "POST" url (bytes_of "[]").
Definition request : Request := received "POST" signed [] "" (bytes_of "[]").

Example signed_url_accepted_witness : ValidateURLSignature clock request "indexer" 0%Z = (Ok (inr 5%N), 0%Z).
Proof.
  refine (proj1 (signed_url_accepted clock sk until "POST" url [] "" (bytes_of "[]") 0%Z 0%Z 0%Z _ _ _ _ _ eq_refl eq_refl eq_refl eq_refl) _);
    vm_compute; intuition congruence.
Defined.

Example request_hash_binds_witness : rq_Path request = "/slabs"%string.
Proof.
  assert (∀ ts, parseValidUntil request = Ok ts → ts = ((unix_epoch + 1000) * Second)%Z) as Hparse.
  { intros ts Hts. vm_compute in Hts. apply (f_equal (λ r, match r with Ok t => t | _ => 0%Z end)) in Hts. cbv beta iota in Hts. subst ts. by vm_compute. }
  destruct (request_hash_binds clock request "indexer" "POST" "/slabs" until (bytes_of "[]") sk 0%Z 0%Z) as [(ts & Hts%Hparse & [[Hne _]|[Hne _]])|[_ H]].
  - right; right; left.
  - right; right; left.
  - vm_compute. intuition congruence.
  - intros ts ->%Hparse. vm_compute. intuition congruence.
  - vm_compute. reflexivity.
  - vm_compute. reflexivity.
  - exfalso. apply Hne. subst ts. vm_compute. reflexivity.
  - exfalso. apply Hne. subst ts. vm_compute. reflexivity.
  - apply H. left. reflexivity.
Defined.

(** A body of at least eight bytes can give its first eight to the expiration, when
    the signed expiration goes to the path. *)
Example path_takes_expiration :
  let t := (unix_epoch * Second)%Z in
  requestHash "POST" "indexer" "/slabs" t (replicate 8 "a"%char ++ bytes_of "[]") =
  requestHash "POST" "indexer" ("/slabs" ++ string_of (replicate 8 Ascii.zero)) (time_Unix 7016996765293437281) (bytes_of "[]").
Proof. vm_compute. reflexivity. Qed.

(** A credential of 44 characters without padding is longer than a key: the handler
    panics. *)
Example long_credential_panics :
  ValidateURLSignature clock
    (mkRequest "GET" "indexer" "/account"
       [("sc", string_of (replicate 44 "A"%char)); ("ss", ""); ("sv", "1")] [] "" None [] None)%string "indexer" 0%Z = (Panic, 0%Z).
Proof. vm_compute. reflexivity. Qed.
End ApiWitness.
