(* ===== verification/HostQueue.v ===== *)
(** * Ranking hosts (src/client/v2/hostqueue.go)

    The RHP client ranks hosts by failure rate and throughput and spreads
    concurrent transfers over them: the moving averages, the comparison of two
    hosts, the picks that reserve a transfer slot, and the queue of hosts with
    retries. Every method of [Provider] is one critical section, so it is one step
    on the provider; [Value] also stores the decayed rate, which the next reading
    would compute again, and that write is left out. Within a critical section the
    clock is read once. *)

From S2P Require Import Prelude Float Order Hosts.

(** ** Averages *)

Definition emaAlpha : float64 := of_decimal 2 1.
Definition failureRateHalfLife : Z := Minute.
Definition failureRateZeroThreshold : float64 := of_decimal 1 2.
Definition settingsPayloadSize : Z := 270.
Definition defaultReadThroughput : float64 := of_int (2 ^ 20).
(** the untyped constant [(1 << 22) / 5], an integer division *)
Definition defaultWriteThroughput : float64 := of_int (2 ^ 22 / 5).
Definition minThroughputSampleBytes : Z := 2 ^ 16.

(** [emaAlpha*v + (1.0-emaAlpha)*old]; the constant [1.0-emaAlpha] is 0.8. *)
Definition ema (v old : float64) : float64 := fadd (fmul emaAlpha v) (fmul (of_decimal 8 1) old).

Record rpcAverage := mkAverage { ra_value : float64; ra_init : bool }.
Definition no_average : rpcAverage := mkAverage (of_int 0) false.

Definition ra_AddSample (ra : rpcAverage) (v : float64) : rpcAverage :=
  if negb (ra_init ra) then mkAverage v true else mkAverage (ema v (ra_value ra)) true.
Definition ra_Value (ra : rpcAverage) : float64 * bool := (ra_value ra, ra_init ra).

Record failureRate := mkRate { fr_value : float64; fr_init : bool; lastDecay : Z }.
Definition no_rate : failureRate := mkRate (of_int 0) false 0.

Definition decay (fr : failureRate) (now : Z) : failureRate :=
  if negb (fr_init fr) then fr
  else
    let halfLives := Z.quot (time_Sub now (lastDecay fr)) failureRateHalfLife in
    mkRate (SFldexp 53 1024 (fr_value fr) (- halfLives)) true (lastDecay fr + i64 (halfLives * failureRateHalfLife)).

Definition fr_AddSample (fr : failureRate) (success : bool) (now : Z) : failureRate :=
  let sample := if success then of_int 0 else of_int 1 in
  if negb (fr_init fr) then mkRate sample true now
  else
    let fr := decay fr now in
    mkRate (ema sample (fr_value fr)) true (lastDecay fr).

Definition fr_Value (fr : failureRate) (now : Z) : float64 :=
  let fr := decay fr now in
  if flt (fr_value fr) failureRateZeroThreshold then of_int 0 else fr_value fr.

(** ** Metrics *)

Record hostMetric := mkMetric {
  rpcWriteAverage : rpcAverage; rpcReadAverage : rpcAverage; rpcFailRate : failureRate;
  inflightReads : Z; inflightWrites : Z }.
(** [&hostMetric{}] *)
Definition no_metric : hostMetric := mkMetric no_average no_average no_rate 0 0.

Definition combinedThroughput (hm : hostMetric) : float64 * bool :=
  let '(r, rok) := ra_Value (rpcReadAverage hm) in
  let '(w, wok) := ra_Value (rpcWriteAverage hm) in
  if rok && wok then (fdiv (fadd r w) (of_int 2), true)
  else if rok then (r, true)
  else if wok then (w, true)
  else (of_int 0, false).

Definition inflight (hm : hostMetric) : Z := i64 (inflightReads hm + inflightWrites hm).

Record Provider := mkProvider {
  metrics : gmap PublicKey hostMetric;
  globalReadThroughput : rpcAverage;
  globalWriteThroughput : rpcAverage }.

(** [NewProvider] *)
Definition NewProvider : Provider := mkProvider ∅ no_average no_average.

(** [metric] and an update of what it points to *)
Definition with_metric (p : Provider) (hostKey : PublicKey) (f : hostMetric → hostMetric) : Provider :=
  let m := default no_metric (metrics p !! hostKey) in
  mkProvider (<[hostKey := f m]> (metrics p)) (globalReadThroughput p) (globalWriteThroughput p).

Definition cmpMetrics (p : Provider) (now : Z) (a b : PublicKey) : Z :=
  match metrics p !! a, metrics p !! b with
  | None, None => 0
  | None, Some _ => -1
  | Some _, None => 1
  | Some am, Some bm =>
      let c := float_Compare (fr_Value (rpcFailRate am) now) (fr_Value (rpcFailRate bm) now) in
      if negb (c =? 0)%Z then c
      else
        let '(at_, asampled) := combinedThroughput am in
        let '(bt, bsampled) := combinedThroughput bm in
        if negb asampled && negb bsampled then int_Compare (inflight am) (inflight bm)
        else if negb asampled then -1
        else if negb bsampled then 1
        else
          let aw := fdiv at_ (of_int (i64 (inflight am + 1))) in
          let bw := fdiv bt (of_int (i64 (inflight bm + 1))) in
          float_Compare bw aw
  end.

Definition sortHosts (p : Provider) (now : Z) (hosts : list PublicKey) : list PublicKey :=
  SliceStable (cmpMetrics p now) hosts.

(** ** Samples *)

Definition add_read (success : bool) (now : Z) (m : hostMetric) (avg : rpcAverage) : hostMetric :=
  mkMetric (rpcWriteAverage m) avg (fr_AddSample (rpcFailRate m) success now) (inflightReads m) (inflightWrites m).
Definition add_write (success : bool) (now : Z) (m : hostMetric) (avg : rpcAverage) : hostMetric :=
  mkMetric avg (rpcReadAverage m) (fr_AddSample (rpcFailRate m) success now) (inflightReads m) (inflightWrites m).

(** [float64(bytes) / elapsed.Seconds()] *)
Definition throughput (bytes elapsed : Z) : float64 := fdiv (of_int bytes) (duration_Seconds elapsed).

Definition AddReadSample (p : Provider) (now : Z) (hostKey : PublicKey) (bytes elapsed : Z) : Provider :=
  if (elapsed >? 0)%Z then
    let t := throughput bytes elapsed in
    let p := with_metric p hostKey (λ m, add_read true now m (ra_AddSample (rpcReadAverage m) t)) in
    if (bytes >=? minThroughputSampleBytes)%Z
    then mkProvider (metrics p) (ra_AddSample (globalReadThroughput p) t) (globalWriteThroughput p) else p
  else with_metric p hostKey (λ m, add_read true now m (rpcReadAverage m)).

Definition AddWriteSample (p : Provider) (now : Z) (hostKey : PublicKey) (bytes elapsed : Z) : Provider :=
  if (elapsed >? 0)%Z then
    let t := throughput bytes elapsed in
    let p := with_metric p hostKey (λ m, add_write true now m (ra_AddSample (rpcWriteAverage m) t)) in
    if (bytes >=? minThroughputSampleBytes)%Z
    then mkProvider (metrics p) (globalReadThroughput p) (ra_AddSample (globalWriteThroughput p) t) else p
  else with_metric p hostKey (λ m, add_write true now m (rpcWriteAverage m)).

Definition AddSettingsSample (p : Provider) (now : Z) (hostKey : PublicKey) (latency : Z) : Provider :=
  AddReadSample p now hostKey settingsPayloadSize latency.

Definition AddFailedRPC (p : Provider) (now : Z) (hostKey : PublicKey) : Provider :=
  with_metric p hostKey (λ m, add_read false now m (rpcReadAverage m)).

Definition AddTimedOutRPC (p : Provider) (now : Z) (hostKey : PublicKey) (write : bool) (bytes elapsed : Z) : Provider :=
  if (elapsed <=? 0)%Z then with_metric p hostKey (λ m, add_read false now m (rpcReadAverage m))
  else
    let t := throughput bytes elapsed in
    if write then with_metric p hostKey (λ m, add_write false now m (ra_AddSample (rpcWriteAverage m) t))
    else with_metric p hostKey (λ m, add_read false now m (ra_AddSample (rpcReadAverage m) t)).

(** [time.Duration(float64(bytes) / rate * float64(time.Second))] *)
Definition estimate (oor : float64 → Z) (avg : rpcAverage) (fallback : float64) (bytes : Z) : Z :=
  let '(rate, ok) := ra_Value avg in
  let rate := if negb ok || negb (flt (of_int 0) rate) && negb (is_nan rate) then fallback else rate in
  to_int64 oor (fmul (fdiv (of_int bytes) rate) (of_int Second)).

Definition ReadEstimate (oor : float64 → Z) (p : Provider) (bytes : Z) : Z :=
  estimate oor (globalReadThroughput p) defaultReadThroughput bytes.
Definition WriteEstimate (oor : float64 → Z) (p : Provider) (bytes : Z) : Z :=
  estimate oor (globalWriteThroughput p) defaultWriteThroughput bytes.

(** ** Reserving transfers *)

Definition add_reads (n : Z) (m : hostMetric) : hostMetric :=
  mkMetric (rpcWriteAverage m) (rpcReadAverage m) (rpcFailRate m) (i64 (inflightReads m + n)) (inflightWrites m).
Definition add_writes (n : Z) (m : hostMetric) : hostMetric :=
  mkMetric (rpcWriteAverage m) (rpcReadAverage m) (rpcFailRate m) (inflightReads m) (i64 (inflightWrites m + n)).

(** The metric of a host is never removed, so the pointer a release holds is the
    metric under the host's key. *)
Definition TrackInflightRead (p : Provider) (hostKey : PublicKey) : Provider := with_metric p hostKey (add_reads 1).
Definition release_read (p : Provider) (hostKey : PublicKey) : Provider := with_metric p hostKey (add_reads (-1)).
Definition TrackInflightWrite (p : Provider) (hostKey : PublicKey) : Provider := with_metric p hostKey (add_writes 1).
Definition release_write (p : Provider) (hostKey : PublicKey) : Provider := with_metric p hostKey (add_writes (-1)).

(** The index of the first best candidate. *)
Fixpoint best_index (cmp : PublicKey → PublicKey → Z) (candidates : list PublicKey) (best i n : nat) : nat :=
  match n with
  | O => best
  | Datatypes.S n =>
      let best := match candidates !! i, candidates !! best with
                  | Some ci, Some cb => if (cmp ci cb <? 0)%Z then i else best
                  | _, _ => best
                  end in
      best_index cmp candidates best (i + 1) n
  end.

(** The host, the remaining candidates and the provider with the reservation;
    [None] is [ok = false]. *)
Definition PickWrite (p : Provider) (now : Z) (candidates : list PublicKey) :
    option (PublicKey * list PublicKey * Provider) :=
  if Nat.eqb (length candidates) 0 then None
  else
    let best := best_index (cmpMetrics p now) candidates 0 1 (length candidates - 1) in
    match candidates !! best, candidates !! (length candidates - 1) with
    | Some picked, Some last =>
        Some (picked, take (length candidates - 1) (<[best := last]> candidates), TrackInflightWrite p picked)
    | _, _ => None
    end.

(** *** The calls that ask the store *)

(** [hosts.HostInfo] (src/hosts/host.go) *)
Record HostInfo := mkHostInfo {
  HI_PublicKey : PublicKey; HI_Addresses : list NetAddress; HI_CountryCode : string;
  HI_Latitude : float64; HI_Longitude : float64; HI_GoodForUpload : bool }.

(** The store of the client. *)
Class ClientStore {S : Type} := {
  cs_UsableHosts : M S (list HostInfo);
  cs_Addresses : PublicKey → M S (list NetAddress);
  cs_Usable : PublicKey → M S bool }.

(** ** Queues *)

Record HostQueue := mkQueue { q_hosts : list PublicKey; q_attempts : gmap PublicKey Z }.

Definition Available (q : HostQueue) : Z := Z.of_nat (length (q_hosts q)).

Definition Next (q : HostQueue) : option (PublicKey * Z) * HostQueue :=
  match q_hosts q with
  | [] => (None, q)
  | host :: hosts => (Some (host, i64 (default 0%Z (q_attempts q !! host) + 1)), mkQueue hosts (q_attempts q))
  end.

Definition Retry (q : HostQueue) (host : PublicKey) : HostQueue :=
  mkQueue (q_hosts q ++ [host]) (<[host := i64 (default 0%Z (q_attempts q !! host) + 1)]> (q_attempts q)).

(** The loop over the hosts with the map of those seen. *)
Fixpoint unique_hosts (seen : gset PublicKey) (hosts : list PublicKey) : list PublicKey :=
  match hosts with
  | [] => []
  | host :: hosts =>
      if bool_decide (host ∈ seen) then unique_hosts seen hosts
      else host :: unique_hosts ({[host]} ∪ seen) hosts
  end.

Definition NewHostQueue (hosts : list PublicKey) : HostQueue := mkQueue (unique_hosts ∅ hosts) ∅.

Section store.
Local Open Scope go_scope.
Context {S : Type} {CS : @ClientStore S}.
Variable time_Now : M S Z.

(** The loop that keeps the usable hosts; an error counts as unusable. *)
Fixpoint filter_usable (hosts : list PublicKey) : M S (list PublicKey) :=
  match hosts with
  | [] => mret []
  | host :: hosts =>
      let* r := try (cs_Usable host) in
      let* rest := filter_usable hosts in
      mret (match r with Ok true => host :: rest | _ => rest end)
  end.

Definition PickReads (candidates : list PublicKey) (n : nat) :
    M (S * Provider) (list PublicKey * list PublicKey) :=
  let* usable := lift1 (filter_usable candidates) in
  let* now := lift1 time_Now in
  let* sorted := local (λ p, sortHosts p now usable) in
  if Nat.ltb (length sorted) n then mret ([], sorted)
  else
    set_local (λ p, foldl TrackInflightRead p (take n sorted)) ;;
    mret (take n sorted, drop n sorted).

Definition Prioritize (hosts : list PublicKey) : M (S * Provider) (list PublicKey) :=
  let* filtered := lift1 (filter_usable hosts) in
  let* now := lift1 time_Now in
  local (λ p, sortHosts p now filtered).

Definition provider_HostQueue : M (S * Provider) HostQueue :=
  let* hosts := lift1 cs_UsableHosts in
  let* now := lift1 time_Now in
  local (λ p, mkQueue (sortHosts p now (HI_PublicKey <$> hosts)) ∅).

Definition UploadQueue : M (S * Provider) HostQueue :=
  let* hosts := lift1 cs_UsableHosts in
  let* now := lift1 time_Now in
  local (λ p, mkQueue (sortHosts p now (HI_PublicKey <$> filter (λ h, HI_GoodForUpload h = true) hosts)) ∅).

Definition provider_Addresses (hostKey : PublicKey) : M (S * Provider) (list NetAddress) := lift1 (cs_Addresses hostKey).
Definition provider_UsableHosts : M (S * Provider) (list HostInfo) := lift1 cs_UsableHosts.
End store.

(** ** The order *)

(** The four keys of [cmpMetrics]; a host without metrics has empty ones. *)
Definition metric_of (p : Provider) (h : PublicKey) : hostMetric := default no_metric (metrics p !! h).
Definition tried (p : Provider) (h : PublicKey) : Z := if metrics p !! h then 1 else 0.
Definition rate_of (p : Provider) (now : Z) (h : PublicKey) : float64 := fr_Value (rpcFailRate (metric_of p h)) now.
Definition sampled (p : Provider) (h : PublicKey) : Z := if (combinedThroughput (metric_of p h)).2 then 1 else 0.
(** The throughput one more transfer would get. *)
Definition share (p : Provider) (h : PublicKey) : float64 :=
  fdiv (combinedThroughput (metric_of p h)).1 (of_int (i64 (inflight (metric_of p h) + 1))).

Definition last_key (p : Provider) (a b : PublicKey) : Z :=
  if (sampled p a =? 0)%Z then int_Compare (inflight (metric_of p a)) (inflight (metric_of p b))
  else float_Compare (share p b) (share p a).

Lemma cmpMetrics_keys p now a b :
  cmpMetrics p now a b =
  then_by (λ a b, int_Compare (tried p a) (tried p b))
    (then_by (λ a b, float_Compare (rate_of p now a) (rate_of p now b))
      (then_by (λ a b, int_Compare (sampled p a) (sampled p b)) (last_key p))) a b.
Proof.
  unfold cmpMetrics, then_by, tried, last_key, share, rate_of, sampled, metric_of.
  destruct (metrics p !! a) as [am|], (metrics p !! b) as [bm|]; cbn [default from_option id]; [|reflexivity|reflexivity|].
  - destruct (float_Compare (fr_Value (rpcFailRate am) now) (fr_Value (rpcFailRate bm) now)); [|reflexivity..].
    destruct (combinedThroughput am) as [at_ []], (combinedThroughput bm) as [bt []]; reflexivity.
  - rewrite !(pre_refl _ _ float_preorder), !(pre_refl _ _ int_preorder).
    by destruct (combinedThroughput no_metric).2.
Qed.

Lemma cmpMetrics_preorder p now : preorder (cmpMetrics p now).
Proof.
  eapply ext_preorder; [intros a b; apply cmpMetrics_keys|].
  assert (∀ f : PublicKey → Z, preorder (λ a b, int_Compare (f a) (f b))) as Hi
    by (intros f; apply (pull_preorder int_Compare f int_preorder)).
  assert (∀ f : PublicKey → float64, preorder (λ a b, float_Compare (f a) (f b))) as Hf
    by (intros f; apply (pull_preorder float_Compare f float_preorder)).
  assert (∀ a b, int_Compare (sampled p a) (sampled p b) = 0 → sampled p a = sampled p b)%Z as Hs.
  { intros a b. unfold int_Compare. destruct (Z.compare_spec (sampled p a) (sampled p b)); done. }
  assert (preorder (then_by (λ a b, int_Compare (sampled p a) (sampled p b)) (last_key p))) as H3.
  { apply then_by_preorder; [apply Hi|..].
    - intros a b Hab%Hs. unfold last_key. rewrite Hab.
      destruct (sampled p b =? 0)%Z; [apply (pre_anti _ (Hi (λ a, inflight (metric_of p a))))|apply (pre_anti _ (flip_preorder _ (Hf (share p))))].
    - intros x y z Hxy%Hs Hyz%Hs. unfold last_key. rewrite Hxy, Hyz.
      destruct (sampled p z =? 0)%Z; [apply (pre_trans _ (Hi (λ a, inflight (metric_of p a))))|apply (pre_trans _ (flip_preorder _ (Hf (share p))))]. }
  assert (preorder (then_by (λ a b, float_Compare (rate_of p now a) (rate_of p now b))
      (then_by (λ a b, int_Compare (sampled p a) (sampled p b)) (last_key p)))) as H2.
  { apply then_by_preorder; [apply Hf|intros; by apply pre_anti|intros x y z _ _; by apply pre_trans]. }
  apply then_by_preorder; [apply Hi|intros; by apply pre_anti|intros x y z _ _; by apply pre_trans].
Qed.

(** ** Picking *)

Section picks.
Context {A : Type} (c : A → A → Z).

Lemma take_last_insert (l : list A) (i : nat) (x y : A) :
  l !! i = Some x → l !! (length l - 1) = Some y → x :: take (length l - 1) (<[i := y]> l) ≡ₚ l.
Proof.
  intros Hx Hy. destruct l as [|z l _] using rev_ind; [done|].
  rewrite length_app in *. simpl in *. replace (length l + 1 - 1) with (length l) in * by lia.
  rewrite list_lookup_middle in Hy by done. injection Hy as ->.
  destruct (decide (i < length l)) as [Hi|Hi].
  - rewrite insert_app_l by done. rewrite take_app_length' by by rewrite length_insert.
    rewrite lookup_app_l in Hx by done. rewrite <-(take_drop_middle l i x Hx) at 2.
    rewrite insert_take_drop by done. rewrite <-!app_assoc. simpl. solve_Permutation.
  - assert (i = length l) as -> by (apply lookup_lt_Some in Hx; rewrite length_app in Hx; simpl in Hx; lia).
    rewrite list_lookup_middle in Hx by done. injection Hx as ->.
    rewrite list_insert_id by (by rewrite list_lookup_middle). rewrite take_app_length. solve_Permutation.
Qed.
End picks.

(** The loop keeps the best index seen so far. *)
Lemma best_index_spec (c : PublicKey → PublicKey → Z) (l : list PublicKey) best i n :
  preorder c → best < i → i + n = length l →
  (∀ j x y, j < i → l !! best = Some x → l !! j = Some y → (c x y ≤ 0)%Z) →
  ∃ k x, best_index c l best i n = k ∧ l !! k = Some x ∧ ∀ y, y ∈ l → (c x y ≤ 0)%Z.
Proof.
  intros Hc. revert best i. induction n as [|n IH]; intros best i Hb Hlen Hbest; simpl.
  - destruct (lookup_lt_is_Some_2 l best) as [x Hx]; [lia|]. exists best, x. split_and!; [done..|].
    intros y [j Hj]%list_elem_of_lookup. eapply (Hbest j); eauto. apply lookup_lt_Some in Hj. lia.
  - destruct (lookup_lt_is_Some_2 l i) as [ci Hi]; [lia|]. destruct (lookup_lt_is_Some_2 l best) as [cb Hcb]; [lia|].
    rewrite Hi, Hcb. apply IH; [destruct (c ci cb <? 0)%Z; lia|lia|].
    intros j x y Hj Hx Hy. destruct (Z.ltb_spec (c ci cb) 0) as [Hlt|Hge].
    + replace x with ci by congruence. destruct (decide (j = i)) as [->|].
      * replace y with ci by congruence. rewrite pre_refl; [lia|done].
      * eapply (pre_trans c Hc ci cb y); [lia|]. eapply (Hbest j); eauto. lia.
    + replace x with cb by congruence. destruct (decide (j = i)) as [->|].
      * replace y with ci by congruence. by apply pre_neg.
      * eapply (Hbest j); eauto. lia.
Qed.

Lemma PickWrite_spec p now candidates :
  candidates ≠ [] →
  ∃ host remaining, PickWrite p now candidates = Some (host, remaining, TrackInflightWrite p host) ∧
    host :: remaining ≡ₚ candidates ∧ ∀ h, h ∈ candidates → (cmpMetrics p now host h ≤ 0)%Z.
Proof.
  intros Hne. unfold PickWrite. destruct (Nat.eqb_spec (length candidates) 0) as [H0|H0].
  { by apply nil_length_inv in H0. }
  destruct (best_index_spec (cmpMetrics p now) candidates 0 1 (length candidates - 1)) as (k & x & Hk & Hx & Hbest);
    [apply cmpMetrics_preorder|lia|lia| |].
  { intros j x y Hj Hx Hy. replace j with 0 in Hy by lia. replace y with x by congruence.
    rewrite pre_refl; [lia|apply cmpMetrics_preorder]. }
  rewrite Hk, Hx. destruct (lookup_lt_is_Some_2 candidates (length candidates - 1)) as [y Hy]; [lia|].
  rewrite Hy. eexists _, _. split; [done|]. split; [by apply take_last_insert|done].
Qed.

Lemma TrackInflightWrite_spec p host h :
  inflightWrites (metric_of (TrackInflightWrite p host) h) =
  if decide (h = host) then i64 (inflightWrites (metric_of p h) + 1) else inflightWrites (metric_of p h).
Proof.
  unfold metric_of, TrackInflightWrite, with_metric. simpl.
  case_decide as Hh; [subst; by rewrite lookup_insert_eq|by rewrite lookup_insert_ne].
Qed.

Lemma release_write_spec p host h :
  inflightWrites (metric_of (release_write p host) h) =
  if decide (h = host) then i64 (inflightWrites (metric_of p h) - 1) else inflightWrites (metric_of p h).
Proof.
  unfold metric_of, release_write, with_metric. simpl.
  case_decide as Hh; [subst; by rewrite lookup_insert_eq|by rewrite lookup_insert_ne].
Qed.

(** Picking a host to write to always succeeds when there is a candidate: it is
    one no candidate ranks ahead of, exactly it leaves the pool, and one write is
    reserved on it and on no other host. *)
Theorem pick_write_best (p : Provider) (now : Z) (candidates : list PublicKey) :
  candidates ≠ [] →
  ∃ host remaining p', PickWrite p now candidates = Some (host, remaining, p') ∧
    host :: remaining ≡ₚ candidates ∧
    (∀ h, h ∈ candidates → (cmpMetrics p now host h ≤ 0)%Z) ∧
    ∀ h, inflightWrites (metric_of p' h) =
      if decide (h = host) then i64 (inflightWrites (metric_of p h) + 1) else inflightWrites (metric_of p h).
Proof.
  intros Hne. destruct (PickWrite_spec p now candidates Hne) as (h & r & H1 & H2 & H3).
  exists h, r, (TrackInflightWrite p h). split_and!; [done..|]. intros x. apply TrackInflightWrite_spec.
Qed.

Section reads.
Context {S : Type} {CS : @ClientStore S} (time_Now : M S Z).

(** The store answers from its state without changing it, and the clock is in the
    state too. *)
Class StoreReads := {
  usable_at : S → PublicKey → bool;
  now_at : S → Z;
  Usable_reads : ∀ host s, (cs_Usable host s).2 = s ∧ (cs_Usable host s).1 ≠ Panic ∧
    (usable_at s host = true ↔ (cs_Usable host s).1 = Ok true);
  Now_reads : ∀ s, time_Now s = (Ok (now_at s), s) }.
Context {SR : StoreReads}.

Lemma filter_usable_spec hosts s :
  filter_usable hosts s = (Ok (filter (λ h, usable_at s h = true) hosts), s).
Proof.
  induction hosts as [|h l IH]; [done|]. simpl. unfold bindM, mbind, M_bind, try.
  destruct (Usable_reads h s) as (Hs & Hp & Hu). destruct (cs_Usable h s) as [r s']. simpl in *. subst s'.
  rewrite filter_cons.
  destruct r as [[]|e|]; [| | |done]; rewrite IH; [rewrite decide_True by naive_solver; done|..];
    rewrite decide_False by naive_solver; done.
Qed.

(** Reservations of the hosts in [picked]. *)
Lemma reserve_reads picked p h :
  NoDup picked →
  metric_of (foldl TrackInflightRead p picked) h =
  if bool_decide (h ∈ picked) then add_reads 1 (metric_of p h) else metric_of p h.
Proof.
  revert p. induction picked as [|x l IH]; intros p Hnd; [done|]. apply NoDup_cons in Hnd as [Hx Hl].
  simpl. rewrite IH by done. unfold metric_of, TrackInflightRead, with_metric. simpl.
  destruct (decide (h = x)) as [->|Hne].
  - rewrite lookup_insert_eq. rewrite bool_decide_eq_false_2 by done. by rewrite bool_decide_eq_true_2 by left.
  - rewrite lookup_insert_ne by done. repeat case_bool_decide; try done; set_solver.
Qed.

Lemma PickReads_spec (candidates : list PublicKey) (n : nat) (s : S) (p : Provider) :
  let sorted := sortHosts p (now_at s) (filter (λ h, usable_at s h = true) candidates) in
  PickReads time_Now candidates n (s, p) =
    if Nat.ltb (length sorted) n then (Ok ([], sorted), (s, p))
    else (Ok (take n sorted, drop n sorted), (s, foldl TrackInflightRead p (take n sorted))).
Proof.
  unfold PickReads, bindM, mbind, M_bind, lift1, local, set_local. rewrite filter_usable_spec. cbv beta iota.
  rewrite Now_reads. cbv beta iota zeta. by destruct (Nat.ltb _ n).
Qed.

(** Picking hosts to read from: with fewer than [n] usable candidates nothing is
    picked or reserved. Otherwise [n] usable candidates are picked, no other
    candidate ranks ahead of one of them, one read is reserved on each and on no
    other host, and what remains are the other usable candidates. *)
Theorem pick_reads_best (candidates : list PublicKey) (n : nat) (s : S) (p : Provider) :
  NoDup candidates →
  let usable := filter (λ h, usable_at s h = true) candidates in
  ∃ picked remaining p',
    PickReads time_Now candidates n (s, p) = (Ok (picked, remaining), (s, p')) ∧
    picked ++ remaining ≡ₚ usable ∧
    if Nat.ltb (length usable) n then picked = [] ∧ p' = p
    else length picked = n ∧
      (∀ a b, a ∈ picked → b ∈ remaining → (cmpMetrics p (now_at s) a b ≤ 0)%Z) ∧
      ∀ h, metric_of p' h = if bool_decide (h ∈ picked) then add_reads 1 (metric_of p h) else metric_of p h.
Proof.
  intros Hnd usable. rewrite PickReads_spec. cbv zeta. fold usable. set (sorted := sortHosts p (now_at s) usable).
  assert (sorted ≡ₚ usable) as Hperm by apply SliceStable_perm. rewrite <-(Permutation_length Hperm).
  destruct (Nat.ltb_spec (length sorted) n) as [Hlt|Hge].
  - eexists [], sorted, p. split_and!; [done|done|done..].
  - exists (take n sorted), (drop n sorted), (foldl TrackInflightRead p (take n sorted)).
    split_and!; [done|by rewrite take_drop|rewrite length_take; lia| |].
    + intros a b. apply SliceStable_best, cmpMetrics_preorder.
    + intros h. apply reserve_reads. apply (sublist_NoDup _ sorted); [|apply sublist_take].
      rewrite Hperm. by apply NoDup_filter.
Qed.

(** Hosts that are not usable are dropped and the others keep their number. *)
Lemma Prioritize_spec hosts s p :
  ∃ l, Prioritize time_Now hosts (s, p) = (Ok l, (s, p)) ∧ l ≡ₚ filter (λ h, usable_at s h = true) hosts.
Proof.
  unfold Prioritize, bindM, mbind, M_bind, lift1, local. rewrite filter_usable_spec. cbv beta iota.
  rewrite Now_reads. eexists. split; [done|]. apply SliceStable_perm.
Qed.
End reads.

(** ** The queue *)

Lemma unique_hosts_spec seen hosts :
  NoDup (unique_hosts seen hosts) ∧ ∀ h, h ∈ unique_hosts seen hosts ↔ h ∈ hosts ∧ h ∉ seen.
Proof.
  revert seen. induction hosts as [|x l IH]; intros seen; simpl; [split; [constructor|set_solver]|].
  case_bool_decide as Hx.
  - destruct (IH seen) as [Hnd Hin]. split; [done|]. intros h. rewrite Hin. set_solver.
  - destruct (IH ({[x]} ∪ seen)) as [Hnd Hin]. split; [constructor; [rewrite Hin; set_solver|done]|].
    intros h. rewrite elem_of_cons, Hin. destruct (decide (h = x)); set_solver.
Qed.

(** A new queue yields every given host once; a host that is retried comes back
    after the hosts that wait, with its attempt counted. *)
Theorem host_queue_spec (hosts waiting : list PublicKey) (host : PublicKey) (attempts : gmap PublicKey Z) :
  (NoDup (q_hosts (NewHostQueue hosts)) ∧ ∀ h, h ∈ q_hosts (NewHostQueue hosts) ↔ h ∈ hosts) ∧
  Next (NewHostQueue []) = (None, NewHostQueue []) ∧
  let q := mkQueue (host :: waiting) attempts in
  let n := i64 (default 0%Z (attempts !! host) + 1) in
  (Next q).1 = Some (host, n) ∧
  q_hosts (Retry (Next q).2 host) = waiting ++ [host] ∧
  (Next (mkQueue [host] (q_attempts (Retry (Next q).2 host)))).1 = Some (host, i64 (n + 1)).
Proof.
  split; [split|]; [apply unique_hosts_spec|..].
  - intros h. destruct (unique_hosts_spec ∅ hosts) as [_ H]. simpl. rewrite H. set_solver.
  - split; [done|]. intros q n. split; [done|]. split; [done|]. simpl. by rewrite lookup_insert_eq.
Qed.

(** ** Concrete instances *)

Module HostQueueWitness.
(** Hosts 1 to 3 with samples: the first is fast, the third fails. *)
Definition p0 : Provider :=
  AddFailedRPC (AddReadSample (AddReadSample NewProvider 0 1 (2 ^ 22) Second) 0 2 (2 ^ 22) (4 * Second)) 0 3.

Example order : sortHosts p0 0 [3; 2; 1; 4]%N = [4; 1; 2; 3]%N.
Proof. vm_compute. reflexivity. Qed.

Example pick_write_best_witness :
  ∃ host remaining p', PickWrite p0 0 [3; 2; 1]%N = Some (host, remaining, p') ∧ host :: remaining ≡ₚ [3; 2; 1]%N.
Proof.
  destruct (pick_write_best p0 0 [3; 2; 1]%N) as (h & r & p' & H1 & H2 & _); [congruence|].
  exists h, r, p'. exact (conj H1 H2).
Defined.

(** Host 2 is not usable. *)
#[local] Instance store : @ClientStore Z := {|
  cs_UsableHosts := λ s, (Ok [], s);
  cs_Addresses _ := λ s, (Ok [], s);
  cs_Usable h := λ s, (if (h =? 2)%N then Err (EMsg "host not found") else Ok true, s) |}.

#[local] Instance reads : StoreReads (λ s : Z, (Ok s, s)).
Proof.
  refine {| usable_at _ h := negb (h =? 2)%N; now_at s := s |}; [|done].
  intros h s. simpl. destruct (h =? 2)%N; simpl; (split; [done|split; [done|split; congruence]]).
Defined.

Example pick_reads_best_witness :
  ∃ picked remaining p',
    PickReads (λ s : Z, (Ok s, s)) [3; 2; 1]%N 1 (0%Z, p0) = (Ok (picked, remaining), (0%Z, p')) ∧
    picked ++ remaining ≡ₚ [3; 1]%N.
Proof.
  destruct (pick_reads_best (λ s : Z, (Ok s, s)) [3; 2; 1]%N 1 0%Z p0) as (pk & r & p' & H1 & H2 & _).
  - apply (bool_decide_unpack _). vm_compute. exact I.
  - exists pk, r, p'. split; [exact H1|]. rewrite H2. reflexivity.
Defined.
End HostQueueWitness.
