(* ===== verification/Uploads.v ===== *)
(** * Uploading migrated shards (src/slabs/uploads.go)

    [uploadShards] runs a goroutine per shard, at most ten at a time, that take
    hosts from a shared pool until one accepts the shard. The goroutines are a step
    relation: a step is one access to the shared state (taking a host, releasing
    it, recording a migrated shard), so every interleaving is a run. The hosts are
    picked through the interface [WritePool], which the provider of HostQueue.v
    implements. *)

From S2P Require Import Prelude HostQueue Slabs.

(** ** The pool *)

(** [PickWrite] and its release function in the interface [HostClient] of
    src/slabs/manager.go; [writes] is the number of transfers reserved on a host. *)
Class WritePool (P : Type) := {
  pool_PickWrite : P → Z → list PublicKey → option (PublicKey * list PublicKey * P);
  pool_release : P → PublicKey → P;
  writes : P → PublicKey → Z }.

(** What the documentation of [PickWrite] promises: the picked host is removed from
    the candidates and an inflight slot is reserved until the release. *)
Class WritePoolLaws {P} (W : WritePool P) : Prop := {
  pick_none : ∀ p now l, pool_PickWrite p now l = None → l = [];
  pick_some : ∀ p now l h rem p', pool_PickWrite p now l = Some (h, rem, p') →
    h :: rem ≡ₚ l ∧ ∀ x, writes p' x = if decide (x = h) then i64 (writes p x + 1) else writes p x;
  release_writes : ∀ p h x,
    writes (pool_release p h) x = if decide (x = h) then i64 (writes p x - 1) else writes p x }.

#[export] Instance provider_pool : WritePool Provider := {|
  pool_PickWrite := PickWrite;
  pool_release := release_write;
  writes p h := inflightWrites (metric_of p h) |}.

#[export] Instance provider_pool_laws : WritePoolLaws provider_pool.
Proof.
  split; simpl.
  - intros p now l H. destruct l as [|x l]; [done|].
    destruct (PickWrite_spec p now (x :: l)) as (? & ? & E & _); [done|]. congruence.
  - intros p now l h rem p' H. destruct l as [|x l]; [done|].
    destruct (PickWrite_spec p now (x :: l)) as (h0 & r0 & E & Hp & _); [done|].
    rewrite E in H. injection H as -> -> <-. split; [done|]. intros y. apply TrackInflightWrite_spec.
  - intros. apply release_write_spec.
Qed.

(** ** State *)

Record Shard := mkShard { Sh_Root : Hash256; Sh_HostKey : PublicKey }.

(** A goroutine is before its next pick, or uploads to the host it picked. *)
Inductive worker := Running | Uploading (hk : PublicKey).

Section uploads.
Context {P : Type} {W : WritePool P}.
(** The roots of the slab's sectors, and which shards were recovered ([shards[i] != nil]). *)
Variable roots : list Hash256.
Variable needed : nat → bool.

Record upload_state := mkUpload {
  cancelled : bool;                        (* ctx is done *)
  loop_index : nat;                        (* the main loop's [i] *)
  workers : gmap nat worker;               (* the goroutines that have not returned *)
  available : list PublicKey;
  used : gset PublicKey;
  migrated : list (nat * Shard);           (* with the index of the shard *)
  pool : P;
  panicked : bool }.

(** The hosts that store the slab are used from the start. *)
Definition upload_init (p : P) (hosts : list PublicKey) (pool_hosts : list PublicKey) : upload_state :=
  mkUpload false 0 ∅ pool_hosts (list_to_set hosts) [] p false.

Inductive upload_step : upload_state → upload_state → Prop :=
  (** the caller's context, at any time *)
  | step_cancel s :
      cancelled s = false →
      upload_step s (mkUpload true (loop_index s) (workers s) (available s) (used s) (migrated s) (pool s) (panicked s))
  (** [if shards[i] == nil { continue }] *)
  | step_skip s :
      loop_index s < length roots → needed (loop_index s) = false →
      upload_step s (mkUpload (cancelled s) (loop_index s + 1) (workers s) (available s) (used s) (migrated s) (pool s) (panicked s))
  (** [case sema <- struct{}{}] *)
  | step_spawn s :
      loop_index s < length roots → needed (loop_index s) = true → size (workers s) < 10 →
      upload_step s (mkUpload (cancelled s) (loop_index s + 1) (<[loop_index s := Running]> (workers s)) (available s)
        (used s) (migrated s) (pool s) (panicked s))
  (** [case <-ctx.Done(): break top] *)
  | step_break s :
      loop_index s < length roots → needed (loop_index s) = true → cancelled s = true →
      upload_step s (mkUpload (cancelled s) (length roots) (workers s) (available s) (used s) (migrated s) (pool s) (panicked s))
  (** [if ctx.Err() != nil { return }] *)
  | step_stop s i :
      workers s !! i = Some Running → cancelled s = true →
      upload_step s (mkUpload (cancelled s) (loop_index s) (delete i (workers s)) (available s) (used s) (migrated s) (pool s) (panicked s))
  (** [pickHost()] *)
  | step_pick s i now hk rem p' :
      workers s !! i = Some Running → pool_PickWrite (pool s) now (available s) = Some (hk, rem, p') →
      upload_step s (mkUpload (cancelled s) (loop_index s) (<[i := Uploading hk]> (workers s)) rem (used s) (migrated s) p' (panicked s))
  | step_none s i now :
      workers s !! i = Some Running → pool_PickWrite (pool s) now (available s) = None →
      upload_step s (mkUpload (cancelled s) (loop_index s) (delete i (workers s)) (available s) (used s) (migrated s) (pool s) (panicked s))
  (** the RPC failed: try another host *)
  | step_fail s i hk :
      workers s !! i = Some (Uploading hk) →
      upload_step s (mkUpload (cancelled s) (loop_index s) (<[i := Running]> (workers s)) (available s) (used s) (migrated s)
        (pool_release (pool s) hk) (panicked s))
  (** the host returned another root: [cancel()] *)
  | step_mismatch s i hk :
      workers s !! i = Some (Uploading hk) →
      upload_step s (mkUpload true (loop_index s) (delete i (workers s)) (available s) (used s) (migrated s)
        (pool_release (pool s) hk) (panicked s))
  (** [used.Swap] found the host: [log.Panic] *)
  | step_reused s i hk :
      workers s !! i = Some (Uploading hk) → hk ∈ used s →
      upload_step s (mkUpload (cancelled s) (loop_index s) (delete i (workers s)) (available s) (used s) (migrated s)
        (pool_release (pool s) hk) true)
  | step_migrated s i hk root :
      workers s !! i = Some (Uploading hk) → hk ∉ used s → roots !! i = Some root →
      upload_step s (mkUpload (cancelled s) (loop_index s) (delete i (workers s)) (available s) ({[hk]} ∪ used s)
        (migrated s ++ [(i, mkShard root hk)]) (pool_release (pool s) hk) (panicked s)).

(** [wg.Wait()] returned. *)
Definition upload_done (s : upload_state) : Prop := loop_index s = length roots ∧ workers s = ∅.

(** What [uploadShards] returns. *)
Definition upload_result (s : upload_state) : result (list Shard) :=
  if Nat.eqb (length (migrated s)) 0 then Err (EMsg "no shards were uploaded during migration")
  else Ok ((migrated s).*2).

(** ** Invariant *)

Context {WL : WritePoolLaws W}.
Variable p0 : P.
Variable hosts candidates : list PublicKey.
Hypothesis Hcand : NoDup candidates.
Hypothesis Hfree : ∀ h, h ∈ candidates → h ∉ hosts.
Hypothesis Hwrites : ∀ h, is_i64 (writes p0 h).

Abbreviation init := (upload_init p0 hosts candidates) (only parsing).
Definition upload_reachable (s : upload_state) : Prop := rtc upload_step init s.

(** Some goroutine uploads to [h]. *)
Definition uploading (s : upload_state) (h : PublicKey) : Prop := ∃ i, workers s !! i = Some (Uploading h).

Record Inv (s : upload_state) : Prop := {
  inv_panic : panicked s = false;
  inv_avail : NoDup (available s) ∧ ∀ h, h ∈ available s → h ∈ candidates ∧ h ∉ used s;
  inv_uploading : ∀ i h, workers s !! i = Some (Uploading h) →
    h ∈ candidates ∧ h ∉ used s ∧ h ∉ available s ∧ ∀ j, workers s !! j = Some (Uploading h) → j = i;
  inv_workers : ∀ i, is_Some (workers s !! i) → i < loop_index s ∧ needed i = true ∧ i ∉ (migrated s).*1;
  inv_index : loop_index s ≤ length roots;
  inv_migrated : ∀ i sh, (i, sh) ∈ migrated s →
    i < loop_index s ∧ needed i = true ∧ roots !! i = Some (Sh_Root sh) ∧
    Sh_HostKey sh ∈ candidates ∧ Sh_HostKey sh ∈ used s;
  inv_distinct : NoDup (migrated s).*1 ∧ NoDup (Sh_HostKey <$> (migrated s).*2);
  inv_writes : ∀ h, (uploading s h → writes (pool s) h = i64 (writes p0 h + 1)) ∧
                    (¬ uploading s h → writes (pool s) h = writes p0 h) }.

Lemma Inv_init : Inv init.
Proof.
  constructor; simpl.
  - done.
  - split; [done|]. intros h Hh. split; [done|]. rewrite elem_of_list_to_set. auto.
  - intros i h H. by rewrite lookup_empty in H.
  - intros i [x H]. by rewrite lookup_empty in H.
  - lia.
  - intros i sh H. by apply elem_of_nil in H.
  - split; constructor.
  - intros h. split; [|done]. intros [i H]. simpl in H. by rewrite lookup_empty in H.
Qed.

(** A change of the goroutines that starts no upload and ends the one of [i]. *)
Definition stops (ws ws' : gmap nat worker) (i : nat) : Prop :=
  ∀ j x, ws' !! j = Some (Uploading x) ↔ j ≠ i ∧ ws !! j = Some (Uploading x).

Lemma stops_delete ws i : stops ws (delete i ws) i.
Proof. intros j x. rewrite lookup_delete_Some. naive_solver. Qed.
Lemma stops_running ws i : stops ws (<[i := Running]> ws) i.
Proof. intros j x. rewrite lookup_insert_Some. naive_solver. Qed.

(** Releasing the slot of the host a goroutine uploaded to. *)
Lemma released s i h (ws : gmap nat worker) :
  Inv s → workers s !! i = Some (Uploading h) → stops (workers s) ws i →
  ∀ x, ((∃ j, ws !! j = Some (Uploading x)) → writes (pool_release (pool s) h) x = i64 (writes p0 x + 1)) ∧
       (¬ (∃ j, ws !! j = Some (Uploading x)) → writes (pool_release (pool s) h) x = writes p0 x).
Proof.
  intros I Hi Hws x. rewrite release_writes. destruct (inv_writes s I x) as [Hw1 Hw2].
  destruct (inv_uploading s I i h Hi) as (_ & _ & _ & Hu). case_decide as Hx.
  - subst x. split.
    + intros (j & [Hne Hj]%Hws). by apply Hu in Hj.
    + intros _. rewrite Hw1 by by exists i. rewrite <-Z.add_opp_r, i64_add_i64.
      rewrite <-(i64_id (writes p0 h) (Hwrites h)) at 2. f_equal. lia.
  - split.
    + intros (j & [Hne Hj]%Hws). apply Hw1. by exists j.
    + intros Hn. apply Hw2. intros [j Hj]. apply Hn. exists j. apply Hws. split; [|done]. intros ->. congruence.
Qed.

(** A step that neither picks a host nor ends an upload. *)
Lemma same_writes s (ws : gmap nat worker) :
  Inv s → (∀ j x, ws !! j = Some (Uploading x) ↔ workers s !! j = Some (Uploading x)) →
  ∀ x, ((∃ j, ws !! j = Some (Uploading x)) → writes (pool s) x = i64 (writes p0 x + 1)) ∧
       (¬ (∃ j, ws !! j = Some (Uploading x)) → writes (pool s) x = writes p0 x).
Proof.
  intros I Hws x. destruct (inv_writes s I x) as [Hw1 Hw2]. unfold uploading in *.
  setoid_rewrite Hws. auto.
Qed.

Lemma same_delete s i j x :
  workers s !! i = Some Running → delete i (workers s) !! j = Some (Uploading x) ↔ workers s !! j = Some (Uploading x).
Proof. intros Hi. rewrite lookup_delete_Some. naive_solver. Qed.

(** A step that leaves the pool of hosts and the migrated shards alone. *)
Lemma Inv_quiet s c n (ws : gmap nat worker) :
  Inv s → loop_index s ≤ n ≤ length roots →
  (∀ j x, ws !! j = Some (Uploading x) ↔ workers s !! j = Some (Uploading x)) →
  (∀ j, is_Some (ws !! j) → j < n ∧ needed j = true ∧ j ∉ (migrated s).*1) →
  Inv (mkUpload c n ws (available s) (used s) (migrated s) (pool s) (panicked s)).
Proof.
  intros I Hn Hws Hd. constructor; simpl; try apply I.
  - intros i h Hi%Hws. destruct (inv_uploading s I i h Hi) as (? & ? & ? & Hu). split_and!; [done..|].
    intros j Hj%Hws. auto.
  - done.
  - lia.
  - intros i sh Hi. destruct (inv_migrated s I i sh Hi) as (? & ?). split; [lia|done].
  - intros x. by apply same_writes.
Qed.

(** A step that ends the upload of [i] without a result. *)
Lemma Inv_released s c i h (ws : gmap nat worker) :
  Inv s → workers s !! i = Some (Uploading h) → stops (workers s) ws i →
  (∀ j, is_Some (ws !! j) → is_Some (workers s !! j)) →
  Inv (mkUpload c (loop_index s) ws (available s) (used s) (migrated s) (pool_release (pool s) h) (panicked s)).
Proof.
  intros I Hi Hws Hd. constructor; simpl; try apply I.
  - intros j x [Hne Hj]%Hws. destruct (inv_uploading s I j x Hj) as (? & ? & ? & Hu). split_and!; [done..|].
    intros k [_ Hk]%Hws. auto.
  - intros j Hj. by apply (inv_workers s I), Hd.
  - intros x. by apply (released s i).
Qed.

Lemma Inv_step s s' : Inv s → upload_step s s' → Inv s'.
Proof.
  intros I Hstep. pose proof (inv_index s I) as Hidx. destruct Hstep.
  - apply Inv_quiet; [done|lia|done|apply I].
  - apply Inv_quiet; [done|lia|done|]. intros j Hj. destruct (inv_workers s I j Hj). split; [lia|done].
  - assert (workers s !! loop_index s = None) as Hnone.
    { destruct (workers s !! loop_index s) eqn:E; [|done]. destruct (inv_workers s I (loop_index s)); [by eexists|lia]. }
    assert (loop_index s ∉ (migrated s).*1) as Hnew.
    { intros ([j sh] & Heq & Hj)%list_elem_of_fmap. simpl in *. destruct (inv_migrated s I j sh Hj). lia. }
    apply Inv_quiet; [done|lia|..].
    + intros j x. rewrite lookup_insert_Some. naive_solver.
    + intros j. rewrite lookup_insert_is_Some. intros [Hj|[_ Hj]]; [subst j; split_and!; [lia|done..]|].
      destruct (inv_workers s I j Hj). split; [lia|done].
  - apply Inv_quiet; [done|lia|done|]. intros j Hj. destruct (inv_workers s I j Hj). split; [lia|done].
  - apply Inv_quiet; [done|lia|intros; by apply same_delete|].
    intros j Hj. apply (inv_workers s I). destruct Hj as [x [_ Hx]%lookup_delete_Some]. by exists x.
  - destruct (pick_some _ _ _ _ _ _ H0) as [Hp Hw]. destruct (inv_avail s I) as [Hnd Hav].
    rewrite <-Hp in Hnd. apply NoDup_cons in Hnd as [Hhk Hnd].
    assert (∀ x, x ∈ hk :: rem → x ∈ available s) as Hin by (intros x; by rewrite Hp).
    constructor; simpl; try apply I.
    + split; [done|]. intros x Hx. apply Hav, Hin. by right.
    + intros j x [[-> [= <-]]|[Hne Hj]]%lookup_insert_Some.
      * split_and!; [apply Hav, Hin; left|apply Hav, Hin; left|done|].
        intros k [[? _]|[_ Hk]]%lookup_insert_Some; [done|].
        destruct (inv_uploading s I k _ Hk) as (_ & _ & Hn & _). exfalso. apply Hn, Hin. left.
      * destruct (inv_uploading s I j x Hj) as (? & ? & Hn & Hu). split_and!; [done|done| |].
        -- intros Hx. apply Hn, Hin. by right.
        -- intros k [[<- [= <-]]|[_ Hk]]%lookup_insert_Some; [exfalso; apply Hn, Hin; left|auto].
    + intros j Hj. apply (inv_workers s I). rewrite lookup_insert_is_Some in Hj.
      destruct Hj as [Hj|[_ Hj]]; [subst j; by eexists|done].
    + intros x. rewrite Hw. destruct (inv_writes s I x) as [Hw1 Hw2].
      assert (¬ uploading s hk) as Hnhk.
      { intros [k Hk]. destruct (inv_uploading s I k _ Hk) as (_ & _ & Hn & _). apply Hn, Hin. left. }
      case_decide as Hx.
      * subst x. split; [intros _; by rewrite Hw2|]. intros Hn. exfalso. apply Hn. exists i. simpl. by rewrite lookup_insert_eq.
      * split.
        -- intros [k Hk]. simpl in Hk. apply lookup_insert_Some in Hk as [[_ [= <-]]|[_ Hk]]; [done|]. apply Hw1. by exists k.
        -- intros Hn. apply Hw2. intros [k Hk]. apply Hn. exists k. simpl. rewrite lookup_insert_ne; [done|]. intros <-. congruence.
  - apply Inv_quiet; [done|lia|intros; by apply same_delete|].
    intros j Hj. apply (inv_workers s I). destruct Hj as [x [_ Hx]%lookup_delete_Some]. by exists x.
  - apply (Inv_released s _ i hk); [done|done|apply stops_running|].
    intros j. rewrite lookup_insert_is_Some. intros [Hj|[_ Hj]]; [subst j; by eexists|done].
  - apply (Inv_released s _ i hk); [done|done|apply stops_delete|].
    intros j [x [_ Hx]%lookup_delete_Some]. by exists x.
  - destruct (inv_uploading s I i hk H) as (_ & Hn & _). done.
  - destruct (inv_uploading s I i hk H) as (Hc & Hn & Ha & Hu).
    destruct (inv_workers s I i) as (Hlt & Hneed & Hfresh); [by eexists|].
    destruct (inv_distinct s I) as [Hd1 Hd2].
    constructor; simpl; try apply I.
    + destruct (inv_avail s I) as [Hnd Hav]. split; [done|]. intros x Hx. destruct (Hav x Hx). split; [done|]. set_solver.
    + intros j x [Hne Hj]%lookup_delete_Some. destruct (inv_uploading s I j x Hj) as (? & ? & ? & Hu').
      assert (x ≠ hk) by (intros ->; apply Hne; symmetry; auto). split_and!; [done|set_solver|done|].
      intros k [_ Hk]%lookup_delete_Some. auto.
    + intros j [x [Hne Hx]%lookup_delete_Some]. destruct (inv_workers s I j) as (? & ? & ?); [by eexists|].
      split_and!; [done..|]. rewrite fmap_app. simpl. set_solver.
    + intros j sh [Hj|Hj]%elem_of_app.
      * destruct (inv_migrated s I j sh Hj) as (? & ? & ? & ? & ?). split_and!; [done..|set_solver].
      * apply list_elem_of_singleton in Hj as [= -> ->]. simpl. split_and!; [done..|set_solver].
    + rewrite !fmap_app. simpl. split; apply NoDup_app; (split_and!; [done| |apply NoDup_singleton]).
      * intros x Hx ->%list_elem_of_singleton. done.
      * intros x Hx ->%list_elem_of_singleton. apply list_elem_of_fmap in Hx as (sh & -> & Hsh).
        apply list_elem_of_fmap in Hsh as ([j sh'] & -> & Hj). destruct (inv_migrated s I j sh' Hj) as (_ & _ & _ & _ & Hus).
        done.
    + apply (released s i hk); [done|done|apply stops_delete].
Qed.

Lemma Inv_reachable s : upload_reachable s → Inv s.
Proof. apply (rtc_ind_r (λ s, Inv s)); eauto using Inv_init, Inv_step. Qed.

(** C36. However the uploads interleave, fail and get cancelled: no shard is uploaded
    to a host that already holds a shard of the slab, so the developer panic of
    [uploadShards] never happens; each needed shard is migrated at most once, under
    its own root, and to a host of its own out of the candidates. When all
    goroutines have returned every reserved slot is free again. *)
Theorem upload_hosts_distinct (s : upload_state) :
  upload_reachable s →
  panicked s = false ∧
  NoDup (migrated s).*1 ∧ NoDup (Sh_HostKey <$> (migrated s).*2) ∧
  (∀ i sh, (i, sh) ∈ migrated s →
     needed i = true ∧ roots !! i = Some (Sh_Root sh) ∧ Sh_HostKey sh ∈ candidates ∧ Sh_HostKey sh ∉ hosts) ∧
  (upload_done s → ∀ h, writes (pool s) h = writes p0 h).
Proof.
  intros Hr. apply Inv_reachable in Hr as I. destruct (inv_distinct s I).
  split_and!; [apply I|done|done|..].
  - intros i sh Hi. destruct (inv_migrated s I i sh Hi) as (? & ? & ? & ? & ?). split_and!; auto.
  - intros [_ Hw] h. apply (inv_writes s I). intros [i Hi]. by rewrite Hw, lookup_empty in Hi.
Qed.

(** ** Termination *)

Definition weight (w : worker) : nat := match w with Running => 1 | Uploading _ => 2 end.
Definition total (ws : gmap nat worker) : nat := map_fold (λ _ w n, weight w + n) 0 ws.

(** An upper bound on the steps left, besides a cancellation. *)
Definition work (s : upload_state) : nat :=
  3 * (length roots - loop_index s) + 2 * length (available s) + total (workers s) + (if cancelled s then 0 else 1).

Lemma total_insert ws i w : ws !! i = None → total (<[i := w]> ws) = weight w + total ws.
Proof. intros H. unfold total. apply (map_fold_insert_L (λ _ w n, weight w + n)); [intros; lia|done]. Qed.
Lemma total_delete (ws : gmap nat worker) i w : ws !! i = Some w → total ws = weight w + total (delete i ws).
Proof. intros H. unfold total. apply (map_fold_delete_L (λ _ w n, weight w + n)); [intros; lia|done]. Qed.
Lemma total_replace (ws : gmap nat worker) i w w' :
  ws !! i = Some w → total (<[i := w']> ws) + weight w = total ws + weight w'.
Proof.
  intros H. rewrite (total_delete ws i w H). rewrite <-insert_delete_eq, total_insert by apply lookup_delete_eq. lia.
Qed.

Lemma step_work s s' : Inv s → upload_step s s' → work s' < work s.
Proof.
  intros I Hs. pose proof (inv_index s I). destruct Hs; unfold work; simpl.
  - rewrite H0. lia.
  - destruct (cancelled s); lia.
  - assert (workers s !! loop_index s = None) as Hnone.
    { destruct (workers s !! loop_index s) eqn:E; [|done]. destruct (inv_workers s I (loop_index s)); [by eexists|lia]. }
    rewrite total_insert by done. simpl. destruct (cancelled s); lia.
  - rewrite H2. lia.
  - rewrite (total_delete _ _ _ H0). simpl. destruct (cancelled s); lia.
  - destruct (pick_some _ _ _ _ _ _ H1) as [Hp _]. apply Permutation_length in Hp. simpl in Hp.
    pose proof (total_replace _ _ _ (Uploading hk) H0). simpl in *. destruct (cancelled s); lia.
  - rewrite (total_delete _ _ _ H0). simpl. destruct (cancelled s); lia.
  - pose proof (total_replace _ _ _ Running H0). simpl in *. destruct (cancelled s); lia.
  - rewrite (total_delete _ _ _ H0). simpl. destruct (cancelled s); lia.
  - rewrite (total_delete _ _ _ H0). simpl. destruct (cancelled s); lia.
  - rewrite (total_delete _ _ _ H0). simpl. destruct (cancelled s); lia.
Qed.

(** A goroutine can always move. *)
Lemma worker_moves s i w : workers s !! i = Some w → ∃ s', upload_step s s'.
Proof.
  intros Hi. destruct w as [|hk]; [|by eexists; eapply step_fail].
  destruct (pool_PickWrite (pool s) 0 (available s)) as [[[h r] p']|] eqn:E.
  - eexists. by eapply step_pick.
  - eexists. by eapply step_none.
Qed.

Lemma not_done_moves s : Inv s → ¬ upload_done s → ∃ s', upload_step s s'.
Proof.
  intros I Hd. pose proof (inv_index s I).
  destruct (decide (workers s = ∅)) as [Hw|Hw].
  - assert (loop_index s < length roots) as Hlt by (destruct (decide (loop_index s = length roots)); [exfalso; by apply Hd|lia]).
    destruct (needed (loop_index s)) eqn:En; [|by eexists; apply step_skip].
    eexists. apply step_spawn; [done|done|]. rewrite Hw, map_size_empty. lia.
  - apply map_choose in Hw as (i & w & Hi). by eapply worker_moves.
Qed.

(** [uploadShards] returns: a run has at most three steps per shard and two per
    candidate, and one that can not go on has passed [wg.Wait]. *)
Theorem upload_terminates (n : nat) (s : upload_state) :
  nsteps upload_step n init s →
  n ≤ 3 * length roots + 2 * length candidates + 1 ∧ ((∃ s', upload_step s s') ∨ upload_done s).
Proof.
  intros Hn. assert (Inv s) as I by (apply Inv_reachable, rtc_nsteps; by exists n).
  assert (∀ n s1, nsteps upload_step n s1 s → Inv s1 → n + work s ≤ work s1) as Hwork.
  { clear n Hn. intros n. induction n as [|n IH]; intros s1 Hn I1; inversion Hn as [|? ? s2 ? Hs Hn']; subst; [lia|].
    pose proof (step_work _ _ I1 Hs). pose proof (IH _ Hn' (Inv_step _ _ I1 Hs)). lia. }
  apply Hwork in Hn; [|apply Inv_init]. split.
  - unfold work in Hn. simpl in Hn. change (total ∅) with 0 in Hn. lia.
  - destruct (decide (loop_index s = length roots ∧ workers s = ∅)); [by right|left; by apply not_done_moves].
Qed.
End uploads.

(** ** Concrete instances *)

Module UploadsWitness.
Definition roots : list Hash256 := [11; 12; 13]%N.
(** The second shard is to be migrated. *)
Definition needed (i : nat) : bool := Nat.eqb i 1.

Definition start : upload_state := upload_init NewProvider [1; 3]%N [5; 6]%N.
Definition finished : upload_state :=
  mkUpload false 3 ∅ [6]%N {[5; 1; 3]}%N [(1, mkShard 12 5)] (release_write (TrackInflightWrite NewProvider 5) 5) false.

Example upload_run : nsteps (upload_step roots needed) 5 start finished.
Proof.
  eapply nsteps_l; [apply step_skip; [simpl; lia|reflexivity]|].
  eapply nsteps_l; [apply step_spawn; [simpl; lia|reflexivity|vm_compute; lia]|].
  eapply nsteps_l; [eapply (step_pick _ _ _ 1 0%Z 5%N [6]%N); [reflexivity|vm_compute; reflexivity]|].
  eapply nsteps_l; [eapply (step_migrated _ _ _ 1 5%N 12%N); [reflexivity|vm_compute; intuition congruence|reflexivity]|].
  eapply nsteps_l; [apply step_skip; [simpl; lia|reflexivity]|].
  match goal with |- nsteps _ _ ?a _ => replace a with finished; [apply nsteps_O|] end.
  reflexivity.
Qed.

Lemma distinct_hosts : NoDup [5; 6]%N ∧ (∀ h : N, h ∈ [5; 6]%N → h ∉ [1; 3]%N) ∧
  ∀ h : PublicKey, is_i64 (writes NewProvider h).
Proof.
  split; [|split].
  - apply (bool_decide_unpack _). vm_compute. exact I.
  - intros h Hh Hh'. set_solver.
  - intros h. vm_compute. split; congruence.
Qed.

Example upload_hosts_distinct_witness :
  panicked finished = false ∧ (upload_done roots finished → ∀ h, writes (pool finished) h = writes NewProvider h).
Proof.
  destruct distinct_hosts as (H1 & H2 & H3).
  assert (upload_reachable roots needed NewProvider [1; 3]%N [5; 6]%N finished) as Hr
    by (apply rtc_nsteps; exists 5; exact upload_run).
  destruct (upload_hosts_distinct roots needed NewProvider [1; 3]%N [5; 6]%N H1 H2 H3 finished Hr) as (A & _ & _ & _ & B).
  exact (conj A B).
Defined.

Example upload_terminates_witness : 5 ≤ 14 ∧ ((∃ s', upload_step roots needed finished s') ∨ upload_done roots finished).
Proof.
  destruct distinct_hosts as (H1 & H2 & H3).
  exact (upload_terminates roots needed NewProvider [1; 3]%N [5; 6]%N H1 H2 H3 5 finished upload_run).
Defined.
End UploadsWitness.
