(* ===== verification/Recovery.v ===== *)
(** * Recovering shards (src/slabs/downloads.go, the encryption of executeMigration)

    A slab's missing sectors are recovered by reading chunks of its other sectors
    from their hosts, decrypting them, reconstructing the missing columns and
    encrypting the shards again. This file has the chunks, the reads of one chunk as
    a step relation (a goroutine per host, hedged against slow and failing hosts),
    the reconstruction, and the theorem that what is uploaded in the end is the lost
    sector, byte for byte.

    The stream cipher (golang.org/x/crypto/chacha20) and the erasure code
    (klauspost/reedsolomon) are parameters with their documented behaviour. *)

From S2P Require Import Prelude Float Order Encoding External Hosts HostQueue Slabs Uploads.
From Stdlib Require Import Ascii.

Abbreviation bytes := (list byte) (only parsing).

(** ** Libraries *)

(** [proto.LeafSize] *)
Class LeafOps := { LeafSize : Z }.
(** Sectors are whole numbers of leaves, and a leaf is a block of the cipher. *)
Class LeafLaws {C : CurrencyOps} {R : RhpOps} (L : LeafOps) : Prop := {
  LeafSize_block : LeafSize = 64%Z;
  SectorSize_leaves : (0 < SectorSize < 2 ^ 32)%Z ∧ (SectorSize mod LeafSize = 0)%Z }.

(** The key stream of an unauthenticated XChaCha20 cipher whose 24-byte nonce starts
    with the given byte and is zero otherwise: [SetCounter(n)] starts at byte [64 n]. *)
Class CipherOps := { keystream : EncryptionKey → Z → nat → byte }.

(** [reedsolomon.New(data, parity).ReconstructSome(shards, required)]; a missing
    shard is [None]. *)
Class RSOps := { ReconstructSome : nat → nat → list (option bytes) → list bool → result (list (option bytes)) }.

(** Shards form a codeword; the code works column by column; any [data] shards of a
    codeword determine the required ones. *)
Class RSLaws (RS : RSOps) := {
  codeword : nat → list bytes → Prop;
  codeword_columns : ∀ d shards off len, codeword d shards → codeword d ((λ s, take len (drop off s)) <$> shards);
  reconstruct_required : ∀ d p shards cols required,
    codeword d shards → length cols = length shards → length required = length shards → d + p = length shards →
    (∃ n, 0 < n ∧ Forall (λ s, length s = n) shards) →
    (∀ i c, cols !! i = Some (Some c) → shards !! i = Some c) →
    d ≤ length (filter (λ c, is_Some c) cols) →
    ∃ cols', ReconstructSome d p cols required = Ok cols' ∧
      ∀ i, required !! i = Some true → ∃ c, shards !! i = Some c ∧ cols' !! i = Some (Some c) }.

(** ** Chunks *)

Section chunks.
Context {C : CurrencyOps} {R : RhpOps} {L : LeafOps}.

(** The segment-aligned chunk size of [recoverShards]. *)
Definition chunk_size (recoveryChunkSize : Z) : Z :=
  let chunkSize := if ((recoveryChunkSize <=? 0) || (recoveryChunkSize >? SectorSize))%Z then SectorSize else recoveryChunkSize in
  let chunkSize := (chunkSize - Z.rem chunkSize LeafSize)%Z in
  if (chunkSize =? 0)%Z then LeafSize else chunkSize.

Definition num_chunks (chunkSize : Z) : Z := Z.quot (SectorSize + chunkSize - 1) chunkSize.

(** [for off := 0; off < SectorSize; off += chunkSize], one element of fuel per
    chunk: the offsets and lengths. *)
Fixpoint chunks_from (fuel : nat) (off chunkSize : Z) : list (Z * Z) :=
  match fuel with
  | O => []
  | Datatypes.S fuel =>
      if (off <? SectorSize)%Z
      then (off, if (off + chunkSize >? SectorSize)%Z then (SectorSize - off)%Z else chunkSize) ::
           chunks_from fuel (off + chunkSize) chunkSize
      else []
  end.

Definition chunks (chunkSize : Z) : list (Z * Z) := chunks_from (Z.to_nat (num_chunks chunkSize)) 0 chunkSize.

(** [off, len] follow each other without gaps from [a] to [b]. *)
Fixpoint tiles (l : list (Z * Z)) (a b : Z) : Prop :=
  match l with
  | [] => a = b
  | (off, len) :: l => off = a ∧ (0 < len)%Z ∧ tiles l (off + len) b
  end.

Context {LL : LeafLaws L}.

Lemma chunk_size_spec r : (0 < chunk_size r ≤ SectorSize)%Z ∧ (chunk_size r mod LeafSize = 0)%Z.
Proof.
  destruct SectorSize_leaves as [Hs Hm]. pose proof LeafSize_block as Hl.
  assert (LeafSize ≠ 0)%Z as Hz by lia. assert (0 < LeafSize)%Z as Hp by lia. unfold chunk_size.
  set (c := if ((r <=? 0) || (r >? SectorSize))%Z then SectorSize else r).
  assert (0 < c ≤ SectorSize)%Z as Hc.
  { unfold c. destruct (Z.leb_spec r 0), (Z.gtb_spec r SectorSize); simpl; lia. }
  rewrite Z.rem_mod_nonneg by lia. pose proof (Z.div_mod c LeafSize Hz) as Hd.
  pose proof (Z.mod_pos_bound c LeafSize Hp).
  pose proof (Z.div_mod SectorSize LeafSize Hz).
  destruct (Z.eqb_spec (c - c mod LeafSize) 0) as [He|He].
  - split; [nia|by apply Z.mod_same; lia].
  - split; [lia|]. replace (c - c mod LeafSize)%Z with (c / LeafSize * LeafSize)%Z by lia. apply Z.mod_mul. lia.
Qed.

Lemma chunks_from_tiles fuel off cs :
  (0 < cs)%Z → (0 ≤ off ≤ SectorSize)%Z → (SectorSize - off ≤ Z.of_nat fuel * cs)%Z → (cs mod LeafSize = 0)%Z →
  (off mod LeafSize = 0)%Z →
  tiles (chunks_from fuel off cs) off SectorSize ∧
  ∀ o l, (o, l) ∈ chunks_from fuel off cs →
    (0 ≤ o ∧ o + l ≤ SectorSize ∧ 0 < l ≤ cs ∧ o mod LeafSize = 0 ∧ l mod LeafSize = 0)%Z.
Proof.
  intros Hcs. destruct SectorSize_leaves as [_ Hm]. pose proof LeafSize_block as Hl. revert off.
  induction fuel as [|fuel IH]; intros off Hoff Hfuel Hcm Hom; simpl.
  { split; [lia|]. by intros o l ?%elem_of_nil. }
  destruct (Z.ltb_spec off SectorSize) as [Hlt|Hge].
  2: { split; [simpl; lia|]. by intros o l ?%elem_of_nil. }
  assert ((off + cs) mod LeafSize = 0)%Z as Hn by (rewrite Z.add_mod, Hom, Hcm by lia; done).
  assert ((SectorSize - off) mod LeafSize = 0)%Z as Hs by (rewrite Zminus_mod, Hom, Hm; done).
  destruct (Z.gtb_spec (off + cs) SectorSize) as [Hgt|Hle].
  - assert (chunks_from fuel (off + cs) cs = []) as ->.
    { destruct fuel; simpl; [done|]. by rewrite (proj2 (Z.ltb_ge _ _)) by lia. }
    split; [simpl; lia|]. intros o l [= -> ->]%list_elem_of_singleton. lia.
  - destruct (IH (off + cs)%Z) as [Ht Hall]; [lia|lia|done|done|]. split; [simpl; split_and!; [done|lia|done]|].
    intros o l [[= -> ->]|Hin]%elem_of_cons; [lia|auto].
Qed.

Lemma chunks_tile r :
  tiles (chunks (chunk_size r)) 0 SectorSize ∧
  ∀ o l, (o, l) ∈ chunks (chunk_size r) →
    (0 ≤ o ∧ o + l ≤ SectorSize ∧ 0 < l ∧ o mod LeafSize = 0 ∧ l mod LeafSize = 0)%Z.
Proof.
  destruct (chunk_size_spec r) as [Hc Hm]. pose proof LeafSize_block.
  destruct (chunks_from_tiles (Z.to_nat (num_chunks (chunk_size r))) 0 (chunk_size r)) as [H1 H2]; [lia|lia| |done|done|].
  - destruct SectorSize_leaves as [Hs _]. unfold num_chunks. set (cs := chunk_size r) in *.
    assert (cs ≠ 0)%Z as Hz by lia. assert (0 < cs)%Z as Hp by lia. set (n := (SectorSize + cs - 1)%Z).
    assert (0 ≤ n)%Z by (unfold n; lia). rewrite Z.quot_div_nonneg by lia.
    pose proof (Z.div_mod n cs Hz). pose proof (Z.mod_pos_bound n cs Hp).
    pose proof (Z.div_pos n cs H0 Hp). rewrite Z2Nat.id by done. unfold n in *. nia.
  - split; [done|]. intros o l Hin. destruct (H2 o l Hin) as (? & ? & ? & ? & ?). lia.
Qed.
End chunks.

(** ** The cipher *)

Definition xor_byte (a b : byte) : byte :=
  match a, b with
  | Ascii a0 a1 a2 a3 a4 a5 a6 a7, Ascii b0 b1 b2 b3 b4 b5 b6 b7 =>
      Ascii (xorb a0 b0) (xorb a1 b1) (xorb a2 b2) (xorb a3 b3) (xorb a4 b4) (xorb a5 b5) (xorb a6 b6) (xorb a7 b7)
  end.

Lemma xor_byte_involutive a k : xor_byte (xor_byte a k) k = a.
Proof. destruct a, k. simpl. by rewrite !xorb_assoc, !xorb_nilpotent, !xorb_false_r. Qed.

Section cipher.
Context {K : CipherOps}.

(** [c.SetCounter(counter)] and [c.XORKeyStream(b, b)] of the cipher with
    [nonce[0] = byte(i)]. *)
Definition XORKeyStream (key : EncryptionKey) (i : nat) (counter : Z) (b : bytes) : bytes :=
  imap (λ k c, xor_byte c (keystream key (Z.of_nat i mod 256) (Z.to_nat (64 * counter) + k))) b.

Lemma XORKeyStream_lookup key i counter b k :
  XORKeyStream key i counter b !! k =
    (λ c, xor_byte c (keystream key (Z.of_nat i mod 256) (Z.to_nat (64 * counter) + k))) <$> b !! k.
Proof. apply list_lookup_imap. Qed.

Lemma XORKeyStream_length key i counter b : length (XORKeyStream key i counter b) = length b.
Proof. apply length_imap. Qed.

Lemma XORKeyStream_involutive key i counter b : XORKeyStream key i counter (XORKeyStream key i counter b) = b.
Proof.
  apply list_eq. intros k. rewrite !XORKeyStream_lookup. destruct (b !! k); simpl; [|done].
  by rewrite xor_byte_involutive.
Qed.

(** A block-aligned window of a shard decrypts on its own. *)
Lemma XORKeyStream_window key i counter len b :
  (0 ≤ counter)%Z →
  XORKeyStream key i counter (take len (drop (Z.to_nat (64 * counter)) (XORKeyStream key i 0 b))) =
    take len (drop (Z.to_nat (64 * counter)) b).
Proof.
  intros Hc. apply list_eq. intros k. rewrite XORKeyStream_lookup. destruct (decide (k < len)) as [Hk|Hk].
  - rewrite !lookup_take_lt by done. rewrite !lookup_drop, XORKeyStream_lookup.
    destruct (b !! _); simpl; [|done]. by rewrite xor_byte_involutive.
  - by rewrite !lookup_take_ge by lia.
Qed.
End cipher.

(** ** Reconstruction *)

Section reconstruct.
Context {L : LeafOps} {K : CipherOps} {RS : RSOps}.

Definition decrypt_cols (key : EncryptionKey) (counter : Z) (cols : list (option bytes)) : list (option bytes) :=
  imap (λ i c, XORKeyStream key i counter <$> c) cols.

Definition is_required (required : list bool) (i : nat) : bool := default false (required !! i).

(** [copy(r.out[i][offset:offset+length], cols[i])] for the required shards. *)
Definition write_out (offset len : nat) (required : list bool) (cols out : list (option bytes)) : list (option bytes) :=
  imap (λ i o, if is_required required i
               then (λ b, list_inserts offset (take len (default [] (mjoin (cols !! i)))) b) <$> o else o) out.

Definition reconstructChunk (slab : Slab) (required : list bool) (offset len : Z) (cols out : list (option bytes)) :
    result (list (option bytes)) :=
  let counter := ((Z.quot offset LeafSize) mod 2 ^ 32)%Z in
  let data := Z.to_nat (Slab_MinShards slab) in
  match ReconstructSome data (length (Slab_Sectors slab) - data) (decrypt_cols (Slab_EncryptionKey slab) counter cols) required with
  | Ok cols => Ok (write_out (Z.to_nat offset) (Z.to_nat len) required cols out)
  | Err e => Err (EWrap "failed to reconstruct chunk at offset %d: " e "")
  | Panic => Panic
  end.

(** The flags that [executeMigration] makes of the indices of the sectors to migrate. *)
Definition required_flags (slab : Slab) (indices : list nat) : list bool :=
  foldl (λ l i, <[i := true]> l) (replicate (length (Slab_Sectors slab)) false) indices.

(** The encryption of the recovered shards in [executeMigration]. *)
Definition reencrypt (slab : Slab) (required : list bool) (shards : list (option bytes)) : list (option bytes) :=
  imap (λ i s, if is_required required i then XORKeyStream (Slab_EncryptionKey slab) i 0 <$> s else None) shards.
End reconstruct.

(** ** The hosts that are read from *)

(** [PickReads], its release functions and the demotion of hosts in the interface
    [HostClient] of src/slabs/manager.go. *)
Class ReadPool (P : Type) := {
  pool_PickReads : P → list PublicKey → nat → list PublicKey → list PublicKey → P → Prop;
  pool_release_read : P → PublicKey → P;
  pool_AddFailedRPC : P → Z → PublicKey → P;
  pool_AddTimedOutRPC : P → Z → PublicKey → Z → Z → P }.

(** Picked and remaining hosts are candidates; [n] hosts are picked, or none. *)
Class ReadPoolLaws {P} (W : ReadPool P) : Prop := {
  pick_reads_candidates : ∀ p l n picked rem p',
    pool_PickReads p l n picked rem p' → ∃ l', picked ++ rem ≡ₚ l' ∧ l' `sublist_of` l;
  pick_reads_number : ∀ p l n picked rem p', pool_PickReads p l n picked rem p' → picked = [] ∨ length picked = n }.

(** The provider of HostQueue.v; the store knows which hosts are usable. *)
Section provider.
Context {S : Type} `{CS : @ClientStore S}.
Context (time_Now : M S Z) {SR : StoreReads time_Now}.

Definition provider_reads : ReadPool Provider := {|
  pool_PickReads p l n picked rem p' := ∃ s, PickReads time_Now l n (s, p) = (Ok (picked, rem), (s, p'));
  pool_release_read := release_read;
  pool_AddFailedRPC := AddFailedRPC;
  pool_AddTimedOutRPC p now h bytes elapsed := AddTimedOutRPC p now h false bytes elapsed |}.

Lemma provider_reads_laws : ReadPoolLaws provider_reads.
Proof.
  split; intros p l n picked rem p' [s Hp]; rewrite (PickReads_spec time_Now (SR:=SR)) in Hp; cbv zeta in Hp.
  - exists (filter (λ h, usable_at time_Now s h = true) l). split; [|apply sublist_filter].
    set (sorted := sortHosts _ _ _) in Hp. assert (sorted ≡ₚ filter (λ h, usable_at time_Now s h = true) l) as <- by apply SliceStable_perm.
    destruct (Nat.ltb _ n); injection Hp as <- <- _; [done|by rewrite take_drop].
  - destruct (Nat.ltb_spec (length (sortHosts p (now_at time_Now s) (filter (λ h, usable_at time_Now s h = true) l))) n);
      injection Hp as <- _ _; [by left|]. right. rewrite length_take. lia.
Qed.
End provider.

(** ** Reading a chunk *)

Definition raceFactor : float64 := of_decimal 15 1.
Definition minRaceInterval : Z := 200000000.

(** How long a chunk waits for its reads before it hedges. *)
Definition raceInterval (oor : float64 → Z) (p : Provider) (shardTimeout len : Z) : Z :=
  let d := to_int64 oor (fmul (of_int (ReadEstimate oor p len)) raceFactor) in
  let d := if (d <? minRaceInterval)%Z then minRaceInterval else d in
  if (d >? shardTimeout)%Z then shardTimeout else d.

Lemma raceInterval_bounds oor p shardTimeout len :
  (Z.min minRaceInterval shardTimeout ≤ raceInterval oor p shardTimeout len ≤ shardTimeout)%Z.
Proof.
  unfold raceInterval. set (d := to_int64 _ _). destruct (Z.ltb_spec d minRaceInterval).
  - destruct (Z.gtb_spec minRaceInterval shardTimeout); lia.
  - destruct (Z.gtb_spec d shardTimeout); lia.
Qed.

Definition errNotEnoughShards : string := "not enough shards".

(** Errors of a host: [proto.ErrSectorNotFound] and [proto.ErrSectorCorrupt]. *)
Class SectorErrors := { ErrSectorNotFound : string; ErrSectorCorrupt : string }.

Definition isErrLostSector {SE : SectorErrors} (err : error) : bool :=
  errors_Is err ErrSectorNotFound || errors_Is err ErrSectorCorrupt.

Section recovery.
Context {C : CurrencyOps} {R : RhpOps} {L : LeafOps} {K : CipherOps} {RS : RSOps} {SE : SectorErrors} {P : Type} {W : ReadPool P}.
Variable slab : Slab.
Variable required : list bool.

(** What [ReadSector] can return for a root, an offset and a length. *)
Variable reads : Hash256 → Z → Z → bytes → Prop.

Definition min_shards : nat := Z.to_nat (Slab_MinShards slab).
(** [uint32(r.slab.MinShards)] *)
Definition wanted : Z := (Slab_MinShards slab mod 2 ^ 32)%Z.

(** The lines of [recoverChunk] before the hosts are picked: the candidates, and
    the root and index of the sector each of them stores. *)
Definition add_candidate (excluded : gset PublicKey) (st : list PublicKey * gmap PublicKey (Hash256 * nat)) (p : nat * Sector) :=
  match Sec_HostKey p.2 with
  | None => st
  | Some hk =>
      if bool_decide (hk ∈ excluded) then st
      else if st.2 !! hk then st
      else (st.1 ++ [hk], <[hk := (Sec_Root p.2, p.1)]> st.2)
  end.

Definition candidates_of (excluded : gset PublicKey) : list PublicKey * gmap PublicKey (Hash256 * nat) :=
  foldl (add_candidate excluded) ([], ∅) (imap pair (Slab_Sectors slab)).

(** Where [recoverChunk] is: in [initialLoop], at the head of [raceLoop], waiting
    for a slot to hedge, at [wg.Wait()]. *)
Inductive phase := Filling | Racing | Hedging | Waiting.

Record chunk := mkChunk {
  ck_phase : phase;
  cols : list (option bytes);
  downloaded : Z;
  ck_cancelled : bool;                              (* [cancel()] was called *)
  slabHosts : gmap PublicKey (Hash256 * nat);
  initialHosts : list PublicKey;                    (* the ones not spawned yet *)
  remaining : list PublicKey;
  downloads : list (PublicKey * bool) }.            (* the goroutines, [initial] or not *)

Definition with_phase (c : chunk) (ph : phase) : chunk :=
  mkChunk ph (cols c) (downloaded c) (ck_cancelled c) (slabHosts c) (initialHosts c) (remaining c) (downloads c).
Definition with_hosts (c : chunk) (ph : phase) (initial rem : list PublicKey) (ws : list (PublicKey * bool)) : chunk :=
  mkChunk ph (cols c) (downloaded c) (ck_cancelled c) (slabHosts c) initial rem ws.

(** What the chunks of a recovery share. *)
Record shared := mkShared { excluded : gset PublicKey; lost : list Shard; sh_pool : P }.

Definition with_pool (sh : shared) (p : P) : shared := mkShared (excluded sh) (lost sh) p.

Definition markLost (sh : shared) (hostKey : PublicKey) (root : Hash256) : shared :=
  mkShared ({[hostKey]} ∪ excluded sh) (lost sh ++ [mkShard root hostKey]) (sh_pool sh).

Definition sector_of (c : chunk) (h : PublicKey) : Hash256 * nat := default (0%N, 0) (slabHosts c !! h).

Definition new_chunk (sectors : gmap PublicKey (Hash256 * nat)) (initial rem : list PublicKey) : chunk :=
  mkChunk Filling (replicate (length (Slab_Sectors slab)) None) 0 false sectors initial rem [].

(** A step of the chunk at [off, len]; [done] says that the context of the
    recovery is done. A read of the goroutine of a host succeeds, or fails: the
    read slot is free again, the failure is signalled, the host is demoted when it
    used up the shard timeout or lost the race. The timer of the race loop can
    fire at any time. *)
Inductive chunk_step (done : bool) (off len : Z) : chunk → shared → chunk → shared → Prop :=
  (** [case sema <- struct{}{}] of [initialLoop] *)
  | chunk_spawn c sh h t :
      ck_phase c = Filling → initialHosts c = h :: t → length (downloads c) < min_shards →
      chunk_step done off len c sh (with_hosts c Filling t (remaining c) (downloads c ++ [(h, true)])) sh
  (** [case <-ctx.Done()]: the other hosts are released *)
  | chunk_abandon c sh :
      ck_phase c = Filling → ck_cancelled c || done = true →
      chunk_step done off len c sh (with_hosts c Racing [] (remaining c) (downloads c))
        (with_pool sh (foldl pool_release_read (sh_pool sh) (initialHosts c)))
  | chunk_filled c sh :
      ck_phase c = Filling → initialHosts c = [] → chunk_step done off len c sh (with_phase c Racing) sh
  (** the condition of [raceLoop] *)
  | chunk_hedge c sh :
      ck_phase c = Racing → (downloaded c < wanted)%Z → remaining c ≠ [] →
      chunk_step done off len c sh (with_phase c Hedging) sh
  | chunk_race_end c sh :
      ck_phase c = Racing → ¬ ((downloaded c < wanted)%Z ∧ remaining c ≠ []) →
      chunk_step done off len c sh (with_phase c Waiting) sh
  (** a host more, when a slot is free *)
  | chunk_race c sh picked rem p' :
      ck_phase c = Hedging → length (downloads c) < min_shards →
      pool_PickReads (sh_pool sh) (remaining c) 1 picked rem p' →
      chunk_step done off len c sh
        match picked with
        | [] => with_phase c Waiting
        | h :: _ => with_hosts c Racing (initialHosts c) rem (downloads c ++ [(h, false)])
        end (with_pool sh p')
  | chunk_race_cancelled c sh :
      ck_phase c = Hedging → ck_cancelled c || done = true → chunk_step done off len c sh (with_phase c Waiting) sh
  (** [downloadShard] *)
  | chunk_read c sh ws1 w ws2 data :
      downloads c = ws1 ++ w :: ws2 → reads (sector_of c w.1).1 off len data →
      let n := ((downloaded c + 1) mod 2 ^ 32)%Z in
      chunk_step done off len c sh
        (mkChunk (ck_phase c) (<[(sector_of c w.1).2 := Some data]> (cols c)) n
           (ck_cancelled c || (wanted <=? n)%Z) (slabHosts c) (initialHosts c) (remaining c) (ws1 ++ ws2))
        (with_pool sh (pool_release_read (sh_pool sh) w.1))
  | chunk_fail c sh ws1 w ws2 err (timed_out : bool) now elapsed :
      downloads c = ws1 ++ w :: ws2 →
      let marked := if isErrLostSector err then markLost sh w.1 (sector_of c w.1).1 else sh in
      let ctx_done := ck_cancelled c || done in
      let p := if timed_out && negb ctx_done then pool_AddTimedOutRPC (sh_pool marked) now w.1 len elapsed
               else if w.2 && ctx_done then pool_AddFailedRPC (sh_pool marked) now w.1
               else sh_pool marked in
      chunk_step done off len c sh
        (with_hosts c (ck_phase c) (initialHosts c) (remaining c) (ws1 ++ ws2))
        (with_pool marked (pool_release_read p w.1)).

(** ** The recovery *)

Record recovery := mkRecovery {
  todo : list (Z * Z);                              (* the chunks not started *)
  chunks_running : list ((Z * Z) * option chunk);   (* [None] before the hosts are picked *)
  rec_shared : shared;
  out : list (option bytes);
  ctx_err : option error;                           (* [ctx.Err()] *)
  firstErr : option error }.

Definition recovery_init (recoveryChunkSize : Z) (p : P) : recovery :=
  mkRecovery (chunks (chunk_size recoveryChunkSize)) [] (mkShared ∅ [] p)
    (imap (λ i _, if is_required required i then Some (replicate (Z.to_nat SectorSize) Ascii.zero) else None) (Slab_Sectors slab))
    None None.

(** How many chunks are recovered at once. *)
Definition concurrency (recoveryChunkSize : Z) : Z :=
  let spread := Z.max (Z.quot (Z.of_nat (length (Slab_Sectors slab))) (Slab_MinShards slab)) 1 in
  Z.min spread (num_chunks (chunk_size recoveryChunkSize)).

(** The goroutine of a chunk returned; the first error cancels the recovery. *)
Definition chunk_returns (s : recovery) (running : list ((Z * Z) * option chunk)) (sh : shared)
    (out' : list (option bytes)) (res : option error) : recovery :=
  match res with
  | None => mkRecovery (todo s) running sh out' (ctx_err s) (firstErr s)
  | Some e =>
      mkRecovery (todo s) running sh out'
        (match ctx_err s with Some e => Some e | None => Some (ESentinel context_Canceled) end)
        (match firstErr s with Some e => Some e | None => Some e end)
  end.

Inductive recovery_step (n : Z) : recovery → recovery → Prop :=
  (** the context of the caller *)
  | rec_cancel s e :
      ctx_err s = None → is_ctx_err e = true →
      recovery_step n s (mkRecovery (todo s) (chunks_running s) (rec_shared s) (out s) (Some e) (firstErr s))
  | rec_break s :
      todo s ≠ [] → is_Some (ctx_err s) →
      recovery_step n s (mkRecovery [] (chunks_running s) (rec_shared s) (out s) (ctx_err s) (firstErr s))
  | rec_spawn s w t :
      todo s = w :: t → (Z.of_nat (length (chunks_running s)) < n)%Z →
      recovery_step n s (mkRecovery t (chunks_running s ++ [(w, None)]) (rec_shared s) (out s) (ctx_err s) (firstErr s))
  | rec_begin s l1 w l2 picked rem p' :
      chunks_running s = l1 ++ (w, None) :: l2 →
      let candidates := candidates_of (excluded (rec_shared s)) in
      pool_PickReads (sh_pool (rec_shared s)) candidates.1 min_shards picked rem p' →
      recovery_step n s
        (let sh := with_pool (rec_shared s) p' in
         match picked with
         | [] => chunk_returns s (l1 ++ l2) sh (out s)
                   (Some (EWrap "only %d available sectors, minimum required: %d: " (ESentinel errNotEnoughShards) ""))
         | _ => mkRecovery (todo s) (l1 ++ (w, Some (new_chunk candidates.2 picked rem)) :: l2) sh (out s) (ctx_err s) (firstErr s)
         end)
  | rec_chunk s l1 w c l2 c' sh' :
      chunks_running s = l1 ++ (w, Some c) :: l2 →
      chunk_step (bool_decide (is_Some (ctx_err s))) w.1 w.2 c (rec_shared s) c' sh' →
      recovery_step n s (mkRecovery (todo s) (l1 ++ (w, Some c') :: l2) sh' (out s) (ctx_err s) (firstErr s))
  (** after [wg.Wait()] of the chunk *)
  | rec_short s l1 w c l2 :
      chunks_running s = l1 ++ (w, Some c) :: l2 → ck_phase c = Waiting → downloads c = [] →
      (downloaded c < wanted)%Z →
      recovery_step n s (chunk_returns s (l1 ++ l2) (rec_shared s) (out s)
        (Some (EWrap "downloaded %d sectors, minimum required: %d: " (ESentinel errNotEnoughShards) "")))
  | rec_reconstructed s l1 w c l2 out' :
      chunks_running s = l1 ++ (w, Some c) :: l2 → ck_phase c = Waiting → downloads c = [] →
      ¬ (downloaded c < wanted)%Z →
      reconstructChunk slab required w.1 w.2 (cols c) (out s) = Ok out' →
      recovery_step n s (chunk_returns s (l1 ++ l2) (rec_shared s) out' None)
  | rec_not_reconstructed s l1 w c l2 e :
      chunks_running s = l1 ++ (w, Some c) :: l2 → ck_phase c = Waiting → downloads c = [] →
      ¬ (downloaded c < wanted)%Z →
      reconstructChunk slab required w.1 w.2 (cols c) (out s) = Err e →
      recovery_step n s (chunk_returns s (l1 ++ l2) (rec_shared s) (out s) (Some e)).

Definition recovery_done (s : recovery) : Prop := todo s = [] ∧ chunks_running s = [].

(** What [recoverShards] returns, besides [lost]. *)
Definition recovery_result (s : recovery) : result (list (option bytes)) :=
  match firstErr s with
  | Some e => Err e
  | None => match ctx_err s with Some e => Err e | None => Ok (out s) end
  end.

(** ** What the reads of a chunk have in their columns *)

Context {LL : LeafLaws L} {RL : RSLaws RS} {WL : ReadPoolLaws W}.
(** A host can only answer with bytes of the one sector that has the root, since
    [ReadSector] checks the proof. *)
Variable sector_data : Hash256 → bytes.
Definition window (off len : Z) (b : bytes) : bytes := take (Z.to_nat len) (drop (Z.to_nat off) b).
Hypothesis reads_verified : ∀ root off len data, reads root off len data → data = window off len (sector_data root).

Abbreviation sectors := (Slab_Sectors slab) (only parsing).

(** How many columns there are. *)
Fixpoint present (l : list (option bytes)) : nat :=
  match l with [] => 0 | o :: l => (if o then 1 else 0) + present l end.

Lemma present_insert l i b : l !! i = Some None → present (<[i := Some b]> l) = Datatypes.S (present l).
Proof.
  revert i. induction l as [|o l IH]; intros [|i] H; simplify_eq/=; [done|]. rewrite (IH i H). destruct o; simpl; lia.
Qed.
Lemma present_replicate n : present (replicate n None) = 0.
Proof. by induction n. Qed.
Lemma present_le l : present l ≤ length l.
Proof. induction l as [|[] l IH]; simpl; lia. Qed.
Lemma present_imap (f : nat → bytes → bytes) l : present (imap (λ i c, f i <$> c) l) = present l.
Proof. revert f. induction l as [|[] l IH]; intros f; [done|..]; rewrite imap_cons; simpl; by rewrite <-(IH (f ∘ Datatypes.S)). Qed.
Lemma present_filter l : length (filter (λ c, is_Some c) l) = present l.
Proof.
  induction l as [|o l IH]; [done|]. rewrite filter_cons. case_decide as Hd; destruct o; simpl; try lia.
  - by destruct Hd.
  - by destruct Hd.
Qed.

(** The hosts a chunk reads from or may still read from. *)
Definition pending (c : chunk) : list PublicKey := (downloads c).*1 ++ initialHosts c ++ remaining c.

Record ChunkInv (off len : Z) (c : chunk) : Prop := {
  ci_length : length (cols c) = length sectors;
  ci_hosts : ∀ h r i, slabHosts c !! h = Some (r, i) →
    ∃ sec, sectors !! i = Some sec ∧ Sec_Root sec = r ∧ Sec_HostKey sec = Some h;
  ci_nodup : NoDup (pending c);
  ci_pending : ∀ h, h ∈ pending c → ∃ r i, slabHosts c !! h = Some (r, i) ∧ cols c !! i = Some None;
  ci_cols : ∀ i d, cols c !! i = Some (Some d) → ∃ sec, sectors !! i = Some sec ∧ d = window off len (sector_data (Sec_Root sec));
  ci_count : downloaded c = Z.of_nat (present (cols c)) }.

Definition lost_ok (sh : shared) : Prop :=
  ∀ x, x ∈ lost sh → ∃ sec, sec ∈ sectors ∧ Sec_Root sec = Sh_Root x ∧ Sec_HostKey sec = Some (Sh_HostKey x).

Hypothesis few_sectors : (0 < Slab_MinShards slab ≤ Z.of_nat (length sectors))%Z ∧ (Z.of_nat (length sectors) < 2 ^ 32)%Z.

Lemma wanted_min : wanted = Slab_MinShards slab.
Proof. unfold wanted. apply Z.mod_small. lia. Qed.

(** A step that reads nothing and adds no host. *)
Lemma ChunkInv_same off len c ph can initial rem ws :
  ChunkInv off len c → ws.*1 ++ initial ++ rem ⊆+ pending c →
  ChunkInv off len (mkChunk ph (cols c) (downloaded c) can (slabHosts c) initial rem ws).
Proof.
  intros I Hsub. constructor; simpl; try apply I.
  - destruct (submseteq_Permutation _ _ Hsub) as [k Hk]. pose proof (ci_nodup off len c I) as Hnd.
    rewrite Hk in Hnd. by apply NoDup_app in Hnd as (? & _).
  - intros h Hh. apply (ci_pending off len c I). by apply (elem_of_submseteq _ _ _ Hh).
Qed.

Lemma candidates_of_spec ex :
  NoDup (candidates_of ex).1 ∧
  (∀ h, h ∈ (candidates_of ex).1 → is_Some ((candidates_of ex).2 !! h)) ∧
  (∀ h r i, (candidates_of ex).2 !! h = Some (r, i) →
     ∃ sec, sectors !! i = Some sec ∧ Sec_Root sec = r ∧ Sec_HostKey sec = Some h).
Proof.
  unfold candidates_of.
  assert (∀ l st, (∀ i sec, (i, sec) ∈ l → sectors !! i = Some sec) →
    (NoDup st.1 ∧ (∀ h, h ∈ st.1 ↔ is_Some (st.2 !! h)) ∧
     ∀ h r i, st.2 !! h = Some (r, i) → ∃ sec, sectors !! i = Some sec ∧ Sec_Root sec = r ∧ Sec_HostKey sec = Some h) →
    let st := foldl (add_candidate ex) st l in
    NoDup st.1 ∧ (∀ h, h ∈ st.1 ↔ is_Some (st.2 !! h)) ∧
    ∀ h r i, st.2 !! h = Some (r, i) → ∃ sec, sectors !! i = Some sec ∧ Sec_Root sec = r ∧ Sec_HostKey sec = Some h) as H.
  { induction l as [|[i sec] l IH]; intros st Hl Hst; [done|]. simpl. apply IH; [intros j x Hx; apply Hl; by right|].
    unfold add_candidate. simpl. destruct (Sec_HostKey sec) as [hk|] eqn:Ek; [|done]. case_bool_decide; [done|].
    destruct (st.2 !! hk) eqn:El; [done|]. destruct Hst as (Hnd & Hin & Hsec). simpl. split_and!.
    - apply NoDup_app. split_and!; [done| |apply NoDup_singleton].
      intros h Hh%Hin ->%list_elem_of_singleton. rewrite El in Hh. by destruct Hh.
    - intros h. rewrite elem_of_app, list_elem_of_singleton, lookup_insert_is_Some', Hin. split; intros [?|?]; auto.
    - intros h r j [[<- [= <- <-]]|[_ Hj]]%lookup_insert_Some; [|eauto]. exists sec. split_and!; [|done|done].
      apply Hl. left. }
  destruct (H (imap pair sectors) ([], ∅)) as (H1 & H2 & H3).
  - intros i sec Hi. apply list_elem_of_lookup in Hi as [k Hk]. rewrite list_lookup_imap in Hk.
    destruct (sectors !! k) eqn:E; [|done]. by injection Hk as <- <-.
  - simpl. split_and!; [constructor| |by intros h r i Hh; rewrite lookup_empty in Hh].
    intros h. rewrite lookup_empty. split; [by intros ?%elem_of_nil|by intros [? ?]].
  - split_and!; [done|intros h; by rewrite H2|done].
Qed.

Lemma ChunkInv_new off len ex p picked rem p' :
  pool_PickReads p (candidates_of ex).1 min_shards picked rem p' →
  ChunkInv off len (new_chunk (candidates_of ex).2 picked rem).
Proof.
  intros Hp. destruct (candidates_of_spec ex) as (Hnd & Hin & Hsec).
  apply pick_reads_candidates in Hp as (l' & Hperm & Hsub). constructor; unfold new_chunk, pending; simpl.
  - by rewrite length_replicate.
  - done.
  - rewrite Hperm. by apply (sublist_NoDup _ _ Hnd).
  - intros h Hh. rewrite Hperm in Hh. destruct (Hin h) as [[r i] Hi]; [by apply (elem_of_sublist _ _ _ Hh)|].
    exists r, i. split; [done|]. destruct (Hsec _ _ _ Hi) as (sec & Hs & _). apply lookup_lt_Some in Hs.
    by apply lookup_replicate.
  - intros i d [? _]%lookup_replicate. done.
  - by rewrite present_replicate.
Qed.

Lemma ChunkInv_step done off len c sh c' sh' :
  ChunkInv off len c → lost_ok sh → chunk_step done off len c sh c' sh' → ChunkInv off len c' ∧ lost_ok sh'.
Proof.
  intros I Hl Hs. destruct Hs as [c sh h t Hph Hi Hn|c sh|c sh|c sh|c sh|c sh picked rem p' Hph Hn Hp|c sh
    |c sh ws1 w ws2 data Hw Hd n|c sh ws1 w ws2 err timed_out now elapsed Hw sh1 ctx_done p].
  - split; [|done]. apply ChunkInv_same; [done|]. unfold pending. rewrite Hi, fmap_app. simpl. by rewrite <-!app_assoc.
  - split; [|done]. apply ChunkInv_same; [done|]. unfold pending. simpl. apply submseteq_app; [done|]. by apply submseteq_inserts_l.
  - split; [|done]. by apply ChunkInv_same.
  - split; [|done]. by apply ChunkInv_same.
  - split; [|done]. by apply ChunkInv_same.
  - split; [|done]. destruct picked as [|h picked]; [by apply ChunkInv_same|].
    destruct (pick_reads_number _ _ _ _ _ _ Hp) as [|Hlen]; [done|]. destruct picked; [|done].
    apply pick_reads_candidates in Hp as (l' & Hperm & Hsub). apply ChunkInv_same; [done|]. unfold pending.
    rewrite fmap_app. simpl. rewrite <-app_assoc. apply submseteq_app; [done|]. simpl.
    rewrite Permutation_middle. apply submseteq_app; [done|]. simpl in Hperm. rewrite Hperm. by apply sublist_submseteq.
  - split; [|done]. by apply ChunkInv_same.
  - split; [|done]. assert (w.1 ∈ pending c) as Hin by (unfold pending; rewrite Hw, fmap_app; simpl; set_solver).
    destruct (ci_pending off len c I _ Hin) as (r & i & Hr & Hi). unfold sector_of in *. rewrite Hr in *. simpl in *.
    apply reads_verified in Hd. subst data. pose proof (ci_nodup off len c I) as Hnd.
    assert (pending c ≡ₚ w.1 :: (ws1 ++ ws2).*1 ++ initialHosts c ++ remaining c) as Hperm.
    { unfold pending. rewrite Hw, !fmap_app. simpl. by rewrite <-Permutation_middle. }
    rewrite Hperm in Hnd. apply NoDup_cons in Hnd as [Hfresh Hnd].
    destruct (ci_hosts off len c I _ _ _ Hr) as (sec & Hsec & Hroot & Hkey). constructor; simpl.
    + rewrite length_insert. apply I.
    + apply I.
    + done.
    + intros h Hh. destruct (ci_pending off len c I h) as (r' & j & Hr' & Hj); [rewrite Hperm; by right|].
      exists r', j. split; [done|]. rewrite list_lookup_insert_ne; [done|]. intros <-.
      destruct (ci_hosts off len c I _ _ _ Hr') as (sec' & Hsec' & _ & Hkey'). assert (h = w.1) as -> by congruence. by apply Hfresh.
    + intros j d. rewrite list_lookup_insert_Some. intros [(<- & [= <-] & _)|[_ Hj]]; [|by apply (ci_cols off len c I)].
      exists sec. by rewrite Hroot.
    + unfold n. rewrite present_insert by done. rewrite (ci_count off len c I).
      pose proof (present_le (<[i:=Some (window off len (sector_data r))]> (cols c))) as Hle.
      rewrite present_insert, length_insert, (ci_length off len c I) in Hle by done. rewrite Z.mod_small; lia.
  - split.
    + apply ChunkInv_same; [done|]. unfold pending. rewrite Hw, !fmap_app. simpl.
      apply submseteq_app; [|done]. apply submseteq_app; [done|]. by apply submseteq_cons.
    + unfold sh1. destruct (isErrLostSector err); [|done]. intros x [Hx|Hx]%elem_of_app; [exact (Hl x Hx)|].
      apply list_elem_of_singleton in Hx as ->. simpl.
      assert (w.1 ∈ pending c) as Hin by (unfold pending; rewrite Hw, fmap_app; simpl; set_solver).
      destruct (ci_pending off len c I _ Hin) as (r & i & Hr & _). unfold sector_of. rewrite Hr. simpl.
      destruct (ci_hosts off len c I _ _ _ Hr) as (sec & Hsec & Hroot & Hkey). exists sec.
      split_and!; [by apply list_elem_of_lookup_2 in Hsec|done|done].
Qed.

(** ** The lost shards *)

(** The shards of the slab: a codeword of whole sectors, which the sectors of the
    slab hold in encrypted form. *)
Variable plain : list bytes.
Hypothesis plain_codeword : codeword min_shards plain.
Hypothesis plain_length : ∀ i b, plain !! i = Some b → length b = Z.to_nat SectorSize.
Hypothesis plain_stored : (λ sec, sector_data (Sec_Root sec)) <$> sectors =
  imap (λ i b, XORKeyStream (Slab_EncryptionKey slab) i 0 b) plain.
(** [recoverShards] panics otherwise. *)
Hypothesis required_length : length required = length sectors.

Lemma plain_sectors : length plain = length sectors.
Proof. pose proof (f_equal length plain_stored) as H. rewrite length_fmap, length_imap in H. done. Qed.

Lemma plain_sector i sec : sectors !! i = Some sec →
  ∃ b, plain !! i = Some b ∧ sector_data (Sec_Root sec) = XORKeyStream (Slab_EncryptionKey slab) i 0 b.
Proof.
  intros Hi. pose proof (f_equal (lookup i) plain_stored) as H. rewrite list_lookup_fmap, Hi, list_lookup_imap in H.
  destruct (plain !! i) as [b|]; [|done]. exists b. split; [done|]. by injection H.
Qed.

(** A window of a chunk. *)
Definition window_ok (w : Z * Z) : Prop :=
  (0 ≤ w.1 ∧ w.1 + w.2 ≤ SectorSize ∧ 0 < w.2 ∧ w.1 mod LeafSize = 0 ∧ w.2 mod LeafSize = 0)%Z.

Lemma window_length w b : window_ok w → length b = Z.to_nat SectorSize → length (window w.1 w.2 b) = Z.to_nat w.2.
Proof. intros Hw Hb. unfold window. rewrite length_take, length_drop, Hb. unfold window_ok in Hw. lia. Qed.

Lemma window_lookup w b k : (w.1 ≤ Z.of_nat k < w.1 + w.2)%Z → (0 ≤ w.1)%Z →
  window w.1 w.2 b !! (k - Z.to_nat w.1) = b !! k.
Proof. intros Hk Hw. unfold window. rewrite lookup_take_lt by lia. rewrite lookup_drop. f_equal. lia. Qed.

(** Enough columns give the required shards. *)
Lemma reconstructChunk_spec w c out0 :
  window_ok w → ChunkInv w.1 w.2 c → ¬ (downloaded c < wanted)%Z →
  ∃ cols', reconstructChunk slab required w.1 w.2 (cols c) out0 =
      Ok (write_out (Z.to_nat w.1) (Z.to_nat w.2) required cols' out0) ∧
    ∀ i, required !! i = Some true → ∃ b, plain !! i = Some b ∧ cols' !! i = Some (Some (window w.1 w.2 b)).
Proof.
  intros Hw I Hn. pose proof LeafSize_block as Hl. destruct SectorSize_leaves as [Hs _].
  rewrite wanted_min in Hn. rewrite (ci_count _ _ _ I) in Hn. pose proof plain_sectors as Hps.
  pose proof Hw as (Hw1 & Hw2 & Hw3 & Hw4 & _).
  assert (64 * (Z.quot w.1 LeafSize mod 2 ^ 32) = w.1)%Z as Hcounter.
  { rewrite Hl in *. rewrite Z.quot_div_nonneg by lia. pose proof (Z.div_mod w.1 64 ltac:(lia)).
    rewrite Z.mod_small; [lia|]. split; [apply Z.div_pos; lia|]. apply Z.div_lt_upper_bound; lia. }
  unfold reconstructChunk. set (counter := (Z.quot w.1 LeafSize mod 2 ^ 32)%Z) in *.
  destruct (reconstruct_required min_shards (length sectors - min_shards) (window w.1 w.2 <$> plain)
    (decrypt_cols (Slab_EncryptionKey slab) counter (cols c)) required) as (cols' & Hrec & Hreq).
  - by apply codeword_columns.
  - unfold decrypt_cols. rewrite length_imap, length_fmap, (ci_length _ _ _ I). done.
  - by rewrite length_fmap, Hps.
  - rewrite length_fmap, Hps. unfold min_shards. lia.
  - exists (Z.to_nat w.2). split; [lia|]. apply Forall_fmap, Forall_forall. intros b Hb.
    apply list_elem_of_lookup in Hb as [i Hi]. apply window_length; [done|by eapply plain_length].
  - intros i d. unfold decrypt_cols. rewrite list_lookup_imap. destruct (cols c !! i) as [[e|]|] eqn:E; simpl; intros [= <-].
    destruct (ci_cols _ _ _ I _ _ E) as (sec & Hsec & ->). destruct (plain_sector _ _ Hsec) as (b & Hb & ->).
    rewrite list_lookup_fmap, Hb. simpl. f_equal. unfold window. rewrite <-Hcounter. symmetry. apply XORKeyStream_window. lia.
  - rewrite present_filter. unfold decrypt_cols, min_shards. rewrite present_imap. lia.
  - exists cols'. unfold min_shards in Hrec. rewrite Hrec. split; [done|]. intros i Hi.
    destruct (Hreq i Hi) as (d & Hd & Hc). rewrite list_lookup_fmap in Hd. destruct (plain !! i) as [b|]; [|done].
    exists b. injection Hd as <-. done.
Qed.

(** The buffers of the required shards. *)
Definition out_ok (o : list (option bytes)) : Prop :=
  length o = length sectors ∧
  ∀ i x, o !! i = Some x →
    if is_required required i then ∃ b, x = Some b ∧ length b = Z.to_nat SectorSize else x = None.

(** Byte [k] of every buffer is the one of the shard. *)
Definition written (o : list (option bytes)) (k : nat) : Prop :=
  ∀ i b p, o !! i = Some (Some b) → plain !! i = Some p → b !! k = p !! k.

Lemma write_out_ok w cols' o :
  window_ok w → out_ok o →
  (∀ i, required !! i = Some true → ∃ b, plain !! i = Some b ∧ cols' !! i = Some (Some (window w.1 w.2 b))) →
  out_ok (write_out (Z.to_nat w.1) (Z.to_nat w.2) required cols' o) ∧
  ∀ k, k < Z.to_nat SectorSize → (w.1 ≤ Z.of_nat k < w.1 + w.2)%Z ∨ written o k →
    written (write_out (Z.to_nat w.1) (Z.to_nat w.2) required cols' o) k.
Proof.
  intros Hw [Hlen Ho] Hc.
  assert (∀ i x, write_out (Z.to_nat w.1) (Z.to_nat w.2) required cols' o !! i = Some x →
    ∃ x0, o !! i = Some x0 ∧
      if is_required required i
      then ∃ b p, x0 = Some b ∧ length b = Z.to_nat SectorSize ∧ plain !! i = Some p ∧
             x = Some (list_inserts (Z.to_nat w.1) (window w.1 w.2 p) b)
      else x = None ∧ x0 = None) as Hx.
  { intros i x. unfold write_out. rewrite list_lookup_imap. destruct (o !! i) as [x0|] eqn:E; [|done]. intros [= <-].
    exists x0. split; [done|]. specialize (Ho i x0 E). destruct (is_required required i) eqn:Er; [|done].
    destruct Ho as (b & -> & Hb). unfold is_required in Er. destruct (required !! i) as [[]|] eqn:Eq; simplify_eq/=.
    destruct (Hc i Eq) as (p & Hp & Hcol). exists b, p. rewrite Hcol. simpl. split_and!; [done..|].
    by rewrite take_ge by (rewrite (window_length w p Hw (plain_length _ _ Hp)); lia). }
  split.
  - split; [by unfold write_out; rewrite length_imap|]. intros i x Hi. apply Hx in Hi as (x0 & Hx0 & Hi).
    destruct (is_required required i); [|by destruct Hi]. destruct Hi as (b & p & -> & Hb & _ & ->).
    eexists. split; [done|]. by rewrite length_inserts.
  - intros k Hk Hwk i b1 p Hi Hp. apply Hx in Hi as (x0 & Hx0 & Hi).
    destruct (is_required required i); [|by destruct Hi]. destruct Hi as (b & p' & -> & Hb & Hp' & [= ->]).
    rewrite Hp in Hp'. injection Hp' as <-. pose proof (plain_length _ _ Hp) as Hpl. pose proof (window_length w p Hw Hpl) as Hwl.
    pose proof Hw as (Hw1 & _).
    destruct (decide (w.1 ≤ Z.of_nat k < w.1 + w.2)%Z) as [Hin|Hout].
    + rewrite list_lookup_inserts by (rewrite ?Hwl; lia). by apply window_lookup.
    + destruct Hwk as [|Hwk]; [done|]. destruct (decide (k < Z.to_nat w.1)).
      * rewrite list_lookup_inserts_lt by done. by apply (Hwk i).
      * rewrite list_lookup_inserts_ge by (rewrite Hwl; lia). by apply (Hwk i).
Qed.

Record RecInv (s : recovery) : Prop := {
  ri_chunks : ∀ w c, (w, Some c) ∈ chunks_running s → ChunkInv w.1 w.2 c;
  ri_windows : ∀ w, w ∈ todo s ++ (chunks_running s).*1 → window_ok w;
  ri_lost : lost_ok (rec_shared s);
  ri_out : out_ok (out s);
  ri_cover : ctx_err s = None → ∀ k, k < Z.to_nat SectorSize →
    (∃ w, w ∈ todo s ++ (chunks_running s).*1 ∧ (w.1 ≤ Z.of_nat k < w.1 + w.2)%Z) ∨ written (out s) k;
  ri_first : ∀ e, firstErr s = Some e → errors_Is e errNotEnoughShards = true;
  ri_ctx : match ctx_err s with None => firstErr s = None | Some e => firstErr s = None → is_ctx_err e = true end }.

Lemma tiles_cover l a b k : tiles l a b → (a ≤ k < b)%Z → ∃ w, w ∈ l ∧ (w.1 ≤ k < w.1 + w.2)%Z.
Proof.
  revert a. induction l as [|[o n] l IH]; simpl; intros a H Hk; [lia|]. destruct H as (-> & Hn & H).
  destruct (decide (k < a + n)%Z) as [Hlt|Hge].
  - exists (a, n). split; [left|simpl; lia].
  - destruct (IH _ H) as (w & Hw & ?); [lia|]. exists w. split; [by right|done].
Qed.

Lemma RecInv_init rcs p : RecInv (recovery_init rcs p).
Proof.
  destruct (chunks_tile rcs) as [Ht Hw]. constructor; simpl.
  - by intros w c ?%elem_of_nil.
  - intros [o n]. rewrite app_nil_r. apply Hw.
  - by intros x ?%elem_of_nil.
  - split; [by rewrite length_imap|]. intros i x. rewrite list_lookup_imap.
    destruct (sectors !! i); [|done]. intros [= <-]. destruct (is_required required i); [|done].
    eexists. split; [done|]. by rewrite length_replicate.
  - intros _ k Hk. left. rewrite app_nil_r. apply (tiles_cover _ 0 SectorSize); [done|lia].
  - done.
  - done.
Qed.

(** A chunk that fails takes the recovery with it. *)
Lemma RecInv_fails s running sh o e :
  RecInv s → (∀ x, x ∈ running → x ∈ chunks_running s) → lost_ok sh → out_ok o →
  errors_Is e errNotEnoughShards = true → RecInv (chunk_returns s running sh o (Some e)).
Proof.
  intros I Hr Hl Ho He. constructor; simpl; try done.
  - intros w c Hc. apply (ri_chunks s I), Hr, Hc.
  - intros w Hw. apply (ri_windows s I). apply elem_of_app in Hw as [Hw|Hw]; apply elem_of_app; [by left|right].
    apply list_elem_of_fmap in Hw as (x & -> & Hx). apply list_elem_of_fmap. eauto.
  - by destruct (ctx_err s).
  - intros e'. destruct (firstErr s) as [e0|] eqn:E; intros [= <-]; [by apply (ri_first s I)|done].
  - pose proof (ri_ctx s I). destruct (ctx_err s), (firstErr s); naive_solver.
Qed.

Lemma elem_of_middle {A} (l1 l2 : list A) x y : y ∈ l1 ++ l2 → y ∈ l1 ++ x :: l2.
Proof. rewrite !elem_of_app, elem_of_cons. tauto. Qed.

(** A chunk moves on. *)
Lemma RecInv_chunk s l1 w x l2 c sh :
  RecInv s → chunks_running s = l1 ++ (w, x) :: l2 → ChunkInv w.1 w.2 c → lost_ok sh →
  RecInv (mkRecovery (todo s) (l1 ++ (w, Some c) :: l2) sh (out s) (ctx_err s) (firstErr s)).
Proof.
  intros I Hr Hc Hl. assert ((l1 ++ (w, Some c) :: l2).*1 = (chunks_running s).*1) as Heq.
  { by rewrite Hr, !fmap_app. }
  constructor; simpl; rewrite ?Heq; try apply I; [|done].
  intros w' c' [Hin|[[= -> ->]|Hin]%elem_of_cons]%elem_of_app; [|done|];
    apply (ri_chunks s I); rewrite Hr; apply elem_of_middle, elem_of_app; auto.
Qed.

Lemma RecInv_step n s s' : RecInv s → recovery_step n s s' → RecInv s'.
Proof.
  intros I Hs. destruct Hs as [s e He Hctx|s Ht He|s w t Ht Hn|s l1 w l2 picked rem p' Hr cs Hp|s l1 w c l2 c' sh' Hr Hc
    |s l1 w c l2 Hr Hph Hd Hn|s l1 w c l2 out' Hr Hph Hd Hn Hrec|s l1 w c l2 e Hr Hph Hd Hn Hrec].
  - constructor; simpl; try apply I; done.
  - constructor; simpl; try apply I.
    + intros w Hw. apply (ri_windows s I), elem_of_app. by right.
    + intros H. rewrite H in He. by destruct He.
  - assert (∀ x, x ∈ t ++ (chunks_running s ++ [(w, None)]).*1 ↔ x ∈ todo s ++ (chunks_running s).*1) as Heq.
    { intros x. rewrite Ht, fmap_app. simpl. set_solver. }
    constructor; simpl; try apply I.
    + intros w' c [Hin|Hin%list_elem_of_singleton]%elem_of_app; [by apply (ri_chunks s I)|done].
    + intros x Hx. by apply (ri_windows s I), Heq.
    + intros H k Hk. destruct (ri_cover s I H k Hk) as [(x & Hx & ?)|?]; [left|by right]. exists x. by rewrite Heq.
  - assert (lost_ok (with_pool (rec_shared s) p')) as Hl by apply I. destruct picked as [|h picked].
    + apply RecInv_fails; [done| |done|apply I|done]. rewrite Hr. intros x. apply elem_of_middle.
    + eapply RecInv_chunk; [done|done| |done]. by eapply ChunkInv_new.
  - assert (ChunkInv w.1 w.2 c) as Ic by (apply (ri_chunks s I); rewrite Hr; set_solver).
    destruct (ChunkInv_step _ _ _ _ _ _ _ Ic (ri_lost s I) Hc). by eapply RecInv_chunk.
  - apply RecInv_fails; [done| |apply I|apply I|done]. rewrite Hr. intros x. apply elem_of_middle.
  - assert (ChunkInv w.1 w.2 c) as Ic by (apply (ri_chunks s I); rewrite Hr; set_solver).
    assert (window_ok w) as Hw by (apply (ri_windows s I); rewrite Hr, fmap_app; set_solver).
    destruct (reconstructChunk_spec w c (out s) Hw Ic Hn) as (cols' & Hrec' & Hreq). rewrite Hrec in Hrec'.
    injection Hrec' as ->. destruct (write_out_ok w cols' (out s) Hw (ri_out s I) Hreq) as [Ho Hwr].
    constructor; simpl; try apply I; [..|done|].
    + intros w' c' Hin. apply (ri_chunks s I). rewrite Hr. by apply elem_of_middle.
    + intros w' Hin. apply (ri_windows s I). rewrite Hr, fmap_app. rewrite fmap_app in Hin. simpl. set_solver.
    + intros H k Hk. destruct (ri_cover s I H k Hk) as [(x & Hx & Hkx)|Hk']; [|right; apply Hwr; auto].
      destruct (decide (x = w)) as [->|Hne]; [right; apply Hwr; auto|left]. exists x. split; [|done].
      rewrite Hr, fmap_app in Hx. rewrite fmap_app. simpl in Hx. set_solver.
  - assert (ChunkInv w.1 w.2 c) as Ic by (apply (ri_chunks s I); rewrite Hr; set_solver).
    assert (window_ok w) as Hw by (apply (ri_windows s I); rewrite Hr, fmap_app; set_solver).
    destruct (reconstructChunk_spec w c (out s) Hw Ic Hn) as (cols' & Hrec' & _). by rewrite Hrec in Hrec'.
Qed.

Lemma RecInv_reachable n rcs p s : rtc (recovery_step n) (recovery_init rcs p) s → RecInv s.
Proof. apply (rtc_ind_r (λ s, RecInv s)); eauto using RecInv_init, RecInv_step. Qed.

(** C1. However the reads of the chunks interleave, fail and are hedged: a recovery
    that returns shards returns, for every required sector and for no other, the
    shard that encrypts to the sector byte for byte. A recovery fails only for lack
    of hosts, or because its caller's context is done: a chunk with [MinShards]
    columns is always reconstructed. A sector is reported lost only on the host that
    the slab has for it. *)
Theorem recovered_shards_exact (n recoveryChunkSize : Z) (p : P) (s : recovery) :
  rtc (recovery_step n) (recovery_init recoveryChunkSize p) s → recovery_done s →
  match recovery_result s with
  | Ok shards =>
      reencrypt slab required shards =
        imap (λ i sec, if is_required required i then Some (sector_data (Sec_Root sec)) else None) sectors
  | Err e => errors_Is e errNotEnoughShards = true ∨ is_ctx_err e = true
  | Panic => False
  end ∧
  ∀ x, x ∈ lost (rec_shared s) → ∃ sec, sec ∈ sectors ∧ Sec_Root sec = Sh_Root x ∧ Sec_HostKey sec = Some (Sh_HostKey x).
Proof.
  intros Hr [Ht Hc]. apply RecInv_reachable in Hr as I. split; [|apply I].
  pose proof (ri_ctx s I) as Hctx. unfold recovery_result. destruct (firstErr s) as [e|] eqn:Ef.
  { left. by apply (ri_first s I). }
  destruct (ctx_err s) as [e|] eqn:Ec; [right; by apply Hctx|]. destruct (ri_out s I) as [Hlen Ho].
  apply list_eq. intros i. unfold reencrypt. rewrite !list_lookup_imap.
  destruct (sectors !! i) as [sec|] eqn:Es.
  2: { apply lookup_ge_None in Es. by rewrite (proj2 (lookup_ge_None (out s) i)) by lia. }
  destruct (out s !! i) as [x|] eqn:Ex; [|apply lookup_ge_None in Ex; apply lookup_lt_Some in Es; lia].
  simpl. specialize (Ho i x Ex). destruct (is_required required i); [|done]. destruct Ho as (b & -> & Hb). simpl. do 2 f_equal.
  destruct (plain_sector i sec Es) as (pl & Hp & ->). f_equal. apply list_eq. intros k.
  destruct (decide (k < Z.to_nat SectorSize)) as [Hk|Hk].
  - destruct (ri_cover s I Ec k Hk) as [(w & Hw & _)|Hw]; [|by apply (Hw i)].
    rewrite Ht, Hc in Hw. by apply elem_of_nil in Hw.
  - rewrite !(proj2 (lookup_ge_None _ k)); [done| |lia]. rewrite (plain_length _ _ Hp). lia.
Qed.

(** The chunks of a recovery follow each other from the start to the end of the
    sector, each on leaf boundaries and within it, for every configured chunk size,
    also a negative or an excessive one. *)
Theorem recovery_chunks (recoveryChunkSize : Z) :
  let l := chunks (chunk_size recoveryChunkSize) in
  tiles l 0 SectorSize ∧
  (∀ off len, (off, len) ∈ l →
     0 ≤ off ∧ off + len ≤ SectorSize ∧ 0 < len ∧ off mod LeafSize = 0 ∧ len mod LeafSize = 0)%Z ∧
  (1 ≤ concurrency recoveryChunkSize)%Z.
Proof.
  clear required_length.
  destruct (chunks_tile recoveryChunkSize) as [H1 H2]. split_and!; [done|done|].
  unfold concurrency, num_chunks. destruct (chunk_size_spec recoveryChunkSize) as [Hc _]. destruct SectorSize_leaves as [Hs _].
  rewrite (Z.quot_div_nonneg (SectorSize + _ - 1)) by lia.
  assert (1 ≤ (SectorSize + chunk_size recoveryChunkSize - 1) / chunk_size recoveryChunkSize)%Z; [|lia].
  apply Z.div_le_lower_bound; lia.
Qed.
End recovery.

(** ** Concrete instances *)

Module RecoveryWitness.
(** Sectors of a leaf, and the code that repeats a single shard. *)
Definition small : @RhpOps U128.ops :=
  match TestRhp.ops with
  | @Build_RhpOps _ a b c d e f g h i j k l m n o p q _ r s t u v w x y z aa =>
      @Build_RhpOps _ a b c d e f g h i j k l m n o p q 64 r s t u v w x y z aa
  end.
#[local] Existing Instance U128.ops.
#[local] Existing Instance small.
#[local] Instance leaf : LeafOps := {| LeafSize := 64 |}.
#[local] Instance leaf_laws : LeafLaws leaf.
Proof. split; [reflexivity|]. split; [split; reflexivity|reflexivity]. Qed.
#[local] Instance cipher : CipherOps := {| keystream key i k := if (i =? 0)%Z then "x"%char else "y"%char |}.
#[local] Instance sector_errors : SectorErrors := {| ErrSectorNotFound := "not found"; ErrSectorCorrupt := "corrupt" |}.

Definition first_present (l : list (option bytes)) : option bytes := head (omap id l).
#[local] Instance repeat_code : RSOps := {| ReconstructSome d p l req := Ok ((λ _, first_present l) <$> l) |}.

Lemma first_present_lookup l (x : bytes) : (∀ c, Some c ∈ l → c = x) → 1 ≤ length (filter (λ c, is_Some c) l) → first_present l = Some x.
Proof.
  unfold first_present. induction l as [|[c|] l IH]; intros Hx Hn; simpl in *; [lia|f_equal; apply Hx; left|].
  apply IH; [intros c Hc; apply Hx; by right|]. rewrite filter_cons_False in Hn by (by intros [? ?]). done.
Qed.

#[local] Instance repeat_laws : RSLaws repeat_code.
Proof.
  refine {| codeword d shards := d = 1 ∧ ∃ x, ∀ s, s ∈ shards → s = x |}.
  - intros d shards off len [-> [x Hx]]. split; [done|]. exists (take len (drop off x)).
    intros s (b & -> & Hb)%list_elem_of_fmap. by rewrite (Hx b Hb).
  - intros d p shards l req [-> [x Hx]] Hl Hreq Hp _ Hsh Hn. eexists. split; [done|]. intros i Hi.
    apply lookup_lt_Some in Hi. destruct (lookup_lt_is_Some_2 shards i) as [c Hc]; [lia|]. exists c. split; [done|].
    destruct (lookup_lt_is_Some_2 l i) as [o Ho]; [lia|]. rewrite list_lookup_fmap, Ho. simpl.
    rewrite (first_present_lookup l x), (Hx c); [done|by apply list_elem_of_lookup_2 in Hc| |done].
    intros e He. apply list_elem_of_lookup in He as [j Hj]. apply Hx. apply (list_elem_of_lookup_2 _ j). by apply Hsh.
Defined.

#[local] Instance all_usable : @ClientStore unit := {|
  cs_UsableHosts := λ s, (Ok [], s); cs_Addresses _ := λ s, (Ok [], s); cs_Usable _ := λ s, (Ok true, s) |}.
#[local] Instance now_reads : StoreReads (λ s : unit, (Ok 0%Z, s)).
Proof. refine {| usable_at _ _ := true; now_at _ := 0%Z |}; done. Defined.
#[local] Instance hosts : ReadPool Provider := provider_reads (λ s : unit, (Ok 0%Z, s)).
#[local] Instance hosts_laws : ReadPoolLaws hosts := provider_reads_laws (λ s : unit, (Ok 0%Z, s)).

(** The second sector lost its host. *)
Definition slab : Slab := mkSlab 9 1 7 1 [mkSector 11 None (Some 1%N); mkSector 12 None None] 0.
Definition shard : bytes := replicate 64 "a"%char.
Definition stored (root : Hash256) : bytes := XORKeyStream 7 (if (root =? 11)%N then 0 else 1) 0 shard.
Definition reads (root : Hash256) (off len : Z) (data : bytes) : Prop := data = window off len (stored root).
Definition required : list bool := [false; true].

Definition recovered : recovery (P:=Provider) :=
  mkRecovery [] [] (mkShared ∅ [] (release_read (TrackInflightRead NewProvider 1) 1)) [None; Some shard] None None.

(** The state a run is in, computed. *)
Ltac computed := match goal with |- rtc _ ?a _ =>
  let b := eval vm_compute in a in replace a with b by (vm_compute; reflexivity) end.

Example recovery_run : rtc (recovery_step slab required reads 1) (recovery_init slab required 0 NewProvider) recovered.
Proof.
  computed. eapply rtc_l; [eapply rec_spawn; reflexivity|]. computed.
  eapply rtc_l; [eapply (rec_begin _ _ _ _ _ [] _ [] [1%N] []); [reflexivity|exists tt; vm_compute; reflexivity]|]. computed.
  eapply rtc_l; [eapply (rec_chunk _ _ _ _ _ []); [reflexivity|eapply chunk_spawn; [reflexivity|reflexivity|vm_compute; lia]]|]. computed.
  eapply rtc_l; [eapply (rec_chunk _ _ _ _ _ []); [reflexivity|eapply chunk_filled; reflexivity]|]. computed.
  eapply rtc_l; [eapply (rec_chunk _ _ _ _ _ []);
    [reflexivity|eapply (chunk_read _ _ _ _ _ _ _ [] _ []); [reflexivity|vm_compute; reflexivity]]|]. computed.
  eapply rtc_l; [eapply (rec_chunk _ _ _ _ _ []); [reflexivity|eapply chunk_race_end; [reflexivity|vm_compute; intuition congruence]]|]. computed.
  eapply rtc_l; [eapply (rec_reconstructed _ _ _ _ _ []); [reflexivity|reflexivity|reflexivity|vm_compute; congruence|vm_compute; reflexivity]|].
  computed. apply rtc_refl.
Qed.

Example recovered_shards_exact_witness :
  match recovery_result recovered with
  | Ok shards => reencrypt slab required shards = [None; Some (stored 12)]
  | _ => False
  end.
Proof.
  refine (proj1 (recovered_shards_exact slab required reads stored (λ _ _ _ _ H, H) _ [shard; shard] _ _ _ _ 1 0 NewProvider recovered recovery_run _)).
  - vm_compute. split; [split; congruence|reflexivity].
  - split; [reflexivity|]. exists shard. intros s Hs. rewrite !elem_of_cons, elem_of_nil in Hs. naive_solver.
  - intros i b Hi. apply list_elem_of_lookup_2 in Hi. rewrite !elem_of_cons, elem_of_nil in Hi.
    destruct Hi as [->|[->|[]]]; reflexivity.
  - reflexivity.
  - reflexivity.
  - split; reflexivity.
Defined.
Example recovery_chunks_witness : tiles (chunks (chunk_size 100)) 0 64 ∧ chunks (chunk_size 100) = [(0, 64)]%Z.
Proof. split; [exact (proj1 (recovery_chunks slab 100))|reflexivity]. Defined.
End RecoveryWitness.
