(* ===== verification/Accounts.v ===== *)
(** * Accounts (src/accounts/account.go, manager.go, serviceaccounts.go,
    connect.go)

    Host accounts and balance pools with their funding schedule, the fund
    targets, the balances of the indexer's own service accounts, pruning, and
    the validation of connect keys and pre-authorized keys. *)

From S2P Require Import Prelude Encoding External Hosts.

(** ** Data *)

Definition FundingTypeAccount : string := "account".
Definition FundingTypePool : string := "pool".
Definition ErrNotFound : string := "account not found".
Definition ErrNoQuota : string := "quota is required".
Definition ErrInvalidPreAuthorizedKey : string := "invalid pre-authorized key".

Definition AccountFundInterval : Z := 5 * Minute.
Definition PoolFundInterval : Z := 5 * Minute.
Definition AccountActivityThreshold : Z := 24 * 7 * Hour.

(** [proto.Account] is a public key. *)
Record HostAccount := mkHostAccount {
  AccountKey : PublicKey;
  AHostKey : PublicKey;
  ConsecutiveFailedFunds : Z;
  NextFund : Z;
  FullStorage : bool }.

(** A pool's [types.PrivateKey] is represented by the public key it determines,
    the only thing the modelled code computes from it. *)
Record HostPool := mkHostPool {
  PoolID : Z;
  PHostKey : PublicKey;
  PoolPublicKey : PublicKey;
  PConsecutiveFailedFunds : Z;
  PNextFund : Z;
  PFullStorage : bool }.

Record PendingAttachment := mkAttachment { PA_AccountKey : PublicKey; PA_PoolKey : PublicKey }.

Record QuotaFundInfo := mkQuotaFundInfo {
  QuotaName : string; FundTargetBytes : Z; Active : Z; QFullStorage : Z }.

Record Quota := mkQuota {
  QuotaKey : string; QuotaDescription : string; MaxPinnedData : Z; TotalUses : Z; QuotaFundTargetBytes : Z }.

(** ** The funding schedule *)

Section schedule.
#[local] Open Scope go_scope.
Context {S : Type}.
Variable time_Now : M S Z.
(** Go leaves the conversion of a float outside the [int64] range to the
    implementation. *)
Variable out_of_range : Z → Z.

(** [time.Duration(math.Pow(2, float64(n)))]: powers of two are exact. *)
Definition pow2_duration (n : Z) : Z := if (n <=? 62)%Z then (2 ^ n)%Z else out_of_range n.

Definition backoff (n maxBackoff : Z) : Z := Z.min (i64 (pow2_duration n * Minute)) maxBackoff.

Definition account_funded (a : HostAccount) (now : Z) : HostAccount :=
  mkHostAccount (AccountKey a) (AHostKey a) 0 (now + AccountFundInterval) (FullStorage a).
Definition account_failed (maxBackoff : Z) (a : HostAccount) (now : Z) : HostAccount :=
  let n := i64 (ConsecutiveFailedFunds a + 1) in
  mkHostAccount (AccountKey a) (AHostKey a) n (now + backoff n maxBackoff) (FullStorage a).
Definition pool_funded (p : HostPool) (now : Z) : HostPool :=
  mkHostPool (PoolID p) (PHostKey p) (PoolPublicKey p) 0 (now + PoolFundInterval) (PFullStorage p).
Definition pool_failed (maxBackoff : Z) (p : HostPool) (now : Z) : HostPool :=
  let n := i64 (PConsecutiveFailedFunds p + 1) in
  mkHostPool (PoolID p) (PHostKey p) (PoolPublicKey p) n (now + backoff n maxBackoff) (PFullStorage p).

(** The loops over the first [n] elements and over the rest, in place; the clock
    is read for every element. *)
Fixpoint update_first {A} (f g : A → Z → A) (n : nat) (l : list A) : M S (list A) :=
  match l with
  | [] => mret []
  | a :: l =>
      let* now := time_Now in
      let* l := update_first f g (Nat.pred n) l in
      mret ((match n with O => g a now | Datatypes.S _ => f a now end) :: l)
  end.

Definition UpdateFundedAccounts (accounts : list HostAccount) (n : nat) (maxBackoff : Z) : M S (list HostAccount) :=
  if Nat.ltb (length accounts) n then panic
  else update_first account_funded (account_failed maxBackoff) n accounts.

Definition UpdateFundedPools (pools : list HostPool) (n : nat) (maxBackoff : Z) : M S (list HostPool) :=
  if Nat.ltb (length pools) n then panic
  else update_first pool_funded (pool_failed maxBackoff) n pools.

(** *** The schedule *)

Lemma backoff_small n maxBackoff : (0 ≤ n ≤ 27)%Z → backoff n maxBackoff = Z.min (2 ^ n * Minute) maxBackoff.
Proof.
  intros Hn. unfold backoff, pow2_duration. destruct (Z.leb_spec n 62); [|lia].
  rewrite i64_id; [done|]. unfold is_i64, two63, Minute, Second.
  assert (2 ^ 0 ≤ 2 ^ n ≤ 2 ^ 27)%Z by (split; apply Z.pow_le_mono_r; lia). lia.
Qed.

(** From 53 failures on the product is a multiple of [2^64]. *)
Lemma backoff_gone n maxBackoff : (53 ≤ n ≤ 62)%Z → (0 ≤ maxBackoff)%Z → backoff n maxBackoff = 0%Z.
Proof.
  intros Hn Hm. unfold backoff, pow2_duration. destruct (Z.leb_spec n 62); [|lia].
  replace (2 ^ n)%Z with (2 ^ 53 * 2 ^ (n - 53))%Z by (rewrite <-Z.pow_add_r by lia; f_equal; lia).
  assert (i64 (2 ^ 53 * 2 ^ (n - 53) * Minute) = 0)%Z as ->; [|lia].
  unfold i64, Minute, Second. replace (2 ^ 53 * 2 ^ (n - 53) * (60 * 1000000000) + two63)%Z
    with (two63 + (2 ^ (n - 53) * 29296875) * two64)%Z by (unfold two64, two63; lia).
  rewrite Z.mod_add by done. done.
Qed.

Lemma backoff_negative maxBackoff : (0 ≤ maxBackoff)%Z → (backoff 28 maxBackoff < 0)%Z.
Proof. intros. unfold backoff. change (i64 (pow2_duration 28 * Minute)) with (-2340616713709551616)%Z. lia. Qed.

Lemma update_first_length {A} f g n (l : list A) s l' s' :
  update_first f g n l s = (Ok l', s') → length l' = length l.
Proof.
  revert n s l' s'. induction l as [|a l IH]; intros n s l' s'; simpl; [by intros [= <- _]|].
  intros (now & s1 & _ & (l1 & s2 & Hl & [= <- _])%bindM_ok)%bindM_ok. simpl. f_equal. by eapply IH.
Qed.

Lemma update_first_lookup {A} (f g : A → Z → A) n (l : list A) s l' s' i a :
  update_first f g n l s = (Ok l', s') → l !! i = Some a →
  ∃ now s1 s2, time_Now s1 = (Ok now, s2) ∧ l' !! i = Some (if decide (i < n) then f a now else g a now).
Proof.
  revert n s l' s' i. induction l as [|b l IH]; intros n s l' s' i; simpl; [done|].
  intros (now & s1 & Hnow & (l1 & s2 & Hl & [= <- _])%bindM_ok)%bindM_ok. destruct i as [|i]; simpl.
  - intros [= ->]. exists now, s, s1. split; [done|]. destruct n; by case_decide; try lia.
  - intros Hi. destruct (IH _ _ _ _ i Hl Hi) as (now' & s3 & s4 & Hn & Hl'). exists now', s3, s4.
    split; [done|]. rewrite Hl'. destruct n; simpl; repeat case_decide; try lia; done.
Qed.

End schedule.

(** ** Fund targets *)

Section targets.
Context {C : CurrencyOps} {R : RhpOps}.

(** [(fundTargetBytes + proto.SectorSize - 1) / proto.SectorSize] *)
Definition target_sectors (fundTargetBytes : Z) : Z :=
  (u64 (u64 (fundTargetBytes + SectorSize) - 1) / SectorSize)%Z.

(** The renter cost of one sector, times [sectors], halved. *)
Definition half_cost (usage : result Usage) (sectors : Z) : result Currency :=
  u ← usage; c ← RenterCost u; m ← Mul64 c sectors; Div64 m 2.

Definition HostFundTarget (host : Host) (fundTargetBytes : Z) : result Currency :=
  if (fundTargetBytes =? 0)%Z then mret ZeroCurrency
  else
    let sectors := target_sectors fundTargetBytes in
    u1 ← half_cost (RPCWriteSectorCost (Prices (Host.Settings host)) SectorSize) sectors;
    u2 ← half_cost (RPCReadSectorCost (Prices (Host.Settings host)) SectorSize) sectors;
    cAdd u1 u2.

Definition HostReadFundTarget (host : Host) (fundTargetBytes : Z) : result Currency :=
  if (fundTargetBytes =? 0)%Z then mret ZeroCurrency
  else half_cost (RPCReadSectorCost (Prices (Host.Settings host)) SectorSize) (target_sectors fundTargetBytes).

Context {L : CurrencyLaws C} {RL : RhpLaws R}.

Lemma target_sectors_ceil b :
  (0 < b)%Z → is_u64 (b + SectorSize) → target_sectors b = ((b + SectorSize - 1) / SectorSize)%Z.
Proof.
  intros Hb Hu. unfold target_sectors. rewrite (u64_id (b + SectorSize)) by done.
  pose proof SectorSize_pos. rewrite u64_id; [done|]. unfold is_u64 in *. lia.
Qed.

Lemma target_sectors_u64 b : is_u64 (target_sectors b).
Proof.
  unfold target_sectors. pose proof (u64_range (u64 (b + SectorSize) - 1)) as [Hl Hu].
  pose proof SectorSize_pos as HS. unfold is_u64. split; [by apply Z.div_pos; [|apply HS]|].
  apply Z.div_lt_upper_bound; [apply HS|]. nia.
Qed.

Lemma half_cost_inv usage sectors c :
  is_u64 sectors → half_cost usage sectors = Ok c →
  ∃ u r, usage = Ok u ∧ RenterCost u = Ok r ∧ Big c = (Big r * sectors / 2)%Z.
Proof.
  intros Hs. unfold half_cost. intros (u & -> & (r & Hr & (m & Hm & Hc)%bind_ok)%bind_ok)%bind_ok.
  exists u, r. split_and!; [done|done|]. apply Mul64_inv in Hm; [|done].
  apply Div64_inv in Hc; [|done|done]. by rewrite Hc, Hm.
Qed.

(** The fund targets: a target of [b] bytes covers half the cost of writing
    and half the cost of reading [ceil(b / SectorSize)] sectors, enough whole
    sectors to hold the bytes; the read-only target is the read half, so it never
    exceeds the full target. *)
Theorem host_fund_target_spec (host : Host) (b : Z) (t tr : Currency) :
  (0 < b)%Z → is_u64 (b + SectorSize) →
  HostFundTarget host b = Ok t → HostReadFundTarget host b = Ok tr →
  (Big tr ≤ Big t)%Z ∧
  ∃ sectors w r wu ru,
    (b ≤ sectors * SectorSize < b + SectorSize)%Z ∧
    RPCWriteSectorCost (Prices (Host.Settings host)) SectorSize = Ok wu ∧ RenterCost wu = Ok w ∧
    RPCReadSectorCost (Prices (Host.Settings host)) SectorSize = Ok ru ∧ RenterCost ru = Ok r ∧
    Big t = (Big w * sectors / 2 + Big r * sectors / 2)%Z ∧ Big tr = (Big r * sectors / 2)%Z.
Proof.
  intros Hb Hu. unfold HostFundTarget, HostReadFundTarget. destruct (Z.eqb_spec b 0); [lia|].
  intros (u1 & H1 & (u2 & H2 & Ht)%bind_ok)%bind_ok Htr. rewrite H2 in Htr. injection Htr as <-.
  apply half_cost_inv in H1 as (wu & w & Hwu & Hw & Hu1); [|apply target_sectors_u64].
  apply half_cost_inv in H2 as (ru & r & Hru & Hr & Hu2); [|apply target_sectors_u64].
  apply cAdd_inv in Ht. pose proof (Big_nonneg u1). split; [lia|].
  exists (target_sectors b), w, r, wu, ru. split_and!; try done; [| |congruence].
  - rewrite target_sectors_ceil by done. pose proof SectorSize_pos as HS.
    pose proof (Z.mul_succ_div_gt (b + SectorSize - 1) SectorSize (proj1 HS)). nia.
  - rewrite target_sectors_ceil by done. pose proof SectorSize_pos as HS.
    pose proof (Z.mul_div_le (b + SectorSize - 1) SectorSize (proj1 HS)). nia.
Qed.
End targets.

(** ** Service accounts *)

Section service.
Context {C : CurrencyOps}.

(** [AccountManager.serviceAccounts]; every operation is one critical section of
    [serviceAccountsMu]. *)
Abbreviation serviceAccounts := (gmap PublicKey (gmap PublicKey Currency)) (only parsing).

(** Reading a missing key of a Go map gives the zero value. *)
Definition balance_at (m : gmap PublicKey Currency) (hostKey : PublicKey) : Currency :=
  default ZeroCurrency (m !! hostKey).

Definition RegisterServiceAccount (account : PublicKey) (m : serviceAccounts) : result unit * serviceAccounts :=
  match m !! account with
  | Some _ => (Panic, m)
  | None => (Ok tt, <[account := ∅]> m)
  end.

Definition ResetAccountBalance (hostKey account : PublicKey) (m : serviceAccounts) : result unit * serviceAccounts :=
  match m !! account with
  | None => (Err (ESentinel ErrNotFound), m)
  | Some b => (Ok tt, <[account := <[hostKey := ZeroCurrency]> b]> m)
  end.

Definition ServiceAccountBalance (hostKey account : PublicKey) (m : serviceAccounts) : result Currency :=
  match m !! account with
  | None => Err (ESentinel ErrNotFound)
  | Some b => Ok (balance_at b hostKey)
  end.

Definition DebitServiceAccount (hostKey account : PublicKey) (amount : Currency) (m : serviceAccounts) : result unit * serviceAccounts :=
  match m !! account with
  | None => (Err (ESentinel ErrNotFound), m)
  | Some b =>
      let '(val, underflow) := SubWithUnderflow (balance_at b hostKey) amount in
      let val := if underflow : bool then ZeroCurrency else val in
      (Ok tt, <[account := <[hostKey := val]> b]> m)
  end.

Definition update_service_account (balance : Currency) (m : serviceAccounts) (a : HostAccount) : serviceAccounts :=
  match m !! AccountKey a with
  | None => m
  | Some b => <[AccountKey a := <[AHostKey a := balance]> b]> m
  end.

Definition UpdateServiceAccounts (accounts : list HostAccount) (balance : Currency) (m : serviceAccounts) : serviceAccounts :=
  foldl (update_service_account balance) m accounts.

(** The accounts in the order [range] visits them. *)
Definition ServiceAccounts (order : list PublicKey → list PublicKey) (hk : PublicKey) (m : serviceAccounts) : list HostAccount :=
  (λ a, mkHostAccount a hk 0 0 false) <$> order (map_to_list m).*1.

(** *** Balances *)

(** What a client of the component sees: the balance of a registered account on
    a host, in hastings. *)
Definition balance (m : serviceAccounts) (account hostKey : PublicKey) : option Z :=
  (λ b, Big (balance_at b hostKey)) <$> m !! account.

Context {L : CurrencyLaws C}.

Lemma balance_update_entry m account (b : gmap PublicKey Currency) hk v a h :
  m !! account = Some b →
  balance (<[account := <[hk := v]> b]> m) a h =
    if decide (a = account ∧ h = hk) then Some (Big v) else balance m a h.
Proof.
  intros Hb. unfold balance. case_decide as Hd.
  - destruct Hd as [-> ->]. rewrite lookup_insert_eq. simpl. unfold balance_at. by rewrite lookup_insert_eq.
  - destruct (decide (a = account)) as [->|Ha]; [|by rewrite lookup_insert_ne].
    rewrite lookup_insert_eq, Hb. simpl. unfold balance_at. rewrite lookup_insert_ne; [done|]. naive_solver.
Qed.

Lemma update_service_account_balance v m x a h :
  balance (update_service_account v m x) a h =
    if decide (a = AccountKey x ∧ h = AHostKey x) then (λ _, Big v) <$> balance m a h else balance m a h.
Proof.
  unfold update_service_account. destruct (m !! AccountKey x) as [b|] eqn:E.
  - rewrite (balance_update_entry _ _ _ _ _ _ _ E). case_decide as Hd; [|done].
    destruct Hd as [-> ->]. unfold balance. by rewrite E.
  - case_decide as Hd; [|done]. destruct Hd as [-> ->]. unfold balance. by rewrite E.
Qed.

(** The balances of the service accounts: debiting never goes below zero and
    touches one account on one host, resetting sets that balance to zero, an
    update sets the balance of exactly the registered accounts it lists, and on
    an unregistered account every operation fails and changes nothing. *)
Theorem service_account_balances (m : serviceAccounts) (account hostKey a h : PublicKey)
    (amount v : Currency) (accounts : list HostAccount) :
  balance (DebitServiceAccount hostKey account amount m).2 a h =
    (if decide (a = account ∧ h = hostKey) then (λ b, Z.max 0 (b - Big amount)) <$> balance m a h else balance m a h) ∧
  balance (ResetAccountBalance hostKey account m).2 a h =
    (if decide (a = account ∧ h = hostKey) then (λ _, 0%Z) <$> balance m a h else balance m a h) ∧
  balance (UpdateServiceAccounts accounts v m) a h =
    (if decide (Exists (λ x, AccountKey x = a ∧ AHostKey x = h) accounts) then (λ _, Big v) <$> balance m a h else balance m a h) ∧
  ((DebitServiceAccount hostKey account amount m).1 = Ok tt ↔ is_Some (balance m account hostKey)) ∧
  ((ResetAccountBalance hostKey account m).1 = Ok tt ↔ is_Some (balance m account hostKey)).
Proof.
  split_and!.
  - unfold DebitServiceAccount. destruct (m !! account) as [b|] eqn:E; simpl.
    2: { case_decide as Hd; [|done]. destruct Hd as [-> ->]. unfold balance. by rewrite E. }
    destruct (SubWithUnderflow (balance_at b hostKey) amount) as [val under] eqn:Es. simpl.
    rewrite (balance_update_entry _ _ _ _ _ _ _ E). case_decide as Hd; [|done]. destruct Hd as [-> ->].
    unfold balance. rewrite E. simpl. f_equal.
    destruct (Z.lt_ge_cases (Big (balance_at b hostKey)) (Big amount)) as [Hlt|Hge].
    + pose proof (SubWithUnderflow_under _ _ Hlt) as Hu. rewrite Es in Hu. simpl in Hu. subst under.
      rewrite ZeroCurrency_Big. lia.
    + destruct (SubWithUnderflow_ok _ _ Hge) as [Hu Hv]. rewrite Es in Hu, Hv. simpl in *. subst under. lia.
  - unfold ResetAccountBalance. destruct (m !! account) as [b|] eqn:E; simpl.
    + rewrite (balance_update_entry _ _ _ _ _ _ _ E). case_decide as Hd; [|done]. destruct Hd as [-> ->].
      unfold balance. rewrite E. simpl. by rewrite ZeroCurrency_Big.
    + case_decide as Hd; [|done]. destruct Hd as [-> ->]. unfold balance. by rewrite E.
  - unfold UpdateServiceAccounts. induction accounts as [|x l IH] using rev_ind.
    { rewrite decide_False; [done|]. intros H. by apply List.Exists_nil in H. }
    rewrite foldl_app. simpl. rewrite update_service_account_balance, IH. clear IH.
    assert (Exists (λ y, AccountKey y = a ∧ AHostKey y = h) (l ++ [x]) ↔
            Exists (λ y, AccountKey y = a ∧ AHostKey y = h) l ∨ (AccountKey x = a ∧ AHostKey x = h)) as Hiff
      by (rewrite list.Exists_app, List.Exists_cons, List.Exists_nil; tauto).
    repeat case_decide; try naive_solver; by destruct (balance m a h).
  - unfold DebitServiceAccount, balance. destruct (m !! account) eqn:E; simpl.
    + destruct (SubWithUnderflow _ _). simpl. split; [by eexists|done].
    + split; [done|]. by intros [].
  - unfold ResetAccountBalance, balance. destruct (m !! account) eqn:E; simpl.
    + split; [by eexists|done].
    + split; [done|]. by intros [].
Qed.
End service.

(** ** Pruning *)

Section prune.
#[local] Open Scope go_scope.
Context {S : Type}.
Variable store_PruneAccounts : Z → M S unit.

Definition objectBatchSize : Z := 100.

(** The loop of [performPruneAccounts]: it runs until the store has nothing left
    to prune; [None] when [fuel] rounds were not enough. *)
Fixpoint performPruneAccounts (fuel : nat) : M S (option unit) :=
  match fuel with
  | O => mret None
  | Datatypes.S fuel =>
      let* r := try (store_PruneAccounts objectBatchSize) in
      match r with
      | Ok _ => performPruneAccounts fuel
      | Err e => if errors_Is e ErrNotFound then mret (Some tt) else throw (EWrap "failed to prune accounts: " e "")
      | Panic => panic
      end
  end.

(** Pruning ends: when every successful round of the store removes at least
    one of the things there are to prune ([work]), as many rounds as there is
    work, and one more, always reach a result: nothing left, or the store's
    error. *)
Theorem prune_accounts_terminates (work : S → nat) (fuel : nat) (s : S) :
  (∀ s s', store_PruneAccounts objectBatchSize s = (Ok tt, s') → work s' < work s) →
  work s < fuel →
  (performPruneAccounts fuel s).1 ≠ Ok None.
Proof.
  intros Hdec. revert s. induction fuel as [|fuel IH]; intros s Hf; [lia|].
  simpl. unfold bindM, mbind, M_bind, try.
  destruct (store_PruneAccounts objectBatchSize s) as [[[]|e|] s'] eqn:E; [|by destruct (errors_Is e ErrNotFound)|done].
  apply IH. apply Hdec in E. lia.
Qed.
End prune.

(** ** Connect keys and pre-authorized keys *)

Record AppConnectKeyRequest := mkConnectKeyRequest { CK_Key : string; CK_Description : string; CK_Quota : string }.

Record PreAuthorizedKeyRequest := mkPreAuth {
  PK_PublicKey : PublicKey;
  PK_Signature : N;
  PK_ConnectKey : string;
  PK_Expiration : Z;
  PK_TotalUses : Z;
  PK_AllowedAppID : option Hash256 }.

Section connect.
#[local] Open Scope go_scope.
Context {S : Type} {E : EncoderOps}.
Context {ConnectKey PreAuthorizedKey : Type}.
Variable store_AddAppConnectKey store_UpdateAppConnectKey : AppConnectKeyRequest → M S ConnectKey.
Variable store_AddPreAuthorizedKey : PreAuthorizedKeyRequest → M S PreAuthorizedKey.
(** [hex.EncodeToString(frand.Bytes(32))] *)
Variable random_key : M S string.
Variable time_Now : M S Z.
(** [types.PublicKey.VerifyHash] *)
Variable VerifyHash : PublicKey → Hash256 → N → bool.

Definition AddAppConnectKey (key : AppConnectKeyRequest) : M S ConnectKey :=
  if String.eqb (CK_Quota key) "" then throw (ESentinel ErrNoQuota)
  else
    let* k := (if String.eqb (CK_Key key) "" then random_key else mret (CK_Key key)) in
    store_AddAppConnectKey (mkConnectKeyRequest k (CK_Description key) (CK_Quota key)).

Definition UpdateAppConnectKey (key : AppConnectKeyRequest) : M S ConnectKey :=
  if String.eqb (CK_Quota key) "" then throw (ESentinel ErrNoQuota)
  else store_UpdateAppConnectKey key.

(** What [PreAuthorizedKeyRequest.SigHash] writes to the hasher. *)
Definition PreAuth_preimage (req : PreAuthorizedKeyRequest) : list byte :=
  WriteString "indexd/preauthorized-key/create/v1" ++
  WriteHash (PK_PublicKey req) ++
  WriteString (PK_ConnectKey req) ++
  WriteTime (PK_Expiration req) ++
  WriteUint64 (u64 (PK_TotalUses req)) ++
  WriteBool (match PK_AllowedAppID req with Some _ => true | None => false end) ++
  match PK_AllowedAppID req with Some id => WriteHash id | None => [] end.

Definition PreAuth_SigHash (req : PreAuthorizedKeyRequest) : Hash256 := Sum (PreAuth_preimage req).

Definition AddPreAuthorizedKey (req : PreAuthorizedKeyRequest) : M S PreAuthorizedKey :=
  let* bad :=
    (if (PK_PublicKey req =? 0)%N then mret true
     else if String.eqb (PK_ConnectKey req) "" then mret true
     else if (PK_TotalUses req <=? 0)%Z then mret true
     else
       let* now := time_Now in
       if negb (PK_Expiration req >? now)%Z then mret true
       else mret (negb (VerifyHash (PK_PublicKey req) (PreAuth_SigHash req) (PK_Signature req)))) in
  if bad : bool then throw (ESentinel ErrInvalidPreAuthorizedKey) else store_AddPreAuthorizedKey req.

(** The requests whose fields have the width of their Go types. *)
Definition preauth_ok (req : PreAuthorizedKeyRequest) : Prop :=
  is_hash (PK_PublicKey req) ∧ (Z.of_nat (String.length (PK_ConnectKey req)) < two63)%Z ∧
  is_i64 (Unix (PK_Expiration req)) ∧ is_i64 (PK_TotalUses req) ∧
  match PK_AllowedAppID req with Some id => is_hash id | None => True end.

(** A signature on a pre-authorized key request covers the whole policy: two
    requests with the same signature hash agree on the key, the connect key, the
    number of uses and the allowed app, and on the expiration to the second, or
    the hash function collides. *)
Theorem preauth_sig_hash_binds {EL : EncoderLaws E} (a b : PreAuthorizedKeyRequest) :
  preauth_ok a → preauth_ok b → PreAuth_SigHash a = PreAuth_SigHash b →
  (PK_PublicKey a = PK_PublicKey b ∧ PK_ConnectKey a = PK_ConnectKey b ∧
   Unix (PK_Expiration a) = Unix (PK_Expiration b) ∧ PK_TotalUses a = PK_TotalUses b ∧
   PK_AllowedAppID a = PK_AllowedAppID b) ∨ collides (PreAuth_preimage a) (PreAuth_preimage b).
Proof.
  intros (Ha1 & Ha2 & Ha3 & Ha4 & Ha5) (Hb1 & Hb2 & Hb3 & Hb4 & Hb5) [H|H]%Sum_inj; [|by right]. left.
  unfold PreAuth_preimage in H.
  apply app_inv_head in H. apply WriteHash_dec in H as [H1 H]; [|done..].
  apply WriteString_dec in H as [H2 H]; [|done..]. apply WriteTime_dec in H as [H3 H]; [|done..].
  apply WriteUint64_dec in H as [H4 H]; [|apply u64_range..]. apply u64_inj_i64 in H4; [|done..].
  apply WriteBool_dec in H as [H5 H]; [|done..]. split_and!; try done.
  destruct (PK_AllowedAppID a), (PK_AllowedAppID b); try done.
  rewrite <-(app_nil_r (WriteHash _)), <-(app_nil_r (WriteHash n0)) in H.
  by apply WriteHash_dec in H as [-> _].
Qed.
End connect.

(** ** Properties of the schedule *)

(** After a funding round every account keeps its identity; the first [n]
    are due again five minutes after the clock was read and have no failures; the
    others have one failure more and, up to the 27th failure in a row, are due
    after [min (2^failures minutes) maxBackoff]. *)
Theorem update_funded_accounts_spec {S} (time_Now : M S Z) (oor : Z → Z) (accounts accounts' : list HostAccount)
    (n : nat) (maxBackoff : Z) (s s' : S) (i : nat) (a : HostAccount) :
  UpdateFundedAccounts time_Now oor accounts n maxBackoff s = (Ok accounts', s') →
  accounts !! i = Some a → (0 ≤ ConsecutiveFailedFunds a < 2 ^ 62)%Z →
  length accounts' = length accounts ∧
  ∃ a' now s1 s2, accounts' !! i = Some a' ∧ time_Now s1 = (Ok now, s2) ∧
    AccountKey a' = AccountKey a ∧ AHostKey a' = AHostKey a ∧
    if decide (i < n)
    then ConsecutiveFailedFunds a' = 0%Z ∧ NextFund a' = (now + 5 * Minute)%Z
    else ConsecutiveFailedFunds a' = (ConsecutiveFailedFunds a + 1)%Z ∧
         ((ConsecutiveFailedFunds a < 27)%Z →
            NextFund a' = (now + Z.min (2 ^ (ConsecutiveFailedFunds a + 1) * Minute) maxBackoff)%Z).
Proof.
  unfold UpdateFundedAccounts. destruct (Nat.ltb_spec (length accounts) n); [done|]. intros H1 Ha Hf.
  split; [by eapply update_first_length|].
  destruct (update_first_lookup _ _ _ _ _ _ _ _ _ _ H1 Ha) as (now & s1 & s2 & Hnow & Hl).
  eexists _, now, s1, s2. split_and!; [exact Hl|done|by case_decide|by case_decide|]. case_decide; [done|].
  simpl. rewrite i64_id by (unfold is_i64, two63; lia). split; [done|]. intros Hk. f_equal.
  apply backoff_small. lia.
Qed.

(** The exponential backoff does not last: the delay after the 28th failure
    in a row is negative and from the 53rd to the 62nd it is zero, because
    [2^n * time.Minute] wraps, so such an account is due again at once. *)
Theorem backoff_overflows (oor : Z → Z) (a : HostAccount) (maxBackoff now : Z) :
  (0 ≤ maxBackoff)%Z →
  (ConsecutiveFailedFunds a = 27 → NextFund (account_failed oor maxBackoff a now) < now)%Z ∧
  (52 ≤ ConsecutiveFailedFunds a ≤ 61 → NextFund (account_failed oor maxBackoff a now) = now)%Z.
Proof.
  intros Hm. unfold account_failed. simpl. split; intros H.
  - rewrite H. change (i64 (27 + 1)) with 28%Z. pose proof (backoff_negative oor maxBackoff Hm). lia.
  - rewrite i64_id by (unfold is_i64, two63; lia). rewrite backoff_gone by lia. lia.
Qed.

(** ** Concrete instances *)

Module AccountsWitness.
#[local] Existing Instances U128.ops U128.laws TestRhp.ops TestRhp.laws SiaEncoding.ops SiaEncoding.laws.

Definition sc (n : Z) : U128.t := U128.wrapped n.
Definition settings : HostSettings :=
  mkSettings 502%Z 0%N (sc (10 ^ 27)) 1000000 (TestRhp.mkPrices (sc 1000) (sc 1000) (sc 1000) 100).
Definition host : Host :=
  Host.mk 7%N 0 0 0 0 0 (Float.of_int 1) [] "NL" (Float.of_int 0) (Float.of_int 0) settings
    Usability.GoodUsability false [] 0 0 (sc 0) (sc 0) 0.
Definition unwrap (r : result U128.t) : U128.t := match r with Ok c => c | _ => sc 0 end.

Example host_fund_target_spec_witness :
  let t := unwrap (HostFundTarget host 5000000) in
  let tr := unwrap (HostReadFundTarget host 5000000) in
  (Big tr ≤ Big t)%Z ∧
  ∃ sectors w r wu ru,
    (5000000 ≤ sectors * SectorSize < 5000000 + SectorSize)%Z ∧
    RPCWriteSectorCost (Prices (Host.Settings host)) SectorSize = Ok wu ∧ RenterCost wu = Ok w ∧
    RPCReadSectorCost (Prices (Host.Settings host)) SectorSize = Ok ru ∧ RenterCost ru = Ok r ∧
    Big t = (Big w * sectors / 2 + Big r * sectors / 2)%Z ∧ Big tr = (Big r * sectors / 2)%Z.
Proof.
  apply (host_fund_target_spec host 5000000); [lia|split; vm_compute; congruence|vm_compute; reflexivity..].
Defined.

Definition m0 : gmap N (gmap N U128.t) := {[ 1%N := {[ 7%N := sc 10 ]} ]}.

Example service_account_balances_witness :
  balance (DebitServiceAccount 7%N 1%N (sc 30) m0).2 1%N 7%N = Some 0%Z.
Proof.
  refine (eq_trans (proj1 (service_account_balances m0 1%N 7%N 1%N 7%N (sc 30) (sc 5) [])) _).
  vm_compute. reflexivity.
Defined.

(** Two accounts to prune. *)
Definition prune_one (limit : Z) : M nat unit := λ s,
  match s with O => (Err (ESentinel ErrNotFound), O) | Datatypes.S s => (Ok tt, s) end.

Example prune_accounts_terminates_witness : (performPruneAccounts prune_one 3 2).1 ≠ Ok None.
Proof.
  apply (prune_accounts_terminates prune_one (λ s, s) 3 2); [|lia].
  intros [|s] s'; simpl; [done|]. intros [= ->]. lia.
Defined.

Definition request (id : option N) : PreAuthorizedKeyRequest := mkPreAuth 7%N 0%N "key" (100 * Second) 3 id.

Example preauth_sig_hash_binds_witness :
  (PK_PublicKey (request (Some 5%N)) = PK_PublicKey (request (Some 5%N)) ∧
   PK_ConnectKey (request (Some 5%N)) = "key"%string ∧
   Unix (PK_Expiration (request (Some 5%N))) = (100 - unix_epoch)%Z ∧ PK_TotalUses (request (Some 5%N)) = 3%Z ∧
   PK_AllowedAppID (request (Some 5%N)) = Some 5%N) ∨
  collides (PreAuth_preimage (request (Some 5%N))) (PreAuth_preimage (mkPreAuth 7%N 1%N "key" (100 * Second) 3 (Some 5%N))).
Proof.
  apply (preauth_sig_hash_binds (request (Some 5%N)) (mkPreAuth 7%N 1%N "key" (100 * Second) 3 (Some 5%N)));
    unfold preauth_ok, is_hash, is_i64, two63; vm_compute; repeat split; congruence.
Defined.

Definition clock : M Z Z := λ t, (Ok t, t + 1)%Z.
Definition accs : list HostAccount := [mkHostAccount 1 7 4 0 false; mkHostAccount 2 7 4 0 false].

Example update_funded_accounts_spec_witness :
  ∃ accs' s', UpdateFundedAccounts clock (λ _, 0%Z) accs 1 (120 * Minute) 1000%Z = (Ok accs', s') ∧
  length accs' = 2 ∧
  ∃ a' now s1 s2, accs' !! 1 = Some a' ∧ clock s1 = (Ok now, s2) ∧ AccountKey a' = 2%N ∧ AHostKey a' = 7%N ∧
    ConsecutiveFailedFunds a' = 5%Z ∧ ((4 < 27)%Z → NextFund a' = (now + Z.min (2 ^ 5 * Minute) (120 * Minute))%Z).
Proof.
  eexists _, _. split; [reflexivity|].
  apply (update_funded_accounts_spec clock (λ _, 0%Z) accs _ 1 (120 * Minute) 1000%Z _ 1 (mkHostAccount 2 7 4 0 false) eq_refl eq_refl).
  simpl. lia.
Defined.

Example backoff_overflows_witness :
  let a n := mkHostAccount 1 7 n 0 false in
  (NextFund (account_failed (λ _, 0%Z) (120 * Minute) (a 27%Z) 1000) < 1000)%Z ∧
  NextFund (account_failed (λ _, 0%Z) (120 * Minute) (a 52%Z) 1000) = 1000%Z.
Proof.
  split.
  - apply (backoff_overflows (λ _, 0%Z) (mkHostAccount 1 7 27 0 false) (120 * Minute) 1000); [done|reflexivity].
  - apply (backoff_overflows (λ _, 0%Z) (mkHostAccount 1 7 52 0 false) (120 * Minute) 1000); [done|simpl; lia].
Defined.

End AccountsWitness.
