(* ===== verification/Integrity.v ===== *)
(** * Integrity checks (src/slabs/sectorverifier.go, src/slabs/dataintegrity.go)

    The verifier reads a random leaf of sectors of a host and pays for it from a
    service account; the integrity checks of a host record what it answered. The
    host client, the account manager and the store are interfaces; the accounts of
    Accounts.v implement the part the verifier pays with. *)

From S2P Require Import Prelude Encoding External Alerts Recovery Accounts.

(** ** Verifying sectors *)

Inductive CheckSectorsResult := SectorLost | SectorFailed | SectorSuccess.
#[export] Instance CheckSectorsResult_eq_dec : EqDecision CheckSectorsResult.
Proof. solve_decision. Defined.

Definition errInsufficientServiceAccountBalance : string := "insufficient service account balance".
Definition errHostUnreachable : string := "host unreachable".

(** [proto.ErrNotEnoughFunds.Error()] *)
Class FundsError := { ErrNotEnoughFunds_text : string }.

Definition isErrNotEnoughFunds {FE : FundsError} (err : error) : bool :=
  strings_Contains (error_string err) ErrNotEnoughFunds_text.

(** [proto.LeavesPerSector] *)
Class LeavesOps := { LeavesPerSector : Z }.
Class LeavesLaws {C : CurrencyOps} {R : RhpOps} (L : LeafOps) (LV : LeavesOps) : Prop := {
  LeavesPerSector_size : (LeavesPerSector * LeafSize = SectorSize)%Z;
  LeafSize_u64 : (0 < LeafSize)%Z ∧ (SectorSize < two64)%Z }.

(** The account manager, the host client and the context of a verifier. *)
Class VerifierOps (S : Type) {C : CurrencyOps} {R : RhpOps} := {
  v_ServiceAccountBalance : PublicKey → PublicKey → M S Currency;
  v_DebitServiceAccount : PublicKey → PublicKey → Currency → M S unit;
  v_ResetAccountBalance : PublicKey → PublicKey → M S unit;
  v_Prices : PublicKey → M S HostPrices;
  (* host, root, offset, length; the bytes are discarded *)
  v_ReadSector : PublicKey → Hash256 → Z → Z → M S unit;
  v_TrackInflightRead : PublicKey → M S unit;
  v_release : PublicKey → M S unit;
  v_ctx_Err : M S (option error);
  frand_Uint64n : Z → M S Z }.

Section verifier.
Local Open Scope go_scope.
Context {S : Type} {C : CurrencyOps} {R : RhpOps} {L : LeafOps} {LV : LeavesOps} {SE : SectorErrors} {FE : FundsError}.
Context {V : VerifierOps S}.
Variable account : PublicKey.

Definition UpdateBalance (hostKey : PublicKey) (usage : Usage) : M S unit :=
  let* cost := lift (RenterCost usage) in
  wrapM "failed to update service account balance: " (v_DebitServiceAccount hostKey account cost).

Definition ResetBalance (hostKey : PublicKey) : M S unit :=
  wrapM "failed to reset service account balance: " (v_ResetAccountBalance hostKey account).

(** The result of a read of a sector. *)
Definition check_result (r : result unit) : CheckSectorsResult :=
  match r with
  | Err e => if isErrLostSector e then SectorLost else SectorFailed
  | _ => SectorSuccess
  end.

(** The loop of [VerifySectors]; [reset] says whether [resetOnce] ran. *)
Fixpoint verify_loop (hostKey : PublicKey) (budget : Currency) (reset : bool) (results : list CheckSectorsResult)
    (roots : list Hash256) : M S (list CheckSectorsResult * option error) :=
  match roots with
  | [] => mret (results, None)
  | root :: roots =>
      let* p := try (v_Prices hostKey) in
      match p with
      | Ok prices =>
          let* usage := lift (RPCReadSectorCost prices LeafSize) in
          let* cost := lift (RenterCost usage) in
          if cLt budget cost then mret (results, Some (ESentinel errInsufficientServiceAccountBalance))
          else
            let* budget := lift (cSub budget cost) in
            let* u := try (UpdateBalance hostKey usage) in
            match u with
            | Err e => mret (results, Some (EWrap "failed to update service account balance: " e ""))
            | _ =>
                let* segment := frand_Uint64n LeavesPerSector in
                v_TrackInflightRead hostKey ;;
                let* r := try (v_ReadSector hostKey root (u64 (segment * LeafSize)) LeafSize) in
                v_release hostKey ;;
                match r with
                | Err err =>
                    let* interrupted := v_ctx_Err in
                    match interrupted with
                    | Some _ => mret (results, Some err)
                    | None =>
                        let results := results ++ [check_result r] in
                        if isErrNotEnoughFunds err then
                          (if reset then mret tt else let* _ := try (ResetBalance hostKey) in mret tt) ;;
                          verify_loop hostKey budget true results roots
                        else verify_loop hostKey budget reset results roots
                    end
                | _ => verify_loop hostKey budget reset (results ++ [check_result r]) roots
                end
            end
      | _ =>
          let* interrupted := v_ctx_Err in
          mret (results, Some (match interrupted with Some e => e | None => ESentinel errHostUnreachable end))
      end
  end.

Definition VerifySectors (hostKey : PublicKey) (roots : list Hash256) : M S (list CheckSectorsResult * option error) :=
  let* r := try (v_ServiceAccountBalance hostKey account) in
  match r with
  | Ok budget => verify_loop hostKey budget false [] roots
  | Err e => mret ([], Some (EWrap "failed to get service account balance: " e ""))
  | Panic => panic
  end.

(** What was debited and how often the balance was reset, over the life of the
    system; only the account operations change them. *)
Class AccountHistory (V : VerifierOps S) := {
  debited : S → Z;
  resets : S → nat;
  debit_history : ∀ h a c s, (debited (v_DebitServiceAccount h a c s).2 ≤ debited s + Big c)%Z ∧
                             resets (v_DebitServiceAccount h a c s).2 = resets s;
  reset_history : ∀ h a s, debited (v_ResetAccountBalance h a s).2 = debited s ∧
                           resets (v_ResetAccountBalance h a s).2 ≤ resets s + 1;
  balance_history : ∀ h a s, debited (v_ServiceAccountBalance h a s).2 = debited s ∧ resets (v_ServiceAccountBalance h a s).2 = resets s;
  prices_history : ∀ h s, debited (v_Prices h s).2 = debited s ∧ resets (v_Prices h s).2 = resets s;
  read_history : ∀ h r o l s, debited (v_ReadSector h r o l s).2 = debited s ∧ resets (v_ReadSector h r o l s).2 = resets s;
  track_history : ∀ h s, debited (v_TrackInflightRead h s).2 = debited s ∧ resets (v_TrackInflightRead h s).2 = resets s;
  release_history : ∀ h s, debited (v_release h s).2 = debited s ∧ resets (v_release h s).2 = resets s;
  ctx_history : ∀ s, debited (v_ctx_Err s).2 = debited s ∧ resets (v_ctx_Err s).2 = resets s;
  frand_history : ∀ n s, debited (frand_Uint64n n s).2 = debited s ∧ resets (frand_Uint64n n s).2 = resets s;
  frand_range : ∀ n s v s', frand_Uint64n n s = (Ok v, s') → (0 ≤ v < n)%Z }.

(** The host answered a read of a leaf of the sector. *)
Definition answered (hostKey : PublicKey) (root : Hash256) (res : CheckSectorsResult) : Prop :=
  ∃ off s r s', v_ReadSector hostKey root off LeafSize s = (r, s') ∧ r ≠ Panic ∧ check_result r = res ∧
    (0 ≤ off ∧ off mod LeafSize = 0 ∧ off + LeafSize ≤ SectorSize)%Z.

Context {CL : CurrencyLaws C} {LVL : LeavesLaws L LV} {AH : AccountHistory V}.

Lemma history_same {A} (m : M S A) s r s' :
  (debited (m s).2 = debited s ∧ resets (m s).2 = resets s) → m s = (r, s') → debited s' = debited s ∧ resets s' = resets s.
Proof. by intros H E; rewrite E in H. Qed.

Lemma try_inv {A} (m : M S A) s r s' : try m s = (Ok r, s') → m s = (r, s') ∧ r ≠ Panic.
Proof. unfold try. destruct (m s) as [[a|e|] s1]; intros H; simplify_eq; done. Qed.

Lemma lift_inv {A} (x : result A) (s : S) a s' : lift x s = (Ok a, s') → x = Ok a ∧ s' = s.
Proof. unfold lift. intros H. by simplify_eq. Qed.

(** What an iteration adds. *)
Definition verified (hostKey : PublicKey) (roots : list Hash256) (before after : list CheckSectorsResult) : Prop :=
  ∃ new, after = before ++ new ∧ length new ≤ length roots ∧ Forall2 (answered hostKey) (take (length new) roots) new.

Lemma verified_nil hostKey roots l : verified hostKey roots l l.
Proof. exists []. rewrite app_nil_r. split_and!; [done|simpl; lia|constructor]. Qed.

Lemma verified_cons hostKey root roots l x l' :
  answered hostKey root x → verified hostKey roots (l ++ [x]) l' → verified hostKey (root :: roots) l l'.
Proof.
  intros Hx (new & -> & Hlen & Hall). exists (x :: new). rewrite <-app_assoc. split_and!; [done|simpl; lia|]. simpl. by constructor.
Qed.

Lemma segment_offset seg : (0 ≤ seg < LeavesPerSector)%Z →
  let off := u64 (seg * LeafSize) in (0 ≤ off ∧ off mod LeafSize = 0 ∧ off + LeafSize ≤ SectorSize)%Z.
Proof.
  intros Hs off. destruct LeafSize_u64 as [Hp Hu]. pose proof LeavesPerSector_size as Hl.
  assert (is_u64 (seg * LeafSize)) by (unfold is_u64; nia). unfold off. rewrite u64_id by done.
  split_and!; [nia|apply Z.mod_mul; lia|nia].
Qed.

Lemma UpdateBalance_history hostKey usage cost s r s' :
  RenterCost usage = Ok cost → UpdateBalance hostKey usage s = (r, s') →
  (debited s' ≤ debited s + Big cost)%Z ∧ resets s' = resets s.
Proof.
  intros Hc. unfold UpdateBalance, bindM, mbind, M_bind, lift, wrapM. rewrite Hc.
  pose proof (debit_history hostKey account cost s) as H. destruct (v_DebitServiceAccount hostKey account cost s) as [x s1].
  intros E. simplify_eq. exact H.
Qed.

Lemma reset_once_history hostKey (reset : bool) s s' :
  (if reset then mret tt else let* _ := try (ResetBalance hostKey) in mret tt) s = (Ok tt, s') →
  debited s' = debited s ∧ resets s' ≤ resets s + (if reset then 0 else 1).
Proof.
  destruct reset; [intros [= <-]; split; lia|]. intros H. apply bindM_ok in H as (r & s1 & [Hr _]%try_inv & H).
  injection H as <-. unfold ResetBalance, wrapM in Hr. pose proof (reset_history hostKey account s) as Hh.
  destruct (v_ResetAccountBalance hostKey account s) as [x s2]. by injection Hr as _ <-.
Qed.

(** What a run of the verifier guarantees, from [results] and a [budget]. *)
Record run_ok (hostKey : PublicKey) (roots : list Hash256) (budget : Z) (reset : bool) (before : list CheckSectorsResult)
    (s : S) (p : list CheckSectorsResult * option error) (s' : S) : Prop := {
  ok_verified : verified hostKey roots before p.1;
  ok_complete : p.2 = None → length p.1 = length before + length roots;
  ok_debited : (debited s' ≤ debited s + budget)%Z;
  ok_resets : resets s' ≤ resets s + (if reset then 0 else 1) }.

Lemma run_ok_stop hostKey roots b reset l e s s' :
  (0 ≤ b)%Z → debited s' = debited s ∧ resets s' = resets s → run_ok hostKey roots b reset l s (l, Some e) s'.
Proof. intros Hb [H1 H2]. split; simpl; [apply verified_nil|done|lia|destruct reset; lia]. Qed.

Lemma verify_loop_spec hostKey roots budget reset l s p s' :
  verify_loop hostKey budget reset l roots s = (Ok p, s') →
  run_ok hostKey roots (Big budget) reset l s p s'.
Proof.
  revert budget reset l s. induction roots as [|root roots IH]; intros budget reset l s H; simpl in H.
  { injection H as <- <-. split; simpl; [apply verified_nil|lia|pose proof (Big_nonneg budget); lia|destruct reset; lia]. }
  pose proof (Big_nonneg budget) as Hb0.
  apply bindM_ok in H as (rp & s1 & [Hp _]%try_inv & H). destruct (history_same _ _ _ _ (prices_history hostKey s) Hp) as [Hd1 Hr1].
  destruct rp as [prices|e|].
  2-3: apply bindM_ok in H as (i & s2 & Hi & H); injection H as <- <-;
    destruct (history_same _ _ _ _ (ctx_history s1) Hi) as [Hd2 Hr2]; apply run_ok_stop; [done|split; congruence].
  apply bindM_ok in H as (usage & s2 & [_ ->]%lift_inv & H). apply bindM_ok in H as (cost & s2 & [Hcost ->]%lift_inv & H).
  destruct (cLt budget cost) eqn:Elt.
  { injection H as <- <-. apply run_ok_stop; [done|split; congruence]. }
  apply bindM_ok in H as (budget' & s2 & [Hsub ->]%lift_inv & H). apply cSub_inv in Hsub as Hsub'.
  apply bindM_ok in H as (u & s2 & [Hu Hup]%try_inv & H).
  destruct (UpdateBalance_history _ _ _ _ _ _ Hcost Hu) as [Hd2 Hr2]. pose proof (Big_nonneg budget').
  assert (∀ b l' s3 p, run_ok hostKey roots (Big budget') b l' s3 p s' → (debited s3 = debited s2) →
    resets s3 + (if b then 0 else 1) ≤ resets s2 + (if reset then 0 else 1) →
    (∃ x, l' = l ++ [x] ∧ answered hostKey root x) → run_ok hostKey (root :: roots) (Big budget) reset l s p s') as Hnext.
  { intros b l' s3 q Hq Hd Hr (x & -> & Hx). destruct Hq as [Hv Hc Hdq Hrq]. split.
    - by eapply verified_cons.
    - intros Hn. rewrite (Hc Hn), length_app. simpl. lia.
    - lia.
    - lia. }
  destruct u as [[]|e|]; [| |done].
  2: { injection H as <- <-. split; simpl; [apply verified_nil|done|lia|destruct reset; lia]. }
  apply bindM_ok in H as (seg & s3 & Hseg & H). pose proof (segment_offset seg (frand_range _ _ _ _ Hseg)) as Hoff.
  destruct (history_same _ _ _ _ (frand_history _ _) Hseg) as [Hd3 Hr3].
  apply bindM_ok in H as ([] & s4 & Ht & H). destruct (history_same _ _ _ _ (track_history _ _) Ht) as [Hd4 Hr4].
  apply bindM_ok in H as (r & s5 & [Hread Hnp]%try_inv & H).
  destruct (history_same _ _ _ _ (read_history _ _ _ _ _) Hread) as [Hd5 Hr5].
  apply bindM_ok in H as ([] & s6 & Hrel & H). destruct (history_same _ _ _ _ (release_history _ _) Hrel) as [Hd6 Hr6].
  assert (answered hostKey root (check_result r)) as Hans by (by exists (u64 (seg * LeafSize)), s4, r, s5).
  destruct r as [[]|err|]; [| |done].
  { apply IH in H. apply (Hnext _ _ _ _ H); [congruence|destruct reset; lia|eauto]. }
  apply bindM_ok in H as (i & s7 & Hi & H). destruct (history_same _ _ _ _ (ctx_history _) Hi) as [Hd7 Hr7].
  destruct i as [e|].
  { injection H as <- <-. split; simpl; [apply verified_nil|done|lia|destruct reset; lia]. }
  destruct (isErrNotEnoughFunds err).
  - apply bindM_ok in H as ([] & s8 & Hrst & H). apply IH in H. apply (Hnext _ _ _ _ H); [| |eauto];
      apply reset_once_history in Hrst as [Hd8 Hr8]; [congruence|destruct reset; lia].
  - apply IH in H. apply (Hnext _ _ _ _ H); [congruence|destruct reset; lia|eauto].
Qed.

(** The verifier answers for a prefix of the sectors, in order, each with what
    the host answered to the read of a leaf of that sector; without an error it
    answers for all of them. It debits at most the balance the account has when it
    starts, and resets the account at most once. *)
Theorem verify_sectors_spec (hostKey : PublicKey) (roots : list Hash256) (s s0 s' : S) (budget : Currency)
    (results : list CheckSectorsResult) (err : option error) :
  v_ServiceAccountBalance hostKey account s = (Ok budget, s0) →
  VerifySectors hostKey roots s = (Ok (results, err), s') →
  length results ≤ length roots ∧ Forall2 (answered hostKey) (take (length results) roots) results ∧
  (err = None → length results = length roots) ∧
  (debited s' ≤ debited s + Big budget)%Z ∧ resets s' ≤ resets s + 1.
Proof.
  intros Hb H. unfold VerifySectors in H. apply bindM_ok in H as (r & s1 & [Hr _]%try_inv & H).
  rewrite Hb in Hr. injection Hr as <- <-. destruct (history_same _ _ _ _ (balance_history _ _ _) Hb) as [Hd Hrs].
  apply verify_loop_spec in H as [(new & Hnew & Hlen & Hall) Hc Hdeb Hres]. simpl in *. subst results. split_and!; [done|done|done|lia|lia].
Qed.
End verifier.

(** ** Checking a host *)

(** The store, and the managers a check consults. *)
Class IntegrityStore (S : Type) := {
  is_SectorsForIntegrityCheck : PublicKey → Z → M S (list Hash256);
  is_MarkSectorsLost : PublicKey → list Hash256 → M S unit;
  (* success, next check, host, roots *)
  is_RecordIntegrityCheck : bool → Z → PublicKey → list Hash256 → M S unit;
  is_MarkFailingSectorsLost : PublicKey → Z → M S unit;
  is_HostsForIntegrityChecks : Z → Z → M S (list PublicKey);
  is_HostsWithLostSectors : M S (list PublicKey) }.

Class IntegrityDeps (S : Type) := {
  hm_Usable : PublicKey → M S bool;
  cm_TriggerAccountRefill : PublicKey → PublicKey → M S unit;
  id_time_Now : M S Z }.

(** [integrityCheckInterval], [failedIntegrityCheckInterval], [maxFailedIntegrityChecks] *)
Record IntegritySettings := mkIntegrity { checkInterval : Z; failedCheckInterval : Z; maxFailedChecks : Z }.

(** What the loop over the sectors of a batch ends with. *)
Inductive batch_outcome :=
  | Returned                                                            (* from the function *)
  | Checked (results : list CheckSectorsResult) (interrupt : bool)
  | OutOfFuel.

Section checks.
Local Open Scope go_scope.
Context {S : Type} {C : CurrencyOps} {R : RhpOps} {L : LeafOps} {LV : LeavesOps} {SE : SectorErrors} {FE : FundsError}.
Context {V : VerifierOps S} {D : IntegrityDeps S}.
Variable account hostKey : PublicKey.
Variable settings : IntegritySettings.

(** [for len(results) < len(toCheck)] *)
Fixpoint check_batch (fuel : nat) (toCheck : list Hash256) (results : list CheckSectorsResult) : M S batch_outcome :=
  if negb (Nat.ltb (length results) (length toCheck)) then mret (Checked results false)
  else
    match fuel with
    | O => mret OutOfFuel
    | Datatypes.S fuel =>
        let* usable := try (hm_Usable hostKey) in
        match usable with
        | Ok true =>
            let* p := VerifySectors account hostKey (drop (length results) toCheck) in
            let '(batch, err) := p in
            let results := results ++ batch in
            match err with
            | None => check_batch fuel toCheck results
            | Some err =>
                let* ctx := v_ctx_Err in
                if bool_decide (is_Some ctx) || errors_Is err errInsufficientServiceAccountBalance || errors_Is err errHostUnreachable
                then
                  (if errors_Is err errInsufficientServiceAccountBalance
                   then let* _ := try (cm_TriggerAccountRefill hostKey account) in mret tt else mret tt) ;;
                  mret (Checked results true)
                else mret Returned
            end
        | Ok false => mret (Checked results true)
        | _ => mret Returned
        end
    end.

(** The roots with the result [k]: [lost], [failed] or [success]. *)
Definition roots_with (k : CheckSectorsResult) (toCheck : list Hash256) (results : list CheckSectorsResult) : list Hash256 :=
  (filter (λ p, p.2 = k) (zip toCheck results)).*1.

Section store.
Context {ST : IntegrityStore S}.

Definition record_results (toCheck : list Hash256) (results : list CheckSectorsResult) : M S unit :=
  wrapM "failed to mark sectors as lost: " (is_MarkSectorsLost hostKey (roots_with SectorLost toCheck results)) ;;
  let* now := id_time_Now in
  wrapM "failed to record integrity check for failed sectors: "
    (is_RecordIntegrityCheck false (now + failedCheckInterval settings) hostKey (roots_with SectorFailed toCheck results)) ;;
  let* now := id_time_Now in
  wrapM "failed to record integrity check for successful sectors: "
    (is_RecordIntegrityCheck true (now + checkInterval settings) hostKey (roots_with SectorSuccess toCheck results)) ;;
  wrapM "failed to mark failing sectors as lost: " (is_MarkFailingSectorsLost hostKey (maxFailedChecks settings)).

(** One element of fuel per batch; [None] when it ran out. *)
Fixpoint performIntegrityChecksForHost (fuel : nat) : M S (option unit) :=
  match fuel with
  | O => mret None
  | Datatypes.S fuel =>
      let batchSize := 1000 in
      let* t := try (is_SectorsForIntegrityCheck hostKey (Z.of_nat batchSize)) in
      match t with
      | Ok toCheck =>
          if Nat.eqb (length toCheck) 0 then mret (Some tt)
          else
            let* outcome := check_batch (length toCheck) toCheck [] in
            match outcome with
            | Returned => mret (Some tt)
            | OutOfFuel => mret None
            | Checked results interrupted =>
                if Nat.eqb (length results) 0 then mret (Some tt)
                else
                  let* r := try (record_results toCheck results) in
                  match r with
                  | Ok _ => if Nat.ltb (length toCheck) batchSize || interrupted then mret (Some tt)
                            else performIntegrityChecksForHost fuel
                  | _ => mret (Some tt)
                  end
            end
      | _ => mret (Some tt)
      end
  end.
End store.

(** *** What is recorded *)

Context {CL : CurrencyLaws C} {LVL : LeavesLaws L LV} {AH : AccountHistory V}.

Lemma Checked_inj r1 b1 r2 b2 : Checked r1 b1 = Checked r2 b2 → r1 = r2 ∧ b1 = b2.
Proof. by intros [= -> ->]. Qed.

Lemma VerifySectors_answers roots s results err s' :
  VerifySectors account hostKey roots s = (Ok (results, err), s') →
  length results ≤ length roots ∧ Forall2 (answered hostKey) (take (length results) roots) results ∧
  (err = None → length results = length roots).
Proof.
  intros Hv. unfold VerifySectors in Hv. apply bindM_ok in Hv as (r & s3 & [Hr _]%try_inv & Hv). destruct r as [budget|e|]; [| |done].
  - apply (verify_loop_spec account hostKey) in Hv. destruct Hv as [(new & Hnew & Hn & Ha) Hc _ _].
    simpl in *. by subst results.
  - injection Hv as <- <- _. split_and!; [simpl; lia|constructor|done].
Qed.

(** A batch ends with what the host answered for a prefix of it. *)
Lemma check_batch_answers fuel toCheck results s o s' :
  length results ≤ length toCheck →
  Forall2 (answered hostKey) (take (length results) toCheck) results →
  check_batch fuel toCheck results s = (Ok o, s') →
  match o with
  | Checked results' _ => length results' ≤ length toCheck ∧ Forall2 (answered hostKey) (take (length results') toCheck) results'
  | _ => True
  end.
Proof.
  revert results s. induction fuel as [|fuel IH]; intros results s Hlen Hall H; simpl in H;
    (destruct (Nat.ltb_spec (length results) (length toCheck)) as [Hlt|Hge]; simpl in H; [|by injection H as <- _]).
  { by injection H as <- _. }
  apply bindM_ok in H as (u & s1 & _ & H). destruct u as [[]|e|]; [|by injection H as <- _..].
  apply bindM_ok in H as ([batch err] & s2 & Hv & H).
  assert (length (results ++ batch) ≤ length toCheck ∧
    Forall2 (answered hostKey) (take (length (results ++ batch)) toCheck) (results ++ batch)) as [Hlen' Hall'].
  { apply VerifySectors_answers in Hv as (Hn & Ha & _).
    rewrite length_drop in Hn. rewrite length_app. split; [lia|].
    rewrite <-(take_drop (length results) toCheck) at 1. rewrite take_app, length_take, Nat.min_l by lia.
    rewrite take_ge by (rewrite length_take; lia). apply Forall2_app; [done|].
    by replace (length results + length batch - length results) with (length batch) by lia. }
  destruct err as [err|]; [|by eapply IH]. apply bindM_ok in H as (c & s3 & _ & H).
  destruct (_ || _ || _); [|by injection H as <- _]. apply bindM_ok in H as ([] & s4 & _ & H). by injection H as <- _.
Qed.

Lemma elem_of_roots_with k toCheck results root :
  Forall2 (answered hostKey) (take (length results) toCheck) results → root ∈ roots_with k toCheck results → answered hostKey root k.
Proof.
  intros Hall ([r x] & -> & [Hx Hin]%list_elem_of_filter)%list_elem_of_fmap. simpl in *. subst x.
  apply list_elem_of_lookup in Hin as [i Hi]. apply lookup_zip_with_Some in Hi as (r' & x' & [= -> ->] & Hr & Hx).
  eapply Forall2_lookup_lr; [exact Hall| |exact Hx]. rewrite lookup_take_lt; [done|]. by eapply lookup_lt_Some.
Qed.

(** Two stores that agree on every call but on recording an answer the host did not
    give. *)
Record agree_answers (A B : IntegrityStore S) : Prop := {
  aa_sectors : ∀ h n s, @is_SectorsForIntegrityCheck S A h n s = @is_SectorsForIntegrityCheck S B h n s;
  aa_lost : ∀ roots s, (∀ r, r ∈ roots → answered hostKey r SectorLost) →
    @is_MarkSectorsLost S A hostKey roots s = @is_MarkSectorsLost S B hostKey roots s;
  aa_failed : ∀ t roots s, (∀ r, r ∈ roots → answered hostKey r SectorFailed) →
    @is_RecordIntegrityCheck S A false t hostKey roots s = @is_RecordIntegrityCheck S B false t hostKey roots s;
  aa_success : ∀ t roots s, (∀ r, r ∈ roots → answered hostKey r SectorSuccess) →
    @is_RecordIntegrityCheck S A true t hostKey roots s = @is_RecordIntegrityCheck S B true t hostKey roots s;
  aa_failing : ∀ s, @is_MarkFailingSectorsLost S A hostKey (maxFailedChecks settings) s =
    @is_MarkFailingSectorsLost S B hostKey (maxFailedChecks settings) s }.

Lemma record_results_agree A B toCheck results s :
  agree_answers A B → Forall2 (answered hostKey) (take (length results) toCheck) results →
  record_results (ST:=A) toCheck results s = record_results (ST:=B) toCheck results s.
Proof.
  intros Hag Hall. assert (∀ k r, r ∈ roots_with k toCheck results → answered hostKey r k) as Hr by (intros; by eapply elem_of_roots_with).
  unfold record_results. apply bindM_ext; [apply wrapM_ext, Hag, Hr|]. intros [] s1.
  apply bindM_ext; [done|]. intros now s2. apply bindM_ext; [apply wrapM_ext, Hag, Hr|]. intros [] s3.
  apply bindM_ext; [done|]. intros now' s4. apply bindM_ext; [apply wrapM_ext, Hag, Hr|]. intros [] s5.
  apply wrapM_ext, Hag.
Qed.

(** The checks of a host record only what the host answered: a sector is marked
    lost, recorded as failed, or recorded as passed only if a read of a leaf of that
    sector from this host was answered that way. A store that would not accept
    anything else can not tell the difference. *)
Theorem integrity_records_answers (A B : IntegrityStore S) (fuel : nat) (s : S) :
  agree_answers A B →
  performIntegrityChecksForHost (ST:=A) fuel s = performIntegrityChecksForHost (ST:=B) fuel s.
Proof.
  intros Hag. revert s. induction fuel as [|fuel IH]; intros s; simpl; [done|].
  apply bindM_ext; [apply try_ext, Hag|]. intros [toCheck|e|] s1; [|done..].
  destruct (Nat.eqb (length toCheck) 0); [done|]. apply bindM_ext_ok; [done|]. intros o s2 Ho.
  apply check_batch_answers in Ho; [|simpl; lia|constructor]. destruct o as [|results b|]; [done| |done].
  destruct Ho as [_ Hall]. destruct (Nat.eqb (length results) 0); [done|].
  apply bindM_ext; [by apply try_ext, record_results_agree|]. intros [[]|e|] s3; [|done..].
  by destruct (_ || b).
Qed.

Lemma check_batch_ends fuel toCheck results s o s' :
  length results ≤ length toCheck → (length results < length toCheck → 0 < fuel) →
  check_batch fuel toCheck results s = (Ok o, s') →
  o ≠ OutOfFuel ∧ ∀ results', o = Checked results' false → length results' = length toCheck.
Proof.
  revert results s. induction fuel as [|fuel IH]; intros results s Hlen Hfuel H; simpl in H;
    (destruct (Nat.ltb_spec (length results) (length toCheck)) as [Hlt|Hge]; simpl in H;
     [|injection H as <- _; split; [done|intros ? [= <-]; lia]]); [lia|].
  apply bindM_ok in H as (u & s1 & _ & H).
  destruct u as [[]|e|]; [|injection H as <- _; split; [done|by intros ? [=]]..].
  apply bindM_ok in H as ([batch err] & s2 & Hv & H). apply VerifySectors_answers in Hv as (Hn & _ & Hc).
  rewrite length_drop in *. destruct err as [err|].
  - apply bindM_ok in H as (c & s3 & _ & H).
    destruct (_ || _ || _); [|injection H as <- _; split; [done|by intros ? [=]]].
    apply bindM_ok in H as ([] & s4 & _ & H). injection H as <- _. split; [done|by intros ? [=]].
  - specialize (Hc eq_refl). eapply IH; [| |exact H]; rewrite length_app; lia.
Qed.

Lemma roots_with_partition toCheck results :
  length results ≤ length toCheck →
  roots_with SectorLost toCheck results ++ roots_with SectorFailed toCheck results ++ roots_with SectorSuccess toCheck results
    ≡ₚ take (length results) toCheck.
Proof.
  unfold roots_with. revert toCheck. induction results as [|x results IH]; intros toCheck Hlen.
  - by rewrite zip_with_nil_r.
  - destruct toCheck as [|r toCheck]; simpl in Hlen; [lia|]. cbn [zip_with]. specialize (IH toCheck ltac:(lia)).
    destruct x; rewrite !filter_cons; simpl; rewrite <-IH; [done|by rewrite <-Permutation_middle|].
    by rewrite !app_assoc, <-Permutation_middle.
Qed.

(** Every sector that was checked is recorded once, with the lost, the failed or
    the passed ones, and the check of a batch ends; all of it was checked unless the
    check was interrupted. *)
Theorem integrity_records_once (toCheck : list Hash256) (s s' : S) (o : batch_outcome) :
  check_batch (length toCheck) toCheck [] s = (Ok o, s') →
  o ≠ OutOfFuel ∧
  ∀ results b, o = Checked results b →
    roots_with SectorLost toCheck results ++ roots_with SectorFailed toCheck results ++ roots_with SectorSuccess toCheck results
      ≡ₚ take (length results) toCheck ∧
    (b = false → length results = length toCheck).
Proof.
  intros H. pose proof H as Hall. apply check_batch_answers in Hall; [|simpl; lia|constructor].
  apply check_batch_ends in H as [Hf Hc]; [|simpl; lia..]. split; [done|]. intros results b ->.
  destruct Hall as [Hlen _]. split; [by apply roots_with_partition|]. intros ->. by apply Hc.
Qed.
End checks.

(** ** The task *)

Section task.
Local Open Scope go_scope.
Context {S : Type} {ST : IntegrityStore S} {D : IntegrityDeps S}.
Variable alertLostSectorsID : Hash256.

(** The data of the alert: the hosts. *)
Definition newLostSectorsAlert (now : Z) (hks : list PublicKey) : Alert (Data:=list PublicKey) :=
  mkAlert alertLostSectorsID SeverityWarning "Host(s) have lost sectors" hks now.

Definition registerLostSectorsAlert : M (S * gmap Hash256 (Alert (Data:=list PublicKey))) unit :=
  let* r := try (lift1 is_HostsWithLostSectors) in
  match r with
  | Ok hks =>
      if Nat.ltb 0 (length hks) then
        let* now := lift1 id_time_Now in
        let* _ := try (λ '(s, m), let '(x, m) := RegisterAlert (newLostSectorsAlert now hks) m in (x, (s, m))) in mret tt
      else set_local (DismissAlerts [alertLostSectorsID])
  | _ => mret tt
  end.

(** The hosts of the batches, each checked by a worker; here one worker has them
    all. Whether the task got to its end is returned, [None] when the fuel of one
    element per batch ran out. *)
Fixpoint check_hosts (ctx_Err : M S (option error)) (check : PublicKey → M S unit) (hosts : list PublicKey) : M S bool :=
  match hosts with
  | [] => mret true
  | host :: hosts =>
      let* c := ctx_Err in
      match c with Some _ => mret false | None => check host ;; check_hosts ctx_Err check hosts end
  end.

Fixpoint integrity_hosts (fuel : nat) (ctx_Err : M S (option error)) (check : PublicKey → M S unit) (start : Z) : M S (option bool) :=
  match fuel with
  | O => mret None
  | Datatypes.S fuel =>
      let batchSize := 100 in
      let* batch := wrapM "failed to fetch hosts: " (is_HostsForIntegrityChecks start (Z.of_nat batchSize)) in
      let* fed := check_hosts ctx_Err check batch in
      if negb fed then mret (Some false)
      else if Nat.ltb (length batch) batchSize then mret (Some true)
      else integrity_hosts fuel ctx_Err check start
  end.

Definition performIntegrityChecks (fuel : nat) (ctx_Err : M S (option error)) (check : PublicKey → M S unit) :
    M (S * gmap Hash256 (Alert (Data:=list PublicKey))) (option unit) :=
  let* start := lift1 id_time_Now in
  let* r := lift1 (integrity_hosts fuel ctx_Err check start) in
  match r with
  | None => mret None
  | Some true => registerLostSectorsAlert ;; mret (Some tt)
  | Some false => mret (Some tt)
  end.

(** While some host has lost sectors there is an alert that names those hosts, and
    otherwise there is none; no other alert changes. *)
Lemma lost_sectors_alert (s s1 s2 : S) (m : gmap Hash256 (Alert (Data:=list PublicKey))) (hks : list PublicKey) (now : Z) :
  is_HostsWithLostSectors s = (Ok hks, s1) → id_time_Now s1 = (Ok now, s2) → now ≠ 0%Z → alertLostSectorsID ≠ 0%N →
  ∃ s' m', registerLostSectorsAlert (s, m) = (Ok tt, (s', m')) ∧
    m' !! alertLostSectorsID = (if Nat.ltb 0 (length hks) then Some (newLostSectorsAlert now hks) else None) ∧
    ∀ i, i ≠ alertLostSectorsID → m' !! i = m !! i.
Proof.
  intros Hh Hn Hnow Hid. unfold registerLostSectorsAlert, bindM, mbind, M_bind, try, lift1. rewrite Hh. cbv beta iota.
  destruct hks as [|h hks]; simpl.
  - eexists _, _. split; [done|]. split; [apply lookup_delete_eq|]. intros i Hi. by rewrite lookup_delete_ne.
  - rewrite Hn. unfold RegisterAlert, time_IsZero. simpl. rewrite (proj2 (N.eqb_neq _ _)), (proj2 (Z.eqb_neq _ _)) by done.
    eexists _, _. split; [done|]. split; [apply lookup_insert_eq|]. intros i Hi. by rewrite lookup_insert_ne.
Qed.
End task.

(** ** Concrete instances *)

Module IntegrityWitness.
Local Open Scope go_scope.
#[local] Existing Instance U128.ops.
#[local] Existing Instance U128.laws.
#[local] Existing Instance TestRhp.ops.
#[local] Instance leaf : LeafOps := {| LeafSize := 64 |}.
#[local] Instance leaves : LeavesOps := {| LeavesPerSector := 65536 |}.
#[local] Instance leaves_laws : LeavesLaws leaf leaves.
Proof. split; [reflexivity|split; reflexivity]. Qed.
#[local] Instance sector_errors : SectorErrors := {| ErrSectorNotFound := "not found"; ErrSectorCorrupt := "corrupt" |}.
#[local] Instance funds : FundsError := {| ErrNotEnoughFunds_text := "not enough funds" |}.

(** The service accounts of Accounts.v, with a log of the debits and resets. *)
Definition state : Type := gmap N (gmap N (@Currency U128.ops)) * (Z * nat).

Definition prices : TestRhp.prices := TestRhp.mkPrices (U128.wrapped 1) (U128.wrapped 1) (U128.wrapped 1) 100.

(** Sector 12 is lost, sector 13 times out. *)
#[local] Instance verifier : VerifierOps state := {|
  v_ServiceAccountBalance h a := λ '(m, l), (ServiceAccountBalance (C:=U128.ops) h a m, (m, l));
  v_DebitServiceAccount h a c := λ '(m, (d, n)), let '(x, m') := DebitServiceAccount (C:=U128.ops) h a c m in (x, (m', ((d + Big c)%Z, n)));
  v_ResetAccountBalance h a := λ '(m, (d, n)), let '(x, m') := ResetAccountBalance (C:=U128.ops) h a m in (x, (m', (d, n + 1)));
  v_Prices _ := λ s, (Ok prices, s);
  v_ReadSector _ r _ _ := λ s, (if (r =? 12)%N then Err (ESentinel "not found")
                                else if (r =? 13)%N then Err (EMsg "timeout") else Ok tt, s);
  v_TrackInflightRead _ := mret tt;
  v_release _ := mret tt;
  v_ctx_Err := mret None;
  frand_Uint64n n := λ s, (if (0 <? n)%Z then Ok 0%Z else Panic, s) |}.

#[local] Instance history : AccountHistory verifier.
Proof.
  refine {| debited s := s.2.1; resets s := s.2.2 |}; try done.
  - intros h a c [m [d n]]. simpl. destruct (DebitServiceAccount (C:=U128.ops) h a c m). simpl. split; [lia|done].
  - intros h a [m [d n]]. simpl. destruct (ResetAccountBalance (C:=U128.ops) h a m). simpl. split; [done|lia].
  - intros h a [m l]. done.
  - intros n s v s'. simpl. destruct (Z.ltb_spec 0 n); intros [= <- _]. lia.
Defined.

Definition start : state := ({[ 7%N := {[ 1%N := U128.wrapped 200 ]} ]}, (0%Z, 0)).

(** Three reads of 64 bytes cost 192 of the 200. *)
Definition after : state := (VerifySectors 7 1 [11; 12; 13; 14]%N start).2.

Example verified_three :
  VerifySectors 7 1 [11; 12; 13; 14]%N start =
    (Ok ([SectorSuccess; SectorLost; SectorFailed], Some (ESentinel errInsufficientServiceAccountBalance)), after).
Proof. vm_compute. reflexivity. Qed.

Example verify_sectors_spec_witness : (debited after ≤ 0 + 200)%Z.
Proof.
  refine (proj1 (proj2 (proj2 (proj2 (verify_sectors_spec 7 1 [11; 12; 13; 14]%N start start after (U128.wrapped 200) _ _ eq_refl verified_three))))).
Defined.

(** A store that counts, and one that refuses to mark another sector than 12 lost. *)
#[local] Instance deps : IntegrityDeps state := {|
  hm_Usable _ := mret true; cm_TriggerAccountRefill _ _ := mret tt; id_time_Now := mret 1000%Z |}.
Definition store (mark : list Hash256 → M state unit) : IntegrityStore state := {|
  is_SectorsForIntegrityCheck _ _ := mret [11; 12; 13; 14]%N;
  is_MarkSectorsLost _ := mark;
  is_RecordIntegrityCheck _ _ _ _ := mret tt;
  is_MarkFailingSectorsLost _ _ := mret tt;
  is_HostsForIntegrityChecks _ _ := mret [];
  is_HostsWithLostSectors := mret [] |}.
Definition lax : IntegrityStore state := store (λ _, mret tt).
Definition strict : IntegrityStore state := store (λ l, if bool_decide (l ⊆ [12]%N) then mret tt else panic).
Definition cfg : IntegritySettings := mkIntegrity 1000 100 5.

Example integrity_records_answers_witness :
  performIntegrityChecksForHost (ST:=lax) 7 1 cfg 5 start = performIntegrityChecksForHost (ST:=strict) 7 1 cfg 5 start.
Proof.
  apply (integrity_records_answers 7 1 cfg lax strict 5 start). split; try done.
  intros roots s H. simpl. rewrite bool_decide_eq_true_2; [done|]. intros r Hr.
  destruct (H r Hr) as (off & s1 & x & s2 & Hx & _ & Hc & _). simpl in Hx. destruct (N.eqb_spec r 12) as [->|]; [left|].
  exfalso. destruct (r =? 13)%N; injection Hx as <- _; vm_compute in Hc; discriminate.
Defined.

Definition checked : batch_outcome := Checked [SectorSuccess; SectorLost; SectorFailed] true.
Example checked_three : check_batch 7 1 4 [11; 12; 13; 14]%N [] start = (Ok checked, after).
Proof. vm_compute. reflexivity. Qed.

Example integrity_records_once_witness :
  checked ≠ OutOfFuel.
Proof. exact (proj1 (integrity_records_once 7 1 [11; 12; 13; 14]%N start after checked checked_three)). Defined.
End IntegrityWitness.
