(* ===== verification/Sharing.v ===== *)
(** * Sharing keys (src/sharing/sharing.go, src/sharing/manager.go)

    Keys that give read access to some objects of an account: the requests that
    create a key and attach an object to it, what their signatures cover, and the
    manager that checks them in front of the store. *)

From S2P Require Import Prelude Encoding External Stream Objects Accounts.
From Stdlib Require Import Ascii.

Definition NonceSize : nat := 32.
Definition EncryptionKeySize : nat := 72.
Definition MaxDescriptionSize : nat := 1024.

Definition ErrSharingKeyNotFound : string := "sharing key not found".
Definition ErrSharingKeyExists : string := "sharing key already exists".
Definition ErrSharedObjectNotFound : string := "shared object not found".
Definition ErrSharedObjectConflict : string := "shared object conflicts with existing attachment".
Definition ErrInvalidRequest : string := "invalid request".

(** ** Data *)

(** [Nonce]: an array of [NonceSize] bytes. *)
Abbreviation Nonce := (list byte) (only parsing).
Definition is_nonce (n : list byte) : Prop := length n = NonceSize.

Record Key := mkKey {
  Key_Account : PublicKey; Key_PublicKey : PublicKey; Key_Nonce : Nonce; Key_Description : string;
  ObjectCount : Z; ObjectSize : Z; PinnedData : Z; PinnedSize : Z;
  Key_ExpiresAt : option Z; Key_CreatedAt : Z; Key_UpdatedAt : Z }.

Record KeyStats := mkKeyStats {
  KS_ObjectCount : Z; KS_ObjectSize : Z; KS_PinnedData : Z; KS_PinnedSize : Z;
  KS_ExpiresAt : option Z; KS_CreatedAt : Z; KS_UpdatedAt : Z }.

Definition Key_Stats (k : Key) : KeyStats :=
  mkKeyStats (ObjectCount k) (ObjectSize k) (PinnedData k) (PinnedSize k) (Key_ExpiresAt k) (Key_CreatedAt k) (Key_UpdatedAt k).

Record KeyRequest := mkKeyRequest {
  KR_PublicKey : PublicKey; KR_Signature : N; KR_Nonce : Nonce; KR_Description : string; KR_ExpiresAt : option Z }.

Record SharedObjectRequest := mkSharedRequest {
  SR_ObjectID : Hash256; SR_EncryptedDataKey : list byte; SR_DataSignature : N;
  SR_EncryptedMetadataKey : list byte; SR_EncryptedMetadata : list byte; SR_MetadataSignature : N }.

(** ** Nonces as text

    [encoding/hex] of the standard library. *)

Definition hex_digit (n : nat) : byte := ascii_of_nat (if Nat.ltb n 10 then 48 + n else 87 + n).
Definition hex_value (c : byte) : option nat :=
  let n := nat_of_ascii c in
  if Nat.leb 48 n && Nat.leb n 57 then Some (n - 48)
  else if Nat.leb 97 n && Nat.leb n 102 then Some (n - 87)
  else if Nat.leb 65 n && Nat.leb n 70 then Some (n - 55)
  else None.

Definition hex_encode_byte (c : byte) : list byte :=
  let n := nat_of_ascii c in [hex_digit (Nat.div n 16); hex_digit (Nat.modulo n 16)].
Definition hex_EncodeToString (b : list byte) : list byte := concat (hex_encode_byte <$> b).

(** [hex.Decode] into a buffer of the right size. *)
Fixpoint hex_Decode (b : list byte) : result (list byte) :=
  match b with
  | h :: l :: b =>
      match hex_value h, hex_value l with
      | Some h, Some l => rest ← hex_Decode b; mret (ascii_of_nat (h * 16 + l) :: rest)
      | _, _ => Err (EMsg "encoding/hex: invalid byte: %#U")
      end
  | [_] => Err (EMsg "encoding/hex: odd length hex string")
  | [] => Ok []
  end.

Definition Nonce_MarshalText (n : Nonce) : list byte := hex_EncodeToString n.
Definition Nonce_UnmarshalText (b : list byte) : result Nonce :=
  if negb (Nat.eqb (length b) (2 * NonceSize))
  then Err (EMsg "invalid nonce: expected %d hex characters, got %d")
  else hex_Decode b.

Lemma hex_byte_back c :
  ∃ h l, hex_value (hex_digit (Nat.div (nat_of_ascii c) 16)) = Some h ∧
    hex_value (hex_digit (Nat.modulo (nat_of_ascii c) 16)) = Some l ∧ ascii_of_nat (h * 16 + l) = c.
Proof. destruct c as [[] [] [] [] [] [] [] []]; eexists _, _; split_and!; reflexivity. Qed.

Lemma hex_Decode_cons h l b hv lv : hex_value h = Some hv → hex_value l = Some lv →
  hex_Decode (h :: l :: b) = (rest ← hex_Decode b; mret (ascii_of_nat (hv * 16 + lv) :: rest)).
Proof. cbn [hex_Decode]. by intros -> ->. Qed.

Lemma hex_Decode_encode b : hex_Decode (hex_EncodeToString b) = Ok b.
Proof.
  induction b as [|c b IH]; [done|]. destruct (hex_byte_back c) as (h & l & Hh & Hl & Hc).
  change (hex_EncodeToString (c :: b)) with (hex_encode_byte c ++ hex_EncodeToString b). unfold hex_encode_byte.
  cbn [app]. by rewrite (hex_Decode_cons _ _ _ _ _ Hh Hl), IH, Hc.
Qed.

(** A nonce read back from its text is the nonce; a text of another length is an
    error, and so is one that is not made of hexadecimal digits. *)
Theorem nonce_text_roundtrip (n : Nonce) (b : list byte) :
  (is_nonce n → Nonce_UnmarshalText (Nonce_MarshalText n) = Ok n) ∧
  (∀ m, Nonce_UnmarshalText b = Ok m →
     length b = 2 * NonceSize ∧ is_nonce m ∧ ∀ c, c ∈ b → is_Some (hex_value c)).
Proof.
  split.
  - intros Hn. unfold Nonce_UnmarshalText, Nonce_MarshalText.
    assert (length (hex_EncodeToString n) = 2 * NonceSize) as ->; [|by rewrite Nat.eqb_refl; apply hex_Decode_encode].
    rewrite <-Hn. unfold hex_EncodeToString. clear. induction n as [|c n IH]; csimpl; [done|]. rewrite IH. lia.
  - intros m H. unfold Nonce_UnmarshalText in H. destruct (Nat.eqb_spec (length b) (2 * NonceSize)) as [Hl|]; [|done].
    split; [done|]. simpl negb in H. cbv iota in H. unfold is_nonce. revert m Hl H. generalize NonceSize. clear. intros k.
    revert b. induction k as [|k IH]; intros b m Hl H.
    + destruct b; [|done]. injection H as <-. split; [done|]. by intros c ?%elem_of_nil.
    + destruct b as [|h [|l b]]; simpl in Hl; [lia|lia|]. 
      destruct (hex_value h) as [hv|] eqn:Eh; [|by cbn [hex_Decode] in H; rewrite Eh in H].
      destruct (hex_value l) as [lv|] eqn:El; [|by cbn [hex_Decode] in H; rewrite Eh, El in H].
      rewrite (hex_Decode_cons _ _ _ _ _ Eh El) in H.
      apply bind_ok in H as (rest & Hrest & [= <-]). destruct (IH b rest) as [Hr Hall]; [lia|done|]. split; [simpl; lia|].
      intros c [->|[->|Hc]%elem_of_cons]%elem_of_cons; eauto.
Qed.

(** ** Signatures *)

Section signatures.
Context {E : EncoderOps} {O : StreamOps} {G : SigOps}.

Definition KeyRequest_preimage (r : KeyRequest) : list byte :=
  WriteString "indexd/sharing-key/create/v1" ++
  WriteHash (KR_PublicKey r) ++
  Write (KR_Nonce r) ++
  WriteString (KR_Description r) ++
  WriteBool (match KR_ExpiresAt r with Some _ => true | None => false end) ++
  match KR_ExpiresAt r with Some t => WriteTime t | None => [] end.

Definition KR_SigHash (r : KeyRequest) : Hash256 := Sum (KeyRequest_preimage r).

Definition KR_Sign (r : KeyRequest) (privateKey : PrivateKey) : KeyRequest :=
  let r := mkKeyRequest (PublicKeyOf privateKey) (KR_Signature r) (KR_Nonce r) (KR_Description r) (KR_ExpiresAt r) in
  mkKeyRequest (KR_PublicKey r) (SignHash privateKey (KR_SigHash r)) (KR_Nonce r) (KR_Description r) (KR_ExpiresAt r).

Definition invalid (text : string) : error := EWrap "" (ESentinel ErrInvalidRequest) text.

Definition KR_VerifySignature (r : KeyRequest) : option error :=
  if negb (VerifyHash (KR_PublicKey r) (KR_SigHash r) (KR_Signature r)) then Some (invalid ": invalid signature") else None.

Definition SR_dataSigHash (r : SharedObjectRequest) : Hash256 := data_sig_hash (SR_ObjectID r) (SR_EncryptedDataKey r).
Definition SR_metaSigHash (r : SharedObjectRequest) : Hash256 :=
  meta_sig_hash (SR_ObjectID r) (SR_EncryptedMetadataKey r) (SR_EncryptedMetadata r).

Definition SR_Sign (r : SharedObjectRequest) (sharingKey : PrivateKey) : SharedObjectRequest :=
  mkSharedRequest (SR_ObjectID r) (SR_EncryptedDataKey r) (SignHash sharingKey (SR_dataSigHash r))
    (SR_EncryptedMetadataKey r) (SR_EncryptedMetadata r) (SignHash sharingKey (SR_metaSigHash r)).

Definition SR_VerifySignatures (r : SharedObjectRequest) (sharingKey : PublicKey) : option error :=
  if negb (VerifyHash sharingKey (SR_dataSigHash r) (SR_DataSignature r)) then Some (invalid ": invalid data signature")
  else if negb (VerifyHash sharingKey (SR_metaSigHash r) (SR_MetadataSignature r)) then Some (invalid ": invalid metadata signature")
  else None.

(** The requests whose fields have the width of their Go types. *)
Definition key_request_ok (r : KeyRequest) : Prop :=
  is_hash (KR_PublicKey r) ∧ is_nonce (KR_Nonce r) ∧ (Z.of_nat (String.length (KR_Description r)) < two63)%Z ∧
  match KR_ExpiresAt r with Some t => is_i64 (Unix t) | None => True end.

Context {EL : EncoderLaws E} {SL : StreamLaws O}.

(** A signature on the creation of a sharing key covers the key, the nonce, the
    description and the expiration, to the second: two requests with the same hash
    agree on them, or the hash function collides. And it can not be passed off as
    a signature on a pre-authorized key request. *)
Theorem sharing_sig_hash_binds (a b : KeyRequest) (p : PreAuthorizedKeyRequest) :
  key_request_ok a → key_request_ok b →
  (KR_SigHash a = KR_SigHash b →
     (KR_PublicKey a = KR_PublicKey b ∧ KR_Nonce a = KR_Nonce b ∧ KR_Description a = KR_Description b ∧
      Unix <$> KR_ExpiresAt a = Unix <$> KR_ExpiresAt b) ∨ collides (KeyRequest_preimage a) (KeyRequest_preimage b)) ∧
  (KR_SigHash a = PreAuth_SigHash p → collides (KeyRequest_preimage a) (PreAuth_preimage p)).
Proof.
  intros (Ha1 & Ha2 & Ha3 & Ha4) (Hb1 & Hb2 & Hb3 & Hb4). split.
  - intros [H|H]%Sum_inj; [|by right]. left. unfold KeyRequest_preimage in H. rewrite !Write_id in H.
    apply app_inv_head in H. apply WriteHash_dec in H as [H1 H]; [|done..].
    apply app_inj_1 in H as [H2 H]; [|unfold is_nonce in *; congruence].
    apply WriteString_dec in H as [H3 H]; [|done..]. apply WriteBool_dec in H as [H4 H]; [|done..].
    split_and!; try done. destruct (KR_ExpiresAt a), (KR_ExpiresAt b); try done. simpl. f_equal.
    rewrite <-(app_nil_r (WriteTime _)), <-(app_nil_r (WriteTime z0)) in H. by apply WriteTime_dec in H as [? _].
  - intros [H|H]%Sum_inj; [|done]. exfalso. unfold KeyRequest_preimage, PreAuth_preimage in H.
    apply WriteString_dec in H as [H _]; [done|reflexivity..].
Qed.
End signatures.

(** ** The manager *)

Class SharingStore (S : Type) := {
  store_AddSharingKey : PublicKey → KeyRequest → M S Key;
  store_SharingKey : PublicKey → M S Key;
  store_SharingKeys : PublicKey → Z → Z → M S (list Key);
  store_DeleteSharingKey : PublicKey → PublicKey → M S unit;
  store_AddSharedObject : PublicKey → PublicKey → SharedObjectRequest → M S unit;
  store_DeleteSharedObject : PublicKey → PublicKey → Hash256 → M S unit;
  store_PruneExpiredSharingKeys : Z → M S unit;
  store_SharedObjects : PublicKey → Z → Z → M S (list SealedObject);
  store_SharingKeyObject : PublicKey → Hash256 → M S SealedObject }.

Section manager.
Local Open Scope go_scope.
Context {E : EncoderOps} {O : StreamOps} {G : SigOps} {S : Type} {ST : SharingStore S}.
Variable time_Now : M S Z.

Definition KR_validate (r : KeyRequest) : M S (option error) :=
  if (KR_PublicKey r =? 0)%N then mret (Some (invalid ": public key is required"))
  else if bool_decide (KR_Nonce r = replicate NonceSize Ascii.zero) then mret (Some (invalid ": nonce is required"))
  else
    let* expired := (match KR_ExpiresAt r with
                     | None => mret false
                     | Some t => let* now := time_Now in mret (t <? now)%Z
                     end) in
    if expired : bool then mret (Some (invalid ": expires at must be in the future"))
    else if Nat.ltb MaxDescriptionSize (String.length (KR_Description r)) then mret (Some (invalid ": description exceeds %d bytes"))
    else mret None.

Definition SR_validate (r : SharedObjectRequest) : option error :=
  if (SR_ObjectID r =? 0)%N then Some (invalid ": object ID is required")
  else if negb (Nat.eqb (length (SR_EncryptedDataKey r)) EncryptionKeySize) then Some (invalid ": encrypted data key must be %d bytes")
  else if negb (Nat.eqb (length (SR_EncryptedMetadataKey r)) 0) && negb (Nat.eqb (length (SR_EncryptedMetadataKey r)) EncryptionKeySize)
  then Some (invalid ": encrypted metadata key must be %d bytes")
  else if (Z.of_nat (length (SR_EncryptedMetadata r)) >? MaxMetadataSize)%Z then Some (invalid ": encrypted metadata exceeds %d bytes")
  else None.

Definition AddSharingKey (account : PublicKey) (req : KeyRequest) : M S Key :=
  let* bad := KR_validate req in
  match bad with
  | Some err => throw err
  | None =>
      match KR_VerifySignature req with
      | Some err => throw err
      | None => store_AddSharingKey account req
      end
  end.

Definition SharingKey (publicKey : PublicKey) : M S Key := store_SharingKey publicKey.

Definition OwnedSharingKey (account publicKey : PublicKey) : M S Key :=
  let* key := SharingKey publicKey in
  if negb (Key_Account key =? account)%N then throw (ESentinel ErrSharingKeyNotFound) else mret key.

Definition SharingKeys (account : PublicKey) (offset limit : Z) : M S (list Key) := store_SharingKeys account offset limit.
Definition DeleteSharingKey (account publicKey : PublicKey) : M S unit := store_DeleteSharingKey account publicKey.

Definition AddSharedObject (account sharingKey : PublicKey) (req : SharedObjectRequest) : M S unit :=
  match SR_validate req with
  | Some err => throw err
  | None =>
      match SR_VerifySignatures req sharingKey with
      | Some err => throw err
      | None => store_AddSharedObject account sharingKey req
      end
  end.

Definition DeleteSharedObject (account sharingKey : PublicKey) (objectKey : Hash256) : M S unit :=
  store_DeleteSharedObject account sharingKey objectKey.

Definition OwnedSharedObjects (account sharingKey : PublicKey) (offset limit : Z) : M S (list SealedObject) :=
  let* _ := OwnedSharingKey account sharingKey in store_SharedObjects sharingKey offset limit.

Definition SharedObjects (sharingKey : PublicKey) (offset limit : Z) : M S (list SealedObject) :=
  store_SharedObjects sharingKey offset limit.
Definition manager_SharedObject (sharingKey : PublicKey) (objectKey : Hash256) : M S SealedObject :=
  store_SharingKeyObject sharingKey objectKey.

(** A tick of [maintenanceLoop]; the error is logged. *)
Definition prune_expired : M S unit :=
  let* now := time_Now in
  let* _ := try (store_PruneExpiredSharingKeys now) in mret tt.

(** *** What reaches the store *)

Variable clock : S → Z.
Hypothesis clock_reads : ∀ s, time_Now s = (Ok (clock s), s).

(** What a request for a key has to satisfy at the time [now]. *)
Definition key_request_valid (now : Z) (r : KeyRequest) : Prop :=
  KR_PublicKey r ≠ 0%N ∧ KR_Nonce r ≠ replicate NonceSize Ascii.zero ∧
  (∀ t, KR_ExpiresAt r = Some t → (now ≤ t)%Z) ∧ String.length (KR_Description r) ≤ MaxDescriptionSize.

Definition shared_request_valid (r : SharedObjectRequest) : Prop :=
  SR_ObjectID r ≠ 0%N ∧ length (SR_EncryptedDataKey r) = EncryptionKeySize ∧
  (length (SR_EncryptedMetadataKey r) = 0 ∨ length (SR_EncryptedMetadataKey r) = EncryptionKeySize) ∧
  (Z.of_nat (length (SR_EncryptedMetadata r)) ≤ MaxMetadataSize)%Z.

Lemma invalid_Is text : errors_Is (invalid text) ErrInvalidRequest = true.
Proof. reflexivity. Qed.

Lemma KR_validate_spec r s :
  ∃ bad, KR_validate r s = (Ok bad, s) ∧ (bad = None ↔ key_request_valid (clock s) r) ∧
    ∀ e, bad = Some e → errors_Is e ErrInvalidRequest = true.
Proof.
  unfold KR_validate, key_request_valid. destruct (N.eqb_spec (KR_PublicKey r) 0) as [H1|H1].
  { eexists. split; [done|]. split; [split; [done|tauto]|by intros e [= <-]]. }
  case_bool_decide as H2.
  { eexists. split; [done|]. split; [split; [done|tauto]|by intros e [= <-]]. }
  assert (∃ expired, match KR_ExpiresAt r with
                     | None => mret false
                     | Some t => let* now := time_Now in mret (t <? now)%Z
                     end s = (Ok expired, s) ∧ (expired = false ↔ ∀ t, KR_ExpiresAt r = Some t → (clock s ≤ t)%Z)) as (x & Hx & Hxs).
  { destruct (KR_ExpiresAt r) as [t|]; [|by exists false].
    exists (t <? clock s)%Z. split; [unfold bindM, mbind, M_bind; by rewrite clock_reads|].
    rewrite Z.ltb_ge. split; [by intros ? ? [= <-]|auto]. }
  unfold bindM at 1, mbind, M_bind. rewrite Hx. destruct x.
  { eexists. split; [done|]. split; [split; [done|intros (_ & _ & H & _); by apply Hxs in H]|by intros e [= <-]]. }
  destruct (Nat.ltb_spec MaxDescriptionSize (String.length (KR_Description r))) as [H4|H4].
  { eexists. split; [done|]. split; [split; [done|intros (_ & _ & _ & H); lia]|by intros e [= <-]]. }
  eexists. split; [done|]. split; [split; [|done]|done]. intros _. split_and!; [done|done|by apply Hxs|done].
Qed.

Lemma SR_validate_spec r :
  (SR_validate r = None ↔ shared_request_valid r) ∧ ∀ e, SR_validate r = Some e → errors_Is e ErrInvalidRequest = true.
Proof.
  unfold SR_validate, shared_request_valid. destruct (N.eqb_spec (SR_ObjectID r) 0) as [H1|H1].
  { split; [split; [done|tauto]|by intros e [= <-]]. }
  destruct (Nat.eqb_spec (length (SR_EncryptedDataKey r)) EncryptionKeySize) as [H2|H2]; cbn [negb].
  2: { split; [split; [done|tauto]|by intros e [= <-]]. }
  destruct (Nat.eqb_spec (length (SR_EncryptedMetadataKey r)) 0) as [H3|H3], (Nat.eqb_spec (length (SR_EncryptedMetadataKey r)) EncryptionKeySize) as [H4|H4]; cbn [negb andb];
    (destruct (Z.gtb_spec (Z.of_nat (length (SR_EncryptedMetadata r))) MaxMetadataSize) as [H5|H5] || idtac);
    (split; [split; [try done|]|by intros e [= <-]]); try (intros (_ & _ & ? & ?); lia || tauto); by auto.
Qed.

(** A sharing key is created exactly when the request names a key and a nonce,
    does not expire in the past, has a description of at most 1024 bytes and is
    signed by the key itself; an object is attached exactly when its identity and
    sealed keys have the right form and the sharing key signed them. Everything else
    is an invalid request, and the store is not called. *)
Theorem sharing_requests_checked (account sharingKey : PublicKey) (req : KeyRequest) (obj : SharedObjectRequest) (s : S) :
  (key_request_valid (clock s) req ∧ VerifyHash (KR_PublicKey req) (KR_SigHash req) (KR_Signature req) = true →
     AddSharingKey account req s = store_AddSharingKey account req s) ∧
  (¬ (key_request_valid (clock s) req ∧ VerifyHash (KR_PublicKey req) (KR_SigHash req) (KR_Signature req) = true) →
     ∃ e, AddSharingKey account req s = (Err e, s) ∧ errors_Is e ErrInvalidRequest = true) ∧
  (shared_request_valid obj ∧ SR_VerifySignatures obj sharingKey = None →
     AddSharedObject account sharingKey obj s = store_AddSharedObject account sharingKey obj s) ∧
  (¬ (shared_request_valid obj ∧ SR_VerifySignatures obj sharingKey = None) →
     ∃ e, AddSharedObject account sharingKey obj s = (Err e, s) ∧ errors_Is e ErrInvalidRequest = true).
Proof.
  destruct (KR_validate_spec req s) as (bad & Hb & Hiff & He). destruct (SR_validate_spec obj) as [Hoiff Hoe].
  unfold AddSharingKey, AddSharedObject, bindM, mbind, M_bind, KR_VerifySignature. rewrite Hb. cbv beta iota. split_and!.
  - intros [Hv Hs]. apply Hiff in Hv as ->. by rewrite Hs.
  - intros Hn. destruct bad as [e|]; [eauto|].
    destruct (VerifyHash _ _ _); [exfalso; apply Hn; split; [by apply Hiff|done]|]. simpl. eauto.
  - intros [Hv Hs]. apply Hoiff in Hv as ->. by rewrite Hs.
  - intros Hn. destruct (SR_validate obj) as [e|]; [eauto|].
    destruct (SR_VerifySignatures obj sharingKey) as [e|] eqn:Es; [|exfalso; apply Hn; split; [by apply Hoiff|done]].
    eexists. split; [done|]. unfold SR_VerifySignatures in Es.
    destruct (negb _); [injection Es as <-; apply invalid_Is|]. destruct (negb _); [injection Es as <-; apply invalid_Is|done].
Qed.

(** An account only sees its own keys and the objects attached to them: for the
    key of another account, as for no key, the call fails and the objects are not
    listed. *)
Theorem owned_keys_only (account publicKey : PublicKey) (offset limit : Z) (s s1 : S) (r : result Key) :
  store_SharingKey publicKey s = (r, s1) →
  match r with
  | Ok key =>
      if (Key_Account key =? account)%N
      then OwnedSharingKey account publicKey s = (Ok key, s1) ∧
           OwnedSharedObjects account publicKey offset limit s = store_SharedObjects publicKey offset limit s1
      else OwnedSharingKey account publicKey s = (Err (ESentinel ErrSharingKeyNotFound), s1) ∧
           OwnedSharedObjects account publicKey offset limit s = (Err (ESentinel ErrSharingKeyNotFound), s1)
  | Err e => OwnedSharingKey account publicKey s = (Err e, s1) ∧ OwnedSharedObjects account publicKey offset limit s = (Err e, s1)
  | Panic => OwnedSharedObjects account publicKey offset limit s = (Panic, s1)
  end.
Proof.
  intros H. unfold OwnedSharedObjects, OwnedSharingKey, SharingKey, bindM, mbind, M_bind. rewrite H.
  destruct r as [key|e|]; [|done..]. by destruct (Key_Account key =? account)%N.
Qed.
End manager.

(** ** Concrete instances *)

Module SharingWitness.
#[local] Existing Instances SiaEncoding.ops SiaEncoding.laws SiaStream.ops SiaStream.laws TestSig.ops TestSig.laws.

Definition nonce : Nonce := replicate 32 "z"%char.
Definition sk : @PrivateKey TestSig.ops := 7%N.
Definition req : KeyRequest := KR_Sign (mkKeyRequest 0 0 nonce "holiday" (Some 5000%Z)) sk.
Definition obj : SharedObjectRequest := SR_Sign (mkSharedRequest 9 (replicate 72 "k"%char) 0 [] [] 0) sk.

Definition the_key : Key := mkKey 1 7 nonce "holiday" 0 0 0 0 None 0 0.
(** A store with one key of account 1 that counts what is added. *)
#[local] Instance store : SharingStore nat := {|
  store_AddSharingKey _ _ := λ s, (Ok the_key, Datatypes.S s);
  store_SharingKey pk := λ s, (if (pk =? 7)%N then Ok the_key else Err (ESentinel ErrSharingKeyNotFound), s);
  store_SharingKeys _ _ _ := λ s, (Ok [the_key], s);
  store_DeleteSharingKey _ _ := λ s, (Ok tt, s);
  store_AddSharedObject _ _ _ := λ s, (Ok tt, Datatypes.S s);
  store_DeleteSharedObject _ _ _ := λ s, (Ok tt, s);
  store_PruneExpiredSharingKeys _ := λ s, (Ok tt, s);
  store_SharedObjects _ _ _ := λ s, (Ok [], s);
  store_SharingKeyObject _ _ := λ s, (Err (ESentinel ErrSharedObjectNotFound), s) |}.

Example nonce_text_roundtrip_witness : Nonce_UnmarshalText (Nonce_MarshalText nonce) = Ok nonce.
Proof. apply (proj1 (nonce_text_roundtrip nonce [])). reflexivity. Defined.

Example sharing_sig_hash_binds_witness :
  (KR_PublicKey req = KR_PublicKey req ∧ KR_Nonce req = KR_Nonce req ∧ KR_Description req = KR_Description req ∧
   Unix <$> KR_ExpiresAt req = Unix <$> KR_ExpiresAt req) ∨ collides (KeyRequest_preimage req) (KeyRequest_preimage req).
Proof.
  refine (proj1 (sharing_sig_hash_binds req req (mkPreAuth 7 1 "key" 0 3 None) _ _) eq_refl);
    (split_and!; [vm_compute; reflexivity|reflexivity|vm_compute; reflexivity|vm_compute; split; congruence]).
Defined.

Example sharing_requests_checked_witness :
  AddSharingKey (λ s, (Ok 1000%Z, s)) 1 req 0 = (Ok the_key, 1) ∧ AddSharedObject 1 7 obj 0 = (Ok tt, 1).
Proof.
  destruct (sharing_requests_checked (λ s, (Ok 1000%Z, s)) (λ _ : nat, 1000%Z) (λ _, eq_refl) 1 7 req obj 0) as (H1 & _ & H2 & _).
  split; [apply H1|apply H2].
  - split; [|vm_compute; reflexivity]. split_and!; [done|by vm_compute|intros t [= <-]; lia|vm_compute; lia].
  - split; [|vm_compute; reflexivity]. split_and!; [done|done|by left|vm_compute; congruence].
Defined.

Example owned_keys_only_witness : OwnedSharingKey 2 7 0 = (Err (ESentinel ErrSharingKeyNotFound), 0).
Proof. exact (proj1 (owned_keys_only 2 7 0 10 0 0 (Ok the_key) eq_refl)). Defined.
End SharingWitness.
