(* ===== verification/App.v ===== *)
(** * The application API (src/api/app/app.go, src/api/app/shared.go,
    src/hosts/options.go, src/accounts/account.go)

    The handlers behind signed URLs: each parses its request, calls the managers for
    the account that signed and turns the outcome into a response. The wrappers
    authenticate; [signed_handlers] and [shared_handlers] are the routes. *)

From S2P Require Import Prelude Float Net Text Encoding External Stream Hosts Slabs Objects HostQueue Accounts Sharing Api.

(** ** Data *)

Record AppMeta := mkMeta { Meta_ID : Hash256; Meta_Name : string; Meta_Description : string; Meta_LogoURL : string; Meta_ServiceURL : string }.

(** [accounts.Account] *)
Record Account := mkAccount {
  Acc_Key : PublicKey; Acc_ConnectKey : string; Acc_MaxPinnedData : Z; Acc_QuotaMaxPinnedData : Z; Acc_ConnectKeyPinnedData : Z;
  Acc_Ready : bool; Acc_PinnedData : Z; Acc_PinnedSize : Z; Acc_App : AppMeta; Acc_LastUsed : Z }.

Record AccountResponse := mkAccountResponse {
  AR_AccountKey : PublicKey; AR_MaxPinnedData : Z; AR_RemainingStorage : Z; AR_Ready : bool; AR_PinnedData : Z; AR_PinnedSize : Z;
  AR_App : AppMeta; AR_LastUsed : Z }.

Record UsableHostsQueryOpts := mkQueryOpts { CountryCode : option string; QueryProtocol : option string; QueryLocation : option (float64 * float64) }.

(** The options of a query for hosts ([strings.ToUpper] of ASCII text). *)
Definition upper (c : Ascii.ascii) : Ascii.ascii :=
  let n := Ascii.nat_of_ascii c in if Nat.leb 97 n && Nat.leb n 122 then Ascii.ascii_of_nat (n - 32) else c.
Definition ToUpper (s : string) : string := string_of (upper <$> bytes_of s).
Definition WithCountry (countryCode : string) (o : UsableHostsQueryOpts) : UsableHostsQueryOpts :=
  mkQueryOpts (Some (ToUpper countryCode)) (QueryProtocol o) (QueryLocation o).
Definition WithProtocol (protocol : string) (o : UsableHostsQueryOpts) : UsableHostsQueryOpts :=
  mkQueryOpts (CountryCode o) (Some protocol) (QueryLocation o).
Definition SortByDistance (lat lng : float64) (o : UsableHostsQueryOpts) : UsableHostsQueryOpts :=
  mkQueryOpts (CountryCode o) (QueryProtocol o) (Some (lat, lng)).

(** Errors of the stores that the handlers tell apart. *)
Definition ErrObjectNotFound : string := "object not found".
Definition ErrObjectUnpinnedSlab : string := "object contains unpinned slab".
Definition ErrObjectBlocked : string := "object is unavailable for legal reasons".
Definition ErrSlabInUse : string := "slab is in use by an object".
Definition ErrBadHosts : string := "slab has too many sectors on bad hosts".
Definition ErrMinShards : string := "slab has invalid number of minimum shards".
Definition ErrInternalError : error := ESentinel "internal error".
Definition ErrUnknownAccount : error := ESentinel "unknown account".

(** The names of the transport protocols of coreutils, and its account tokens. *)
Class TransportOps := {
  siamux_Protocol : string;
  quic_Protocol : string;
  AccountToken : Type;
  NewAccountToken : N → PublicKey → AccountToken }.

Inductive Body {T : TransportOps} :=
  | BNil
  | BHosts (l : list HostInfo)
  | BObject (o : SealedObject)
  | BShared (o : SharedObject)
  | BEvents (l : list ObjectEvent)
  | BObjects (l : list SealedObject)
  | BKey (k : Key)
  | BKeys (l : list Key)
  | BStats (s : KeyStats)
  | BSharedHosts (l : list (HostInfo * AccountToken))
  | BSlabIDs (l : list SlabID)
  | BSlab (s : PinnedSlab)
  | BAccount (a : AccountResponse).

(** [jc.Decode] of the request bodies: JSON, in jape. *)
Class DecodeOps := {
  Decode_PinObjectRequest : bytes → error + PinObjectRequest;
  Decode_KeyRequest : bytes → error + KeyRequest;
  Decode_SharedObjectRequest : bytes → error + SharedObjectRequest;
  Decode_SlabPinParams : bytes → error + list SlabPinParams;
  (** [fmt.Sscanf(s, "(%f,%f)")] *)
  scan_location : string → option (float64 * float64) }.

(** The managers behind the API ([Slabs], [Sharing], [Hosts] and [Accounts] of app.go). *)
Class Backend (S : Type) := {
  b_PinSlabs : PublicKey → Z → list SlabPinParams → M S (list SlabID);
  b_PruneSlabs : PublicKey → Z → M S unit;
  b_PinnedSlab : PublicKey → SlabID → M S PinnedSlab;
  b_SlabIDs : PublicKey → Z → Z → M S (list SlabID);
  b_UnpinSlab : PublicKey → SlabID → M S unit;
  b_Object : PublicKey → Hash256 → M S SealedObject;
  b_DeleteObject : PublicKey → Hash256 → M S unit;
  b_PinObject : PublicKey → PinObjectRequest → M S unit;
  b_ListObjects : PublicKey → Cursor → Z → M S (list ObjectEvent);
  b_SharedObject : Hash256 → M S SharedObject;
  b_AddSharingKey : PublicKey → KeyRequest → M S Key;
  b_DeleteSharingKey : PublicKey → PublicKey → M S unit;
  b_SharingKeys : PublicKey → Z → Z → M S (list Key);
  b_SharingKey : PublicKey → M S Key;
  b_OwnedSharingKey : PublicKey → PublicKey → M S Key;
  b_AddSharedObject : PublicKey → PublicKey → SharedObjectRequest → M S unit;
  b_DeleteSharedObject : PublicKey → PublicKey → Hash256 → M S unit;
  b_OwnedSharedObjects : PublicKey → PublicKey → Z → Z → M S (list SealedObject);
  b_SharedObjects : PublicKey → Z → Z → M S (list SealedObject);
  b_SharingKeyObject : PublicKey → Hash256 → M S SealedObject;
  b_AccountTokens : ∀ {T : TransportOps}, PublicKey → list PublicKey → M S (list AccountToken);
  b_UsableHosts : Z → Z → UsableHostsQueryOpts → M S (list HostInfo);
  b_HasAccount : PublicKey → M S bool;
  b_Account : PublicKey → M S Account }.

(** ** Handlers *)

(** [remainingStorage] *)
Definition remainingStorage (a : Account) : Z :=
  let appRemaining := u64 (Acc_MaxPinnedData a - Z.min (Acc_PinnedData a) (Acc_MaxPinnedData a)) in
  let quotaRemaining := u64 (Acc_QuotaMaxPinnedData a - Z.min (Acc_ConnectKeyPinnedData a) (Acc_QuotaMaxPinnedData a)) in
  Z.min appRemaining quotaRemaining.

(** The status of an error, from the first row of a table that lists one of the
    sentinels it wraps. *)
Fixpoint status_of (table : list (list string * Z)) (e : error) : HttpError :=
  match table with
  | [] => (StatusInternalServerError, e)
  | (sentinels, status) :: table => if existsb (errors_Is e) sentinels then (status, e) else status_of table e
  end.

(** [jc.Check(msg, err)] *)
Definition check (msg : string) (e : error) : HttpError := (StatusInternalServerError, EWrap (msg +:+ ": ") e "").

(** The status of the table, or else [jc.Check]. *)
Fixpoint status_or_check (table : list (list string * Z)) (msg : string) (e : error) : HttpError :=
  match table with
  | [] => check msg e
  | (sentinels, status) :: table => if existsb (errors_Is e) sentinels then (status, e) else status_or_check table msg e
  end.

Section handlers.
Local Open Scope go_scope.
Context {S : Type} {J : JapeOps} {D : DecodeOps} {T : TransportOps} {E : EncoderOps} {O : StreamOps}.
Variable time_Now : M S Z.

(** Go on with what was parsed, or with the error response. *)
Definition parsed {A} (c : checked A) (k : A → M S (Response Body)) : M S (Response Body) :=
  match c with inl (status, e) => mret (RError status e) | inr a => k a end.

(** Call a manager; answer its error with a status, or go on with its value. *)
Definition answer {A} (m : M S A) (status : error → HttpError) (k : A → M S (Response Body)) : M S (Response Body) :=
  let* r := try m in
  match r with
  | Ok a => k a
  | Err e => mret (RError (status e).1 (status e).2)
  | Panic => panic
  end.

(** [decodeRequest]; jape has then written a response of its own. *)
Definition decodeRequest {A} (decode : bytes → error + A) (r : Request) : checked A :=
  match decode (rq_Body r) with
  | inr a => inr a
  | inl e => if errors_Is e MaxBytesError then inl (StatusRequestEntityTooLarge, EMsg "request body too large")
             else inl (StatusInternalServerError, EMsg "failed to read request body")
  end.

Section backend.
Context {B : Backend S}.

Definition usable_query (r : Request) : checked (Z * Z * UsableHostsQueryOpts) :=
  checked_bind (ParseOffsetLimit r) (λ '(offset, limit),
    checked_bind (of_jape (DecodeForm_string r "protocol" "")) (λ protocol,
      if negb (String.eqb protocol "") && negb (String.eqb protocol siamux_Protocol) && negb (String.eqb protocol quic_Protocol)
      then inl (StatusBadRequest, EMsg "invalid protocol %q")
      else
        let opts := mkQueryOpts None None None in
        let opts := if negb (String.eqb protocol "") then WithProtocol protocol opts else opts in
        checked_bind (of_jape (DecodeForm_string r "country" "")) (λ countryCode,
          let opts := if negb (String.eqb countryCode "") then WithCountry countryCode opts else opts in
          checked_bind (of_jape (DecodeForm_string r "location" "")) (λ locationStr,
            if negb (String.eqb locationStr "") then
              match scan_location locationStr with
              | None => inl (StatusBadRequest, EMsg "invalid location %q, must be of the form (lat,lng)")
              | Some (lat, lng) => inr (offset, limit, SortByDistance lat lng opts)
              end
            else inr (offset, limit, opts))))).

(** [usableHosts], in continuation style: the hosts or the error response. *)
Definition usableHosts (r : Request) (k : list HostInfo → M S (Response Body)) : M S (Response Body) :=
  parsed (usable_query r) (λ '(offset, limit, opts), answer (b_UsableHosts offset limit opts) (check "failed to get hosts") k).

Definition handleGETHosts (r : Request) (pk : PublicKey) : M S (Response Body) :=
  usableHosts r (λ h, mret (REncode (BHosts h))).

Definition object_errors : list (list string * Z) :=
  [([ErrObjectNotFound], StatusNotFound); ([ErrObjectBlocked], StatusUnavailableForLegalReasons)].

Definition handleGETObject (r : Request) (pk : PublicKey) : M S (Response Body) :=
  parsed (of_jape (DecodeParam_Hash r "key")) (λ key,
    answer (b_Object pk key) (status_of object_errors) (λ obj, mret (REncode (BObject obj)))).

Definition handleGETObjectShared (r : Request) (pk : PublicKey) : M S (Response Body) :=
  parsed (of_jape (DecodeParam_Hash r "key")) (λ key,
    answer (b_SharedObject key) (status_of object_errors) (λ obj, mret (REncode (BShared obj)))).

Definition handleGETObjects (r : Request) (pk : PublicKey) : M S (Response Body) :=
  parsed (ParseOffsetLimit r) (λ '(_, limit),
    parsed (of_jape (DecodeForm_Hash r "key" 0%N)) (λ key,
      parsed (of_jape (DecodeForm_Time r "after" 0%Z)) (λ after,
        answer (b_ListObjects pk (mkCursor after key) limit) (status_of []) (λ objs, mret (REncode (BEvents objs)))))).

Definition handlePOSTObjects (r : Request) (pk : PublicKey) : M S (Response Body) :=
  parsed (decodeRequest Decode_PinObjectRequest r) (λ obj,
    answer (b_PinObject pk obj)
      (status_of [([ErrObjectMetadataLimitExceeded; ErrObjectMinimumSlabs; ErrObjectUnpinnedSlab; ErrInvalidObjectSignature], StatusBadRequest);
                  ([ErrObjectBlocked], StatusUnavailableForLegalReasons)])
      (λ _, mret (REncode BNil))).

Definition handleDELETEObjects (r : Request) (pk : PublicKey) : M S (Response Body) :=
  parsed (of_jape (DecodeParam_Hash r "key")) (λ key,
    answer (b_DeleteObject pk key) (status_of [([ErrObjectNotFound], StatusNotFound)]) (λ _, mret (REncode BNil))).

Definition handlePOSTSharing (r : Request) (pk : PublicKey) : M S (Response Body) :=
  parsed (decodeRequest Decode_KeyRequest r) (λ req,
    answer (b_AddSharingKey pk req)
      (status_of [([ErrInvalidRequest], StatusBadRequest); ([ErrSharingKeyExists], StatusConflict)]) (λ key, mret (REncode (BKey key)))).

Definition handleGETSharing (r : Request) (pk : PublicKey) : M S (Response Body) :=
  parsed (ParseOffsetLimit r) (λ '(offset, limit),
    answer (b_SharingKeys pk offset limit) (check "failed to list sharing keys") (λ keys, mret (REncode (BKeys keys)))).

Definition handleGETSharingKey (r : Request) (pk : PublicKey) : M S (Response Body) :=
  parsed (of_jape (DecodeParam_Hash r "key")) (λ key,
    answer (b_OwnedSharingKey pk key) (status_of [([ErrSharingKeyNotFound], StatusNotFound)]) (λ sk, mret (REncode (BKey sk)))).

Definition handleDELETESharing (r : Request) (pk : PublicKey) : M S (Response Body) :=
  parsed (of_jape (DecodeParam_Hash r "key")) (λ key,
    answer (b_DeleteSharingKey pk key) (status_of [([ErrSharingKeyNotFound], StatusNotFound)]) (λ _, mret (REncode BNil))).

Definition handlePOSTSharingObject (r : Request) (pk : PublicKey) : M S (Response Body) :=
  parsed (of_jape (DecodeParam_Hash r "key")) (λ key,
    parsed (decodeRequest Decode_SharedObjectRequest r) (λ req,
      answer (b_AddSharedObject pk key req)
        (status_of [([ErrInvalidRequest], StatusBadRequest); ([ErrSharedObjectConflict], StatusConflict);
                    ([ErrSharingKeyNotFound; ErrObjectNotFound], StatusNotFound); ([ErrObjectBlocked], StatusUnavailableForLegalReasons)])
        (λ _, mret (REncode BNil)))).

Definition handleGETSharingObjects (r : Request) (pk : PublicKey) : M S (Response Body) :=
  parsed (of_jape (DecodeParam_Hash r "key")) (λ key,
    parsed (ParseOffsetLimit r) (λ '(offset, limit),
      answer (b_OwnedSharedObjects pk key offset limit) (status_of [([ErrSharingKeyNotFound], StatusNotFound)])
        (λ objects, mret (REncode (BObjects objects))))).

Definition handleDELETESharingObject (r : Request) (pk : PublicKey) : M S (Response Body) :=
  parsed (of_jape (DecodeParam_Hash r "key")) (λ key,
    parsed (of_jape (DecodeParam_Hash r "objectkey")) (λ objectKey,
      answer (b_DeleteSharedObject pk key objectKey) (status_of [([ErrSharedObjectNotFound], StatusNotFound)]) (λ _, mret (REncode BNil)))).

Definition handlePOSTSlabs (r : Request) (pk : PublicKey) : M S (Response Body) :=
  parsed (decodeRequest Decode_SlabPinParams r) (λ params,
    let* now := time_Now in
    answer (b_PinSlabs pk (now + 6 * Hour) params)
      (status_or_check [([ErrInvalidPinParams; ErrBadHosts; ErrMinShards], StatusBadRequest)] "failed to pin slab")
      (λ slabIDs, if Nat.eqb (length slabIDs) 0 then mret (RError StatusInternalServerError (EMsg "PinSlabs did not return any slab IDs"))
                  else mret (REncode (BSlabIDs slabIDs)))).

Definition handlePOSTSlabsPrune (r : Request) (pk : PublicKey) : M S (Response Body) :=
  let* now := time_Now in
  let cutoff := (now - DefaultSlabPruneCutoff)%Z in
  parsed (if negb (String.eqb (Query_Get (rq_Query r) "before") "") then of_jape (DecodeForm_Time r "before" cutoff) else inr cutoff)
    (λ cutoff, answer (b_PruneSlabs pk cutoff) (check "failed to prune slabs") (λ _, mret (REncode BNil))).

Definition encodeBinary (slab : PinnedSlab) : Response Body := RBinary (PinnedSlab_EncodeTo slab).

Definition handleGETSlab (r : Request) (pk : PublicKey) : M S (Response Body) :=
  parsed (of_jape (DecodeParam_Hash r "slabid")) (λ slabID,
    answer (b_PinnedSlab pk slabID)
      (λ e, if errors_Is e ErrSlabNotFound then (StatusNotFound, ESentinel ErrSlabNotFound) else check "failed to get slab" e)
      (λ slab, mret (if String.eqb (rq_Accept r) "application/octet-stream" then encodeBinary slab else REncode (BSlab slab)))).

Definition handleGETSlabs (r : Request) (pk : PublicKey) : M S (Response Body) :=
  parsed (ParseOffsetLimit r) (λ '(offset, limit),
    answer (b_SlabIDs pk offset limit) (check "failed to fetch slab digests") (λ slabIDs, mret (REncode (BSlabIDs slabIDs)))).

Definition handleDELETESlab (r : Request) (pk : PublicKey) : M S (Response Body) :=
  parsed (of_jape (DecodeParam_Hash r "slabid")) (λ slabID,
    answer (b_UnpinSlab pk slabID)
      (λ e, if errors_Is e ErrSlabNotFound then (StatusNotFound, EMsg "slab %s not found")
            else if errors_Is e ErrSlabInUse then (StatusConflict, EWrap "slab %s: " (ESentinel ErrSlabInUse) "")
            else check "failed to unpin slab" e)
      (λ _, mret (REncode BNil))).

Definition handleGETAuthCheck (r : Request) (pk : PublicKey) : M S (Response Body) := mret (REncode BNil).

Definition handleGETAccount (r : Request) (pk : PublicKey) : M S (Response Body) :=
  answer (b_Account pk) (status_of [([Accounts.ErrNotFound], StatusNotFound)]) (λ account,
    mret (REncode (BAccount (mkAccountResponse (Acc_Key account) (Z.min (Acc_MaxPinnedData account) (Acc_QuotaMaxPinnedData account))
      (remainingStorage account) (Acc_Ready account) (Acc_PinnedData account) (Acc_PinnedSize account) (Acc_App account) (Acc_LastUsed account))))).

(** *** Shared keys (shared.go) *)

Definition handleGETShared (r : Request) (key : Key) : M S (Response Body) := mret (REncode (BStats (Key_Stats key))).

Definition handleGETSharedObjects (r : Request) (key : Key) : M S (Response Body) :=
  parsed (ParseOffsetLimit r) (λ '(offset, limit),
    answer (b_SharedObjects (Key_PublicKey key) offset limit)
      (status_or_check [([ErrSharingKeyNotFound], StatusUnauthorized)] "failed to list shared objects") (λ objects, mret (REncode (BObjects objects)))).

Definition handleGETSharedObject (r : Request) (key : Key) : M S (Response Body) :=
  parsed (of_jape (DecodeParam_Hash r "id")) (λ objectKey,
    answer (b_SharingKeyObject (Key_PublicKey key) objectKey)
      (status_or_check [([ErrSharingKeyNotFound], StatusUnauthorized); ([ErrSharedObjectNotFound], StatusNotFound);
                        ([ErrObjectBlocked], StatusUnavailableForLegalReasons)] "failed to get shared object")
      (λ obj, mret (REncode (BObject obj)))).

(** [tokens[i]] panics when there are fewer tokens than hosts. *)
Definition handleGETSharedHosts (r : Request) (key : Key) : M S (Response Body) :=
  usableHosts r (λ usable,
    answer (b_AccountTokens (Key_PublicKey key) (HI_PublicKey <$> usable))
      (status_or_check [([ErrSharingKeyNotFound], StatusUnauthorized)] "failed to create account tokens")
      (λ tokens, if Nat.ltb (length tokens) (length usable) then panic else mret (REncode (BSharedHosts (zip usable tokens))))).

(** ** Routes and authentication *)

Definition validateSignedURLAuth {G : SigOps} (hostname : string) (r : Request) : M S (checked PublicKey) :=
  let* c := ValidateURLSignature time_Now r hostname in
  match c with
  | inl e => mret (inl e)
  | inr pk =>
      let* known := try (b_HasAccount pk) in
      match known with
      | Ok true => mret (inr pk)
      | Ok false => mret (inl (StatusUnauthorized, ErrUnknownAccount))
      | Err _ => mret (inl (StatusInternalServerError, ErrInternalError))
      | Panic => panic
      end
  end.

Definition validateSharedURLAuth {G : SigOps} (hostname : string) (r : Request) : M S (checked Key) :=
  let* c := ValidateURLSignature time_Now r hostname in
  match c with
  | inl e => mret (inl e)
  | inr pk =>
      let* key := try (b_SharingKey pk) in
      match key with
      | Ok key => mret (inr key)
      | Err e => if errors_Is e ErrSharingKeyNotFound then mret (inl (StatusUnauthorized, ESentinel ErrSharingKeyNotFound))
                 else mret (inl (StatusInternalServerError, ErrInternalError))
      | Panic => panic
      end
  end.

Definition wrapSignedAuth {G : SigOps} (hostname : string) (h : Request → PublicKey → M S (Response Body)) (r : Request) : M S (Response Body) :=
  let* c := validateSignedURLAuth hostname r in parsed c (h r).
Definition wrapSharedAuth {G : SigOps} (hostname : string) (h : Request → Key → M S (Response Body)) (r : Request) : M S (Response Body) :=
  let* c := validateSharedURLAuth hostname r in parsed c (h r).

(** The routes of [NewAPI] that need an account. *)
Definition signed_handlers : list (string * (Request → PublicKey → M S (Response Body))) :=
  [("GET /account", handleGETAccount); ("GET /auth/check", handleGETAuthCheck); ("GET /hosts", handleGETHosts);
   ("GET /objects", handleGETObjects); ("GET /objects/:key", handleGETObject); ("GET /objects/:key/shared", handleGETObjectShared);
   ("POST /objects", handlePOSTObjects); ("DELETE /objects/:key", handleDELETEObjects);
   ("POST /sharing", handlePOSTSharing); ("GET /sharing", handleGETSharing); ("GET /sharing/:key", handleGETSharingKey);
   ("DELETE /sharing/:key", handleDELETESharing); ("POST /sharing/:key/objects", handlePOSTSharingObject);
   ("GET /sharing/:key/objects", handleGETSharingObjects); ("DELETE /sharing/:key/objects/:objectkey", handleDELETESharingObject);
   ("GET /slabs", handleGETSlabs); ("POST /slabs", handlePOSTSlabs); ("POST /slabs/prune", handlePOSTSlabsPrune);
   ("GET /slabs/:slabid", handleGETSlab); ("DELETE /slabs/:slabid", handleDELETESlab)]%string.

(** Those that need a sharing key. *)
Definition shared_handlers : list (string * (Request → Key → M S (Response Body))) :=
  [("GET /shared", handleGETShared); ("GET /shared/objects", handleGETSharedObjects);
   ("GET /shared/objects/:id", handleGETSharedObject); ("GET /shared/hosts", handleGETSharedHosts)]%string.
End backend.
End handlers.

(** ** The managers behind the API

    [SlabManager], [sharing.Manager], [HostManager] and [AccountManager], over their
    stores. *)
Class AppStore (S : Type) := {
  store_SharingAccountKey : PublicKey → M S N;
  store_UsableHosts : Z → Z → UsableHostsQueryOpts → M S (list HostInfo);
  store_HasAccount : PublicKey → M S bool;
  store_Account : PublicKey → M S Account }.

Section managers.
Local Open Scope go_scope.
Context {S : Type} {E : EncoderOps} {O : StreamOps} {G : SigOps}.
Context {SS : @SlabStore S} {OS : @ObjectStore S} {SH : SharingStore S} {AS : AppStore S}.
Variable time_Now : M S Z.

Definition AccountTokens {T : TransportOps} (sharingKey : PublicKey) (hostKeys : list PublicKey) : M S (list AccountToken) :=
  let* key := store_SharingAccountKey sharingKey in mret (NewAccountToken key <$> hostKeys).

Definition managers : Backend S := {|
  b_PinSlabs := PinSlabs time_Now;
  b_PruneSlabs := PruneSlabs;
  b_PinnedSlab := GetPinnedSlab;
  b_SlabIDs := SlabIDs;
  b_UnpinSlab := UnpinSlab;
  b_Object := GetObject;
  b_DeleteObject := DeleteObject;
  b_PinObject := PinObject;
  b_ListObjects := ListObjects;
  b_SharedObject := GetSharedObject;
  b_AddSharingKey := AddSharingKey time_Now;
  b_DeleteSharingKey := DeleteSharingKey;
  b_SharingKeys := SharingKeys;
  b_SharingKey := SharingKey;
  b_OwnedSharingKey := OwnedSharingKey;
  b_AddSharedObject := AddSharedObject;
  b_DeleteSharedObject := DeleteSharedObject;
  b_OwnedSharedObjects := OwnedSharedObjects;
  b_SharedObjects := SharedObjects;
  b_SharingKeyObject := manager_SharedObject;
  b_AccountTokens := @AccountTokens;
  b_UsableHosts := store_UsableHosts;
  b_HasAccount := store_HasAccount;
  b_Account := store_Account |}.
End managers.

(** ** What a request can reach *)

Definition page_ok (offset limit : Z) : Prop := (0 ≤ offset ∧ 1 ≤ limit ≤ 500)%Z.

(** Two backends give the same runs of the calls for the accounts in [P] and the
    sharing keys in [Q], with pages within the limits. *)
Record agree_on {S : Type} (P Q : PublicKey → Prop) (A B : Backend S) : Prop := {
  ag_PinSlabs : ∀ pk t l, P pk → b_PinSlabs (Backend:=A) pk t l = b_PinSlabs (Backend:=B) pk t l;
  ag_PruneSlabs : ∀ pk t, P pk → b_PruneSlabs (Backend:=A) pk t = b_PruneSlabs (Backend:=B) pk t;
  ag_PinnedSlab : ∀ pk id, P pk → b_PinnedSlab (Backend:=A) pk id = b_PinnedSlab (Backend:=B) pk id;
  ag_SlabIDs : ∀ pk o l, P pk → page_ok o l → b_SlabIDs (Backend:=A) pk o l = b_SlabIDs (Backend:=B) pk o l;
  ag_UnpinSlab : ∀ pk id, P pk → b_UnpinSlab (Backend:=A) pk id = b_UnpinSlab (Backend:=B) pk id;
  ag_Object : ∀ pk k, P pk → b_Object (Backend:=A) pk k = b_Object (Backend:=B) pk k;
  ag_DeleteObject : ∀ pk k, P pk → b_DeleteObject (Backend:=A) pk k = b_DeleteObject (Backend:=B) pk k;
  ag_PinObject : ∀ pk o, P pk → b_PinObject (Backend:=A) pk o = b_PinObject (Backend:=B) pk o;
  ag_ListObjects : ∀ pk c l, P pk → (1 ≤ l ≤ 500)%Z → b_ListObjects (Backend:=A) pk c l = b_ListObjects (Backend:=B) pk c l;
  ag_AddSharingKey : ∀ pk q, P pk → b_AddSharingKey (Backend:=A) pk q = b_AddSharingKey (Backend:=B) pk q;
  ag_DeleteSharingKey : ∀ pk k, P pk → b_DeleteSharingKey (Backend:=A) pk k = b_DeleteSharingKey (Backend:=B) pk k;
  ag_SharingKeys : ∀ pk o l, P pk → page_ok o l → b_SharingKeys (Backend:=A) pk o l = b_SharingKeys (Backend:=B) pk o l;
  ag_SharingKey : ∀ pk, P pk → b_SharingKey (Backend:=A) pk = b_SharingKey (Backend:=B) pk;
  ag_OwnedSharingKey : ∀ pk k, P pk → b_OwnedSharingKey (Backend:=A) pk k = b_OwnedSharingKey (Backend:=B) pk k;
  ag_AddSharedObject : ∀ pk k q, P pk → b_AddSharedObject (Backend:=A) pk k q = b_AddSharedObject (Backend:=B) pk k q;
  ag_DeleteSharedObject : ∀ pk k o, P pk → b_DeleteSharedObject (Backend:=A) pk k o = b_DeleteSharedObject (Backend:=B) pk k o;
  ag_OwnedSharedObjects : ∀ pk k o l, P pk → page_ok o l →
    b_OwnedSharedObjects (Backend:=A) pk k o l = b_OwnedSharedObjects (Backend:=B) pk k o l;
  ag_SharedObjects : ∀ k o l, Q k → page_ok o l → b_SharedObjects (Backend:=A) k o l = b_SharedObjects (Backend:=B) k o l;
  ag_SharingKeyObject : ∀ k o, Q k → b_SharingKeyObject (Backend:=A) k o = b_SharingKeyObject (Backend:=B) k o;
  ag_AccountTokens : ∀ T k l, Q k → b_AccountTokens (Backend:=A) (T:=T) k l = b_AccountTokens (Backend:=B) (T:=T) k l;
  ag_HasAccount : ∀ pk, P pk → b_HasAccount (Backend:=A) pk = b_HasAccount (Backend:=B) pk;
  ag_Account : ∀ pk, P pk → b_Account (Backend:=A) pk = b_Account (Backend:=B) pk }.

(** The calls that are not for an account: the object of a share link, on one route only
    and only for the key in its path, and the list of hosts, on two. *)
Definition public_calls {S : Type} {J : JapeOps} (route : string) (r : Request) (A B : Backend S) : Prop :=
  (route = "GET /objects/:key/shared"%string → ∀ k, of_jape (DecodeParam_Hash r "key") = inr k →
    b_SharedObject (Backend:=A) k = b_SharedObject (Backend:=B) k) ∧
  (route = "GET /hosts"%string ∨ route = "GET /shared/hosts"%string → ∀ o l q, page_ok o l →
    b_UsableHosts (Backend:=A) o l q = b_UsableHosts (Backend:=B) o l q).

Section reach.
Context {S : Type} {J : JapeOps} {D : DecodeOps} {T : TransportOps} {E : EncoderOps} {O : StreamOps} {G : SigOps}.
Variable time_Now : M S Z.

Lemma parsed_ext {A} (c : checked A) (k k' : A → M S (Response Body)) s :
  (∀ a, c = inr a → k a s = k' a s) → parsed c k s = parsed c k' s.
Proof. destruct c as [[status e]|a]; simpl; auto. Qed.

Lemma answer_ext {A} (m m' : M S A) status (k k' : A → M S (Response Body)) s :
  m = m' → (∀ a s1, k a s1 = k' a s1) → answer m status k s = answer m' status k' s.
Proof. intros -> Hk. unfold answer. apply bindM_ext; [done|]. intros [a|e|] s1; auto. Qed.

Lemma usable_query_page r offset limit opts : usable_query r = inr (offset, limit, opts) → page_ok offset limit.
Proof.
  unfold usable_query. destruct (ParseOffsetLimit r) as [|[o l]] eqn:Hp; [done|]. apply ParseOffsetLimit_bounds in Hp.
  unfold checked_bind. destruct (of_jape (DecodeForm_string r "protocol" "")) as [|p]; [done|]. destruct (_ && _); [done|].
  destruct (of_jape (DecodeForm_string r "country" "")) as [|c]; [done|].
  destruct (of_jape (DecodeForm_string r "location" "")) as [|loc]; [done|].
  destruct (negb _); [destruct (scan_location loc) as [[lat lng]|]; [|done]|]; by intros [= <- <- _].
Qed.

(** One layer of a handler: what it parses, or the call it makes. *)
Ltac handler_step :=
  match goal with
  | |- parsed _ _ _ = parsed _ _ _ =>
      let a := fresh "a" in let Ha := fresh "Ha" in
      apply parsed_ext; intros a Ha; repeat case_match; subst;
      try apply ParseOffsetLimit_bounds in Ha; try apply usable_query_page in Ha; try pose proof (proj2 Ha)
  | |- answer _ _ _ _ = answer _ _ _ _ => apply answer_ext; [solve [eauto]|intros]
  | |- bindM _ _ _ = bindM _ _ _ => apply bindM_ext; [reflexivity|intros]
  | |- _ => reflexivity
  end.

Lemma handlers_agree (P Q : PublicKey → Prop) (A B : Backend S) (r : Request) :
  agree_on P Q A B →
  Forall2 (λ x y, x.1 = y.1 ∧ (public_calls x.1 r A B → ∀ pk s, P pk → x.2 r pk s = y.2 r pk s))
    (signed_handlers time_Now (B:=A)) (signed_handlers time_Now (B:=B)) ∧
  Forall2 (λ x y, x.1 = y.1 ∧ (public_calls x.1 r A B → ∀ key s, Q (Key_PublicKey key) → x.2 r key s = y.2 r key s))
    (shared_handlers (B:=A)) (shared_handlers (B:=B)).
Proof.
  intros []. split; repeat (constructor; [split; [reflexivity|intros [Hso Huh] key s HP]|]); try constructor; cbn [fst snd] in *;
    try specialize (Hso eq_refl); try specialize (Huh (or_introl eq_refl)); try specialize (Huh (or_intror eq_refl));
    match goal with |- ?l = _ => let h := get_head l in unfold h end; try unfold usableHosts; repeat handler_step.
Qed.

(** The request is signed by [pk], and the signature holds when the clock is read in
    the state [s]. *)
Definition signer (hostname : string) (r : Request) (s : S) (pk : PublicKey) : Prop :=
  ∃ now s', time_Now s = (Ok now, s') ∧ url_ok r hostname now pk.

(** The public key of the sharing key that the signer of the request looks up. *)
Definition sharer (A : Backend S) (hostname : string) (r : Request) (s : S) (k : PublicKey) : Prop :=
  ∃ pk s1 s2 key, signer hostname r s pk ∧ b_SharingKey (Backend:=A) pk s1 = (Ok key, s2) ∧ Key_PublicKey key = k.

(** C26. What a request can reach: the accounts and sharing keys whose owner signed it, for this host, with a signature that has not expired, and pages within the limits. Besides these, two things are public to every signer: on the route of shared objects, the object of the key in the path, whose account may be any; and on the two routes of hosts, the pages of the list of usable hosts. On each authenticated route, two backends that give the same answers to such calls give the same response to the request and the same state: no other route depends on an object that is neither of the signer's account nor shared with the signer's sharing key. *)
Theorem requests_reach_own_data (A B : Backend S) (hostname : string) (r : Request) (s : S) :
  agree_on (signer hostname r s) (sharer A hostname r s) A B →
  Forall2 (λ x y, x.1 = y.1 ∧ (public_calls x.1 r A B →
      wrapSignedAuth time_Now (B:=A) hostname x.2 r s = wrapSignedAuth time_Now (B:=B) hostname y.2 r s))
    (signed_handlers time_Now (B:=A)) (signed_handlers time_Now (B:=B)) ∧
  Forall2 (λ x y, x.1 = y.1 ∧ (public_calls x.1 r A B →
      wrapSharedAuth time_Now (B:=A) hostname x.2 r s = wrapSharedAuth time_Now (B:=B) hostname y.2 r s))
    (shared_handlers (B:=A)) (shared_handlers (B:=B)).
Proof.
  intros Hag. destruct (handlers_agree _ _ A B r Hag) as [H1 H2].
  assert (∀ pk s1, ValidateURLSignature time_Now r hostname s = (Ok (inr pk), s1) → signer hostname r s pk) as Hsig.
  { intros pk s1 (now & Hn & Hok)%ValidateURLSignature_accepts. by exists now, s1. }
  split; [eapply Forall2_impl; [exact H1|]|eapply Forall2_impl; [exact H2|]]; intros x y [Hxy Hh]; (split; [done|]); intros Hpub; specialize (Hh Hpub).
  - unfold wrapSignedAuth, validateSignedURLAuth. rewrite !bindM_assoc. apply bindM_ext_ok; [done|].
    intros [e|pk] s1 Hv; [done|]. rewrite !bindM_assoc. apply Hsig in Hv.
    apply bindM_ext; [by rewrite (ag_HasAccount _ _ _ _ Hag)|]. intros [[]|e|] s2; try done. by apply Hh.
  - unfold wrapSharedAuth, validateSharedURLAuth. rewrite !bindM_assoc. apply bindM_ext_ok; [done|].
    intros [e|pk] s1 Hv; [done|]. rewrite !bindM_assoc. apply Hsig in Hv. rewrite <-(ag_SharingKey _ _ _ _ Hag) by done.
    apply bindM_ext_ok; [done|]. intros [key|e|] s2 Hk; [|by destruct (errors_Is _ _)|done].
    apply Hh. unfold try in Hk. destruct (b_SharingKey pk s1) as [[k|e|] s3] eqn:Eb; try done. injection Hk as -> ->.
    exists pk, s1, s2, key. done.
Qed.

(** The space that is left is what both the limit of the app and the quota leave,
    never more than either, zero from there on, and the subtractions never wrap. *)
Theorem remaining_storage_spec (a : Account) :
  is_u64 (Acc_MaxPinnedData a) → is_u64 (Acc_QuotaMaxPinnedData a) → (0 ≤ Acc_PinnedData a)%Z → (0 ≤ Acc_ConnectKeyPinnedData a)%Z →
  remainingStorage a =
    Z.max 0 (Z.min (Acc_MaxPinnedData a - Acc_PinnedData a) (Acc_QuotaMaxPinnedData a - Acc_ConnectKeyPinnedData a)).
Proof.
  unfold is_u64. intros H1 H2 H3 H4. unfold remainingStorage. rewrite !u64_id by (unfold is_u64; lia). lia.
Qed.
End reach.

(** ** From the client to the store *)

Section stored.
Context {S : Type} {J : JapeOps} {D : DecodeOps} {T : TransportOps} {E : EncoderOps} {O : StreamOps} {G : SigOps}.
Context {EL : EncoderLaws E} {SL : StreamLaws O} {GL : SigLaws G}.
Context {SS : @SlabStore S} {OS : @ObjectStore S} {SH : SharingStore S} {AS : AppStore S}.
Variable time_Now : M S Z.

(** An object that its owner signs is stored. *)
Lemma signed_upload_stored (appKey : PrivateKey) (so : SealedObject) (validUntil : Z) (u : URL)
    (params : list (string * string)) (accept : string) (body : bytes) (s s1 s2 : S) (now : Z) :
  is_i64 (validUntil / Second) → is_i64 (Unix validUntil) → (now ≤ to_second validUntil)%Z →
  is_hash (PublicKeyOf appKey) → is_signature (SignHash appKey (requestHash "POST" (u_Host u) (u_Path u) validUntil body)) →
  (Z.of_nat (length body) ≤ maxRequestSize)%Z →
  Query_Has (u_Query u) queryParamCredential = false → Query_Has (u_Query u) queryParamSignature = false →
  Query_Has (u_Query u) queryParamValidUntil = false →
  Decode_PinObjectRequest body = inr (PinRequest (SO_Sign so appKey)) →
  SO_Slabs so ≠ [] → (Z.of_nat (length (SO_EncryptedMetadata so)) ≤ 1024)%Z →
  time_Now s = (Ok now, s1) → store_HasAccount (PublicKeyOf appKey) s1 = (Ok true, s2) →
  let r := received "POST" (sign appKey validUntil "POST" u body) params accept body in
  wrapSignedAuth time_Now (B:=managers time_Now) (u_Host u) (handlePOSTObjects (B:=managers time_Now)) r s =
  match store_PinObject (PublicKeyOf appKey) (PinRequest (SO_Sign so appKey)) s2 with
  | (Ok _, s3) => (Ok (REncode BNil), s3)
  | (Err e, s3) =>
      let status :=
        if existsb (errors_Is e) [ErrObjectMetadataLimitExceeded; ErrObjectMinimumSlabs; ErrObjectUnpinnedSlab; ErrInvalidObjectSignature]
        then StatusBadRequest
        else if errors_Is e ErrObjectBlocked then StatusUnavailableForLegalReasons else StatusInternalServerError in
      (Ok (RError status e), s3)
  | (Panic, s3) => (Panic, s3)
  end.
Proof.
  intros H1 H2 H3 H4 H5 H6 H7 H8 H9 Hdec Hslabs Hmeta Hn Hacc r.
  pose proof (signed_url_accepted time_Now appKey validUntil "POST" u params accept body s s1 now H1 H2 H4 H5 H6 H7 H8 H9 Hn) as [Hv _].
  specialize (Hv H3). fold r in Hv. unfold wrapSignedAuth, validateSignedURLAuth. rewrite bindM_assoc.
  unfold bindM at 1, mbind, M_bind. rewrite Hv. rewrite bindM_assoc. unfold bindM at 1, mbind, M_bind, try.
  cbn [b_HasAccount managers]. rewrite Hacc. unfold handlePOSTObjects, decodeRequest. change (rq_Body r) with body. rewrite Hdec.
  unfold bindM, mbind, M_bind, mret, M_ret, parsed, answer, bindM, mbind, M_bind, try. cbn [b_PinObject managers].
  pose proof (pin_signed_object so appKey s2) as Hpin. cbv zeta in Hpin. rewrite Hpin. clear Hpin.
  rewrite bool_decide_eq_false_2 by done.
  destruct (Z.ltb_spec 1024 (Z.of_nat (length (SO_EncryptedMetadata so)))); [lia|].
  destruct (store_PinObject _ _ s2) as [[[]|e|] s3]; [reflexivity| |reflexivity].
  unfold status_of. destruct (existsb (errors_Is e) _); [done|]. cbn [existsb]. rewrite orb_false_r. by destruct (errors_Is e ErrObjectBlocked).
Qed.

Lemma validateSignedURLAuth_accepts (hostname : string) (r : Request) (s s2 : S) (pk : PublicKey) :
  validateSignedURLAuth time_Now (B:=managers time_Now) hostname r s = (Ok (inr pk), s2) →
  ∃ now s1, time_Now s = (Ok now, s1) ∧ url_ok r hostname now pk ∧ store_HasAccount pk s1 = (Ok true, s2).
Proof.
  unfold validateSignedURLAuth. intros ([e|k] & s1 & Hv & Hr)%bindM_ok; [done|]. apply ValidateURLSignature_accepts in Hv as (now & Hn & Hok).
  unfold bindM, mbind, M_bind, try in Hr. cbn [b_HasAccount managers] in Hr. destruct (store_HasAccount k s1) as [[[]|e|] s3] eqn:Ha; try done.
  injection Hr as <- <-. by exists now, s1.
Qed.

(** What is checked before an upload reaches the store: the URL is signed by [pk] for this
    host and has not expired, and the body is an object with a slab, metadata that fits,
    the ID of its slabs, and two signatures of [pk]. *)
Definition upload_checked (hostname : string) (r : Request) (now : Z) (pk : PublicKey) (req : PinObjectRequest) : Prop :=
  url_ok r hostname now pk ∧ Decode_PinObjectRequest (rq_Body r) = inr req ∧
  PR_Slabs req ≠ [] ∧ (Z.of_nat (length (PR_EncryptedMetadata req)) ≤ 1024)%Z ∧ PR_ID req = pinnedObjectID (PR_Slabs req) ∧
  VerifyHash pk (data_sig_hash (PR_ID req) (PR_EncryptedDataKey req)) (PR_DataSignature req) = true ∧
  VerifyHash pk (meta_sig_hash (PR_ID req) (PR_EncryptedMetadataKey req) (PR_EncryptedMetadata req)) (PR_MetadataSignature req) = true.

(** The handler, once the request is authenticated. *)
Lemma post_objects_checked (r : Request) (pk : PublicKey) (s s' : S) resp :
  handlePOSTObjects (B:=managers time_Now) r pk s = (resp, s') →
  (∃ req res, Decode_PinObjectRequest (rq_Body r) = inr req ∧
    (PR_Slabs req ≠ [] ∧ (Z.of_nat (length (PR_EncryptedMetadata req)) ≤ 1024)%Z ∧ PR_ID req = pinnedObjectID (PR_Slabs req) ∧
     VerifyHash pk (data_sig_hash (PR_ID req) (PR_EncryptedDataKey req)) (PR_DataSignature req) = true ∧
     VerifyHash pk (meta_sig_hash (PR_ID req) (PR_EncryptedMetadataKey req) (PR_EncryptedMetadata req)) (PR_MetadataSignature req) = true) ∧
    store_PinObject pk req s = (res, s') ∧ (resp = Ok (REncode BNil) ↔ res = Ok tt)) ∨
  resp ≠ Ok (REncode BNil) ∧ s' = s.
Proof.
  unfold handlePOSTObjects, decodeRequest. destruct (Decode_PinObjectRequest (rq_Body r)) as [e|req]; cbn [parsed].
  { intros Hr. right. by destruct (errors_Is e _); injection Hr as <- <-. }
  unfold answer, bindM, mbind, M_bind, try. cbn [b_PinObject managers]. destruct (pin_object_checked pk req s) as [[Heq Hok]|[e He]].
  - intros Hr. left. rewrite Heq in Hr. destruct (store_PinObject pk req s) as [[[]|e|] s3] eqn:Es; injection Hr as <- <-; exists req; eexists;
      (do 3 (split; [done|])); by split.
  - rewrite He. intros [= <- <-]. by right.
Qed.

(** C29. An object that its owner signs and uploads with a signed request (one that has not expired, for a URL without signature parameters of its own, with a body within the limit of the server, and with a key, a signature and a time of the width of their types) is stored under the owner's account, exactly as it was signed, provided the account is known and the object has at least one slab and at most 1024 bytes of metadata; the server answers with what the store says. And nothing else is ever stored: whatever the request, either the URL is signed by a known account, the clock is within its validity, the object has a slab, metadata that fits and the ID of its slabs, and both its signatures are of that account, and then the store is called for that account with that object, and success is answered only when the store has it; or the request is refused, and the state is the one that the check of the URL and of the account has left. *)
Theorem signed_object_stored :
  (∀ (appKey : PrivateKey) (so : SealedObject) (validUntil : Z) (u : URL)
    (params : list (string * string)) (accept : string) (body : bytes) (s s1 s2 : S) (now : Z),
  is_i64 (validUntil / Second) → is_i64 (Unix validUntil) → (now ≤ to_second validUntil)%Z →
  is_hash (PublicKeyOf appKey) → is_signature (SignHash appKey (requestHash "POST" (u_Host u) (u_Path u) validUntil body)) →
  (Z.of_nat (length body) ≤ maxRequestSize)%Z →
  Query_Has (u_Query u) queryParamCredential = false → Query_Has (u_Query u) queryParamSignature = false →
  Query_Has (u_Query u) queryParamValidUntil = false →
  Decode_PinObjectRequest body = inr (PinRequest (SO_Sign so appKey)) →
  SO_Slabs so ≠ [] → (Z.of_nat (length (SO_EncryptedMetadata so)) ≤ 1024)%Z →
  time_Now s = (Ok now, s1) → store_HasAccount (PublicKeyOf appKey) s1 = (Ok true, s2) →
  let r := received "POST" (sign appKey validUntil "POST" u body) params accept body in
  wrapSignedAuth time_Now (B:=managers time_Now) (u_Host u) (handlePOSTObjects (B:=managers time_Now)) r s =
  match store_PinObject (PublicKeyOf appKey) (PinRequest (SO_Sign so appKey)) s2 with
  | (Ok _, s3) => (Ok (REncode BNil), s3)
  | (Err e, s3) =>
      let status :=
        if existsb (errors_Is e) [ErrObjectMetadataLimitExceeded; ErrObjectMinimumSlabs; ErrObjectUnpinnedSlab; ErrInvalidObjectSignature]
        then StatusBadRequest
        else if errors_Is e ErrObjectBlocked then StatusUnavailableForLegalReasons else StatusInternalServerError in
      (Ok (RError status e), s3)
  | (Panic, s3) => (Panic, s3)
  end) ∧
  ∀ (hostname : string) (r : Request) (s s' : S) resp,
  wrapSignedAuth time_Now (B:=managers time_Now) hostname (handlePOSTObjects (B:=managers time_Now)) r s = (resp, s') →
  (∃ now s1 pk s2 req res, time_Now s = (Ok now, s1) ∧ store_HasAccount pk s1 = (Ok true, s2) ∧ upload_checked hostname r now pk req ∧
    store_PinObject pk req s2 = (res, s') ∧ (resp = Ok (REncode BNil) ↔ res = Ok tt)) ∨
  resp ≠ Ok (REncode BNil) ∧ s' = (validateSignedURLAuth time_Now (B:=managers time_Now) hostname r s).2.
Proof.
  split; [exact signed_upload_stored|]. intros hostname r s s' resp. unfold wrapSignedAuth. unfold bindM at 1, mbind, M_bind.
  destruct (validateSignedURLAuth time_Now hostname r s) as [[[[status e]|pk]|e|] s2] eqn:Hv; cbn [snd]; try (intros [= <- <-]; by right).
  cbn [parsed]. intros Hr. apply validateSignedURLAuth_accepts in Hv as (now & s1 & Hn & Hurl & Hacc).
  destruct (post_objects_checked r pk s2 s' resp Hr) as [(req & res & Hdec & Hc & Hst & Hres)|]; [left|by right].
  exists now, s1, pk, s2, req, res. by split_and!.
Qed.
End stored.

(** ** Concrete instances *)

Module AppWitness.
#[local] Existing Instances SiaEncoding.ops SiaEncoding.laws SiaStream.ops SiaStream.laws TestSig.ops TestSig.laws.

(** No request has parameters. *)
#[local] Instance jape : JapeOps := {|
  DecodeForm_int _ _ d := inr d; DecodeForm_int64 _ _ d := inr d; DecodeForm_string _ _ d := inr d;
  DecodeForm_Hash _ _ d := inr d; DecodeForm_Time _ _ d := inr d;
  DecodeParam_Hash _ _ := inr 3%N; DecodeParam_string _ _ := inr ""%string |}.
#[local] Instance transports : TransportOps := {|
  siamux_Protocol := "siamux"; quic_Protocol := "quic"; AccountToken := N * N; NewAccountToken := pair |}.

Definition sk : @PrivateKey TestSig.ops := 5%N.
Definition other : @PrivateKey TestSig.ops := 6%N.
Definition slice : SlabSlice := mkSlice 1 9 1 [mkPinnedSector 3 7 (Some 5%Z)] 64 4096.
Definition object : SealedObject := mkSealed [] [slice] 11 [] [] 12 0 0.

#[local] Instance decoders : DecodeOps := {|
  Decode_PinObjectRequest b :=
    if Nat.eqb (length b) 2 then inr (PinRequest (SO_Sign object sk))
    else if Nat.eqb (length b) 3 then inr (PinRequest (SO_Sign object other)) else inl (EMsg "json");
  Decode_KeyRequest _ := inl (EMsg "json"); Decode_SharedObjectRequest _ := inl (EMsg "json");
  Decode_SlabPinParams _ := inr []; scan_location _ := None |}.

(** The state of the store: the accounts that pinned an object. *)
Definition store : Type := list N.
#[local] Instance slab_store : @SlabStore store := {|
  store_PinSlabs _ _ _ := mret []; store_UnpinSlab _ _ := mret tt; store_Slabs _ _ := mret [];
  store_PinnedSlab _ _ := throw (ESentinel ErrSlabNotFound); store_SlabIDs _ _ _ := mret [];
  store_PruneSlabs _ _ := mret tt; store_PruneDeletedSlabs _ := mret 0%Z |}.
#[local] Instance object_store : @ObjectStore store := {|
  store_Object _ _ := throw (ESentinel ErrObjectNotFound); store_DeleteObject _ _ := mret tt;
  store_PinObject account _ := modify (cons account);
  store_ListObjects _ _ _ := mret []; store_SharedObject _ := mret (mkShared []); store_BlockObject _ _ := mret tt;
  store_UnblockObject _ := mret tt; store_BlockedObject _ := throw (EMsg "not blocked"); store_BlockedObjects _ _ := mret [] |}.
#[local] Instance sharing_store : SharingStore store := {|
  store_AddSharingKey _ _ := throw (ESentinel ErrSharingKeyExists); store_SharingKey _ := throw (ESentinel ErrSharingKeyNotFound);
  store_SharingKeys _ _ _ := mret []; store_DeleteSharingKey _ _ := mret tt; store_AddSharedObject _ _ _ := mret tt;
  store_DeleteSharedObject _ _ _ := mret tt; store_PruneExpiredSharingKeys _ := mret tt; store_SharedObjects _ _ _ := mret [];
  store_SharingKeyObject _ _ := throw (ESentinel ErrSharedObjectNotFound) |}.
#[local] Instance app_store : AppStore store := {|
  store_SharingAccountKey _ := mret 0%N; store_UsableHosts _ _ _ := mret []; store_HasAccount pk := mret (pk =? 5)%N;
  store_Account _ := throw (ESentinel Accounts.ErrNotFound) |}.

Definition clock : M store Z := mret 0%Z.
Definition until : Z := (unix_epoch + 1000) * Second.
Definition url : URL := mkURL "indexer" "/objects" [].
Definition request : Request := received "POST" (sign sk until "POST" url (bytes_of "{}")) [] "" (bytes_of "{}").

(** A request with an object that another key signed. *)
Definition forged : Request := received "POST" (sign sk until "POST" url (bytes_of "{ }")) [] "" (bytes_of "{ }").

Definition upload (r : Request) : result (Response Body) * store :=
  wrapSignedAuth clock (B:=managers clock) "indexer" (handlePOSTObjects (B:=managers clock)) r [].
Example signed_object_stored_witness : upload request = (Ok (REncode BNil), [5%N]) ∧ (upload forged).2 = [].
Proof.
  destruct (signed_object_stored clock) as [Hpos Hneg]. split.
  - eapply eq_trans; [refine (Hpos sk object until url [] "" (bytes_of "{}") [] [] [] 0%Z _ _ _ _ _ _ _ _ _ _ _ _ _ _)|]; vm_compute;
      first [reflexivity|intuition congruence].
  - destruct (Hneg "indexer"%string forged [] (upload forged).2 (upload forged).1) as [(now & s1 & pk & s2 & req & res & Hn & Hacc & Hup & _)|[_ Hs]].
    + apply surjective_pairing.
    + exfalso. destruct Hup as (_ & Hdec & _ & _ & _ & Hv & _). vm_compute in Hdec. injection Hdec as <-.
      injection Hn as <- <-. injection Hacc as Hpk _. apply N.eqb_eq in Hpk as ->. vm_compute in Hv. discriminate Hv.
    + rewrite Hs. vm_compute. reflexivity.
Defined.

(** The same managers, but for a call on an object of another account, shared or not. *)
Definition guarded : Backend store :=
  let B := managers clock in {|
  b_PinSlabs := b_PinSlabs (Backend:=B); b_PruneSlabs := b_PruneSlabs (Backend:=B); b_PinnedSlab := b_PinnedSlab (Backend:=B);
  b_SlabIDs := b_SlabIDs (Backend:=B); b_UnpinSlab := b_UnpinSlab (Backend:=B);
  b_Object pk k := if (pk =? 5)%N then b_Object (Backend:=B) pk k else panic;
  b_DeleteObject := b_DeleteObject (Backend:=B); b_PinObject := b_PinObject (Backend:=B); b_ListObjects := b_ListObjects (Backend:=B);
  b_SharedObject _ := panic; b_AddSharingKey := b_AddSharingKey (Backend:=B);
  b_DeleteSharingKey := b_DeleteSharingKey (Backend:=B); b_SharingKeys := b_SharingKeys (Backend:=B);
  b_SharingKey := b_SharingKey (Backend:=B); b_OwnedSharingKey := b_OwnedSharingKey (Backend:=B);
  b_AddSharedObject := b_AddSharedObject (Backend:=B); b_DeleteSharedObject := b_DeleteSharedObject (Backend:=B);
  b_OwnedSharedObjects := b_OwnedSharedObjects (Backend:=B); b_SharedObjects := b_SharedObjects (Backend:=B);
  b_SharingKeyObject := b_SharingKeyObject (Backend:=B); b_AccountTokens T := b_AccountTokens (Backend:=B) (T:=T);
  b_UsableHosts := b_UsableHosts (Backend:=B); b_HasAccount := b_HasAccount (Backend:=B); b_Account := b_Account (Backend:=B) |}.

Lemma request_signer s pk : signer clock "indexer" request s pk → pk = 5%N.
Proof.
  intros (now & s' & _ & _ & _ & _ & ts & sig & _ & Hc & _).
  assert (parseCredential request = Ok 5%N) as H5 by (vm_compute; reflexivity). rewrite H5 in Hc. by injection Hc as <-.
Qed.

Example requests_reach_own_data_witness :
  wrapSignedAuth clock (B:=guarded) "indexer" (handleGETObject (B:=guarded)) request [] =
  wrapSignedAuth clock (B:=managers clock) "indexer" (handleGETObject (B:=managers clock)) request [].
Proof.
  assert (agree_on (signer clock "indexer" request []) (sharer clock guarded "indexer" request []) guarded (managers clock)) as Hag.
  { split; try reflexivity. intros pk k ->%request_signer. reflexivity. }
  pose proof (proj1 (requests_reach_own_data clock guarded (managers clock) "indexer" request [] Hag)) as H.
  apply (Forall2_lookup_lr _ _ _ 4 ("GET /objects/:key"%string, handleGETObject (B:=guarded))
    ("GET /objects/:key"%string, handleGETObject (B:=managers clock))) in H as [_ H]; [|reflexivity..]. cbn [fst snd] in H. apply H. split; [done|]. by intros [|].
Defined.

Definition meta : AppMeta := mkMeta 1 "app" "" "" "".
Definition over_quota : Account := mkAccount 5 "key" 1000 500 400 true 1200 1300 meta 0.

Example remaining_storage_spec_witness : remainingStorage over_quota = 0%Z.
Proof. refine (eq_trans (remaining_storage_spec over_quota _ _ _ _) eq_refl); vm_compute; intuition congruence. Defined.
End AppWitness.
