(* ===== verification/Connect.v ===== *)
(** * Connecting an application (src/api/app/app.go, src/api/app/auth.go,
    src/accounts/connect.go)

    The five steps by which a user lets an application use the indexer: the request,
    signed with an ephemeral key, the page and the approval, the status the
    application polls, and the registration of its key. The handlers share a map of
    pending requests behind a mutex, which is the local state of the computations;
    [handleAuthRegister] calls the store after it has released the mutex, so it is a
    check and a finish, and [connect_step] lets everything else run in between. *)

From S2P Require Import Prelude Net Text Encoding External Stream Accounts Api App.

(** ** Data *)

Record RegisterAppRequest := mkRegister {
  RA_AppID : Hash256; RA_Name : string; RA_Description : string; RA_LogoURL : string; RA_ServiceURL : string; RA_CallbackURL : string;
  RA_PreAuthorizedKey : PublicKey; RA_PreAuthorizationSignature : N }.

(** [authReq] *)
Record AuthReq := mkAuthReq {
  Auth_EphemeralKey : PublicKey; Auth_Request : RegisterAppRequest; Auth_Expiration : Z;
  Auth_Approved : bool; Auth_Reconnecting : bool; Auth_UserSecret : Hash256; Auth_ConnectKey : string }.

Record AppAuthorization := mkAuthorization { AA_ConnectKey : string; AA_UserSecret : Hash256; AA_Reconnecting : bool }.

Record RegisterAppResponse := mkRegisterResponse { ResponseURL : string; StatusURL : string; RegisterURL : string; RR_Expiration : Z }.
Record AuthConnectStatusResponse := mkStatus { St_Approved : bool; St_Reconnecting : bool; St_UserSecret : Hash256 }.
Record RegisterAppKeyRequest := mkKeyReg { RK_AppKey : PublicKey; RK_Signature : N }.

Inductive ConnectBody :=
  | CNil
  | CRegister (r : RegisterAppResponse)
  | CPage (a : AuthReq)                       (* auth.html for the request *)
  | CStatus (s : AuthConnectStatusResponse).

Class ConnectDecode := {
  Decode_RegisterAppRequest : bytes → error + RegisterAppRequest;
  Decode_ApproveAppRequest : bytes → error + bool;
  Decode_RegisterAppKeyRequest : bytes → error + RegisterAppKeyRequest }.

Definition maxNameLen : nat := 128.
Definition maxDescriptionLen : nat := 1024.
Definition maxURLLen : nat := 2048.
Definition ErrUserRejected : error := ESentinel "user rejected connection request".

(** Errors of the accounts package. *)
Definition ErrExists : string := "account already exists".
Definition ErrKeyExhausted : string := "key has no remaining uses".
Definition ErrKeyNotFound : string := "key not found".
Definition ErrPreAuthorizedKeyExpired : string := "pre-authorized key expired".
Definition ErrPreAuthorizedKeyExhausted : string := "pre-authorized key has no remaining uses".
Definition ErrPreAuthorizedKeyAppMismatch : string := "pre-authorized key is not valid for this app".

(** The account manager and the contract manager, as the flow uses them, and the
    random identifier [hex.EncodeToString(frand.Bytes(16))]. *)
Class ConnectDeps (S : Type) := {
  cd_time_Now : M S Z;
  cd_RequestID : M S string;
  cd_ValidAppConnectKey : string → M S unit;
  cd_AuthorizeAppConnectKey : string → Hash256 → M S AppAuthorization;
  cd_AuthorizePreAuthorizedKey : PublicKey → Hash256 → M S AppAuthorization;
  cd_RegisterAppKey : string → PublicKey → AppMeta → M S unit;
  cd_TriggerAccountFunding : M S unit }.

(** ** The authorizations of the account manager (accounts/connect.go) *)

Section authorize.
Local Open Scope go_scope.
Context {S : Type}.
(** [keys.Derive] of the user secret for the application, and the store. *)
Variable derive : Hash256 → Hash256 → Hash256.
Variable store_ConsumePreAuthorizedKey : PublicKey → Hash256 → M S (string * Hash256 * bool).
Variable store_AppAuthorization : string → Hash256 → M S (Hash256 * bool).

Definition authorizeApp (connectKey : string) (userSecret appID : Hash256) (reconnecting : bool) : AppAuthorization :=
  mkAuthorization connectKey (derive userSecret appID) reconnecting.

Definition AuthorizePreAuthorizedKey (publicKey : PublicKey) (appID : Hash256) : M S AppAuthorization :=
  let* r := store_ConsumePreAuthorizedKey publicKey appID in
  let '(connectKey, userSecret, reconnecting) := r in
  mret (authorizeApp connectKey userSecret appID reconnecting).

Definition AuthorizeAppConnectKey (connectKey : string) (appID : Hash256) : M S AppAuthorization :=
  let* r := store_AppAuthorization connectKey appID in
  mret (authorizeApp connectKey r.1 appID r.2).
End authorize.

(** ** The handlers *)

Section connect.
Local Open Scope go_scope.
Context {S : Type} {J : JapeOps} {E : EncoderOps} {O : StreamOps} {G : SigOps} {CD : ConnectDecode} {D : ConnectDeps S}.
Variable hostname advertiseURL : string.

(** The requests that wait, [authRequests]. *)
Abbreviation auths := (gmap string AuthReq) (only parsing).
Abbreviation MA A := (M (S * gmap string AuthReq) A) (only parsing).
Abbreviation Resp := (Response ConnectBody) (only parsing).

Definition preAuthorizationHash (ephemeralKey : PublicKey) (request : RegisterAppRequest) : Hash256 :=
  Sum (WriteString "indexd/preauthorize-app/v1" ++ WriteHash ephemeralKey ++ WriteHash (RA_AppID request) ++
       WriteString (RA_Name request) ++ WriteString (RA_Description request) ++ WriteString (RA_LogoURL request) ++
       WriteString (RA_ServiceURL request) ++ WriteString (RA_CallbackURL request) ++ WriteHash (RA_PreAuthorizedKey request)).

Definition registerAppKeyHash (ephemeralKey : PublicKey) (requestID : string) : Hash256 :=
  Sum (Write (bytes_of "registerAppKey") ++ WriteHash ephemeralKey ++ Write (bytes_of requestID)).

Definition parse {A} (c : checked A) (k : A → MA Resp) : MA Resp :=
  match c with inl (status, e) => mret (RError status e) | inr a => k a end.

Definition decode_body {A} (decode : bytes → error + A) (r : Request) : checked A :=
  match decode (rq_Body r) with
  | inr a => inr a
  | inl e => if errors_Is e MaxBytesError then inl (StatusRequestEntityTooLarge, EMsg "request body too large")
             else inl (StatusInternalServerError, EMsg "failed to read request body")
  end.

(** The switch over the fields of the request. *)
Definition check_register (req : RegisterAppRequest) : option error :=
  if (RA_AppID req =? 0)%N then Some (EMsg "app ID is required")
  else if String.eqb (RA_Name req) "" then Some (EMsg "name is required")
  else if String.eqb (RA_Description req) "" then Some (EMsg "description is required")
  else if String.eqb (RA_ServiceURL req) "" then Some (EMsg "service URL is required")
  else if Nat.ltb maxNameLen (String.length (RA_Name req)) then Some (EMsg "name exceeds maximum length of %d")
  else if Nat.ltb maxDescriptionLen (String.length (RA_Description req)) then Some (EMsg "description exceeds maximum length of %d")
  else if Nat.ltb maxURLLen (String.length (RA_LogoURL req)) then Some (EMsg "logo URL exceeds maximum length of %d")
  else if Nat.ltb maxURLLen (String.length (RA_ServiceURL req)) then Some (EMsg "service URL exceeds maximum length of %d")
  else if Nat.ltb maxURLLen (String.length (RA_CallbackURL req)) then Some (EMsg "callback URL exceeds maximum length of %d")
  else None.

(** The authorization of a request that names a pre-authorized key: the request as
    it will be stored, or the error response. *)
Definition pre_authorize (ephemeralKey : PublicKey) (req : RegisterAppRequest) (authRequest : AuthReq) : M S (checked AuthReq) :=
  let hasPreAuthorizedKey := negb (RA_PreAuthorizedKey req =? 0)%N in
  let hasPreAuthorizationSignature := negb (RA_PreAuthorizationSignature req =? 0)%N in
  if negb (Bool.eqb hasPreAuthorizedKey hasPreAuthorizationSignature) then mret (inl (StatusUnauthorized, EMsg "invalid pre-authorization"))
  else if hasPreAuthorizedKey then
    if negb (VerifyHash (RA_PreAuthorizedKey req) (preAuthorizationHash ephemeralKey req) (RA_PreAuthorizationSignature req))
    then mret (inl (StatusUnauthorized, EMsg "invalid pre-authorization"))
    else
      let* a := try (cd_AuthorizePreAuthorizedKey (RA_PreAuthorizedKey req) (RA_AppID req)) in
      match a with
      | Ok authorization =>
          mret (inr (mkAuthReq (Auth_EphemeralKey authRequest) (Auth_Request authRequest) (Auth_Expiration authRequest)
            true (AA_Reconnecting authorization) (AA_UserSecret authorization) (AA_ConnectKey authorization)))
      | Err e =>
          if existsb (errors_Is e) [ErrKeyNotFound; ErrPreAuthorizedKeyExpired; ErrPreAuthorizedKeyExhausted; ErrPreAuthorizedKeyAppMismatch]
          then mret (inl (StatusUnauthorized, EMsg "invalid pre-authorized key"))
          else mret (inl (StatusInternalServerError, ErrInternalError))
      | Panic => panic
      end
  else mret (inr authRequest).

Definition handleAuthRequest (r : Request) : MA Resp :=
  let* c := lift1 (ValidateURLSignature cd_time_Now r hostname) in
  parse c (λ ephemeralKey,
    parse (decode_body Decode_RegisterAppRequest r) (λ req,
      match check_register req with
      | Some e => mret (RError StatusBadRequest e)
      | None =>
          let* requestID := lift1 cd_RequestID in
          let* now := lift1 cd_time_Now in
          let expiration := (now + 10 * Minute)%Z in
          let* a := lift1 (pre_authorize ephemeralKey req (mkAuthReq ephemeralKey req expiration false false 0%N "")) in
          parse a (λ authRequest,
            set_local (insert requestID authRequest) ;;
            let url suffix := (advertiseURL +:+ "/auth/connect/" +:+ requestID +:+ suffix)%string in
            mret (REncode (CRegister (mkRegisterResponse (url "") (url "/status") (url "/register") expiration))))
      end)).

(** The request identifier of the path; where the code ignores the error of the
    decoder the identifier stays empty. *)
Definition requestID_or_empty (r : Request) : string :=
  match DecodeParam_string r "requestID" with inl _ => "" | inr id => id end.

Definition handleGETAuthConnectUI (r : Request) : MA Resp :=
  let* a := local (λ m : auths, m !! requestID_or_empty r) in
  match a with
  | None => mret (RError StatusNotFound (EMsg "unknown request ID %q"))
  | Some a => mret (REncode (CPage a))
  end.

(** The part of [handlePOSTAuthConnect] that holds the mutex. *)
Definition approve (requestID connectKey : string) (approved : bool) : MA Resp :=
  let* a := local (λ m : auths, m !! requestID) in
  match a with
  | None => mret (RError StatusNotFound (EMsg "request invalid or expired"))
  | Some authReq =>
      let* now := lift1 cd_time_Now in
      if (Auth_Expiration authReq <? now)%Z then mret (RError StatusNotFound (EMsg "request invalid or expired"))
      else if Auth_Approved authReq then mret RNone
      else
        let* authorization := try (lift1 (cd_AuthorizeAppConnectKey connectKey (RA_AppID (Auth_Request authReq)))) in
        match authorization with
        | Err e => mret (RError StatusInternalServerError (EWrap "failed to authorize app connect key: " e ""))
        | Panic => panic
        | Ok authorization =>
            set_local (insert requestID (mkAuthReq (Auth_EphemeralKey authReq) (Auth_Request authReq) (Auth_Expiration authReq)
              approved (AA_Reconnecting authorization) (AA_UserSecret authorization) (AA_ConnectKey authorization))) ;;
            mret (REncode CNil)
        end
  end.

Definition handlePOSTAuthConnect (r : Request) : MA Resp :=
  if negb (String.eqb (rq_Host r) hostname) then mret (RError StatusBadRequest (EMsg "invalid hostname %q"))
  else
    parse (of_jape (DecodeParam_string r "requestID")) (λ requestID,
      parse (decode_body Decode_ApproveAppRequest r) (λ approveReq,
        match rq_BasicAuth r with
        | None => mret (RError StatusBadRequest (EMsg "missing basic auth password"))
        | Some (_, connectKey) =>
            if String.eqb connectKey "" then mret (RError StatusBadRequest (EMsg "missing basic auth password"))
            else if negb approveReq then set_local (delete requestID) ;; mret (REncode CNil)
            else approve requestID connectKey approveReq
        end)).

(** [wrapBasicAuth] *)
Definition wrapBasicAuth (h : Request → MA Resp) (r : Request) : MA Resp :=
  match rq_BasicAuth r with
  | None => mret (RError StatusUnauthorized (EMsg "missing basic auth credentials"))
  | Some (_, password) =>
      let* v := try (lift1 (cd_ValidAppConnectKey password)) in
      match v with
      | Ok _ => h r
      | Err e => if errors_Is e ErrKeyNotFound then mret (RError StatusUnauthorized (EMsg "invalid app connect key"))
                 else mret (RError StatusInternalServerError ErrInternalError)
      | Panic => panic
      end
  end.

Definition handleGETAuthConnectStatus (r : Request) : MA Resp :=
  let* a := local (λ m : auths, m !! requestID_or_empty r) in
  match a with
  | None => mret (RError StatusNotFound (EMsg "request invalid or expired"))
  | Some authReq =>
      let* now := lift1 cd_time_Now in
      if (Auth_Expiration authReq <? now)%Z then mret (RError StatusNotFound (EMsg "request invalid or expired"))
      else
        let* c := lift1 (ValidateURLSignature cd_time_Now r hostname) in
        parse c (λ signerKey,
          if negb (Auth_EphemeralKey authReq =? signerKey)%N then mret (RError StatusUnauthorized (EMsg "invalid request signature"))
          else mret (REncode (CStatus (mkStatus (Auth_Approved authReq) (Auth_Reconnecting authReq) (Auth_UserSecret authReq)))))
  end.

(** The part of [handleAuthRegister] that holds the mutex: check the request and
    consume it. *)
Definition consume (requestID : string) (ephemeralKey : PublicKey) : MA (checked AuthReq) :=
  let* a := local (λ m : auths, m !! requestID) in
  match a with
  | None => mret (inl (StatusNotFound, EMsg "unknown request ID %q"))
  | Some authReq =>
      let* now := lift1 cd_time_Now in
      if (Auth_Expiration authReq <? now)%Z then mret (inl (StatusGone, EMsg "request expired"))
      else if negb (Auth_Approved authReq) then mret (inl (StatusForbidden, ErrUserRejected))
      else if negb (Auth_EphemeralKey authReq =? ephemeralKey)%N then mret (inl (StatusUnauthorized, EMsg "invalid request signature"))
      else set_local (delete requestID) ;; mret (inr authReq)
  end.

(** [handleAuthRegister] up to the release of the mutex: the consumed request and the
    key to register. *)
Definition register_check (r : Request) : MA (checked (AuthReq * PublicKey)) :=
  match of_jape (DecodeParam_string r "requestID") with
  | inl e => mret (inl e)
  | inr requestID =>
      let* c := lift1 (ValidateURLSignature cd_time_Now r hostname) in
      match c with
      | inl e => mret (inl e)
      | inr ephemeralKey =>
          match decode_body Decode_RegisterAppKeyRequest r with
          | inl e => mret (inl e)
          | inr registerReq =>
              if negb (VerifyHash (RK_AppKey registerReq) (registerAppKeyHash ephemeralKey requestID) (RK_Signature registerReq))
              then mret (inl (StatusUnauthorized, EMsg "invalid signature"))
              else
                let* a := consume requestID ephemeralKey in
                mret (checked_bind a (λ authReq, inr (authReq, RK_AppKey registerReq)))
          end
      end
  end.

Definition meta_of (req : RegisterAppRequest) : AppMeta :=
  mkMeta (RA_AppID req) (RA_Name req) (RA_Description req) (RA_LogoURL req) (RA_ServiceURL req).

(** And from there on. *)
Definition register_finish (authReq : AuthReq) (appKey : PublicKey) : M S Resp :=
  if (Auth_UserSecret authReq =? 0)%N then panic
  else
    let* res := try (cd_RegisterAppKey (Auth_ConnectKey authReq) appKey (meta_of (Auth_Request authReq))) in
    match res with
    | Err e =>
        if errors_Is e ErrExists then mret (REncode CNil)
        else if errors_Is e ErrKeyExhausted then mret (RError StatusForbidden (ESentinel ErrKeyExhausted))
        else if errors_Is e ErrKeyNotFound then mret (RError StatusUnauthorized (ESentinel ErrKeyNotFound))
        else mret (RError StatusInternalServerError ErrInternalError)
    | Panic => panic
    | Ok _ => let* _ := try cd_TriggerAccountFunding in mret (REncode CNil)
    end.

Definition handleAuthRegister (r : Request) : MA Resp :=
  let* c := register_check r in
  parse c (λ '(authReq, appKey), lift1 (register_finish authReq appKey)).

(** ** Every interleaving

    [w_finishing] are the registrations between the release of the mutex and the
    call of the store. *)
Record world := mkWorld { w_state : S; w_auths : gmap string AuthReq; w_finishing : list (AuthReq * PublicKey) }.

(** What the rest of the program may do meanwhile. *)
Variable elsewhere : S → S → Prop.

Inductive connect_step : world → world → Prop :=
  | step_request w r resp s' m' :
      handleAuthRequest r (w_state w, w_auths w) = (resp, (s', m')) → connect_step w (mkWorld s' m' (w_finishing w))
  | step_ui w r resp s' m' :
      handleGETAuthConnectUI r (w_state w, w_auths w) = (resp, (s', m')) → connect_step w (mkWorld s' m' (w_finishing w))
  | step_approve w r resp s' m' :
      wrapBasicAuth handlePOSTAuthConnect r (w_state w, w_auths w) = (resp, (s', m')) → connect_step w (mkWorld s' m' (w_finishing w))
  | step_status w r resp s' m' :
      handleGETAuthConnectStatus r (w_state w, w_auths w) = (resp, (s', m')) → connect_step w (mkWorld s' m' (w_finishing w))
  (** the timer of a request that expired *)
  | step_expire w requestID : connect_step w (mkWorld (w_state w) (delete requestID (w_auths w)) (w_finishing w))
  | step_check w r c s' m' :
      register_check r (w_state w, w_auths w) = (Ok c, (s', m')) →
      connect_step w (mkWorld s' m' (match c with inr x => x :: w_finishing w | inl _ => w_finishing w end))
  | step_check_panic w r c s' m' :
      register_check r (w_state w, w_auths w) = (c, (s', m')) → (∀ a, c ≠ Ok a) → connect_step w (mkWorld s' m' (w_finishing w))
  | step_finish w l1 authReq appKey l2 resp s' :
      w_finishing w = l1 ++ (authReq, appKey) :: l2 →
      register_finish authReq appKey (w_state w) = (resp, s') → connect_step w (mkWorld s' (w_auths w) (l1 ++ l2))
  | step_elsewhere w s' :
      elsewhere (w_state w) s' → connect_step w (mkWorld s' (w_auths w) (w_finishing w)).
End connect.

(** ** One approval, one account *)

(** What an approved request entitles to: an account of the connect key for the
    application. *)
Definition entitlement (a : AuthReq) : string * Hash256 := (Auth_ConnectKey a, RA_AppID (Auth_Request a)).
Definition entitled (a : AuthReq) : list (string * Hash256) := if Auth_Approved a then [entitlement a] else [].
Definition approved (m : gmap string AuthReq) : list (string * Hash256) := (map_to_list m).*2 ≫= entitled.

Lemma approved_insert_None m id a : m !! id = None → approved (<[id := a]> m) ≡ₚ entitled a ++ approved m.
Proof. intros Hm. unfold approved. rewrite map_to_list_insert by done. done. Qed.

Lemma approved_delete m id a : m !! id = Some a → approved m ≡ₚ entitled a ++ approved (delete id m).
Proof.
  intros Hm. rewrite <-(insert_delete_id m id a) at 1 by done. apply approved_insert_None, lookup_delete_eq.
Qed.

Lemma approved_delete_le m id : approved (delete id m) ⊆+ approved m.
Proof.
  destruct (m !! id) as [a|] eqn:Hm; [|by rewrite delete_id by done].
  rewrite (approved_delete m id a Hm). apply submseteq_inserts_l. done.
Qed.

Lemma approved_insert m id a : approved (<[id := a]> m) ⊆+ entitled a ++ approved m.
Proof.
  rewrite <-insert_delete_eq. rewrite approved_insert_None by apply lookup_delete_eq.
  apply submseteq_app; [done|apply approved_delete_le].
Qed.

Section laws.
Context {S : Type} {J : JapeOps} {E : EncoderOps} {O : StreamOps} {G : SigOps} {CD : ConnectDecode} {D : ConnectDeps S}.
(** The accounts the store was asked to register, and the authorizations it gave:
    the connect key and the application of each. *)
Variable registered granted : S → list (string * Hash256).

Definition keeps {A} (m : M S A) : Prop := ∀ s, registered (m s).2 = registered s ∧ granted (m s).2 = granted s.

Definition grants_one {A} (m : M S A) (f : A → string * Hash256) : Prop := ∀ s,
  registered (m s).2 = registered s ∧
  granted (m s).2 = granted s ++ match (m s).1 with Ok a => [f a] | _ => [] end.

Class ConnectLaws : Prop := {
  cl_time : keeps cd_time_Now;
  cl_RequestID : keeps cd_RequestID;
  cl_Valid : ∀ key, keeps (cd_ValidAppConnectKey key);
  cl_Trigger : keeps cd_TriggerAccountFunding;
  cl_Authorize : ∀ key appID, grants_one (cd_AuthorizeAppConnectKey key appID) (λ a, (AA_ConnectKey a, appID));
  cl_PreAuthorize : ∀ pk appID, grants_one (cd_AuthorizePreAuthorizedKey pk appID) (λ a, (AA_ConnectKey a, appID));
  cl_Register : ∀ key pk meta s,
    registered (cd_RegisterAppKey key pk meta s).2 = registered s ++ [(key, Meta_ID meta)] ∧
    granted (cd_RegisterAppKey key pk meta s).2 = granted s }.

Context {CL : ConnectLaws}.
Variable hostname advertiseURL : string.
Variable elsewhere : S → S → Prop.
Hypothesis elsewhere_keeps : ∀ s s', elsewhere s s' → registered s' = registered s ∧ granted s' = granted s.

(** A computation on the state and the map that registers nothing and approves only
    what is granted. *)
Definition fair (s s' : S) (m m' : gmap string AuthReq) : Prop :=
  registered s' = registered s ∧ ∃ new, granted s' = granted s ++ new ∧ approved m' ⊆+ new ++ approved m.

Lemma fair_refl s m : fair s s m m.
Proof. split; [done|]. exists []. by rewrite app_nil_r. Qed.

Lemma fair_trans s1 s2 s3 m1 m2 m3 : fair s1 s2 m1 m2 → fair s2 s3 m2 m3 → fair s1 s3 m1 m3.
Proof.
  intros (Hr & n & Hn & Hm) (Hr' & n' & Hn' & Hm'). split; [congruence|]. exists (n ++ n').
  split; [by rewrite Hn', Hn, <-app_assoc|].
  etrans; [exact Hm'|]. etrans; [apply submseteq_app; [done|exact Hm]|]. by rewrite app_assoc, (Permutation_app_comm n' n).
Qed.

Lemma fair_quiet s s' m : registered s' = registered s → granted s' = granted s → fair s s' m m.
Proof. intros Hr Hg. split; [done|]. exists []. by rewrite app_nil_r. Qed.

Definition fairly {A} (f : M (S * gmap string AuthReq) A) : Prop :=
  ∀ s m, fair s (f (s, m)).2.1 m (f (s, m)).2.2.

Lemma fairly_bind {A B} (f : M (S * gmap string AuthReq) A) (g : A → M (S * gmap string AuthReq) B) :
  fairly f → (∀ a, fairly (g a)) → fairly (bindM f g).
Proof.
  intros Hf Hg s m. specialize (Hf s m). unfold bindM, mbind, M_bind. destruct (f (s, m)) as [[a|e|] [s1 m1]]; simpl in *; [|done..].
  eapply fair_trans; [exact Hf|apply Hg].
Qed.
Lemma fairly_ret {A} (a : A) : fairly (mret a).
Proof. intros s m. apply fair_refl. Qed.
Lemma fairly_panic {A} : fairly (panic (A:=A)).
Proof. intros s m. apply fair_refl. Qed.
Lemma fairly_local {A} (f : gmap string AuthReq → A) : fairly (local f).
Proof. intros s m. apply fair_refl. Qed.
Lemma fairly_delete id : fairly (set_local (delete id)).
Proof. intros s m. split; [done|]. exists []. rewrite app_nil_r. split; [done|apply approved_delete_le]. Qed.
Lemma fairly_lift1 {A} (f : M S A) : keeps f → fairly (lift1 f).
Proof. intros Hf s m. unfold lift1. destruct (Hf s). destruct (f s) as [r s1]. by apply fair_quiet. Qed.
Lemma fairly_try {A} (f : M (S * gmap string AuthReq) A) : fairly f → fairly (try f).
Proof. intros Hf s m. specialize (Hf s m). unfold try. by destruct (f (s, m)) as [[a|e|] [s1 m1]]. Qed.
Lemma fairly_parse {A} (c : checked A) k : (∀ a, fairly (k a)) → fairly (parse c k).
Proof. destruct c as [[status e]|a]; intros Hk; [apply fairly_ret|apply Hk]. Qed.

Lemma keeps_ret {A} (a : A) : keeps (mret a).
Proof. done. Qed.
Lemma keeps_bind {A B} (f : M S A) (g : A → M S B) : keeps f → (∀ a, keeps (g a)) → keeps (bindM f g).
Proof.
  intros Hf Hg s. specialize (Hf s). unfold bindM, mbind, M_bind. destruct (f s) as [[a|e|] s1]; simpl in *; [|done..].
  specialize (Hg a s1). intuition congruence.
Qed.
Lemma keeps_Validate r : keeps (ValidateURLSignature cd_time_Now r hostname).
Proof.
  unfold ValidateURLSignature. repeat case_match; try apply keeps_ret; try (intros s; done).
  apply keeps_bind; [apply cl_time|]. intros now. case_match; apply keeps_ret.
Qed.
Lemma fairly_Validate r : fairly (lift1 (ValidateURLSignature cd_time_Now r hostname)).
Proof. apply fairly_lift1, keeps_Validate. Qed.

(** A grant followed by the approval of one request. *)
Lemma fair_grant s s' m id x :
  registered s' = registered s → granted s' = granted s ++ [entitlement x] → fair s s' m (<[id := x]> m).
Proof.
  intros Hr Hg. split; [done|]. exists [entitlement x]. split; [done|]. etrans; [apply approved_insert|].
  apply submseteq_app; [|done]. unfold entitled. by destruct (Auth_Approved x); [|apply submseteq_nil_l].
Qed.

Lemma fair_insert_pending s s' m id x :
  registered s' = registered s → granted s' = granted s → Auth_Approved x = false → fair s s' m (<[id := x]> m).
Proof.
  intros Hr Hg Hx. split; [done|]. exists []. rewrite app_nil_r. split; [done|]. etrans; [apply approved_insert|].
  unfold entitled. by rewrite Hx.
Qed.

Lemma fairly_approve id key approved : fairly (approve id key approved).
Proof.
  unfold approve. apply fairly_bind; [apply fairly_local|]. intros [a|]; [|apply fairly_ret].
  apply fairly_bind; [apply fairly_lift1, cl_time|]. intros now. destruct (Auth_Expiration a <? now)%Z; [apply fairly_ret|].
  destruct (Auth_Approved a); [apply fairly_ret|]. intros s m.
  pose proof (cl_Authorize key (RA_AppID (Auth_Request a)) s) as [Hr Hg].
  unfold bindM, mbind, M_bind, try, lift1. destruct (cd_AuthorizeAppConnectKey _ _ s) as [[x|e|] s1]; simpl in *;
    [by apply fair_grant|apply fair_quiet; [done|by rewrite Hg, app_nil_r]..].
Qed.

Lemma fairly_request r : fairly (handleAuthRequest hostname advertiseURL r).
Proof.
  unfold handleAuthRequest. apply fairly_bind; [apply fairly_Validate|]. intros c. apply fairly_parse. intros k. apply fairly_parse. intros req.
  destruct (check_register req); [apply fairly_ret|]. apply fairly_bind; [apply fairly_lift1, cl_RequestID|]. intros id.
  apply fairly_bind; [apply fairly_lift1, cl_time|]. intros now. intros s m. unfold pre_authorize.
  set (x := mkAuthReq k req _ _ _ _ _). unfold bindM, mbind, M_bind, lift1.
  destruct (negb (Bool.eqb _ _)); [apply fair_refl|]. destruct (negb (RA_PreAuthorizedKey req =? 0)%N).
  - destruct (negb (VerifyHash _ _ _)); [apply fair_refl|]. pose proof (cl_PreAuthorize (RA_PreAuthorizedKey req) (RA_AppID req) s) as [Hr Hg].
    unfold try. destruct (cd_AuthorizePreAuthorizedKey _ _ s) as [[y|e|] s1]; simpl in *.
    + by apply fair_grant.
    + rewrite app_nil_r in Hg. by destruct (_ || _); apply fair_quiet.
    + apply fair_quiet; [done|by rewrite Hg, app_nil_r].
  - by apply fair_insert_pending.
Qed.

Lemma fairly_ui r : fairly (handleGETAuthConnectUI r).
Proof. apply fairly_bind; [apply fairly_local|]. intros [a|]; apply fairly_ret. Qed.

Lemma fairly_post r : fairly (wrapBasicAuth (handlePOSTAuthConnect hostname) r).
Proof.
  unfold wrapBasicAuth, handlePOSTAuthConnect. destruct (rq_BasicAuth r) as [[user key]|] eqn:Hb; [|apply fairly_ret].
  apply fairly_bind; [apply fairly_try, fairly_lift1, cl_Valid|]. intros [[]|e|]; [|destruct (errors_Is _ _); apply fairly_ret|apply fairly_panic].
  destruct (negb _); [apply fairly_ret|]. apply fairly_parse. intros id. apply fairly_parse. intros ok.
  destruct (String.eqb key ""); [apply fairly_ret|]. destruct (negb ok); [|apply fairly_approve].
  apply fairly_bind; [apply fairly_delete|]. intros _. apply fairly_ret.
Qed.

Lemma fairly_status r : fairly (handleGETAuthConnectStatus hostname r).
Proof.
  apply fairly_bind; [apply fairly_local|]. intros [a|]; [|apply fairly_ret]. apply fairly_bind; [apply fairly_lift1, cl_time|].
  intros now. destruct (_ <? _)%Z; [apply fairly_ret|]. apply fairly_bind; [apply fairly_Validate|]. intros c. apply fairly_parse.
  intros k. destruct (negb _); apply fairly_ret.
Qed.

(** What the check of a registration leaves. *)
Lemma consume_spec id k s m r s' m' :
  consume id k (s, m) = (r, (s', m')) →
  registered s' = registered s ∧ granted s' = granted s ∧
  match r with
  | Ok (inr a) => ∃ now, cd_time_Now s = (Ok now, s') ∧ (now ≤ Auth_Expiration a)%Z ∧ m !! id = Some a ∧ Auth_Approved a = true ∧
                         Auth_EphemeralKey a = k ∧ m' = delete id m
  | _ => m' = m
  end.
Proof.
  unfold consume, local, lift1, set_local, bindM, mbind, M_bind. pose proof (cl_time s) as [Hr Hg].
  destruct (m !! id) as [a|] eqn:Hm; [|by intros [= <- <- <-]].
  destruct (cd_time_Now s) as [[now|e|] s1] eqn:Hn; simpl in *; [|by intros [= <- <- <-]..].
  destruct (Z.ltb_spec (Auth_Expiration a) now); [by intros [= <- <- <-]|].
  destruct (Auth_Approved a) eqn:Ha; [|by intros [= <- <- <-]].
  destruct (N.eqb_spec (Auth_EphemeralKey a) k); [|by intros [= <- <- <-]].
  intros [= <- <- <-]. split_and!; [done..|]. by exists now.
Qed.

Lemma register_check_spec r s m res s' m' :
  register_check hostname r (s, m) = (res, (s', m')) →
  registered s' = registered s ∧ granted s' = granted s ∧
  match res with
  | Ok (inr (a, appKey)) =>
      ∃ id now later sig, DecodeParam_string r "requestID" = inr id ∧ url_ok r hostname now (Auth_EphemeralKey a) ∧
        VerifyHash appKey (registerAppKeyHash (Auth_EphemeralKey a) id) sig = true ∧
        m !! id = Some a ∧ m' = delete id m ∧ Auth_Approved a = true ∧
        cd_time_Now (ValidateURLSignature cd_time_Now r hostname s).2 = (Ok later, s') ∧ (later ≤ Auth_Expiration a)%Z
  | _ => m' = m
  end.
Proof.
  unfold register_check. destruct (DecodeParam_string r "requestID") as [e|id] eqn:Hid; simpl; [by intros [= <- <- <-]|].
  unfold bindM at 1, mbind, M_bind, lift1. pose proof (keeps_Validate r s) as [Hr Hg].
  destruct (ValidateURLSignature _ r hostname s) as [[[e|k]|e|] s1] eqn:Hv; simpl in *; try by intros [= <- <- <-].
  apply ValidateURLSignature_accepts in Hv as (now & _ & Hok).
  destruct (decode_body _ r) as [e|reg]; [by intros [= <- <- <-]|]. destruct (VerifyHash _ _ _) eqn:Hver; [|by intros [= <- <- <-]].
  cbn [negb]. unfold bindM, mbind, M_bind. destruct (consume id k (s1, m)) as [res1 [s2 m2]] eqn:Hc.
  apply consume_spec in Hc as (Hr2 & Hg2 & Hres). destruct res1 as [[e|a]|e|]; simpl; intros [= <- <- <-]; (split_and!; [congruence..|]); [done| |done..].
  destruct Hres as (later & Hl & Hle & Hm & Ha & <- & ->). by exists id, now, later, (RK_Signature reg).
Qed.

(** *** Every interleaving *)

Definition due (x : AuthReq * PublicKey) : string * Hash256 := entitlement x.1.

(** What was registered, is about to be, or is approved, was granted. *)
Definition balanced (w : world) : Prop :=
  registered (w_state w) ++ (due <$> w_finishing w) ++ approved (w_auths w) ⊆+ granted (w_state w).

Lemma balanced_fair s s' m m' l : fair s s' m m' → balanced (mkWorld s m l) → balanced (mkWorld s' m' l).
Proof.
  unfold balanced. simpl. intros (-> & new & -> & Hm) H. etrans.
  { apply submseteq_app; [reflexivity|]. apply submseteq_app; [reflexivity|exact Hm]. }
  etrans; [|apply submseteq_app; [exact H|reflexivity]]. rewrite <-!app_assoc. do 2 apply submseteq_skips_l. by rewrite (Permutation_app_comm new).
Qed.
Lemma balanced_step w w' : connect_step hostname advertiseURL elsewhere w w' → balanced w → balanced w'.
Proof.
  intros Hstep Hb. destruct w as [s m l]. simpl in *.
  destruct Hstep as [w r resp s' m' H|w r resp s' m' H|w r resp s' m' H|w r resp s' m' H|w id|w r c s' m' H|w r c s' m' H Hc|w l1 a k l2 resp s' Hl H|w s' H];
    destruct w as [s0 m0 l0]; simpl in *.
  - pose proof (fairly_request r s0 m0) as Hf. rewrite H in Hf. by eapply balanced_fair.
  - pose proof (fairly_ui r s0 m0) as Hf. rewrite H in Hf. by eapply balanced_fair.
  - pose proof (fairly_post r s0 m0) as Hf. rewrite H in Hf. by eapply balanced_fair.
  - pose proof (fairly_status r s0 m0) as Hf. rewrite H in Hf. by eapply balanced_fair.
  - pose proof (fairly_delete id s0 m0) as Hf. by eapply balanced_fair.
  - apply register_check_spec in H as (Hr & Hg & Hres). unfold balanced in *. simpl in *. rewrite Hr, Hg. destruct c as [e|[a k]].
    + by rewrite Hres.
    + destruct Hres as (id & now & later & sig & _ & _ & _ & Hm & -> & Ha & _). rewrite (approved_delete _ _ _ Hm) in Hb.
      unfold entitled in Hb. rewrite Ha in Hb. etrans; [|exact Hb]. apply submseteq_skips_l. csimpl.
      by rewrite <-Permutation_middle.
  - apply register_check_spec in H as (Hr & Hg & Hres). unfold balanced in *. simpl in *. rewrite Hr, Hg.
    destruct c as [[e|x]|e|]; [by destruct (Hc (inl e))|by destruct (Hc (inr x))|by rewrite Hres..].
  - subst l0. unfold register_finish in H. unfold balanced in *. simpl in *.
    enough (∃ l, registered s' = registered s0 ++ l ∧ granted s' = granted s0 ∧ l ⊆+ [due (a, k)]) as (x & -> & -> & Hx).
    { etrans; [|exact Hb]. rewrite !fmap_app, <-!app_assoc. apply submseteq_skips_l.
      etrans; [apply submseteq_app; [exact Hx|reflexivity]|]. csimpl. by rewrite <-Permutation_middle. }
    destruct (Auth_UserSecret a =? 0)%N.
    { injection H as _ <-. exists []. rewrite app_nil_r. split_and!; [done..|apply submseteq_nil_l]. }
    exists [due (a, k)]. pose proof (cl_Register (Auth_ConnectKey a) k (meta_of (Auth_Request a)) s0) as [Hr Hg].
    unfold bindM, mbind, M_bind, try in H. destruct (cd_RegisterAppKey _ _ _ s0) as [[[]|e|] s1]; simpl in *.
    + pose proof (cl_Trigger s1) as [Hr1 Hg1]. destruct (cd_TriggerAccountFunding s1) as [[[]|e|] s2]; injection H as _ <-; simpl in *;
        (split_and!; [by rewrite Hr1|by rewrite Hg1|done]).
    + repeat case_match; injection H as _ <-; done.
    + by injection H as _ <-.
  - apply elsewhere_keeps in H as [Hr Hg]. unfold balanced in *. simpl in *. by rewrite Hr, Hg.
Qed.

(** C27. One approval can only ever register one account, whatever requests arrive,
    in whatever order, and however they interleave with registrations in progress:
    what the store was asked to register - with multiplicity, the connect key and
    the application of each account - are authorizations that it gave, none used
    twice, and none that is still waiting or in progress. And a registration goes
    through only for a request that the ephemeral key of an approved request signed
    before it expired, with an app key that signed the request identifier and the
    ephemeral key. *)
Theorem one_approval_one_account (s0 : S) (w : world) :
  registered s0 ⊆+ granted s0 →
  rtc (connect_step hostname advertiseURL elsewhere) (mkWorld s0 ∅ []) w →
  registered (w_state w) ++ (due <$> w_finishing w) ++ approved (w_auths w) ⊆+ granted (w_state w) ∧
  ∀ r a appKey s' m', register_check hostname r (w_state w, w_auths w) = (Ok (inr (a, appKey)), (s', m')) →
    ∃ id now sig, DecodeParam_string r "requestID" = inr id ∧ w_auths w !! id = Some a ∧ m' = delete id (w_auths w) ∧
      Auth_Approved a = true ∧ (∃ later st, cd_time_Now st = (Ok later, s') ∧ (later ≤ Auth_Expiration a)%Z) ∧
      url_ok r hostname now (Auth_EphemeralKey a) ∧
      VerifyHash appKey (registerAppKeyHash (Auth_EphemeralKey a) id) sig = true.
Proof.
  intros H0 Hrtc. split.
  - change (balanced w). remember (mkWorld s0 ∅ []) as w0 eqn:Hw0.
    assert (balanced w0) as Hb by (subst w0; unfold balanced; simpl; by rewrite app_nil_r).
    clear Hw0. induction Hrtc as [|w0 w1 w2 Hs _ IH]; [done|]. by eapply IH, balanced_step.
  - intros r a k s' m' (_ & _ & id & now & later & sig & Hid & Hok & Hv & Hm & -> & Ha & Hl & Hle)%register_check_spec.
    exists id, now, sig. split_and!; try done. by eexists _, _.
Qed.
End laws.

(** ** A run *)

Module ConnectWitness.
#[local] Existing Instances SiaEncoding.ops SiaEncoding.laws SiaStream.ops SiaStream.laws TestSig.ops TestSig.laws.

(** What was registered and what was granted. *)
Definition st : Type := list (string * Hash256) * list (string * Hash256).

#[local] Instance jape : JapeOps := {|
  DecodeForm_int _ _ d := inr d; DecodeForm_int64 _ _ d := inr d; DecodeForm_string _ _ d := inr d;
  DecodeForm_Hash _ _ d := inr d; DecodeForm_Time _ _ d := inr d;
  DecodeParam_Hash _ _ := inr 0%N; DecodeParam_string _ _ := inr "id"%string |}.

Definition ephemeral : @PrivateKey TestSig.ops := 5%N.
Definition appKey : @PrivateKey TestSig.ops := 8%N.
Definition info : RegisterAppRequest := mkRegister 9 "app" "an app" "" "url" "" 0 0.

#[local] Instance decoders : ConnectDecode := {|
  Decode_RegisterAppRequest _ := inr info;
  Decode_ApproveAppRequest _ := inr true;
  Decode_RegisterAppKeyRequest _ := inr (mkKeyReg 8 (SignHash appKey (registerAppKeyHash 5 "id"))) |}.

#[local] Instance deps : ConnectDeps st := {|
  cd_time_Now := mret 0%Z;
  cd_RequestID := mret "id"%string;
  cd_ValidAppConnectKey _ := mret tt;
  cd_AuthorizeAppConnectKey key appID := λ s, (Ok (mkAuthorization key 7 false), (s.1, s.2 ++ [(key, appID)]));
  cd_AuthorizePreAuthorizedKey _ _ := throw (ESentinel ErrKeyNotFound);
  cd_RegisterAppKey key _ meta := λ s, (Ok tt, (s.1 ++ [(key, Meta_ID meta)], s.2));
  cd_TriggerAccountFunding := mret tt |}.

#[local] Instance deps_laws : ConnectLaws (D:=deps) fst snd.
Proof.
  split; try done; intros; intros [rs gs]; simpl; by rewrite ?app_nil_r.
Qed.

Definition until : Z := (unix_epoch + 1000) * Second.
Definition call (method : string) (auth : option (string * string)) : Request :=
  let u := sign ephemeral until method (mkURL "indexer" "/auth/connect" []) [] in
  mkRequest method "indexer" "/auth/connect" (u_Query u) [] "" auth [] None.
Definition signed_call : Request := call "POST" None.
Definition user_call : Request := call "POST" (Some ("user", "connect")%string).

Abbreviation step := (connect_step "indexer" "https://indexer" (=)) (only parsing).

Definition start : world (S:=st) := mkWorld ([], []) ∅ [].
Definition w1 : world (S:=st) :=
  let r := handleAuthRequest "indexer" "https://indexer" signed_call (w_state start, w_auths start) in mkWorld r.2.1 r.2.2 [].
Definition w2 : world (S:=st) :=
  let r := wrapBasicAuth (handlePOSTAuthConnect "indexer") user_call (w_state w1, w_auths w1) in mkWorld r.2.1 r.2.2 [].
Definition entry : AuthReq := mkAuthReq 5 info (10 * Minute) true false 7 "connect".
Definition w3 : world (S:=st) := mkWorld ([], [("connect"%string, 9%N)]) ∅ [(entry, 8%N)].
Definition w4 : world (S:=st) := mkWorld ([("connect"%string, 9%N)], [("connect"%string, 9%N)]) ∅ [].

Definition registered_of (w : world (S:=st)) : list (string * Hash256) := (w_state w).1.

Lemma split3 {A B C} (x : A * (B * C)) : x = (x.1, (x.2.1, x.2.2)).
Proof. by destruct x as [? [? ?]]. Qed.

Lemma connect_run : rtc step start w4.
Proof.
  eapply (rtc_l _ _ w1). { eapply (step_request _ _ _ start signed_call), split3. }
  eapply (rtc_l _ _ w2). { eapply (step_approve _ _ _ w1 user_call), split3. }
  eapply (rtc_l _ _ w3). { eapply (step_check _ _ _ w2 signed_call (inr (entry, 8%N))). vm_compute. reflexivity. }
  eapply (rtc_l _ _ w4); [|reflexivity]. eapply (step_finish _ _ _ w3 [] entry 8%N []); [reflexivity|]. vm_compute. reflexivity.
Qed.

Example one_approval_one_account_witness :
  registered_of w4 = [("connect"%string, 9%N)] ∧ registered_of w4 ++ [] ⊆+ [("connect"%string, 9%N)].
Proof.
  split; [reflexivity|].
  refine (proj1 (one_approval_one_account fst snd "indexer" "https://indexer" (=) _ ([], []) w4 _ connect_run)).
  - by intros s s' ->.
  - apply submseteq_nil_l.
Defined.
End ConnectWitness.
