(* ===== verification/Store.v ===== *)
(** * Transactions that are retried (src/persist/postgres/store.go)

    A transaction is a closure over the variables of its caller: when it fails, the
    database forgets what it did, the variables do not. It runs again after a failure
    that PostgreSQL calls transient. The waiting between attempts is not modelled. *)

From S2P Require Import Prelude.

Definition maxRetryAttempts : nat := 30.

Definition serialization_failure : string := "40001".
Definition deadlock_detected : string := "40P01".
Definition lock_not_available : string := "55P03".

(** [errors.As(err, &pgErr)] and the codes that are tried again *)
Definition retryable (e : error) : bool :=
  errors_Is e serialization_failure || errors_Is e deadlock_detected || errors_Is e lock_not_available.

Section store.
Local Open Scope go_scope.
(** [D] is the database, [V] the variables that the closure captures. Before each
    attempt other clients may commit; beginning and committing may fail. *)
Context {D V : Type} (others : nat → D → D) (BeginTx Commit : nat → option error).

Definition doTransaction (attempt : nat) (fn : M (D * V) unit) : M (D * V) unit := λ s,
  match BeginTx attempt with
  | Some e => (Err (EWrap "failed to begin transaction: " e ""), s)
  | None =>
      let d := others attempt s.1 in
      match fn (d, s.2) with
      | (Ok _, (d', v)) =>
          match Commit attempt with
          | Some e => (Err (EWrap "failed to commit transaction: " e ""), (d, v))
          | None => (Ok tt, (d', v))
          end
      | (Err e, (_, v)) => (Err e, (d, v))
      | (Panic, (_, v)) => (Panic, (d, v))
      end
  end.

(** The loop; [n] attempts are left. *)
Fixpoint attempts (n attempt : nat) (last_err : error) (fn : M (D * V) unit) : M (D * V) unit :=
  match n with
  | O => throw (EWrap "transaction failed (attempt %d): " last_err "")
  | Datatypes.S n =>
      let* r := try (doTransaction attempt fn) in
      match r with
      | Ok _ => mret tt
      | Err e => if retryable e then attempts n (Datatypes.S attempt) e fn else throw e
      | Panic => panic
      end
  end.

Definition Store_transaction (fn : M (D * V) unit) : M (D * V) unit := attempts maxRetryAttempts 1 (EMsg "") fn.

(** The databases that the others' commits alone lead to, by the attempt. *)
Fixpoint after_others (from n : nat) (d : D) : D :=
  match n with O => d | Datatypes.S n => after_others (Datatypes.S from) n (others from d) end.

(** The closure sets the variables it uses before it uses them. *)
Definition resets (fn : M (D * V) unit) : Prop :=
  ∀ d v v', (fn (d, v)).1 = (fn (d, v')).1 ∧ (fn (d, v)).2.1 = (fn (d, v')).2.1 ∧ ((fn (d, v)).1 = Ok tt → (fn (d, v)).2.2 = (fn (d, v')).2.2).

(** Transactions begin. *)
Definition begins : Prop := ∀ n, BeginTx n = None.

Lemma attempts_refines fn n attempt e0 d v v0 r d' v' :
  begins → resets fn → attempts n attempt e0 fn (d, v) = (r, (d', v')) →
  ∃ k, (k ≤ n)%nat ∧ match r with
    | Ok _ => fn (after_others attempt k d, v0) = (Ok tt, (d', v')) ∧ Commit (attempt + k - 1)%nat = None ∧ (0 < k)%nat
    | _ => d' = after_others attempt k d
    end.
Proof.
  intros Hb Hr. revert attempt e0 d v. induction n as [|n IH]; intros attempt e0 d v; cbn [attempts].
  - intros [= <- <- <-]. by exists O.
  - unfold bindM, mbind, M_bind, try, doTransaction. rewrite Hb. cbn [fst snd].
    destruct (fn (others attempt d, v)) as [[[]|e|] [d1 v1]] eqn:Hfn.
    + destruct (Commit attempt) as [e|] eqn:Hc.
      * destruct (retryable _); [|intros [= <- <- <-]; exists 1; cbn; split; [lia|done]]. intros Hrun. destruct (IH _ _ _ _ Hrun) as (k & Hk & H).
        exists (S k). split; [lia|]. destruct r; [|exact H..]. cbn. replace (attempt + S k - 1)%nat with (S attempt + k - 1)%nat by lia. intuition lia.
      * intros [= <- <- <-]. exists 1. cbn. split; [lia|]. rewrite Nat.add_sub. split; [|split; [done|lia]].
        destruct (Hr (others attempt d) v v0) as (H1 & H2 & H3). rewrite Hfn in H1, H2, H3. cbn in *. specialize (H3 eq_refl).
        destruct (fn (others attempt d, v0)) as [r0 [d0 w0]]. cbn in *. by subst.
    + destruct (retryable e); [|intros [= <- <- <-]; exists 1; cbn; split; [lia|done]]. intros Hrun. destruct (IH _ _ _ _ Hrun) as (k & Hk & H).
      exists (S k). split; [lia|]. destruct r; [|exact H..]. cbn. replace (attempt + S k - 1)%nat with (S attempt + k - 1)%nat by lia. intuition lia.
    + intros [= <- <- <-]. exists 1. cbn. split; [lia|done].
Qed.

(** C11. Retries do not show: when the database can begin a transaction and a closure
    resets the variables it captures, a
    transaction that succeeds has run exactly once, with fresh variables, on the
    database that other clients' commits led to; one that fails changed nothing. *)
Theorem transaction_atomic fn d v v0 r d' v' :
  begins → resets fn → Store_transaction fn (d, v) = (r, (d', v')) →
  ∃ k, (k ≤ maxRetryAttempts)%nat ∧ match r with
    | Ok _ => fn (after_others 1 k d, v0) = (Ok tt, (d', v'))
    | _ => d' = after_others 1 k d
    end.
Proof.
  intros Hb Hr Hrun. destruct (attempts_refines fn _ _ _ _ _ v0 _ _ _ Hb Hr Hrun) as (k & Hk & H). exists k. split; [done|].
  destruct r; [by destruct H|exact H..].
Qed.

(** An error that is not transient ends it at once. *)
Lemma transaction_no_retry fn d v e :
  begins → (fn (others 1 d, v)).1 = Err e → retryable e = false →
  (Store_transaction fn (d, v)).1 = Err e.
Proof.
  intros Hb Hfn He. unfold Store_transaction, maxRetryAttempts. cbn [attempts]. unfold bindM, mbind, M_bind, try, doTransaction. rewrite Hb. cbn [fst snd].
  destruct (fn (others 1 d, v)) as [r [d1 v1]]. cbn in Hfn. subst r. by rewrite He.
Qed.
End store.

(** ** Closures *)

Module RetryWitness.

(** A closure that appends the rows it reads to a slice of its caller, as that of
    [FundingEvents] does, and one that truncates the slice first. *)
Definition appending : M (list nat * list nat) unit := λ s, (Ok tt, (s.1, s.2 ++ s.1)).
Definition truncating : M (list nat * list nat) unit := λ s, (Ok tt, (s.1, s.1)).

(** The first commit fails. *)
Definition Commit (attempt : nat) : option error := if Nat.eqb attempt 1 then Some (ESentinel serialization_failure) else None.

Example transaction_atomic_witness :
  ∃ k, (k ≤ maxRetryAttempts)%nat ∧ truncating (after_others (λ _ d, d) 1 k [1; 2], []) = (Ok tt, ([1; 2], [1; 2])).
Proof.
  exact (transaction_atomic (λ _ d, d) (λ _, None) Commit truncating [1; 2] [] [] (Ok tt) [1; 2] [1; 2] (λ _, eq_refl)
    (λ d v v', conj eq_refl (conj eq_refl (λ _, eq_refl))) eq_refl).
Defined.

(** Without truncating, the rows of the failed attempt stay. *)
Lemma appended_twice : Store_transaction (λ _ d, d) (λ _, None) Commit appending ([1; 2], []) = (Ok tt, ([1; 2], [1; 2; 1; 2])).
Proof. reflexivity. Qed.
End RetryWitness.
