(* ===== verification/Tables.v ===== *)
(** * The tables of the database (src/persist/postgres/init.sql, store.go, stats.go)

    The rows that the modelled statements of persist/postgres read and write, as maps
    from primary keys, and what a statement is made of: lookups by a unique column,
    sums, sequences, the checks of the schema. A transaction is one step: it runs on
    the tables as they are, and an error undoes it. *)

From S2P Require Import Prelude Float Encoding Hosts Slabs Objects Accounts App.

(** ** Rows *)

(** A row of [quotas]; the primary key is the name. *)
Record QuotaRow := mkQuotaRow {
  q_description : string; q_max_pinned_data : Z; q_total_uses : Z; q_fund_target_bytes : Z }.

Record ConnectKeyRow := mkConnectKeyRow {
  ck_user_secret : Hash256; ck_app_key : string; ck_use_description : string; ck_quota_name : string;
  ck_created_at : Z; ck_updated_at : Z; ck_last_used : option Z; ck_pinned_data : Z; ck_pinned_size : Z }.

Record PreauthRow := mkPreauthRow {
  pa_connect_key_id : Z; pa_expires_at : Z; pa_total_uses : Z; pa_remaining_uses : Z;
  pa_allowed_app_id : option Hash256; pa_created_at : Z; pa_last_used : option Z }.

Record PoolRow := mkPoolRow { po_connect_key_id : Z; po_pool_key : N }.

Record AccountRow := mkAccountRow {
  a_public_key : PublicKey; a_connect_key_id : Z; a_pinned_data : Z; a_pinned_size : Z; a_max_pinned_data : Z;
  a_app : AppMeta; a_last_used : Z; a_deleted_at : option Z }.

Record HostScan := mkHostScan {
  hs_last_announcement : Z; hs_has_quic : bool; hs_has_siamux : bool; hs_consecutive_failed_scans : Z; hs_recent_uptime : float64;
  hs_last_failed_scan : option Z; hs_last_successful_scan : option Z; hs_next_scan : Z; hs_scans : Z; hs_scans_failed : Z;
  hs_last_integrity_check : Z; hs_stuck_since : option Z; hs_location : Location }.

(** The columns settings_*; amounts are NUMERIC(50,0). *)
Record HostSettingsRow := mkHostSettingsRow {
  st_protocol_version : Z; st_release : string; st_wallet_address : N; st_accepting_contracts : bool; st_max_collateral : Z;
  st_max_contract_duration : Z; st_remaining_storage : Z; st_total_storage : Z; st_contract_price : Z; st_collateral : Z;
  st_storage_price : Z; st_ingress_price : Z; st_egress_price : Z; st_free_sector_price : Z; st_tip_height : Z;
  st_valid_until : option Z; st_signature : N }.

(** A row of [hosts]: the columns of scans and of settings are records of their own. *)
Record HostRow := mkHostRow {
  h_public_key : PublicKey; h_unpinned_sectors : Z; h_lost_sectors : Z; h_usage_account_funding : Z; h_usage_total_spent : Z;
  h_scan : HostScan; h_settings : HostSettingsRow }.

Definition with_unpinned (n : Z) (h : HostRow) : HostRow :=
  mkHostRow (h_public_key h) n (h_lost_sectors h) (h_usage_account_funding h) (h_usage_total_spent h) (h_scan h) (h_settings h).
Definition with_lost (n : Z) (h : HostRow) : HostRow :=
  mkHostRow (h_public_key h) (h_unpinned_sectors h) n (h_usage_account_funding h) (h_usage_total_spent h) (h_scan h) (h_settings h).
Definition with_usage (funding spent : Z) (h : HostRow) : HostRow :=
  mkHostRow (h_public_key h) (h_unpinned_sectors h) (h_lost_sectors h) funding spent (h_scan h) (h_settings h).
Definition with_scan (s : HostScan) (h : HostRow) : HostRow :=
  mkHostRow (h_public_key h) (h_unpinned_sectors h) (h_lost_sectors h) (h_usage_account_funding h) (h_usage_total_spent h) s (h_settings h).
Definition with_settings (s : HostSettingsRow) (h : HostRow) : HostRow :=
  mkHostRow (h_public_key h) (h_unpinned_sectors h) (h_lost_sectors h) (h_usage_account_funding h) (h_usage_total_spent h) (h_scan h) s.

(** A new row: the defaults of the columns, except those that an INSERT gives. *)
Definition new_host (hk : PublicKey) (last_announcement : Z) (has_quic has_siamux : bool) (now : Z) : HostRow :=
  mkHostRow hk 0 0 0 0
    (mkHostScan last_announcement has_quic has_siamux 0 (of_decimal 9 1) None None now 0 0 now None (mkLocation "" (of_int 0) (of_int 0)))
    (mkHostSettingsRow 0 "" 0 false 0 0 0 0 0 0 0 0 0 0 0 None 0).

(** A row of [contracts]. Nothing writes the columns of spending, which stay at 0. *)
Record ContractRow := mkContractRow {
  c_host_id : Z; c_formation : Z; c_proof_height : Z; c_expiration_height : Z; c_renewed_from : option FileContractID;
  c_renewed_to : option FileContractID; c_revision_number : Z; c_state : Z; c_last_broadcast_attempt : Z; c_next_prune : Z;
  c_capacity : Z; c_size : Z; c_contract_price : Z; c_initial_allowance : Z; c_remaining_allowance : Z; c_miner_fee : Z;
  c_used_collateral : Z; c_total_collateral : Z; c_good : bool; c_raw_revision : list byte }.

(** A row of [contract_elements]. *)
Record ElementRow := mkElementRow { ce_contract : list byte; ce_leaf_index : Z; ce_merkle_proof : list byte }.

(** The settings of the contract and of the host manager in [global_settings]. *)
Record GlobalRow := mkGlobalRow {
  gs_maintenance_enabled : bool; gs_contracts_wanted : Z; gs_contracts_renew_window : Z; gs_contracts_period : Z;
  gs_min_protocol_version : option Z; gs_min_collateral : option Z; gs_max_storage_price : option Z; gs_max_ingress_price : option Z;
  gs_max_egress_price : option Z }.

(** A row of [account_hosts] or [pool_hosts]; [sharing_attached] is the latter's. *)
Record FundRow := mkFundRow { fr_next_fund : Z; fr_consecutive_failed_funds : Z; fr_sharing_attached : bool }.

Record SlabRow := mkSlabRow {
  sl_pinned_at : Z; sl_digest : SlabID; sl_encryption_key : EncryptionKey; sl_min_shards : Z; sl_version : Z;
  sl_consecutive_failed_repairs : Z; sl_next_repair_attempt : Z }.

Record SectorRow := mkSectorRow {
  se_sector_root : Hash256; se_host_id : option Z; se_contract_sectors_map_id : option Z; se_uploaded_at : Z;
  se_next_integrity_check : Z; se_consecutive_failed_checks : Z; se_num_migrated : Z }.

Record ObjectRow := mkObjectRow {
  o_object_key : Hash256; o_account_id : Z; o_encrypted_data_key : list byte; o_encrypted_meta_key : option (list byte);
  o_encrypted_metadata : option (list byte); o_data_signature : Signature; o_meta_signature : Signature;
  o_created_at : Z; o_updated_at : Z }.

(** A row of [object_slabs]: the map is keyed by the object and the index. *)
Record ObjectSlabRow := mkObjectSlabRow { os_slab_digest : SlabID; os_slab_offset : Z; os_slab_length : Z }.

Record EventRow := mkEventRow { e_was_deleted : bool; e_updated_at : Z }.

(** The tables of the database (persist/postgres/init.sql), as far as the modelled
    statements use their columns. [db_now] is [NOW()], the time of the transaction;
    [sequences] holds the last value of each SERIAL column. *)
Record db := mkDB {
  db_now : Z; quotas : gmap string QuotaRow; connect_keys : gmap Z ConnectKeyRow;
  preauthorized_keys : gmap PublicKey PreauthRow; pools : gmap Z PoolRow; accounts : gmap Z AccountRow;
  hosts : gmap Z HostRow; contracts : gmap FileContractID ContractRow;
  contract_sectors_map : gmap Z FileContractID; scanned_height : Z; slabs : gmap Z SlabRow;
  account_slabs : gmap (Z * Z) unit; slab_sectors : gmap (Z * Z) Z; sectors : gmap Z SectorRow;
  objects : gmap Z ObjectRow; object_slabs : gmap (Z * Z) ObjectSlabRow;
  object_events : gmap (Z * Hash256) EventRow; blocked_objects : gmap Hash256 (string * Z);
  slab_deletion_queue : list (Z * Z); stats_deltas : list (Z * (string * Z)); stats : gmap string Z;
  sequences : gmap string Z; contract_elements : gmap FileContractID ElementRow; globals : GlobalRow;
  hosts_blocklist : gmap PublicKey (list string); host_addresses : list (Z * (Z * NetAddress));
  account_hosts : gmap (Z * Z) FundRow; pool_hosts : gmap (Z * Z) FundRow;
  pool_attachments : gmap (Z * Z * Z) unit }.

Definition set_quotas (f : gmap string QuotaRow → gmap string QuotaRow) (d : db) : db :=
  mkDB (db_now d) (f (quotas d)) (connect_keys d) (preauthorized_keys d) (pools d) (accounts d) (hosts d)
    (contracts d) (contract_sectors_map d) (scanned_height d) (slabs d) (account_slabs d) (slab_sectors d)
    (sectors d) (objects d) (object_slabs d) (object_events d) (blocked_objects d) (slab_deletion_queue d)
    (stats_deltas d) (stats d) (sequences d) (contract_elements d) (globals d) (hosts_blocklist d)
    (host_addresses d) (account_hosts d) (pool_hosts d) (pool_attachments d).
Definition set_connect_keys (f : gmap Z ConnectKeyRow → gmap Z ConnectKeyRow) (d : db) : db :=
  mkDB (db_now d) (quotas d) (f (connect_keys d)) (preauthorized_keys d) (pools d) (accounts d) (hosts d)
    (contracts d) (contract_sectors_map d) (scanned_height d) (slabs d) (account_slabs d) (slab_sectors d)
    (sectors d) (objects d) (object_slabs d) (object_events d) (blocked_objects d) (slab_deletion_queue d)
    (stats_deltas d) (stats d) (sequences d) (contract_elements d) (globals d) (hosts_blocklist d)
    (host_addresses d) (account_hosts d) (pool_hosts d) (pool_attachments d).
Definition set_preauthorized_keys (f : gmap PublicKey PreauthRow → gmap PublicKey PreauthRow) (d : db) : db :=
  mkDB (db_now d) (quotas d) (connect_keys d) (f (preauthorized_keys d)) (pools d) (accounts d) (hosts d)
    (contracts d) (contract_sectors_map d) (scanned_height d) (slabs d) (account_slabs d) (slab_sectors d)
    (sectors d) (objects d) (object_slabs d) (object_events d) (blocked_objects d) (slab_deletion_queue d)
    (stats_deltas d) (stats d) (sequences d) (contract_elements d) (globals d) (hosts_blocklist d)
    (host_addresses d) (account_hosts d) (pool_hosts d) (pool_attachments d).
Definition set_pools (f : gmap Z PoolRow → gmap Z PoolRow) (d : db) : db :=
  mkDB (db_now d) (quotas d) (connect_keys d) (preauthorized_keys d) (f (pools d)) (accounts d) (hosts d)
    (contracts d) (contract_sectors_map d) (scanned_height d) (slabs d) (account_slabs d) (slab_sectors d)
    (sectors d) (objects d) (object_slabs d) (object_events d) (blocked_objects d) (slab_deletion_queue d)
    (stats_deltas d) (stats d) (sequences d) (contract_elements d) (globals d) (hosts_blocklist d)
    (host_addresses d) (account_hosts d) (pool_hosts d) (pool_attachments d).
Definition set_accounts (f : gmap Z AccountRow → gmap Z AccountRow) (d : db) : db :=
  mkDB (db_now d) (quotas d) (connect_keys d) (preauthorized_keys d) (pools d) (f (accounts d)) (hosts d)
    (contracts d) (contract_sectors_map d) (scanned_height d) (slabs d) (account_slabs d) (slab_sectors d)
    (sectors d) (objects d) (object_slabs d) (object_events d) (blocked_objects d) (slab_deletion_queue d)
    (stats_deltas d) (stats d) (sequences d) (contract_elements d) (globals d) (hosts_blocklist d)
    (host_addresses d) (account_hosts d) (pool_hosts d) (pool_attachments d).
Definition set_hosts (f : gmap Z HostRow → gmap Z HostRow) (d : db) : db :=
  mkDB (db_now d) (quotas d) (connect_keys d) (preauthorized_keys d) (pools d) (accounts d) (f (hosts d))
    (contracts d) (contract_sectors_map d) (scanned_height d) (slabs d) (account_slabs d) (slab_sectors d)
    (sectors d) (objects d) (object_slabs d) (object_events d) (blocked_objects d) (slab_deletion_queue d)
    (stats_deltas d) (stats d) (sequences d) (contract_elements d) (globals d) (hosts_blocklist d)
    (host_addresses d) (account_hosts d) (pool_hosts d) (pool_attachments d).
Definition set_contracts (f : gmap FileContractID ContractRow → gmap FileContractID ContractRow) (d : db) : db :=
  mkDB (db_now d) (quotas d) (connect_keys d) (preauthorized_keys d) (pools d) (accounts d) (hosts d)
    (f (contracts d)) (contract_sectors_map d) (scanned_height d) (slabs d) (account_slabs d) (slab_sectors d)
    (sectors d) (objects d) (object_slabs d) (object_events d) (blocked_objects d) (slab_deletion_queue d)
    (stats_deltas d) (stats d) (sequences d) (contract_elements d) (globals d) (hosts_blocklist d)
    (host_addresses d) (account_hosts d) (pool_hosts d) (pool_attachments d).
Definition set_contract_sectors_map (f : gmap Z FileContractID → gmap Z FileContractID) (d : db) : db :=
  mkDB (db_now d) (quotas d) (connect_keys d) (preauthorized_keys d) (pools d) (accounts d) (hosts d)
    (contracts d) (f (contract_sectors_map d)) (scanned_height d) (slabs d) (account_slabs d) (slab_sectors d)
    (sectors d) (objects d) (object_slabs d) (object_events d) (blocked_objects d) (slab_deletion_queue d)
    (stats_deltas d) (stats d) (sequences d) (contract_elements d) (globals d) (hosts_blocklist d)
    (host_addresses d) (account_hosts d) (pool_hosts d) (pool_attachments d).
Definition set_slabs (f : gmap Z SlabRow → gmap Z SlabRow) (d : db) : db :=
  mkDB (db_now d) (quotas d) (connect_keys d) (preauthorized_keys d) (pools d) (accounts d) (hosts d)
    (contracts d) (contract_sectors_map d) (scanned_height d) (f (slabs d)) (account_slabs d) (slab_sectors d)
    (sectors d) (objects d) (object_slabs d) (object_events d) (blocked_objects d) (slab_deletion_queue d)
    (stats_deltas d) (stats d) (sequences d) (contract_elements d) (globals d) (hosts_blocklist d)
    (host_addresses d) (account_hosts d) (pool_hosts d) (pool_attachments d).
Definition set_account_slabs (f : gmap (Z * Z) unit → gmap (Z * Z) unit) (d : db) : db :=
  mkDB (db_now d) (quotas d) (connect_keys d) (preauthorized_keys d) (pools d) (accounts d) (hosts d)
    (contracts d) (contract_sectors_map d) (scanned_height d) (slabs d) (f (account_slabs d)) (slab_sectors d)
    (sectors d) (objects d) (object_slabs d) (object_events d) (blocked_objects d) (slab_deletion_queue d)
    (stats_deltas d) (stats d) (sequences d) (contract_elements d) (globals d) (hosts_blocklist d)
    (host_addresses d) (account_hosts d) (pool_hosts d) (pool_attachments d).
Definition set_slab_sectors (f : gmap (Z * Z) Z → gmap (Z * Z) Z) (d : db) : db :=
  mkDB (db_now d) (quotas d) (connect_keys d) (preauthorized_keys d) (pools d) (accounts d) (hosts d)
    (contracts d) (contract_sectors_map d) (scanned_height d) (slabs d) (account_slabs d) (f (slab_sectors d))
    (sectors d) (objects d) (object_slabs d) (object_events d) (blocked_objects d) (slab_deletion_queue d)
    (stats_deltas d) (stats d) (sequences d) (contract_elements d) (globals d) (hosts_blocklist d)
    (host_addresses d) (account_hosts d) (pool_hosts d) (pool_attachments d).
Definition set_sectors (f : gmap Z SectorRow → gmap Z SectorRow) (d : db) : db :=
  mkDB (db_now d) (quotas d) (connect_keys d) (preauthorized_keys d) (pools d) (accounts d) (hosts d)
    (contracts d) (contract_sectors_map d) (scanned_height d) (slabs d) (account_slabs d) (slab_sectors d)
    (f (sectors d)) (objects d) (object_slabs d) (object_events d) (blocked_objects d) (slab_deletion_queue d)
    (stats_deltas d) (stats d) (sequences d) (contract_elements d) (globals d) (hosts_blocklist d)
    (host_addresses d) (account_hosts d) (pool_hosts d) (pool_attachments d).
Definition set_objects (f : gmap Z ObjectRow → gmap Z ObjectRow) (d : db) : db :=
  mkDB (db_now d) (quotas d) (connect_keys d) (preauthorized_keys d) (pools d) (accounts d) (hosts d)
    (contracts d) (contract_sectors_map d) (scanned_height d) (slabs d) (account_slabs d) (slab_sectors d)
    (sectors d) (f (objects d)) (object_slabs d) (object_events d) (blocked_objects d) (slab_deletion_queue d)
    (stats_deltas d) (stats d) (sequences d) (contract_elements d) (globals d) (hosts_blocklist d)
    (host_addresses d) (account_hosts d) (pool_hosts d) (pool_attachments d).
Definition set_object_slabs (f : gmap (Z * Z) ObjectSlabRow → gmap (Z * Z) ObjectSlabRow) (d : db) : db :=
  mkDB (db_now d) (quotas d) (connect_keys d) (preauthorized_keys d) (pools d) (accounts d) (hosts d)
    (contracts d) (contract_sectors_map d) (scanned_height d) (slabs d) (account_slabs d) (slab_sectors d)
    (sectors d) (objects d) (f (object_slabs d)) (object_events d) (blocked_objects d) (slab_deletion_queue d)
    (stats_deltas d) (stats d) (sequences d) (contract_elements d) (globals d) (hosts_blocklist d)
    (host_addresses d) (account_hosts d) (pool_hosts d) (pool_attachments d).
Definition set_object_events (f : gmap (Z * Hash256) EventRow → gmap (Z * Hash256) EventRow) (d : db) : db :=
  mkDB (db_now d) (quotas d) (connect_keys d) (preauthorized_keys d) (pools d) (accounts d) (hosts d)
    (contracts d) (contract_sectors_map d) (scanned_height d) (slabs d) (account_slabs d) (slab_sectors d)
    (sectors d) (objects d) (object_slabs d) (f (object_events d)) (blocked_objects d) (slab_deletion_queue d)
    (stats_deltas d) (stats d) (sequences d) (contract_elements d) (globals d) (hosts_blocklist d)
    (host_addresses d) (account_hosts d) (pool_hosts d) (pool_attachments d).
Definition set_blocked_objects (f : gmap Hash256 (string * Z) → gmap Hash256 (string * Z)) (d : db) : db :=
  mkDB (db_now d) (quotas d) (connect_keys d) (preauthorized_keys d) (pools d) (accounts d) (hosts d)
    (contracts d) (contract_sectors_map d) (scanned_height d) (slabs d) (account_slabs d) (slab_sectors d)
    (sectors d) (objects d) (object_slabs d) (object_events d) (f (blocked_objects d)) (slab_deletion_queue d)
    (stats_deltas d) (stats d) (sequences d) (contract_elements d) (globals d) (hosts_blocklist d)
    (host_addresses d) (account_hosts d) (pool_hosts d) (pool_attachments d).
Definition set_slab_deletion_queue (f : list (Z * Z) → list (Z * Z)) (d : db) : db :=
  mkDB (db_now d) (quotas d) (connect_keys d) (preauthorized_keys d) (pools d) (accounts d) (hosts d)
    (contracts d) (contract_sectors_map d) (scanned_height d) (slabs d) (account_slabs d) (slab_sectors d)
    (sectors d) (objects d) (object_slabs d) (object_events d) (blocked_objects d) (f (slab_deletion_queue d))
    (stats_deltas d) (stats d) (sequences d) (contract_elements d) (globals d) (hosts_blocklist d)
    (host_addresses d) (account_hosts d) (pool_hosts d) (pool_attachments d).
Definition set_stats_deltas (f : list (Z * (string * Z)) → list (Z * (string * Z))) (d : db) : db :=
  mkDB (db_now d) (quotas d) (connect_keys d) (preauthorized_keys d) (pools d) (accounts d) (hosts d)
    (contracts d) (contract_sectors_map d) (scanned_height d) (slabs d) (account_slabs d) (slab_sectors d)
    (sectors d) (objects d) (object_slabs d) (object_events d) (blocked_objects d) (slab_deletion_queue d)
    (f (stats_deltas d)) (stats d) (sequences d) (contract_elements d) (globals d) (hosts_blocklist d)
    (host_addresses d) (account_hosts d) (pool_hosts d) (pool_attachments d).
Definition set_stats (f : gmap string Z → gmap string Z) (d : db) : db :=
  mkDB (db_now d) (quotas d) (connect_keys d) (preauthorized_keys d) (pools d) (accounts d) (hosts d)
    (contracts d) (contract_sectors_map d) (scanned_height d) (slabs d) (account_slabs d) (slab_sectors d)
    (sectors d) (objects d) (object_slabs d) (object_events d) (blocked_objects d) (slab_deletion_queue d)
    (stats_deltas d) (f (stats d)) (sequences d) (contract_elements d) (globals d) (hosts_blocklist d)
    (host_addresses d) (account_hosts d) (pool_hosts d) (pool_attachments d).
Definition set_sequences (f : gmap string Z → gmap string Z) (d : db) : db :=
  mkDB (db_now d) (quotas d) (connect_keys d) (preauthorized_keys d) (pools d) (accounts d) (hosts d)
    (contracts d) (contract_sectors_map d) (scanned_height d) (slabs d) (account_slabs d) (slab_sectors d)
    (sectors d) (objects d) (object_slabs d) (object_events d) (blocked_objects d) (slab_deletion_queue d)
    (stats_deltas d) (stats d) (f (sequences d)) (contract_elements d) (globals d) (hosts_blocklist d)
    (host_addresses d) (account_hosts d) (pool_hosts d) (pool_attachments d).
Definition set_contract_elements (f : gmap FileContractID ElementRow → gmap FileContractID ElementRow) (d : db) : db :=
  mkDB (db_now d) (quotas d) (connect_keys d) (preauthorized_keys d) (pools d) (accounts d) (hosts d)
    (contracts d) (contract_sectors_map d) (scanned_height d) (slabs d) (account_slabs d) (slab_sectors d)
    (sectors d) (objects d) (object_slabs d) (object_events d) (blocked_objects d) (slab_deletion_queue d)
    (stats_deltas d) (stats d) (sequences d) (f (contract_elements d)) (globals d) (hosts_blocklist d)
    (host_addresses d) (account_hosts d) (pool_hosts d) (pool_attachments d).
Definition set_hosts_blocklist (f : gmap PublicKey (list string) → gmap PublicKey (list string)) (d : db) : db :=
  mkDB (db_now d) (quotas d) (connect_keys d) (preauthorized_keys d) (pools d) (accounts d) (hosts d)
    (contracts d) (contract_sectors_map d) (scanned_height d) (slabs d) (account_slabs d) (slab_sectors d)
    (sectors d) (objects d) (object_slabs d) (object_events d) (blocked_objects d) (slab_deletion_queue d)
    (stats_deltas d) (stats d) (sequences d) (contract_elements d) (globals d) (f (hosts_blocklist d))
    (host_addresses d) (account_hosts d) (pool_hosts d) (pool_attachments d).
Definition set_host_addresses (f : list (Z * (Z * NetAddress)) → list (Z * (Z * NetAddress))) (d : db) : db :=
  mkDB (db_now d) (quotas d) (connect_keys d) (preauthorized_keys d) (pools d) (accounts d) (hosts d)
    (contracts d) (contract_sectors_map d) (scanned_height d) (slabs d) (account_slabs d) (slab_sectors d)
    (sectors d) (objects d) (object_slabs d) (object_events d) (blocked_objects d) (slab_deletion_queue d)
    (stats_deltas d) (stats d) (sequences d) (contract_elements d) (globals d) (hosts_blocklist d)
    (f (host_addresses d)) (account_hosts d) (pool_hosts d) (pool_attachments d).
Definition set_account_hosts (f : gmap (Z * Z) FundRow → gmap (Z * Z) FundRow) (d : db) : db :=
  mkDB (db_now d) (quotas d) (connect_keys d) (preauthorized_keys d) (pools d) (accounts d) (hosts d)
    (contracts d) (contract_sectors_map d) (scanned_height d) (slabs d) (account_slabs d) (slab_sectors d)
    (sectors d) (objects d) (object_slabs d) (object_events d) (blocked_objects d) (slab_deletion_queue d)
    (stats_deltas d) (stats d) (sequences d) (contract_elements d) (globals d) (hosts_blocklist d)
    (host_addresses d) (f (account_hosts d)) (pool_hosts d) (pool_attachments d).
Definition set_pool_hosts (f : gmap (Z * Z) FundRow → gmap (Z * Z) FundRow) (d : db) : db :=
  mkDB (db_now d) (quotas d) (connect_keys d) (preauthorized_keys d) (pools d) (accounts d) (hosts d)
    (contracts d) (contract_sectors_map d) (scanned_height d) (slabs d) (account_slabs d) (slab_sectors d)
    (sectors d) (objects d) (object_slabs d) (object_events d) (blocked_objects d) (slab_deletion_queue d)
    (stats_deltas d) (stats d) (sequences d) (contract_elements d) (globals d) (hosts_blocklist d)
    (host_addresses d) (account_hosts d) (f (pool_hosts d)) (pool_attachments d).
Definition set_pool_attachments (f : gmap (Z * Z * Z) unit → gmap (Z * Z * Z) unit) (d : db) : db :=
  mkDB (db_now d) (quotas d) (connect_keys d) (preauthorized_keys d) (pools d) (accounts d) (hosts d)
    (contracts d) (contract_sectors_map d) (scanned_height d) (slabs d) (account_slabs d) (slab_sectors d)
    (sectors d) (objects d) (object_slabs d) (object_events d) (blocked_objects d) (slab_deletion_queue d)
    (stats_deltas d) (stats d) (sequences d) (contract_elements d) (globals d) (hosts_blocklist d)
    (host_addresses d) (account_hosts d) (pool_hosts d) (f (pool_attachments d)).

(** The defaults of [global_settings], before the settings of the host manager are set. *)
Definition default_globals : GlobalRow := mkGlobalRow false 50 (144 * 7 * 2) (144 * 7 * 6) None None None None None.

(** The time of the next transaction. *)
Definition at_time (t : Z) (d : db) : db :=
  mkDB t (quotas d) (connect_keys d) (preauthorized_keys d) (pools d) (accounts d) (hosts d)
    (contracts d) (contract_sectors_map d) (scanned_height d) (slabs d) (account_slabs d) (slab_sectors d)
    (sectors d) (objects d) (object_slabs d) (object_events d) (blocked_objects d) (slab_deletion_queue d)
    (stats_deltas d) (stats d) (sequences d) (contract_elements d) (globals d) (hosts_blocklist d)
    (host_addresses d) (account_hosts d) (pool_hosts d) (pool_attachments d).

(** ** Sums and lookups *)

Section tables.
Context {K : Type} `{HC : Countable K} {V : Type}.
Implicit Types (m : gmap K V) (f g : K → V → Z).

(** [SUM] over the rows of a table. *)
Definition msum f m : Z := map_fold (λ k v acc, f k v + acc)%Z 0%Z m.

Lemma msum_empty f : msum f ∅ = 0%Z.
Proof. apply map_fold_empty. Qed.
Lemma msum_insert f m k v : m !! k = None → msum f (<[k := v]> m) = (f k v + msum f m)%Z.
Proof. intros Hk. unfold msum. rewrite map_fold_insert_L; [done| |done]. intros. lia. Qed.
Lemma msum_delete f m k v : m !! k = Some v → msum f (delete k m) = (msum f m - f k v)%Z.
Proof.
  intros Hk. pose proof (msum_insert f (delete k m) k v (lookup_delete_eq _ _)) as Hi.
  rewrite insert_delete_id in Hi by done. lia.
Qed.
Lemma msum_update f m k v v' : m !! k = Some v → msum f (<[k := v']> m) = (msum f m - f k v + f k v')%Z.
Proof.
  intros Hk. rewrite <-insert_delete_eq, msum_insert by apply lookup_delete_eq. rewrite (msum_delete _ _ _ v) by done. lia.
Qed.
Lemma msum_ext f g m : (∀ k v, m !! k = Some v → f k v = g k v) → msum f m = msum g m.
Proof.
  induction m as [|k v m Hk IH] using map_ind; intros Hfg; [done|]. rewrite !msum_insert by done.
  rewrite (Hfg k v) by apply lookup_insert_eq. f_equal. apply IH. intros k' v' Hk'. apply Hfg.
  rewrite lookup_insert_ne; [done|congruence].
Qed.
Lemma msum_add f g m : msum (λ k v, f k v + g k v)%Z m = (msum f m + msum g m)%Z.
Proof. induction m as [|k v m Hk IH] using map_ind; [done|]. rewrite !msum_insert by done. lia. Qed.
Lemma msum_zero f m : (∀ k v, m !! k = Some v → f k v = 0%Z) → msum f m = 0%Z.
Proof.
  intros Hf. rewrite (msum_ext f (λ _ _, 0%Z)) by done. clear Hf.
  induction m as [|k v m Hk IH] using map_ind; [done|]. rewrite msum_insert by done. lia.
Qed.
Lemma msum_nonneg f m : (∀ k v, m !! k = Some v → (0 ≤ f k v)%Z) → (0 ≤ msum f m)%Z.
Proof.
  induction m as [|k v m Hk IH] using map_ind; intros Hf; [done|]. rewrite msum_insert by done.
  pose proof (Hf k v (lookup_insert_eq _ _ _)). apply Z.add_nonneg_nonneg; [done|]. apply IH. intros k' v' Hk'.
  apply (Hf k'). rewrite lookup_insert_ne; [done|congruence].
Qed.
(** One row at most can differ from zero. *)
Lemma msum_le_member f m k v : (∀ k v, m !! k = Some v → (0 ≤ f k v)%Z) → m !! k = Some v → (f k v ≤ msum f m)%Z.
Proof.
  intros Hf Hk. pose proof (msum_delete f m k v Hk) as Hd. assert (0 ≤ msum f (delete k m))%Z; [|lia].
  apply msum_nonneg. intros k' v' [_ Hk']%lookup_delete_Some. eauto.
Qed.

Lemma msum_single f m k v : m !! k = Some v → msum (λ k' v', if bool_decide (k' = k) then f k' v' else 0)%Z m = f k v.
Proof.
  intros Hk. pose proof (msum_delete (λ k' v', if bool_decide (k' = k) then f k' v' else 0)%Z m k v Hk) as Hd. cbn beta in Hd.
  rewrite bool_decide_eq_true_2 in Hd by done. rewrite (msum_zero _ (delete k m)) in Hd; [lia|]. intros k' v' [Hne _]%lookup_delete_Some.
  by rewrite bool_decide_eq_false_2 by congruence.
Qed.

(** A sum over the rows whose key projects into a list, taken element by element. *)
Definition lsum {A} (f : A → Z) (l : list A) : Z := foldr (λ x acc, f x + acc)%Z 0%Z l.
Lemma lsum_ext {A} (f g : A → Z) l : (∀ x, x ∈ l → f x = g x) → lsum f l = lsum g l.
Proof.
  induction l as [|x l IH]; intros Hfg; [done|]. simpl. rewrite Hfg by left. f_equal. apply IH. intros y Hy. apply Hfg. by right.
Qed.
Lemma msum_list {A} `{EqDecision A} (π : K → A) f m l :
  NoDup l → msum (λ k v, if bool_decide (π k ∈ l) then f k v else 0)%Z m =
    lsum (λ x, msum (λ k v, if bool_decide (π k = x) then f k v else 0)%Z m) l.
Proof.
  induction 1 as [|x l Hx Hl IH].
  - apply msum_zero. intros k v _. rewrite bool_decide_eq_false_2; [done|]. by intros ?%elem_of_nil.
  - simpl. rewrite <-IH, <-msum_add. apply msum_ext. intros k v _.
    destruct (bool_decide_reflect (π k ∈ x :: l)) as [Hin|Hin], (bool_decide_reflect (π k = x)) as [He|He], (bool_decide_reflect (π k ∈ l)) as [Hk|Hk];
      rewrite ?elem_of_cons in Hin; try lia; try tauto; congruence.
Qed.

Lemma msum_size m : msum (λ _ _, 1%Z) m = Z.of_nat (size m).
Proof. induction m as [|k v m Hk IH] using map_ind; [done|]. rewrite msum_insert, map_size_insert_None by done. lia. Qed.

(** Counting rows. *)
Lemma msum_count_exists (P : K → V → bool) m :
  msum (λ k v, if P k v then 1 else 0)%Z m ≠ 0%Z → ∃ k v, m !! k = Some v ∧ P k v = true.
Proof.
  induction m as [|k v m Hk IH] using map_ind; [by rewrite msum_empty|]. rewrite msum_insert by done. destruct (P k v) eqn:HP.
  - intros _. exists k, v. by rewrite lookup_insert_eq.
  - intros Hn. destruct IH as (k' & v' & Hk' & HP'); [lia|]. exists k', v'. rewrite lookup_insert_ne by congruence. done.
Qed.
Lemma msum_count_unique (P : K → V → bool) m :
  (∀ k v k' v', m !! k = Some v → m !! k' = Some v' → P k v = true → P k' v' = true → k = k') →
  (msum (λ k v, if P k v then 1 else 0) m ≤ 1)%Z.
Proof.
  intros Hu. destruct (decide (msum (λ k v, if P k v then 1 else 0)%Z m = 0%Z)) as [->|Hn]; [lia|].
  destruct (msum_count_exists P m Hn) as (k & v & Hk & HP). pose proof (msum_delete (λ k v, if P k v then 1 else 0)%Z m k v Hk) as Hd.
  cbn beta in Hd. rewrite HP in Hd. rewrite (msum_zero _ (delete k m)) in Hd; [lia|].
  intros k' v' [Hne Hk']%lookup_delete_Some. destruct (P k' v') eqn:HP'; [|done]. destruct Hne. by eapply Hu.
Qed.

(** The row that a condition on a unique column picks. *)
Definition find_row (P : K → V → bool) m : option (K * V) := list_find (λ p, P p.1 p.2 = true) (map_to_list m) ≫= λ p, Some p.2.

Lemma find_row_Some P m k v : find_row P m = Some (k, v) → m !! k = Some v ∧ P k v = true.
Proof.
  unfold find_row. destruct (list_find _ _) as [[i [k' v']]|] eqn:Hf; [|done]. intros [= -> ->].
  apply list_find_Some in Hf as (Hi & HP & _). split; [|done]. apply elem_of_map_to_list. by eapply list_elem_of_lookup_2.
Qed.
Lemma find_row_None P m : find_row P m = None → ∀ k v, m !! k = Some v → P k v = false.
Proof.
  unfold find_row. destruct (list_find _ _) as [[i [k' v']]|] eqn:Hf; [done|]. intros _ k v Hk.
  apply list_find_None in Hf. rewrite Forall_forall in Hf. apply not_true_iff_false, (Hf (k, v)). by apply elem_of_map_to_list.
Qed.
Lemma find_row_unique P m k v :
  m !! k = Some v → P k v = true → (∀ k' v', m !! k' = Some v' → P k' v' = true → k' = k) → find_row P m = Some (k, v).
Proof.
  intros Hk HP Hu. destruct (find_row P m) as [[k' v']|] eqn:Hf.
  - apply find_row_Some in Hf as [Hk' HP']. assert (k' = k) as -> by eauto. congruence.
  - rewrite (find_row_None _ _ Hf _ _ Hk) in HP. done.
Qed.

(** [EXISTS (SELECT 1 FROM m WHERE P)] *)
Definition exists_row (P : K → V → bool) m : bool := bool_decide (is_Some (find_row P m)).
Lemma exists_row_true P m : exists_row P m = true ↔ ∃ k v, m !! k = Some v ∧ P k v = true.
Proof.
  unfold exists_row. rewrite bool_decide_eq_true. split.
  - intros [[k v] Hf%find_row_Some]. eauto.
  - intros (k & v & Hk & HP). destruct (find_row P m) eqn:Hf; [by eexists|]. by rewrite (find_row_None _ _ Hf _ _ Hk) in HP.
Qed.
Lemma exists_row_false P m : exists_row P m = false ↔ ∀ k v, m !! k = Some v → P k v = false.
Proof.
  rewrite <-not_true_iff_false, exists_row_true. split.
  - intros Hn k v Hk. apply not_true_iff_false. intros HP. apply Hn. eauto.
  - intros Hn (k & v & Hk & HP). by rewrite (Hn _ _ Hk) in HP.
Qed.

(** Delete the rows of a condition. *)
Definition delete_rows (P : K → V → bool) m : gmap K V := filter (λ p, P p.1 p.2 = false) m.
Lemma delete_rows_lookup P m k v : delete_rows P m !! k = Some v ↔ m !! k = Some v ∧ P k v = false.
Proof. unfold delete_rows. apply map_lookup_filter_Some. Qed.

(** The sum over what is left and what was deleted. *)
Lemma msum_delete_rows f P m : msum f (delete_rows P m) = (msum f m - msum (λ k v, if P k v then f k v else 0) m)%Z.
Proof.
  induction m as [|k v m Hk IH] using map_ind.
  { unfold delete_rows. rewrite map_filter_empty, !msum_empty. done. }
  rewrite !msum_insert by done. unfold delete_rows in *. rewrite map_filter_insert. simpl. destruct (P k v) eqn:HP.
  - rewrite decide_False by done. rewrite delete_id by done. rewrite IH. lia.
  - rewrite decide_True by done. rewrite msum_insert; [rewrite IH; lia|]. rewrite map_lookup_filter_None. by left.
Qed.
End tables.

(** ** Statements *)

(** The errors of PostgreSQL that the program tells apart, and those of the schema. *)
Definition foreign_key_violation : string := "23503".
Definition unique_violation : string := "23505".
Definition check_violation : string := "23514".
Definition numeric_value_out_of_range : string := "22003".
Definition ErrNoRows : string := "no rows in result set".

Section statements.
Local Open Scope go_scope.

(** [s.transaction(fn)]: the statements run on the tables as they are, and take
    effect together or not at all. *)
Definition transaction {S A} (fn : M S A) : M S A := λ d,
  match fn d with
  | (Ok a, d') => (Ok a, d')
  | (r, _) => (r, d)
  end.

(** A constraint of the schema. *)
Definition require {S} (b : bool) (code : string) : M S unit := if b then mret tt else throw (ESentinel code).

(** A value that is written to a BIGINT or SMALLINT column. *)
Definition bigint {S} (z : Z) : M S unit := require (bool_decide (is_i64 z)) numeric_value_out_of_range.
Definition smallint {S} (z : Z) : M S unit := require (bool_decide (- 32768 ≤ z < 32768)%Z) numeric_value_out_of_range.

(** The next value of a sequence. *)
Definition currval (table : string) (d : db) : Z := default 0%Z (sequences d !! table).
Definition nextval (table : string) : M db Z := λ d,
  let n := (currval table d + 1)%Z in (Ok n, set_sequences (insert table n) d).

(** ** Statistics (stats.go) *)

Definition statSlabs : string := "num_slabs".
Definition statMigratedSectors : string := "num_migrated_sectors".
Definition statPinnedSectors : string := "num_pinned_sectors".
Definition statUnpinnableSectors : string := "num_unpinnable_sectors".
Definition statUnpinnedSectors : string := "num_unpinned_sectors".
Definition statSectorsChecked : string := "num_sectors_checked".
Definition statSectorsLost : string := "num_sectors_lost".
Definition statSectorsCheckFailed : string := "num_sectors_check_failed".
Definition statAccountsRegistered : string := "num_accounts_registered".

Definition sum_deltas (name : string) (l : list (Z * (string * Z))) : Z :=
  foldr (λ p acc, (if String.eqb p.2.1 name then p.2.2 else 0) + acc)%Z 0%Z l.

(** [sqlStatSelect]: the checkpoint and the deltas that are not flushed. *)
Definition stat (name : string) (d : db) : Z := (default 0 (stats d !! name) + sum_deltas name (stats_deltas d))%Z.

Definition incrementStat (name : string) (delta : Z) : M db unit :=
  if (delta =? 0)%Z then mret tt
  else
    bigint delta ;;
    let* id := nextval "stats_deltas" in
    modify (set_stats_deltas (λ l, l ++ [(id, (name, delta))])).

(** The deltas are in the order of their identifiers. *)
Definition FlushStatsDelta (limit : nat) : M db bool :=
  transaction (
    let* d := get in
    let batch := take limit (stats_deltas d) in
    modify (set_stats_deltas (drop limit)) ;;
    modify (set_stats (map_imap (λ name v, Some (v + sum_deltas name batch)%Z))) ;;
    let* d := get in
    require (bool_decide (map_Forall (λ _ v, (0 ≤ v)%Z) (stats d))) check_violation ;;
    mret (bool_decide (stats_deltas d ≠ []))).

Definition incrementHostUnpinnedSectors (hostID delta : Z) : M db unit :=
  let* d := get in
  match hosts d !! hostID with
  | None => mret tt
  | Some h =>
      let n := (h_unpinned_sectors h + delta)%Z in
      require (bool_decide (- 2 ^ 31 ≤ n < 2 ^ 31)%Z) numeric_value_out_of_range ;;
      require (0 <=? n)%Z check_violation ;;
      modify (set_hosts (insert hostID (with_unpinned n h)))
  end.

(** Sorted by host, which makes no difference to the result. *)
Definition incrementHostsUnpinnedSectors (deltas : list (Z * Z)) : M db unit :=
  forM deltas (λ '(hostID, delta), incrementHostUnpinnedSectors hostID delta).
End statements.

(** ** What a transaction that commits has done

    [commits m Q d]: if [m] succeeds on the tables [d], its result and the new tables
    satisfy [Q]. An error undoes a transaction, so that its outcome need not be known. *)

Definition commits {S A} (m : M S A) (Q : A → S → Prop) (d : S) : Prop := ∀ a d', m d = (Ok a, d') → Q a d'.

Section commits.
Local Open Scope go_scope.
Context {S : Type}.

Lemma commits_bind {A B} (m : M S A) (f : A → M S B) Q d :
  commits m (λ a, commits (f a) Q) d → commits (bindM m f) Q d.
Proof. intros Hm b d' (a & d1 & H1 & H2)%bindM_ok. by eapply Hm. Qed.
Lemma commits_assoc {A B D} (m : M S A) (f : A → M S B) (g : B → M S D) Q d :
  commits (bindM (bindM m f) g) Q d → commits (bindM m (λ a, bindM (f a) g)) Q d.
Proof. intros Hm a d' H. apply Hm. by rewrite bindM_assoc. Qed.
Lemma commits_mono {A} (m : M S A) (Q Q' : A → S → Prop) d :
  commits m Q d → (∀ a d', Q a d' → Q' a d') → commits m Q' d.
Proof. intros Hm HQ a d' H. by apply HQ, Hm. Qed.
Lemma commits_and {A} (m : M S A) (Q Q' : A → S → Prop) d :
  commits m Q d → commits m Q' d → commits m (λ a d', Q a d' ∧ Q' a d') d.
Proof. intros HQ HQ' a d' H. split; [by apply HQ|by apply HQ']. Qed.
Lemma commits_ret {A} (a : A) (Q : A → S → Prop) d : Q a d → commits (mret a) Q d.
Proof. by intros HQ a' d' [= <- <-]. Qed.
Lemma commits_throw {A} e (Q : A → S → Prop) d : commits (throw e) Q d.
Proof. by intros a d'. Qed.
Lemma commits_panic {A} (Q : A → S → Prop) d : commits panic Q d.
Proof. by intros a d'. Qed.
Lemma commits_get (Q : S → S → Prop) d : Q d d → commits get Q d.
Proof. by intros HQ a d' [= <- <-]. Qed.
Lemma commits_modify f (Q : unit → S → Prop) d : Q tt (f d) → commits (modify f) Q d.
Proof. by intros HQ [] d' [= <-]. Qed.
Lemma commits_require b code (Q : unit → S → Prop) d : (b = true → Q tt d) → commits (require b code) Q d.
Proof. unfold require. destruct b; intros HQ; [apply commits_ret, HQ, eq_refl|apply commits_throw]. Qed.
Lemma commits_bigint z (Q : unit → S → Prop) d : (is_i64 z → Q tt d) → commits (bigint z) Q d.
Proof. intros HQ. apply commits_require. intros Hz%bool_decide_eq_true. by apply HQ. Qed.
Lemma commits_smallint z (Q : unit → S → Prop) d : ((- 32768 ≤ z < 32768)%Z → Q tt d) → commits (smallint z) Q d.
Proof. intros HQ. apply commits_require. intros Hz%bool_decide_eq_true. by apply HQ. Qed.
Lemma commits_wrapM {A} pre (m : M S A) Q d : commits m Q d → commits (wrapM pre m) Q d.
Proof. intros Hm a d' H. by eapply Hm, wrapM_ok. Qed.
Lemma commits_transaction {A} (m : M S A) Q d : commits m Q d → commits (transaction m) Q d.
Proof. intros Hm a d'. unfold transaction. destruct (m d) as [[x|e|] d1] eqn:E; [|done..]. intros [= <- <-]. by apply Hm. Qed.
Lemma commits_nextval table (Q : Z → db → Prop) d :
  Q (currval table d + 1)%Z (set_sequences (insert table (currval table d + 1)%Z) d) → commits (nextval table) Q d.
Proof. by intros HQ a d' [= <- <-]. Qed.
Lemma commits_forM {A} (I : S → Prop) (l : list A) f d :
  I d → (∀ x d, x ∈ l → I d → commits (f x) (λ _, I) d) → commits (forM l f) (λ _, I) d.
Proof.
  revert d. induction l as [|x l IH]; intros d HI Hf; simpl; [by apply commits_ret|]. apply commits_bind.
  eapply commits_mono; [apply Hf; [left|done]|]. intros [] d1 H1. apply IH; [done|]. intros y d2 Hy. apply Hf. by right.
Qed.
(** An invariant of the elements that are done. *)
Lemma commits_foldM {A B} (I : list A → B → S → Prop) (l : list A) f acc d :
  I [] acc d → (∀ done x acc d, done ++ [x] `prefix_of` l → I done acc d → commits (f acc x) (I (done ++ [x])) d) →
  commits (foldM f acc l) (I l) d.
Proof.
  intros HI Hf. assert (∀ todo done acc d, done ++ todo = l → I done acc d → commits (foldM f acc todo) (I l) d) as Hgen.
  { induction todo as [|x todo IH]; intros ok acc1 d1 Hl H1; simpl.
    - rewrite app_nil_r in Hl. subst ok. by apply commits_ret.
    - apply commits_bind. eapply commits_mono; [apply Hf; [|exact H1]|].
      + exists todo. by rewrite <-app_assoc.
      + intros acc2 d2 H2. apply (IH (ok ++ [x])); [|done]. by rewrite <-app_assoc. }
  by apply (Hgen l []).
Qed.
Lemma commits_try {A} (m : M S A) (Q : result A → S → Prop) d :
  commits m (λ a, Q (Ok a)) d → (∀ r d', (∀ a, r ≠ Ok a) → Q r d') → commits (try m) Q d.
Proof.
  intros Hm Hr r d'. unfold try. destruct (m d) as [[a|e|] d1] eqn:E; intros [= <- <-]; [by apply Hm|by apply Hr..].
Qed.
Lemma commits_if {A} (b : bool) (m m' : M S A) Q d :
  (b = true → commits m Q d) → (b = false → commits m' Q d) → commits (if b then m else m') Q d.
Proof. destruct b; auto. Qed.

(** The next statement after one whose outcome is known. *)
Lemma run_ok {A B} (m : M S A) (f : A → M S B) d a d1 : m d = (Ok a, d1) → bindM m f d = f a d1.
Proof. unfold bindM, mbind, M_bind. by intros ->. Qed.
Lemma run_err {A B} (m : M S A) (f : A → M S B) d e d1 : m d = (Err e, d1) → bindM m f d = (Err e, d1).
Proof. unfold bindM, mbind, M_bind. by intros ->. Qed.
(** A transaction that fails changes nothing. *)
Lemma transaction_fails {A} (m : M S A) s r s' : transaction m s = (r, s') → (∀ a, r ≠ Ok a) → s' = s.
Proof. unfold transaction. destruct (m s) as [[a|e|] s1]; intros [= <- <-] Hr; [by destruct (Hr a)|done..]. Qed.
End commits.

(** One statement. *)
Ltac tx_step :=
  match goal with
  | |- commits (bindM _ _) _ _ => apply commits_bind
  | |- commits (mret _) _ _ => apply commits_ret
  | |- commits (throw _) _ _ => apply commits_throw
  | |- commits panic _ _ => apply commits_panic
  | |- commits get _ _ => apply commits_get
  | |- commits (modify _) _ _ => apply commits_modify
  | |- commits (bigint _) _ _ => apply commits_bigint; intros ?
  | |- commits (smallint _) _ _ => apply commits_smallint; intros ?
  | |- commits (require _ _) _ _ => apply commits_require; intros ?
  | |- commits (wrapM _ _) _ _ => apply commits_wrapM
  | |- commits (transaction _) _ _ => apply commits_transaction
  | |- commits (nextval _) _ _ => apply commits_nextval
  | |- commits (if ?b then _ else _) _ _ => destruct b eqn:?
  | |- commits (match ?x with _ => _ end) _ _ => destruct x eqn:?
  end.
Ltac tx_steps := repeat tx_step.

(** *** Statistics *)

Lemma sum_deltas_app name l l' : sum_deltas name (l ++ l') = (sum_deltas name l + sum_deltas name l')%Z.
Proof. induction l as [|p l IH]; simpl; [done|]. rewrite IH. lia. Qed.

(** Only the statistics and the counters of hosts differ. *)
Record counted (d d' : db) : Prop := {
  cn_tables : d' = set_stats_deltas (λ _, stats_deltas d') (set_hosts (λ _, hosts d') (set_sequences (λ _, sequences d') d));
  cn_hosts : ∀ h, h_public_key <$> hosts d' !! h = h_public_key <$> hosts d !! h;
  cn_seq : ∀ t, t ≠ "stats_deltas"%string → currval t d' = currval t d }.

Lemma counted_refl d : counted d d.
Proof. split; [by destruct d|done..]. Qed.
Lemma counted_trans d1 d2 d3 : counted d1 d2 → counted d2 d3 → counted d1 d3.
Proof.
  intros [E1 H1 S1] [E2 H2 S2]. split.
  - rewrite E2 at 1. rewrite E1. done.
  - intros h. by rewrite H2.
  - intros t Ht. by rewrite S2, S1.
Qed.

Lemma incrementStat_counted name delta d :
  commits (incrementStat name delta) (λ _ d', counted d d' ∧ hosts d' = hosts d ∧
    ∀ n, stat n d' = stat n d + if String.eqb name n then delta else 0)%Z d.
Proof.
  unfold incrementStat. destruct (Z.eqb_spec delta 0) as [->|Hd].
  - tx_step. split; [apply counted_refl|]. split; [done|]. intros n. destruct (String.eqb _ _); lia.
  - tx_steps. split; [|split; [done|]].
    + split; [done..|]. intros t Ht. unfold currval. cbn. by rewrite lookup_insert_ne.
    + intros n. unfold stat. cbn [stats stats_deltas set_stats_deltas set_sequences]. rewrite sum_deltas_app. simpl.
      destruct (String.eqb name n); lia.
Qed.

Lemma incrementHost_counted hostID delta d :
  commits (incrementHostUnpinnedSectors hostID delta) (λ _ d', counted d d' ∧ (∀ n, stat n d' = stat n d) ∧
    ∀ h r, hosts d !! h = Some r → ∃ r', hosts d' !! h = Some r' ∧
      h_unpinned_sectors r' = (h_unpinned_sectors r + if (hostID =? h)%Z then delta else 0)%Z) d.
Proof.
  unfold incrementHostUnpinnedSectors. tx_steps.
  - split; [|split; [done|]].
    + split; [done| |done]. cbn. intros k. destruct (decide (k = hostID)) as [->|Hh].
      * rewrite lookup_insert_eq. by rewrite Heqo.
      * by rewrite lookup_insert_ne.
    + intros h' r Hr. cbn. destruct (Z.eqb_spec hostID h') as [->|Hne].
      * rewrite lookup_insert_eq. eexists. split; [done|]. cbn. congruence.
      * rewrite lookup_insert_ne by done. exists r. split; [done|]. lia.
  - split; [apply counted_refl|]. split; [done|]. intros h r Hr. exists r. split; [done|].
    destruct (Z.eqb_spec hostID h) as [->|]; [congruence|lia].
Qed.

Definition sum_for (h : Z) (deltas : list (Z * Z)) : Z := foldr (λ p acc, (if (p.1 =? h)%Z then p.2 else 0) + acc)%Z 0%Z deltas.
#[global] Arguments sum_for : simpl never.
Lemma sum_for_app h l l' : sum_for h (l ++ l') = (sum_for h l + sum_for h l')%Z.
Proof. unfold sum_for. induction l as [|p l IH]; simpl; [done|]. rewrite IH. lia. Qed.
Lemma sum_for_cons h p l : sum_for h (p :: l) = ((if (p.1 =? h)%Z then p.2 else 0) + sum_for h l)%Z.
Proof. done. Qed.

Lemma incrementHosts_counted deltas d :
  commits (incrementHostsUnpinnedSectors deltas) (λ _ d', counted d d' ∧ (∀ n, stat n d' = stat n d) ∧
    ∀ h r, hosts d !! h = Some r → ∃ r', hosts d' !! h = Some r' ∧
      h_unpinned_sectors r' = (h_unpinned_sectors r + sum_for h deltas)%Z) d.
Proof.
  unfold incrementHostsUnpinnedSectors. revert d. induction deltas as [|[host delta] deltas IH]; intros d; simpl.
  - tx_step. split; [apply counted_refl|]. split; [done|]. intros h r Hr. exists r. split; [done|]. unfold sum_for. simpl. lia.
  - tx_step. eapply commits_mono; [apply incrementHost_counted|]. cbn beta. intros _ d1 (Hc1 & Hs1 & Hh1).
    eapply commits_mono; [apply IH|]. cbn beta. intros _ d2 (Hc2 & Hs2 & Hh2).
    split; [by eapply counted_trans|]. split; [intros n; by rewrite Hs2|].
    intros h r Hr. destruct (Hh1 _ _ Hr) as (r1 & Hr1 & E1). destruct (Hh2 _ _ Hr1) as (r2 & Hr2 & E2).
    exists r2. split; [done|]. rewrite E2, E1, sum_for_cons. simpl. lia.
Qed.

(** Flushing moves the deltas into the checkpoint: what is read stays the same. *)
Lemma flush_keeps_stats limit d :
  (∀ p, p ∈ stats_deltas d → is_Some (stats d !! p.2.1)) →
  commits (FlushStatsDelta limit) (λ more d', (∀ n, stat n d' = stat n d) ∧ (more = true ↔ limit < length (stats_deltas d))) d.
Proof.
  intros Hfk. unfold FlushStatsDelta. tx_steps. cbn in *. split.
  - intros n. unfold stat. cbn [stats stats_deltas set_stats_deltas set_stats]. rewrite map_lookup_imap.
    assert (sum_deltas n (stats_deltas d) = sum_deltas n (take limit (stats_deltas d)) + sum_deltas n (drop limit (stats_deltas d)))%Z as ->
      by (rewrite <-sum_deltas_app; by rewrite take_drop).
    destruct (stats d !! n) as [v|] eqn:Hn; simpl; [lia|]. enough (sum_deltas n (take limit (stats_deltas d)) = 0%Z) by lia.
    assert (∀ p, p ∈ take limit (stats_deltas d) → p.2.1 ≠ n) as Hne.
    { intros p Hp Heq. destruct (Hfk p) as [v Hv]; [|congruence]. rewrite <-(take_drop limit (stats_deltas d)). apply elem_of_app. by left. }
    clear H. induction (take limit (stats_deltas d)) as [|p l IH]; [done|]. simpl. destruct (String.eqb_spec p.2.1 n) as [He|_].
    + exfalso. by apply (Hne p); [left|].
    + rewrite IH; [done|]. intros q Hq. apply Hne. by right.
  - rewrite bool_decide_eq_true. rewrite <-length_zero_iff_nil, length_drop. lia.
Qed.

(** ** Pages

    The first rows in an order, up to a limit. *)

Lemma page_prefix (l : list Z) n x i :
  StronglySorted Z.le l → last (take n l) = Some x → i ∈ l → (i ≤ x)%Z → i ∈ take n l.
Proof.
  intros Hs Hlast Hin Hi. rewrite <-(take_drop n l) in Hin, Hs. apply elem_of_app in Hin as [|Hin]; [done|].
  apply last_Some_elem_of in Hlast as Hl. rewrite StronglySorted_app in Hs. destruct Hs as (Hs & _).
  assert (x ≤ i)%Z as Hle by (by apply Hs). by replace i with x by lia.
Qed.
Lemma sorted_sort (l : list Z) : StronglySorted Z.le (merge_sort Z.le l).
Proof. apply StronglySorted_merge_sort; apply _. Qed.

Lemma elem_of_concat {A} (ls : list (list A)) x : x ∈ concat ls ↔ ∃ l, l ∈ ls ∧ x ∈ l.
Proof.
  rewrite list_elem_of_In, in_concat. split; intros (l & H1 & H2); exists l; revert H1 H2; rewrite <-!list_elem_of_In; auto.
Qed.

(** A page of what is in several lists needs no more than a page of each. *)
Lemma merged_page n (ls : list (list Z)) x i :
  Forall (λ l, StronglySorted Z.le l ∧ NoDup l) ls →
  last (take n (merge_sort Z.le (concat (take n <$> ls)))) = Some x → i ∈ concat ls → (i ≤ x)%Z →
  i ∈ take n (merge_sort Z.le (concat (take n <$> ls))).
Proof.
  intros Hls Hlast Hin Hi. apply elem_of_concat in Hin as (l & Hl & Hil).
  rewrite Forall_forall in Hls. destruct (Hls _ Hl) as [Hsort Hnd]. set (m := merge_sort Z.le (concat (take n <$> ls))) in *.
  assert (∀ y, y ∈ take n l → y ∈ m) as Hm.
  { intros y Hy. unfold m. rewrite merge_sort_Permutation. apply elem_of_concat. exists (take n l). split; [|done].
    by apply list_elem_of_fmap_2. }
  assert (StronglySorted Z.le m) as Hms by apply sorted_sort.
  rewrite <-(take_drop n l) in Hil, Hsort. apply elem_of_app in Hil as [Hil|Hil]; [by eapply page_prefix; eauto|].
  exfalso. rewrite StronglySorted_app in Hsort. destruct Hsort as (Hle & _). rewrite <-(take_drop n l) in Hnd. apply NoDup_app in Hnd as (Hnd & Hdisj & _).
  assert (∀ y, y ∈ take n l → (y < x)%Z) as Hlt.
  { intros y Hy. pose proof (Hle y i Hy Hil). assert (y ≠ i) by (intros ->; by destruct (Hdisj i)). lia. }
  assert (length (drop n l) > 0) as Hlen by (destruct (drop n l); [by apply elem_of_nil in Hil|simpl; lia]). rewrite length_drop in Hlen.
  assert (x :: take n l ⊆+ take n m) as Hsub.
  { apply NoDup_submseteq.
    - constructor; [|done]. intros Hx%Hlt. lia.
    - intros y [->|Hy]%elem_of_cons; [by apply last_Some_elem_of|]. eapply page_prefix; [done..|by apply Hm|]. apply Hlt in Hy. lia. }
  apply submseteq_length in Hsub. simpl in Hsub. rewrite !length_take in Hsub. lia.
Qed.
