(* ===== verification/SlabTables.v ===== *)
(** * Slabs and objects in the database (src/persist/postgres/sectors.go, slabs.go,
    objects.go, accounts.go)

    The transactions that pin and unpin slabs, attach them to objects, and delete
    what nobody refers to any more, with the totals they keep for accounts and
    connect keys and the statistics of sectors. *)

From S2P Require Import Prelude Float Encoding External Slabs Objects Accounts App Tables.

Definition minRepairBackoff : Z := Hour.
Definition maxRepairBackoff : Z := 24 * Hour.
(** 0.2 as a [float64] *)
Definition maxBadParityShards : float64 := of_decimal 2 1.

Definition ErrAccountStorageLimitExceeded : string := "app storage limit exceeded".
Definition ErrAppKeyStorageLimitExceeded : string := "account storage limit exceeded".
Definition ErrObjectNotBlocked : string := "object is not blocked".
Definition ErrUnrecoverable : string := "slab is unrecoverable".

(** ** Rows of a join table

    [SELECT ... WHERE key = k ORDER BY index]: the rows of [k] in the order of their
    index. *)
Definition by_index {V} (p q : Z * V) : Prop := (p.1 ≤ q.1)%Z.
#[export] Instance by_index_dec {V} (p q : Z * V) : Decision (by_index p q).
Proof. unfold by_index. apply _. Defined.
Definition rows_of {V} (k : Z) (m : gmap (Z * Z) V) : list V :=
  (merge_sort by_index (omap (λ p, if (p.1.1 =? k)%Z then Some (p.1.2, p.2) else None) (map_to_list m))).*2.

Section store.
Local Open Scope go_scope.
Context {C : CurrencyOps} {R : RhpOps} {E : EncoderOps}.

(** ** Pinning slabs (sectors.go) *)

(** The hosts with a good contract. *)
Definition good_host (d : db) (hk : PublicKey) : bool :=
  exists_row (λ _ c,
    ((c_state c =? 0)%Z || (c_state c =? 1)%Z) && bool_decide (c_renewed_to c = None) && c_good c &&
    (scanned_height d <? c_proof_height c)%Z &&
    match hosts d !! c_host_id c with Some h => (h_public_key h =? hk)%N | None => false end) (contracts d).

(** The first loop: the digests of the slabs. *)
Fixpoint digests_of (toPin : list SlabPinParams) : M db (list SlabID) :=
  match toPin with
  | [] => mret []
  | slab :: toPin =>
      if (SP_MinShards slab <=? 0)%Z || (Z.of_nat (length (SP_Sectors slab)) <? SP_MinShards slab)%Z
      then throw (ESentinel ErrMinShards)
      else let* l := digests_of toPin in mret (SlabPinParams_Digest slab :: l)
  end.

Definition find_slab (digest : SlabID) (d : db) : option (Z * SlabRow) :=
  find_row (λ _ s, (sl_digest s =? digest)%N) (slabs d).

(** [INSERT INTO slabs ... ON CONFLICT (digest) DO UPDATE SET pinned_at = NOW()]: the
    identifier, and whether the slab was there. *)
Definition insert_slab (digest : SlabID) (slab : SlabPinParams) : M db (Z * bool) :=
  smallint (SP_MinShards slab) ;;
  smallint (SP_Version slab) ;;
  require ((0 <? SP_MinShards slab)%Z && (0 <=? SP_Version slab)%Z) check_violation ;;
  let* d := get in
  match find_slab digest d with
  | Some (id, s) =>
      modify (set_slabs (insert id (mkSlabRow (db_now d) (sl_digest s) (sl_encryption_key s) (sl_min_shards s) (sl_version s)
        (sl_consecutive_failed_repairs s) (sl_next_repair_attempt s)))) ;;
      mret (id, true)
  | None =>
      let* id := nextval "slabs" in
      modify (set_slabs (insert id (mkSlabRow (db_now d) digest (SP_EncryptionKey slab) (SP_MinShards slab) (SP_Version slab) 0 (db_now d)))) ;;
      mret (id, false)
  end.

(** [INSERT INTO account_slabs ... ON CONFLICT DO NOTHING]: whether a row was added. *)
Definition insert_account_slab (accountID slabID : Z) : M db bool :=
  let* d := get in
  match account_slabs d !! (accountID, slabID) with
  | Some _ => mret false
  | None => modify (set_account_slabs (insert (accountID, slabID) tt)) ;; mret true
  end.

Definition find_host (hostKey : PublicKey) (d : db) : option (Z * HostRow) :=
  find_row (λ _ h, (h_public_key h =? hostKey)%N) (hosts d).
Definition find_sector (root : Hash256) (d : db) : option (Z * SectorRow) :=
  find_row (λ _ s, (se_sector_root s =? root)%N) (sectors d).

(** [LEAST(NOW(), uploadedAt)], which ignores NULL. *)
Definition uploaded_at (now : Z) (uploadedAt : option Z) : Z := match uploadedAt with Some t => Z.min now t | None => now end.

(** The upsert of a sector: its identifier and host, whether it was inserted and
    whether it was bound to a host again; no row for a host that is not known. *)
Definition insert_sector (nextIntegrityCheck : Z) (sector : PinnedSector) : M db (option (Z * Z * bool * bool)) :=
  let* d := get in
  match find_host (PS_HostKey sector) d with
  | None => mret None
  | Some (host, _) =>
      let uploaded := uploaded_at (db_now d) (PS_UploadedAt sector) in
      match find_sector (PS_Root sector) d with
      | None =>
          let* id := nextval "sectors" in
          modify (set_sectors (insert id (mkSectorRow (PS_Root sector) (Some host) None uploaded nextIntegrityCheck 0 0))) ;;
          mret (Some (id, host, true, false))
      | Some (id, s) =>
          let h := default host (se_host_id s) in
          modify (set_sectors (insert id (mkSectorRow (se_sector_root s) (Some h) (se_contract_sectors_map_id s)
            (Z.max (se_uploaded_at s) uploaded) (se_next_integrity_check s) (se_consecutive_failed_checks s) (se_num_migrated s)))) ;;
          mret (Some (id, h, false, bool_decide (se_host_id s = None)))
      end
  end.

(** The variables of the loop over the sectors of a slab. *)
Record pin_counts := mkPinCounts {
  pin_badHosts : Z; pin_unpinned : Z; pin_rebound : Z; pin_deltas : list (Z * Z); pin_sectorIDs : list Z }.

Definition pin_sector (good : PublicKey → bool) (nextIntegrityCheck : Z) (c : pin_counts) (sector : PinnedSector) : M db pin_counts :=
  let* row := insert_sector nextIntegrityCheck sector in
  match row with
  | None => throw (EMsg "unknown host %q for sector")
  | Some (id, host, inserted, isRebound) =>
      let new := inserted || isRebound in
      mret (mkPinCounts (if good (PS_HostKey sector) then pin_badHosts c else pin_badHosts c + 1)
        (if new then pin_unpinned c + 1 else pin_unpinned c)
        (if isRebound then pin_rebound c + 1 else pin_rebound c)
        (if new then pin_deltas c ++ [(host, 1)] else pin_deltas c)
        (pin_sectorIDs c ++ [id]))%Z
  end.

(** [INSERT INTO slab_sectors ... ON CONFLICT (slab_id, slab_index) DO NOTHING]; the
    primary key is the slab and the sector. *)
Definition insert_slab_sector (slabID index sectorID : Z) : M db unit :=
  let* d := get in
  match slab_sectors d !! (slabID, index) with
  | Some _ => mret tt
  | None =>
      smallint index ;;
      require (negb (exists_row (λ k v, (k.1 =? slabID)%Z && (v =? sectorID)%Z) (slab_sectors d))) unique_violation ;;
      modify (set_slab_sectors (insert (slabID, index) sectorID))
  end.
Fixpoint insert_slab_sectors (slabID index : Z) (sectorIDs : list Z) : M db unit :=
  match sectorIDs with
  | [] => mret tt
  | id :: sectorIDs => insert_slab_sector slabID index id ;; insert_slab_sectors slabID (index + 1) sectorIDs
  end.

(** [SlabPinParams.DataSize] and [SlabPinParams.Size] *)
Definition DataSize (slab : SlabPinParams) : Z := u64 (SP_MinShards slab * SectorSize).
Definition Size (slab : SlabPinParams) : Z := u64 (Z.of_nat (length (SP_Sectors slab)) * SectorSize).

(** The loop over the slabs: what is newly pinned, and its size with redundancy. *)
Definition pin_slab (good : PublicKey → bool) (accountID nextIntegrityCheck : Z) (acc : Z * Z) (s : SlabID * SlabPinParams) : M db (Z * Z) :=
  let '(digest, slab) := s in
  let* r := insert_slab digest slab in
  let '(slabID, existingSlab) := r in
  let* added := insert_account_slab accountID slabID in
  let acc := if added then (u64 (acc.1 + DataSize slab), u64 (acc.2 + Size slab)) else acc in
  (if existingSlab then mret tt else incrementStat statSlabs 1) ;;
  let* c := foldM (pin_sector good nextIntegrityCheck) (mkPinCounts 0 0 0 [] []) (SP_Sectors slab) in
  let parityShards := (Z.of_nat (length (SP_Sectors slab)) - SP_MinShards slab)%Z in
  if flt (fmul maxBadParityShards (of_int parityShards)) (of_int (pin_badHosts c)) then throw (ESentinel ErrBadHosts)
  else
    (if (0 <? pin_unpinned c)%Z then
       incrementStat statUnpinnedSectors (pin_unpinned c) ;; incrementHostsUnpinnedSectors (pin_deltas c)
     else mret tt) ;;
    (if (0 <? pin_rebound c)%Z then incrementStat statUnpinnableSectors (- pin_rebound c) else mret tt) ;;
    insert_slab_sectors slabID 0 (pin_sectorIDs c) ;;
    mret acc.

Definition find_account (account : PublicKey) (d : db) : option (Z * AccountRow) :=
  find_row (λ _ a, (a_public_key a =? account)%N) (accounts d).

(** The totals of an account or a connect key. *)
Definition add_account_pinned (data size : Z) (a : AccountRow) : AccountRow :=
  mkAccountRow (a_public_key a) (a_connect_key_id a) (a_pinned_data a + data) (a_pinned_size a + size) (a_max_pinned_data a)
    (a_app a) (a_last_used a) (a_deleted_at a).
Definition add_key_pinned (data size : Z) (k : ConnectKeyRow) : ConnectKeyRow :=
  mkConnectKeyRow (ck_user_secret k) (ck_app_key k) (ck_use_description k) (ck_quota_name k) (ck_created_at k) (ck_updated_at k)
    (ck_last_used k) (ck_pinned_data k + data) (ck_pinned_size k + size).

(** [UPDATE accounts SET pinned_data = pinned_data + $1, ... WHERE id = $3] *)
Definition add_to_account (id data size : Z) : M db AccountRow :=
  let* d := get in
  match accounts d !! id with
  | None => throw (ESentinel ErrNoRows)
  | Some a =>
      let a := add_account_pinned data size a in
      bigint (a_pinned_data a) ;; bigint (a_pinned_size a) ;;
      require ((0 <=? a_pinned_data a)%Z && (0 <=? a_pinned_size a)%Z) check_violation ;;
      modify (set_accounts (insert id a)) ;;
      mret a
  end.
Definition add_to_key (id data size : Z) : M db ConnectKeyRow :=
  let* d := get in
  match connect_keys d !! id with
  | None => throw (ESentinel ErrNoRows)
  | Some k =>
      let k := add_key_pinned data size k in
      bigint (ck_pinned_data k) ;; bigint (ck_pinned_size k) ;;
      require ((0 <=? ck_pinned_data k)%Z && (0 <=? ck_pinned_size k)%Z) check_violation ;;
      modify (set_connect_keys (insert id k)) ;;
      mret k
  end.

Definition tables_PinSlabs (account : PublicKey) (nextIntegrityCheck : Z) (toPin : list SlabPinParams) : M db (list SlabID) :=
  transaction (
    let* d := get in
    match find_account account d with
    | None => throw (ESentinel Accounts.ErrNotFound)
    | Some (accountID, a) =>
        let* digests := digests_of toPin in
        let* new := foldM (pin_slab (good_host d) accountID nextIntegrityCheck) (0, 0)%Z (zip digests toPin) in
        let '(newPinnedData, newPinnedSize) := new in
        bigint newPinnedData ;; bigint newPinnedSize ;;
        let* a := wrapM "failed to update account's pinned data: " (add_to_account accountID newPinnedData newPinnedSize) in
        if (a_max_pinned_data a <? a_pinned_data a)%Z then throw (ESentinel ErrAccountStorageLimitExceeded)
        else
          let* k := wrapM "failed to update connect key's pinned data: " (add_to_key (a_connect_key_id a) newPinnedData newPinnedSize) in
          let* d := get in
          match quotas d !! ck_quota_name k with
          | None => throw (EWrap "failed to update connect key's pinned data: " (ESentinel ErrNoRows) "")
          | Some q => if (q_max_pinned_data q <? ck_pinned_data k)%Z then throw (ESentinel ErrAppKeyStorageLimitExceeded) else mret digests
          end
    end).

(** ** Unpinning slabs *)

(** The slab is attached to an object of the account. *)
Definition referenced (accountID : Z) (digest : SlabID) (d : db) : bool :=
  exists_row (λ k os, (os_slab_digest os =? digest)%N &&
    match objects d !! k.1 with Some o => (o_account_id o =? accountID)%Z | None => false end) (object_slabs d).

Definition pinned_by (accountID slabID : Z) (d : db) : bool := bool_decide (is_Some (account_slabs d !! (accountID, slabID))).

Definition enqueue (slabID : Z) : M db unit :=
  let* id := nextval "slab_deletion_queue" in
  modify (set_slab_deletion_queue (λ l, l ++ [(id, slabID)])).

Definition unpinSlabs (accountID : Z) (sIDs : list Z) : M db unit :=
  let* d := get in
  let unpinned := filter (λ s, pinned_by accountID s d = true) (remove_dups sIDs) in
  modify (set_account_slabs (delete_rows (λ k _, (k.1 =? accountID)%Z && bool_decide (k.2 ∈ sIDs)))) ;;
  if bool_decide (unpinned = []) then mret tt
  else
    let pinnedDataDelta := (msum (λ id s, if bool_decide (id ∈ unpinned) then sl_min_shards s else 0) (slabs d) * SectorSize)%Z in
    let pinnedSizeDelta := (msum (λ k _, if bool_decide (k.1 ∈ unpinned) then 1 else 0) (slab_sectors d) * SectorSize)%Z in
    bigint pinnedDataDelta ;; bigint pinnedSizeDelta ;;
    let* a := wrapM "failed to update account's pinned data: " (add_to_account accountID (- pinnedDataDelta) (- pinnedSizeDelta)) in
    (match a_deleted_at a with
     | None => let* _ := wrapM "failed to update connect key pinned data: "
                 (add_to_key (a_connect_key_id a) (- pinnedDataDelta) (- pinnedSizeDelta)) in mret tt
     | Some _ => mret tt
     end) ;;
    forM unpinned enqueue.

(** Pinned by the account before the cutoff, and attached to none of its objects. *)
Definition unpinnable_by (accountID : Z) (cutoff : option Z) (d : db) (id : Z) : bool :=
  match slabs d !! id with
  | Some s => pinned_by accountID id d && (match cutoff with Some t => (sl_pinned_at s <? t)%Z | None => true end) &&
              negb (referenced accountID (sl_digest s) d)
  | None => false
  end.

Definition unpinUnreferencedSlabs (accountID : Z) (sIDs : list Z) (cutoff : option Z) : M db unit :=
  let* d := get in
  let toUnpin := filter (λ id, unpinnable_by accountID cutoff d id = true) (remove_dups sIDs) in
  if bool_decide (toUnpin = []) then mret tt else unpinSlabs accountID toUnpin.

Definition accountID (account : PublicKey) : M db (Z * bool) :=
  let* d := get in
  match find_account account d with
  | None => throw (ESentinel Accounts.ErrNotFound)
  | Some (id, a) => mret (id, bool_decide (is_Some (a_deleted_at a)))
  end.

Definition tables_UnpinSlab (account : PublicKey) (slabID : SlabID) : M db unit :=
  transaction (
    let* r := wrapM "failed to get account ID: " (accountID account) in
    let id := r.1 in
    let* d := get in
    match find_slab slabID d with
    | None => throw (ESentinel ErrSlabNotFound)
    | Some (sID, _) =>
        if negb (pinned_by id sID d) then throw (ESentinel ErrSlabNotFound)
        else if referenced id slabID d then throw (ESentinel ErrSlabInUse)
        else wrapM "failed to unpin slab: " (unpinSlabs id [sID])
    end).

(** *** PruneSlabs (slabs.go) *)

Definition prune_batchSize : nat := 100.

(** [getSlabs]: the identifiers after the cursor, in order. *)
Definition prunable_slabs (id cursor cutoff : Z) (limit : nat) (d : db) : list Z :=
  take limit (merge_sort Z.le (omap (λ p : Z * SlabRow,
    if pinned_by id p.1 d && (cursor <? p.1)%Z && (sl_pinned_at p.2 <? cutoff)%Z && negb (referenced id (sl_digest p.2) d)
    then Some p.1 else None) (map_to_list (slabs d)))).

(** One batch: the next cursor, and whether it was the last one. *)
Definition prune_batch (id cursor cutoff : Z) : M db (Z * bool) :=
  transaction (
    let* d := get in
    let candidates := prunable_slabs id cursor cutoff prune_batchSize d in
    let exhausted := Nat.ltb (length candidates) prune_batchSize in
    match last candidates with
    | None => mret (cursor, exhausted)
    | Some nextCursor => unpinUnreferencedSlabs id candidates (Some cutoff) ;; mret (nextCursor, exhausted)
    end).

Fixpoint prune_batches (fuel : nat) (id cursor cutoff : Z) : M db (option unit) :=
  match fuel with
  | O => mret None
  | S fuel =>
      let* r := prune_batch id cursor cutoff in
      let '(cursor, exhausted) := r in
      if exhausted then mret (Some tt) else prune_batches fuel id cursor cutoff
  end.

Definition tables_PruneSlabs (fuel : nat) (account : PublicKey) (cutoff : Z) : M db (option unit) :=
  let* r := transaction (wrapM "failed to get account ID: " (accountID account)) in
  prune_batches fuel r.1 0 cutoff.

(** ** Deleting what nobody refers to *)

(** The sectors that only slabs of [toDelete] use. *)
Definition candidate_sector (toDelete : list Z) (d : db) (sectorID : Z) : bool :=
  exists_row (λ k v, (v =? sectorID)%Z && bool_decide (k.1 ∈ toDelete)) (slab_sectors d) &&
  negb (exists_row (λ k v, (v =? sectorID)%Z && negb (bool_decide (k.1 ∈ toDelete))) (slab_sectors d)).

(** What a sector counts as: pinned to a contract, on a host only, or neither. *)
Definition is_pinned (s : SectorRow) : bool := bool_decide (is_Some (se_contract_sectors_map_id s)).
Definition is_unpinned (s : SectorRow) : bool := negb (is_pinned s) && bool_decide (is_Some (se_host_id s)).
Definition is_unpinnable (s : SectorRow) : bool := negb (is_pinned s) && negb (is_unpinned s).
(** The unpinned sectors of a host. *)
Definition unpinned_on (host : Z) (s : SectorRow) : bool := is_unpinned s && bool_decide (se_host_id s = Some host).

Definition count_if (P : Z → SectorRow → bool) (d : db) : Z := msum (λ id s, if P id s then 1 else 0)%Z (sectors d).

Definition host_deltas (P : Z → SectorRow → bool) (d : db) : list (Z * Z) :=
  omap (λ h, let n := count_if (λ id s, P id s && unpinned_on h s) d in if (n =? 0)%Z then None else Some (h, (- n)%Z))
    (map_to_list (hosts d)).*1.

(** Neither pinned by an account nor attached to an object. *)
Definition deletable (d : db) (id : Z) : bool :=
  match slabs d !! id with
  | Some s => negb (exists_row (λ k _, (k.2 =? id)%Z) (account_slabs d)) &&
              negb (exists_row (λ _ os, (os_slab_digest os =? sl_digest s)%N) (object_slabs d))
  | None => false
  end.

Definition deleteOrphanedSlabs (sIDs : list Z) : M db unit :=
  let* d := get in
  let toDelete := filter (λ id, deletable d id = true) (remove_dups sIDs) in
  let gone id (_ : SectorRow) := candidate_sector toDelete d id in
  let pinned := count_if (λ id s, gone id s && is_pinned s) d in
  let unpinned := count_if (λ id s, gone id s && is_unpinned s) d in
  let unpinnable := count_if (λ id s, gone id s && is_unpinnable s) d in
  modify (set_sectors (delete_rows gone)) ;;
  modify (set_slab_sectors (delete_rows (λ _ v, candidate_sector toDelete d v))) ;;
  modify (set_slabs (delete_rows (λ id _, bool_decide (id ∈ toDelete)))) ;;
  modify (set_slab_sectors (delete_rows (λ k _, bool_decide (k.1 ∈ toDelete)))) ;;
  incrementStat statPinnedSectors (- pinned) ;;
  incrementStat statUnpinnedSectors (- unpinned) ;;
  incrementStat statUnpinnableSectors (- unpinnable) ;;
  incrementHostsUnpinnedSectors (host_deltas gone d) ;;
  incrementStat statSlabs (- Z.of_nat (length toDelete)).

(** [PruneDeletedSlabs] (accounts.go) *)
Definition tables_PruneDeletedSlabs (limit : Z) : M db Z :=
  if (limit <? 0)%Z then throw (EMsg "limit can not be negative")
  else transaction (
    let* d := get in
    let batch := take (Z.to_nat limit) (slab_deletion_queue d) in
    if bool_decide (batch = []) then mret 0%Z
    else
      wrapM "failed to delete orphaned slabs: " (deleteOrphanedSlabs (remove_dups batch.*2)) ;;
      modify (set_slab_deletion_queue (filter (λ p, p.1 ∉ batch.*1))) ;;
      mret (Z.of_nat (length batch))).

(** ** Accounts (accounts.go) *)

(** Not deleted. *)
Definition is_live (a : AccountRow) : bool := bool_decide (a_deleted_at a = None).

Definition delete_account_row (now : Z) (a : AccountRow) : AccountRow :=
  mkAccountRow (a_public_key a) (a_connect_key_id a) (a_pinned_data a) (a_pinned_size a) (a_max_pinned_data a) (a_app a)
    (a_last_used a) (Some now).

Definition tables_DeleteAccount (acc : PublicKey) : M db unit :=
  transaction (
    let* r := try (
      let* d := get in
      match find_account acc d with
      | Some (id, a) =>
          if bool_decide (a_deleted_at a = None) then
            modify (set_accounts (insert id (delete_account_row (db_now d) a))) ;;
            let* _ := add_to_key (a_connect_key_id a) (- a_pinned_data a) (- a_pinned_size a) in mret tt
          else throw (ESentinel ErrNoRows)
      | None => throw (ESentinel ErrNoRows)
      end) in
    match r with
    | Ok _ => mret tt
    | Err e => if errors_Is e ErrNoRows then throw (ESentinel Accounts.ErrNotFound) else throw (EWrap "failed to delete account: " e "")
    | Panic => panic
    end).

(** The soft-deleted account that was deleted first. *)
Definition first_deleted (d : db) : option Z :=
  snd <$> head (merge_sort (λ p q : Z * Z, (p.1 ≤ q.1)%Z)
    (omap (λ p : Z * AccountRow, (λ t, (t, p.1)) <$> a_deleted_at p.2) (map_to_list (accounts d)))).

Definition objects_of (accountID : Z) (d : db) : list Z :=
  merge_sort Z.le (omap (λ p : Z * ObjectRow, if (o_account_id p.2 =? accountID)%Z then Some p.1 else None) (map_to_list (objects d))).
Definition slabs_of (accountID : Z) (d : db) : list Z :=
  merge_sort Z.le (omap (λ p : Z * Z * unit, if (p.1.1 =? accountID)%Z then Some p.1.2 else None) (map_to_list (account_slabs d))).

(** [DELETE FROM objects], with the rows that reference them. *)
Definition delete_objects (ids : list Z) : M db unit :=
  modify (set_objects (delete_rows (λ id _, bool_decide (id ∈ ids)))) ;;
  modify (set_object_slabs (delete_rows (λ k _, bool_decide (k.1 ∈ ids)))).

(** [DELETE FROM accounts]: objects and slabs refer to an account without a cascade,
    the rows of events, hosts and attachments go with it. *)
Definition delete_account (accountID : Z) : M db unit :=
  let* d := get in
  require (negb (exists_row (λ _ o, (o_account_id o =? accountID)%Z) (objects d)) &&
           negb (exists_row (λ k _, (k.1 =? accountID)%Z) (account_slabs d))) foreign_key_violation ;;
  modify (set_object_events (delete_rows (λ k _, (k.1 =? accountID)%Z))) ;;
  modify (set_account_hosts (delete_rows (λ k _, (k.1 =? accountID)%Z))) ;;
  modify (set_pool_attachments (delete_rows (λ k _, (k.2 =? accountID)%Z))) ;;
  modify (set_accounts (delete accountID)).

Definition tables_PruneAccounts (limit : Z) : M db unit :=
  if (limit <? 0)%Z then throw (EMsg "limit can not be negative")
  else
    transaction (
      let* d := get in
      match first_deleted d with
      | None => throw (ESentinel Accounts.ErrNotFound)
      | Some accountID =>
          let objs := take (Z.to_nat limit) (objects_of accountID d) in
          delete_objects objs ;;
          let remaining := (limit - Z.of_nat (length objs))%Z in
          if (remaining =? 0)%Z then mret tt
          else
            let queued := take (Z.to_nat remaining) (slabs_of accountID d) in
            modify (set_account_slabs (delete_rows (λ k _, (k.1 =? accountID)%Z && bool_decide (k.2 ∈ queued)))) ;;
            forM queued enqueue ;;
            if (Z.of_nat (length queued) =? remaining)%Z then mret tt
            else
              wrapM "failed to delete account: " (delete_account accountID) ;;
              wrapM "failed to decrement account count: " (incrementStat statAccountsRegistered (-1))
      end).

(** ** Objects (objects.go, blocked.go) *)

Definition assertObjectNotBlocked (key : Hash256) : M db unit :=
  let* d := get in
  match blocked_objects d !! key with Some _ => throw (ESentinel ErrObjectBlocked) | None => mret tt end.

(** [date_trunc('second', NOW())] *)
Definition this_second (d : db) : Z := (db_now d / Second * Second)%Z.

Definition find_object (accountID : Z) (key : Hash256) (d : db) : option (Z * ObjectRow) :=
  find_row (λ _ o, (o_account_id o =? accountID)%Z && (o_object_key o =? key)%N) (objects d).

(** The upsert of an object, with the constraints of its columns. *)
Definition upsert_object (accountID : Z) (obj : PinObjectRequest) : M db Z :=
  let metaKey := match PR_EncryptedMetadataKey obj with [] => None | l => Some l end in
  let meta := match PR_EncryptedMetadata obj with [] => None | l => Some l end in
  require (Nat.eqb (length (PR_EncryptedDataKey obj)) 72 &&
           match metaKey with Some k => Nat.eqb (length k) 72 | None => true end) check_violation ;;
  let* d := get in
  let row created := mkObjectRow (PR_ID obj) accountID (PR_EncryptedDataKey obj) metaKey meta (PR_DataSignature obj)
    (PR_MetadataSignature obj) created (db_now d) in
  let unique id := negb (exists_row (λ id' o, negb (id' =? id)%Z &&
    (bool_decide (o_encrypted_data_key o = PR_EncryptedDataKey obj) ||
     (bool_decide (is_Some metaKey) && bool_decide (o_encrypted_meta_key o = metaKey)) ||
     (o_data_signature o =? PR_DataSignature obj)%N || (o_meta_signature o =? PR_MetadataSignature obj)%N)) (objects d)) in
  match find_object accountID (PR_ID obj) d with
  | Some (id, o) =>
      require (unique id) unique_violation ;;
      modify (set_objects (insert id (row (o_created_at o)))) ;; mret id
  | None =>
      let* id := nextval "objects" in
      require (unique id) unique_violation ;;
      modify (set_objects (insert id (row (db_now d)))) ;; mret id
  end.

(** The rows of [object_slabs] for the slabs of an object; INTEGER columns. *)
Fixpoint insert_object_slabs (objectID index : Z) (l : list ObjectSlab) : M db unit :=
  match l with
  | [] => mret tt
  | s :: l =>
      require (bool_decide (OS_Offset s < 2 ^ 31)%Z && bool_decide (OS_Length s < 2 ^ 31)%Z) numeric_value_out_of_range ;;
      let* d := get in
      require (bool_decide (is_Some (find_slab (OS_ID s) d))) foreign_key_violation ;;
      modify (set_object_slabs (insert (objectID, index) (mkObjectSlabRow (OS_ID s) (OS_Offset s) (OS_Length s)))) ;;
      insert_object_slabs objectID (index + 1) l
  end.

(** How many of the slabs the account has pinned. *)
Definition pinned_count (accountID : Z) (digests : list SlabID) (d : db) : Z :=
  msum (λ k _, if (k.1 =? accountID)%Z &&
    match slabs d !! k.2 with Some s => bool_decide (sl_digest s ∈ digests) | None => false end then 1 else 0)%Z (account_slabs d).

Definition tables_PinObject (account : PublicKey) (obj : PinObjectRequest) : M db unit :=
  transaction (
    let* r := accountID account in
    let '(accountID, deleted) := r in
    if deleted then throw (ESentinel Accounts.ErrNotFound)
    else
      assertObjectNotBlocked (PR_ID obj) ;;
      let* objectID := wrapM "failed to insert object: " (upsert_object accountID obj) in
      let* d := get in
      modify (set_object_events (insert (accountID, PR_ID obj) (mkEventRow false (this_second d)))) ;;
      let seen := remove_dups (OS_ID <$> PR_Slabs obj) in
      if negb (pinned_count accountID seen d =? Z.of_nat (length seen))%Z then throw (ESentinel ErrObjectUnpinnedSlab)
      else
        modify (set_object_slabs (delete_rows (λ k _, (k.1 =? objectID)%Z))) ;;
        wrapM "failed to insert slabs for object: " (insert_object_slabs objectID 0 (PR_Slabs obj))).

Definition touch_events (P : Z * Hash256 → bool) (f : EventRow → EventRow) : M db unit :=
  modify (set_object_events (map_imap (λ k e, Some (if P k then f e else e)))).

Definition tables_DeleteObject (account : PublicKey) (objectKey : Hash256) : M db unit :=
  transaction (
    let* r := accountID account in
    let id := r.1 in
    let* d := get in
    match find_object id objectKey d with
    | None => throw (ESentinel ErrObjectNotFound)
    | Some (objectID, _) =>
        let digests := os_slab_digest <$> rows_of objectID (object_slabs d) in
        let objectSlabIDs := omap (λ p : Z * SlabRow, if bool_decide (sl_digest p.2 ∈ digests) then Some p.1 else None) (map_to_list (slabs d)) in
        delete_objects [objectID] ;;
        touch_events (λ k, (k.1 =? id)%Z && (k.2 =? objectKey)%N) (λ _, mkEventRow true (this_second d)) ;;
        unpinUnreferencedSlabs id objectSlabIDs None
    end).

(** *** Reading *)

(** The sectors of a slab, in order; a sector without a host has the zero key. *)
Definition host_key (d : db) (host : option Z) : option PublicKey := host ≫= λ h, h_public_key <$> hosts d !! h.
Definition slab_sector_rows (d : db) (slabID : Z) : list SectorRow :=
  omap (λ id, sectors d !! id) (rows_of slabID (slab_sectors d)).
Definition object_sectors (d : db) (slabID : Z) : list PinnedSector :=
  (λ s, mkPinnedSector (se_sector_root s) (default 0%N (host_key d (se_host_id s))) None) <$> slab_sector_rows d slabID.

Definition object_slices (d : db) (objectID : Z) : list SlabSlice :=
  omap (λ os, match find_slab (os_slab_digest os) d with
    | Some (id, s) => Some (mkSlice (sl_version s) (sl_encryption_key s) (sl_min_shards s) (object_sectors d id)
        (os_slab_offset os) (os_slab_length os))
    | None => None
    end) (rows_of objectID (object_slabs d)).

(** [scanObject] and [loadObjectSlabs] *)
Definition sealed_object (d : db) (objectID : Z) (o : ObjectRow) : SealedObject :=
  mkSealed (o_encrypted_data_key o) (object_slices d objectID) (o_data_signature o) (default [] (o_encrypted_meta_key o))
    (default [] (o_encrypted_metadata o)) (o_meta_signature o) (o_created_at o) (o_updated_at o).

Definition tables_Object (account : PublicKey) (key : Hash256) : M db SealedObject :=
  transaction (
    let* r := accountID account in
    assertObjectNotBlocked key ;;
    let* d := get in
    match find_object r.1 key d with
    | None => throw (ESentinel ErrObjectNotFound)
    | Some (objectID, o) => mret (sealed_object d objectID o)
    end).

Definition tables_SharedObject (key : Hash256) : M db SharedObject :=
  transaction (
    assertObjectNotBlocked key ;;
    let* d := get in
    match find_row (λ _ o, (o_object_key o =? key)%N) (objects d) with
    | None => throw (ESentinel ErrObjectNotFound)
    | Some (objectID, _) => mret (mkShared (object_slices d objectID))
    end).

(** The events of a page: ordered by time and key, after the cursor, before the
    current second, not blocked. *)
Definition event_le (p q : Z * Hash256 * EventRow) : Prop :=
  (e_updated_at p.2 < e_updated_at q.2)%Z ∨ e_updated_at p.2 = e_updated_at q.2 ∧ (p.1.2 ≤ q.1.2)%N.
#[local] Instance event_le_dec p q : Decision (event_le p q).
Proof. unfold event_le. apply _. Defined.
Definition event_after (cursor : Cursor) (p : Z * Hash256 * EventRow) : bool :=
  (After cursor <? e_updated_at p.2)%Z || ((After cursor =? e_updated_at p.2)%Z && (Cursor_Key cursor <? p.1.2)%N).
Definition event_page (d : db) (accountID : Z) (cursor : Cursor) (limit : nat) : list (Z * Hash256 * EventRow) :=
  take limit (merge_sort event_le (filter (λ p, (p.1.1 =? accountID)%Z && event_after cursor p &&
    (e_updated_at p.2 <? this_second d)%Z && bool_decide (blocked_objects d !! p.1.2 = None) = true) (map_to_list (object_events d)))).

Definition event_object (d : db) (accountID : Z) (p : Z * Hash256 * EventRow) : option (option SealedObject) :=
  if e_was_deleted p.2 then Some None
  else match find_object accountID p.1.2 d with Some (id, o) => Some (Some (sealed_object d id o)) | None => None end.

Definition tables_ListObjects (account : PublicKey) (cursor : Cursor) (limit : Z) : M db (list ObjectEvent) :=
  transaction (
    let* r := accountID account in
    let* d := get in
    match mapM (λ p, (λ o, mkEvent p.1.2 (e_was_deleted p.2) (e_updated_at p.2) o) <$> event_object d r.1 p)
            (event_page d r.1 cursor (Z.to_nat limit)) with
    | Some events => mret events
    | None => throw (EMsg "failed to query objects: expected %d objects, got %d")
    end).

(** [PinnedSlab] (slabs.go) *)
Definition tables_PinnedSlab (account : PublicKey) (slabID : SlabID) : M db PinnedSlab :=
  transaction (
    let* d := get in
    match find_slab slabID d, find_account account d with
    | Some (id, s), Some (a, _) =>
        if pinned_by a id d then
          let sectors := omap (λ s, (λ hk, mkPinnedSector (se_sector_root s) hk None) <$> host_key d (se_host_id s)) (slab_sector_rows d id) in
          if (Z.of_nat (length sectors) <? sl_min_shards s)%Z
          then throw (EWrap "recovery requires at least %d sectors, slab has %d sectors: " (ESentinel ErrUnrecoverable) "")
          else mret (mkPinnedSlab slabID (sl_version s) (sl_encryption_key s) (sl_min_shards s) sectors)
        else throw (ESentinel ErrSlabNotFound)
    | _, _ => throw (ESentinel ErrSlabNotFound)
    end).

Definition tables_SlabIDs (account : PublicKey) (offset limit : Z) : M db (list SlabID) :=
  if (offset <? 0)%Z then throw (EMsg "offset can not be negative")
  else if (limit <? 0)%Z then throw (EMsg "limit can not be negative")
  else if (limit =? 0)%Z then mret []
  else
    transaction (
      let* d := get in
      let pinned := omap (λ p : Z * SlabRow, match find_account account d with
        | Some (a, _) => if pinned_by a p.1 d then Some (sl_pinned_at p.2, sl_digest p.2) else None
        | None => None
        end) (map_to_list (slabs d)) in
      mret (take (Z.to_nat limit) (drop (Z.to_nat offset) (merge_sort (λ p q : Z * SlabID, (q.1 ≤ p.1)%Z) pinned).*2))).

(** ** Repairs (slabs.go) *)

(** [min(minRepairBackoff*time.Duration(1<<(currentFailures)), maxRepairBackoff)] *)
Definition repair_backoff (currentFailures : Z) : Z :=
  Z.min (i64 (minRepairBackoff * i64 (2 ^ currentFailures))) maxRepairBackoff.

Definition repair_row (s : SlabRow) (failures next : Z) : SlabRow :=
  mkSlabRow (sl_pinned_at s) (sl_digest s) (sl_encryption_key s) (sl_min_shards s) (sl_version s) failures next.

Definition tables_MarkSlabRepaired (time_Now : M db Z) (slabID : SlabID) (success : bool) : M db unit :=
  transaction (
    let* d := get in
    match find_slab slabID d with
    | None => throw (ESentinel ErrSlabNotFound)
    | Some (id, s) =>
        if success then modify (set_slabs (insert id (repair_row s 0 (sl_next_repair_attempt s))))
        else
          let* now := time_Now in
          smallint (sl_consecutive_failed_repairs s + 1) ;;
          modify (set_slabs (insert id (repair_row s (sl_consecutive_failed_repairs s + 1)
            (now + repair_backoff (sl_consecutive_failed_repairs s)))))
    end).

(** ** Blocked objects (blocked.go) *)

Definition tables_BlockObject (objectKey : Hash256) (reason : string) : M db unit :=
  transaction (
    let* d := get in
    let created := match blocked_objects d !! objectKey with Some (_, t) => t | None => db_now d end in
    modify (set_blocked_objects (insert objectKey (reason, created)))).

Definition tables_UnblockObject (objectKey : Hash256) : M db unit :=
  transaction (
    let* d := get in
    match blocked_objects d !! objectKey with
    | None => mret tt
    | Some _ =>
        modify (set_blocked_objects (delete objectKey)) ;;
        touch_events (λ k, (k.2 =? objectKey)%N) (λ e, mkEventRow (e_was_deleted e) (this_second d))
    end).

Definition tables_BlockedObject (objectKey : Hash256) : M db BlockedObject :=
  transaction (
    let* d := get in
    match blocked_objects d !! objectKey with
    | None => throw (ESentinel ErrObjectNotBlocked)
    | Some (reason, created) => mret (mkBlocked objectKey reason created)
    end).

Definition blocked_le (p q : BlockedObject) : Prop :=
  (BO_CreatedAt q < BO_CreatedAt p)%Z ∨ BO_CreatedAt p = BO_CreatedAt q ∧ (BO_Key p ≤ BO_Key q)%N.
#[local] Instance blocked_le_dec p q : Decision (blocked_le p q).
Proof. unfold blocked_le. apply _. Defined.
Definition tables_BlockedObjects (offset limit : Z) : M db (list BlockedObject) :=
  transaction (
    let* d := get in
    mret (take (Z.to_nat limit) (drop (Z.to_nat offset)
      (merge_sort blocked_le ((λ p, mkBlocked p.1 p.2.1 p.2.2) <$> map_to_list (blocked_objects d)))))).

(** ** Migrated slabs (sectors.go) *)

Definition tables_RecordSlabMigrated (slabID : SlabID) : M db unit :=
  transaction (
    let* d := get in
    let affected key := exists_row (λ k os, (os_slab_digest os =? slabID)%N &&
      match objects d !! k.1 with Some o => (o_object_key o =? key)%N | None => false end) (object_slabs d) in
    touch_events (λ k, affected k.2) (λ e, mkEventRow (e_was_deleted e) (this_second d))).
End store.

(** The backoff doubles up to a day; after 21 failures the product no longer fits, and
    the next repair is due in the past. *)
Lemma repair_backoff_wraps :
  (∀ f, (0 ≤ f < 22)%Z → repair_backoff f = Z.min (2 ^ f * Hour) (24 * Hour)) ∧ (repair_backoff 22 < 0)%Z ∧ repair_backoff 64 = 0%Z.
Proof.
  split; [|split; [vm_compute; reflexivity|vm_compute; reflexivity]].
  assert (Forall (λ n, repair_backoff (Z.of_nat n) = Z.min (2 ^ Z.of_nat n * Hour) (24 * Hour)) (seq 0 22)) as Hall
    by (apply (bool_decide_unpack _); vm_compute; exact I).
  intros f Hf. rewrite Forall_forall in Hall. specialize (Hall (Z.to_nat f)). rewrite Z2Nat.id in Hall by lia. apply Hall. apply elem_of_seq. lia.
Qed.
