(* ===== verification/SectorTables.v ===== *)
(** * Sectors in the database (src/persist/postgres/sectors.go)

    The transactions that move sectors between hosts and contracts, record their
    integrity checks, and find the slabs to repair. *)

From S2P Require Import Prelude Float Encoding External Contract Slabs Objects Accounts App Tables SlabTables.

Definition integrityCheckClaimInterval : Z := 30 * Minute.
Definition ErrContractNotFound : string := "contract not found".

Section store.
Local Open Scope go_scope.
Context {C : CurrencyOps} {R : RhpOps} {E : EncoderOps}.
(** The order in which the database returns rows when a statement does not say. *)
Context (order : ∀ {A}, list A → list A).
Arguments order {A} _.

(** [SELECT ... FROM sectors WHERE]: the rows with their identifiers. *)
Definition select_sectors (P : SectorRow → bool) (d : db) : list (Z * SectorRow) :=
  order (filter (λ p, P p.2 = true) (map_to_list (sectors d))).

(** [UPDATE sectors SET ... WHERE id = ANY(ids)] *)
Definition update_sectors (ids : list Z) (f : SectorRow → SectorRow) : M db unit :=
  modify (set_sectors (map_imap (λ id s, Some (if bool_decide (id ∈ ids) then f s else s)))).

Definition count_rows (P : SectorRow → bool) (rows : list (Z * SectorRow)) : Z := lsum (λ p, if P p.2 then 1 else 0)%Z rows.

(** [scanSectorIDs]: identifiers, and how many are pinned, unpinned and unpinnable *)
Definition scanSectorIDs (rows : list (Z * SectorRow)) : list Z * Z * Z * Z :=
  (rows.*1, count_rows is_pinned rows, count_rows is_unpinned rows, count_rows is_unpinnable rows).

(** [COALESCE(c.proof_height > g.scanned_height, TRUE)] *)
Definition is_lost (d : db) (s : SectorRow) : bool :=
  match se_contract_sectors_map_id s ≫= λ m, contract_sectors_map d !! m ≫= λ id, contracts d !! id with
  | Some c => (scanned_height d <? c_proof_height c)%Z
  | None => true
  end.
Definition scanLostSectorIDs (d : db) (rows : list (Z * SectorRow)) : list Z * Z * Z * Z :=
  (rows.*1, count_rows is_pinned rows, count_rows (λ s, negb (is_pinned s)) rows, count_rows (is_lost d) rows).

Definition updateSectorStats (pinnedDelta unpinnedDelta unpinnableDelta lostDelta : Z) : M db unit :=
  wrapM "failed to update pinned sectors: " (incrementStat statPinnedSectors pinnedDelta) ;;
  wrapM "failed to update unpinned sectors: " (incrementStat statUnpinnedSectors unpinnedDelta) ;;
  wrapM "failed to update unpinnable sectors: " (incrementStat statUnpinnableSectors unpinnableDelta) ;;
  wrapM "failed to update sectors lost: " (incrementStat statSectorsLost (i64 (u64 lostDelta))).

(** [UPDATE hosts SET lost_sectors = lost_sectors + $1 WHERE id = $2] *)
Definition add_lost_sectors (hostID lost : Z) : M db unit :=
  let* d := get in
  match hosts d !! hostID with
  | None => mret tt
  | Some h =>
      let n := (h_lost_sectors h + lost)%Z in
      require (bool_decide (- 2 ^ 31 ≤ n < 2 ^ 31)%Z) numeric_value_out_of_range ;;
      modify (set_hosts (insert hostID (with_lost n h)))
  end.

(** Sectors lose their host and their contract. *)
Definition detach (s : SectorRow) : SectorRow :=
  mkSectorRow (se_sector_root s) None None (se_uploaded_at s) (se_next_integrity_check s) (se_consecutive_failed_checks s) (se_num_migrated s).

(** What [MarkSectorsLost] and [markFailingSectorsLostBatch] do with their rows: how
    many sectors were detached. *)
Definition mark_lost (hostID : Z) (rows : list (Z * SectorRow)) : M db Z :=
  let* d := get in
  let '(sectorIDs, pinned, unpinned, lost) := scanLostSectorIDs d rows in
  if bool_decide (sectorIDs = []) then mret 0%Z
  else
    let detached := (pinned + unpinned)%Z in
    update_sectors sectorIDs detach ;;
    wrapM "failed to increment host's lost sectors: " (add_lost_sectors hostID lost) ;;
    wrapM "failed to update sector stats: " (updateSectorStats (- pinned) (- unpinned) detached lost) ;;
    wrapM "failed to update host %v unpinned sectors: " (incrementHostUnpinnedSectors hostID (- unpinned)) ;;
    mret detached.

Definition on_host (hostID : Z) (s : SectorRow) : bool := bool_decide (se_host_id s = Some hostID).

Definition tables_MarkSectorsLost (hostKey : PublicKey) (roots : list Hash256) : M db unit :=
  if bool_decide (roots = []) then mret tt
  else
    transaction (
      let* d := get in
      match find_host hostKey d with
      | None => throw (EWrap "failed to get host ID: " (ESentinel ErrNoRows) "")
      | Some (hostID, _) =>
          let* _ := mark_lost hostID (select_sectors (λ s, on_host hostID s && bool_decide (se_sector_root s ∈ roots)) d) in mret tt
      end).

Definition markFailingSectorsLostBatch (hostKey : PublicKey) (maxChecks : Z) (batchSize : nat) : M db Z :=
  transaction (
    let* d := get in
    match find_host hostKey d with
    | None => throw (EWrap "failed to get host ID: " (ESentinel ErrNoRows) "")
    | Some (hostID, _) =>
        mark_lost hostID (take batchSize (select_sectors (λ s, on_host hostID s && (maxChecks <=? se_consecutive_failed_checks s)%Z) d))
    end).

Fixpoint tables_MarkFailingSectorsLost (fuel : nat) (hostKey : PublicKey) (maxChecks : Z) : M db (option unit) :=
  match fuel with
  | O => mret None
  | Datatypes.S fuel =>
      let* updated := markFailingSectorsLostBatch hostKey maxChecks 1000 in
      if (updated <? 1000)%Z then mret (Some tt) else tables_MarkFailingSectorsLost fuel hostKey maxChecks
  end.

(** ** Pinning sectors to a contract *)

(** [host_id] refers to a row of hosts. *)
Definition host_exists (hostID : Z) : M db unit :=
  let* d := get in require (bool_decide (is_Some (hosts d !! hostID))) foreign_key_violation.

Definition attach (hostID contractMapID : Z) (s : SectorRow) : SectorRow :=
  mkSectorRow (se_sector_root s) (Some hostID) (Some contractMapID) (se_uploaded_at s) (se_next_integrity_check s)
    (se_consecutive_failed_checks s) (se_num_migrated s).

Definition find_contract (contractID : FileContractID) (d : db) : option (Z * Z) :=
  match find_row (λ _ id, (id =? contractID)%N) (contract_sectors_map d), contracts d !! contractID with
  | Some (m, _), Some c => Some (c_host_id c, m)
  | _, _ => None
  end.

Definition pinnable (hostID contractMapID : Z) (roots : list Hash256) (s : SectorRow) : bool :=
  bool_decide (se_sector_root s ∈ roots) && (bool_decide (se_host_id s = None) || on_host hostID s) &&
  negb (bool_decide (se_contract_sectors_map_id s = Some contractMapID)).

Definition tables_PinSectors (contractID : FileContractID) (roots : list Hash256) : M db unit :=
  if bool_decide (roots = []) then mret tt
  else
    transaction (
      let* d := get in
      match find_contract contractID d with
      | None => throw (ESentinel ErrContractNotFound)
      | Some (hostID, contractMapID) =>
          let '(sectorIDs, _, unpinned, unpinnable) := scanSectorIDs (select_sectors (pinnable hostID contractMapID roots) d) in
          if bool_decide (sectorIDs = []) then mret tt
          else
            wrapM "failed to pin sectors: " (host_exists hostID) ;;
            update_sectors sectorIDs (attach hostID contractMapID) ;;
            let newlyPinned := (unpinned + unpinnable)%Z in
            (if (0 <? newlyPinned)%Z then wrapM "failed to update number of pinned sectors: " (incrementStat statPinnedSectors newlyPinned) else mret tt) ;;
            (if (0 <? unpinned)%Z then
               wrapM "failed to update number of unpinned sectors: " (incrementStat statUnpinnedSectors (- unpinned)) ;;
               wrapM "failed to update host unpinned sectors: " (incrementHostUnpinnedSectors hostID (- unpinned))
             else mret tt) ;;
            (if (0 <? unpinnable)%Z then wrapM "failed to update number of unpinnable sectors: " (incrementStat statUnpinnableSectors (- unpinnable))
             else mret tt)
      end).

(** ** Sectors that were not pinned in time *)

Definition unpin_host (s : SectorRow) : SectorRow :=
  mkSectorRow (se_sector_root s) None (se_contract_sectors_map_id s) (se_uploaded_at s) (se_next_integrity_check s) 0 (se_num_migrated s).

(** [SELECT host_id, COUNT( * ) ... GROUP BY host_id], as changes *)
Definition group_by_host (d : db) (rows : list (Z * SectorRow)) : list (Z * Z) :=
  omap (λ h, let n := count_rows (on_host h) rows in if (n =? 0)%Z then None else Some (h, (- n)%Z)) (map_to_list (hosts d)).*1.

Definition markSectorsUnpinnableBatch (threshold : Z) (limit : nat) : M db bool :=
  transaction (
    let* d := get in
    let rows := take limit (select_sectors (λ s, is_unpinned s && (se_uploaded_at s <=? threshold)%Z) d) in
    let totalUnpinnable := Z.of_nat (length rows) in
    update_sectors rows.*1 unpin_host ;;
    if (totalUnpinnable =? 0)%Z then mret true
    else
      wrapM "failed to increment unpinnable sectors: " (incrementStat statUnpinnableSectors totalUnpinnable) ;;
      wrapM "failed to decrement unpinned sectors: " (incrementStat statUnpinnedSectors (- totalUnpinnable)) ;;
      wrapM "failed to update hosts unpinned sectors: " (incrementHostsUnpinnedSectors (group_by_host d rows)) ;;
      mret false).

Fixpoint tables_MarkSectorsUnpinnable (fuel : nat) (threshold : Z) : M db (option unit) :=
  match fuel with
  | O => mret None
  | Datatypes.S fuel =>
      let* finished := markSectorsUnpinnableBatch threshold 1000 in
      if finished : bool then mret (Some tt) else tables_MarkSectorsUnpinnable fuel threshold
  end.

(** ** Migrated sectors *)

Definition migrate (now hostID : Z) (s : SectorRow) : SectorRow :=
  mkSectorRow (se_sector_root s) (Some hostID) None now (se_next_integrity_check s) 0 (se_num_migrated s + 1).

Definition tables_MigrateSector (root : Hash256) (hostKey : PublicKey) : M db bool :=
  transaction (
    let* d := get in
    match find_sector root d with
    | None => mret false
    | Some (id, s) =>
        match find_host hostKey d with
        | None => mret false
        | Some (newHostID, _) =>
            require (bool_decide (se_num_migrated s + 1 < 2 ^ 31)%Z) numeric_value_out_of_range ;;
            modify (set_sectors (insert id (migrate (db_now d) newHostID s))) ;;
            wrapM "failed to increment number of migrated sectors: " (incrementStat statMigratedSectors 1) ;;
            (if is_pinned s then
               wrapM "failed to decrement pinned sectors: " (incrementStat statPinnedSectors (-1)) ;;
               wrapM "failed to increment unpinned sectors: " (incrementStat statUnpinnedSectors 1) ;;
               wrapM "failed to update host unpinned sectors: " (incrementHostUnpinnedSectors newHostID 1)
             else match se_host_id s with
             | Some oldHostID =>
                 wrapM "failed to update old host unpinned sectors: " (incrementHostUnpinnedSectors oldHostID (-1)) ;;
                 wrapM "failed to update new host unpinned sectors: " (incrementHostUnpinnedSectors newHostID 1)
             | None =>
                 wrapM "failed to decrement unpinnable sectors: " (incrementStat statUnpinnableSectors (-1)) ;;
                 wrapM "failed to increment unpinned sectors: " (incrementStat statUnpinnedSectors 1) ;;
                 wrapM "failed to update host unpinned sectors: " (incrementHostUnpinnedSectors newHostID 1)
             end) ;;
            mret true
        end
    end).

(** ** Integrity checks *)

Definition integrityCheckChunkSize : nat := 100.

Definition checked (next failed : Z) (s : SectorRow) : SectorRow :=
  mkSectorRow (se_sector_root s) (se_host_id s) (se_contract_sectors_map_id s) (se_uploaded_at s) next failed (se_num_migrated s).

Definition recordIntegrityCheck (success : bool) (nextCheck : Z) (hostKey : PublicKey) (roots : list Hash256) : M db unit :=
  let* d := get in
  let rows := match find_host hostKey d with
    | Some (hostID, _) => select_sectors (λ s, on_host hostID s && bool_decide (se_sector_root s ∈ roots)) d
    | None => []
    end in
  (if success then update_sectors rows.*1 (checked nextCheck 0)
   else
     require (forallb (λ p : Z * SectorRow, (se_consecutive_failed_checks p.2 + 1 <? 32768)%Z) rows) numeric_value_out_of_range ;;
     update_sectors rows.*1 (λ s, checked nextCheck (se_consecutive_failed_checks s + 1) s)) ;;
  wrapM "failed to increment sectors checked stat: " (incrementStat statSectorsChecked (Z.of_nat (length roots))) ;;
  (if success then mret tt
   else wrapM "failed to increment sectors failed stat: " (incrementStat statSectorsCheckFailed (Z.of_nat (length roots)))).

(** The loop over chunks; [fuel] is at least the number of roots. *)
Fixpoint record_chunks (fuel : nat) (success : bool) (nextCheck : Z) (hostKey : PublicKey) (roots : list Hash256) : M db unit :=
  match fuel, roots with
  | Datatypes.S fuel, _ :: _ =>
      wrapM "chunk [%d:%d] of %d: " (transaction (recordIntegrityCheck success nextCheck hostKey (take integrityCheckChunkSize roots))) ;;
      record_chunks fuel success nextCheck hostKey (drop integrityCheckChunkSize roots)
  | _, _ => mret tt
  end.
Definition tables_RecordIntegrityCheck (success : bool) (nextCheck : Z) (hostKey : PublicKey) (roots : list Hash256) : M db unit :=
  record_chunks (length roots) success nextCheck hostKey roots.

(** Rows in the order of a column. *)
Definition by_time (p q : Z * (Z * SectorRow)) : Prop := (p.1 ≤ q.1)%Z.
#[local] Instance by_time_dec p q : Decision (by_time p q).
Proof. unfold by_time. apply _. Defined.
Definition sort_by (f : SectorRow → Z) (rows : list (Z * SectorRow)) : list (Z * SectorRow) :=
  (merge_sort by_time ((λ p, (f p.2, p)) <$> rows)).*2.

(** The sectors that are due are claimed for a while; the rows that the update returns
    are in no particular order. *)
Definition tables_SectorsForIntegrityCheck (hostKey : PublicKey) (limit : nat) : M db (list Hash256) :=
  transaction (
    let* d := get in
    match find_host hostKey d with
    | None => mret []
    | Some (hostID, _) =>
        let rows := take limit (sort_by se_next_integrity_check
          (select_sectors (λ s, on_host hostID s && (se_next_integrity_check s <=? db_now d)%Z) d)) in
        update_sectors rows.*1 (λ s, checked (db_now d + integrityCheckClaimInterval) (se_consecutive_failed_checks s) s) ;;
        mret ((λ p, se_sector_root p.2) <$> order rows)
    end).

Definition tables_UnpinnedSectors (hostKey : PublicKey) (limit : nat) : M db (list Hash256) :=
  transaction (
    let* d := get in
    match find_host hostKey d with
    | None => mret []
    | Some (hostID, _) =>
        mret ((λ p, se_sector_root p.2) <$> take limit (sort_by se_uploaded_at
          (select_sectors (λ s, on_host hostID s && bool_decide (se_contract_sectors_map_id s = None)) d)))
    end).

(** ** Slabs to repair *)

(** The identifiers of sectors after the cursor, in order. *)
Definition sector_ids_after (P : SectorRow → bool) (cursor : Z) (limit : nat) (d : db) : list Z :=
  take limit (merge_sort Z.le (omap (λ p : Z * SectorRow, if P p.2 && (cursor <? p.1)%Z then Some p.1 else None) (map_to_list (sectors d)))).

(** [c.good = FALSE OR c.state NOT IN (0, 1)] *)
Definition bad_contract (c : ContractRow) : bool := negb (c_good c) || negb ((c_state c =? 0)%Z || (c_state c =? 1)%Z).

(** The sectors of contracts that are not good. *)
Definition bad_contract_maps (d : db) : list Z :=
  omap (λ p : Z * FileContractID, match contracts d !! p.2 with Some c => if bad_contract c then Some p.1 else None | None => None end)
    (map_to_list (contract_sectors_map d)).
Definition bad_sectors (cursor : Z) (limit : nat) (d : db) : list Z :=
  concat ((λ m, sector_ids_after (λ s, bool_decide (se_contract_sectors_map_id s = Some m)) cursor limit d) <$> bad_contract_maps d).
Definition lost_sectors (cursor : Z) (limit : nat) (d : db) : list Z :=
  sector_ids_after (λ s, bool_decide (se_host_id s = None)) cursor limit d.
Definition unhealthy_batch (cursor : Z) (limit : nat) (d : db) : list Z :=
  take limit (merge_sort Z.le (lost_sectors cursor limit d ++ bad_sectors cursor limit d)).

(** The slab has one of the sectors, and a repair is due. *)
Definition claimable (d : db) (batch : list Z) (slabID : Z) (s : SlabRow) : bool :=
  exists_row (λ k v, (k.1 =? slabID)%Z && bool_decide (v ∈ batch)) (slab_sectors d) && (sl_next_repair_attempt s <? db_now d)%Z.

Definition tables_UnhealthySlabs (time_Now : Z) (cursor : Z) (limit : nat) : M db (list SlabID * Z) :=
  transaction (
    let* d := get in
    let batch := unhealthy_batch cursor limit d in
    let claimed := order (filter (λ p : Z * SlabRow, claimable d batch p.1 p.2 = true) (map_to_list (slabs d))) in
    modify (set_slabs (map_imap (λ id s, Some (if claimable d batch id s then repair_row s (sl_consecutive_failed_repairs s) (time_Now + minRepairBackoff) else s)))) ;;
    mret ((λ p, sl_digest p.2) <$> claimed, default 0%Z (last batch))).

(** ** Slabs with their contracts *)

Definition slab_sector (d : db) (s : SectorRow) : Sector :=
  mkSector (se_sector_root s) (se_contract_sectors_map_id s ≫= λ m, contract_sectors_map d !! m) (host_key d (se_host_id s)).

Definition tables_Slab (slabID : SlabID) : M db Slab :=
  transaction (
    let* d := get in
    match find_slab slabID d with
    | None => throw (ESentinel ErrSlabNotFound)
    | Some (id, s) =>
        mret (mkSlab slabID (sl_version s) (sl_encryption_key s) (sl_min_shards s) (slab_sector d <$> slab_sector_rows d id) (sl_pinned_at s))
    end).

(** [Slabs]: the rows of the slabs in the order of the request, then the sectors of each
    row, appended to the last result of that row. *)
Definition tables_Slabs (account : PublicKey) (slabIDs : list SlabID) : M db (list Slab) :=
  if bool_decide (slabIDs = []) then mret []
  else
    transaction (
      let* d := get in
      match mapM (λ slabID, match find_slab slabID d, find_account account d with
              | Some (id, s), Some (a, _) => if pinned_by a id d then Some (id, s) else None
              | _, _ => None end) slabIDs with
      | None => throw (EWrap "failed to get slabs: " (ESentinel ErrSlabNotFound) "")
      | Some rows =>
          let dbIDMap : gmap Z nat := foldl (λ m p, <[p.2 := p.1]> m) ∅ (imap (λ i (r : Z * SlabRow), (i, r.1)) rows) in
          let results := zip_with (λ slabID r, mkSlab slabID (sl_version r.2) (sl_encryption_key r.2) (sl_min_shards r.2) [] (sl_pinned_at r.2)) slabIDs rows in
          mret (foldl (λ results (r : Z * SlabRow),
            alter (λ s, mkSlab (Slab_ID s) (Slab_Version s) (Slab_EncryptionKey s) (Slab_MinShards s)
              (Slab_Sectors s ++ (slab_sector d <$> slab_sector_rows d r.1)) (Slab_PinnedAt s)) (default 0 (dbIDMap !! r.1)) results) results rows)
      end).
End store.
