(* ===== verification/ContractTables.v ===== *)
(** * Contracts in the database (src/persist/postgres/contracts.go)

    The transactions that add, renew, revise and delete contracts, what they do to the
    sectors that are pinned to a contract, and the queries of the contract manager. *)

From S2P Require Import Prelude Float Encoding External Hosts Contract Slabs Objects Accounts App Tables SlabTables SectorTables.

Definition ErrHostNotFound : string := "host not found".
Definition ErrInvalidSortField : string := "invalid sort field".

(** What the columns take from the libraries: revisions as bytes, the amount that a usage
    adds to accounts, and currencies read from a NUMERIC column, which fails for amounts
    of more than 128 bits. *)
Class ContractColumns {C : CurrencyOps} {R : RhpOps} := {
  encode_revision : V2.FileContract → list byte;
  decode_revision : list byte → result V2.FileContract;
  AccountFunding : Usage → Currency;
  scan_currency : Z → result Currency }.

Class ContractColumnsLaws {C : CurrencyOps} {R : RhpOps} (CC : ContractColumns) : Prop := {
  decode_encode_revision : ∀ r, decode_revision (encode_revision r) = Ok r;
  scan_Big : ∀ c, scan_currency (Big c) = Ok c }.

Section store.
Local Open Scope go_scope.
Context {C : CurrencyOps} {R : RhpOps} {V : V2.Methods} {CC : ContractColumns}.
Context (order : ∀ {A}, list A → list A).
Arguments order {A} _.

(** A value that is written to an INTEGER column, and a sum that is written to a
    NUMERIC(50,0) column. *)
Definition integer (z : Z) : M db unit := require (bool_decide (- 2 ^ 31 ≤ z < 2 ^ 31)%Z) numeric_value_out_of_range.
Definition numeric (z : Z) : M db unit := require (bool_decide (- 10 ^ 50 < z < 10 ^ 50)%Z) numeric_value_out_of_range.

Definition contract_not_found : error := EWrap "contract %q: " (ESentinel ErrContractNotFound) "".
Definition host_not_found : error := EWrap "host %q: " (ESentinel ErrHostNotFound) "".

(** ** Rows *)

(** [state IN (0,1) AND renewed_to IS NULL AND proof_height > scanned_height] *)
Definition revisable (d : db) (c : ContractRow) : bool :=
  ((c_state c =? 0)%Z || (c_state c =? 1)%Z) && bool_decide (c_renewed_to c = None) && (scanned_height d <? c_proof_height c)%Z.

Definition with_good (good : bool) (c : ContractRow) : ContractRow :=
  mkContractRow (c_host_id c) (c_formation c) (c_proof_height c) (c_expiration_height c) (c_renewed_from c) (c_renewed_to c)
    (c_revision_number c) (c_state c) (c_last_broadcast_attempt c) (c_next_prune c) (c_capacity c) (c_size c) (c_contract_price c)
    (c_initial_allowance c) (c_remaining_allowance c) (c_miner_fee c) (c_used_collateral c) (c_total_collateral c) good (c_raw_revision c).
Definition with_renewed_to (id : option FileContractID) (c : ContractRow) : ContractRow :=
  mkContractRow (c_host_id c) (c_formation c) (c_proof_height c) (c_expiration_height c) (c_renewed_from c) id
    (c_revision_number c) (c_state c) (c_last_broadcast_attempt c) (c_next_prune c) (c_capacity c) (c_size c) (c_contract_price c)
    (c_initial_allowance c) (c_remaining_allowance c) (c_miner_fee c) (c_used_collateral c) (c_total_collateral c) (c_good c) (c_raw_revision c).
Definition with_state (state : Z) (c : ContractRow) : ContractRow :=
  mkContractRow (c_host_id c) (c_formation c) (c_proof_height c) (c_expiration_height c) (c_renewed_from c) (c_renewed_to c)
    (c_revision_number c) state (c_last_broadcast_attempt c) (c_next_prune c) (c_capacity c) (c_size c) (c_contract_price c)
    (c_initial_allowance c) (c_remaining_allowance c) (c_miner_fee c) (c_used_collateral c) (c_total_collateral c) (c_good c) (c_raw_revision c).
Definition with_times (last_broadcast_attempt next_prune : Z) (c : ContractRow) : ContractRow :=
  mkContractRow (c_host_id c) (c_formation c) (c_proof_height c) (c_expiration_height c) (c_renewed_from c) (c_renewed_to c)
    (c_revision_number c) (c_state c) last_broadcast_attempt next_prune (c_capacity c) (c_size c) (c_contract_price c)
    (c_initial_allowance c) (c_remaining_allowance c) (c_miner_fee c) (c_used_collateral c) (c_total_collateral c) (c_good c) (c_raw_revision c).

(** [UPDATE contracts SET ... WHERE P] *)
Definition update_contracts (P : FileContractID → ContractRow → bool) (f : ContractRow → ContractRow) : M db unit :=
  modify (set_contracts (map_imap (λ id c, Some (if P id c then f c else c)))).

(** The columns of a row that is written, and the checks of the table. *)
Definition contract_widths (c : ContractRow) : M db unit :=
  bigint (c_proof_height c) ;; bigint (c_expiration_height c) ;; integer (c_revision_number c) ;; bigint (c_capacity c) ;; bigint (c_size c).
Definition contract_checks (c : ContractRow) : M db unit :=
  require ((0 <=? c_revision_number c)%Z && (c_size c <=? c_capacity c)%Z && (0 <=? c_size c)%Z &&
           (0 <=? c_remaining_allowance c)%Z && (c_used_collateral c <=? c_total_collateral c)%Z) check_violation.

(** [contract_id], [renewed_from] and [renewed_to] are unique, and refer to contracts. *)
Definition insert_contract (id : FileContractID) (c : ContractRow) : M db unit :=
  contract_checks c ;;
  let* d := get in
  require (bool_decide (contracts d !! id = None)) unique_violation ;;
  require (match c_renewed_from c with
    | Some from => negb (exists_row (λ _ r, bool_decide (c_renewed_from r = Some from)) (contracts d))
    | None => true end) unique_violation ;;
  modify (set_contracts (insert id c)).

(** [INSERT INTO contract_sectors_map (contract_id) VALUES ($1)] *)
Definition insert_map (id : FileContractID) : M db unit :=
  let* m := nextval "contract_sectors_map" in
  let* d := get in
  require (negb (exists_row (λ _ i, (i =? id)%N) (contract_sectors_map d))) unique_violation ;;
  require (bool_decide (is_Some (contracts d !! id))) foreign_key_violation ;;
  modify (set_contract_sectors_map (insert m id)).

Definition find_map (id : FileContractID) (d : db) : option Z := fst <$> find_row (λ _ i, (i =? id)%N) (contract_sectors_map d).

(** ** Adding and revising contracts *)

Definition updateHostUsage (hostKey : PublicKey) (usage : Usage) : M db unit :=
  let* cost := lift (RenterCost usage) in
  let* d := get in
  match find_host hostKey d with
  | None => throw host_not_found
  | Some (id, h) =>
      let funding := (h_usage_account_funding h + Big (AccountFunding usage))%Z in
      let spent := (h_usage_total_spent h + Big cost)%Z in
      numeric funding ;; numeric spent ;;
      modify (set_hosts (insert id (with_usage funding spent h)))
  end.

Definition formed_row (hostID now : Z) (revision : V2.FileContract) (contractPrice allowance minerFee : Currency) : ContractRow :=
  mkContractRow hostID now (V2.ProofHeight revision) (V2.ExpirationHeight revision) None None (V2.RevisionNumber revision) 0 now
    (now + 24 * Hour) (V2.Capacity revision) (V2.Filesize revision) (Big contractPrice) (Big allowance) (Big allowance) (Big minerFee)
    0 (Big (V2.TotalCollateral revision)) true (encode_revision revision).

Definition tables_AddFormedContract (hostKey : PublicKey) (contractID : FileContractID) (revision : V2.FileContract)
    (contractPrice allowance minerFee : Currency) (usage : Usage) : M db unit :=
  transaction (
    let* d := get in
    match find_host hostKey d with
    | None => throw host_not_found
    | Some (hostID, _) =>
        let row := formed_row hostID (db_now d) revision contractPrice allowance minerFee in
        wrapM "failed to add formed contract to database: " (contract_widths row ;; insert_contract contractID row) ;;
        wrapM "failed to add entry to contract sectors map: " (insert_map contractID) ;;
        updateHostUsage hostKey usage
    end).

Definition renewed_row (from : FileContractID) (hostID now : Z) (revision : V2.FileContract) (contractPrice minerFee risked : Currency) : ContractRow :=
  mkContractRow hostID now (V2.ProofHeight revision) (V2.ExpirationHeight revision) (Some from) None (V2.RevisionNumber revision) 0 now
    (now + 24 * Hour) (V2.Capacity revision) (V2.Filesize revision) (Big contractPrice) (Big (V2.RenterOutputValue revision))
    (Big (V2.RenterOutputValue revision)) (Big minerFee) (Big risked) (Big (V2.TotalCollateral revision)) true (encode_revision revision).

(** The sectors move to the renewal with the entry of the map. *)
Definition tables_AddRenewedContract (renewedFrom renewedTo : FileContractID) (revision : V2.FileContract)
    (contractPrice minerFee : Currency) (usage : Usage) : M db unit :=
  transaction (
    let* risked := lift (V2.RiskedCollateral revision) in
    let* d := get in
    wrapM "failed to add renewal to database: " (
      let row hostID := renewed_row renewedFrom hostID (db_now d) revision contractPrice minerFee risked in
      contract_widths (row 0%Z) ;;
      match contracts d !! renewedFrom with
      | None => mret tt
      | Some old => insert_contract renewedTo (row (c_host_id old))
      end) ;;
    let* d := get in
    match contracts d !! renewedFrom with
    | None => throw (EMsg "expected 1 row to be affected, got %d")
    | Some old =>
        wrapM "failed to update renewed contract: " (
          require (negb (exists_row (λ id r, negb (id =? renewedFrom)%N && bool_decide (c_renewed_to r = Some renewedTo)) (contracts d))) unique_violation) ;;
        modify (set_contracts (insert renewedFrom (with_renewed_to (Some renewedTo) old))) ;;
        match find_map renewedFrom d with
        | None => throw (EMsg "failed to update contract sectors map, no entry found for contract %v")
        | Some m =>
            wrapM "failed to update contract sectors map: " (
              require (negb (exists_row (λ i id, negb (i =? m)%Z && (id =? renewedTo)%N) (contract_sectors_map d))) unique_violation) ;;
            modify (set_contract_sectors_map (insert m renewedTo)) ;;
            updateHostUsage (V2.HostPublicKey revision) usage
        end
    end).

Definition revised_row (revision : V2.FileContract) (risked : Currency) (c : ContractRow) : ContractRow :=
  mkContractRow (c_host_id c) (c_formation c) (c_proof_height c) (c_expiration_height c) (c_renewed_from c) (c_renewed_to c)
    (V2.RevisionNumber revision) (c_state c) (c_last_broadcast_attempt c) (c_next_prune c) (V2.Capacity revision) (V2.Filesize revision)
    (c_contract_price c) (c_initial_allowance c) (Big (V2.RenterOutputValue revision)) (c_miner_fee c) (Big risked) (c_total_collateral c)
    (c_good c) (encode_revision revision).

Definition tables_UpdateContractRevision (contract : ContractRevision) (usage : Usage) : M db unit :=
  transaction (
    let update := CR_Revision contract in
    let* d := get in
    match contracts d !! CR_ID contract with
    | None => throw contract_not_found
    | Some c =>
        if (V2.RevisionNumber update <=? c_revision_number c)%Z
        then throw (EMsg "failed to update contract revision, the updated revision number %d is not strictly higher than the existing revision number %d")
        else
          let* risked := lift (V2.RiskedCollateral update) in
          let row := revised_row update risked c in
          wrapM "failed to update contract revision: " (contract_widths row ;; contract_checks row) ;;
          modify (set_contracts (insert (CR_ID contract) row)) ;;
          updateHostUsage (V2.HostPublicKey update) usage
    end).

Definition tables_ContractRevision (contractID : FileContractID) : M db (ContractRevision * bool) :=
  transaction (
    let* d := get in
    match contracts d !! contractID with
    | None => throw contract_not_found
    | Some c =>
        let* revision := wrapM "failed to fetch contract revision: " (lift (decode_revision (c_raw_revision c))) in
        mret (mkRevision contractID revision, bool_decide (is_Some (c_renewed_to c)))
    end).

(** ** The state of contracts *)

Definition markContractBad (contractID : FileContractID) : M db unit :=
  let* d := get in
  match contracts d !! contractID with
  | None => throw contract_not_found
  | Some c => modify (set_contracts (insert contractID (with_good false c)))
  end.
Definition tables_MarkContractBad (contractID : FileContractID) : M db unit := transaction (markContractBad contractID).

Definition tables_MarkUnrenewableContractsBad (maxProofHeight : Z) : M db unit :=
  transaction (
    bigint maxProofHeight ;;
    update_contracts (λ _ c, ((c_state c =? 0)%Z || (c_state c =? 1)%Z) && bool_decide (c_renewed_to c = None) && c_good c &&
      (c_proof_height c <=? maxProofHeight)%Z) (with_good false)).

Definition tables_RejectPendingContracts (maxFormation : Z) : M db unit :=
  transaction (update_contracts (λ _ c, (c_state c =? 0)%Z && (c_formation c <? maxFormation)%Z) (with_state 4)).

Definition tables_MarkBroadcastAttempt (contractID : FileContractID) : M db unit :=
  transaction (
    let* d := get in
    update_contracts (λ id _, (id =? contractID)%N) (λ c, with_times (db_now d) (c_next_prune c) c)).
Definition tables_UpdateNextPrune (contractID : FileContractID) (nextPrune : Z) : M db unit :=
  transaction (update_contracts (λ id _, (id =? contractID)%N) (λ c, with_times (c_last_broadcast_attempt c) nextPrune c)).

(** ** The sectors of a contract *)

(** [DELETE FROM contract_sectors_map WHERE id = $1]: sectors refer to it. *)
Definition delete_map (m : Z) : M db unit :=
  let* d := get in
  require (negb (exists_row (λ _ s, bool_decide (se_contract_sectors_map_id s = Some m)) (sectors d))) foreign_key_violation ;;
  modify (set_contract_sectors_map (delete m)).

Definition pinned_to (m : Z) (s : SectorRow) : bool := bool_decide (se_contract_sectors_map_id s = Some m).

(** [SET contract_sectors_map_id = NULL, uploaded_at = NOW()] *)
Definition unpin (now : Z) (s : SectorRow) : SectorRow :=
  mkSectorRow (se_sector_root s) (se_host_id s) None now (se_next_integrity_check s) (se_consecutive_failed_checks s) (se_num_migrated s).
(** [SET contract_sectors_map_id = NULL, host_id = NULL, consecutive_failed_checks = 0] *)
Definition expire (s : SectorRow) : SectorRow :=
  mkSectorRow (se_sector_root s) None None (se_uploaded_at s) (se_next_integrity_check s) 0 (se_num_migrated s).

Definition tables_DeleteContract (contractID : FileContractID) : M db unit :=
  transaction (
    let* d := get in
    match find_map contractID d with
    | None => throw contract_not_found
    | Some contractMapID =>
        let rows := select_sectors (@order) (pinned_to contractMapID) d in
        update_sectors rows.*1 (unpin (db_now d)) ;;
        wrapM "failed to delete from contract sectors map: " (delete_map contractMapID) ;;
        let pinned := Z.of_nat (length rows) in
        (if (0 <? pinned)%Z then
           match contracts d !! contractID with
           | None => throw (EWrap "failed to get host ID: " (ESentinel ErrNoRows) "")
           | Some c =>
               wrapM "failed to update pinned sectors stat: " (incrementStat statPinnedSectors (- pinned)) ;;
               wrapM "failed to update unpinned sectors stat: " (incrementStat statUnpinnedSectors pinned) ;;
               wrapM "failed to update host unpinned sectors: " (incrementHostUnpinnedSectors (c_host_id c) pinned)
           end
         else mret tt) ;;
        markContractBad contractID
    end).

(** The entries of the map whose contract expired that long ago. *)
Definition expired_maps (maxBlocksSinceExpiry : Z) (d : db) : list Z :=
  omap (λ p : Z * FileContractID, match contracts d !! p.2 with
    | Some c => if (c_expiration_height c + maxBlocksSinceExpiry <=? scanned_height d)%Z then Some p.1 else None
    | None => None end) (map_to_list (contract_sectors_map d)).

Definition tables_PruneContractSectorsMap (maxBlocksSinceExpiry : Z) : M db unit :=
  transaction (
    bigint maxBlocksSinceExpiry ;;
    let* d := get in
    let toPrune := order (expired_maps maxBlocksSinceExpiry d) in
    if bool_decide (toPrune = []) then mret tt
    else
      let rows := select_sectors (@order) (λ s, match se_contract_sectors_map_id s with Some m => bool_decide (m ∈ toPrune) | None => false end) d in
      update_sectors rows.*1 expire ;;
      let totalUnpinnable := Z.of_nat (length rows) in
      wrapM "failed to update number of pinned sectors: " (incrementStat statPinnedSectors (- totalUnpinnable)) ;;
      wrapM "failed to update number of unpinnable sectors: " (incrementStat statUnpinnableSectors totalUnpinnable) ;;
      wrapM "failed to prune contract_sectors_map: " (forM toPrune delete_map)).

(** The roots of sectors that the contract holds, or that its host is to keep until they
    are pinned. *)
Definition wanted_root (m hostID : Z) (d : db) (root : Hash256) : bool :=
  exists_row (λ _ s, (se_sector_root s =? root)%N &&
    (pinned_to m s || on_host hostID s && bool_decide (se_contract_sectors_map_id s = None))) (sectors d).

Definition tables_PrunableContractRoots (contractID : FileContractID) (roots : list Hash256) : M db (list Hash256) :=
  transaction (
    let* d := get in
    match find_map contractID d with
    | None => throw (EWrap "failed to fetch contract sectors map ID: " (ESentinel ErrNoRows) "")
    | Some wantedCSMID =>
        match contracts d !! contractID with
        | None => throw contract_not_found
        | Some c => mret (filter (λ root, wanted_root wantedCSMID (c_host_id c) d root = false) roots)
        end
    end).
End store.
