(* ===== verification/HostTables.v ===== *)
(** * Hosts in the database (src/persist/postgres/hosts.go)

    The transactions that announce, import, block, unblock, scan and prune hosts, and
    the queries of the host manager. *)

From S2P Require Import Prelude Float Order Encoding External HostQueue App Hosts Alerts HostManager Contract Slabs Objects Accounts Tables SlabTables SectorTables ContractTables.

(** 12 weeks *)
Definition uptimeHalfLife : Z := 60 * 60 * 24 * 7 * 12.

(** The fields of the protocol's settings and prices that only the store reads, and the
    struct that is read from the columns. *)
Class HostColumns {C : CurrencyOps} {R : RhpOps} := {
  version_bytes : Version → Z;
  Release : HostSettings → string;
  settings_AcceptingContracts : HostSettings → bool;
  settings_MaxContractDuration : HostSettings → Z;
  TotalStorage : HostSettings → Z;
  prices_Collateral : HostPrices → Currency;
  FreeSectorPrice : HostPrices → Currency;
  prices_Signature : HostPrices → N;
  read_settings : HostSettingsRow → result HostSettings }.

(** [EXP] and [LN] of PostgreSQL, and the distance [<->] of two points. *)
Class SqlMath := { sql_exp : float64 → float64; sql_ln : float64 → float64; point_distance : Location → float64 * float64 → float64 }.

Definition not_null_violation : string := "23502".

(** Go's order of strings, by bytes. *)
Definition string_Compare (a b : string) : Z := match String.compare a b with Lt => -1 | Eq => 0 | Gt => 1 end.

(** [slices.Compact] *)
Fixpoint Compact (l : list string) : list string :=
  match l with
  | x :: (y :: _) as l' => if String.eqb x y then Compact l' else x :: Compact l'
  | _ => l
  end.

Section store.
Local Open Scope go_scope.
Context {C : CurrencyOps} {R : RhpOps} {V : V2.Methods} {PN : ProtocolNames} {CC : ContractColumns} {HC : HostColumns} {SM : SqlMath}.
Context (order : ∀ {A}, list A → list A).
Arguments order {A} _.

(** ** Announcements *)

(** [INSERT INTO hosts ... ON CONFLICT (public_key) DO UPDATE SET ... RETURNING id] *)
Definition upsert_host (hk : PublicKey) (new : HostRow) (update : HostRow → HostRow) : M db Z :=
  let* n := nextval "hosts" in
  let* d := get in
  match find_host hk d with
  | Some (id, h) => modify (set_hosts (insert id (update h))) ;; mret id
  | None =>
      require (bool_decide (hosts d !! n = None)) unique_violation ;;
      modify (set_hosts (insert n new)) ;; mret n
  end.

(** [sqlNetworkProtocol.Value] *)
Definition known_protocol (na : NetAddress) : bool := String.eqb (NA_Protocol na) siamux_Protocol || String.eqb (NA_Protocol na) quic_Protocol.

Definition insert_address (hostID : Z) (na : NetAddress) : M db unit :=
  let* n := nextval "host_addresses" in
  if known_protocol na then modify (set_host_addresses (λ l, l ++ [(n, (hostID, na))]))
  else throw (EMsg "unknown network protocol %q").

(** The addresses of a host are replaced. *)
Definition replace_addresses (hostID : Z) (addresses : list NetAddress) : M db unit :=
  modify (set_host_addresses (filter (λ p, p.2.1 ≠ hostID))) ;;
  forM addresses (λ na, wrapM "failed to insert host address: " (insert_address hostID na)).

Definition hasQUIC (addresses : list NetAddress) : bool :=
  existsb (λ na, String.eqb (NA_Protocol na) quic_Protocol && negb (IsBadQUICAddress na)) addresses.
(** The cases of a [switch] are tried in order. *)
Definition hasSiamux (addresses : list NetAddress) : bool :=
  existsb (λ na, negb (String.eqb (NA_Protocol na) quic_Protocol) && String.eqb (NA_Protocol na) siamux_Protocol) addresses.

Definition announced (ts : Z) (quic siamux : bool) (h : HostRow) : HostRow :=
  let s := h_scan h in
  with_scan (mkHostScan ts quic siamux (hs_consecutive_failed_scans s) (hs_recent_uptime s) (hs_last_failed_scan s) (hs_last_successful_scan s)
    (hs_next_scan s) (hs_scans s) (hs_scans_failed s) (hs_last_integrity_check s) (hs_stuck_since s) (hs_location s)) h.

(** [updateTx.AddHostAnnouncement], within the transaction of a chain update *)
Definition tables_AddHostAnnouncement (hk : PublicKey) (ha : list NetAddress) (ts : Z) : M db unit :=
  let* d := get in
  let* hostID := upsert_host hk (new_host hk ts (hasQUIC ha) (hasSiamux ha) (db_now d)) (announced ts (hasQUIC ha) (hasSiamux ha)) in
  replace_addresses hostID ha.

Definition imported (quic siamux : bool) (now : Z) (h : HostRow) : HostRow :=
  let s := h_scan h in
  with_scan (mkHostScan (hs_last_announcement s) quic siamux 0 (hs_recent_uptime s) (hs_last_failed_scan s) (hs_last_successful_scan s)
    now (hs_scans s) (hs_scans_failed s) (hs_last_integrity_check s) (hs_stuck_since s) (hs_location s)) h.

Definition tables_ImportHost (hk : PublicKey) (addresses : list NetAddress) : M db unit :=
  transaction (
    let* d := get in
    let* hostID := wrapM "failed to import host: "
      (upsert_host hk (new_host hk (db_now d) (hasQUIC addresses) (hasSiamux addresses) (db_now d)) (imported (hasQUIC addresses) (hasSiamux addresses) (db_now d))) in
    replace_addresses hostID addresses).

(** ** The blocklist *)

(** [UPDATE contracts SET good = $2 WHERE host_id = $1] *)
Definition mark_contracts (good : bool) (P : Z → bool) : M db unit := update_contracts (λ _ c, P (c_host_id c)) (with_good good).

(** [SET host_id = NULL, consecutive_failed_checks = 0] *)
Definition unhost (s : SectorRow) : SectorRow :=
  mkSectorRow (se_sector_root s) None (se_contract_sectors_map_id s) (se_uploaded_at s) (se_next_integrity_check s) 0 (se_num_migrated s).

Definition merged_reasons (updated reasons : list string) : list string := Compact (SliceStable string_Compare (updated ++ reasons)).

Definition block_host (reasons : list string) (hk : PublicKey) : M db unit :=
  let* d := get in
  let found := find_host hk d in
  (* the blocklist is joined to the row of the host *)
  let updated := merged_reasons (if found then default [] (hosts_blocklist d !! hk) else []) reasons in
  wrapM "failed to add host %q to blocklist: " (
    (* a nil slice is NULL *)
    require (bool_decide (is_Some found) || bool_decide (updated ≠ [])) not_null_violation ;;
    modify (set_hosts_blocklist (insert hk updated))) ;;
  match found with
  | None => mret tt
  | Some (hostID, _) =>
      mark_contracts false (Z.eqb hostID) ;;
      let rows := select_sectors (@order) (λ s, on_host hostID s && negb (is_pinned s)) d in
      update_sectors rows.*1 unhost ;;
      let unpinnable := Z.of_nat (length rows) in
      if (0 <? unpinnable)%Z then
        wrapM "failed to increment unpinnable sectors: " (incrementStat statUnpinnableSectors unpinnable) ;;
        wrapM "failed to decrement unpinned sectors: " (incrementStat statUnpinnedSectors (- unpinnable)) ;;
        wrapM "failed to decrement host unpinned sectors: " (incrementHostUnpinnedSectors hostID (- unpinnable))
      else mret tt
  end.

Definition tables_BlockHosts (hks : list PublicKey) (reasons : list string) : M db unit := transaction (forM hks (block_host reasons)).

(** [FROM hosts h WHERE c.host_id = h.id AND h.public_key = ANY(hks)] *)
Definition host_in (hks : list PublicKey) (d : db) (id : Z) : bool :=
  match hosts d !! id with Some h => bool_decide (h_public_key h ∈ hks) | None => false end.

Definition tables_UnblockHost (hk : PublicKey) : M db unit :=
  transaction (
    modify (set_hosts_blocklist (delete hk)) ;;
    let* d := get in
    mark_contracts true (host_in [hk] d)).

Definition remaining_reasons (reasons l : list string) : list string := filter (λ r, r ∉ reasons) l.

Definition tables_RemoveBlocklistReasons (hks : list PublicKey) (reasons : list string) : M db Z :=
  if bool_decide (hks = []) || bool_decide (reasons = []) then mret 0%Z
  else transaction (
    let* d := get in
    let emptied := λ hk l, bool_decide (hk ∈ hks) && bool_decide (remaining_reasons reasons l = []) in
    let unblocked := (map_to_list (filter (λ p, emptied p.1 p.2 = true) (hosts_blocklist d))).*1 in
    modify (set_hosts_blocklist (delete_rows emptied)) ;;
    (if bool_decide (unblocked = []) then mret tt else mark_contracts true (host_in unblocked d)) ;;
    modify (set_hosts_blocklist (map_imap (λ hk l, Some (if bool_decide (hk ∈ hks) then remaining_reasons reasons l else l)))) ;;
    mret (Z.of_nat (length unblocked))).

(** [LIMIT limit OFFSET offset] *)
Definition page {A} (offset limit : Z) (l : list A) : list A := take (Z.to_nat limit) (drop (Z.to_nat offset) l).

Definition tables_BlockedHosts (offset limit : Z) : M db (list PublicKey) :=
  match validateOffsetLimit offset limit with
  | Some e => throw e
  | None =>
      if (limit =? 0)%Z then mret []
      else transaction (let* d := get in mret (page offset limit (order (map_to_list (hosts_blocklist d)).*1)))
  end.

(** ** Scans *)

(** [GREATEST] ignores NULL. *)
Definition greatest (a b : option Z) : option Z :=
  match a, b with Some x, Some y => Some (Z.max x y) | Some x, None => Some x | None, _ => b end.

(** [EXTRACT(EPOCH FROM ...)] of a difference of timestamps, in microseconds *)
Definition elapsed_time (now : Z) (s : HostScan) : float64 :=
  match greatest (hs_last_failed_scan s) (hs_last_successful_scan s) with
  | None => of_int 0
  | Some last => of_decimal ((now - last) / 1000) 6
  end.
Definition decay_factor (now : Z) (s : HostScan) : float64 :=
  sql_exp (fmul (SFopp (fdiv (sql_ln (of_int 2)) (of_int uptimeHalfLife))) (elapsed_time now s)).

(** [CHECK (recent_uptime > 0 AND recent_uptime < 1)] *)
Definition uptime_ok (u : float64) : bool := flt (of_int 0) u && flt u (of_int 1).

Definition statScans : string := "num_scans".
Definition statScansFailed : string := "num_scans_failed".
Definition incrementNumScans (success : bool) : M db unit :=
  incrementStat statScans 1 ;;
  if success then mret tt else incrementStat statScansFailed 1.

Definition write_scan (id : Z) (h : HostRow) : M db unit :=
  let s := h_scan h in
  integer (hs_consecutive_failed_scans s) ;; integer (hs_scans s) ;; integer (hs_scans_failed s) ;;
  require (uptime_ok (hs_recent_uptime s)) check_violation ;;
  modify (set_hosts (insert id h)).

Definition scan_failed (now nextScan : Z) (s : HostScan) : HostScan :=
  mkHostScan (hs_last_announcement s) (hs_has_quic s) (hs_has_siamux s) (hs_consecutive_failed_scans s + 1)
    (fmul (hs_recent_uptime s) (decay_factor now s)) (Some now) (hs_last_successful_scan s) nextScan (hs_scans s + 1) (hs_scans_failed s + 1)
    (hs_last_integrity_check s) (hs_stuck_since s) (hs_location s).

(** [location <> POINT(0.0, 0.0)]: coordinates that differ by at most 1e-6 are equal. *)
Definition near_zero (x : float64) : bool := negb (flt (of_decimal 1 6) (SFabs x)).
Definition some_location (l : Location) : bool := negb (near_zero (Latitude l) && near_zero (Longitude l)).

Definition scan_succeeded (now nextScan : Z) (loc : Location) (s : HostScan) : HostScan :=
  let decay := decay_factor now s in
  let old := hs_location s in
  let location := if some_location loc then loc else old in
  mkHostScan (hs_last_announcement s) (hs_has_quic s) (hs_has_siamux s) 0
    (fadd (fmul (of_int 1) (fsub (of_int 1) decay)) (fmul (hs_recent_uptime s) decay)) (hs_last_failed_scan s) (Some now) nextScan
    (hs_scans s + 1) (hs_scans_failed s) (hs_last_integrity_check s) (hs_stuck_since s)
    (mkLocation (if String.eqb (Hosts.CountryCode loc) "" then Hosts.CountryCode old else Hosts.CountryCode loc) (Latitude location) (Longitude location)).

Definition priced (p : HostPrices) (s : HostSettingsRow) : HostSettingsRow :=
  mkHostSettingsRow (st_protocol_version s) (st_release s) (st_wallet_address s) (st_accepting_contracts s) (st_max_collateral s)
    (st_max_contract_duration s) (st_remaining_storage s) (st_total_storage s) (Big (ContractPrice p)) (Big (prices_Collateral p))
    (Big (StoragePrice p)) (Big (IngressPrice p)) (Big (EgressPrice p)) (Big (FreeSectorPrice p)) (TipHeight p) (Some (ValidUntil p)) (prices_Signature p).
Definition scanned_settings (hs : HostSettings) : HostSettingsRow :=
  priced (Prices hs) (mkHostSettingsRow (version_bytes (ProtocolVersion hs)) (Release hs) (WalletAddress hs) (settings_AcceptingContracts hs)
    (Big (MaxCollateral hs)) (settings_MaxContractDuration hs) (RemainingStorage hs) (TotalStorage hs) 0 0 0 0 0 0 0 None 0).

Definition tables_UpdateHostPrices (hk : PublicKey) (prices : HostPrices) : M db unit :=
  transaction (
    bigint (TipHeight prices) ;;
    let* d := get in
    match find_host hk d with
    | None => mret tt
    | Some (id, h) =>
        match st_valid_until (h_settings h) with
        | Some until => if (until <? ValidUntil prices)%Z then modify (set_hosts (insert id (with_settings (priced prices (h_settings h)) h))) else mret tt
        | None => mret tt
        end
    end).

Definition tables_UpdateHostScan (hk : PublicKey) (hs : HostSettings) (loc : Location) (scanSucceeded : bool) (nextScan : Z) : M db unit :=
  transaction (
    let* d := get in
    if negb scanSucceeded then
      match find_host hk d with
      | None => throw host_not_found
      | Some (id, h) =>
          write_scan id (with_scan (scan_failed (db_now d) nextScan (h_scan h)) h) ;;
          wrapM "failed to update total scans: " (incrementNumScans scanSucceeded)
      end
    else
      wrapM "failed to update host with scan: " (
        bigint (settings_MaxContractDuration hs) ;; bigint (RemainingStorage hs) ;; bigint (TotalStorage hs) ;; bigint (TipHeight (Prices hs))) ;;
      match find_host hk d with
      | None => throw host_not_found
      | Some (id, h) =>
          wrapM "failed to update host with scan: "
            (write_scan id (with_settings (scanned_settings hs) (with_scan (scan_succeeded (db_now d) nextScan loc (h_scan h)) h))) ;;
          if (id =? 0)%Z then throw (EMsg "failed to return host id after successful update")
          else wrapM "failed to update total scans: " (incrementNumScans scanSucceeded)
      end).

(** [DELETE FROM hosts WHERE P]: contracts and sectors refer to hosts; addresses and
    what was funded go with them. *)
Definition delete_hosts (P : Z → HostRow → bool) : M db unit :=
  let* d := get in
  let gone := λ id, match hosts d !! id with Some h => P id h | None => false end in
  require (negb (exists_row (λ _ c, gone (c_host_id c)) (contracts d))) foreign_key_violation ;;
  require (negb (exists_row (λ _ s, match se_host_id s with Some h => gone h | None => false end) (sectors d))) foreign_key_violation ;;
  modify (set_host_addresses (filter (λ p, gone p.2.1 = false))) ;;
  modify (set_account_hosts (delete_rows (λ k _, gone k.2))) ;;
  modify (set_pool_hosts (delete_rows (λ k _, gone k.2))) ;;
  modify (set_pool_attachments (delete_rows (λ k _, gone k.1.2))) ;;
  modify (set_hosts (delete_rows P)).

Definition unresponsive (minLastSuccessfulScan minConsecutiveFailedScans : Z) (d : db) (id : Z) (h : HostRow) : bool :=
  match hs_last_successful_scan (h_scan h) with Some t => (t <=? minLastSuccessfulScan)%Z | None => true end &&
  (minConsecutiveFailedScans <=? hs_consecutive_failed_scans (h_scan h))%Z &&
  negb (exists_row (λ _ c, (c_host_id c =? id)%Z) (contracts d)).

Definition tables_PruneHosts (minLastSuccessfulScan minConsecutiveFailedScans : Z) : M db Z :=
  transaction (
    let* d := get in
    let P := unresponsive minLastSuccessfulScan minConsecutiveFailedScans d in
    wrapM "failed to prune hosts: " (delete_hosts P) ;;
    mret (Z.of_nat (size (hosts d)) - Z.of_nat (size (delete_rows P (hosts d))))%Z).

(** ** Hosts by what is to be done with them *)

(** [SELECT ... FROM hosts WHERE P] *)
Definition select_hosts (P : Z → HostRow → bool) (d : db) : list (Z * HostRow) :=
  order (filter (λ p, P p.1 p.2 = true) (map_to_list (hosts d))).
Definition host_keys (rows : list (Z * HostRow)) : list PublicKey := (λ p, h_public_key p.2) <$> rows.
Definition query_hosts (P : db → Z → HostRow → bool) : M db (list PublicKey) :=
  transaction (let* d := get in mret (host_keys (select_hosts (P d) d))).

(** A contract of the host that can be revised, and that is good. *)
Definition active_contract (d : db) (id : Z) : bool := exists_row (λ _ c, (c_host_id c =? id)%Z && revisable d c && c_good c) (contracts d).
Definition unpinned_sector (d : db) (id : Z) : bool := exists_row (λ _ s, on_host id s && negb (is_pinned s)) (sectors d).
Definition prunable_contract (d : db) (id : Z) : bool :=
  exists_row (λ _ c, (c_host_id c =? id)%Z && revisable d c && c_good c && (c_next_prune c <? db_now d)%Z) (contracts d).

Definition tables_HostsWithUnpinnableSectors : M db (list PublicKey) := query_hosts (λ d id _, unpinned_sector d id && negb (active_contract d id)).
Definition tables_HostsForFunding : M db (list PublicKey) := query_hosts (λ d id _, active_contract d id).
Definition tables_HostsForPinning : M db (list PublicKey) := query_hosts (λ d id _, unpinned_sector d id && active_contract d id).
Definition tables_HostsForPruning : M db (list PublicKey) := query_hosts (λ d id _, prunable_contract d id).
Definition tables_HostsWithLostSectors : M db (list PublicKey) := query_hosts (λ _ _ h, (0 <? h_lost_sectors h)%Z).

Definition tables_HostsForScanning : M db (list PublicKey) :=
  transaction (
    let* d := get in
    mret (host_keys (SliceStable (λ p q, int_Compare (hs_next_scan (h_scan p.2)) (hs_next_scan (h_scan q.2)))
      (select_hosts (λ _ h, (hs_next_scan (h_scan h) <=? db_now d)%Z) d)))).

Definition with_last_integrity_check (t : Z) (h : HostRow) : HostRow :=
  let s := h_scan h in
  with_scan (mkHostScan (hs_last_announcement s) (hs_has_quic s) (hs_has_siamux s) (hs_consecutive_failed_scans s) (hs_recent_uptime s)
    (hs_last_failed_scan s) (hs_last_successful_scan s) (hs_next_scan s) (hs_scans s) (hs_scans_failed s) t (hs_stuck_since s) (hs_location s)) h.
Definition with_stuck_since (t : option Z) (h : HostRow) : HostRow :=
  let s := h_scan h in
  with_scan (mkHostScan (hs_last_announcement s) (hs_has_quic s) (hs_has_siamux s) (hs_consecutive_failed_scans s) (hs_recent_uptime s)
    (hs_last_failed_scan s) (hs_last_successful_scan s) (hs_next_scan s) (hs_scans s) (hs_scans_failed s) (hs_last_integrity_check s) t (hs_location s)) h.
(** [UPDATE hosts SET ... WHERE P] *)
Definition update_hosts (P : Z → HostRow → bool) (f : HostRow → HostRow) : M db unit :=
  modify (set_hosts (map_imap (λ id h, Some (if P id h then f h else h)))).

Definition tables_HostsForIntegrityChecks (maxLastCheck limit : Z) : M db (list PublicKey) :=
  transaction (
    require (0 <=? limit)%Z "2201W" ;; (* LIMIT must not be negative *)
    let* d := get in
    let due id h := exists_row (λ _ s, on_host id s && (se_next_integrity_check s <=? db_now d)%Z) (sectors d) &&
      negb (bool_decide (is_Some (hosts_blocklist d !! h_public_key h))) && (hs_last_integrity_check (h_scan h) <=? maxLastCheck)%Z in
    let rows := take (Z.to_nat limit) (select_hosts due d) in
    update_hosts (λ id _, bool_decide (id ∈ rows.*1)) (with_last_integrity_check (db_now d)) ;;
    mret (host_keys rows)).

Definition tables_ResetLostSectors (hk : PublicKey) : M db unit :=
  transaction (
    let* d := get in
    match find_host hk d with
    | None => throw host_not_found
    | Some (id, h) => modify (set_hosts (insert id (with_lost 0 h)))
    end).

Definition tables_UpdateStuckHosts (stuck : list PublicKey) : M db unit :=
  transaction (
    let* d := get in
    (if bool_decide (stuck = []) then mret tt
     else update_hosts (λ _ h, bool_decide (h_public_key h ∈ stuck))
       (λ h, with_stuck_since (Some (default (db_now d) (hs_stuck_since (h_scan h)))) h)) ;;
    update_hosts (λ _ h, bool_decide (is_Some (hs_stuck_since (h_scan h))) && negb (bool_decide (h_public_key h ∈ stuck))) (with_stuck_since None)).

Definition tables_StuckHosts : M db (list StuckHost) :=
  transaction (
    let* d := get in
    mret (omap (λ p, (λ t, mkStuck (h_public_key p.2) t (h_unpinned_sectors p.2)) <$> hs_stuck_since (h_scan p.2)) (order (map_to_list (hosts d))))).
End store.

(** ** Usability *)

(** The logic of SQL: [None] is NULL. *)
Definition and3 (a b : option bool) : option bool :=
  match a, b with
  | Some false, _ | _, Some false => Some false
  | Some true, Some true => Some true
  | _, _ => None
  end.
Definition all3 (l : list (option bool)) : option bool := foldl and3 (Some true) l.
Definition le3 (a b : option Z) : option bool := match a, b with Some x, Some y => Some (x <=? y)%Z | _, _ => None end.

Definition one_tb : Z := 10 ^ 12.
Definition one_sc : Z := 10 ^ 24.
Definition sectors_per_tb : Z := 250000.
Definition min_uptime : float64 := of_decimal 9 1.

(** The conditions of [sqlUsabilityCheckColumns], in order. *)
Definition usability_columns (g : GlobalRow) (h : HostRow) : list (option bool) :=
  let s := h_scan h in
  let t := h_settings h in
  let has_settings := bool_decide (is_Some (hs_last_successful_scan s)) in
  let if_settings := and3 (Some has_settings) in
  [Some (negb (flt (hs_recent_uptime s) min_uptime));
   if_settings (Some (gs_contracts_period g <=? st_max_contract_duration t)%Z);
   if_settings (Some (st_collateral t * one_tb * gs_contracts_period g <=? st_max_collateral t)%Z);
   if_settings (le3 (gs_min_protocol_version g) (Some (st_protocol_version t)));
   if_settings (le3 ((λ x, x + 15 * Minute)%Z <$> hs_last_successful_scan s) (st_valid_until t));
   if_settings (Some (st_accepting_contracts t));
   Some (hs_has_quic s);
   Some (hs_has_siamux s);
   if_settings (Some (st_contract_price t <=? one_sc)%Z);
   and3 (if_settings (le3 (gs_min_collateral g) (Some (st_collateral t)))) (Some (2 * st_storage_price t <=? st_collateral t)%Z);
   if_settings (le3 (Some (st_storage_price t)) (gs_max_storage_price g));
   if_settings (le3 (Some (st_ingress_price t)) (gs_max_ingress_price g));
   if_settings (le3 (Some (st_egress_price t)) (gs_max_egress_price g));
   if_settings (Some (st_free_sector_price t <=? one_sc / sectors_per_tb)%Z)].

(** [sqlUsabilityFilter] *)
Definition usability_filter (g : GlobalRow) (h : HostRow) : option bool :=
  let s := h_scan h in
  let t := h_settings h in
  all3
    [Some (negb (flt (hs_recent_uptime s) min_uptime));
     Some (bool_decide (is_Some (hs_last_successful_scan s)));
     Some (gs_contracts_period g <=? st_max_contract_duration t)%Z;
     Some (st_collateral t * one_tb * gs_contracts_period g <=? st_max_collateral t)%Z;
     le3 (gs_min_protocol_version g) (Some (st_protocol_version t));
     le3 ((λ x, x + 15 * Minute)%Z <$> hs_last_successful_scan s) (st_valid_until t);
     Some (st_accepting_contracts t);
     Some (hs_has_quic s);
     Some (hs_has_siamux s);
     Some (st_contract_price t <=? one_sc)%Z;
     le3 (gs_min_collateral g) (Some (st_collateral t));
     Some (2 * st_storage_price t <=? st_collateral t)%Z;
     le3 (Some (st_storage_price t)) (gs_max_storage_price g);
     le3 (Some (st_ingress_price t)) (gs_max_ingress_price g);
     le3 (Some (st_egress_price t)) (gs_max_egress_price g);
     Some (st_free_sector_price t <=? one_sc / sectors_per_tb)%Z].

(** The columns are read into the struct; NULL is not a [bool]. *)
Definition scan_usability (l : list (option bool)) : result Usability.Usability :=
  match l with
  | [Some a; Some b; Some c; Some d; Some e; Some f; Some g; Some h; Some i; Some j; Some k; Some l; Some m; Some n] =>
      Ok (Usability.mk a b c d e f g h i j k l m n)
  | _ => Err (EMsg "cannot scan NULL into *bool")
  end.

Lemma and3_true a b : and3 a b = Some true ↔ a = Some true ∧ b = Some true.
Proof. destruct a as [[]|], b as [[]|]; simpl; naive_solver. Qed.
Lemma all3_true l : all3 l = Some true ↔ Forall (λ x, x = Some true) l.
Proof.
  unfold all3. assert (∀ acc, foldl and3 acc l = Some true ↔ acc = Some true ∧ Forall (λ x, x = Some true) l) as ->; [|naive_solver].
  induction l as [|x l IH]; intros acc; simpl; [by rewrite Forall_nil; naive_solver|]. rewrite IH, and3_true, Forall_cons. naive_solver.
Qed.
Lemma all_true (l : list (option bool)) : Forall (λ x, x = Some true) l ↔ l = replicate (length l) (Some true).
Proof.
  induction l as [|x l IH]; [done|]. rewrite Forall_cons, IH. simpl. split; [by intros [-> <-]|]. by intros [= -> <-].
Qed.
(** A result is the list of the columns, field by field. *)
Lemma scan_usability_columns l u : scan_usability l = Ok u → l = Some ∘ snd <$> Usability.checks u.
Proof.
  unfold scan_usability. intros Hu. do 14 (destruct l as [|[] l]; try discriminate Hu). destruct l; [|discriminate Hu]. by injection Hu as <-.
Qed.
Lemma scan_usability_good l u : length l = 14 → scan_usability l = Ok u → Usability.Usable u = true ↔ Forall (λ x, x = Some true) l.
Proof.
  intros Hl Hu. rewrite all_true, Hl. unfold Usability.Usable. rewrite bool_decide_eq_true. split.
  - intros ->. by rewrite (scan_usability_columns _ _ Hu).
  - intros ->. by injection Hu as <-.
Qed.
Lemma scan_usability_all l : length l = 14 → Forall (λ x, x = Some true) l → scan_usability l = Ok Usability.GoodUsability.
Proof. intros Hl HF%all_true. by rewrite HF, Hl. Qed.

(** C15. The filter that lists usable hosts and the checks that are reported for a host agree: a host passes the filter, in the three-valued logic of SQL, exactly if every one of its fourteen checks can be read and says yes, so that the host record calls itself usable; this also holds for hosts that were never scanned and for settings that are unset. *)
Theorem usability_filter_exact g h :
  usability_filter g h = Some true ↔ ∃ u, scan_usability (usability_columns g h) = Ok u ∧ Usability.Usable u = true.
Proof.
  assert (usability_filter g h = Some true ↔ Forall (λ x, x = Some true) (usability_columns g h)) as ->.
  { unfold usability_filter, usability_columns. rewrite all3_true, !Forall_cons, !Forall_nil. rewrite !and3_true. tauto. }
  split.
  - intros HF. exists Usability.GoodUsability. split; [by apply scan_usability_all|]. by apply bool_decide_eq_true.
  - intros (u & Hu & Hgood). by eapply scan_usability_good.
Qed.

(** ** Reading hosts *)

Section queries.
Local Open Scope go_scope.
Context {C : CurrencyOps} {R : RhpOps} {PN : ProtocolNames} {V : V2.Methods} {CC : ContractColumns} {HC : HostColumns} {SM : SqlMath}.
Context (order : ∀ {A}, list A → list A).
Arguments order {A} _.

(** [scanHost]: a NULL time stays the zero time. *)
Definition scanHost (d : db) (row : Z * HostRow) : M db Host :=
  let h := row.2 in
  let s := h_scan h in
  let* funding := lift (scan_currency (h_usage_account_funding h)) in
  let* spent := lift (scan_currency (h_usage_total_spent h)) in
  let* settings := lift (read_settings (h_settings h)) in
  let* usability := lift (scan_usability (usability_columns (globals d) h)) in
  let entry := hosts_blocklist d !! h_public_key h in
  mret (Host.mk (h_public_key h) (hs_last_announcement s) (default 0%Z (hs_last_failed_scan s)) (default 0%Z (hs_last_successful_scan s))
    (hs_next_scan s) (hs_consecutive_failed_scans s) (hs_recent_uptime s) [] (Hosts.CountryCode (hs_location s)) (Latitude (hs_location s))
    (Longitude (hs_location s)) settings usability (bool_decide (is_Some entry)) (default [] entry) (h_lost_sectors h) (h_unpinned_sectors h)
    funding spent (default 0%Z (hs_stuck_since s))).

Definition with_addresses (l : list NetAddress) (h : Host) : Host :=
  Host.mk (Host.PublicKey h) (Host.LastAnnouncement h) (Host.LastFailedScan h) (Host.LastSuccessfulScan h) (Host.NextScan h)
    (Host.ConsecutiveFailedScans h) (Host.RecentUptime h) l (Host.CountryCode h) (Host.Latitude h) (Host.Longitude h) (Host.Settings h)
    (Host.Usability h) (Host.Blocked h) (Host.BlockedReasons h) (Host.LostSectors h) (Host.UnpinnedSectors h) (Host.AccountFunding h)
    (Host.TotalSpent h) (Host.StuckSince h).

(** [decorateHostAddresses]: the addresses of each host, less those that QUIC does not use *)
Definition addresses_of (rows : list (Z * (Z * NetAddress))) (id : Z) : list NetAddress :=
  omap (λ p, if (p.2.1 =? id)%Z && negb (IsBadQUICAddress p.2.2) then Some p.2.2 else None) rows.
Definition decorate (ids : list Z) (d : db) : Z → list NetAddress :=
  addresses_of (order (filter (λ p, p.2.1 ∈ ids) (host_addresses d))).

Definition tables_Host (hk : PublicKey) : M db Host :=
  transaction (
    let* d := get in
    match find_host hk d with
    | None => throw host_not_found
    | Some row =>
        let* host := wrapM "failed to query host: " (scanHost d row) in
        mret (with_addresses (decorate [row.1] d row.1) host)
    end).

(** [buildHostOrderByClause]: the columns to sort by *)
Definition sortMapping : list (string * string) :=
  [("recentUptime", "recent_uptime"); ("settings.protocolVersion", "settings_protocol_version");
   ("settings.acceptingContracts", "settings_accepting_contracts"); ("settings.maxCollateral", "settings_max_collateral");
   ("settings.maxContractDuration", "settings_max_contract_duration"); ("settings.remainingStorage", "settings_remaining_storage");
   ("settings.totalStorage", "settings_total_storage"); ("settings.prices.contractPrice", "settings_contract_price");
   ("settings.prices.collateral", "settings_collateral"); ("settings.prices.storagePrice", "settings_storage_price");
   ("settings.prices.ingressPrice", "settings_ingress_price"); ("settings.prices.egressPrice", "settings_egress_price");
   ("settings.prices.freeSectorPrice", "settings_free_sector_price")]%string.
Definition assoc {A} (k : string) (l : list (string * A)) : option A := snd <$> find (λ p, String.eqb p.1 k) l.

Fixpoint buildHostOrderByClause (sorts : list HostSortOpt) : result (list (string * bool)) :=
  match sorts with
  | [] => Ok []
  | o :: sorts =>
      match assoc (Field o) sortMapping with
      | None => Err (EWrap "" (ESentinel ErrInvalidSortField) ": invalid sort column: %q, must be one of %v")
      | Some column =>
          match buildHostOrderByClause sorts with
          | Ok parts => Ok ((column, Descending o) :: parts)
          | r => r
          end
      end
  end.

(** The order of the values of a column; false is less than true. *)
Definition column_Compare (column : string) (a b : HostRow) : Z :=
  if String.eqb column "recent_uptime" then float_Compare (hs_recent_uptime (h_scan a)) (hs_recent_uptime (h_scan b))
  else
    let values := λ h, let s := h_settings h in
      [("settings_protocol_version", st_protocol_version s); ("settings_accepting_contracts", if st_accepting_contracts s then 1 else 0);
       ("settings_max_collateral", st_max_collateral s); ("settings_max_contract_duration", st_max_contract_duration s);
       ("settings_remaining_storage", st_remaining_storage s); ("settings_total_storage", st_total_storage s);
       ("settings_contract_price", st_contract_price s); ("settings_collateral", st_collateral s);
       ("settings_storage_price", st_storage_price s); ("settings_ingress_price", st_ingress_price s);
       ("settings_egress_price", st_egress_price s); ("settings_free_sector_price", st_free_sector_price s)]%string%Z in
    int_Compare (default 0%Z (assoc column (values a))) (default 0%Z (assoc column (values b))).
(** Ties are broken by [hosts.id]. *)
Fixpoint rows_Compare (parts : list (string * bool)) (a b : Z * HostRow) : Z :=
  match parts with
  | [] => int_Compare a.1 b.1
  | (column, descending) :: parts =>
      then_by (λ a b, if descending : bool then column_Compare column b.2 a.2 else column_Compare column a.2 b.2) (rows_Compare parts) a b
  end.

(** [$n::boolean IS NULL OR $n = b] *)
Definition optional (wanted : option bool) (b : option bool) : bool :=
  match wanted with None => true | Some w => bool_decide (b = Some w) end.

Definition revisable_contract (d : db) (id : Z) : bool := exists_row (λ _ c, (c_host_id c =? id)%Z && revisable d c) (contracts d).
Definition selected_host (opts : hostsQueryOpts) (d : db) (id : Z) (h : HostRow) : bool :=
  optional (QUsable opts) (usability_filter (globals d) h) &&
  optional (QBlocked opts) (Some (bool_decide (is_Some (hosts_blocklist d !! h_public_key h)))) &&
  optional (ActiveContracts opts) (Some (revisable_contract d id)) &&
  (bool_decide (PublicKeys opts = []) || bool_decide (h_public_key h ∈ PublicKeys opts)).

Definition host_page (opts : hostsQueryOpts) (parts : list (string * bool)) (offset limit : Z) (d : db) : list (Z * HostRow) :=
  page offset limit (SliceStable (rows_Compare parts) (filter (λ p, selected_host opts d p.1 p.2 = true) (map_to_list (hosts d)))).

Definition tables_Hosts (offset limit : Z) (queryOpts : list HostQueryOpt) : M db (list Host) :=
  match validateOffsetLimit offset limit with
  | Some e => throw e
  | None =>
      if (limit =? 0)%Z then mret []
      else
        let opts := apply_opts queryOpts in
        let* parts := lift (buildHostOrderByClause (Sorting opts)) in
        transaction (
          let* d := get in
          let rows := host_page opts parts offset limit d in
          foldM (λ hosts row, let* host := wrapM "failed to scan host: " (scanHost d row) in
            mret (hosts ++ [with_addresses (decorate rows.*1 d row.1) host])) [] rows)
  end.

(** ** Hosts for the application *)

Definition upload_ok (h : HostRow) : bool :=
  bool_decide (hs_stuck_since (h_scan h) = None) && (0 <? st_remaining_storage (h_settings h))%Z.

(** [EXISTS (SELECT 1 FROM host_addresses WHERE host_id = hosts.id AND protocol = $4)] *)
Definition offers (protocol : string) (d : db) (id : Z) : bool :=
  existsb (λ p, (p.2.1 =? id)%Z && String.eqb (NA_Protocol p.2.2) protocol) (host_addresses d).
Definition usable_host (o : UsableHostsQueryOpts) (d : db) (id : Z) (h : HostRow) : bool :=
  bool_decide (is_Some (hs_last_successful_scan (h_scan h))) &&
  bool_decide (usability_filter (globals d) h = Some true) &&
  match App.CountryCode o with Some c => String.eqb (Hosts.CountryCode (hs_location (h_scan h))) c | None => true end &&
  active_contract d id &&
  match QueryProtocol o with Some p => offers p d id | None => true end.

Definition usable_Compare (o : UsableHostsQueryOpts) : Z * HostRow → Z * HostRow → Z :=
  let by_id := λ a b, int_Compare a.1 b.1 in
  match QueryLocation o with
  | Some at_ => then_by (λ a b, float_Compare (point_distance (hs_location (h_scan a.2)) at_) (point_distance (hs_location (h_scan b.2)) at_)) by_id
  | None => by_id
  end.

Definition usable_info (d : db) (ids : list Z) (row : Z * HostRow) : HostInfo :=
  let l := hs_location (h_scan row.2) in
  mkHostInfo (h_public_key row.2) (decorate ids d row.1) (Hosts.CountryCode l) (Latitude l) (Longitude l) (upload_ok row.2).
Definition usable_rows (o : UsableHostsQueryOpts) (offset limit : Z) (d : db) : list (Z * HostRow) :=
  page offset limit (SliceStable (usable_Compare o) (filter (λ p, usable_host o d p.1 p.2 = true) (map_to_list (hosts d)))).

Definition tables_UsableHosts (offset limit : Z) (o : UsableHostsQueryOpts) : M db (list HostInfo) :=
  match validateOffsetLimit offset limit with
  | Some e => throw e
  | None =>
      if (limit =? 0)%Z then mret []
      else transaction (
        (* the protocol is a column of small integers *)
        (match QueryProtocol o with
         | Some p => if known_protocol (mkNetAddress p "") then mret tt else throw (EWrap "failed to query hosts: " (EMsg "unknown network protocol %q") "")
         | None => mret tt end) ;;
        let* d := get in
        let rows := usable_rows o offset limit d in
        mret (usable_info d rows.*1 <$> rows))
  end.
End queries.

(** A concrete choice of what the columns take from the libraries, for the witnesses. *)
Module TestColumns.
#[local] Existing Instances U128.ops TestRhp.ops.

#[export] Instance names : ProtocolNames := {| siamux_Protocol := "siamux"; quic_Protocol := "quic" |}.
Definition revision : V2.FileContract := V2.mk 0 0 900 1044 1 (U128.wrapped 1000) (U128.wrapped 2000) 21.

(** Numbers as bytes, one for each bit. *)
Fixpoint bits (p : positive) : list byte :=
  match p with xH => [] | xO p => Ascii.zero :: bits p | xI p => Ascii.one :: bits p end.
Fixpoint of_bits (l : list byte) : positive :=
  match l with [] => xH | b :: l => if Ascii.eqb b Ascii.one then xI (of_bits l) else xO (of_bits l) end.
Lemma of_bits_bits p : of_bits (bits p) = p.
Proof. by induction p as [p IH|p IH|]; simpl; rewrite ?IH. Qed.

Definition fields (r : V2.FileContract) : list Z :=
  [V2.Filesize r; V2.Capacity r; V2.ProofHeight r; V2.ExpirationHeight r; V2.RevisionNumber r; Big (V2.RenterOutputValue r);
   Big (V2.TotalCollateral r); Z.of_N (V2.HostPublicKey r)].
Definition read_fields (l : list Z) : result V2.FileContract :=
  match l with
  | [size; capacity; proof; expiration; number; output; collateral; key] =>
      match U128.inj output, U128.inj collateral with
      | Ok o, Ok c => Ok (V2.mk size capacity proof expiration number o c (Z.to_N key))
      | _, _ => Err (EMsg "values of currency can not be longer than 16 bytes")
      end
  | _ => Err (EMsg "unexpected EOF")
  end.

#[export] Instance contract_columns : ContractColumns := {|
  encode_revision r := bits (encode (fields r));
  decode_revision l := match decode (of_bits l) with Some l => read_fields l | None => Err (EMsg "unexpected EOF") end;
  AccountFunding _ := U128.wrapped 0;
  scan_currency := U128.inj |}.

Lemma inj_val (c : U128.t) : U128.inj (U128.val c) = Ok c.
Proof.
  destruct (U128.inj_ok (U128.val c) (U128.range c)) as ([v Hv] & -> & Hval). destruct c as [w Hw]. simpl in Hval. subst v.
  f_equal. f_equal. apply proof_irrel.
Qed.
#[export] Instance contract_laws : ContractColumnsLaws contract_columns.
Proof.
  split; [|exact inj_val]. intros [size capacity proof expiration number output collateral key]. cbn [decode_revision encode_revision contract_columns].
  rewrite of_bits_bits, decode_encode. unfold fields, read_fields. cbn [V2.Filesize V2.Capacity V2.ProofHeight V2.ExpirationHeight V2.RevisionNumber V2.RenterOutputValue V2.TotalCollateral V2.HostPublicKey Big U128.ops].
  by rewrite !inj_val, N2Z.id.
Qed.
#[export] Instance host_columns : HostColumns := {|
  version_bytes v := v;
  Release _ := "";
  settings_AcceptingContracts _ := true;
  settings_MaxContractDuration _ := 6000%Z;
  TotalStorage := RemainingStorage;
  prices_Collateral _ := U128.wrapped 2;
  FreeSectorPrice _ := U128.wrapped 0;
  prices_Signature _ := 0%N;
  read_settings s := Ok (mkSettings (st_protocol_version s) (st_wallet_address s) (U128.wrapped (st_max_collateral s)) (st_remaining_storage s)
    (TestRhp.mkPrices (U128.wrapped (st_storage_price s)) (U128.wrapped (st_ingress_price s)) (U128.wrapped (st_egress_price s)) (st_tip_height s))) |}.
(** Scans that are a half-life apart. *)
#[export] Instance sql_math : SqlMath := {| sql_exp _ := of_decimal 5 1; sql_ln _ := of_int 1; point_distance _ _ := of_int 0 |}.
End TestColumns.
