(* ===== verification/AppTables.v ===== *)
(** * Apps in the database (src/persist/postgres/apps.go, quotas.go, accounts.go)

    The transactions on quotas, connect keys and pre-authorized keys, the registration
    of an app's account, and the queries and updates of accounts. *)

From S2P Require Import Prelude Encoding External Alerts Slabs Objects Accounts App Connect Tables SlabTables.

(** Errors of the accounts package. *)
Definition ErrKeyAlreadyExists : string := "key already exists".
Definition ErrKeyInUse : string := "key in use".
Definition ErrQuotaNotFound : string := "quota not found".
Definition ErrQuotaInUse : string := "quota in use".

Definition ReadyHostThreshold : nat := 30.

(** [accounts.ConnectKey] *)
Record ConnectKey := mkConnectKey {
  Key_Key : string; Key_Description : string; Key_Quota : string; Key_RemainingUses : Z; Key_DateCreated : Z;
  Key_LastUpdated : Z; Key_LastUsed : Z; Key_PinnedData : Z; Key_PinnedSize : Z }.

(** [accounts.PreAuthorizedKey] *)
Record PreAuthorizedKey := mkPreAuthorizedKey {
  Pre_PublicKey : PublicKey; Pre_ConnectKey : string; Pre_Expiration : Z; Pre_TotalUses : Z; Pre_RemainingUses : Z;
  Pre_AllowedAppID : option Hash256; Pre_DateCreated : Z; Pre_LastUsed : Z }.

(** [accounts.PutQuotaRequest] *)
Record PutQuotaRequest := mkPutQuota {
  PQ_Description : string; PQ_MaxPinnedData : Z; PQ_TotalUses : Z; PQ_FundTargetBytes : option Z }.

(** [LENGTH] of a text in UTF-8: the bytes that do not continue a character. *)
Definition char_length (s : string) : Z :=
  Z.of_nat (length (filter (λ c, N.land (Ascii.N_of_ascii c) 192 ≠ 128%N) (String.list_ascii_of_string s))).

(** A value that is written to an INTEGER column, and one that is read into a [uint64]. *)
Definition int32 (z : Z) : M db unit := require (bool_decide (- 2 ^ 31 ≤ z < 2 ^ 31)%Z) numeric_value_out_of_range.
Definition not_null_violation : string := "23502".
Definition read_uint (z : Z) : result Z := if (0 <=? z)%Z then Ok z else Err (EMsg "%d is less than zero for uint64").

(** [LIMIT] and [OFFSET] that are not negative *)
Definition window {S} (offset limit : Z) : M S unit :=
  bindM (require (0 <=? offset)%Z "2201X") (λ _, require (0 <=? limit)%Z "2201W").

Section store.
Local Open Scope go_scope.
Context (order : ∀ {A}, list A → list A).
Arguments order {A} _.

(** ** Quotas (quotas.go) *)

Definition scanQuota (name : string) (q : QuotaRow) : M db Quota :=
  let* data := lift (read_uint (q_max_pinned_data q)) in
  let* target := lift (read_uint (q_fund_target_bytes q)) in
  mret (mkQuota name (q_description q) data (q_total_uses q) target).

Definition tables_PutQuota (key : string) (req : PutQuotaRequest) : M db unit :=
  transaction (
    bigint (PQ_MaxPinnedData req) ;;
    int32 (PQ_TotalUses req) ;;
    match PQ_FundTargetBytes req with
    | None => throw (ESentinel not_null_violation)
    | Some target =>
        bigint target ;;
        require ((0 <? char_length key)%Z && (char_length key <=? 32)%Z && (0 <=? PQ_MaxPinnedData req)%Z &&
                 (0 <=? PQ_TotalUses req)%Z && (0 <=? target)%Z) check_violation ;;
        modify (set_quotas (insert key (mkQuotaRow (PQ_Description req) (PQ_MaxPinnedData req) (PQ_TotalUses req) target)))
    end).

Definition tables_DeleteQuota (key : string) : M db unit :=
  transaction (
    let* d := get in
    if bool_decide (quotas d !! key = None) then throw (ESentinel ErrQuotaNotFound)
    else if exists_row (λ _ k, String.eqb (ck_quota_name k) key) (connect_keys d) then throw (ESentinel ErrQuotaInUse)
    else modify (set_quotas (delete key))).

Definition tables_Quota (key : string) : M db Quota :=
  transaction (
    let* d := get in
    match quotas d !! key with None => throw (ESentinel ErrQuotaNotFound) | Some q => scanQuota key q end).

(** [ORDER BY name]; the collation of the database is a parameter. *)
Definition tables_Quotas (collate : list string → list string) (offset limit : Z) : M db (list Quota) :=
  transaction (
    window offset limit ;;
    let* d := get in
    foldM (λ l name, match quotas d !! name with
      | Some q => let* quota := scanQuota name q in mret (l ++ [quota])
      | None => mret l
      end) [] (take (Z.to_nat limit) (drop (Z.to_nat offset) (collate (map_to_list (quotas d)).*1)))).

(** ** Connect keys (apps.go) *)

Definition find_connect_key (key : string) (d : db) : option (Z * ConnectKeyRow) :=
  find_row (λ _ k, String.eqb (ck_app_key k) key) (connect_keys d).

(** [SELECT COUNT( * ) FROM accounts WHERE connect_key_id = ... AND deleted_at IS NULL] *)
Definition live_accounts (keyID : Z) (d : db) : Z :=
  msum (λ _ a, if is_live a && (a_connect_key_id a =? keyID)%Z then 1 else 0)%Z (accounts d).
Definition remaining_uses (keyID : Z) (q : QuotaRow) (d : db) : Z := Z.max 0 (q_total_uses q - live_accounts keyID d).

Definition scanConnectKey (k : ConnectKeyRow) (remaining : Z) : M db ConnectKey :=
  let* data := lift (read_uint (ck_pinned_data k)) in
  let* size := lift (read_uint (ck_pinned_size k)) in
  mret (mkConnectKey (ck_app_key k) (ck_use_description k) (ck_quota_name k) remaining (ck_created_at k) (ck_updated_at k)
    (default 0%Z (ck_last_used k)) data size).

(** [INSERT INTO app_connect_keys ... ON CONFLICT (app_key) DO NOTHING RETURNING ...];
    the reference to the quota is checked when the statement ends. *)
Definition insert_connect_key (userSecret : Hash256) (meta : AppConnectKeyRequest) : M db (Z * ConnectKeyRow * QuotaRow) :=
  let* id := nextval "app_connect_keys" in
  let* d := get in
  match find_connect_key (CK_Key meta) d with
  | Some _ => throw (ESentinel ErrNoRows)
  | None =>
      require (bool_decide (connect_keys d !! id = None) &&
               negb (exists_row (λ _ k, (ck_user_secret k =? userSecret)%N) (connect_keys d))) unique_violation ;;
      match quotas d !! CK_Quota meta with
      | None => throw (ESentinel foreign_key_violation)
      | Some q =>
          let k := mkConnectKeyRow userSecret (CK_Key meta) (CK_Description meta) (CK_Quota meta) (db_now d) (db_now d) None 0 0 in
          modify (set_connect_keys (insert id k)) ;; mret (id, k, q)
      end
  end.

Definition insert_pool (key : string) (poolKey : N) : M db unit :=
  let* d := get in
  match find_connect_key key d with
  | None => throw (ESentinel not_null_violation)
  | Some (keyID, _) =>
      let* id := nextval "pools" in
      let* d := get in
      require (bool_decide (pools d !! id = None) &&
               negb (exists_row (λ _ p, (po_connect_key_id p =? keyID)%Z || (po_pool_key p =? poolKey)%N) (pools d))) unique_violation ;;
      modify (set_pools (insert id (mkPoolRow keyID poolKey)))
  end.

(** [userSecret] is [frand.Bytes(32)] and [poolKey] is [types.GeneratePrivateKey()]. *)
Definition tables_AddAppConnectKey (userSecret : Hash256) (poolKey : N) (meta : AppConnectKeyRequest) : M db ConnectKey :=
  transaction (
    let* r := try (
      let* r := insert_connect_key userSecret meta in
      let '(id, k, q) := r in
      scanConnectKey k (q_total_uses q)) in
    match r with
    | Ok key => insert_pool (CK_Key meta) poolKey ;; mret key
    | Err e =>
        if errors_Is e ErrNoRows then throw (ESentinel ErrKeyAlreadyExists)
        else if errors_Is e foreign_key_violation then throw (ESentinel ErrQuotaNotFound)
        else if errors_Is e unique_violation then throw (ESentinel ErrKeyAlreadyExists)
        else throw e
    | Panic => panic
    end).

Definition with_quota (description quota : string) (k : ConnectKeyRow) : ConnectKeyRow :=
  mkConnectKeyRow (ck_user_secret k) (ck_app_key k) description quota (ck_created_at k) (ck_updated_at k) (ck_last_used k)
    (ck_pinned_data k) (ck_pinned_size k).

Definition tables_UpdateAppConnectKey (meta : AppConnectKeyRequest) : M db ConnectKey :=
  transaction (
    let* d := get in
    match quotas d !! CK_Quota meta with
    | None => throw (ESentinel ErrQuotaNotFound)
    | Some q =>
        match find_connect_key (CK_Key meta) d with
        | None => throw (ESentinel ErrKeyNotFound)
        | Some (id, k) =>
            let k := with_quota (CK_Description meta) (CK_Quota meta) k in
            modify (set_connect_keys (insert id k)) ;;
            scanConnectKey k (remaining_uses id q d)
        end
    end).

Definition tables_ValidAppConnectKey (key : string) : M db unit :=
  transaction (
    let* d := get in
    if bool_decide (find_connect_key key d = None) then throw (ESentinel ErrKeyNotFound) else mret tt).

Definition tables_AppConnectKey (key : string) : M db ConnectKey :=
  transaction (
    let* d := get in
    match find_connect_key key d with
    | None => throw (ESentinel ErrKeyNotFound)
    | Some (id, k) =>
        match quotas d !! ck_quota_name k with
        | None => throw (ESentinel ErrKeyNotFound)
        | Some q => scanConnectKey k (remaining_uses id q d)
        end
    end).

(** [ORDER BY created_at DESC LIMIT $1 OFFSET $2] *)
Definition newest {S A} (created : A → Z) (offset limit : Z) (l : list A) : M S (list A) :=
  window offset limit ;;
  mret (take (Z.to_nat limit) (drop (Z.to_nat offset) ((merge_sort (λ p q : Z * A, (q.1 ≤ p.1)%Z) ((λ x, (created x, x)) <$> order l)).*2))).

Definition tables_AppConnectKeys (offset limit : Z) : M db (list ConnectKey) :=
  transaction (
    let* d := get in
    let* rows := newest (λ p : Z * ConnectKeyRow * QuotaRow, ck_created_at p.1.2) offset limit
      (omap (λ p, (λ q, (p, q)) <$> quotas d !! ck_quota_name p.2) (map_to_list (connect_keys d))) in
    foldM (λ l '(id, k, q), let* key := scanConnectKey k (remaining_uses id q d) in mret (l ++ [key])) [] rows).

(** A connect key goes with its pre-authorized keys and its pool. *)
Definition delete_pools (gone : Z → bool) : M db unit :=
  modify (set_pools (delete_rows (λ id _, gone id))) ;;
  modify (set_pool_hosts (delete_rows (λ k _, gone k.1))) ;;
  modify (set_pool_attachments (delete_rows (λ k _, gone k.1.1))).
Definition delete_connect_key (id : Z) : M db unit :=
  let* d := get in
  require (negb (exists_row (λ _ a, (a_connect_key_id a =? id)%Z) (accounts d))) foreign_key_violation ;;
  delete_pools (λ p, match pools d !! p with Some row => (po_connect_key_id row =? id)%Z | None => false end) ;;
  modify (set_preauthorized_keys (delete_rows (λ _ k, (pa_connect_key_id k =? id)%Z))) ;;
  modify (set_connect_keys (delete id)).

Definition tables_DeleteAppConnectKey (connectKey : string) : M db unit :=
  transaction (
    let* d := get in
    match find_connect_key connectKey d with
    | None => throw (ESentinel ErrKeyNotFound)
    | Some (id, _) =>
        if exists_row (λ _ a, (a_connect_key_id a =? id)%Z) (accounts d) then throw (ESentinel ErrKeyInUse)
        else delete_connect_key id
    end).

(** ** Pre-authorized keys (apps.go) *)

Definition scanPreAuthorizedKey (pk : PublicKey) (connectKey : string) (k : PreauthRow) : PreAuthorizedKey :=
  mkPreAuthorizedKey pk connectKey (pa_expires_at k) (pa_total_uses k) (pa_remaining_uses k) (pa_allowed_app_id k) (pa_created_at k)
    (default 0%Z (pa_last_used k)).

Definition tables_AddPreAuthorizedKey (req : PreAuthorizedKeyRequest) : M db PreAuthorizedKey :=
  transaction (
    let* d := get in
    match find_connect_key (PK_ConnectKey req) d with
    | None => throw (ESentinel ErrKeyNotFound)
    | Some (keyID, _) =>
        int32 (PK_TotalUses req) ;;
        require (0 <? PK_TotalUses req)%Z check_violation ;;
        if bool_decide (is_Some (preauthorized_keys d !! PK_PublicKey req)) then throw (ESentinel ErrKeyAlreadyExists)
        else
          let k := mkPreauthRow keyID (PK_Expiration req) (PK_TotalUses req) (PK_TotalUses req) (PK_AllowedAppID req) (db_now d) None in
          modify (set_preauthorized_keys (insert (PK_PublicKey req) k)) ;;
          mret (scanPreAuthorizedKey (PK_PublicKey req) (PK_ConnectKey req) k)
    end).

(** [INNER JOIN app_connect_keys]: the key with its connect key *)
Definition preauthorized (pk : PublicKey) (d : db) : option (PreauthRow * ConnectKeyRow) :=
  k ← preauthorized_keys d !! pk; c ← connect_keys d !! pa_connect_key_id k; Some (k, c).

Definition tables_PreAuthorizedKey (pk : PublicKey) : M db PreAuthorizedKey :=
  transaction (
    let* d := get in
    match preauthorized pk d with
    | None => throw (ESentinel ErrKeyNotFound)
    | Some (k, c) => mret (scanPreAuthorizedKey pk (ck_app_key c) k)
    end).

Definition tables_PreAuthorizedKeys (offset limit : Z) : M db (list PreAuthorizedKey) :=
  transaction (
    let* d := get in
    newest Pre_DateCreated offset limit
      (omap (λ p : PublicKey * PreauthRow, (λ c, scanPreAuthorizedKey p.1 (ck_app_key c) p.2) <$> connect_keys d !! pa_connect_key_id p.2)
        (map_to_list (preauthorized_keys d)))).

Definition tables_DeletePreAuthorizedKey (pk : PublicKey) : M db unit :=
  transaction (
    let* d := get in
    if bool_decide (preauthorized_keys d !! pk = None) then throw (ESentinel ErrKeyNotFound)
    else modify (set_preauthorized_keys (delete pk))).

Definition tables_PruneExpiredPreAuthorizedKeys (cutoff : Z) : M db unit :=
  transaction (modify (set_preauthorized_keys (delete_rows (λ _ k, (pa_expires_at k <=? cutoff)%Z)))).

(** The secret of a connect key, and whether the app has an account of it. *)
Definition appAuthorization (connectKey : string) (appID : Hash256) : M db (Hash256 * bool) :=
  let* d := get in
  match find_connect_key connectKey d with
  | None => throw (ESentinel ErrKeyNotFound)
  | Some (id, k) =>
      mret (ck_user_secret k,
        exists_row (λ _ a, (a_connect_key_id a =? id)%Z && (Meta_ID (a_app a) =? appID)%N && is_live a) (accounts d))
  end.

Definition tables_AppAuthorization (connectKey : string) (appID : Hash256) : M db (Hash256 * bool) :=
  transaction (appAuthorization connectKey appID).

(** The condition of the update that takes a use. *)
Definition consumable (d : db) (appID : Hash256) (k : PreauthRow) : bool :=
  (db_now d <? pa_expires_at k)%Z && (0 <? pa_remaining_uses k)%Z &&
  match pa_allowed_app_id k with None => true | Some id => (id =? appID)%N end.
Definition consumed (now : Z) (k : PreauthRow) : PreauthRow :=
  mkPreauthRow (pa_connect_key_id k) (pa_expires_at k) (pa_total_uses k) (pa_remaining_uses k - 1) (pa_allowed_app_id k)
    (pa_created_at k) (Some now).
(** Why a key was not consumed. *)
Definition consume_error (d : db) (pk : PublicKey) (appID : Hash256) : string :=
  match preauthorized_keys d !! pk with
  | None => ErrKeyNotFound
  | Some k =>
      if (pa_expires_at k <=? db_now d)%Z then ErrPreAuthorizedKeyExpired
      else if (pa_remaining_uses k <=? 0)%Z then ErrPreAuthorizedKeyExhausted
      else match pa_allowed_app_id k with
           | Some id => if (id =? appID)%N then ErrKeyNotFound else ErrPreAuthorizedKeyAppMismatch
           | None => ErrKeyNotFound
           end
  end.

Definition tables_ConsumePreAuthorizedKey (pk : PublicKey) (appID : Hash256) : M db (string * Hash256 * bool) :=
  transaction (
    let* d := get in
    match preauthorized pk d with
    | Some (k, c) =>
        if consumable d appID k then
          modify (set_preauthorized_keys (insert pk (consumed (db_now d) k))) ;;
          let* r := appAuthorization (ck_app_key c) appID in
          mret (ck_app_key c, r.1, r.2)
        else throw (ESentinel (consume_error d pk appID))
    | None => throw (ESentinel (consume_error d pk appID))
    end).

(** ** Accounts (accounts.go) *)

Definition key_used (now : Z) (k : ConnectKeyRow) : ConnectKeyRow :=
  mkConnectKeyRow (ck_user_secret k) (ck_app_key k) (ck_use_description k) (ck_quota_name k) (ck_created_at k) (ck_updated_at k)
    (Some now) (ck_pinned_data k) (ck_pinned_size k).

(** [INSERT INTO accounts ... ON CONFLICT DO NOTHING], whose conflict may be any unique
    column; deleted accounts are still rows. The options give the limit. *)
Definition addAccount (connectKey : string) (account : PublicKey) (meta : AppMeta) (opts : list (Z → Z)) : M db unit :=
  let maxPinnedData := foldl (λ o f, f o) (two63 - 1)%Z opts in
  let* d := get in
  match find_connect_key connectKey d with
  | None => throw (ESentinel ErrKeyNotFound)
  | Some (keyID, _) =>
      wrapM "failed to add account: " (bigint maxPinnedData) ;;
      wrapM "failed to add account: " (require (0 <=? maxPinnedData)%Z check_violation) ;;
      let* id := nextval "accounts" in
      let* d := get in
      if bool_decide (is_Some (find_account account d)) || bool_decide (is_Some (accounts d !! id)) then throw (ESentinel ErrExists)
      else
        modify (set_accounts (insert id (mkAccountRow account keyID 0 0 maxPinnedData meta (db_now d) None))) ;;
        wrapM "failed to increment registered accounts: " (incrementStat statAccountsRegistered 1)
  end.

Definition tables_RegisterAppKey (connectKey : string) (appKey : PublicKey) (meta : AppMeta) : M db unit :=
  transaction (
    let* d := get in
    match find_connect_key connectKey d with
    | None => throw (ESentinel ErrKeyNotFound)
    | Some (id, k) =>
        match quotas d !! ck_quota_name k with
        | None => throw (ESentinel ErrKeyNotFound)
        | Some q =>
            let remainingUses := remaining_uses id q d in
            modify (set_connect_keys (insert id (key_used (db_now d) k))) ;;
            let* r := try (addAccount connectKey appKey meta []) in
            match r with
            | Ok _ => if (remainingUses <=? 0)%Z then throw (ESentinel ErrKeyExhausted) else mret tt
            | Err e => if errors_Is e ErrExists then throw e else throw (EWrap "failed to add app account: " e "")
            | Panic => panic
            end
        end
    end).

Definition account_used (now : Z) (a : AccountRow) : AccountRow :=
  mkAccountRow (a_public_key a) (a_connect_key_id a) (a_pinned_data a) (a_pinned_size a) (a_max_pinned_data a) (a_app a) now (a_deleted_at a).

Definition tables_HasAccount (ak : PublicKey) : M db bool :=
  wrapM "failed to check if account exists: " (transaction (
    let* d := get in
    match find_account ak d with
    | Some (id, a) => if is_live a then modify (set_accounts (insert id (account_used (db_now d) a))) ;; mret true else mret false
    | None => mret false
    end)).

Definition with_max_pinned (n : Z) (a : AccountRow) : AccountRow :=
  mkAccountRow (a_public_key a) (a_connect_key_id a) (a_pinned_data a) (a_pinned_size a) n (a_app a) (a_last_used a) (a_deleted_at a).

Definition tables_UpdateAccount (ak : PublicKey) (maxPinnedData : option Z) : M db unit :=
  match maxPinnedData with
  | None => mret tt
  | Some n =>
      transaction (
        wrapM "failed to update max pinned data: " (bigint n) ;;
        let* d := get in
        match find_account ak d with
        | Some (id, a) =>
            if is_live a then
              wrapM "failed to update max pinned data: " (require (0 <=? n)%Z check_violation) ;;
              modify (set_accounts (insert id (with_max_pinned n a)))
            else throw (ESentinel Accounts.ErrNotFound)
        | None => throw (ESentinel Accounts.ErrNotFound)
        end)
  end.

(** The hosts that are ready for an account: those where its pool was funded and
    attached, and those where it was funded itself. *)
Definition ready_hosts (accountID : Z) (d : db) : gset Z :=
  let attached := omap (λ p : Z * Z * Z * unit,
    let '(pool, host, acc, _) := p in
    if (acc =? accountID)%Z && match pool_hosts d !! (pool, host) with Some f => (fr_consecutive_failed_funds f =? 0)%Z | None => false end
    then Some host else None) (map_to_list (pool_attachments d)) in
  let funded := omap (λ p : Z * Z * FundRow,
    if (p.1.1 =? accountID)%Z && (fr_consecutive_failed_funds p.2 =? 0)%Z then Some p.1.2 else None) (map_to_list (account_hosts d)) in
  list_to_set (attached ++ funded).
Definition account_ready (accountID : Z) (d : db) : bool :=
  Nat.leb ReadyHostThreshold (Nat.min ReadyHostThreshold (size (ready_hosts accountID d))).

(** [INNER JOIN app_connect_keys INNER JOIN quotas]: the key and the quota of an account *)
Definition key_and_quota (a : AccountRow) (d : db) : option (ConnectKeyRow * QuotaRow) :=
  k ← connect_keys d !! a_connect_key_id a; q ← quotas d !! ck_quota_name k; Some (k, q).

Definition scanAccount (d : db) (row : Z * AccountRow) (k : ConnectKeyRow) (q : QuotaRow) : M db Account :=
  let a := row.2 in
  let* max := lift (read_uint (a_max_pinned_data a)) in
  let* quota_max := lift (read_uint (q_max_pinned_data q)) in
  let* key_data := lift (read_uint (ck_pinned_data k)) in
  let* data := lift (read_uint (a_pinned_data a)) in
  let* size := lift (read_uint (a_pinned_size a)) in
  mret (mkAccount (a_public_key a) (ck_app_key k) max quota_max key_data (account_ready row.1 d) data size (a_app a) (a_last_used a)).

Definition tables_Account (ak : PublicKey) : M db Account :=
  transaction (
    let* d := get in
    match find_account ak d with
    | None => throw (ESentinel ErrNoRows)
    | Some row => match key_and_quota row.2 d with None => throw (ESentinel ErrNoRows) | Some (k, q) => scanAccount d row k q end
    end).

(** [ORDER BY a.id] *)
Definition by_id {A} (p q : Z * A) : Prop := (p.1 ≤ q.1)%Z.
#[export] Instance by_id_dec {A} (p q : Z * A) : Decision (by_id p q).
Proof. unfold by_id. apply _. Defined.

Definition tables_Accounts (connectKey : option string) (offset limit : Z) : M db (list Account) :=
  match validateOffsetLimit offset limit with
  | Some e => throw e
  | None =>
      if (limit =? 0)%Z then mret []
      else
        transaction (
          let* d := get in
          let* keyID := match connectKey with
            | None => mret None
            | Some key => match find_connect_key key d with None => throw (ESentinel ErrKeyNotFound) | Some (id, _) => mret (Some id) end
            end in
          let rows := omap (λ row : Z * AccountRow,
            if is_live row.2 && match keyID with None => true | Some id => (a_connect_key_id row.2 =? id)%Z end
            then (λ kq, (row, kq)) <$> key_and_quota row.2 d else None) (merge_sort by_id (map_to_list (accounts d))) in
          foldM (λ l '(row, (k, q)),
            let* a := wrapM "failed to scan account key: " (scanAccount d row k q) in mret (l ++ [a])) []
            (take (Z.to_nat limit) (drop (Z.to_nat offset) rows)))
  end.
End store.
