(* ===== verification/FundingTables.v ===== *)
(** * Funding in the database (src/persist/postgres/funding.go)

    Which accounts and pools of a host are due for funding, when each is next, and
    which accounts have been attached to the pool of their connect key on a host. *)

From S2P Require Import Prelude Order Encoding External Alerts Api Slabs Objects Accounts App Connect Tables SlabTables ContractTables AppTables HostTables.

(** '1970-01-01 00:00:00+00' *)
Definition epoch : Z := unix_epoch * Second.

Definition cardinality_violation : string := "21000".

Section store.
Local Open Scope go_scope.
Context {C : CurrencyOps} {R : RhpOps}.
Context (order : ∀ {A}, list A → list A).
Arguments order {A} _.
(** The clock of the program, and the account key that is derived from the secret of a
    connect key ([accounts.DeriveSharingAccountKey]). *)
Context (time_Now : M db Z) (sharing_account : Hash256 → PublicKey).

(** ** Quotas *)

(** [last_used >= $1 AND deleted_at IS NULL] *)
Definition active (threshold : Z) (a : AccountRow) : bool := is_live a && (threshold <=? a_last_used a)%Z.
Definition key_full (k : ConnectKeyRow) (q : QuotaRow) : bool := (q_max_pinned_data q <=? ck_pinned_data k)%Z.
Definition account_full (a : AccountRow) (k : ConnectKeyRow) (q : QuotaRow) : bool :=
  (a_max_pinned_data a <=? a_pinned_data a)%Z || key_full k q.

(** [GROUP BY q.name]: the rows, each with its quota and whether its storage is full *)
Definition group_quotas (rows : list (string * bool)) (d : db) : list QuotaFundInfo :=
  order (omap (λ p : string * QuotaRow,
    let of_quota := filter (λ r, r.1 = p.1) rows in
    if bool_decide (of_quota = []) then None
    else Some (mkQuotaFundInfo p.1 (q_fund_target_bytes p.2) (Z.of_nat (length of_quota))
      (Z.of_nat (length (filter (λ r, r.2 = true) of_quota))))) (map_to_list (quotas d))).

Definition tables_AccountFundingInfo (threshold : Z) : M db (list QuotaFundInfo) :=
  transaction (
    let* d := get in
    mret (group_quotas (omap (λ p : Z * AccountRow,
      if active threshold p.2 then (λ kq : ConnectKeyRow * QuotaRow, (ck_quota_name kq.1, account_full p.2 kq.1 kq.2)) <$> key_and_quota p.2 d
      else None) (map_to_list (accounts d))) d)).

(** An active account of the connect key *)
Definition key_active (threshold keyID : Z) (d : db) : bool :=
  exists_row (λ _ a, (a_connect_key_id a =? keyID)%Z && active threshold a) (accounts d).
Definition pool_key_and_quota (p : PoolRow) (d : db) : option (ConnectKeyRow * QuotaRow) :=
  k ← connect_keys d !! po_connect_key_id p; q ← quotas d !! ck_quota_name k; Some (k, q).

Definition tables_PoolFundingInfo (threshold : Z) : M db (list QuotaFundInfo) :=
  transaction (
    let* d := get in
    mret (group_quotas (omap (λ p : Z * PoolRow,
      if key_active threshold (po_connect_key_id p.2) d
      then (λ kq : ConnectKeyRow * QuotaRow, (ck_quota_name kq.1, key_full kq.1 kq.2)) <$> pool_key_and_quota p.2 d
      else None) (map_to_list (pools d))) d)).

(** ** What is due *)

(** The accounts that a query selects: active, with the quota, and a condition on the row
    of the host; with whether their storage is full. *)
Definition fundable_accounts (hostID : Z) (quotaName : string) (threshold : Z) (due : option FundRow → bool) (d : db)
    : list (AccountRow * option FundRow * bool) :=
  omap (λ p : Z * AccountRow,
    let f := account_hosts d !! (p.1, hostID) in
    match key_and_quota p.2 d with
    | Some (k, q) =>
        if active threshold p.2 && String.eqb (ck_quota_name k) quotaName && due f then Some (p.2, f, account_full p.2 k q) else None
    | None => None
    end) (map_to_list (accounts d)).
Definition unfunded (f : option FundRow) : bool := bool_decide (f = None).
Definition due_at (now : Z) (f : option FundRow) : bool := match f with Some f => (fr_next_fund f <=? now)%Z | None => false end.

Definition newHostAccountsForFunding (hk : PublicKey) (hostID : Z) (quotaName : string) (threshold limit : Z) : M db (list HostAccount) :=
  let* d := get in
  foldM (λ l '(a, _, full),
    let* now := time_Now in mret (l ++ [mkHostAccount (a_public_key a) hk 0 now full])) []
    (take (Z.to_nat limit) (order (fundable_accounts hostID quotaName threshold unfunded d))).

(** [ORDER BY next_fund ASC] *)
Definition earlier (f g : option FundRow) : Z := int_Compare (default 0%Z (fr_next_fund <$> f)) (default 0%Z (fr_next_fund <$> g)).
Definition funded_account (hk : PublicKey) (row : AccountRow * option FundRow * bool) : HostAccount :=
  let '(a, f, full) := row in
  mkHostAccount (a_public_key a) hk (default 0%Z (fr_consecutive_failed_funds <$> f)) (default 0%Z (fr_next_fund <$> f)) full.

Definition existingHostAccountsForFunding (hk : PublicKey) (hostID : Z) (quotaName : string) (threshold limit : Z) : M db (list HostAccount) :=
  let* d := get in
  mret (funded_account hk <$> take (Z.to_nat limit)
    (SliceStable (λ p q, earlier p.1.2 q.1.2) (order (fundable_accounts hostID quotaName threshold (due_at (db_now d)) d)))).

Definition tables_HostAccountsForFunding (hk : PublicKey) (quotaName : string) (threshold limit : Z) : M db (list HostAccount) :=
  if (limit <? 0)%Z then throw (EMsg "limit can not be negative")
  else if (limit =? 0)%Z then mret []
  else
    transaction (
      let* d := get in
      match find_host hk d with
      | None => throw (ESentinel ErrHostNotFound)
      | Some (hostID, _) =>
          let* newAccs := wrapM "failed to query new accounts for funding: " (newHostAccountsForFunding hk hostID quotaName threshold limit) in
          if (limit <=? Z.of_nat (length newAccs))%Z then mret newAccs
          else
            let* existingAccs := wrapM "failed to query existing accounts for funding: "
              (existingHostAccountsForFunding hk hostID quotaName threshold (limit - Z.of_nat (length newAccs))) in
            mret (newAccs ++ existingAccs)
      end).

Definition fundable_pools (hostID : Z) (quotaName : string) (threshold : Z) (due : option FundRow → bool) (d : db)
    : list (Z * PoolRow * option FundRow * bool) :=
  omap (λ p : Z * PoolRow,
    let f := pool_hosts d !! (p.1, hostID) in
    match pool_key_and_quota p.2 d with
    | Some (k, q) =>
        if key_active threshold (po_connect_key_id p.2) d && String.eqb (ck_quota_name k) quotaName && due f then Some (p, f, key_full k q) else None
    | None => None
    end) (map_to_list (pools d)).

Definition newHostPoolsForFunding (hk : PublicKey) (hostID : Z) (quotaName : string) (threshold limit : Z) : M db (list HostPool) :=
  let* d := get in
  foldM (λ l '(p, _, full),
    let* now := time_Now in mret (l ++ [mkHostPool p.1 hk (po_pool_key p.2) 0 now full])) []
    (take (Z.to_nat limit) (order (fundable_pools hostID quotaName threshold unfunded d))).

Definition funded_pool (hk : PublicKey) (row : Z * PoolRow * option FundRow * bool) : HostPool :=
  let '(p, f, full) := row in
  mkHostPool p.1 hk (po_pool_key p.2) (default 0%Z (fr_consecutive_failed_funds <$> f)) (default 0%Z (fr_next_fund <$> f)) full.

Definition existingHostPoolsForFunding (hk : PublicKey) (hostID : Z) (quotaName : string) (threshold limit : Z) : M db (list HostPool) :=
  let* d := get in
  mret (funded_pool hk <$> take (Z.to_nat limit)
    (SliceStable (λ p q, earlier p.1.2 q.1.2) (order (fundable_pools hostID quotaName threshold (due_at (db_now d)) d)))).

Definition tables_HostPoolsForFunding (hk : PublicKey) (quotaName : string) (threshold limit : Z) : M db (list HostPool) :=
  if (limit <? 0)%Z then throw (EMsg "limit can not be negative")
  else if (limit =? 0)%Z then mret []
  else
    transaction (
      let* d := get in
      match find_host hk d with
      | None => throw (ESentinel ErrHostNotFound)
      | Some (hostID, _) =>
          let* newPools := wrapM "failed to query new pools for funding: " (newHostPoolsForFunding hk hostID quotaName threshold limit) in
          if (limit <=? Z.of_nat (length newPools))%Z then mret newPools
          else
            let* existingPools := wrapM "failed to query existing pools for funding: "
              (existingHostPoolsForFunding hk hostID quotaName threshold (limit - Z.of_nat (length newPools))) in
            mret (newPools ++ existingPools)
      end).

(** ** The schedule *)

Definition with_next_fund (t : Z) (f : FundRow) : FundRow := mkFundRow t (fr_consecutive_failed_funds f) (fr_sharing_attached f).

Definition tables_ScheduleAccountForFunding (hostKey account : PublicKey) : M db unit :=
  transaction (
    let* d := get in
    match find_account account d, find_host hostKey d with
    | Some (acc, _), Some (host, _) => modify (set_account_hosts (alter (with_next_fund epoch) (acc, host)))
    | _, _ => mret tt
    end).

(** A row that is new, or the columns of one that is there. *)
Definition upserted (failed next : Z) (f : option FundRow) : FundRow :=
  mkFundRow next failed (match f with Some f => fr_sharing_attached f | None => false end).

(** [INSERT INTO ... SELECT ... ON CONFLICT DO UPDATE]: the rows whose two references are
    known; a statement cannot affect a row twice. *)
Definition upsert_funds (set_funds : (gmap (Z * Z) FundRow → gmap (Z * Z) FundRow) → db → db)
    (rows : list (option (Z * Z) * Z * Z)) : M db unit :=
  forM rows (λ r, require (bool_decide (- 2 ^ 31 ≤ r.1.2 < 2 ^ 31)%Z) numeric_value_out_of_range) ;;
  let known := omap (λ r : option (Z * Z) * Z * Z, (λ k, (k, r.1.2, r.2)) <$> r.1.1) rows in
  require (bool_decide (NoDup known.*1.*1)) cardinality_violation ;;
  forM known (λ '(k, failed, next), modify (set_funds (λ m, <[k := upserted failed next (m !! k)]> m))).

Definition tables_UpdateHostAccounts (accounts : list HostAccount) : M db unit :=
  if bool_decide (accounts = []) then mret tt
  else if (MaxAccountBatchSize <? Z.of_nat (length accounts))%Z then throw (EMsg "too many accounts to update")
  else
    transaction (
      let* d := get in
      upsert_funds set_account_hosts ((λ a,
        (a' ← find_account (AccountKey a) d; h ← find_host (AHostKey a) d; Some (a'.1, h.1), ConsecutiveFailedFunds a, NextFund a)) <$> accounts)).

Definition find_pool (key : N) (d : db) : option (Z * PoolRow) := find_row (λ _ p, (po_pool_key p =? key)%N) (pools d).

Definition tables_UpdateHostPools (l : list HostPool) : M db unit :=
  if bool_decide (l = []) then mret tt
  else if (MaxAccountBatchSize <? Z.of_nat (length l))%Z then throw (EMsg "too many pools to update")
  else
    transaction (
      let* d := get in
      upsert_funds set_pool_hosts ((λ p,
        (p' ← find_pool (PoolPublicKey p) d; h ← find_host (PHostKey p) d; Some (p'.1, h.1), PConsecutiveFailedFunds p, PNextFund p)) <$> l)).

(** ** Attachments *)

(** The pool of a connect key; the column is unique. *)
Definition pool_of (keyID : Z) (d : db) : option (Z * PoolRow) := find_row (λ _ p, (po_connect_key_id p =? keyID)%Z) (pools d).

(** The pool that an attachment inserts is that of the account's connect key. *)
Definition tables_InsertPoolAttachments (hk : PublicKey) (attachments : list PendingAttachment) : M db unit :=
  if (MaxAccountBatchSize <? Z.of_nat (length attachments))%Z then throw (EMsg "too many attachments to insert")
  else if bool_decide (attachments = []) then mret tt
  else
    transaction (
      let* d := get in
      match find_host hk d with
      | None => mret tt
      | Some (hostID, _) =>
          forM attachments (λ at_, match find_account (PA_AccountKey at_) d with
            | None => mret tt
            | Some (acc, a) =>
                match pool_of (a_connect_key_id a) d with
                | None => mret tt
                | Some (pool, _) =>
                    require (bool_decide (is_Some (pool_hosts d !! (pool, hostID)))) foreign_key_violation ;;
                    modify (set_pool_attachments (insert (pool, hostID, acc) tt))
                end
            end)
      end).

(** The pools that were funded on a host, in the order of their identifiers. *)
Definition funded_pools (hostID : Z) (P : FundRow → bool) (d : db) : list (Z * PoolRow) :=
  filter (λ p, match pool_hosts d !! (p.1, hostID) with
               | Some f => (fr_consecutive_failed_funds f =? 0)%Z && P f
               | None => false
               end = true) (merge_sort by_id (map_to_list (pools d))).

Definition tables_SharingPoolAttachments (hk : PublicKey) (limit : Z) : M db (list PendingAttachment) :=
  if (limit <=? 0)%Z then mret []
  else
    transaction (
      let* d := get in
      match find_host hk d with
      | None => mret []
      | Some (hostID, _) =>
          mret (take (Z.to_nat limit) (omap (λ p : Z * PoolRow,
            (λ k, mkAttachment (sharing_account (ck_user_secret k)) (po_pool_key p.2)) <$> connect_keys d !! po_connect_key_id p.2)
            (funded_pools hostID (λ f, negb (fr_sharing_attached f)) d)))
      end).

Definition attached (f : FundRow) : FundRow := mkFundRow (fr_next_fund f) (fr_consecutive_failed_funds f) true.

Definition tables_MarkSharingPoolsAttached (hk : PublicKey) (attachments : list PendingAttachment) : M db unit :=
  if bool_decide (attachments = []) then mret tt
  else if (MaxAccountBatchSize <? Z.of_nat (length attachments))%Z then throw (EMsg "too many attachments to mark")
  else
    transaction (
      let* d := get in
      let listed id := match pools d !! id with Some p => bool_decide (po_pool_key p ∈ PA_PoolKey <$> attachments) | None => false end in
      let on_host h := match find_host hk d with Some (hostID, _) => (h =? hostID)%Z | None => false end in
      modify (set_pool_hosts (map_imap (λ k f, Some (if on_host k.2 && listed k.1 then attached f else f))))).

(** The accounts of the connect key of a funded pool that are not attached to it. *)
Definition tables_PendingPoolAttachments (hk : PublicKey) (limit : Z) : M db (list PendingAttachment) :=
  if (limit <=? 0)%Z then mret []
  else
    transaction (
      let* d := get in
      match find_host hk d with
      | None => mret []
      | Some (hostID, _) =>
          mret (take (Z.to_nat limit) (omap (λ p : Z * AccountRow,
            if is_live p.2 && bool_decide (is_Some (connect_keys d !! a_connect_key_id p.2)) then
              match pool_of (a_connect_key_id p.2) d with
              | Some (pool, row) =>
                  match pool_hosts d !! (pool, hostID) with
                  | Some f =>
                      if (fr_consecutive_failed_funds f =? 0)%Z && negb (bool_decide (is_Some (pool_attachments d !! (pool, hostID, p.1))))
                      then Some (mkAttachment (a_public_key p.2) (po_pool_key row)) else None
                  | None => None
                  end
              | None => None
              end
            else None) (merge_sort by_id (map_to_list (accounts d)))))
      end).
End store.
