(* ===== verification/SharingTables.v ===== *)
(** * Sharing keys in the database (src/persist/postgres/sharing.go)

    The keys that give read access to some objects of an account and the objects that
    are attached to them: tables of their own beside those of Tables.v, the trigger
    that maintains the totals of a key, and the cascades that follow the other
    transactions. *)

From S2P Require Import Prelude Encoding External Stream Objects Accounts App Sharing Tables SlabTables AppTables.

(** ** The tables *)

(** A row of [sharing_keys] *)
Record SharingKeyRow := mkSharingKeyRow {
  sk_account_id : Z; sk_public_key : PublicKey; sk_nonce : Nonce; sk_use_description : string; sk_expires_at : option Z;
  sk_object_count : Z; sk_size : Z; sk_pinned_data : Z; sk_pinned_size : Z; sk_created_at : Z; sk_updated_at : Z }.

(** A row of [shared_objects]: the map is keyed by the object and the sharing key. *)
Record SharedObjectRow := mkSharedObjectRow {
  so_encrypted_data_key : list byte; so_encrypted_meta_key : option (list byte); so_encrypted_metadata : option (list byte);
  so_data_signature : N; so_meta_signature : N; so_size : Z; so_pinned_data : Z; so_pinned_size : Z;
  so_created_at : Z; so_updated_at : Z }.

Record shares := mkShares { sharing_keys : gmap Z SharingKeyRow; shared_objects : gmap (Z * Z) SharedObjectRow }.
Definition set_sharing_keys (f : gmap Z SharingKeyRow → gmap Z SharingKeyRow) (s : shares) : shares := mkShares (f (sharing_keys s)) (shared_objects s).
Definition set_shared_objects (f : gmap (Z * Z) SharedObjectRow → gmap (Z * Z) SharedObjectRow) (s : shares) : shares :=
  mkShares (sharing_keys s) (f (shared_objects s)).

(** All tables *)
Abbreviation sdb := (db * shares)%type.

(** The totals of a key, and what an object adds to them *)
Inductive column := ObjectCountOf | SizeOf | PinnedDataOf | PinnedSizeOf.
Definition columns : list column := [ObjectCountOf; SizeOf; PinnedDataOf; PinnedSizeOf].
Definition key_total (c : column) (k : SharingKeyRow) : Z :=
  match c with ObjectCountOf => sk_object_count k | SizeOf => sk_size k | PinnedDataOf => sk_pinned_data k | PinnedSizeOf => sk_pinned_size k end.
Definition object_total (c : column) (o : SharedObjectRow) : Z :=
  match c with ObjectCountOf => 1 | SizeOf => so_size o | PinnedDataOf => so_pinned_data o | PinnedSizeOf => so_pinned_size o end.
Definition with_totals (t : column → Z) (now : Z) (k : SharingKeyRow) : SharingKeyRow :=
  mkSharingKeyRow (sk_account_id k) (sk_public_key k) (sk_nonce k) (sk_use_description k) (sk_expires_at k)
    (t ObjectCountOf) (t SizeOf) (t PinnedDataOf) (t PinnedSizeOf) (sk_created_at k) now.

(** [SUM(column)] of the rows of a key *)
Definition sum_of_key (c : column) (id : Z) (rows : gmap (Z * Z) SharedObjectRow) : Z :=
  msum (λ k o, if (k.2 =? id)%Z then object_total c o else 0)%Z rows.

Section sharing.
Local Open Scope go_scope.
Context {C : CurrencyOps} {R : RhpOps} {E : EncoderOps} {G : SigOps}.
Context (order : ∀ A, list A → list A).
(** [accounts.DeriveSharingAccountKey]: HKDF and ed25519 *)
Context (DeriveSharingAccountKey : Hash256 → PrivateKey).

(** ** The trigger and the cascades *)

(** What a statement did to the rows of [shared_objects]: those it replaced or deleted,
    and those it wrote. The order of the keys makes no difference to the tables. *)
Definition maintain_key (old_rows new_rows : gmap (Z * Z) SharedObjectRow) (id : Z) : M sdb unit :=
  let* s := get in
  match sharing_keys s.2 !! id with
  | None => mret tt
  | Some k =>
      let t c := (key_total c k + sum_of_key c id new_rows - sum_of_key c id old_rows)%Z in
      forM columns (λ c, bigint (t c) ;; require (0 <=? t c)%Z check_violation) ;;
      set_local (set_sharing_keys (insert id (with_totals t (db_now s.1) k)))
  end.
Definition keys_of (rows : gmap (Z * Z) SharedObjectRow) : gset Z := set_map snd (dom rows).
Definition shared_objects_maintain_totals (old_rows new_rows : gmap (Z * Z) SharedObjectRow) : M sdb unit :=
  forM (elements (keys_of old_rows ∪ keys_of new_rows)) (maintain_key old_rows new_rows).

(** [DELETE FROM shared_objects WHERE P]: the number of rows *)
Definition delete_shared_objects (P : Z * Z → bool) : M sdb nat :=
  let* s := get in
  let old_rows := filter (λ p, P p.1 = true) (shared_objects s.2) in
  set_local (set_shared_objects (delete_rows (λ k _, P k))) ;;
  shared_objects_maintain_totals old_rows ∅ ;;
  mret (size old_rows).

(** [DELETE FROM sharing_keys WHERE P]: the number of rows; the objects are detached. *)
Definition delete_sharing_keys (P : SharingKeyRow → bool) : M sdb nat :=
  let* s := get in
  let gone := filter (λ p, P p.2 = true) (sharing_keys s.2) in
  set_local (set_sharing_keys (delete_rows (λ _ k, P k))) ;;
  let* _ := delete_shared_objects (λ k, bool_decide (k.2 ∈ dom gone)) in
  mret (size gone).

(** A transaction on the other tables: the rows that refer to an account or an object it
    deletes go with it. No statement of such a transaction reads them. *)
Definition cascade : M sdb unit :=
  let* s := get in
  let* _ := delete_sharing_keys (λ k, bool_decide (accounts s.1 !! sk_account_id k = None)) in
  let* _ := delete_shared_objects (λ k, bool_decide (objects s.1 !! k.1 = None)) in
  mret tt.
Definition with_cascade {A} (m : M db A) : M sdb A :=
  transaction (let* a := lift1 m in cascade ;; mret a).

(** ** Keys *)

Definition scanSharingKey (account : PublicKey) (k : SharingKeyRow) : Key :=
  mkKey account (sk_public_key k) (sk_nonce k) (sk_use_description k) (sk_object_count k) (sk_size k) (sk_pinned_data k) (sk_pinned_size k)
    (sk_expires_at k) (sk_created_at k) (sk_updated_at k).

(** [expires_at IS NULL OR expires_at > NOW()] *)
Definition unexpired (now : Z) (k : SharingKeyRow) : bool := match sk_expires_at k with None => true | Some t => (now <? t)%Z end.

Definition tables_AddSharingKey (account : PublicKey) (req : KeyRequest) : M sdb Key :=
  transaction (
    let* '(accountID, deleted) := lift1 (accountID account) in
    if (deleted : bool) then throw (ESentinel Accounts.ErrNotFound)
    else
      let* id := lift1 (nextval "sharing_keys") in
      let* s := get in
      require (Nat.eqb (length (KR_Nonce req)) NonceSize) check_violation ;;
      if exists_row (λ _ k, (sk_public_key k =? KR_PublicKey req)%N || bool_decide (sk_nonce k = KR_Nonce req)) (sharing_keys s.2)
      then throw (ESentinel ErrSharingKeyExists)
      else
        let now := db_now s.1 in
        let k := mkSharingKeyRow accountID (KR_PublicKey req) (KR_Nonce req) (KR_Description req) (KR_ExpiresAt req) 0 0 0 0 now now in
        set_local (set_sharing_keys (insert id k)) ;;
        mret (scanSharingKey account k)).

(** The key that requests find: of an account that is not deleted, and not expired. *)
Definition find_sharing_key (pk : PublicKey) (s : sdb) : option (Z * SharingKeyRow * AccountRow) :=
  '(id, k) ← find_row (λ _ k, (sk_public_key k =? pk)%N && unexpired (db_now s.1) k) (sharing_keys s.2);
  a ← accounts s.1 !! sk_account_id k;
  if is_live a then Some (id, k, a) else None.

Definition tables_SharingKey (pk : PublicKey) : M sdb Key :=
  transaction (
    let* s := get in
    match find_sharing_key pk s with
    | None => throw (ESentinel ErrSharingKeyNotFound)
    | Some (_, k, a) => mret (scanSharingKey (a_public_key a) k)
    end).

(** [ORDER BY sk.id DESC] *)
Definition by_id_desc {A} (p q : Z * A) : Prop := (q.1 ≤ p.1)%Z.
#[local] Instance by_id_desc_dec {A} (p q : Z * A) : Decision (by_id_desc p q).
Proof. unfold by_id_desc. apply _. Defined.

Definition tables_SharingKeys (account : PublicKey) (offset limit : Z) : M sdb (list Key) :=
  transaction (
    let* '(accountID, _) := lift1 (accountID account) in
    let* s := get in
    window offset limit ;;
    let rows := filter (λ p : Z * SharingKeyRow, (sk_account_id p.2 =? accountID)%Z && unexpired (db_now s.1) p.2 = true) (map_to_list (sharing_keys s.2)) in
    mret ((λ p, scanSharingKey account p.2) <$> take (Z.to_nat limit) (drop (Z.to_nat offset) (merge_sort by_id_desc rows)))).

Definition tables_DeleteSharingKey (account pk : PublicKey) : M sdb unit :=
  transaction (
    let* '(accountID, _) := lift1 (accountID account) in
    let* n := delete_sharing_keys (λ k, (sk_public_key k =? pk)%N && (sk_account_id k =? accountID)%Z) in
    if Nat.eqb n 0 then throw (ESentinel ErrSharingKeyNotFound) else mret tt).

Definition tables_PruneExpiredSharingKeys (cutoff : Z) : M sdb unit :=
  transaction (
    let* _ := delete_sharing_keys (λ k, match sk_expires_at k with Some t => (t <=? cutoff)%Z | None => false end) in
    mret tt).

(** ** Objects *)

(** The slabs of an object: the query names every slab once. *)
Definition object_slab_ids (d : db) (objectID : Z) : list (Z * SlabRow) :=
  filter (λ p : Z * SlabRow, exists_row (λ k os, (k.1 =? objectID)%Z && (os_slab_digest os =? sl_digest p.2)%N) (object_slabs d) = true) (map_to_list (slabs d)).
Definition object_size (d : db) (objectID : Z) : Z := msum (λ k os, if (k.1 =? objectID)%Z then os_slab_length os else 0)%Z (object_slabs d).
Definition min_shards_of (d : db) (objectID : Z) : Z := lsum (λ p : Z * SlabRow, sl_min_shards p.2) (object_slab_ids d objectID).
Definition sector_count (d : db) (objectID : Z) : Z :=
  msum (λ k _, if bool_decide (k.1 ∈ (object_slab_ids d objectID).*1) then 1 else 0)%Z (slab_sectors d).

(** A [uint64] that is passed for a BIGINT parameter *)
Definition encode_int8 (z : Z) : M sdb unit :=
  if (z <? 2 ^ 63)%Z then mret tt else throw (EMsg "%d is greater than maximum value for int8").

(** The row that is written, and what of it has to be unique. *)
Definition attached_row (req : SharedObjectRequest) (size pinnedData pinnedSize created now : Z) : SharedObjectRow :=
  mkSharedObjectRow (SR_EncryptedDataKey req)
    (match SR_EncryptedMetadataKey req with [] => None | l => Some l end) (match SR_EncryptedMetadata req with [] => None | l => Some l end)
    (SR_DataSignature req) (SR_MetadataSignature req) size pinnedData pinnedSize created now.
Definition same_secrets (r o : SharedObjectRow) : bool :=
  bool_decide (so_encrypted_data_key o = so_encrypted_data_key r) ||
  (bool_decide (is_Some (so_encrypted_meta_key r)) && bool_decide (so_encrypted_meta_key o = so_encrypted_meta_key r)) ||
  (so_data_signature o =? so_data_signature r)%N || (so_meta_signature o =? so_meta_signature r)%N.

Definition insert_shared_object (k : Z * Z) (req : SharedObjectRequest) (size pinnedData pinnedSize : Z) : M sdb unit :=
  encode_int8 pinnedData ;; encode_int8 pinnedSize ;;
  let* s := get in
  let now := db_now s.1 in
  let old := shared_objects s.2 !! k in
  let r := attached_row req size pinnedData pinnedSize (default now (so_created_at <$> old)) now in
  require (Nat.eqb (length (so_encrypted_data_key r)) EncryptionKeySize &&
           match so_encrypted_meta_key r with Some l => Nat.eqb (length l) EncryptionKeySize | None => true end) check_violation ;;
  require (negb (exists_row (λ k' o, negb (bool_decide (k' = k)) && same_secrets r o) (shared_objects s.2))) unique_violation ;;
  set_local (set_shared_objects (insert k r)) ;;
  shared_objects_maintain_totals (match old with Some o => {[k := o]} | None => ∅ end) {[k := r]}.

Definition tables_AddSharedObject (account sharingKey : PublicKey) (req : SharedObjectRequest) : M sdb unit :=
  transaction (
    let* '(accountID, deleted) := lift1 (accountID account) in
    if (deleted : bool) then throw (ESentinel Accounts.ErrNotFound)
    else
      let* s := get in
      match find_row (λ _ k, (sk_public_key k =? sharingKey)%N && (sk_account_id k =? accountID)%Z && unexpired (db_now s.1) k) (sharing_keys s.2) with
      | None => throw (ESentinel ErrSharingKeyNotFound)
      | Some (sharingKeyID, _) =>
          lift1 (assertObjectNotBlocked (SR_ObjectID req)) ;;
          match find_object accountID (SR_ObjectID req) s.1 with
          | None => throw (ESentinel ErrObjectNotFound)
          | Some (objectID, _) =>
              wrapM "failed to compute object size: "
                (bigint (object_size s.1 objectID) ;; bigint (min_shards_of s.1 objectID)) ;;
              let* r := try (insert_shared_object (objectID, sharingKeyID) req (u64 (object_size s.1 objectID))
                (u64 (u64 (min_shards_of s.1 objectID) * SectorSize)) (u64 (u64 (sector_count s.1 objectID) * SectorSize))) in
              match r with
              | Ok _ => mret tt
              | Err e => if errors_Is e unique_violation then throw (ESentinel ErrSharedObjectConflict)
                         else throw (EWrap "failed to insert shared object: " e "")
              | Panic => panic
              end
          end
      end).

(** [scanSharedObject] and [loadObjectSlabs] *)
Definition scanSharedObject (d : db) (objectID : Z) (o : SharedObjectRow) : SealedObject :=
  mkSealed (so_encrypted_data_key o) (object_slices d objectID) (so_data_signature o) (default [] (so_encrypted_meta_key o))
    (default [] (so_encrypted_metadata o)) (so_meta_signature o) (so_created_at o) (so_updated_at o).

(** The objects of a key that are not blocked *)
Definition visible_objects (s : sdb) (sharingKeyID : Z) : list (Z * SharedObjectRow) :=
  omap (λ p : Z * Z * SharedObjectRow,
    if (p.1.2 =? sharingKeyID)%Z then
      match objects s.1 !! p.1.1 with
      | Some o => if bool_decide (blocked_objects s.1 !! o_object_key o = None) then Some (p.1.1, p.2) else None
      | None => None
      end
    else None) (map_to_list (shared_objects s.2)).

Definition tables_SharedObjects (sharingKey : PublicKey) (offset limit : Z) : M sdb (list SealedObject) :=
  transaction (
    let* s := get in
    match find_sharing_key sharingKey s with
    | None => throw (ESentinel ErrSharingKeyNotFound)
    | Some (id, _, _) =>
        let* rows := newest order (λ p : Z * SharedObjectRow, so_created_at p.2) offset limit (visible_objects s id) in
        mret ((λ p, scanSharedObject s.1 p.1 p.2) <$> rows)
    end).

Definition tables_SharingKeyObject (sharingKey : PublicKey) (objectKey : Hash256) : M sdb SealedObject :=
  transaction (
    let* s := get in
    match find_sharing_key sharingKey s with
    | None => throw (ESentinel ErrSharingKeyNotFound)
    | Some (id, _, _) =>
        lift1 (assertObjectNotBlocked objectKey) ;;
        match find_row (λ k _, (k.2 =? id)%Z && match objects s.1 !! k.1 with Some o => (o_object_key o =? objectKey)%N | None => false end) (shared_objects s.2) with
        | None => throw (ESentinel ErrSharedObjectNotFound)
        | Some (k, o) => mret (scanSharedObject s.1 k.1 o)
        end
    end).

Definition tables_SharingAccountKey (sharingKey : PublicKey) : M sdb PrivateKey :=
  transaction (
    let* s := get in
    match find_sharing_key sharingKey s with
    | None => throw (ESentinel ErrSharingKeyNotFound)
    | Some (_, _, a) =>
        match connect_keys s.1 !! a_connect_key_id a with
        | None => throw (ESentinel ErrSharingKeyNotFound)
        | Some c => mret (DeriveSharingAccountKey (ck_user_secret c))
        end
    end).

Definition tables_DeleteSharedObject (account sharingKey : PublicKey) (objectKey : Hash256) : M sdb unit :=
  transaction (
    let* '(accountID, _) := lift1 (accountID account) in
    let* s := get in
    let* n := delete_shared_objects (λ k,
      match sharing_keys s.2 !! k.2, objects s.1 !! k.1 with
      | Some sk, Some o => (sk_public_key sk =? sharingKey)%N && (sk_account_id sk =? accountID)%Z &&
          (o_object_key o =? objectKey)%N && (o_account_id o =? accountID)%Z
      | _, _ => false
      end) in
    if Nat.eqb n 0 then throw (ESentinel ErrSharedObjectNotFound) else mret tt).
End sharing.
