(* ===== verification/RepairStore.v ===== *)
(** * Finding the slabs to repair (src/persist/postgres/sectors.go)

    [UnhealthySlabs] walks the sectors by their identifier, a page at a time: it hands
    out every slab with a sector of the page that is lost or not on a good contract,
    once per interval. *)

From S2P Require Import Prelude Float Encoding External Contract Slabs Objects Accounts App Tables SlabTables SectorTables.

Section repair.
Local Open Scope go_scope.
Context {C : CurrencyOps} {R : RhpOps} {E : EncoderOps}.
Context (order : ∀ A, list A → list A) (order_perm : ∀ A (l : list A), order A l ≡ₚ l).

(** A sector that is on no host, or pinned to a contract that is not good or not active. *)
Definition unhealthy (d : db) (s : SectorRow) : Prop :=
  se_host_id s = None ∨ ∃ m id c, se_contract_sectors_map_id s = Some m ∧ contract_sectors_map d !! m = Some id ∧
    contracts d !! id = Some c ∧ (c_good c = false ∨ c_state c ≠ 0 ∧ c_state c ≠ 1)%Z.

(** All the sectors after the cursor of a kind. *)
Definition all_after (P : SectorRow → bool) (cursor : Z) (d : db) : list Z :=
  merge_sort Z.le (omap (λ p : Z * SectorRow, if P p.2 && (cursor <? p.1)%Z then Some p.1 else None) (map_to_list (sectors d))).

Lemma all_after_elem P cursor d i : i ∈ all_after P cursor d ↔ (cursor < i)%Z ∧ ∃ s, sectors d !! i = Some s ∧ P s = true.
Proof.
  unfold all_after. rewrite merge_sort_Permutation, list_elem_of_omap. split.
  - intros ([j s] & Hin%elem_of_map_to_list & Hm). cbn in Hm. destruct (P s && (cursor <? j)%Z) eqn:Hb; [|done]. injection Hm as <-.
    apply andb_prop in Hb as [HP Hc%Z.ltb_lt]. eauto.
  - intros (Hc%Z.ltb_lt & s & Hs & HP). exists (i, s). split; [by apply elem_of_map_to_list|]. cbn. by rewrite HP, Hc.
Qed.
Lemma all_after_NoDup P cursor d : NoDup (all_after P cursor d).
Proof.
  unfold all_after. rewrite merge_sort_Permutation. pose proof (NoDup_fst_map_to_list (sectors d)) as Hnd.
  induction (map_to_list (sectors d)) as [|[j s] l IH]; [constructor|]. apply NoDup_cons in Hnd as [Hj Hnd]. cbn [omap list_omap]. cbn [fst snd].
  destruct (P s && (cursor <? j)%Z); [|by apply IH]. constructor; [|by apply IH]. intros Hin. apply Hj.
  apply list_elem_of_omap in Hin as ([j' s'] & Hin & Hm). cbn in Hm. destruct (_ && _); [|done]. injection Hm as ->. by apply (list_elem_of_fmap_2 fst) in Hin.
Qed.

(** The lists that a page is made of. *)
Definition sources (cursor : Z) (d : db) : list (list Z) :=
  all_after (λ s, bool_decide (se_host_id s = None)) cursor d ::
  ((λ m, all_after (λ s, bool_decide (se_contract_sectors_map_id s = Some m)) cursor d) <$> bad_contract_maps d).

Lemma unhealthy_batch_sources cursor n d :
  unhealthy_batch cursor n d = take n (merge_sort Z.le (concat (take n <$> sources cursor d))).
Proof.
  unfold unhealthy_batch, sources, lost_sectors, bad_sectors, sector_ids_after. cbn [fmap list_fmap concat].
  do 3 f_equal. by rewrite <-list_fmap_compose.
Qed.

Lemma bad_contract_maps_elem d m : m ∈ bad_contract_maps d ↔ ∃ id c, contract_sectors_map d !! m = Some id ∧ contracts d !! id = Some c ∧
  (c_good c = false ∨ c_state c ≠ 0 ∧ c_state c ≠ 1)%Z.
Proof.
  assert (∀ c, bad_contract c = true ↔ (c_good c = false ∨ c_state c ≠ 0 ∧ c_state c ≠ 1)%Z) as Hbad.
  { intros c. unfold bad_contract. rewrite orb_true_iff, !negb_true_iff, orb_false_iff, !Z.eqb_neq. done. }
  unfold bad_contract_maps. rewrite list_elem_of_omap. split.
  - intros ([m' id] & Hin%elem_of_map_to_list & Hm). cbn in Hm. destruct (contracts d !! id) as [c|] eqn:Hc; [|done].
    destruct (bad_contract c) eqn:Hb; [|done]. injection Hm as <-. exists id, c. by rewrite <-Hbad.
  - intros (id & c & Hm & Hc & Hb%Hbad). exists (m, id). split; [by apply elem_of_map_to_list|]. cbn. by rewrite Hc, Hb.
Qed.

Lemma sources_elem cursor d i : i ∈ concat (sources cursor d) ↔ (cursor < i)%Z ∧ ∃ s, sectors d !! i = Some s ∧ unhealthy d s.
Proof.
  unfold sources, unhealthy. cbn [concat]. rewrite elem_of_app, all_after_elem. rewrite elem_of_concat. split.
  - intros [(Hc & s & Hs & Hh%bool_decide_eq_true)|(l & Hl & Hi)].
    + split; [done|]. exists s. split; [done|]. by left.
    + apply list_elem_of_fmap in Hl as (m & -> & (id & c & Hm & Hc & Hb)%bad_contract_maps_elem).
      apply all_after_elem in Hi as (Hi & s & Hs & Hsm%bool_decide_eq_true). split; [done|]. exists s. split; [done|]. right. eauto 10.
  - intros (Hc & s & Hs & [Hh|(m & id & c & Hsm & Hm & Hcon & Hb)]).
    + left. split; [done|]. exists s. by rewrite bool_decide_eq_true.
    + right. exists (all_after (λ s, bool_decide (se_contract_sectors_map_id s = Some m)) cursor d). split.
      * apply list_elem_of_fmap. exists m. split; [done|]. apply bad_contract_maps_elem. eauto.
      * apply all_after_elem. split; [done|]. exists s. by rewrite bool_decide_eq_true.
Qed.

(** A page holds the unhealthy sectors between the cursor and its end. *)
Lemma unhealthy_batch_elem cursor n d i :
  i ∈ unhealthy_batch cursor n d ↔
  ∃ x, last (unhealthy_batch cursor n d) = Some x ∧ (cursor < i ≤ x)%Z ∧ ∃ s, sectors d !! i = Some s ∧ unhealthy d s.
Proof.
  rewrite unhealthy_batch_sources. set (m := merge_sort Z.le (concat (take n <$> sources cursor d))). split.
  - intros Hi. destruct (last (take n m)) as [x|] eqn:Hlast; [|apply last_None in Hlast; rewrite Hlast in Hi; by apply elem_of_nil in Hi].
    exists x. split; [done|]. assert (i ∈ concat (sources cursor d)) as Hin.
    { assert (i ∈ m) as Him by (rewrite <-(take_drop n m); apply elem_of_app; by left). unfold m in Him. rewrite merge_sort_Permutation in Him.
      apply elem_of_concat in Him as (l & Hl & Hil). apply list_elem_of_fmap in Hl as (l' & -> & Hl').
      apply elem_of_concat. exists l'. split; [done|]. rewrite <-(take_drop n l'). apply elem_of_app. by left. }
    apply sources_elem in Hin as [Hc Hs]. split; [|done]. split; [done|].
    assert (StronglySorted Z.le (take n m)) as Hst.
    { pose proof (sorted_sort (concat (take n <$> sources cursor d))) as Hst. fold m in Hst. rewrite <-(take_drop n m) in Hst. by apply StronglySorted_app in Hst as (_ & Hst & _). }
    apply last_Some in Hlast as [l E1]. rewrite E1 in Hi, Hst. apply elem_of_app in Hi as [Hi|Hi]; [|apply list_elem_of_singleton in Hi; lia].
    rewrite StronglySorted_app in Hst. destruct Hst as (Hst & _). apply Hst; [done|by left].
  - intros (x & Hlast & [Hc Hx] & Hs). apply (merged_page n (sources cursor d) x); [|done|by apply sources_elem|done].
    unfold sources. constructor; [split; [apply sorted_sort|apply all_after_NoDup]|]. apply Forall_fmap, Forall_forall. intros k _.
    split; [apply sorted_sort|apply all_after_NoDup].
Qed.

(** The slab has an unhealthy sector on the page. *)
Definition in_page (d : db) (cursor next slabID : Z) : Prop :=
  ∃ i sec s, slab_sectors d !! (slabID, i) = Some sec ∧ (cursor < sec ≤ next)%Z ∧ sectors d !! sec = Some s ∧ unhealthy d s.

(** A slab whose repair is due and that the page reaches *)
Definition handed_out (d : db) (cursor next slabID : Z) (s : SlabRow) : Prop :=
  (sl_next_repair_attempt s < db_now d)%Z ∧ in_page d cursor next slabID.

(** C9. A page of the repair walk hands out exactly the slabs whose repair is due and that
    have an unhealthy sector between the cursor and the next one. Exactly these are
    claimed: their next repair is the backoff after now, and nothing else of them changes;
    all other slabs, and all other tables, stay as they are. The walk makes progress, and
    it is at its end, with no unhealthy sector left, when the next cursor is 0. *)
Theorem unhealthy_slabs_exact now cursor limit d ids next d' :
  (0 ≤ cursor)%Z → (0 < limit)%nat → tables_UnhealthySlabs order now cursor limit d = (Ok (ids, next), d') →
  (∀ digest, digest ∈ ids ↔ ∃ id s, slabs d !! id = Some s ∧ sl_digest s = digest ∧ handed_out d cursor next id s) ∧
  (∀ id s, slabs d !! id = Some s → handed_out d cursor next id s →
     slabs d' !! id = Some (mkSlabRow (sl_pinned_at s) (sl_digest s) (sl_encryption_key s) (sl_min_shards s) (sl_version s)
       (sl_consecutive_failed_repairs s) (now + minRepairBackoff))) ∧
  (∀ id s, slabs d !! id = Some s → ¬ handed_out d cursor next id s → slabs d' !! id = Some s) ∧
  (∀ id, slabs d !! id = None → slabs d' !! id = None) ∧ d' = set_slabs (λ _, slabs d') d ∧
  (next = 0%Z ∧ (∀ sec s, sectors d !! sec = Some s → unhealthy d s → (sec ≤ cursor)%Z) ∨ (cursor < next)%Z).
Proof.
  intros Hcur Hlim. unfold tables_UnhealthySlabs, transaction, bindM, mbind, M_bind, get, modify. intros Hrun.
  cbn in Hrun. injection Hrun as Hids Hnext Hd'. set (batch := unhealthy_batch cursor limit d) in *.
  assert (∀ sec, sec ∈ batch ↔ (cursor < sec ≤ next)%Z ∧ ∃ s, sectors d !! sec = Some s ∧ unhealthy d s) as Hbatch.
  { intros sec. unfold batch. rewrite unhealthy_batch_elem. fold batch. rewrite <-Hnext. destruct (last batch) as [x|]; cbn.
    - split; [by intros (? & [= <-] & ?)|]. intros H. by exists x.
    - split; [by intros (? & ? & _)|]. intros [H _]. lia. }
  assert (∀ id s, claimable d batch id s = true ↔ handed_out d cursor next id s) as Hclaim.
  { intros id s. unfold handed_out. rewrite (and_comm (_ < _)%Z). unfold claimable. rewrite andb_true_iff, Z.ltb_lt, exists_row_true. unfold in_page. split.
    - intros [([k i] & sec & Hk & [He%Z.eqb_eq Hsec%bool_decide_eq_true]%andb_prop) Hdue]. split; [|done]. cbn in He. subst k.
      apply Hbatch in Hsec as (Hr & r & Hsr & Hu). by exists i, sec, r.
    - intros [(i & sec & r & Hk & Hr & Hsr & Hu) Hdue]. split; [|done]. exists (id, i), sec. split; [done|]. cbn. rewrite Z.eqb_refl. cbn. apply bool_decide_eq_true, Hbatch. eauto. }
  split; [|split; [|split; [|split; [|split]]]].
  - intros digest. rewrite <-Hids, list_elem_of_fmap. split.
    + intros ([id s] & -> & Hin). rewrite order_perm, list_elem_of_filter in Hin. destruct Hin as [Hc Hin%elem_of_map_to_list]. apply Hclaim in Hc. by exists id, s.
    + intros (id & s & Hs & <- & Hp). exists (id, s). split; [done|]. rewrite order_perm, list_elem_of_filter. split; [by apply Hclaim|by apply elem_of_map_to_list].
  - intros id s Hs Hp%Hclaim. rewrite <-Hd'. cbn. rewrite map_lookup_imap, Hs. cbn. fold batch. rewrite Hp. by destruct s.
  - intros id s Hs Hp. rewrite <-Hd'. cbn. rewrite map_lookup_imap, Hs. cbn. fold batch. destruct (claimable d batch id s) eqn:Hc; [by destruct Hp; apply Hclaim|done].
  - intros id Hs. rewrite <-Hd'. cbn. by rewrite map_lookup_imap, Hs.
  - by rewrite <-Hd'.
  - destruct (last batch) as [x|] eqn:Hlast; cbn in Hnext.
    + right. subst x. apply last_Some_elem_of, Hbatch in Hlast. lia.
    + left. split; [done|]. intros sec s Hsec Hu. destruct (Z.le_gt_cases sec cursor); [done|]. exfalso.
      apply last_None in Hlast. unfold batch in Hlast. rewrite unhealthy_batch_sources in Hlast.
      assert (sec ∈ concat (sources cursor d)) as Hin by (apply sources_elem; eauto with lia).
      apply (f_equal length) in Hlast. rewrite length_take, merge_sort_Permutation in Hlast. change (length (@nil Z)) with 0 in Hlast.
      assert (length (concat (take limit <$> sources cursor d)) = 0) as H0 by lia. apply length_zero_iff_nil in H0.
      apply elem_of_concat in Hin as (l & Hl & Hil).
      assert (∃ y, y ∈ take limit l) as [y Hy]. { destruct l as [|y l]; [by apply elem_of_nil in Hil|]. destruct limit; [lia|]. exists y. by left. }
      assert (y ∈ concat (take limit <$> sources cursor d)) as Hyc.
      { apply elem_of_concat. exists (take limit l). split; [by apply list_elem_of_fmap_2|done]. }
      rewrite H0 in Hyc. by apply elem_of_nil in Hyc.
Qed.
End repair.

(** ** A concrete page *)

Module RepairWitness.
#[local] Existing Instances SiaEncoding.ops U128.ops TestRhp.ops.

(** Slab 1 of account 7 has a sector that is lost and one on host 3. *)
Definition lost_row : SectorRow := mkSectorRow 11 None None 0 0 0 0.
Definition held_row : SectorRow := mkSectorRow 12 (Some 3%Z) None 0 0 0 0.
Definition tables : db := mkDB 1000 ∅ ∅ ∅ ∅ {[1%Z := mkAccountRow 7 1 0 0 0 (mkMeta 1 "app" "" "" "") 0 None]} {[3%Z := new_host 23 0 true true 0]} ∅ ∅ 0
  {[1%Z := mkSlabRow 500 77 9 1 1 0 500]} {[(1, 1)%Z := tt]} {[(1, 0)%Z := 5%Z; (1, 1)%Z := 6%Z]} {[5%Z := lost_row; 6%Z := held_row]}
  ∅ ∅ ∅ ∅ [] [] ∅ ∅ ∅ default_globals ∅ [] ∅ ∅ ∅.
Definition same_order (A : Type) (l : list A) : list A := l.
Definition claimed : db := (tables_UnhealthySlabs same_order 1000 0 10 tables).2.

Lemma page_runs : tables_UnhealthySlabs same_order 1000 0 10 tables = (Ok ([77%N], 5%Z), claimed).
Proof. apply injective_projections; cbn [fst snd]; [vm_compute; reflexivity|reflexivity]. Qed.

Example unhealthy_slabs_exact_witness :
  slabs claimed !! 1%Z = Some (mkSlabRow 500 77 9 1 1 0 (1000 + minRepairBackoff)) ∧ (0 < 5)%Z.
Proof.
  destruct (unhealthy_slabs_exact same_order (λ _ _, Permutation_refl _) 1000 0 10 tables [77%N] 5 claimed) as (H1 & H2 & _ & _ & _ & H3); [lia|lia|exact page_runs|].
  split; [|lia]. destruct (proj1 (H1 77%N) ltac:(left)) as (id & s & Hs & _ & Hp). pose proof (H2 id s Hs Hp) as Hc.
  destruct (proj1 (lookup_singleton_Some 1%Z id _ s) Hs) as [<- <-]. exact Hc.
Defined.

(** The sectors of a slab that is asked for twice all go to the second result. *)
Lemma slabs_asked_twice :
  (λ s, length (Slab_Sectors s)) <$> match (tables_Slabs 7 [77%N; 77%N] tables).1 with Ok l => l | _ => [] end = [0; 4].
Proof. vm_compute. reflexivity. Qed.
End RepairWitness.
