(* ===== verification/PinStore.v ===== *)
(** * The invariants of the slab tables

    What the transactions of SlabTables.v keep: the references between slabs, sectors,
    objects and accounts, the totals of accounts and connect keys, the statistics. *)

From S2P Require Import Prelude Float Encoding External Slabs Objects Accounts App Tables SlabTables.

(** The tables that pinning leaves alone. *)
Definition rest (d : db) :=
  (db_now d, quotas d, connect_keys d, preauthorized_keys d, pools d, accounts d, contracts d, contract_sectors_map d,
   scanned_height d, objects d, object_slabs d, object_events d, blocked_objects d, slab_deletion_queue d,
   contract_elements d, globals d, hosts_blocklist d, host_addresses d, account_hosts d, pool_hosts d, pool_attachments d, stats d).

Lemma counted_tables d d' :
  counted d d' → rest d' = rest d ∧ slabs d' = slabs d ∧ account_slabs d' = account_slabs d ∧
    slab_sectors d' = slab_sectors d ∧ sectors d' = sectors d.
Proof. intros [E _ _]. rewrite E. done. Qed.

(** ** Contracts and their sectors *)

(** Contracts are with hosts that are known; an entry of the map is that of a contract,
    which has one at most; a sector that is pinned to an entry is on the host of its
    contract. *)
Record contracts_ok (d : db) : Prop := {
  lk_host : ∀ id c, contracts d !! id = Some c → is_Some (hosts d !! c_host_id c);
  lk_entry : ∀ m id, contract_sectors_map d !! m = Some id → is_Some (contracts d !! id);
  lk_unique : ∀ m n id, contract_sectors_map d !! m = Some id → contract_sectors_map d !! n = Some id → m = n;
  lk_seq : ∀ m id, contract_sectors_map d !! m = Some id → (m ≤ currval "contract_sectors_map" d)%Z;
  lk_sector : ∀ i r m, sectors d !! i = Some r → se_contract_sectors_map_id r = Some m →
    ∃ id c, contract_sectors_map d !! m = Some id ∧ contracts d !! id = Some c ∧ se_host_id r = Some (c_host_id c) }.

Lemma contracts_ok_frame d d' :
  contracts d' = contracts d → contract_sectors_map d' = contract_sectors_map d →
  currval "contract_sectors_map" d' = currval "contract_sectors_map" d →
  (∀ h, is_Some (hosts d !! h) → is_Some (hosts d' !! h)) →
  (∀ i r m, sectors d' !! i = Some r → se_contract_sectors_map_id r = Some m →
     ∃ j r0, sectors d !! j = Some r0 ∧ se_contract_sectors_map_id r0 = Some m ∧ se_host_id r0 = se_host_id r) →
  contracts_ok d → contracts_ok d'.
Proof.
  intros E1 E2 E3 Hh Hs [A1 A2 A3 A4 A5]. split; rewrite ?E1, ?E2, ?E3; try done.
  - intros id c Hc. by eapply Hh, A1.
  - intros i r m Hi Hm. destruct (Hs _ _ _ Hi Hm) as (j & r0 & Hj & Hm0 & <-). by eapply A5.
Qed.
Lemma hosts_known d d' :
  (∀ h, h_public_key <$> hosts d' !! h = h_public_key <$> hosts d !! h) → ∀ h, is_Some (hosts d !! h) → is_Some (hosts d' !! h).
Proof. intros Hk h [r Hr]. specialize (Hk h). rewrite Hr in Hk. destruct (hosts d' !! h); [by eexists|done]. Qed.

(** ** Sectors *)

Record sectors_ok (d : db) : Prop := {
  so_unique : ∀ i j r s, sectors d !! i = Some r → sectors d !! j = Some s → se_sector_root r = se_sector_root s → i = j;
  so_seq : ∀ i r, sectors d !! i = Some r → (i ≤ currval "sectors" d)%Z;
  so_host : ∀ i r h, sectors d !! i = Some r → se_host_id r = Some h → is_Some (hosts d !! h);
  so_contract : ∀ i r, sectors d !! i = Some r → se_host_id r = None → se_contract_sectors_map_id r = None;
  so_contracts : contracts_ok d }.

(** The sectors that the counters count. *)
Definition number (P : SectorRow → bool) (d : db) : Z := count_if (λ _, P) d.

Lemma number_insert P d d' id r :
  sectors d' = <[id := r]> (sectors d) → sectors d !! id = None →
  number P d' = (number P d + if P r then 1 else 0)%Z.
Proof. intros E Hid. unfold number, count_if. rewrite E, msum_insert by done. lia. Qed.
Lemma number_update P d d' id r r' :
  sectors d' = <[id := r']> (sectors d) → sectors d !! id = Some r →
  number P d' = (number P d - (if P r then 1 else 0) + if P r' then 1 else 0)%Z.
Proof. intros E Hid. unfold number, count_if. by rewrite E, (msum_update _ _ _ r). Qed.
Lemma number_same P d d' : sectors d' = sectors d → number P d' = number P d.
Proof. unfold number, count_if. by intros ->. Qed.

(** Sectors keep their root and their contract, and the host they have. *)
Definition sectors_grow (d d' : db) : Prop :=
  ∀ i r, sectors d !! i = Some r → ∃ r', sectors d' !! i = Some r' ∧ se_sector_root r' = se_sector_root r ∧
    se_contract_sectors_map_id r' = se_contract_sectors_map_id r ∧ (∀ h, se_host_id r = Some h → se_host_id r' = Some h).

Lemma sectors_grow_refl d : sectors_grow d d.
Proof. intros i r Hr. by exists r. Qed.
Lemma sectors_grow_trans d1 d2 d3 : sectors_grow d1 d2 → sectors_grow d2 d3 → sectors_grow d1 d3.
Proof.
  intros H1 H2 i r Hr. destruct (H1 _ _ Hr) as (r1 & Hr1 & E1 & C1 & h1). destruct (H2 _ _ Hr1) as (r2 & Hr2 & E2 & C2 & h2).
  exists r2. split_and!; [done|congruence..|auto].
Qed.

(** Only sectors differ. *)
Record sectors_only (d d' : db) : Prop := {
  sn_rest : rest d' = rest d; sn_slabs : slabs d' = slabs d; sn_account_slabs : account_slabs d' = account_slabs d;
  sn_slab_sectors : slab_sectors d' = slab_sectors d; sn_hosts : hosts d' = hosts d; sn_deltas : stats_deltas d' = stats_deltas d;
  sn_seq : ∀ t, t ≠ "sectors"%string → currval t d' = currval t d }.

Section pin.
Local Open Scope go_scope.
Context {C : CurrencyOps} {R : RhpOps} {E : EncoderOps} {HS : Hashed}.

(** What the loop over sectors has done, from [d0] to [d]. *)
Record pinned_sectors (d0 : db) (done : list PinnedSector) (c : pin_counts) (d : db) : Prop := {
  pd_only : sectors_only d0 d;
  pd_ok : sectors_ok d;
  pd_grow : sectors_grow d0 d;
  pd_ids : Forall2 (λ id s, ∃ r, sectors d !! id = Some r ∧ se_sector_root r = PS_Root s ∧ is_Some (se_host_id r)) (pin_sectorIDs c) done;
  pd_hosts : ∀ h n, (h, n) ∈ pin_deltas c → is_Some (hosts d !! h);
  pd_pinned : number is_pinned d = number is_pinned d0;
  pd_unpinned : number is_unpinned d = (number is_unpinned d0 + pin_unpinned c)%Z;
  pd_unpinnable : number is_unpinnable d = (number is_unpinnable d0 - pin_rebound c)%Z;
  pd_on : ∀ h, number (unpinned_on h) d = (number (unpinned_on h) d0 + sum_for h (pin_deltas c))%Z;
  pd_bounds : (0 ≤ pin_unpinned c ∧ 0 ≤ pin_rebound c)%Z;
  pd_none : pin_unpinned c = 0%Z → pin_deltas c = [] }.

Lemma insert_sector_commits next s d :
  sectors_ok d →
  commits (insert_sector next s) (λ row d', match row with
    | None => d' = d
    | Some (id, host, inserted, isRebound) =>
        sectors_only d d' ∧ sectors_ok d' ∧ is_Some (hosts d !! host) ∧
        ∃ r', sectors d' = <[id := r']> (sectors d) ∧ se_sector_root r' = PS_Root s ∧ se_host_id r' = Some host ∧
          (inserted = true ∧ isRebound = false ∧ sectors d !! id = None ∧ se_contract_sectors_map_id r' = None ∨
           inserted = false ∧ ∃ r, sectors d !! id = Some r ∧ se_sector_root r = PS_Root s ∧
             se_contract_sectors_map_id r' = se_contract_sectors_map_id r ∧
             (se_host_id r = Some host ∧ isRebound = false ∨ se_host_id r = None ∧ isRebound = true))
    end) d.
Proof.
  intros [Hu Hq Hh Hc Hco]. unfold insert_sector. tx_step. tx_step. destruct (find_host _ d) as [[host hr]|] eqn:Hf; [|by tx_step].
  apply find_row_Some in Hf as [Hf _]. destruct (find_sector _ d) as [[id r]|] eqn:Hs.
  - apply find_row_Some in Hs as [Hs Hroot%N.eqb_eq]. tx_steps.
    assert (is_Some (hosts d !! default host (se_host_id r))) as Hhost.
    { destruct (se_host_id r) as [h|] eqn:Eh; [by eapply Hh|by eexists]. }
    split; [by split|]. split.
    + split; cbn.
      * intros i j r1 r2 [[<- <-]|[_ Hi]]%lookup_insert_Some [[<- <-]|[_ Hj]]%lookup_insert_Some; cbn; intros Heq; eauto.
      * intros i r1 [[<- <-]|[_ Hi]]%lookup_insert_Some; eauto.
      * intros i r1 h [[<- <-]|[_ Hi]]%lookup_insert_Some; cbn; [|by eauto]. by intros [= <-].
      * intros i r1 [[<- <-]|[_ Hi]]%lookup_insert_Some; cbn; [done|]. by eapply Hc.
      * apply (contracts_ok_frame d); try done. cbn. intros i r1 m [[<- <-]|[_ Hi]]%lookup_insert_Some; cbn; intros Hm; [|by exists i, r1].
        exists id, r. split_and!; [done..|]. destruct (se_host_id r) eqn:Eh; [done|]. by rewrite (Hc _ _ Hs Eh) in Hm.
    + split; [done|]. eexists. cbn. split; [done|]. cbn. split; [done|]. split; [done|]. right. split; [done|]. exists r.
      split_and!; [done..|]. destruct (se_host_id r) as [h|]; cbn; [by left|by right].
  - pose proof (find_row_None _ _ Hs) as Hno. tx_steps.
    assert (sectors d !! (currval "sectors" d + 1)%Z = None) as Hfresh.
    { destruct (sectors d !! (currval "sectors" d + 1)%Z) as [r|] eqn:Er; [|done]. apply Hq in Er. lia. }
    split; [split; try done; intros t Ht; unfold currval; cbn; by rewrite lookup_insert_ne|]. split.
    + split; cbn.
      * assert (∀ i r, sectors d !! i = Some r → se_sector_root r ≠ PS_Root s) as Hne.
        { intros i r Hi. specialize (Hno _ _ Hi). by apply N.eqb_neq in Hno. }
        intros i j r1 r2 [[<- <-]|[_ Hi]]%lookup_insert_Some [[<- <-]|[_ Hj]]%lookup_insert_Some; cbn; intros Heq; [done|..|by eauto].
        -- by destruct (Hne _ _ Hj).
        -- by destruct (Hne _ _ Hi).
      * unfold currval at 2. cbn. rewrite lookup_insert_eq. cbn.
        intros i r1 [[<- <-]|[_ Hi]]%lookup_insert_Some; [lia|]. apply Hq in Hi. lia.
      * intros i r1 h [[<- <-]|[_ Hi]]%lookup_insert_Some; cbn; [|by eauto]. intros [= <-]. by eexists.
      * intros i r1 [[<- <-]|[_ Hi]]%lookup_insert_Some; cbn; [done|]. by eapply Hc.
      * apply (contracts_ok_frame d); try done; [unfold currval; cbn; by rewrite lookup_insert_ne|]. cbn.
        intros i r1 m [[<- <-]|[_ Hi]]%lookup_insert_Some; cbn; [done|]. by exists i, r1.
    + split; [by eexists|]. eexists. split; [done|]. cbn. split; [done|]. split; [done|]. by left.
Qed.

Lemma is_unpinned_hosted r h :
  se_host_id r = Some h → is_unpinned r = negb (is_pinned r) ∧ is_unpinnable r = false ∧
    ∀ k, unpinned_on k r = negb (is_pinned r) && (h =? k)%Z.
Proof.
  intros Hr. unfold unpinned_on, is_unpinnable, is_unpinned. rewrite Hr.
  rewrite (bool_decide_eq_true_2 (is_Some (Some h))) by (by eexists). rewrite andb_true_r. split_and!; [done|by destruct (is_pinned r)|].
  intros k. f_equal. destruct (Z.eqb_spec h k) as [->|Hne]; [by rewrite bool_decide_eq_true_2|].
  apply bool_decide_eq_false_2. congruence.
Qed.
Lemma is_unpinned_hostless r :
  se_host_id r = None → se_contract_sectors_map_id r = None →
  is_pinned r = false ∧ is_unpinned r = false ∧ is_unpinnable r = true ∧ ∀ k, unpinned_on k r = false.
Proof.
  intros Hh Hc. unfold unpinned_on, is_unpinnable, is_unpinned, is_pinned. rewrite Hh, Hc.
  rewrite (bool_decide_eq_false_2 (is_Some (None : option Z))) by (by intros [? ?]). done.
Qed.

Lemma pin_sector_commits good next d0 done c s d :
  pinned_sectors d0 done c d → commits (pin_sector good next c s) (pinned_sectors d0 (done ++ [s])) d.
Proof.
  intros [Ho Hok Hg Hi Hh Hp Hu Hn Hon [Hb1 Hb2] Hz]. unfold pin_sector. tx_step.
  eapply commits_mono; [by apply insert_sector_commits|]. cbn beta.
  intros [[[[id host] inserted] isRebound]|] d1 H1; [|by tx_step].
  destruct H1 as (Ho1 & Hok1 & Hhost & r' & Es & Eroot & Ehost & Hcase). apply commits_ret.
  destruct (is_unpinned_hosted r' host Ehost) as (U1 & U2 & U3).
  assert (sectors_grow d d1) as Hg1.
  { intros i r Hr. rewrite Es. destruct (decide (i = id)) as [->|Hne]; [rewrite lookup_insert_eq|rewrite lookup_insert_ne by done; by exists r].
    destruct Hcase as [(_ & _ & Hnone & _)|(_ & r1 & Hr1 & E1 & E2 & E3)]; [congruence|].
    assert (r1 = r) as -> by congruence. exists r'. split_and!; [done|congruence|done|]. intros h Eh. destruct E3 as [[? _]|[? _]]; congruence. }
  assert (∃ new, inserted || isRebound = new ∧
    number is_pinned d1 = number is_pinned d ∧ number is_unpinned d1 = (number is_unpinned d + if new then 1 else 0)%Z ∧
    number is_unpinnable d1 = (number is_unpinnable d - if isRebound then 1 else 0)%Z ∧
    ∀ h, number (unpinned_on h) d1 = (number (unpinned_on h) d + if new then (if (host =? h)%Z then 1 else 0) else 0)%Z) as (new & -> & N1 & N2 & N3 & N4).
  { destruct Hcase as [(-> & -> & Hnone & Ec)|(-> & r & Hr & Eroot' & Ec & [[Eh ->]|[Eh ->]])].
    - exists true. assert (is_pinned r' = false) as P1 by (unfold is_pinned; by rewrite Ec). split; [done|].
      split_and!; [..|intros h]; rewrite (number_insert _ _ _ _ _ Es Hnone), ?P1, ?U1, ?U2, ?U3, ?P1; cbn; lia.
    - exists false. assert (is_pinned r' = is_pinned r) as P1 by (unfold is_pinned; by rewrite Ec).
      destruct (is_unpinned_hosted r host Eh) as (V1 & V2 & V3). split; [done|].
      split_and!; [..|intros h]; rewrite (number_update _ _ _ _ _ _ Es Hr), ?U1, ?U2, ?U3, ?V1, ?V2, ?V3, ?P1; lia.
    - exists true. assert (se_contract_sectors_map_id r = None) as Hcn by by apply (so_contract _ Hok _ _ Hr Eh).
      destruct (is_unpinned_hostless r Eh Hcn) as (V0 & V1 & V2 & V3). assert (is_pinned r' = false) as P1 by (unfold is_pinned; by rewrite Ec, Hcn).
      split; [done|]. split_and!; [..|intros h]; rewrite (number_update _ _ _ _ _ _ Es Hr), ?U1, ?U2, ?U3, ?V0, ?V1, ?V2, ?V3, ?P1; cbn; lia. }
  split; cbn.
  - destruct Ho as [A1 A2 A3 A4 A5 A6 A7], Ho1 as [B1 B2 B3 B4 B5 B6 B7]. split; try congruence. intros t Ht. rewrite B7, A7; done.
  - done.
  - by eapply sectors_grow_trans.
  - apply Forall2_app.
    + eapply Forall2_impl; [exact Hi|]. cbn. intros i x (r & Hr & Hx & [h Hs]). destruct (Hg1 _ _ Hr) as (r1 & Hr1 & E1 & _ & E2).
      exists r1. split_and!; [done|congruence|]. eexists. by apply E2.
    + constructor; [|done]. exists r'. rewrite Es, lookup_insert_eq. split_and!; [done..|by eexists].
  - intros h n Hin. rewrite (sn_hosts _ _ Ho1). assert ((h, n) ∈ pin_deltas c ∨ h = host) as [Hin'| ->].
    { destruct new; [|by left]. apply elem_of_app in Hin as [|Hin]; [by left|]. apply list_elem_of_singleton in Hin. right. congruence. }
    + by eapply Hh.
    + done.
  - congruence.
  - rewrite N2, Hu. destruct new; lia.
  - rewrite N3, Hn. destruct isRebound; lia.
  - intros h. rewrite N4, Hon. destruct new; [rewrite sum_for_app, sum_for_cons|]; simpl; unfold sum_for; simpl; lia.
  - destruct new, isRebound; lia.
  - destruct new; [lia|done].
Qed.

Lemma pin_sectors_commits good next l d :
  sectors_ok d → commits (foldM (pin_sector good next) (mkPinCounts 0 0 0 [] []) l) (pinned_sectors d l) d.
Proof.
  intros Hok. apply (commits_foldM (pinned_sectors d)).
  - split; cbn; try done; try lia; [apply sectors_grow_refl|intros h n Hn; by apply elem_of_nil in Hn|intros h; unfold sum_for; simpl; lia].
  - intros done x acc d1 _ H1. by apply pin_sector_commits.
Qed.

(** *** Slabs *)

Definition same_slab (s t : SlabRow) : Prop :=
  sl_digest t = sl_digest s ∧ sl_encryption_key t = sl_encryption_key s ∧ sl_min_shards t = sl_min_shards s ∧ sl_version t = sl_version s.

(** Only slabs differ: one row is added, or refreshed. *)
Record slab_inserted (digest : SlabID) (p : SlabPinParams) (d : db) (sid : Z) (existing : bool) (d' : db) : Prop := {
  si_rest : rest d' = rest d; si_account_slabs : account_slabs d' = account_slabs d;
  si_slab_sectors : slab_sectors d' = slab_sectors d; si_sectors : sectors d' = sectors d; si_hosts : hosts d' = hosts d;
  si_deltas : stats_deltas d' = stats_deltas d; si_seq : ∀ t, t ≠ "slabs"%string → currval t d' = currval t d;
  si_range : (0 < SP_MinShards p < 32768 ∧ 0 ≤ SP_Version p < 32768)%Z;
  si_row : ∃ row, slabs d' = <[sid := row]> (slabs d) ∧ sl_digest row = digest ∧
    (existing = true ∧ currval "slabs" d' = currval "slabs" d ∧ (∃ old, slabs d !! sid = Some old ∧ same_slab old row) ∨
     existing = false ∧ currval "slabs" d' = sid ∧ (currval "slabs" d < sid)%Z ∧ (∀ i s, slabs d !! i = Some s → sl_digest s ≠ digest) ∧
       sl_encryption_key row = SP_EncryptionKey p ∧ sl_min_shards row = SP_MinShards p ∧ sl_version row = SP_Version p) }.

Lemma insert_slab_commits digest p d :
  commits (insert_slab digest p) (λ r d', slab_inserted digest p d r.1 r.2 d') d.
Proof.
  unfold insert_slab. do 8 tx_step. apply andb_prop in H1 as [H1%Z.ltb_lt H2%Z.leb_le]. destruct (find_slab digest d) as [[sid s]|] eqn:Hf.
  - apply find_row_Some in Hf as [Hs Hd%N.eqb_eq]. tx_steps. cbn. split; try done; try lia. eexists. split; [done|]. split; [done|]. left.
    split; [done|]. split; [done|]. by exists s.
  - pose proof (find_row_None _ _ Hf) as Hno. tx_steps. cbn. split; try done.
    + intros t Ht. unfold currval. cbn. by rewrite lookup_insert_ne.
    + lia.
    + eexists. split; [done|]. split; [done|]. right. split; [done|]. split; [unfold currval at 1; cbn; by rewrite lookup_insert_eq|].
      split; [lia|]. split; [|done]. intros i s Hs. specialize (Hno _ _ Hs). by apply N.eqb_neq in Hno.
Qed.

Lemma insert_account_slab_commits a sid d :
  commits (insert_account_slab a sid) (λ added d',
    d' = set_account_slabs (λ _, account_slabs d') d ∧ account_slabs d' = <[(a, sid) := tt]> (account_slabs d) ∧
    added = negb (pinned_by a sid d)) d.
Proof.
  unfold insert_account_slab. tx_steps.
  - destruct u. split; [by destruct d|]. rewrite insert_id by done. split; [done|]. unfold pinned_by. by rewrite Heqo, bool_decide_eq_true_2 by (by eexists).
  - split; [done|]. split; [done|]. unfold pinned_by. by rewrite Heqo, bool_decide_eq_false_2 by (by intros [? ?]).
Qed.

Lemma insert_slab_sectors_commits sid ids i d :
  (0 ≤ i)%Z →
  commits (insert_slab_sectors sid i ids) (λ _ d',
    d' = set_slab_sectors (λ _, slab_sectors d') d ∧
    (∀ k, slab_sectors d' !! k = match slab_sectors d !! k with
       | Some v => Some v
       | None => if (k.1 =? sid)%Z && (i <=? k.2)%Z then ids !! Z.to_nat (k.2 - i) else None end) ∧
    ((∀ j, (i ≤ j)%Z → slab_sectors d !! (sid, j) = None) → ids ≠ [] → (i + Z.of_nat (length ids) ≤ 32768)%Z)) d.
Proof.
  revert i d. induction ids as [|id ids IH]; intros i d Hi.
  - cbn. tx_step. split; [by destruct d|]. split; [|done]. intros k. destruct (slab_sectors d !! k); [done|]. rewrite lookup_nil. by destruct (_ && _).
  - cbn [insert_slab_sectors]. tx_step.
    apply (commits_mono _ (λ _ d1, d1 = set_slab_sectors (λ _, slab_sectors d1) d ∧
      (∀ k, slab_sectors d1 !! k = match slab_sectors d !! k with Some v => Some v | None => if bool_decide (k = (sid, i)) then Some id else None end) ∧
      (slab_sectors d !! (sid, i) = None → (i < 32768)%Z))).
    { unfold insert_slab_sector. tx_steps.
      - split; [by destruct d|]. split; [|congruence]. intros k. destruct (slab_sectors d !! k) eqn:Ek; [done|]. rewrite bool_decide_eq_false_2; [done|]. congruence.
      - split; [done|]. split; [|lia]. cbn. intros k. destruct (decide (k = (sid, i))) as [->|Hk].
        + rewrite lookup_insert_eq, Heqo. by rewrite bool_decide_eq_true_2.
        + rewrite lookup_insert_ne by done. rewrite (bool_decide_eq_false_2 _ Hk). by destruct (slab_sectors d !! k). }
    intros _ d1 (E1 & L1 & B1). eapply commits_mono; [apply IH; lia|]. cbn beta. intros _ d2 (E2 & L2 & B2). split; [|split].
    + rewrite E2 at 1. rewrite E1. done.
    + intros [k1 k2]. rewrite L2, L1. cbn [fst snd]. destruct (slab_sectors d !! (k1, k2)); [done|].
      destruct (bool_decide_reflect ((k1, k2) = (sid, i))) as [[= -> ->]|Hk].
      * rewrite Z.eqb_refl, Z.leb_refl. cbn. by rewrite Z.sub_diag.
      * destruct (Z.eqb_spec k1 sid) as [->|]; cbn [andb]; [|done]. destruct (Z.leb_spec (i + 1) k2), (Z.leb_spec i k2); try lia; [|by destruct Hk; f_equal; lia|done].
        replace (Z.to_nat (k2 - i)) with (S (Z.to_nat (k2 - (i + 1)))) by lia. done.
    + intros Hnone _. destruct ids as [|id' ids]; [cbn; specialize (B1 (Hnone i ltac:(lia))); lia|].
      assert (∀ j, (i + 1 ≤ j)%Z → slab_sectors d1 !! (sid, j) = None) as Hnone1.
      { intros j Hj. rewrite L1, (Hnone j) by lia. rewrite bool_decide_eq_false_2; [done|]. intros [= ->]. lia. }
      specialize (B2 Hnone1 ltac:(done)). cbn [length] in *. lia.
Qed.

(** *** What a slab consists of *)

Definition of_root (root : Hash256) : PinnedSector := mkPinnedSector root 0 None.

Lemma slabDigest_roots v m ec ss :
  slabDigest_preimage v m ec ss = slabDigest_preimage v m ec (of_root <$> (PS_Root <$> ss)).
Proof. unfold slabDigest_preimage. do 3 f_equal. rewrite <-!list_fmap_compose. f_equal. Qed.
Lemma slab_ok_roots v m ec ss : slab_ok v m ec ss → slab_ok v m ec (of_root <$> (PS_Root <$> ss)).
Proof. intros ([Hv Hv'] & Hm & He & Hs). split_and!; try done. by rewrite <-list_fmap_compose, Forall_fmap. Qed.

(** The slab [id] has the sectors [ids], with the roots of its digest. *)
Record content (d : db) (id : Z) (s : SlabRow) (ids : list Z) (roots : list Hash256) : Prop := {
  co_rows : ∀ i, slab_sectors d !! (id, i) = if (0 <=? i)%Z then ids !! Z.to_nat i else None;
  co_roots : Forall2 (λ sec root, ∃ r, sectors d !! sec = Some r ∧ se_sector_root r = root) ids roots;
  co_digest : sl_digest s = slabDigest (sl_version s) (sl_min_shards s) (sl_encryption_key s) (of_root <$> roots);
  co_ok : slab_ok (sl_version s) (sl_min_shards s) (sl_encryption_key s) (of_root <$> roots);
  co_hashed : hashed (slabDigest_preimage (sl_version s) (sl_min_shards s) (sl_encryption_key s) (of_root <$> roots));
  co_shards : (0 < sl_min_shards s ≤ Z.of_nat (length ids) ∧ Z.of_nat (length ids) ≤ 32768)%Z }.

Lemma content_grow d d' id s s' ids roots :
  content d id s ids roots → same_slab s s' → sectors_grow d d' →
  (∀ i, slab_sectors d' !! (id, i) = slab_sectors d !! (id, i)) → content d' id s' ids roots.
Proof.
  intros [Hr Hs Hd Ho Hh Hb] (E1 & E2 & E3 & E4) Hg Hrows. split; rewrite ?E1, ?E2, ?E3, ?E4; try done.
  - intros i. by rewrite Hrows.
  - eapply Forall2_impl; [exact Hs|]. cbn. intros sec root (r & Hsec & <-). destruct (Hg _ _ Hsec) as (r' & ? & ? & _). eauto.
Qed.

Lemma content_length d id s ids roots : content d id s ids roots → length ids = length roots.
Proof. intros H. eapply Forall2_length, co_roots, H. Qed.

(** The number of sectors of a slab. *)
Definition rows_count (d : db) (id : Z) : Z := msum (λ k _, if (k.1 =? id)%Z then 1 else 0)%Z (slab_sectors d).

Lemma rows_count_list (id : Z) (ids : list Z) (m : gmap (Z * Z) Z) :
  (∀ i, m !! (id, i) = if (0 <=? i)%Z then ids !! Z.to_nat i else None) →
  msum (λ k _, if (k.1 =? id)%Z then 1 else 0)%Z m = Z.of_nat (length ids).
Proof.
  revert m. induction ids as [|x ids IH] using rev_ind; intros m Hm.
  - apply msum_zero. intros [k i] v Hk. cbn [fst]. destruct (Z.eqb_spec k id) as [->|]; [|done]. rewrite Hm, lookup_nil in Hk. by destruct (0 <=? i)%Z.
  - assert (m !! (id, Z.of_nat (length ids)) = Some x) as Hx.
    { rewrite Hm. destruct (Z.leb_spec 0 (Z.of_nat (length ids))); [|lia]. by rewrite Nat2Z.id, list_lookup_middle. }
    pose proof (msum_delete (λ k (_ : Z), if (k.1 =? id)%Z then 1 else 0)%Z m _ _ Hx) as Hd. cbn [fst] in Hd. rewrite Z.eqb_refl in Hd.
    rewrite (IH (delete (id, Z.of_nat (length ids)) m)) in Hd; [rewrite length_app; cbn [length]; lia|]. intros i.
    destruct (decide (i = Z.of_nat (length ids))) as [->|Hi].
    + rewrite lookup_delete_eq. destruct (0 <=? _)%Z; [|done]. by rewrite Nat2Z.id, lookup_ge_None_2.
    + rewrite lookup_delete_ne by congruence. rewrite Hm. destruct (Z.leb_spec 0 i); [|done].
      destruct (decide (Z.to_nat i < length ids)) as [Hlt|Hge]; [by rewrite lookup_app_l|]. rewrite !lookup_ge_None_2; [done|lia|].
      rewrite length_app. cbn. lia.
Qed.
Lemma rows_count_content d id s ids roots : content d id s ids roots → rows_count d id = Z.of_nat (length ids).
Proof. intros [Hr _ _ _ _ _]. by apply rows_count_list. Qed.

(** What the tables of slabs keep. *)
Record slabs_ok (d : db) : Prop := {
  sk_sectors : sectors_ok d;
  sk_digest : ∀ i j s t, slabs d !! i = Some s → slabs d !! j = Some t → sl_digest s = sl_digest t → i = j;
  sk_seq : ∀ i s, slabs d !! i = Some s → (i ≤ currval "slabs" d)%Z;
  sk_content : ∀ id s, slabs d !! id = Some s → ∃ ids roots, content d id s ids roots;
  sk_member : ∀ k v, slab_sectors d !! k = Some v → is_Some (slabs d !! k.1);
  sk_pin : ∀ k v, account_slabs d !! k = Some v → is_Some (slabs d !! k.2) }.

(** Slabs and their sectors stay. *)
Record slabs_grow (d d' : db) : Prop := {
  sg_slabs : ∀ id s, slabs d !! id = Some s → ∃ s', slabs d' !! id = Some s' ∧ same_slab s s';
  sg_rows : ∀ id i, is_Some (slabs d !! id) → slab_sectors d' !! (id, i) = slab_sectors d !! (id, i);
  sg_sectors : sectors_grow d d' }.

Lemma slabs_grow_refl d : slabs_grow d d.
Proof. split; [|done|apply sectors_grow_refl]. intros id s Hs. by exists s. Qed.
Lemma slabs_grow_trans d1 d2 d3 : slabs_grow d1 d2 → slabs_grow d2 d3 → slabs_grow d1 d3.
Proof.
  intros [A1 A2 A3] [B1 B2 B3]. split; [| |by eapply sectors_grow_trans].
  - intros id s Hs. destruct (A1 _ _ Hs) as (s1 & Hs1 & (? & ? & ? & ?)). destruct (B1 _ _ Hs1) as (s2 & Hs2 & (? & ? & ? & ?)).
    exists s2. split; [done|]. split_and!; congruence.
  - intros id i [s Hs]. rewrite B2, A2; [done|by eexists|]. destruct (A1 _ _ Hs) as (s1 & H1 & _). by eexists.
Qed.
Lemma slabs_grow_content d d' id s ids roots :
  slabs_grow d d' → slabs d !! id = Some s → content d id s ids roots → ∃ s', slabs d' !! id = Some s' ∧ same_slab s s' ∧ content d' id s' ids roots.
Proof.
  intros [A1 A2 A3] Hs Hc. destruct (A1 _ _ Hs) as (s' & Hs' & Hsame). exists s'. split_and!; [done..|].
  eapply content_grow; [done..|]. intros i. apply A2. by eexists.
Qed.

(** The counters agree with the tables. *)
Record counts_ok (d : db) : Prop := {
  ct_slabs : stat statSlabs d = Z.of_nat (size (slabs d));
  ct_pinned : stat statPinnedSectors d = number is_pinned d;
  ct_unpinned : stat statUnpinnedSectors d = number is_unpinned d;
  ct_unpinnable : stat statUnpinnableSectors d = number is_unpinnable d;
  ct_hosts : ∀ h r, hosts d !! h = Some r → h_unpinned_sectors r = number (unpinned_on h) d }.

(** The parameters have the width of their types, their digest is that of no other
    slab, and there are enough sectors. *)
Definition widths_ok (p : SlabPinParams) : Prop :=
  slab_ok (SP_Version p) (SP_MinShards p) (SP_EncryptionKey p) (SP_Sectors p) ∧
  hashed (slabDigest_preimage (SP_Version p) (SP_MinShards p) (SP_EncryptionKey p) (SP_Sectors p)).
Definition params_ok (p : SlabPinParams) : Prop := widths_ok p ∧ (SP_MinShards p ≤ Z.of_nat (length (SP_Sectors p)))%Z.

(** The parameters are those of a row. *)
Definition row_of (p : SlabPinParams) (s : SlabRow) : Prop :=
  sl_encryption_key s = SP_EncryptionKey p ∧ sl_min_shards s = SP_MinShards p ∧ sl_version s = SP_Version p ∧
  sl_digest s = SlabPinParams_Digest p.

(** Pinning the slab [p] for the account [a]. *)
Record slab_pinned (a : Z) (p : SlabPinParams) (sid : Z) (d d' : db) : Prop := {
  sp_rest : rest d' = rest d;
  sp_ok : slabs_ok d';
  sp_grow : slabs_grow d d';
  sp_seq : ∀ t, t ∈ ["objects"; "contract_sectors_map"]%string → currval t d' = currval t d;
  sp_keys : ∀ h, h_public_key <$> hosts d' !! h = h_public_key <$> hosts d !! h;
  sp_account : account_slabs d' = <[(a, sid) := tt]> (account_slabs d);
  sp_content : ∃ s ids, slabs d' !! sid = Some s ∧ row_of p s ∧ content d' sid s ids (PS_Root <$> SP_Sectors p) ∧
    Forall (λ sec, ∃ r h, sectors d' !! sec = Some r ∧ se_host_id r = Some h) ids;
  sp_counts : counts_ok d → counts_ok d' }.
End pin.

Section pin_slab.
Local Open Scope go_scope.
Context {C : CurrencyOps} {R : RhpOps} {E : EncoderOps} {EL : EncoderLaws E} {HS : Hashed}.

(** The counters of a loop over sectors. *)
Lemma pin_counters_commits c d :
  (0 ≤ pin_unpinned c)%Z → (0 ≤ pin_rebound c)%Z → (pin_unpinned c = 0%Z → pin_deltas c = []) →
  commits ((if (0 <? pin_unpinned c)%Z then
       incrementStat statUnpinnedSectors (pin_unpinned c) ;; incrementHostsUnpinnedSectors (pin_deltas c)
     else mret tt) ;;
    (if (0 <? pin_rebound c)%Z then incrementStat statUnpinnableSectors (- pin_rebound c) else mret tt))
    (λ _ d', counted d d' ∧
      (∀ n, stat n d' = stat n d + (if String.eqb statUnpinnedSectors n then pin_unpinned c else 0) -
        (if String.eqb statUnpinnableSectors n then pin_rebound c else 0))%Z ∧
      (∀ h r, hosts d !! h = Some r → ∃ r', hosts d' !! h = Some r' ∧ h_unpinned_sectors r' = h_unpinned_sectors r + sum_for h (pin_deltas c))%Z) d.
Proof.
  intros Hu Hr Hz. tx_step.
  apply (commits_mono _ (λ _ d1, counted d d1 ∧ (∀ n, stat n d1 = stat n d + (if String.eqb statUnpinnedSectors n then pin_unpinned c else 0))%Z ∧
    (∀ h r, hosts d !! h = Some r → ∃ r', hosts d1 !! h = Some r' ∧ h_unpinned_sectors r' = h_unpinned_sectors r + sum_for h (pin_deltas c))%Z)).
  - destruct (Z.ltb_spec 0 (pin_unpinned c)) as [Hp|Hp].
    + tx_step. eapply commits_mono; [apply incrementStat_counted|]. cbn beta. intros _ d1 (C1 & E1 & S1).
      eapply commits_mono; [apply incrementHosts_counted|]. cbn beta. intros _ d2 (C2 & S2 & H2).
      split; [by eapply counted_trans|]. split; [intros n; by rewrite S2, S1|]. intros h r Hh. apply H2. by rewrite E1.
    + tx_step. assert (pin_unpinned c = 0%Z) as E0 by lia. split; [apply counted_refl|]. rewrite (Hz E0), E0. split.
      * intros n. destruct (String.eqb _ _); lia.
      * intros h r Hh. exists r. split; [done|]. unfold sum_for. simpl. lia.
  - cbn beta. intros _ d1 (C1 & S1 & H1). destruct (Z.ltb_spec 0 (pin_rebound c)) as [Hp|Hp].
    + eapply commits_mono; [apply incrementStat_counted|]. cbn beta. intros _ d2 (C2 & E2 & S2).
      split; [by eapply counted_trans|]. split; [|intros h r Hh; rewrite E2; by apply H1].
      intros n. rewrite S2, S1. destruct (String.eqb statUnpinnableSectors n); lia.
    + tx_step. split; [done|]. split; [|done]. intros n. rewrite S1. destruct (String.eqb statUnpinnableSectors n); lia.
Qed.

Lemma sectors_ok_frame d d' :
  sectors d' = sectors d → (∀ h, h_public_key <$> hosts d' !! h = h_public_key <$> hosts d !! h) →
  currval "sectors" d' = currval "sectors" d → contracts d' = contracts d → contract_sectors_map d' = contract_sectors_map d →
  currval "contract_sectors_map" d' = currval "contract_sectors_map" d → sectors_ok d → sectors_ok d'.
Proof.
  intros E1 E2 E3 E4 E5 E6 [A1 A2 A3 A4 A5]. pose proof (hosts_known _ _ E2) as Hk. split; rewrite ?E1, ?E3; try done.
  - intros i r h Hi Hh. by eapply Hk, A3.
  - apply (contracts_ok_frame d); try done. rewrite E1. intros i r m Hi Hm. by exists i, r.
Qed.

(** Sectors with the same roots are the same. *)
Lemma same_roots d ids ids' roots :
  sectors_ok d → Forall2 (λ sec root, ∃ r, sectors d !! sec = Some r ∧ se_sector_root r = root) ids roots →
  Forall2 (λ sec root, ∃ r, sectors d !! sec = Some r ∧ se_sector_root r = root) ids' roots → ids = ids'.
Proof.
  intros Hok H. revert ids'. induction H as [|sec root ids roots (r & Hr & Er) _ IH]; intros ids' H'.
  - by apply Forall2_nil_inv_r in H'.
  - apply Forall2_cons_inv_r in H' as (sec' & ids'' & (r' & Hr' & Er') & H' & ->). f_equal; [|by apply IH].
    apply (so_unique _ Hok _ _ _ _ Hr Hr'). congruence.
Qed.

(** The rows of the sectors of a slab, when the slab is new or has them already. *)
Lemma rows_inserted (d : db) (m' : gmap (Z * Z) Z) sid (ids : list Z) :
  (∀ k, m' !! k = match slab_sectors d !! k with
     | Some v => Some v
     | None => if (k.1 =? sid)%Z && (0 <=? k.2)%Z then ids !! Z.to_nat (k.2 - 0) else None end) →
  ((∀ i, slab_sectors d !! (sid, i) = None) ∨ (∀ i, slab_sectors d !! (sid, i) = if (0 <=? i)%Z then ids !! Z.to_nat i else None)) →
  (∀ i, m' !! (sid, i) = if (0 <=? i)%Z then ids !! Z.to_nat i else None) ∧ ∀ id i, id ≠ sid → m' !! (id, i) = slab_sectors d !! (id, i).
Proof.
  intros Hm Hd. split.
  - intros i. rewrite Hm. cbn [fst snd]. rewrite Z.eqb_refl, Z.sub_0_r. cbn [andb]. destruct Hd as [Hd|Hd]; rewrite Hd; [done|].
    destruct (0 <=? i)%Z; [|done]. by destruct (ids !! Z.to_nat i).
  - intros id i Hne. rewrite Hm. cbn [fst snd]. destruct (Z.eqb_spec id sid); [done|]. cbn [andb]. by destruct (slab_sectors d !! (id, i)).
Qed.

(** Whether a slab is new, its row has the sectors that the loop collected. *)
Lemma slab_rows (d d1 d3 d4 : db) p sid existing c :
  slabs_ok d → params_ok p → slab_inserted (SlabPinParams_Digest p) p d sid existing d1 →
  sectors d3 = sectors d → pinned_sectors d3 (SP_Sectors p) c d4 →
  (∃ row, slabs d1 = <[sid := row]> (slabs d) ∧ row_of p row ∧ (∀ s, slabs d !! sid = Some s → same_slab s row) ∧
    (0 < SP_MinShards p)%Z ∧ (if existing then is_Some (slabs d !! sid) else slabs d !! sid = None)) ∧
  (length (pin_sectorIDs c) = length (SP_Sectors p)) ∧
  ((∀ i, slab_sectors d !! (sid, i) = None) ∨
   (∀ i, slab_sectors d !! (sid, i) = if (0 <=? i)%Z then pin_sectorIDs c !! Z.to_nat i else None) ∧
   (Z.of_nat (length (pin_sectorIDs c)) ≤ 32768)%Z).
Proof.
  intros Hok [[Hp Hh] Hlen] Hi Es Hpd. destruct (si_row _ _ _ _ _ _ Hi) as (row & Erow & Edigest & Hcase). pose proof (si_range _ _ _ _ _ _ Hi) as [[Hmin _] _].
  pose proof (Forall2_length _ _ _ (pd_ids _ _ _ _ Hpd)) as Hlens.
  destruct Hcase as [(-> & _ & old & Hold & (S1 & S2 & S3 & S4))|(-> & Eseq & Hlt & Hno & K1 & K2 & K3)].
  - destruct (sk_content _ Hok _ _ Hold) as (ids & roots & Hc).
    assert (sl_digest old = SlabPinParams_Digest p) as Eold by congruence.
    rewrite (co_digest _ _ _ _ _ Hc) in Eold. unfold SlabPinParams_Digest in Eold.
    apply hashed_inj, slabDigest_preimage_inj in Eold as (V1 & V2 & V3 & V4); [|by apply Hc|done|by apply Hc|done].
    rewrite <-list_fmap_compose in V4. change (PS_Root ∘ of_root) with (λ r : Hash256, r) in V4. rewrite list_fmap_id in V4.
    assert (ids = pin_sectorIDs c) as ->.
    { apply (same_roots d4 _ _ roots); [apply Hpd| |].
      - eapply Forall2_impl; [apply (co_roots _ _ _ _ _ Hc)|]. cbn. intros sec root (r & Hr & <-). rewrite <-Es in Hr.
        destruct (pd_grow _ _ _ _ Hpd _ _ Hr) as (r' & Hr' & E1 & _). eauto.
      - rewrite V4. apply Forall2_fmap_r. eapply Forall2_impl; [apply (pd_ids _ _ _ _ Hpd)|]. cbn. intros sec ps (r & Hr & Er & _). eauto. }
    split; [|split; [done|]].
    + exists row. split; [done|]. split; [split_and!; congruence|]. split; [|by split; [|eexists]]. intros s' Hs'. assert (s' = old) as -> by congruence. done.
    + right. split; [apply Hc|apply Hc].
  - assert (slabs d !! sid = None) as Hnone.
    { destruct (slabs d !! sid) eqn:Hs; [|done]. apply (sk_seq _ Hok) in Hs. lia. }
    split; [|split; [done|]].
    + exists row. split; [done|]. split; [split_and!; congruence|]. split; [intros s' Hs'; congruence|by split].
    + left. intros i. destruct (slab_sectors d !! (sid, i)) eqn:Hrow; [|done].
      destruct (sk_member _ Hok _ _ Hrow) as [s' Hs']. cbn in Hs'. congruence.
Qed.

Lemma slab_assemble (d d' d1 d3 d4 : db) a p sid existing c :
  slabs_ok d → params_ok p → slab_inserted (SlabPinParams_Digest p) p d sid existing d1 →
  sectors d3 = sectors d → pinned_sectors d3 (SP_Sectors p) c d4 →
  slabs d' = slabs d1 → currval "slabs" d' = currval "slabs" d1 → account_slabs d' = <[(a, sid) := tt]> (account_slabs d) →
  sectors d' = sectors d4 → sectors_ok d' →
  (∀ k, slab_sectors d' !! k = match slab_sectors d !! k with
     | Some v => Some v
     | None => if (k.1 =? sid)%Z && (0 <=? k.2)%Z then pin_sectorIDs c !! Z.to_nat (k.2 - 0) else None end) →
  ((∀ j, (0 ≤ j)%Z → slab_sectors d !! (sid, j) = None) → pin_sectorIDs c ≠ [] → (0 + Z.of_nat (length (pin_sectorIDs c)) ≤ 32768)%Z) →
  slabs_ok d' ∧ slabs_grow d d' ∧ (size (slabs d') = size (slabs d) + if existing then 0 else 1) ∧
    ∃ s ids, slabs d' !! sid = Some s ∧ row_of p s ∧ content d' sid s ids (PS_Root <$> SP_Sectors p) ∧
    Forall (λ sec, ∃ r h, sectors d' !! sec = Some r ∧ se_host_id r = Some h) ids.
Proof.
  intros Hok Hp Hi Es Hpd Eslabs Eseq Eacc Esec Hso Hrows Hbound.
  destruct (slab_rows d d1 d3 d4 p sid existing c Hok Hp Hi Es Hpd) as ((row & Erow & Hof & Hsame & Hmin & Hex) & Hlen & Hm).
  destruct Hof as (K1 & K2 & K3 & K4).
  destruct (rows_inserted d (slab_sectors d') sid (pin_sectorIDs c) Hrows) as [Hsid Hother]; [destruct Hm as [Hm|[Hm _]]; [by left|by right]|].
  assert (sectors_grow d d') as Hgrow.
  { intros i r Hr. rewrite Esec. apply (pd_grow _ _ _ _ Hpd). by rewrite Es. }
  assert (content d' sid row (pin_sectorIDs c) (PS_Root <$> SP_Sectors p)) as Hcontent.
  { split; [done|..].
    - apply Forall2_fmap_r. eapply Forall2_impl; [apply (pd_ids _ _ _ _ Hpd)|]. cbn. intros sec ps (r & Hr & Er & _). rewrite Esec. eauto.
    - rewrite K4, K1, K2, K3. unfold SlabPinParams_Digest, slabDigest. by rewrite <-slabDigest_roots.
    - rewrite K1, K2, K3. apply slab_ok_roots, Hp.
    - rewrite K1, K2, K3, <-slabDigest_roots. apply Hp.
    - destruct Hp as [_ Hlen']. rewrite K2, Hlen. split; [lia|]. destruct Hm as [Hm|[_ Hm]]; [|lia]. rewrite <-Hlen.
      enough (0 + Z.of_nat (length (pin_sectorIDs c)) ≤ 32768)%Z by lia. apply Hbound; [intros j _; apply Hm|]. intros E0. rewrite E0 in Hlen. cbn in Hlen. lia. }
  assert (slabs d' = <[sid := row]> (slabs d)) as Es' by congruence.
  assert (slabs_grow d d') as Hsg.
  { split; [|intros id i [s Hs]|done].
    - intros id s Hs. rewrite Es'. destruct (decide (id = sid)) as [->|Hne]; [rewrite lookup_insert_eq|rewrite lookup_insert_ne by done; by exists s].
      exists row. split; [done|]. by apply Hsame.
    - destruct (decide (id = sid)) as [->|Hne]; [|by apply Hother]. rewrite Hsid. destruct Hm as [Hm|[Hm _]]; [|by rewrite Hm].
      destruct (sk_content _ Hok _ _ Hs) as (ids & roots & Hc). pose proof (co_shards _ _ _ _ _ Hc) as [Hs1 _]. pose proof (co_rows _ _ _ _ _ Hc 0%Z) as H0.
      rewrite Hm in H0. cbn in H0. symmetry in H0. apply lookup_ge_None_1 in H0. lia. }
  split; [|split; [done|split]].
  - assert (currval "slabs" d ≤ currval "slabs" d' ∧ sid ≤ currval "slabs" d')%Z as [Hq1 Hq2].
    { rewrite Eseq. destruct (si_row _ _ _ _ _ _ Hi) as (_ & _ & _ & [(_ & -> & old & Hold & _)|(_ & -> & Hlt & _)]); [|lia]. apply (sk_seq _ Hok) in Hold. lia. }
    split.
    + done.
    + assert (∀ i s, slabs d !! i = Some s → sl_digest s = sl_digest row → i = sid) as Hu.
      { intros i s Hs Hd. destruct (si_row _ _ _ _ _ _ Hi) as (row' & Erow' & Ed & [(_ & _ & old & Hold & (So & _))|(_ & _ & _ & Hno & _)]).
        - apply (sk_digest _ Hok _ _ _ _ Hs Hold). congruence.
        - exfalso. apply (Hno _ _ Hs). congruence. }
      rewrite Es'. intros i j s t [[<- <-]|[_ His]]%lookup_insert_Some [[<- <-]|[_ Hj]]%lookup_insert_Some Hd; [done|..].
      * symmetry. by eapply Hu.
      * by eapply Hu.
      * by apply (sk_digest _ Hok _ _ _ _ His Hj).
    + rewrite Es'. intros i s [[<- <-]|[_ His]]%lookup_insert_Some; [done|]. apply (sk_seq _ Hok) in His. lia.
    + intros id s Hs. destruct (decide (id = sid)) as [->|Hne].
      * rewrite Es', lookup_insert_eq in Hs. injection Hs as <-. eauto.
      * rewrite Es', lookup_insert_ne in Hs by done. destruct (sk_content _ Hok _ _ Hs) as (ids & roots & Hc). exists ids, roots.
        eapply content_grow; [done|by split_and!|done|]. intros i. by apply Hother.
    + intros [id i] v Hv. cbn [fst]. destruct (decide (id = sid)) as [->|Hne]; [rewrite Es', lookup_insert_eq; by eexists|].
      rewrite Hother in Hv by done. rewrite Es', lookup_insert_ne by done. by apply (sk_member _ Hok) in Hv.
    + rewrite Eacc. intros [b id] v Hv. cbn [snd]. destruct (decide (id = sid)) as [->|Hne]; [rewrite Es', lookup_insert_eq; by eexists|].
      rewrite lookup_insert_ne in Hv by congruence. rewrite Es', lookup_insert_ne by done. by apply (sk_pin _ Hok) in Hv.
  - rewrite Es'. destruct existing; [rewrite map_size_insert_Some by done; lia|rewrite map_size_insert_None by done; lia].
  - exists row, (pin_sectorIDs c). split; [by rewrite Es', lookup_insert_eq|]. split; [by split_and!|]. split; [done|].
    apply Forall_forall. intros sec [i Hsec]%list_elem_of_lookup. destruct (Forall2_lookup_l _ _ _ _ _ (pd_ids _ _ _ _ Hpd) Hsec) as (ps & _ & r & Hr & _ & [h Hh]).
    rewrite Esec. eauto.
Qed.

Lemma counts_pinned d d' c (new : bool) :
  size (slabs d') = size (slabs d) + (if new then 1 else 0) →
  number is_pinned d' = number is_pinned d → number is_unpinned d' = (number is_unpinned d + pin_unpinned c)%Z →
  number is_unpinnable d' = (number is_unpinnable d - pin_rebound c)%Z →
  (∀ h, number (unpinned_on h) d' = number (unpinned_on h) d + sum_for h (pin_deltas c))%Z →
  (∀ n, stat n d' = stat n d + (if String.eqb statSlabs n then if new then 1 else 0 else 0) +
     (if String.eqb statUnpinnedSectors n then pin_unpinned c else 0) - (if String.eqb statUnpinnableSectors n then pin_rebound c else 0))%Z →
  (∀ h, is_Some (hosts d' !! h) → is_Some (hosts d !! h)) →
  (∀ h r, hosts d !! h = Some r → ∃ r', hosts d' !! h = Some r' ∧ h_unpinned_sectors r' = (h_unpinned_sectors r + sum_for h (pin_deltas c))%Z) →
  counts_ok d → counts_ok d'.
Proof.
  intros Hsize N1 N2 N3 N4 Hstat Hkeys Hhosts [A1 A2 A3 A4 A5]. split; rewrite ?Hstat, ?A1, ?A2, ?A3, ?A4.
  - rewrite Hsize. cbn [String.eqb]. simpl. destruct new; lia.
  - rewrite N1. simpl. lia.
  - rewrite N2. simpl. lia.
  - rewrite N3. simpl. lia.
  - intros h r' Hr'. destruct (Hkeys h) as [r Hr]; [by eexists|]. destruct (Hhosts _ _ Hr) as (r1 & Hr1 & E1). assert (r1 = r') as -> by congruence.
    by rewrite E1, N4, (A5 _ _ Hr).
Qed.

Lemma pin_slab_commits good a next acc p d :
  slabs_ok d → params_ok p →
  commits (pin_slab good a next acc (SlabPinParams_Digest p, p)) (λ acc' d', ∃ sid, slab_pinned a p sid d d' ∧
    acc' = if pinned_by a sid d then acc else (u64 (acc.1 + DataSize p), u64 (acc.2 + Size p))) d.
Proof.
  intros Hok Hp. unfold pin_slab. tx_step. eapply commits_mono; [apply insert_slab_commits|]. cbn beta. intros [sid existing] d1 Hi. cbn [fst snd] in Hi.
  tx_step. eapply commits_mono; [apply insert_account_slab_commits|]. cbn beta. intros added d2 (E2 & A2 & ->). tx_step.
  apply (commits_mono _ (λ _ d3, counted d2 d3 ∧ hosts d3 = hosts d2 ∧
    ∀ n, stat n d3 = stat n d2 + (if String.eqb statSlabs n then if negb existing then 1 else 0 else 0))%Z).
  { destruct existing; cbn [negb]; [|apply incrementStat_counted]. tx_step. split; [apply counted_refl|]. split; [done|]. intros n. destruct (String.eqb _ _); lia. }
  cbn beta. intros _ d3 (C3 & H3 & S3). apply counted_tables in C3 as Q3. destruct Q3 as (R3 & L3 & P3 & W3 & T3).
  assert (sectors d3 = sectors d) as Es by (rewrite T3, E2; cbn; apply (si_sectors _ _ _ _ _ _ Hi)).
  assert (rest d3 = rest d) as Er3 by (rewrite R3, E2; apply (si_rest _ _ _ _ _ _ Hi)).
  assert (∀ t, t ≠ "slabs"%string → t ≠ "stats_deltas"%string → currval t d3 = currval t d) as Eq3.
  { intros t H1 H2. rewrite (cn_seq _ _ C3) by done. rewrite E2. by apply (si_seq _ _ _ _ _ _ Hi). }
  assert (sectors_ok d3) as Hso3.
  { unfold rest in Er3. apply (sectors_ok_frame d); [done|..|apply Hok]; try (by apply Eq3); try congruence.
    intros h. rewrite H3, E2. cbn. by rewrite (si_hosts _ _ _ _ _ _ Hi). }
  tx_step. eapply commits_mono; [by apply pin_sectors_commits|]. intros c d4 Hpd. cbn zeta. destruct (flt _ _); [by tx_step|].
  apply commits_assoc. tx_step.
  eapply commits_mono; [apply pin_counters_commits; apply Hpd|]. cbn beta. intros _ d5 (C5 & S5 & H5).
  tx_step. eapply commits_mono; [by apply insert_slab_sectors_commits|]. cbn beta. intros _ d6 (E6 & L6 & B6). tx_step.
  apply counted_tables in C5 as Q5. destruct Q5 as (R5 & L5 & P5 & W5 & T5). destruct (pd_only _ _ _ _ Hpd) as [N1 N2 N3 N4 N5 N6 N7].
  assert (slab_sectors d5 = slab_sectors d) as Ess by (rewrite W5, N4, W3, E2; cbn; apply (si_slab_sectors _ _ _ _ _ _ Hi)).
  rewrite Ess in L6, B6.
  assert (∀ h, h_public_key <$> hosts d6 !! h = h_public_key <$> hosts d !! h) as Hkeys.
  { intros h. rewrite E6. cbn. rewrite (cn_hosts _ _ C5), N5, H3, E2. cbn. by rewrite (si_hosts _ _ _ _ _ _ Hi). }
  assert (account_slabs d6 = <[(a, sid) := tt]> (account_slabs d)) as Hacc.
  { rewrite E6. cbn. rewrite P5, N3, P3, A2. by rewrite (si_account_slabs _ _ _ _ _ _ Hi). }
  assert (rest d6 = rest d4) as Er6 by (rewrite E6; exact R5).
  assert (sectors_ok d6) as Hso6.
  { unfold rest in Er6. apply (sectors_ok_frame d4); [by rewrite E6; cbn; rewrite T5|..|apply Hpd]; try (by rewrite E6; apply (cn_seq _ _ C5)); try congruence.
    intros h. rewrite E6. cbn. apply (cn_hosts _ _ C5). }
  destruct (slab_assemble d d6 d1 d3 d4 a p sid existing c) as (G1 & G2 & G3 & G4); [done..| | |done| |done|done|done|].
  { rewrite E6. cbn. rewrite L5, N2, L3, E2. done. }
  { rewrite E6. cbn. change (currval "slabs" d5 = currval "slabs" d1). rewrite (cn_seq _ _ C5), N7, (cn_seq _ _ C3) by done. by rewrite E2. }
  { rewrite E6. cbn. apply T5. }
  exists sid. split.
  - split; [|done|done| |done|done|done|].
    + by rewrite Er6, N1.
    + intros t Ht. assert (t ≠ "slabs" ∧ t ≠ "sectors" ∧ t ≠ "stats_deltas")%string as (T1' & T2' & T3').
      { apply elem_of_cons in Ht as [->|Ht%list_elem_of_singleton]; [done|]. by rewrite Ht. }
      rewrite <-Eq3, <-N7, <-(cn_seq _ _ C5) by done. by rewrite E6.
    + assert (∀ P, number P d3 = number P d) as Hn3 by (intros P; by apply number_same).
      assert (∀ P, number P d6 = number P d4) as Hn6 by (intros P; apply number_same; by rewrite E6).
      assert (hosts d4 = hosts d) as Eh4 by (rewrite N5, H3, E2; cbn; apply (si_hosts _ _ _ _ _ _ Hi)).
      assert (∀ n, stat n d2 = stat n d) as Hst2.
      { intros n. unfold stat. rewrite E2. cbn. rewrite (si_deltas _ _ _ _ _ _ Hi). by rewrite (f_equal snd (si_rest _ _ _ _ _ _ Hi) : stats d1 = stats d). }
      assert (∀ n, stat n d4 = stat n d3) as Hst4.
      { intros n. unfold stat. by rewrite N6, (f_equal snd N1 : stats d4 = stats d3). }
      apply (counts_pinned d d6 c (negb existing)).
      * rewrite G3. by destruct existing.
      * by rewrite Hn6, (pd_pinned _ _ _ _ Hpd), Hn3.
      * by rewrite Hn6, (pd_unpinned _ _ _ _ Hpd), Hn3.
      * by rewrite Hn6, (pd_unpinnable _ _ _ _ Hpd), Hn3.
      * intros h. by rewrite Hn6, (pd_on _ _ _ _ Hpd), Hn3.
      * intros n. assert (stat n d6 = stat n d5) as -> by (unfold stat; by rewrite E6). rewrite S5, Hst4, S3, Hst2. lia.
      * intros h [r Hr]. specialize (Hkeys h). rewrite Hr in Hkeys. destruct (hosts d !! h); [by eexists|done].
      * intros h r Hr. rewrite E6. cbn. apply H5. by rewrite Eh4.
  - assert (pinned_by a sid d1 = pinned_by a sid d) as ->; [|by destruct (pinned_by a sid d)].
    unfold pinned_by. by rewrite (si_account_slabs _ _ _ _ _ _ Hi).
Qed.
End pin_slab.
