(* ===== verification/Totals.v ===== *)
(** * What accounts have pinned

    The sums over the pinned slabs of an account, and how they change when slabs are
    pinned and unpinned. *)

From S2P Require Import Prelude Float Encoding External Slabs Objects Accounts App Tables SlabTables PinStore.

Section totals.
Context {C : CurrencyOps} {R : RhpOps} {E : EncoderOps} {HS : Hashed}.

(** The bytes of a slab, without and with redundancy. *)
Definition slab_data (d : db) (id : Z) : Z := (match slabs d !! id with Some s => sl_min_shards s | None => 0 end * SectorSize)%Z.
Definition slab_size (d : db) (id : Z) : Z := (rows_count d id * SectorSize)%Z.

Definition account_sum (w : Z → Z) (a : Z) (d : db) : Z := msum (λ k _, if (k.1 =? a)%Z then w k.2 else 0)%Z (account_slabs d).
Definition account_data (a : Z) (d : db) : Z := account_sum (slab_data d) a d.
Definition account_size (a : Z) (d : db) : Z := account_sum (slab_size d) a d.

Lemma slabs_grow_weights d d' id :
  slabs_ok d → slabs_grow d d' → is_Some (slabs d !! id) → slab_data d' id = slab_data d id ∧ slab_size d' id = slab_size d id.
Proof.
  intros Hok Hg [s Hs]. destruct (sk_content _ Hok _ _ Hs) as (ids & roots & Hc).
  destruct (slabs_grow_content _ _ _ _ _ _ Hg Hs Hc) as (s' & Hs' & (_ & _ & Em & _) & Hc').
  unfold slab_data, slab_size. rewrite Hs, Hs', Em. by rewrite (rows_count_content _ _ _ _ _ Hc), (rows_count_content _ _ _ _ _ Hc').
Qed.

(** Another set of pins, and weights that agree on the old ones. *)
Lemma account_sum_ext w w' a d d' :
  account_slabs d' = account_slabs d → (∀ id, is_Some (account_slabs d !! (a, id)) → w' id = w id) → account_sum w' a d' = account_sum w a d.
Proof.
  intros Ea Hw. unfold account_sum. rewrite Ea. apply msum_ext. intros [b id] v Hk. cbn. destruct (Z.eqb_spec b a) as [->|]; [|done].
  apply Hw. by eexists.
Qed.

Lemma account_sum_pin w w' a sid b d d' :
  account_slabs d' = <[(a, sid) := tt]> (account_slabs d) → (∀ id, is_Some (account_slabs d !! (b, id)) → w' id = w id) →
  account_sum w' b d' = (account_sum w b d + if (a =? b)%Z && negb (pinned_by a sid d) then w' sid else 0)%Z.
Proof.
  intros Ea Hw. unfold account_sum, pinned_by. rewrite Ea. destruct (account_slabs d !! (a, sid)) as [[]|] eqn:Hk.
  - rewrite bool_decide_eq_true_2 by (by eexists). rewrite insert_id, andb_false_r by done. rewrite Z.add_0_r. apply msum_ext.
    intros [b' id] v Hv. cbn. destruct (Z.eqb_spec b' b) as [->|]; [|done]. apply Hw. by eexists.
  - rewrite bool_decide_eq_false_2 by (by intros [? ?]). rewrite msum_insert, andb_true_r by done. cbn [fst snd].
    rewrite Z.add_comm. f_equal. apply msum_ext.
    intros [b' id] v Hv. cbn. destruct (Z.eqb_spec b' b) as [->|]; [|done]. apply Hw. by eexists.
Qed.

(** Pins that are taken away. *)
Lemma account_sum_unpin w a l b d d' :
  NoDup l → (∀ id, id ∈ l → is_Some (account_slabs d !! (a, id))) →
  (∀ k, account_slabs d' !! k = if (k.1 =? a)%Z && bool_decide (k.2 ∈ l) then None else account_slabs d !! k) →
  account_sum w b d' = (account_sum w b d - if (a =? b)%Z then lsum w l else 0)%Z.
Proof.
  intros Hl Hin Ha. assert (account_slabs d' = delete_rows (λ k _, (k.1 =? a)%Z && bool_decide (k.2 ∈ l)) (account_slabs d)) as Ea.
  { apply map_eq. intros k. apply option_eq. intros v. rewrite delete_rows_lookup, Ha. destruct (_ && _); [|tauto]. split; [done|]. by intros [_ ?]. }
  unfold account_sum. rewrite Ea, msum_delete_rows. f_equal. destruct (Z.eqb_spec a b) as [<-|Hne].
  - rewrite (msum_ext _ (λ k _, if bool_decide (k.2 ∈ l) then if (k.1 =? a)%Z then w k.2 else 0 else 0)%Z).
    + rewrite (msum_list snd (λ k (_ : unit), if (k.1 =? a)%Z then w k.2 else 0)%Z) by done. apply lsum_ext. intros id Hid.
      destruct (Hin _ Hid) as [u Hu]. etrans; [|apply (msum_single (λ k (_ : unit), w k.2) _ _ _ Hu)]. apply msum_ext. intros [b id'] v _. cbn.
      destruct (Z.eqb_spec b a) as [->|Hb], (bool_decide_reflect (id' = id)) as [->|Hi]; [rewrite bool_decide_eq_true_2 by done; done|..];
        rewrite bool_decide_eq_false_2 by congruence; done.
    + intros [b id] v _. cbn. destruct (Z.eqb_spec b a), (bool_decide (id ∈ l)); done.
  - apply msum_zero. intros [b' id] v _. cbn. destruct (Z.eqb_spec b' a) as [->|]; cbn [andb]; [|done]. destruct (bool_decide _); [|done].
    destruct (Z.eqb_spec a b); [congruence|done].
Qed.

(** The sums that unpinning subtracts. *)
Lemma unpinned_data d l :
  NoDup l → (∀ id, id ∈ l → is_Some (slabs d !! id)) →
  (msum (λ id s, if bool_decide (id ∈ l) then sl_min_shards s else 0) (slabs d) * SectorSize)%Z = lsum (slab_data d) l.
Proof.
  intros Hl Hin. rewrite (msum_list (λ k : Z, k) (λ _ s, sl_min_shards s)) by done. clear Hl.
  induction l as [|id l IH]; [done|]. simpl. rewrite <-IH by (intros; apply Hin; by right). unfold slab_data at 1.
  destruct (Hin id) as [s Hs]; [left|]. rewrite Hs, (msum_single (λ _ s, sl_min_shards s) _ _ _ Hs). lia.
Qed.
Lemma unpinned_size d l :
  NoDup l → (msum (λ k _, if bool_decide (k.1 ∈ l) then 1 else 0) (slab_sectors d) * SectorSize)%Z = lsum (slab_size d) l.
Proof.
  intros Hl. rewrite (msum_list fst (λ _ _, 1%Z)) by done. clear Hl.
  induction l as [|id l IH]; [done|]. simpl. rewrite <-IH. unfold slab_size, rows_count.
  rewrite (msum_ext (λ k _, if bool_decide (k.1 = id) then 1 else 0)%Z (λ k _, if (k.1 =? id)%Z then 1 else 0)%Z); [lia|].
  intros k v _. destruct (Z.eqb_spec k.1 id); [by rewrite bool_decide_eq_true_2|by rewrite bool_decide_eq_false_2].
Qed.

(** *** Totals of connect keys *)

(** What the live accounts of a connect key have pinned. *)
Definition key_sum (f : AccountRow → Z) (key : Z) (d : db) : Z :=
  msum (λ _ a, if is_live a && (a_connect_key_id a =? key)%Z then f a else 0)%Z (accounts d).

(** The totals agree with the pins. *)
Record totals_ok (d : db) : Prop := {
  tt_account : ∀ id a, accounts d !! id = Some a → is_live a = true → a_pinned_data a = account_data id d ∧ a_pinned_size a = account_size id d;
  tt_key : ∀ key k, connect_keys d !! key = Some k → ck_pinned_data k = key_sum a_pinned_data key d ∧ ck_pinned_size k = key_sum a_pinned_size key d }.

Lemma key_sum_update f key d d' id a a' :
  accounts d !! id = Some a → accounts d' = <[id := a']> (accounts d) →
  key_sum f key d' = (key_sum f key d - (if is_live a && (a_connect_key_id a =? key)%Z then f a else 0) +
    (if is_live a' && (a_connect_key_id a' =? key)%Z then f a' else 0))%Z.
Proof. intros Ha Ea. unfold key_sum. rewrite Ea. by rewrite (msum_update _ _ _ _ _ Ha). Qed.
End totals.
