(* ===== verification/SlabStore.v ===== *)
(** * The transactions keep the tables

    The invariant of the slab tables, and that every transaction of SlabTables.v that
    changes them keeps it. *)

From S2P Require Import Prelude Float Encoding External Slabs Objects Accounts App Tables SlabTables PinStore Totals.

(** ** The invariant *)

(** The slabs of an object are pinned by its account. *)
Definition covered (d : db) : Prop :=
  ∀ k os, object_slabs d !! k = Some os → ∃ o id s,
    objects d !! k.1 = Some o ∧ slabs d !! id = Some s ∧ sl_digest s = os_slab_digest os ∧ is_Some (account_slabs d !! (o_account_id o, id)).

Definition objects_numbered (d : db) : Prop := ∀ i o, objects d !! i = Some o → (i ≤ currval "objects" d)%Z.

(** Slabs, their sectors and the counters are those of another state. *)
Record fixed (d d' : db) : Prop := {
  fx_slabs : slabs d' = slabs d; fx_rows : slab_sectors d' = slab_sectors d; fx_sectors : sectors d' = sectors d;
  fx_hosts : hosts d' = hosts d;
  fx_stats : ∀ n, n ≠ statAccountsRegistered → stat n d' = stat n d;
  fx_seq : currval "slabs" d' = currval "slabs" d ∧ currval "sectors" d' = currval "sectors" d;
  fx_contracts : contracts d' = contracts d ∧ contract_sectors_map d' = contract_sectors_map d ∧
    currval "contract_sectors_map" d' = currval "contract_sectors_map" d }.

Lemma fixed_refl d : fixed d d.
Proof. by split. Qed.
Lemma fixed_trans d1 d2 d3 : fixed d1 d2 → fixed d2 d3 → fixed d1 d3.
Proof.
  intros [A1 A2 A3 A4 A5 [A6 A7] (A8 & A9 & A10)] [B1 B2 B3 B4 B5 [B6 B7] (B8 & B9 & B10)].
  split; try congruence; [|split; congruence|split_and!; congruence]. intros n Hn. by rewrite B5, A5.
Qed.

Section store.
Local Open Scope go_scope.
Context {C : CurrencyOps} {R : RhpOps} {E : EncoderOps} {EL : EncoderLaws E} {HS : Hashed} {RL : RhpLaws R}.

Record store_ok (d : db) : Prop := {
  st_slabs : slabs_ok d; st_covered : covered d; st_objects : objects_numbered d; st_totals : totals_ok d; st_counts : counts_ok d }.

Lemma fixed_content d d' id s ids roots : fixed d d' → content d id s ids roots → content d' id s ids roots.
Proof. intros [E1 E2 E3 E4 E5 E6 E7] [A1 A2 A3 A4 A5 A6]. split; rewrite ?E2, ?E3; done. Qed.
Lemma fixed_slabs_ok d d' :
  fixed d d' → (∀ k, is_Some (account_slabs d' !! k) → is_Some (account_slabs d !! k)) → slabs_ok d → slabs_ok d'.
Proof.
  intros Hf Hk [A1 A2 A3 A4 A5 A6]. destruct Hf as [E1 E2 E3 E4 E5 [E6 E7] (E8 & E9 & E10)] eqn:Hfe. split; rewrite ?E1, ?E2, ?E6; try done.
  - apply (sectors_ok_frame d); [done|by rewrite E4|done..].
  - intros id s Hs. destruct (A4 _ _ Hs) as (ids & roots & Hc). exists ids, roots. by apply (fixed_content d).
  - intros k v Hv. destruct (Hk k) as [u Hu]; [by eexists|]. by apply (A6 _ _ Hu).
Qed.
Lemma fixed_counts_ok d d' : fixed d d' → counts_ok d → counts_ok d'.
Proof.
  intros [E1 E2 E3 E4 E5 E6 E7] [A1 A2 A3 A4 A5].
  assert (∀ P, number P d' = number P d) as Hn by (intros P; by apply number_same).
  split; rewrite ?E5, ?Hn, ?E1 by done; try done. intros h r Hr. rewrite E4 in Hr. rewrite Hn. by apply A5.
Qed.
Lemma fixed_grow d d' : fixed d d' → slabs_grow d d'.
Proof.
  intros [E1 E2 E3 _ _ _ _]. split.
  - intros i s Hs. exists s. by rewrite E1.
  - intros id i _. by rewrite E2.
  - intros i r Hr. exists r. by rewrite E3.
Qed.
Lemma fixed_weights d d' id : fixed d d' → slab_data d' id = slab_data d id ∧ slab_size d' id = slab_size d id.
Proof. intros [E1 E2 _ _ _ _]. unfold slab_data, slab_size, rows_count. by rewrite E1, E2. Qed.

(** Totals when neither pins nor accounts change. *)
Lemma fixed_totals_ok d d' :
  fixed d d' → account_slabs d' = account_slabs d → accounts d' = accounts d → connect_keys d' = connect_keys d → totals_ok d → totals_ok d'.
Proof.
  intros Hf Ea Eacc Ek [A1 A2]. split.
  - rewrite Eacc. intros id a Ha Hl. destruct (A1 _ _ Ha Hl) as [-> ->]. unfold account_data, account_size.
    split; symmetry; apply account_sum_ext; try done; intros i _; by apply fixed_weights.
  - rewrite Ek. unfold key_sum. rewrite Eacc. apply A2.
Qed.

(** ** Totals of accounts and connect keys *)

Lemma add_to_account_commits id x y d :
  commits (add_to_account id x y) (λ a' d', ∃ a, accounts d !! id = Some a ∧ a' = add_account_pinned x y a ∧
    d' = set_accounts (insert id a') d) d.
Proof. unfold add_to_account. tx_steps. eauto. Qed.
Lemma add_to_key_commits id x y d :
  commits (add_to_key id x y) (λ k' d', ∃ k, connect_keys d !! id = Some k ∧ k' = add_key_pinned x y k ∧
    d' = set_connect_keys (insert id k') d) d.
Proof. unfold add_to_key. tx_steps. eauto. Qed.

(** The row of an account changes by as much as its pins; so does its connect key, if
    the account is live. *)
Lemma totals_moved d d' id a x y keys' :
  totals_ok d → accounts d !! id = Some a → accounts d' = <[id := add_account_pinned x y a]> (accounts d) → connect_keys d' = keys' →
  (∀ b, account_data b d' = account_data b d + if (id =? b)%Z then x else 0)%Z →
  (∀ b, account_size b d' = account_size b d + if (id =? b)%Z then y else 0)%Z →
  (if is_live a then ∃ k, connect_keys d !! a_connect_key_id a = Some k ∧ keys' = <[a_connect_key_id a := add_key_pinned x y k]> (connect_keys d)
   else keys' = connect_keys d) →
  totals_ok d'.
Proof.
  intros [A1 A2] Ha Ea Ek Hx Hy Hkeys. split.
  - rewrite Ea. intros b r Hr Hl. destruct (decide (b = id)) as [->|Hne].
    + rewrite lookup_insert_eq in Hr. injection Hr as <-. cbn. rewrite Hx, Hy, Z.eqb_refl. by destruct (A1 _ _ Ha Hl) as [-> ->].
    + rewrite lookup_insert_ne in Hr by done. rewrite Hx, Hy. destruct (Z.eqb_spec id b); [congruence|]. rewrite !Z.add_0_r. by apply A1.
  - intros key k Hk. rewrite Ek in Hk. rewrite !(key_sum_update _ _ _ _ _ _ _ Ha Ea). cbn.
    destruct (is_live a) eqn:Hl; cbn [andb].
    + assert (is_live (add_account_pinned x y a) = true) as -> by done. cbn [andb]. destruct Hkeys as (k0 & Hk0 & ->).
      destruct (Z.eqb_spec (a_connect_key_id a) key) as [<-|Hne].
      * rewrite lookup_insert_eq in Hk. injection Hk as <-. cbn. destruct (A2 _ _ Hk0) as [-> ->]. split; lia.
      * rewrite lookup_insert_ne in Hk by done. destruct (A2 _ _ Hk) as [-> ->]. split; lia.
    + assert (is_live (add_account_pinned x y a) = false) as -> by done. cbn [andb]. rewrite Hkeys in Hk. destruct (A2 _ _ Hk) as [-> ->]. split; lia.
Qed.

(** ** Pinning slabs *)

(** A slab as the parameters describe it, pinned by the account, its sectors on hosts. *)
Definition pinned_as (a : Z) (p : SlabPinParams) (d : db) : Prop := ∃ sid s ids,
  slabs d !! sid = Some s ∧ row_of p s ∧ content d sid s ids (PS_Root <$> SP_Sectors p) ∧ is_Some (account_slabs d !! (a, sid)) ∧
  Forall (λ sec, ∃ r h, sectors d !! sec = Some r ∧ se_host_id r = Some h) ids.

Lemma pinned_as_grow a p d d' :
  slabs_grow d d' → (∀ k, is_Some (account_slabs d !! k) → is_Some (account_slabs d' !! k)) → pinned_as a p d → pinned_as a p d'.
Proof.
  intros Hg Ha (sid & s & ids & Hs & (K1 & K2 & K3 & K4) & Hc & Hp & Hh).
  destruct (slabs_grow_content _ _ _ _ _ _ Hg Hs Hc) as (s' & Hs' & (S1 & S2 & S3 & S4) & Hc'). exists sid, s', ids.
  split_and!; [done| |done|by apply Ha|].
  - split_and!; congruence.
  - eapply Forall_impl; [exact Hh|]. cbn. intros sec (r & h & Hr & Er). destruct (sg_sectors _ _ Hg _ _ Hr) as (r' & Hr' & _ & _ & Hk). eauto.
Qed.

(** The index of a sector is a SMALLINT, which bounds the size of a slab. *)
Definition max_slab_size : Z := 32768 * SectorSize.

(** Pinning a list of slabs. *)
Record slabs_pinned (a : Z) (ps : list SlabPinParams) (acc : Z * Z) (d d' : db) : Prop := {
  ps_rest : rest d' = rest d; ps_ok : slabs_ok d'; ps_grow : slabs_grow d d';
  ps_seq : ∀ t, t ∈ ["objects"; "contract_sectors_map"]%string → currval t d' = currval t d;
  ps_keys : ∀ h, h_public_key <$> hosts d' !! h = h_public_key <$> hosts d !! h;
  ps_pins : ∀ k, is_Some (account_slabs d !! k) → is_Some (account_slabs d' !! k);
  ps_done : Forall (λ p, pinned_as a p d') ps;
  ps_counts : counts_ok d → counts_ok d';
  ps_data : ∀ b, account_data b d' = (account_data b d + if (a =? b)%Z then acc.1 else 0)%Z;
  ps_size : ∀ b, account_size b d' = (account_size b d + if (a =? b)%Z then acc.2 else 0)%Z;
  ps_bound : (0 ≤ acc.1 ≤ Z.of_nat (length ps) * max_slab_size ∧ 0 ≤ acc.2 ≤ Z.of_nat (length ps) * max_slab_size)%Z }.

Lemma slabs_pinned_snoc a ps acc acc' p sid d d1 d2 :
  slabs_pinned a ps acc d d1 → slab_pinned a p sid d1 d2 → ((Z.of_nat (length ps) + 1) * max_slab_size < 2 ^ 64)%Z →
  acc' = (if pinned_by a sid d1 then acc else (u64 (acc.1 + DataSize p), u64 (acc.2 + Size p))) → slabs_pinned a (ps ++ [p]) acc' d d2.
Proof.
  intros [A1 A2 A3 A4 A5 A6 A7 A8 A9 A10 [A11 A12]] [B1 B2 B3 B4 B5 B6 B7 B8] Hlen Eacc.
  assert (∀ k, is_Some (account_slabs d1 !! k) → is_Some (account_slabs d2 !! k)) as Hpins.
  { intros k Hk. rewrite B6. apply lookup_insert_is_Some'. by right. }
  destruct B7 as (s & ids & Hs & (K1 & K2 & K3 & K4) & Hc & Hh).
  assert (slab_data d2 sid = SP_MinShards p * SectorSize ∧ slab_size d2 sid = Z.of_nat (length (SP_Sectors p)) * SectorSize ∧
    0 ≤ SP_MinShards p ≤ 32768 ∧ Z.of_nat (length (SP_Sectors p)) ≤ 32768)%Z as (W1 & W2 & Wb1 & Wb2).
  { pose proof (co_shards _ _ _ _ _ Hc) as [Hb1 Hb2]. pose proof (content_length _ _ _ _ _ Hc) as Hl. rewrite length_fmap in Hl.
    unfold slab_data, slab_size. rewrite Hs, (rows_count_content _ _ _ _ _ Hc). split_and!; try done; try lia; congruence. }
  assert (acc' = if pinned_by a sid d1 then acc else (acc.1 + slab_data d2 sid, acc.2 + slab_size d2 sid)%Z) as ->.
  { rewrite Eacc. destruct (pinned_by a sid d1); [done|]. unfold DataSize, Size. rewrite W1, W2. pose proof SectorSize_pos as Hss.
    unfold u64, two64, max_slab_size in *. f_equal; rewrite Zplus_mod_idemp_r, Z.mod_small; nia. }
  assert (∀ w, (∀ id, is_Some (slabs d1 !! id) → w d2 id = w d1 id) → ∀ b, account_sum (w d2) b d2 =
    (account_sum (w d1) b d1 + if (a =? b)%Z && negb (pinned_by a sid d1) then w d2 sid else 0)%Z) as Hsum.
  { intros w Hw b. apply account_sum_pin; [done|]. intros id [v Hv]. apply Hw. by apply (sk_pin _ A2) in Hv. }
  split; [congruence|done|by eapply slabs_grow_trans|intros t Ht; by rewrite B4, A4| |auto| |auto|..].
  - intros h. by rewrite B5, A5.
  - apply Forall_app. split; [|constructor; [|done]].
    + eapply Forall_impl; [exact A7|]. intros q. by apply pinned_as_grow.
    + exists sid, s, ids. split_and!; try done. rewrite B6, lookup_insert_eq. by eexists.
  - intros b. unfold account_data at 1. rewrite Hsum; [|intros id Hid; by apply slabs_grow_weights]. fold (account_data b d1). rewrite A9.
    destruct (a =? b)%Z, (pinned_by a sid d1); cbn [negb andb fst]; lia.
  - intros b. unfold account_size at 1. rewrite Hsum; [|intros id Hid; by apply slabs_grow_weights]. fold (account_size b d1). rewrite A10.
    destruct (a =? b)%Z, (pinned_by a sid d1); cbn [negb andb snd]; lia.
  - rewrite length_app, W1, W2. pose proof SectorSize_pos as Hss. unfold max_slab_size in *. cbn [length].
    destruct (pinned_by a sid d1); cbn [fst snd]; nia.
Qed.

Lemma digests_of_commits toPin d :
  commits (digests_of toPin) (λ l d', d' = d ∧ l = SlabPinParams_Digest <$> toPin ∧
    Forall (λ p, SP_MinShards p ≤ Z.of_nat (length (SP_Sectors p)))%Z toPin) d.
Proof.
  induction toPin as [|p toPin IH]; cbn [digests_of]; [by tx_step|]. destruct (_ || _) eqn:Hb; [by tx_step|].
  apply orb_false_elim in Hb as [_ Hb%Z.ltb_ge]. tx_step. eapply commits_mono; [apply IH|]. cbn beta. intros l d1 (-> & -> & Hf).
  tx_step. split; [done|]. split; [done|]. by constructor.
Qed.

Lemma zip_digests toPin : zip (SlabPinParams_Digest <$> toPin) toPin = (λ p, (SlabPinParams_Digest p, p)) <$> toPin.
Proof. induction toPin as [|p l IH]; [done|]. csimpl. by rewrite IH. Qed.

Lemma pin_loop_commits good a next toPin d :
  slabs_ok d → Forall params_ok toPin → (Z.of_nat (length toPin) * max_slab_size < 2 ^ 64)%Z →
  commits (foldM (pin_slab good a next) (0, 0)%Z (zip (SlabPinParams_Digest <$> toPin) toPin))
    (λ acc d', slabs_pinned a toPin acc d d') d.
Proof.
  intros Hok Hall Hlen. rewrite zip_digests.
  eapply commits_mono; [apply (commits_foldM (λ ok acc d', slabs_pinned a ok.*2 acc d d'))|].
  - split; cbn; try done; try lia; [apply slabs_grow_refl|intros b; destruct (a =? b)%Z; lia..].
  - intros ok [digest p] acc d1 Hpre H1.
    assert ((digest, p) ∈ (λ p, (SlabPinParams_Digest p, p)) <$> toPin) as Hin.
    { destruct Hpre as [k ->]. apply elem_of_app. left. apply elem_of_app. right. by left. }
    apply list_elem_of_fmap in Hin as (q & [= -> ->] & Hq). rewrite Forall_forall in Hall.
    apply prefix_length in Hpre. rewrite length_app, length_fmap in Hpre. cbn in Hpre.
    eapply commits_mono; [apply pin_slab_commits; [apply H1|by apply Hall]|]. cbn beta. intros acc' d2 (sid & Hs & Eacc).
    rewrite fmap_app. eapply slabs_pinned_snoc; [done..| |done]. rewrite length_fmap. unfold max_slab_size in *. pose proof SectorSize_pos. nia.
  - cbn beta. intros acc d' H1. by rewrite <-list_fmap_compose, list_fmap_id in H1.
Qed.

(** The invariant after pinning, with the totals moved. *)
Lemma pinned_store_ok d d1 d2 id a toPin acc k :
  store_ok d → slabs_pinned id toPin acc d d1 → accounts d !! id = Some a → is_live a = true →
  connect_keys d !! a_connect_key_id a = Some k →
  d2 = set_connect_keys (insert (a_connect_key_id a) (add_key_pinned acc.1 acc.2 k))
         (set_accounts (insert id (add_account_pinned acc.1 acc.2 a)) d1) →
  store_ok d2.
Proof.
  intros [S1 S2 S3 S4 S5] Hp Ha Hl Hk ->. pose proof (ps_rest _ _ _ _ _ Hp) as Hr. unfold rest in Hr.
  assert (accounts d1 = accounts d ∧ connect_keys d1 = connect_keys d ∧ objects d1 = objects d ∧ object_slabs d1 = object_slabs d) as (E1 & E2 & E3 & E4)
    by (split_and!; congruence).
  set (d2 := set_connect_keys _ _). assert (fixed d1 d2) as Hf by done. split.
  - apply (fixed_slabs_ok d1); [done|done|apply Hp].
  - intros kk os Hos. cbn in *. rewrite E4 in Hos. destruct (S2 _ _ Hos) as (o & sid & s & Ho & Hs & Hd & Hpin).
    destruct (sg_slabs _ _ (ps_grow _ _ _ _ _ Hp) _ _ Hs) as (s' & Hs' & (Ed & _)). exists o, sid, s'. rewrite E3.
    split_and!; [done..|congruence|by apply (ps_pins _ _ _ _ _ Hp)].
  - unfold objects_numbered. cbn. change (currval "objects" d2) with (currval "objects" d1). rewrite E3, (ps_seq _ _ _ _ _ Hp) by (by left). apply S3.
  - apply (totals_moved d d2 id a acc.1 acc.2 (<[a_connect_key_id a := add_key_pinned acc.1 acc.2 k]> (connect_keys d))); try done.
    + cbn. by rewrite E1.
    + cbn. by rewrite E2.
    + intros b. rewrite <-(ps_data _ _ _ _ _ Hp). apply account_sum_ext; [done|]. intros i _. by apply fixed_weights.
    + intros b. rewrite <-(ps_size _ _ _ _ _ Hp). apply account_sum_ext; [done|]. intros i _. by apply fixed_weights.
    + rewrite Hl. eauto.
  - apply (fixed_counts_ok d1); [done|]. by apply Hp.
Qed.

Lemma PinSlabs_commits account next toPin d :
  store_ok d → Forall widths_ok toPin → (Z.of_nat (length toPin) * max_slab_size < 2 ^ 64)%Z →
  (∀ id a, find_account account d = Some (id, a) → is_live a = true) →
  commits (tables_PinSlabs account next toPin) (λ ids d', store_ok d' ∧ ids = SlabPinParams_Digest <$> toPin ∧
    ∃ id a a', find_account account d = Some (id, a) ∧ Forall (λ p, pinned_as id p d') toPin ∧
      accounts d' = <[id := a']> (accounts d) ∧ a_public_key a' = a_public_key a ∧ is_live a' = true ∧ (a_pinned_data a' ≤ a_max_pinned_data a')%Z ∧
      ∃ k q, connect_keys d' !! a_connect_key_id a' = Some k ∧ quotas d' !! ck_quota_name k = Some q ∧ (ck_pinned_data k ≤ q_max_pinned_data q)%Z) d.
Proof.
  intros Hok Hw Hlen Hlive. unfold tables_PinSlabs. do 3 tx_step. destruct (find_account account d) as [[id a]|] eqn:Hf; [|by tx_step].
  specialize (Hlive _ _ eq_refl). apply find_row_Some in Hf as Ha. destruct Ha as [Ha _].
  tx_step. eapply commits_mono; [apply digests_of_commits|]. cbn beta. intros l d0 (-> & -> & Hmin). tx_step.
  eapply commits_mono; [apply pin_loop_commits; [apply Hok| |done]|].
  { apply Forall_forall. intros p Hp. rewrite Forall_forall in Hw, Hmin. split; [by apply Hw|by apply Hmin]. }
  cbn beta. intros [x y] d1 Hp. do 6 tx_step. eapply commits_mono; [apply add_to_account_commits|].
  cbn beta. intros a' d2 (a1 & Ha1 & -> & ->). pose proof (ps_rest _ _ _ _ _ Hp) as Hr. unfold rest in Hr.
  assert (accounts d1 = accounts d ∧ connect_keys d1 = connect_keys d) as [E1 E2] by (split; congruence). rewrite E1 in Ha1.
  assert (a1 = a) as -> by congruence. destruct (Z.ltb_spec (a_max_pinned_data (add_account_pinned x y a)) (a_pinned_data (add_account_pinned x y a))) as [_|Hmax]; [by tx_step|].
  do 2 tx_step. eapply commits_mono; [apply add_to_key_commits|]. cbn beta. intros k' d3 (k & Hk & -> & ->). cbn in Hk. rewrite E2 in Hk.
  do 2 tx_step. destruct (quotas _ !! _) as [q|] eqn:Hq; [|by tx_step].
  destruct (Z.ltb_spec (q_max_pinned_data q) (ck_pinned_data (add_key_pinned x y k))) as [_|Hquota]; tx_step. split.
  - by apply (pinned_store_ok d d1 _ id a toPin (x, y) k).
  - split; [done|]. exists id, a, (add_account_pinned x y a). split; [done|]. split; [|split; [cbn; by rewrite E1|]].
    + eapply Forall_impl; [apply Hp|]. cbn. intros p. apply pinned_as_grow; [|done]. by apply fixed_grow.
    + split; [done|]. split; [done|]. split; [done|]. exists (add_key_pinned x y k), q. split; [|done]. cbn. by rewrite lookup_insert_eq.
Qed.

(** ** Unpinning slabs *)

(** Only the queue of slabs to delete differs. *)
Record queued (d d' : db) : Prop := {
  qd_tables : d' = set_slab_deletion_queue (λ _, slab_deletion_queue d') (set_sequences (λ _, sequences d') d);
  qd_seq : ∀ t, t ≠ "slab_deletion_queue"%string → currval t d' = currval t d }.

Lemma enqueue_commits l d : commits (forM l enqueue) (λ _ d', queued d d') d.
Proof.
  apply commits_forM; [by split; [destruct d|]|]. intros x d1 _ [E1 S1]. unfold enqueue. tx_steps. split.
  - rewrite E1. done.
  - intros t Ht. rewrite <-S1 by done. unfold currval. cbn. by rewrite lookup_insert_ne.
Qed.
Lemma queued_fixed d d' : queued d d' → fixed d d'.
Proof.
  intros [E1 S1]. split; try (rewrite E1; done); [split; by apply S1|]. split_and!; [by rewrite E1..|by apply S1].
Qed.

(** Some pins of an account are gone, and the totals follow. *)
Record unpinned (a : Z) (P : Z → bool) (d d' : db) : Prop := {
  un_fixed : fixed d d'; un_objects : objects d' = objects d; un_object_slabs : object_slabs d' = object_slabs d;
  un_seq : currval "objects" d' = currval "objects" d;
  un_pins : ∀ k, account_slabs d' !! k = if (k.1 =? a)%Z && P k.2 then None else account_slabs d !! k;
  un_totals : totals_ok d → totals_ok d' }.

Lemma unpinned_id (a : Z) (l : list Z) (P : Z → bool) d d' :
  (∀ id, P id = true → account_slabs d !! (a, id) = None) → fixed d d' → objects d' = objects d → object_slabs d' = object_slabs d →
  currval "objects" d' = currval "objects" d → account_slabs d' = account_slabs d → accounts d' = accounts d → connect_keys d' = connect_keys d →
  unpinned a P d d'.
Proof.
  intros HP Hf E1 E2 E3 E4 E5 E6. split; try done; [|by apply fixed_totals_ok].
  rewrite E4. intros [b id]. cbn [fst snd]. destruct (Z.eqb_spec b a) as [->|]; cbn [andb]; [|done]. destruct (P id) eqn:Hp; [by apply HP|done].
Qed.

(** The totals after the pins [l] are gone, whose sizes were subtracted. *)
Lemma unpinned_totals a (l : list Z) (P : Z → bool) d d' row keys :
  NoDup l → (∀ id, id ∈ l ↔ P id = true ∧ is_Some (account_slabs d !! (a, id))) → fixed d d' →
  (∀ k, account_slabs d' !! k = if (k.1 =? a)%Z && P k.2 then None else account_slabs d !! k) →
  accounts d !! a = Some row →
  accounts d' = <[a := add_account_pinned (- lsum (slab_data d) l) (- lsum (slab_size d) l) row]> (accounts d) → connect_keys d' = keys →
  (if is_live row then ∃ k, connect_keys d !! a_connect_key_id row = Some k ∧
      keys = <[a_connect_key_id row := add_key_pinned (- lsum (slab_data d) l) (- lsum (slab_size d) l) k]> (connect_keys d)
   else keys = connect_keys d) →
  totals_ok d → totals_ok d'.
Proof.
  intros Hnd Hl Hf Hpins Hrow Ea Ek Hkeys Ht.
  assert (∀ w, (∀ id, w d' id = w d id) → ∀ b, account_sum (w d') b d' = account_sum (w d) b d + if (a =? b)%Z then - lsum (w d) l else 0)%Z as Hsum.
  { intros w Hw b. rewrite (account_sum_ext (w d) (w d') b d' d') by done. rewrite (account_sum_unpin (w d) a l b d d'); [|done|by intros id []%Hl|].
    - destruct (a =? b)%Z; lia.
    - intros [c id]. rewrite Hpins. cbn [fst snd]. destruct (Z.eqb_spec c a) as [->|]; cbn [andb]; [|done].
      destruct (account_slabs d !! (a, id)) eqn:Hk; [|by destruct (P id); case_bool_decide].
      destruct (P id) eqn:HP; [rewrite bool_decide_eq_true_2|rewrite bool_decide_eq_false_2]; [done|apply Hl; split; [done|by eexists]|done|].
      intros [HP' _]%Hl. congruence. }
  apply (totals_moved d d' a row (- lsum (slab_data d) l) (- lsum (slab_size d) l) keys); try done.
  - intros b. apply (Hsum slab_data). intros id. by apply fixed_weights.
  - intros b. apply (Hsum slab_size). intros id. by apply fixed_weights.
Qed.

Lemma unpinSlabs_commits a sIDs d :
  slabs_ok d → commits (unpinSlabs a sIDs) (λ _ d', unpinned a (λ id, bool_decide (id ∈ sIDs)) d d') d.
Proof.
  intros Hok. unfold unpinSlabs. do 2 tx_step. cbn zeta. set (l := filter (λ s, pinned_by a s d = true) (remove_dups sIDs)). do 2 tx_step.
  assert (∀ id, id ∈ l ↔ id ∈ sIDs ∧ is_Some (account_slabs d !! (a, id))) as Hl.
  { intros id. unfold l. rewrite list_elem_of_filter, elem_of_remove_dups. unfold pinned_by. rewrite bool_decide_eq_true. tauto. }
  assert (NoDup l) as Hnd by apply NoDup_filter, NoDup_remove_dups.
  set (d1 := set_account_slabs _ d).
  assert (∀ k, account_slabs d1 !! k = if (k.1 =? a)%Z && bool_decide (k.2 ∈ sIDs) then None else account_slabs d !! k) as Hd1.
  { intros k. apply option_eq. intros v. unfold d1. cbn. rewrite delete_rows_lookup. destruct (_ && _); [|tauto]. split; [by intros [_ ?]|done]. }
  destruct (bool_decide_reflect (l = [])) as [Hnil|_].
  - tx_step. apply (unpinned_id a sIDs); try done; [|].
    + intros id Hid%bool_decide_eq_true. destruct (account_slabs d !! (a, id)) eqn:Hk; [|done].
      assert (id ∈ l) as Hin by (apply Hl; split; [done|by eexists]). rewrite Hnil in Hin. by apply elem_of_nil in Hin.
    + apply map_eq. intros [b id]. rewrite Hd1. cbn [fst snd]. destruct (Z.eqb_spec b a) as [->|]; cbn [andb]; [|done].
      destruct (bool_decide_reflect (id ∈ sIDs)) as [Hin|]; [|done]. destruct (account_slabs d !! (a, id)) eqn:Hk; [|done].
      assert (id ∈ l) as Hid by (apply Hl; split; [done|by eexists]). rewrite Hnil in Hid. by apply elem_of_nil in Hid.
  - rewrite (unpinned_data d l), (unpinned_size d l); [|done|done|].
    2: { intros id [_ [v Hv]]%Hl. by apply (sk_pin _ Hok) in Hv. }
    do 6 tx_step. eapply commits_mono; [apply add_to_account_commits|]. cbn beta. intros a' d2 (row & Hrow & -> & ->). cbn in Hrow.
    tx_step. set (d2 := set_accounts _ d1).
    apply (commits_mono _ (λ _ d3, ∃ keys, d3 = set_connect_keys (λ _, keys) d2 ∧
      if is_live row then ∃ k, connect_keys d !! a_connect_key_id row = Some k ∧
        keys = <[a_connect_key_id row := add_key_pinned (- lsum (slab_data d) l) (- lsum (slab_size d) l) k]> (connect_keys d)
      else keys = connect_keys d)).
    { cbn [a_deleted_at add_account_pinned]. unfold is_live. destruct (a_deleted_at row).
      - tx_step. exists (connect_keys d). by split.
      - do 2 tx_step. eapply commits_mono; [apply add_to_key_commits|]. cbn beta. intros k' d3 (k & Hk & -> & ->). tx_step.
        eexists. split; [done|]. rewrite bool_decide_eq_true_2 by done. exists k. by split. }
    cbn beta. intros _ d3 (keys & -> & Hkeys). eapply commits_mono; [apply enqueue_commits|]. cbn beta. intros _ d4 Hq.
    set (d3 := set_connect_keys _ d2) in *. pose proof (queued_fixed _ _ Hq) as Hf. assert (fixed d d4) as Hf' by (apply (fixed_trans d d3); done).
    destruct Hq as [E4 S4]. assert (∀ k, account_slabs d4 !! k = if (k.1 =? a)%Z && bool_decide (k.2 ∈ sIDs) then None else account_slabs d !! k) as Hpins
      by (rewrite E4; exact Hd1). split; try done; try (rewrite E4; done); [by rewrite S4|]. intros Ht.
    apply (unpinned_totals a l (λ id, bool_decide (id ∈ sIDs)) d d4 row keys); try done; try (by rewrite E4).
    intros id. rewrite bool_decide_eq_true. apply Hl.
Qed.

Lemma referenced_false a digest d :
  referenced a digest d = false → ∀ k os o, object_slabs d !! k = Some os → objects d !! k.1 = Some o → o_account_id o = a → os_slab_digest os ≠ digest.
Proof.
  unfold referenced. intros Hr k os o Hk Ho Ha Hd. rewrite exists_row_false in Hr. specialize (Hr _ _ Hk). cbn beta in Hr.
  by rewrite Ho, Ha, Hd, N.eqb_refl, Z.eqb_refl in Hr.
Qed.

(** Unpinning keeps the invariant when no object of the account has the slabs. *)
Lemma unpinned_store_ok a P d d' :
  store_ok d → unpinned a P d d' →
  (∀ id s, P id = true → slabs d !! id = Some s → referenced a (sl_digest s) d = false) → store_ok d'.
Proof.
  intros [S1 S2 S3 S4 S5] [U1 U2 U3 U4 U5 U6] HP. split.
  - apply (fixed_slabs_ok d); [done| |done]. intros k [v Hv]. rewrite U5 in Hv. destruct (_ && _); [done|by eexists].
  - intros k os Hos. rewrite U3 in Hos. destruct (S2 _ _ Hos) as (o & id & s & Ho & Hs & Hd & Hpin). exists o, id, s. rewrite U2, (fx_slabs _ _ U1).
    split_and!; [done..|]. rewrite U5. cbn [fst snd]. destruct (Z.eqb_spec (o_account_id o) a) as [Ha|]; cbn [andb]; [|done].
    destruct (P id) eqn:HPid; [|done]. exfalso. by apply (referenced_false _ _ _ (HP _ _ HPid Hs) _ _ _ Hos Ho Ha).
  - unfold objects_numbered. by rewrite U2, U4.
  - by apply U6.
  - by apply (fixed_counts_ok d).
Qed.

Lemma UnpinSlab_commits account slabID d : store_ok d → commits (tables_UnpinSlab account slabID) (λ _, store_ok) d.
Proof.
  intros Hok. unfold tables_UnpinSlab, accountID. do 5 tx_step. destruct (find_account account d) as [[id a]|]; [|by tx_step].
  do 3 tx_step. cbn [fst]. destruct (find_slab slabID d) as [[sid s]|] eqn:Hs; [|by tx_step]. apply find_row_Some in Hs as [Hs Hd%N.eqb_eq].
  destruct (negb _); [by tx_step|]. destruct (referenced id slabID d) eqn:Hr; [by tx_step|]. tx_step.
  eapply commits_mono; [apply unpinSlabs_commits, Hok|]. cbn beta. intros _ d' Hu. eapply unpinned_store_ok; [done..|].
  intros i t Hi%bool_decide_eq_true%list_elem_of_singleton Ht. subst i. assert (t = s) as -> by congruence. by rewrite Hd.
Qed.

Lemma unpinUnreferenced_commits a sIDs cutoff d : store_ok d → commits (unpinUnreferencedSlabs a sIDs cutoff) (λ _, store_ok) d.
Proof.
  intros Hok. unfold unpinUnreferencedSlabs. do 2 tx_step. cbn zeta. destruct (bool_decide _); [by tx_step|].
  eapply commits_mono; [apply unpinSlabs_commits, Hok|]. cbn beta. intros _ d' Hu. eapply unpinned_store_ok; [done..|].
  intros id s Hid%bool_decide_eq_true Hs. apply list_elem_of_filter in Hid as [Hun _]. unfold unpinnable_by in Hun. rewrite Hs in Hun.
  apply andb_prop in Hun as [_ Hun]. by apply negb_true_iff in Hun.
Qed.

Lemma prune_batch_commits a cursor cutoff d : store_ok d → commits (prune_batch a cursor cutoff) (λ _, store_ok) d.
Proof.
  intros Hok. unfold prune_batch. do 3 tx_step. cbn zeta. destruct (last _); [|by tx_step]. tx_step.
  eapply commits_mono; [by apply unpinUnreferenced_commits|]. cbn beta. intros _ d' Hd'. by tx_step.
Qed.

(** ** Objects *)

(** Only objects and their events differ. *)
Record objects_only (d d' : db) : Prop := {
  ob_fixed : fixed d d'; ob_account_slabs : account_slabs d' = account_slabs d;
  ob_accounts : accounts d' = accounts d; ob_keys : connect_keys d' = connect_keys d }.

Lemma objects_only_refl d : objects_only d d.
Proof. split; [apply fixed_refl|done..]. Qed.
Lemma objects_only_trans d1 d2 d3 : objects_only d1 d2 → objects_only d2 d3 → objects_only d1 d3.
Proof. intros [A1 A2 A3 A4] [B1 B2 B3 B4]. split; [by eapply fixed_trans|congruence..]. Qed.

Lemma objects_only_ok d d' : objects_only d d' → covered d' → objects_numbered d' → store_ok d → store_ok d'.
Proof.
  intros [A1 A2 A3 A4] Hc Hn [S1 S2 S3 S4 S5]. split; [|done|done|by apply (fixed_totals_ok d)|by apply (fixed_counts_ok d)].
  apply (fixed_slabs_ok d); [done| |done]. by rewrite A2.
Qed.

(** Deleting objects, and changes to events, keep it. *)
Lemma objects_deleted_ok d d' (P : Z → bool) :
  objects_only d d' → objects d' = delete_rows (λ id _, P id) (objects d) → object_slabs d' = delete_rows (λ k _, P k.1) (object_slabs d) →
  currval "objects" d' = currval "objects" d → store_ok d → store_ok d'.
Proof.
  intros Ho E1 E2 E3 Hok. apply (objects_only_ok d); [done|..|done]; destruct Hok as [S1 S2 S3 S4 S5].
  - intros k os Hk. rewrite E2 in Hk. apply delete_rows_lookup in Hk as [Hk HP]. destruct (S2 _ _ Hk) as (o & id & s & Hobj & Hs & Hd & Hpin).
    exists o, id, s. rewrite E1, (fx_slabs _ _ (ob_fixed _ _ Ho)), (ob_account_slabs _ _ Ho). split_and!; try done. by apply delete_rows_lookup.
  - intros i o Hi. rewrite E1 in Hi. apply delete_rows_lookup in Hi as [Hi _]. rewrite E3. by apply S3 in Hi.
Qed.

Lemma DeleteObject_commits account key d : store_ok d → commits (tables_DeleteObject account key) (λ _, store_ok) d.
Proof.
  intros Hok. unfold tables_DeleteObject, accountID, delete_objects, touch_events. do 4 tx_step.
  destruct (find_account account d) as [[id a]|]; [|by tx_step]. do 3 tx_step. cbn [fst]. destruct (find_object _ _ _) as [[oid o]|]; [|by tx_step].
  cbn zeta. do 6 tx_step. apply unpinUnreferenced_commits. by apply (objects_deleted_ok d _ (λ i, bool_decide (i ∈ [oid]))).
Qed.
End store.
