(* ===== verification/ObjectStore.v ===== *)
(** * Objects, accounts and what is left over

    Storing objects, deleting accounts and the slabs that nobody refers to keep the
    invariant of the slab tables; every history of transactions does. *)

From S2P Require Import Prelude Float Encoding External Slabs Objects Accounts App Tables SlabTables PinStore Totals SlabStore.

Section store.
Local Open Scope go_scope.
Context {C : CurrencyOps} {R : RhpOps} {E : EncoderOps} {EL : EncoderLaws E} {HS : Hashed} {RL : RhpLaws R}.

(** ** Storing an object *)

Lemma insert_object_slabs_commits oid i l d :
  commits (insert_object_slabs oid i l) (λ _ d', d' = set_object_slabs (λ _, object_slabs d') d ∧
    ∀ k os, object_slabs d' !! k = Some os → object_slabs d !! k = Some os ∨ k.1 = oid ∧ os_slab_digest os ∈ OS_ID <$> l) d.
Proof.
  revert i d. induction l as [|s l IH]; intros i d; cbn [insert_object_slabs].
  - tx_step. split; [by destruct d|]. auto.
  - tx_step. tx_step. do 6 tx_step. eapply commits_mono; [apply IH|]. cbn beta. intros _ d' [E1 H1]. split; [rewrite E1 at 1; done|].
    intros k os Hk. apply H1 in Hk as [Hk|[Hk1 Hk2]]; [|right; split; [done|by right]]. cbn in Hk.
    apply lookup_insert_Some in Hk as [[<- <-]|[_ Hk]]; [right; split; [done|by left]|by left].
Qed.

(** When as many of the digests are pinned as there are, each of them is. *)
Lemma pinned_count_full a digests d :
  slabs_ok d → NoDup digests → pinned_count a digests d = Z.of_nat (length digests) →
  ∀ digest, digest ∈ digests → ∃ id s, slabs d !! id = Some s ∧ sl_digest s = digest ∧ is_Some (account_slabs d !! (a, id)).
Proof.
  intros Hok Hnd Hcount. set (π := λ k : Z * Z, (sl_digest <$> slabs d !! k.2) : option N).
  set (n := λ dg, msum (λ k (_ : unit), if bool_decide (π k = dg) && (k.1 =? a)%Z then 1 else 0)%Z (account_slabs d)).
  assert (pinned_count a digests d = lsum n (Some <$> digests)) as Hsum.
  { unfold pinned_count. rewrite (msum_ext _ (λ k _, if bool_decide (π k ∈ Some <$> digests) then if (k.1 =? a)%Z then 1 else 0 else 0)%Z).
    - rewrite (msum_list π (λ k (_ : unit), if (k.1 =? a)%Z then 1 else 0)%Z) by (by apply NoDup_fmap_2; [apply _|]).
      apply lsum_ext. intros dg _. apply msum_ext. intros k v _. by destruct (bool_decide (π k = dg)).
    - intros k v _. unfold π. destruct (slabs d !! k.2) as [s|]; simpl.
      + rewrite (bool_decide_ext (Some (sl_digest s) ∈ Some <$> digests) (sl_digest s ∈ digests)); [by destruct (k.1 =? a)%Z, (bool_decide _)|].
        rewrite list_elem_of_fmap. split; [by intros (? & [= ->] & ?)|]. intros ?. by eexists.
      + rewrite andb_false_r, bool_decide_eq_false_2; [done|]. intros Hin%list_elem_of_fmap. by destruct Hin as (? & ? & _). }
  assert (∀ dg, n (Some dg) ≤ 1)%Z as Hle.
  { intros dg. apply msum_count_unique. intros [b i] v [b' i'] v' _ _ [H1%bool_decide_eq_true H2%Z.eqb_eq]%andb_prop [H3%bool_decide_eq_true H4%Z.eqb_eq]%andb_prop.
    unfold π in H1, H3. cbn in *. subst. destruct (slabs d !! i) as [s|] eqn:Hs; [|done]. destruct (slabs d !! i') as [t|] eqn:Ht; [|done].
    cbn in *. f_equal. apply (sk_digest _ Hok _ _ _ _ Hs Ht). congruence. }
  rewrite Hsum in Hcount. clear Hsum Hnd.
  assert (∀ l : list N, (lsum n (Some <$> l) ≤ Z.of_nat (length l))%Z) as Hall.
  { induction l as [|x l IH]; [done|]. cbn [fmap list_fmap lsum foldr length]. specialize (Hle x). unfold lsum in IH. lia. }
  assert (∀ digest, digest ∈ digests → n (Some digest) ≠ 0%Z) as Hone.
  { induction digests as [|x l IH]; intros dg Hin; [by apply elem_of_nil in Hin|]. cbn [fmap list_fmap lsum foldr length] in Hcount.
    pose proof (Hle x). pose proof (Hall l) as Hl. unfold lsum in Hl. apply elem_of_cons in Hin as [->|Hin]; [lia|]. apply IH; [unfold lsum; lia|done]. }
  intros dg Hdg%Hone. destruct (msum_count_exists _ _ Hdg) as ([b id] & v & Hk & [H1%bool_decide_eq_true H2%Z.eqb_eq]%andb_prop).
  unfold π in H1. cbn in *. subst. destruct (slabs d !! id) as [s|] eqn:Hs; [|done]. exists id, s. split; [done|]. split; [cbn in H1; congruence|by eexists].
Qed.

Lemma upsert_object_commits a obj d :
  objects_numbered d →
  commits (upsert_object a obj) (λ oid d', objects_only d d' ∧ objects_numbered d' ∧ object_slabs d' = object_slabs d ∧
    ∃ row, objects d' = <[oid := row]> (objects d) ∧ o_account_id row = a ∧ (∀ o, objects d !! oid = Some o → o_account_id o = a)) d.
Proof.
  intros Hn. unfold upsert_object. cbn zeta. do 4 tx_step. destruct (find_object a (PR_ID obj) d) as [[oid o]|] eqn:Hf.
  - apply find_row_Some in Hf as [Ho [Ha%Z.eqb_eq _]%andb_prop]. tx_steps. split; [done|]. split; [|split; [done|]].
    + intros i x. change (currval "objects" _) with (currval "objects" d). cbn. intros [[<- _]|[_ Hi]]%lookup_insert_Some; eauto.
    + eexists. split; [done|]. split; [done|]. intros o' Ho'. congruence.
  - tx_steps. split; [|split; [|split; [done|]]].
    + split; try done. split; try done; [|split_and!; [done..|]]; unfold currval; cbn; by rewrite !lookup_insert_ne.
    + unfold objects_numbered, currval. cbn. rewrite lookup_insert_eq. intros i x [[<- _]|[_ Hi]]%lookup_insert_Some; cbn; [lia|]. apply Hn in Hi. unfold currval in Hi. lia.
    + eexists. split; [done|]. split; [done|]. intros o Ho. apply Hn in Ho. lia.
Qed.

Lemma PinObject_commits account obj d : store_ok d → commits (tables_PinObject account obj) (λ _, store_ok) d.
Proof.
  intros Hok. unfold tables_PinObject, accountID, assertObjectNotBlocked. do 3 tx_step. tx_step. destruct (find_account account d) as [[a row]|]; [|by tx_step].
  tx_step. destruct (bool_decide _); [by tx_step|]. do 3 tx_step. destruct (blocked_objects d !! _); [by tx_step|]. do 3 tx_step.
  eapply commits_mono; [apply upsert_object_commits, Hok|]. cbn beta. intros oid d1 (Ho1 & Hn1 & Es1 & o & Eo & Ha & Hold).
  do 4 tx_step. cbn zeta. destruct (Z.eqb_spec (pinned_count a (remove_dups (OS_ID <$> PR_Slabs obj)) d1) (Z.of_nat (length (remove_dups (OS_ID <$> PR_Slabs obj))))) as [Hcount|];
    cbn [negb]; [|by tx_step]. do 3 tx_step. set (d2 := set_object_slabs _ _).
  assert (objects_only d d2) as Ho2 by (apply (objects_only_trans d d1); [done|by split]).
  eapply commits_mono; [apply insert_object_slabs_commits|]. cbn beta. intros _ d3 [E3 H3].
  assert (objects_only d d3) as Ho3 by (apply (objects_only_trans d d2); [done|rewrite E3; by split]).
  assert (slabs_ok d1) as Hs1.
  { apply (fixed_slabs_ok d); [apply Ho1| |apply Hok]. by rewrite (ob_account_slabs _ _ Ho1). }
  apply (objects_only_ok d); [done|..|done].
  - intros k os Hk. rewrite E3. cbn. rewrite Eo. apply H3 in Hk as [Hk|[Hk1 Hk2]].
    + unfold d2 in Hk. cbn in Hk. apply delete_rows_lookup in Hk as [Hk Hne%Z.eqb_neq]. rewrite Es1 in Hk.
      destruct (st_covered _ Hok _ _ Hk) as (x & id & s & Hx & Hs & Hd & Hpin). exists x, id, s. rewrite lookup_insert_ne by done.
      rewrite (fx_slabs _ _ (ob_fixed _ _ Ho1)), (ob_account_slabs _ _ Ho1). done.
    + destruct (pinned_count_full a _ d1 Hs1 (NoDup_remove_dups _) Hcount (os_slab_digest os)) as (id & s & Hs & Hd & Hpin).
      { by apply elem_of_remove_dups. }
      exists o, id, s. rewrite Hk1, lookup_insert_eq, Ha. done.
  - unfold objects_numbered. rewrite E3. apply Hn1.
Qed.

(** ** Deleting accounts *)

Lemma DeleteAccount_commits acc d : store_ok d → commits (tables_DeleteAccount acc) (λ _, store_ok) d.
Proof.
  intros Hok. unfold tables_DeleteAccount. do 2 tx_step. apply commits_try.
  2: { intros [u|e|] d' Hn; [by destruct (Hn u)| |tx_step]. destruct (errors_Is _ _); tx_step. }
  do 2 tx_step. destruct (find_account acc d) as [[id a]|] eqn:Hf; [|by tx_step]. apply find_row_Some in Hf as [Ha _].
  destruct (bool_decide_reflect (a_deleted_at a = None)) as [Hl|]; [|by tx_step]. do 3 tx_step.
  eapply commits_mono; [apply add_to_key_commits|]. cbn beta. intros k' d' (k & Hk & -> & ->). cbn in Hk. do 2 tx_step.
  set (d1 := set_connect_keys _ _). assert (fixed d d1) as Hfix by done. destruct Hok as [S1 S2 S3 [T1 T2] S5].
  assert (is_live a = true) as Hlive by (by apply bool_decide_eq_true).
  split; [by apply (fixed_slabs_ok d)|done|done| |by apply (fixed_counts_ok d)]. split.
  - cbn. intros b r [[<- <-]|[_ Hr]]%lookup_insert_Some Hrl; [done|]. destruct (T1 _ _ Hr Hrl) as [-> ->].
    split; symmetry; apply account_sum_ext; try done; intros i _; by apply fixed_weights.
  - intros key r Hr. rewrite !(key_sum_update _ key d d1 id a _ Ha eq_refl). rewrite Hlive. cbn [is_live delete_account_row a_deleted_at]. unfold is_live.
    rewrite bool_decide_eq_false_2 by done. cbn [andb]. cbn in Hr. apply lookup_insert_Some in Hr as [[<- <-]|[Hne Hr]].
    + rewrite Z.eqb_refl. cbn. destruct (T2 _ _ Hk) as [-> ->]. split; lia.
    + destruct (Z.eqb_spec (a_connect_key_id a) key); [done|]. destruct (T2 _ _ Hr) as [-> ->]. split; lia.
Qed.

Lemma first_deleted_Some d id : first_deleted d = Some id → ∃ a, accounts d !! id = Some a ∧ is_live a = false.
Proof.
  unfold first_deleted. intros Hf%fmap_Some_1. destruct Hf as ([t i] & Hh & ->). cbn.
  apply head_Some_elem_of in Hh. rewrite merge_sort_Permutation in Hh. apply list_elem_of_omap in Hh as ([j a] & Hin%elem_of_map_to_list & Hm).
  cbn in Hm. destruct (a_deleted_at a) as [t'|] eqn:Ht; [|done]. injection Hm as <- <-. exists a. split; [done|].
  unfold is_live. apply bool_decide_eq_false_2. congruence.
Qed.

Lemma objects_of_elem a d id o : objects d !! id = Some o → o_account_id o = a → id ∈ objects_of a d.
Proof.
  intros Ho Ha. unfold objects_of. rewrite merge_sort_Permutation. apply list_elem_of_omap. exists (id, o). rewrite elem_of_map_to_list. split; [done|].
  cbn. by rewrite Ha, Z.eqb_refl.
Qed.

(** Pins of a deleted account do not count for any total. *)
Lemma dead_unpinned a row P d d' :
  fixed d d' → objects d' = objects d → object_slabs d' = object_slabs d → currval "objects" d' = currval "objects" d →
  (∀ k, account_slabs d' !! k = if (k.1 =? a)%Z && P k.2 then None else account_slabs d !! k) →
  accounts d' = accounts d → connect_keys d' = connect_keys d → accounts d !! a = Some row → is_live row = false → unpinned a P d d'.
Proof.
  intros Hf E1 E2 E3 Hpins Ea Ek Hrow Hdead. split; try done. intros [T1 T2]. split.
  - rewrite Ea. intros b r Hr Hl. destruct (T1 _ _ Hr Hl) as [-> ->]. assert (b ≠ a) as Hne by congruence.
    assert (∀ w : db → Z → Z, (∀ id, w d' id = w d id) → account_sum (w d) b d = account_sum (w d') b d') as Hsum.
    { intros w Hw. unfold account_sum. assert (account_slabs d' = delete_rows (λ k _, (k.1 =? a)%Z && P k.2) (account_slabs d)) as ->.
      { apply map_eq. intros k. apply option_eq. intros v. rewrite delete_rows_lookup, Hpins. destruct (_ && _); [|tauto]. split; [done|]. by intros [_ ?]. }
      rewrite msum_delete_rows. rewrite (msum_zero (λ k v, if (k.1 =? a)%Z && P k.2 then if (k.1 =? b)%Z then w d' k.2 else 0 else 0)%Z).
      - rewrite Z.sub_0_r. apply msum_ext. intros k v _. destruct (k.1 =? b)%Z; [by rewrite Hw|done].
      - intros k v _. destruct (Z.eqb_spec k.1 a) as [->|]; [|done]. destruct (Z.eqb_spec a b); [congruence|]. by destruct (_ && _). }
    split; [apply (Hsum slab_data)|apply (Hsum slab_size)]; intros i; by apply fixed_weights.
  - rewrite Ek. unfold key_sum. rewrite Ea. apply T2.
Qed.

Lemma delete_account_commits a row d :
  accounts d !! a = Some row → is_live row = false → store_ok d → commits (delete_account a) (λ _, store_ok) d.
Proof.
  intros Hrow Hdead [S1 S2 S3 [T1 T2] S5]. unfold delete_account. tx_steps. set (d' := set_accounts _ _). assert (fixed d d') as Hf by done.
  split; [by apply (fixed_slabs_ok d)|done|done| |by apply (fixed_counts_ok d)]. split.
  - cbn. intros b r [_ Hr]%lookup_delete_Some Hl. destruct (T1 _ _ Hr Hl) as [-> ->].
    split; symmetry; apply account_sum_ext; try done; intros i _; by apply fixed_weights.
  - cbn. unfold key_sum. cbn. intros key k Hk. rewrite !(msum_delete _ _ _ _ Hrow), Hdead. cbn [andb]. rewrite !Z.sub_0_r. by apply T2.
Qed.

Lemma incrementStat_registered delta d : store_ok d → commits (incrementStat statAccountsRegistered delta) (λ _, store_ok) d.
Proof.
  intros Hok. eapply commits_mono; [apply incrementStat_counted|]. cbn beta. intros _ d' (Hc & Eh & Hs).
  assert (fixed d d') as Hf.
  { destruct Hc as [E1 H1 Q1]. split; [rewrite E1; done..|done| |split; by apply Q1|split_and!; [by rewrite E1..|by apply Q1]]. intros n Hn. rewrite Hs. destruct (String.eqb_spec statAccountsRegistered n); [congruence|lia]. }
  destruct Hc as [E1 H1 Q1]. apply (objects_only_ok d); [split; [done|by rewrite E1..]|..|done].
  - unfold covered. rewrite E1. apply Hok.
  - unfold objects_numbered. rewrite Q1, E1 by done. apply Hok.
Qed.

Lemma PruneAccounts_commits limit d : store_ok d → commits (tables_PruneAccounts limit) (λ _, store_ok) d.
Proof.
  intros Hok. unfold tables_PruneAccounts, delete_objects. destruct (limit <? 0)%Z eqn:Hlim; [by tx_step|]. apply Z.ltb_ge in Hlim. do 3 tx_step.
  destruct (first_deleted d) as [a|] eqn:Hfd; [|by tx_step]. apply first_deleted_Some in Hfd as (row & Hrow & Hdead). cbn zeta.
  set (objs := take _ _). do 4 tx_step. set (d1 := set_object_slabs _ _).
  assert (store_ok d1) as Hok1 by (by apply (objects_deleted_ok d _ (λ i, bool_decide (i ∈ objs)))).
  destruct (Z.eqb_spec (limit - Z.of_nat (length objs)) 0) as [|Hrem]; [by tx_step|]. do 3 tx_step.
  set (ids := take _ (slabs_of _ _)). set (d2 := set_account_slabs _ d1).
  assert (unpinned a (λ id, bool_decide (id ∈ ids)) d1 d2) as Hu.
  { apply (dead_unpinned a row); try done. intros k. apply option_eq. intros v. unfold d2. cbn. rewrite delete_rows_lookup. destruct (_ && _); [|tauto]. split; [by intros [_ ?]|done]. }
  assert (store_ok d2) as Hok2.
  { apply (unpinned_store_ok a _ d1 d2 Hok1 Hu). intros id s _ _. unfold referenced. apply exists_row_false. intros k os _.
    apply andb_false_intro2. destruct (objects d1 !! k.1) as [o|] eqn:Ho; [|done]. cbn in Ho. apply delete_rows_lookup in Ho as [Ho Hnot%bool_decide_eq_false].
    apply Z.eqb_neq. intros Ha. apply Hnot. assert (objs = objects_of a d) as ->; [|by eapply objects_of_elem].
    unfold objs in *. rewrite length_take in Hrem. apply take_ge. lia. }
  eapply commits_mono; [apply enqueue_commits|]. cbn beta. intros _ d3 Hq. pose proof (queued_fixed _ _ Hq) as Hf3. destruct Hq as [E3 S3].
  assert (store_ok d3) as Hok3.
  { apply (objects_only_ok d2); [split; [done|by rewrite E3..]|..|done].
    - unfold covered. rewrite E3. apply Hok2.
    - unfold objects_numbered. rewrite S3, E3 by done. apply Hok2. }
  destruct (_ =? _)%Z; [by tx_step|]. do 2 tx_step. eapply commits_mono; [apply (delete_account_commits a row); [by rewrite E3|done|done]|].
  cbn beta. intros _ d4 Hok4. tx_step. by apply incrementStat_registered.
Qed.

(** ** Slabs that nobody refers to *)

(** The tables without the slabs of [l], which no account pins and no object has. *)
Record orphans_deleted (l : list Z) (d d' : db) : Prop := {
  or_nodup : NoDup l;
  or_deletable : ∀ id, id ∈ l → deletable d id = true;
  or_slabs : slabs d' = delete_rows (λ id _, bool_decide (id ∈ l)) (slabs d);
  or_sectors : sectors d' = delete_rows (λ id _, candidate_sector l d id) (sectors d);
  or_rows : ∀ k v, slab_sectors d' !! k = Some v ↔ slab_sectors d !! k = Some v ∧ k.1 ∉ l ∧ candidate_sector l d v = false;
  or_account_slabs : account_slabs d' = account_slabs d; or_accounts : accounts d' = accounts d; or_keys : connect_keys d' = connect_keys d;
  or_contracts : contracts d' = contracts d ∧ contract_sectors_map d' = contract_sectors_map d;
  or_objects : objects d' = objects d; or_object_slabs : object_slabs d' = object_slabs d;
  or_seq : ∀ t, t ≠ "stats_deltas"%string → currval t d' = currval t d;
  or_hosts : ∀ h, h_public_key <$> hosts d' !! h = h_public_key <$> hosts d !! h;
  or_stats : ∀ n, stat n d' = (stat n d
    - (if String.eqb statPinnedSectors n then count_if (λ id s, candidate_sector l d id && is_pinned s) d else 0)
    - (if String.eqb statUnpinnedSectors n then count_if (λ id s, candidate_sector l d id && is_unpinned s) d else 0)
    - (if String.eqb statUnpinnableSectors n then count_if (λ id s, candidate_sector l d id && is_unpinnable s) d else 0)
    - (if String.eqb statSlabs n then Z.of_nat (length l) else 0))%Z;
  or_unpinned : ∀ h r, hosts d !! h = Some r → ∃ r', hosts d' !! h = Some r' ∧
    h_unpinned_sectors r' = (h_unpinned_sectors r - count_if (λ id s, candidate_sector l d id && unpinned_on h s) d)%Z }.

Lemma sum_omap h (f : Z → Z) l :
  NoDup l → sum_for h (omap (λ h, if (f h =? 0)%Z then None else Some (h, (- f h)%Z)) l) = (if bool_decide (h ∈ l) then - f h else 0)%Z.
Proof.
  induction 1 as [|x l Hx Hl IH]; [done|]. change (omap ?g (x :: l)) with (match g x with Some y => y :: omap g l | None => omap g l end). cbn beta.
  assert (bool_decide (h ∈ x :: l) = bool_decide (h = x) || bool_decide (h ∈ l)) as ->.
  { apply eq_true_iff_eq. rewrite orb_true_iff, !bool_decide_eq_true. apply elem_of_cons. }
  assert (bool_decide (x ∈ l) = false) as Hxl by by apply bool_decide_eq_false_2.
  destruct (Z.eqb_spec (f x) 0) as [H0|H0]; [|rewrite sum_for_cons; cbn [fst snd]]; rewrite IH.
  - destruct (bool_decide_reflect (h = x)) as [->|]; cbn [orb]; [|done]. rewrite Hxl. lia.
  - destruct (bool_decide_reflect (h = x)) as [->|]; cbn [orb]; [rewrite Z.eqb_refl, Hxl; lia|]. destruct (Z.eqb_spec x h); [congruence|lia].
Qed.
Lemma sum_host_deltas gone h d : is_Some (hosts d !! h) → sum_for h (host_deltas gone d) = (- count_if (λ id s, gone id s && unpinned_on h s) d)%Z.
Proof.
  intros [r Hr]. unfold host_deltas. cbn zeta. rewrite (sum_omap h (λ h, count_if (λ id s, gone id s && unpinned_on h s) d)) by apply NoDup_fst_map_to_list.
  rewrite bool_decide_eq_true_2; [done|]. apply list_elem_of_fmap. exists (h, r). by rewrite elem_of_map_to_list.
Qed.

Lemma deleteOrphaned_commits sIDs d :
  commits (deleteOrphanedSlabs sIDs) (λ _ d', ∃ l, orphans_deleted l d d' ∧ ∀ id, id ∈ l ↔ id ∈ sIDs ∧ deletable d id = true) d.
Proof.
  unfold deleteOrphanedSlabs. tx_step. tx_step. cbn zeta. set (l := filter (λ id, deletable d id = true) (remove_dups sIDs)). do 8 tx_step.
  set (dt := set_slab_sectors _ (set_slabs _ _)).
  tx_step. eapply commits_mono; [apply incrementStat_counted|]. cbn beta. intros _ d1 (C1 & E1 & S1).
  tx_step. eapply commits_mono; [apply incrementStat_counted|]. cbn beta. intros _ d2 (C2 & E2 & S2).
  tx_step. eapply commits_mono; [apply incrementStat_counted|]. cbn beta. intros _ d3 (C3 & E3 & S3).
  tx_step. eapply commits_mono; [apply incrementHosts_counted|]. cbn beta. intros _ d4 (C4 & S4 & H4).
  eapply commits_mono; [apply incrementStat_counted|]. cbn beta. intros _ d5 (C5 & E5 & S5).
  assert (counted dt d5) as Hc by (eapply counted_trans; [eapply counted_trans; [eapply counted_trans; [eapply counted_trans|]|]|]; done).
  assert (∀ id, id ∈ l ↔ id ∈ sIDs ∧ deletable d id = true) as Hl.
  { intros id. unfold l. rewrite list_elem_of_filter, elem_of_remove_dups. tauto. }
  exists l. split; [|done]. assert (∀ n, stat n dt = stat n d) as Hst by done. destruct Hc as [Ec Hk Hq].
  split; try (by rewrite Ec); try done.
  - apply NoDup_filter, NoDup_remove_dups.
  - intros id Hid. by apply Hl.
  - intros k v. rewrite Ec. cbn. rewrite !delete_rows_lookup, bool_decide_eq_false. tauto.
  - intros n. rewrite S5, S4, S3, S2, S1, Hst. destruct (String.eqb statPinnedSectors n), (String.eqb statUnpinnedSectors n),
      (String.eqb statUnpinnableSectors n), (String.eqb statSlabs n); lia.
  - intros h r Hr. rewrite E5. destruct (H4 h r) as (r' & Hr' & Er'); [by rewrite E3, E2, E1|]. exists r'. split; [done|]. rewrite Er'.
    rewrite (sum_host_deltas _ h d) by (by eexists). lia.
Qed.

Lemma number_deleted l P d d' :
  orphans_deleted l d d' → number P d' = (number P d - count_if (λ id s, candidate_sector l d id && P s) d)%Z.
Proof.
  intros Ho. unfold number, count_if. rewrite (or_sectors _ _ _ Ho), msum_delete_rows. f_equal. apply msum_ext. intros id s _.
  by destruct (candidate_sector l d id), (P s).
Qed.

(** Deletable slabs are neither pinned nor part of an object. *)
Lemma deletable_spec d id : deletable d id = true → ∃ s, slabs d !! id = Some s ∧ (∀ a, account_slabs d !! (a, id) = None) ∧
  (∀ k os, object_slabs d !! k = Some os → os_slab_digest os ≠ sl_digest s).
Proof.
  unfold deletable. destruct (slabs d !! id) as [s|]; [|done]. intros [H1%negb_true_iff H2%negb_true_iff]%andb_prop. exists s.
  rewrite exists_row_false in H1. rewrite exists_row_false in H2. split; [done|]. split.
  - intros a. destruct (account_slabs d !! (a, id)) as [u|] eqn:Hk; [|done]. specialize (H1 _ _ Hk). cbn in H1. by rewrite Z.eqb_refl in H1.
  - intros k os Hk. specialize (H2 _ _ Hk). cbn in H2. by apply N.eqb_neq.
Qed.

(** A slab that stays keeps its sectors. *)
Lemma orphans_content l d d' id s ids roots :
  orphans_deleted l d d' → id ∉ l → content d id s ids roots → content d' id s ids roots.
Proof.
  intros Ho Hid [A1 A2 A3 A4 A5 A6].
  assert (∀ i v, slab_sectors d !! (id, i) = Some v → candidate_sector l d v = false) as Hcand.
  { intros i v Hv. unfold candidate_sector. apply andb_false_intro2. apply negb_false_iff, exists_row_true. exists (id, i), v. split; [done|].
    cbn. by rewrite Z.eqb_refl, bool_decide_eq_false_2. }
  split; try done.
  - intros i. rewrite <-A1. apply option_eq. intros v. rewrite (or_rows _ _ _ Ho). cbn. split; [by intros []|]. intros Hv. split; [done|]. split; [done|]. by eapply Hcand.
  - apply Forall2_same_length_lookup_2; [by eapply Forall2_length|]. intros i sec root Hsec Hroot.
    destruct (Forall2_lookup_lr _ _ _ _ _ _ A2 Hsec Hroot) as (r & Hr & Er). exists r. split; [|done]. rewrite (or_sectors _ _ _ Ho). apply delete_rows_lookup. split; [done|].
    apply (Hcand (Z.of_nat i)). rewrite A1. destruct (Z.leb_spec 0 (Z.of_nat i)); [|lia]. by rewrite Nat2Z.id.
Qed.

Lemma orphans_slabs_ok l d d' : slabs_ok d → orphans_deleted l d d' → slabs_ok d'.
Proof.
  intros [S1 S2 S3 S4 S5 S6] Ho.
  assert (∀ id s, slabs d' !! id = Some s ↔ slabs d !! id = Some s ∧ id ∉ l) as Hs.
  { intros id s. rewrite (or_slabs _ _ _ Ho), delete_rows_lookup, bool_decide_eq_false. done. }
  assert (∀ id s, sectors d' !! id = Some s → sectors d !! id = Some s) as Hsec.
  { intros id s. rewrite (or_sectors _ _ _ Ho), delete_rows_lookup. by intros []. }
  split.
  - destruct S1 as [A1 A2 A3 A4 A5]. split; [by eauto| | |by eauto|].
    + intros i r Hi. rewrite (or_seq _ _ _ Ho) by done. eauto.
    + intros i r h Hi Hh. destruct (A3 _ _ _ (Hsec _ _ Hi) Hh) as [hr Hhr]. pose proof (or_hosts _ _ _ Ho h) as Hk. rewrite Hhr in Hk.
      destruct (hosts d' !! h); [by eexists|done].
    + destruct (or_contracts _ _ _ Ho) as [E1 E2]. apply (contracts_ok_frame d); [done..|by apply (or_seq _ _ _ Ho)|by apply hosts_known, (or_hosts _ _ _ Ho)| |done].
      intros i r m Hi Hm. exists i, r. auto.
  - intros i j s t [Hi _]%Hs [Hj _]%Hs. by apply S2.
  - intros i s [Hi _]%Hs. rewrite (or_seq _ _ _ Ho) by done. eauto.
  - intros id s [Hid Hn]%Hs. destruct (S4 _ _ Hid) as (ids & roots & Hc). exists ids, roots. by eapply orphans_content.
  - intros k v (Hk & Hn & _)%(or_rows _ _ _ Ho). destruct (S5 _ _ Hk) as [s Hks]. exists s. by apply Hs.
  - rewrite (or_account_slabs _ _ _ Ho). intros [a id] v Hk. destruct (S6 _ _ Hk) as [s Hks]. exists s. apply Hs. split; [done|]. cbn. intros Hin.
    destruct (deletable_spec _ _ (or_deletable _ _ _ Ho _ Hin)) as (_ & _ & Hno & _). by rewrite Hno in Hk.
Qed.

Lemma orphans_totals_ok l d d' : slabs_ok d → orphans_deleted l d d' → totals_ok d → totals_ok d'.
Proof.
  intros Hok Ho [T1 T2]. pose proof (orphans_slabs_ok _ _ _ Hok Ho) as Hok'.
  assert (∀ a id, is_Some (account_slabs d !! (a, id)) → slab_data d' id = slab_data d id ∧ slab_size d' id = slab_size d id) as Hw.
  { intros a id Hpin. assert (id ∉ l) as Hn.
    { intros Hin. destruct (deletable_spec _ _ (or_deletable _ _ _ Ho _ Hin)) as (_ & _ & Hno & _). rewrite Hno in Hpin. by destruct Hpin. }
    destruct Hpin as [v Hv]. destruct (sk_pin _ Hok _ _ Hv) as [s Hs]. cbn in Hs. destruct (sk_content _ Hok _ _ Hs) as (ids & roots & Hc).
    pose proof (orphans_content _ _ _ _ _ _ _ Ho Hn Hc) as Hc'. unfold slab_data, slab_size.
    rewrite (rows_count_content _ _ _ _ _ Hc), (rows_count_content _ _ _ _ _ Hc'), (or_slabs _ _ _ Ho), Hs.
    assert (delete_rows (λ id _, bool_decide (id ∈ l)) (slabs d) !! id = Some s) as ->; [|done]. apply delete_rows_lookup. by rewrite bool_decide_eq_false_2. }
  split.
  - rewrite (or_accounts _ _ _ Ho). intros a row Hrow Hl. destruct (T1 _ _ Hrow Hl) as [-> ->].
    split; symmetry; apply account_sum_ext; try apply (or_account_slabs _ _ _ Ho); intros id Hid; by apply (Hw a).
  - rewrite (or_keys _ _ _ Ho). unfold key_sum. rewrite (or_accounts _ _ _ Ho). apply T2.
Qed.

Lemma orphans_counts_ok l d d' : orphans_deleted l d d' → counts_ok d → counts_ok d'.
Proof.
  intros Ho [C1 C2 C3 C4 C5]. split; rewrite ?(or_stats _ _ _ Ho), ?C1, ?C2, ?C3, ?C4, ?(number_deleted _ _ _ _ Ho); simpl; try lia.
  - rewrite (or_slabs _ _ _ Ho), <-!msum_size, msum_delete_rows.
    rewrite (msum_list (λ id : Z, id) (λ _ _, 1%Z)) by apply (or_nodup _ _ _ Ho).
    rewrite (lsum_ext _ (λ _, 1%Z)).
    + assert (∀ l : list Z, lsum (λ _, 1%Z) l = Z.of_nat (length l)) as ->; [|lia]. clear. induction l as [|x l IH]; [done|]. cbn [lsum foldr length]. unfold lsum in IH. lia.
    + intros id Hid. destruct (deletable_spec _ _ (or_deletable _ _ _ Ho _ Hid)) as (s & Hs & _). exact (msum_single (λ _ _, 1%Z) _ _ _ Hs).
  - intros h r' Hr'. rewrite (number_deleted _ _ _ _ Ho). pose proof (or_hosts _ _ _ Ho h) as Hk. rewrite Hr' in Hk.
    destruct (hosts d !! h) as [r|] eqn:Hr; [|done]. destruct (or_unpinned _ _ _ Ho _ _ Hr) as (r1 & Hr1 & E1). assert (r1 = r') as -> by congruence.
    by rewrite E1, (C5 _ _ Hr).
Qed.

Lemma orphans_store_ok l d d' : store_ok d → orphans_deleted l d d' → store_ok d'.
Proof.
  intros [S1 S2 S3 S4 S5] Ho. split; [by eapply orphans_slabs_ok|..|by eapply orphans_totals_ok|by eapply orphans_counts_ok].
  - intros k os Hos. rewrite (or_object_slabs _ _ _ Ho) in Hos. destruct (S2 _ _ Hos) as (o & id & s & Hobj & Hs & Hd & Hpin). exists o, id, s.
    rewrite (or_objects _ _ _ Ho), (or_slabs _ _ _ Ho), (or_account_slabs _ _ _ Ho). split_and!; try done. apply delete_rows_lookup. split; [done|].
    apply bool_decide_eq_false_2. intros Hin. destruct (deletable_spec _ _ (or_deletable _ _ _ Ho _ Hin)) as (_ & _ & Hno & _). rewrite Hno in Hpin. by destruct Hpin.
  - unfold objects_numbered. rewrite (or_objects _ _ _ Ho), (or_seq _ _ _ Ho) by done. apply S3.
Qed.

Lemma PruneDeletedSlabs_commits limit d : store_ok d → commits (tables_PruneDeletedSlabs limit) (λ _, store_ok) d.
Proof.
  intros Hok. unfold tables_PruneDeletedSlabs. tx_step; [by tx_step|]. do 3 tx_step. cbn zeta. destruct (bool_decide _); [by tx_step|]. do 2 tx_step.
  eapply commits_mono; [apply deleteOrphaned_commits|]. cbn beta. intros _ d1 (l & Ho & _). do 3 tx_step.
  apply (objects_only_ok d1); [by split|..|by eapply orphans_store_ok]; pose proof (orphans_store_ok _ _ _ Hok Ho) as []; done.
Qed.

End store.
