(* ===== verification/SectorStore.v ===== *)
(** * The transactions on sectors keep the tables

    Sectors that are lost, pinned, unpinned or migrated keep their roots, and the
    counters follow them. *)

From S2P Require Import Prelude Float Encoding External Contract Slabs Objects Accounts App Tables SlabTables SectorTables PinStore Totals SlabStore ObjectStore.

(** ** Sums over rows *)

Lemma msum_imap {K V} `{HC : Countable K} (g : K → V → Z) (h : K → V → V) (m : gmap K V) :
  msum g (map_imap (λ k v, Some (h k v)) m) = msum (λ k v, g k (h k v)) m.
Proof.
  induction m as [|k v m Hk IH] using map_ind; [by rewrite map_imap_empty|]. rewrite map_imap_insert, !msum_insert; [by rewrite IH|done|].
  by rewrite map_lookup_imap, Hk.
Qed.

Lemma lsum_app {A} (f : A → Z) l l' : lsum f (l ++ l') = (lsum f l + lsum f l')%Z.
Proof. unfold lsum. induction l as [|x l IH]; simpl; [done|]. rewrite IH. lia. Qed.
Lemma lsum_fmap {A B} (f : B → Z) (g : A → B) l : lsum f (g <$> l) = lsum (λ x, f (g x)) l.
Proof. unfold lsum. induction l as [|x l IH]; csimpl; [done|]. by rewrite IH. Qed.
Lemma lsum_linear {A} (a b : Z) (f g : A → Z) l : lsum (λ x, a * f x + b * g x)%Z l = (a * lsum f l + b * lsum g l)%Z.
Proof. unfold lsum. induction l as [|x l IH]; simpl; [lia|]. rewrite IH. lia. Qed.
Lemma lsum_const {A} (l : list A) : lsum (λ _, 1%Z) l = Z.of_nat (length l).
Proof. unfold lsum. induction l as [|x l IH]; [done|]. cbn [foldr length]. rewrite IH. lia. Qed.

Section store.
Local Open Scope go_scope.
Context {C : CurrencyOps} {R : RhpOps} {E : EncoderOps} {EL : EncoderLaws E} {HS : Hashed} {RL : RhpLaws R}.

(** Rows that a statement picked. *)
Record chosen (P : SectorRow → bool) (rows : list (Z * SectorRow)) (d : db) : Prop := {
  ch_nodup : NoDup rows.*1;
  ch_rows : ∀ p, p ∈ rows → sectors d !! p.1 = Some p.2 ∧ P p.2 = true }.

Lemma chosen_sublist P rows rows' d : sublist rows' rows → chosen P rows d → chosen P rows' d.
Proof.
  intros Hs [H1 H2]. split.
  - eapply sublist_NoDup; [exact H1|]. by apply fmap_sublist.
  - intros p Hp. apply H2. by eapply elem_of_sublist.
Qed.

(** By how much the update changes the number of sectors of a kind. *)
Definition change (f : SectorRow → SectorRow) (rows : list (Z * SectorRow)) (Q : SectorRow → bool) : Z :=
  lsum (λ p, (if Q (f p.2) then 1 else 0) - (if Q p.2 then 1 else 0))%Z rows.

Definition moved (ids : list Z) (f : SectorRow → SectorRow) (d : db) : db :=
  set_sectors (map_imap (λ id s, Some (if bool_decide (id ∈ ids) then f s else s))) d.

Lemma number_moved P rows f d Q :
  chosen P rows d → number Q (moved rows.*1 f d) = (number Q d + change f rows Q)%Z.
Proof.
  intros [Hnd Hrows]. unfold number, count_if, moved. cbn. rewrite msum_imap.
  rewrite (msum_ext _ (λ id s, (if Q s then 1 else 0) + if bool_decide (id ∈ rows.*1) then (if Q (f s) then 1 else 0) - (if Q s then 1 else 0) else 0)%Z).
  - rewrite msum_add. f_equal. rewrite (msum_list (λ id : Z, id) (λ _ s, (if Q (f s) then 1 else 0) - (if Q s then 1 else 0))%Z) by done.
    rewrite lsum_fmap. apply lsum_ext. intros p Hp. destruct (Hrows _ Hp) as [Hs _].
    exact (msum_single (λ _ s, (if Q (f s) then 1 else 0) - (if Q s then 1 else 0))%Z _ _ _ Hs).
  - intros id s _. destruct (bool_decide (id ∈ rows.*1)); destruct (Q s), (Q (f s)); lia.
Qed.

(** Where a sector may be. *)
Definition placed (d : db) (s : SectorRow) : Prop :=
  match se_host_id s with
  | Some h => is_Some (hosts d !! h) ∧ ∀ m, se_contract_sectors_map_id s = Some m →
      ∃ id c, contract_sectors_map d !! m = Some id ∧ contracts d !! id = Some c ∧ h = c_host_id c
  | None => se_contract_sectors_map_id s = None
  end.
Lemma sectors_placed d i s : sectors_ok d → sectors d !! i = Some s → placed d s.
Proof.
  intros [A1 A2 A3 A4 A5] Hs. unfold placed. destruct (se_host_id s) as [h|] eqn:Eh; [|by eapply A4]. split; [by eapply A3|].
  intros m Hm. destruct (lk_sector _ A5 _ _ _ Hs Hm) as (id & c & Hid & Hc & Ehc). exists id, c. split_and!; [done..|congruence].
Qed.

(** Sectors moved, and counters that moved by as much, keep the invariant. *)
Lemma moved_store_ok P rows f d d' (δ : string → Z) (η : Z → Z) :
  store_ok d → chosen P rows d → counted (moved rows.*1 f d) d' →
  (∀ s, se_sector_root (f s) = se_sector_root s) →
  (∀ p, p ∈ rows → placed d (f p.2)) →
  (∀ n, stat n d' = stat n d + δ n)%Z →
  (∀ h r, hosts d !! h = Some r → ∃ r', hosts d' !! h = Some r' ∧ h_unpinned_sectors r' = h_unpinned_sectors r + η h)%Z →
  δ statSlabs = 0%Z → δ statPinnedSectors = change f rows is_pinned → δ statUnpinnedSectors = change f rows is_unpinned →
  δ statUnpinnableSectors = change f rows is_unpinnable → (∀ h, is_Some (hosts d !! h) → η h = change f rows (unpinned_on h)) → store_ok d'.
Proof.
  intros Hok Hch Hc Hroot Hhost Hstat Hunp D1 D2 D3 D4 D5. apply counted_tables in Hc as Hct. destruct Hct as (Er & Es & Ea & Erow & Esec).
  destruct Hc as [Eq Ek Eseq]. unfold rest in Er.
  assert (sectors d' = map_imap (λ id s, Some (if bool_decide (id ∈ rows.*1) then f s else s)) (sectors d)) as Esec' by exact Esec.
  assert (∀ id r', sectors d' !! id = Some r' → ∃ r, sectors d !! id = Some r ∧ se_sector_root r' = se_sector_root r ∧ (r' = r ∨ (id, r) ∈ rows ∧ r' = f r)) as Hback.
  { intros id r' Hr'. rewrite Esec', map_lookup_imap in Hr'. destruct (sectors d !! id) as [r|] eqn:Hr; [|done]. cbn in Hr'. injection Hr' as <-.
    exists r. split; [done|]. destruct (bool_decide_reflect (id ∈ rows.*1)) as [Hin|]; [|by split; [|left]]. split; [apply Hroot|]. right. split; [|done].
    apply list_elem_of_fmap in Hin as ([i r1] & -> & Hin). cbn in *. destruct (ch_rows _ _ _ Hch _ Hin) as [Hr1 _]. cbn in Hr1. by replace r with r1 by congruence. }
  assert (∀ id r, sectors d !! id = Some r → ∃ r', sectors d' !! id = Some r' ∧ se_sector_root r' = se_sector_root r) as Hfwd.
  { intros id r Hr. rewrite Esec', map_lookup_imap, Hr. cbn. eexists. split; [done|]. destruct (bool_decide _); [apply Hroot|done]. }
  assert (∀ h, is_Some (hosts d !! h) → is_Some (hosts d' !! h)) as Hh by (intros h [r Hr]; destruct (Hunp _ _ Hr) as (r' & Hr' & _); by eexists).
  assert (∀ Q, number Q d' = number Q d + change f rows Q)%Z as Hnum.
  { intros Q. rewrite <-(number_moved P) by done. by apply number_same. }
  destruct Hok as [[Hso B2 B3 B4 B5 B6] S2 S3 S4 [C1 C2 C3 C4 C5]]. pose proof Hso as [A1 A2 A3 A4 A5].
  assert (∀ id s ids roots, content d id s ids roots → content d' id s ids roots) as Hcontent.
  { intros id s ids roots [K1 K2 K3 K4 K5 K6]. split; try done; [by rewrite Erow|]. eapply Forall2_impl; [exact K2|]. cbn.
    intros sec root (r & Hr & <-). destruct (Hfwd _ _ Hr) as (r' & Hr' & Er'). eauto. }
  assert (objects d' = objects d ∧ object_slabs d' = object_slabs d ∧ accounts d' = accounts d ∧ connect_keys d' = connect_keys d) as (F1 & F2 & F3 & F4)
    by (split_and!; injection Er; congruence).
  split; [split; [split|..]|..|split|split].
  - intros i j r s Hr Hs Hrs. destruct (Hback _ _ Hr) as (r1 & Hr1 & E1 & _). destruct (Hback _ _ Hs) as (s1 & Hs1 & E2 & _). apply (A1 _ _ _ _ Hr1 Hs1). congruence.
  - intros i r Hr. destruct (Hback _ _ Hr) as (r1 & Hr1 & _). rewrite Eseq by done. by apply (A2 _ _ Hr1).
  - intros i r h Hr Eh. destruct (Hback _ _ Hr) as (r1 & Hr1 & _ & [->|[Hin ->]]); apply Hh; [by eapply A3|]. specialize (Hhost _ Hin). unfold placed in Hhost.
    cbn in Hhost. rewrite Eh in Hhost. apply Hhost.
  - intros i r Hr Eh. destruct (Hback _ _ Hr) as (r1 & Hr1 & _ & [->|[Hin ->]]); [by eapply A4|]. specialize (Hhost _ Hin). unfold placed in Hhost. cbn in Hhost. by rewrite Eh in Hhost.
  - assert (contracts d' = contracts d ∧ contract_sectors_map d' = contract_sectors_map d) as [F5 F6] by (split; injection Er; congruence).
    destruct A5 as [L1 L2 L3 L4 L5]. split; rewrite ?F5, ?F6, ?Eseq by done; try done; [intros id c Hc; by eapply Hh, L1|].
    intros i r m Hr Hm. destruct (Hback _ _ Hr) as (r1 & Hr1 & _ & [->|[Hin ->]]); [by eapply L5|]. specialize (Hhost _ Hin). unfold placed in Hhost. cbn in Hhost.
    destruct (se_host_id (f r1)); [|congruence]. destruct Hhost as [_ Hl]. destruct (Hl _ Hm) as (id & c & ? & ? & ->). eauto.
  - rewrite Es. apply B2.
  - rewrite Es, Eseq by done. apply B3.
  - rewrite Es. intros id s Hs. destruct (B4 _ _ Hs) as (ids & roots & Hco). eauto.
  - rewrite Es, Erow. apply B5.
  - rewrite Es, Ea. apply B6.
  - unfold covered. rewrite F1, F2, Es, Ea. apply S2.
  - unfold objects_numbered. rewrite F1, Eseq by done. apply S3.
  - rewrite F3. intros id a Hrow Hl. destruct (tt_account _ S4 _ _ Hrow Hl) as [-> ->]. unfold account_data, account_size.
    split; symmetry; apply account_sum_ext; try done; intros i _; unfold slab_data, slab_size, rows_count; by rewrite ?Es, ?Erow.
  - rewrite F4. unfold key_sum. rewrite F3. apply S4.
  - rewrite Hstat, C1, D1, Es. cbn. lia.
  - by rewrite Hstat, C2, D2, Hnum.
  - by rewrite Hstat, C3, D3, Hnum.
  - by rewrite Hstat, C4, D4, Hnum.
  - intros h r' Hr'. specialize (Ek h). rewrite Hr' in Ek. cbn in Ek. destruct (hosts d !! h) as [r|] eqn:Hr; [|done].
    destruct (Hunp _ _ Hr) as (r1 & Hr1 & E1). assert (r1 = r') as -> by congruence. rewrite E1, (C5 _ _ Hr), Hnum, D5; [done|by eexists].
Qed.

(** ** Counting the rows *)

Lemma change_counts f rows (Q : SectorRow → bool) (a b : Z) (P1 P2 : SectorRow → bool) :
  (∀ p, p ∈ rows → (if Q (f p.2) then 1 else 0) - (if Q p.2 then 1 else 0) = a * (if P1 p.2 then 1 else 0) + b * (if P2 p.2 then 1 else 0))%Z →
  change f rows Q = (a * count_rows P1 rows + b * count_rows P2 rows)%Z.
Proof. intros Hp. unfold change, count_rows. rewrite <-lsum_linear. apply lsum_ext. exact Hp. Qed.

Lemma count_nonneg P rows : (0 ≤ count_rows P rows)%Z.
Proof. unfold count_rows, lsum. induction rows as [|p l IH]; simpl; [done|]. destruct (P p.2); lia. Qed.

Context (order : ∀ A, list A → list A) (order_perm : ∀ A (l : list A), order A l ≡ₚ l).

Lemma select_chosen P d : chosen P (select_sectors order P d) d.
Proof.
  unfold select_sectors. split.
  - rewrite order_perm. apply (sublist_NoDup _ (map_to_list (sectors d)).*1); [apply NoDup_fst_map_to_list|]. apply fmap_sublist, sublist_filter.
  - intros [id s]. rewrite order_perm, list_elem_of_filter. intros [HP Hin%elem_of_map_to_list]. done.
Qed.
Lemma select_complete P d i s : sectors d !! i = Some s → bool_decide (i ∈ (select_sectors order P d).*1) = P s.
Proof.
  intros Hs. apply eq_true_iff_eq. rewrite bool_decide_eq_true, list_elem_of_fmap. unfold select_sectors. setoid_rewrite order_perm. split.
  - intros ([j t] & -> & [HP Hin%elem_of_map_to_list]%list_elem_of_filter). cbn in *. congruence.
  - intros HP. exists (i, s). by rewrite list_elem_of_filter, elem_of_map_to_list.
Qed.
Lemma select_chosen_take P n d : chosen P (take n (select_sectors order P d)) d.
Proof. eapply chosen_sublist; [apply sublist_take|apply select_chosen]. Qed.

(** A change of one statistic, and of the counter of one host. *)
Definition only (name n : string) (x : Z) : Z := if String.eqb name n then x else 0.
Definition only_host (host h x : Z) : Z := if (host =? h)%Z then x else 0.

(** Counters that moved by [δ] and [η]. *)
Definition tallied (δ : string → Z) (η : Z → Z) (d d' : db) : Prop :=
  counted d d' ∧ (∀ n, stat n d' = stat n d + δ n)%Z ∧
  ∀ h r, hosts d !! h = Some r → ∃ r', hosts d' !! h = Some r' ∧ h_unpinned_sectors r' = (h_unpinned_sectors r + η h)%Z.

Lemma tallied_refl d : tallied (λ _, 0%Z) (λ _, 0%Z) d d.
Proof. split; [apply counted_refl|]. split; [intros; lia|]. intros h r Hr. exists r. split; [done|lia]. Qed.
Lemma tallied_trans δ η δ' η' d1 d2 d3 :
  tallied δ η d1 d2 → tallied δ' η' d2 d3 → tallied (λ n, δ n + δ' n)%Z (λ h, η h + η' h)%Z d1 d3.
Proof.
  intros (C1 & S1 & H1) (C2 & S2 & H2). split; [by eapply counted_trans|]. split; [intros n; rewrite S2, S1; lia|].
  intros h r Hr. destruct (H1 _ _ Hr) as (r1 & Hr1 & E1). destruct (H2 _ _ Hr1) as (r2 & Hr2 & E2). exists r2. split; [done|]. lia.
Qed.

Lemma incrementStat_tallied name x d : commits (incrementStat name x) (λ _, tallied (λ n, only name n x) (λ _, 0%Z) d) d.
Proof.
  eapply commits_mono; [apply incrementStat_counted|]. cbn beta. intros _ d' (Hc & Eh & Hs). split; [done|]. split; [exact Hs|].
  intros h r Hr. exists r. rewrite Eh. split; [done|lia].
Qed.
Lemma incrementHost_tallied host x d : commits (incrementHostUnpinnedSectors host x) (λ _, tallied (λ _, 0%Z) (λ h, only_host host h x) d) d.
Proof.
  eapply commits_mono; [apply incrementHost_counted|]. cbn beta. intros _ d' (Hc & Hs & Hh). split; [done|]. split; [intros n; rewrite Hs; lia|exact Hh].
Qed.
Lemma incrementHosts_tallied deltas d : commits (incrementHostsUnpinnedSectors deltas) (λ _, tallied (λ _, 0%Z) (λ h, sum_for h deltas) d) d.
Proof.
  eapply commits_mono; [apply incrementHosts_counted|]. cbn beta. intros _ d' (Hc & Hs & Hh). split; [done|]. split; [intros n; rewrite Hs; lia|exact Hh].
Qed.
Lemma add_lost_tallied host x d : commits (add_lost_sectors host x) (λ _, tallied (λ _, 0%Z) (λ _, 0%Z) d) d.
Proof.
  unfold add_lost_sectors. tx_steps; [|apply tallied_refl]. split; [|split; [intros n; by rewrite Z.add_0_r|]].
  - split; [done| |done]. cbn. intros k. destruct (decide (k = host)) as [->|Hne]; [by rewrite lookup_insert_eq, Heqo|by rewrite lookup_insert_ne].
  - cbn. intros k r Hr. destruct (decide (k = host)) as [->|Hne].
    + rewrite lookup_insert_eq. eexists. split; [done|]. cbn. assert (r = h) as -> by congruence.
      lia.
    + rewrite lookup_insert_ne by done. exists r. split; [done|lia].
Qed.

(** One statement after others. *)
Lemma commits_tallied {A B} (m : M db A) (k : A → M db B) δ η δ' η' d0 d Q :
  tallied δ η d0 d → commits m (λ _, tallied δ' η' d) d →
  (∀ a d', tallied (λ n, δ n + δ' n)%Z (λ h, η h + η' h)%Z d0 d' → commits (k a) Q d') → commits (bindM m k) Q d.
Proof. intros Ht Hm Hk. apply commits_bind. eapply commits_mono; [exact Hm|]. cbn beta. intros a d' Ht'. apply Hk. by eapply tallied_trans. Qed.

Lemma tallied_ext δ η δ' η' d d' :
  tallied δ η d d' → (∀ n, δ n = δ' n) → (∀ h, η h = η' h) → tallied δ' η' d d'.
Proof. intros (H1 & H2 & H3) Hd He. split; [done|]. split; [intros n; by rewrite H2, Hd|]. intros h r Hr. rewrite <-He. by apply H3. Qed.

Lemma updateSectorStats_tallied p u q l d :
  commits (updateSectorStats p u q l) (λ _, tallied (λ n, only statPinnedSectors n p + only statUnpinnedSectors n u +
    only statUnpinnableSectors n q + only statSectorsLost n (i64 (u64 l)))%Z (λ _, 0%Z) d) d.
Proof.
  unfold updateSectorStats. eapply commits_tallied; [apply tallied_refl|apply commits_wrapM, incrementStat_tallied|]. intros _ d1 H1.
  eapply commits_tallied; [exact H1|apply commits_wrapM, incrementStat_tallied|]. intros _ d2 H2.
  eapply commits_tallied; [exact H2|apply commits_wrapM, incrementStat_tallied|]. intros _ d3 H3.
  eapply commits_mono; [apply commits_wrapM, incrementStat_tallied|]. cbn beta. intros _ d4 H4.
  eapply tallied_ext; [eapply tallied_trans; [exact H3|exact H4]|intros n; cbn; lia|intros h; cbn; lia].
Qed.

Lemma on_host_true host s : on_host host s = true ↔ se_host_id s = Some host.
Proof. unfold on_host. apply bool_decide_eq_true. Qed.

(** ** Lost sectors *)

Lemma mark_lost_commits host P rows d :
  store_ok d → chosen (λ s, on_host host s && P s) rows d →
  commits (mark_lost host rows) (λ _, store_ok) d.
Proof.
  intros Hok Hch. unfold mark_lost, scanLostSectorIDs, update_sectors. do 2 tx_step. destruct (bool_decide _); [by tx_step|]. do 2 tx_step.
  change (set_sectors _ d) with (moved rows.*1 detach d).
  set (pinned := count_rows is_pinned rows). set (unpinned := count_rows (λ s, negb (is_pinned s)) rows).
  eapply commits_tallied; [apply tallied_refl|apply commits_wrapM, add_lost_tallied|]. intros _ d1 H1.
  eapply commits_tallied; [exact H1|apply commits_wrapM, updateSectorStats_tallied|]. intros _ d2 H2.
  eapply commits_tallied; [exact H2|apply commits_wrapM, incrementHost_tallied|]. intros _ d3 (Hc & Hs & Hh). tx_step.
  assert (∀ p, p ∈ rows → se_host_id p.2 = Some host) as Hon.
  { intros p Hp. destruct (ch_rows _ _ _ Hch _ Hp) as [_ [Hp'%on_host_true _]%andb_prop]. done. }
  assert (∀ (Q : SectorRow → bool) (a b : Z), (∀ p, p ∈ rows → se_host_id p.2 = Some host → (if Q (detach p.2) then 1 else 0) - (if Q p.2 then 1 else 0) =
      a * (if is_pinned p.2 then 1 else 0) + b * (if negb (is_pinned p.2) then 1 else 0))%Z → change detach rows Q = (a * pinned + b * unpinned)%Z) as Hchange.
  { intros Q a b HQ. apply change_counts. intros p Hp. apply HQ; [done|by apply Hon]. }
  eapply (moved_store_ok _ rows detach d d3); [done|exact Hch|exact Hc|done|done|exact Hs|exact Hh|..].
  - unfold only. simpl. lia.
  - rewrite (Hchange is_pinned (-1) 0)%Z; [unfold only; simpl; lia|]. intros p Hp _. unfold is_pinned at 1. simpl. destruct (is_pinned p.2); simpl; lia.
  - rewrite (Hchange is_unpinned 0 (-1))%Z; [unfold only; simpl; lia|]. intros p Hp Hh'. destruct (is_unpinned_hosted _ _ Hh') as (-> & _). simpl. destruct (is_pinned p.2); simpl; lia.
  - rewrite (Hchange is_unpinnable 1 1)%Z; [unfold only; simpl; lia|]. intros p Hp Hh'. destruct (is_unpinned_hosted _ _ Hh') as (_ & -> & _). simpl. destruct (is_pinned p.2); simpl; lia.
  - intros h _. unfold only_host. rewrite (Hchange (unpinned_on h) 0 (if (host =? h)%Z then -1 else 0))%Z; [destruct (host =? h)%Z; lia|].
    intros p Hp Hh'. destruct (is_unpinned_hosted _ _ Hh') as (_ & _ & ->). simpl. destruct (is_pinned p.2), (host =? h)%Z; simpl; lia.
Qed.

Lemma MarkSectorsLost_commits hostKey roots d : store_ok d → commits (tables_MarkSectorsLost order hostKey roots) (λ _, store_ok) d.
Proof.
  intros Hok. unfold tables_MarkSectorsLost. destruct (bool_decide _); [by tx_step|]. do 3 tx_step. destruct (find_host _ _) as [[host r]|]; [|by tx_step].
  tx_step. eapply commits_mono; [eapply mark_lost_commits; [done|apply select_chosen]|]. intros a d' Hd. by tx_step.
Qed.
Lemma markFailingSectorsLost_commits hostKey maxChecks n d : store_ok d → commits (markFailingSectorsLostBatch order hostKey maxChecks n) (λ _, store_ok) d.
Proof.
  intros Hok. unfold markFailingSectorsLostBatch. do 3 tx_step. destruct (find_host _ _) as [[host r]|]; [|by tx_step].
  eapply mark_lost_commits; [done|apply select_chosen_take].
Qed.

(** ** Pinned sectors *)

Lemma if_tallied {A} x (m : M db A) (k : A) δ η d :
  (0 ≤ x)%Z → commits m (λ _, tallied δ η d) d → (x = 0%Z → (∀ n, δ n = 0%Z) ∧ ∀ h, η h = 0%Z) →
  commits (if (0 <? x)%Z then m else mret k) (λ _, tallied δ η d) d.
Proof.
  intros Hx Hm H0. destruct (Z.ltb_spec 0 x); [done|]. tx_step. destruct H0 as [Hd He]; [lia|]. eapply tallied_ext; [apply tallied_refl|done..].
Qed.

(** Every sector is of one kind. *)
Lemma sector_kinds s :
  ((if is_pinned s then 1 else 0) + (if is_unpinned s then 1 else 0) + (if is_unpinnable s then 1 else 0) = 1)%Z.
Proof. unfold is_unpinnable, is_unpinned. destruct (is_pinned s), (bool_decide (is_Some (se_host_id s))); done. Qed.

Lemma PinSectors_commits contractID roots d : store_ok d → commits (tables_PinSectors order contractID roots) (λ _, store_ok) d.
Proof.
  intros Hok. unfold tables_PinSectors, host_exists, update_sectors, scanSectorIDs. destruct (bool_decide _); [by tx_step|]. do 3 tx_step.
  destruct (find_contract _ _) as [[host m]|] eqn:Hfc; [|by tx_step]. set (rows := select_sectors _ _ _). destruct (bool_decide _); [by tx_step|].
  do 7 tx_step. apply bool_decide_eq_true in H. change (set_sectors _ d) with (moved rows.*1 (attach host m) d).
  assert (chosen (pinnable host m roots) rows d) as Hch by apply select_chosen.
  set (unpinned := count_rows is_unpinned rows). set (unpinnable := count_rows is_unpinnable rows).
  pose proof (count_nonneg is_unpinned rows) as Hu. pose proof (count_nonneg is_unpinnable rows) as Hn. fold unpinned in Hu. fold unpinnable in Hn.
  eapply commits_tallied; [apply tallied_refl|apply (if_tallied (unpinned + unpinnable)); [lia|apply commits_wrapM, incrementStat_tallied|]|].
  { intros ->. split; [intros n; unfold only; by destruct (String.eqb _ n)|done]. }
  intros _ d1 H1. eapply commits_tallied; [exact H1| |].
  { apply (if_tallied unpinned); [lia|eapply commits_tallied; [apply tallied_refl|apply commits_wrapM, incrementStat_tallied|]|].
    - intros _ d2 H2. eapply commits_mono; [apply commits_wrapM, incrementHost_tallied|]. cbn beta. intros _ d3 H3. exact (tallied_trans _ _ _ _ _ _ _ H2 H3).
    - intros ->. split; [intros n; unfold only; by destruct (String.eqb _ n)|]. intros h. unfold only_host. by destruct (_ =? _)%Z. }
  intros _ d2 H2. eapply commits_mono; [apply (if_tallied unpinnable); [lia|apply commits_wrapM, incrementStat_tallied|]|].
  { intros ->. split; [intros n; unfold only; by destruct (String.eqb _ n)|done]. }
  cbn beta. intros _ d3 H3. pose proof (tallied_trans _ _ _ _ _ _ _ H2 H3) as (Hc & Hs & Hh). clear H1 H2 H3.
  assert (∀ p, p ∈ rows → is_unpinned p.2 = true → se_host_id p.2 = Some host) as Hon.
  { intros p Hp Hun. destruct (ch_rows _ _ _ Hch _ Hp) as [_ [[_ Hor]%andb_prop _]%andb_prop]. apply orb_true_iff in Hor as [Hnone%bool_decide_eq_true|Hor%on_host_true]; [|done].
    unfold is_unpinned in Hun. rewrite Hnone, bool_decide_eq_false_2, andb_false_r in Hun by (by intros [? ?]). done. }
  assert (∀ s, is_pinned (attach host m s) = true ∧ is_unpinned (attach host m s) = false ∧ is_unpinnable (attach host m s) = false ∧
    ∀ h, unpinned_on h (attach host m s) = false) as Ha by done.
  assert (∃ id c, contract_sectors_map d !! m = Some id ∧ contracts d !! id = Some c ∧ host = c_host_id c) as Hlink.
  { unfold find_contract in Hfc. destruct (find_row _ _) as [[m' id]|] eqn:Hf; [|done]. apply find_row_Some in Hf as [Hm ->%N.eqb_eq].
    destruct (contracts d !! contractID) as [c|] eqn:Hcc; [|done]. injection Hfc as <- <-. eauto. }
  eapply (moved_store_ok _ rows (attach host m) d d3); [done|exact Hch|exact Hc|done| |exact Hs|exact Hh|..].
  - intros p Hp. split; [done|]. by intros m' [= <-].
  - unfold only. simpl. lia.
  - rewrite (change_counts _ _ _ 1 1 is_unpinned is_unpinnable); [unfold only; simpl; fold unpinned unpinnable; lia|]. intros p Hp.
    destruct (Ha p.2) as (-> & _). pose proof (sector_kinds p.2). destruct (is_pinned p.2); lia.
  - rewrite (change_counts _ _ _ (-1) 0 is_unpinned is_unpinnable); [unfold only; simpl; fold unpinned unpinnable; lia|]. intros p Hp.
    destruct (Ha p.2) as (_ & -> & _). destruct (is_unpinned p.2), (is_unpinnable p.2); done.
  - rewrite (change_counts _ _ _ 0 (-1) is_unpinned is_unpinnable); [unfold only; simpl; fold unpinned unpinnable; lia|]. intros p Hp.
    destruct (Ha p.2) as (_ & _ & -> & _). destruct (is_unpinned p.2), (is_unpinnable p.2); done.
  - intros h _. rewrite (change_counts _ _ _ (if (host =? h)%Z then -1 else 0) 0 is_unpinned is_unpinnable);
      [unfold only_host; fold unpinned unpinnable; destruct (host =? h)%Z; lia|]. intros p Hp.
    destruct (Ha p.2) as (_ & _ & _ & ->). unfold unpinned_on. destruct (is_unpinned p.2) eqn:Hun; [|by destruct (is_unpinnable p.2), (host =? h)%Z].
    rewrite (Hon _ Hp Hun). cbn [andb]. destruct (Z.eqb_spec host h) as [->|Hne]; [rewrite bool_decide_eq_true_2 by done|rewrite bool_decide_eq_false_2 by congruence];
      by destruct (is_unpinnable p.2).
Qed.

(** ** Sectors that were not pinned in time *)

Lemma sum_group d rows h : is_Some (hosts d !! h) → sum_for h (group_by_host d rows) = (- count_rows (on_host h) rows)%Z.
Proof.
  intros [r Hr]. unfold group_by_host. cbn zeta. rewrite (sum_omap h (λ h, count_rows (on_host h) rows)) by apply NoDup_fst_map_to_list.
  rewrite bool_decide_eq_true_2; [done|]. apply list_elem_of_fmap. exists (h, r). by rewrite elem_of_map_to_list.
Qed.

Lemma markSectorsUnpinnable_commits threshold n d : store_ok d → commits (markSectorsUnpinnableBatch order threshold n) (λ _, store_ok) d.
Proof.
  intros Hok. unfold markSectorsUnpinnableBatch, update_sectors. do 3 tx_step. cbn zeta. set (rows := take n _). do 2 tx_step.
  change (set_sectors _ d) with (moved rows.*1 unpin_host d).
  assert (chosen (λ s, is_unpinned s && (se_uploaded_at s <=? threshold)%Z) rows d) as Hch by apply select_chosen_take.
  assert (∀ p, p ∈ rows → is_unpinned p.2 = true ∧ is_pinned p.2 = false ∧ is_unpinnable p.2 = false ∧ se_contract_sectors_map_id p.2 = None) as Hun.
  { intros p Hp. destruct (ch_rows _ _ _ Hch _ Hp) as [_ [Hp' _]%andb_prop]. split; [done|]. unfold is_unpinnable. rewrite Hp'. unfold is_unpinned, is_pinned in *.
    destruct (se_contract_sectors_map_id p.2); [|done]. by rewrite bool_decide_eq_true_2 in Hp' by (by eexists). }
  assert (∀ p, p ∈ rows → is_unpinned (unpin_host p.2) = false ∧ is_pinned (unpin_host p.2) = false ∧ is_unpinnable (unpin_host p.2) = true ∧
    ∀ h, unpinned_on h (unpin_host p.2) = false) as Haf.
  { intros p Hp. destruct (Hun _ Hp) as (_ & _ & _ & Ec). unfold unpinned_on, is_unpinnable, is_unpinned, is_pinned. cbn. by rewrite Ec. }
  assert (∀ d', tallied (λ n, only statUnpinnableSectors n (Z.of_nat (length rows)) + only statUnpinnedSectors n (- Z.of_nat (length rows)))%Z
    (λ h, sum_for h (group_by_host d rows)) (moved rows.*1 unpin_host d) d' → store_ok d') as Hfin.
  { intros d' (Hc & Hs & Hh). assert (count_rows (λ _, true) rows = Z.of_nat (length rows)) as Hlen by apply lsum_const.
    eapply (moved_store_ok _ rows unpin_host d d'); [done|exact Hch|exact Hc|done| |exact Hs|exact Hh|..].
    - intros p Hp. cbn. apply (Hun _ Hp).
    - done.
    - rewrite (change_counts _ _ _ 0 0 (λ _, true) (λ _, true)); [unfold only; simpl; lia|]. intros p Hp. destruct (Hun _ Hp) as (_ & -> & _), (Haf _ Hp) as (_ & -> & _). done.
    - rewrite (change_counts _ _ _ (-1) 0 (λ _, true) (λ _, true)); [unfold only; simpl; lia|]. intros p Hp. destruct (Hun _ Hp) as (-> & _), (Haf _ Hp) as (-> & _). done.
    - rewrite (change_counts _ _ _ 1 0 (λ _, true) (λ _, true)); [unfold only; simpl; lia|]. intros p Hp. destruct (Hun _ Hp) as (_ & _ & -> & _), (Haf _ Hp) as (_ & _ & -> & _). done.
    - intros h Hhost. cbn beta. rewrite (sum_group d rows h Hhost). rewrite (change_counts _ _ _ (-1) 0 (on_host h) (λ _, true)); [lia|]. intros p Hp.
      destruct (Hun _ Hp) as (Hu & _), (Haf _ Hp) as (_ & _ & _ & ->). unfold unpinned_on. rewrite Hu. cbn [andb]. fold (on_host h p.2). by destruct (on_host h p.2). }
  destruct (Z.eqb_spec (Z.of_nat (length rows)) 0) as [H0|_].
  - tx_step. apply Hfin. assert (rows = []) as -> by (apply length_zero_iff_nil; lia). eapply tallied_ext; [apply tallied_refl|..].
    + intros k. unfold only. repeat case_match; reflexivity.
    + intros h. unfold group_by_host. cbn. induction (map_to_list (hosts d)).*1; done.
  - eapply commits_tallied; [apply tallied_refl|apply commits_wrapM, incrementStat_tallied|]. intros _ d1 H1.
    eapply commits_tallied; [exact H1|apply commits_wrapM, incrementStat_tallied|]. intros _ d2 H2.
    eapply commits_tallied; [exact H2|apply commits_wrapM, incrementHosts_tallied|]. intros _ d3 H3. tx_step. apply Hfin.
    eapply tallied_ext; [exact H3|intros k; cbn; lia|done].
Qed.

(** ** Migrated sectors *)

Lemma moved_one id s f d : sectors d !! id = Some s → set_sectors (insert id (f s)) d = moved [id] f d.
Proof.
  intros Hs. unfold moved. assert (<[id := f s]> (sectors d) = map_imap (λ i r, Some (if bool_decide (i ∈ [id]) then f r else r)) (sectors d)) as E1.
  { apply map_eq. intros i. rewrite map_lookup_imap. destruct (decide (i = id)) as [->|Hne].
    - rewrite lookup_insert_eq, Hs. cbn. by rewrite bool_decide_eq_true_2 by (by left).
    - rewrite lookup_insert_ne by done. destruct (sectors d !! i); [|done]. cbn. by rewrite bool_decide_eq_false_2 by (by intros ?%list_elem_of_singleton). }
  unfold set_sectors. by rewrite E1.
Qed.

(** What a migration changes: the sector is unpinned, on the new host. *)
Lemma migrate_kinds now host s : is_pinned (migrate now host s) = false ∧ is_unpinned (migrate now host s) = true ∧ is_unpinnable (migrate now host s) = false ∧
  ∀ h, unpinned_on h (migrate now host s) = (host =? h)%Z.
Proof.
  destruct (is_unpinned_hosted (migrate now host s) host eq_refl) as (E1 & E2 & E3). rewrite E1, E2. split_and!; try done.
Qed.

(** The counters of a migration, by what the sector was. *)
Lemma migrate_stats s host d (k := λ b : bool, (if b then 1 else 0)%Z) :
  (se_host_id s = None → se_contract_sectors_map_id s = None) →
  commits (if is_pinned s then
       wrapM "failed to decrement pinned sectors: " (incrementStat statPinnedSectors (-1)) ;;
       wrapM "failed to increment unpinned sectors: " (incrementStat statUnpinnedSectors 1) ;;
       wrapM "failed to update host unpinned sectors: " (incrementHostUnpinnedSectors host 1)
     else match se_host_id s with
     | Some oldHostID =>
         wrapM "failed to update old host unpinned sectors: " (incrementHostUnpinnedSectors oldHostID (-1)) ;;
         wrapM "failed to update new host unpinned sectors: " (incrementHostUnpinnedSectors host 1)
     | None =>
         wrapM "failed to decrement unpinnable sectors: " (incrementStat statUnpinnableSectors (-1)) ;;
         wrapM "failed to increment unpinned sectors: " (incrementStat statUnpinnedSectors 1) ;;
         wrapM "failed to update host unpinned sectors: " (incrementHostUnpinnedSectors host 1)
     end)
    (λ _, tallied (λ n, only statPinnedSectors n (- k (is_pinned s)) + only statUnpinnedSectors n (1 - k (is_unpinned s)) +
       only statUnpinnableSectors n (- k (is_unpinnable s)))%Z (λ h, only_host host h 1 - k (unpinned_on h s))%Z d) d.
Proof.
  intros Hok. unfold k. destruct (is_pinned s) eqn:Hp.
  - assert (is_unpinned s = false ∧ is_unpinnable s = false ∧ ∀ h, unpinned_on h s = false) as (E1 & E2 & E3)
      by (unfold unpinned_on, is_unpinnable, is_unpinned; by rewrite Hp).
    eapply commits_tallied; [apply tallied_refl|apply commits_wrapM, incrementStat_tallied|]. intros _ d1 H1.
    eapply commits_tallied; [exact H1|apply commits_wrapM, incrementStat_tallied|]. intros _ d2 H2.
    eapply commits_mono; [apply commits_wrapM, incrementHost_tallied|]. cbn beta. intros _ d3 H3.
    eapply tallied_ext; [exact (tallied_trans _ _ _ _ _ _ _ H2 H3)|..].
    + intros n. rewrite E1, E2. unfold only. repeat case_match; lia.
    + intros h. rewrite E3. cbn beta iota. lia.
  - destruct (se_host_id s) as [old|] eqn:Eh.
    + destruct (is_unpinned_hosted _ _ Eh) as (E1 & E2 & E3). rewrite Hp in E1, E3. cbn [negb andb] in E1, E3.
      eapply commits_tallied; [apply tallied_refl|apply commits_wrapM, incrementHost_tallied|]. intros _ d1 H1.
      eapply commits_mono; [apply commits_wrapM, incrementHost_tallied|]. cbn beta. intros _ d2 H2.
      eapply tallied_ext; [exact (tallied_trans _ _ _ _ _ _ _ H1 H2)|..].
      * intros n. rewrite E1, E2. unfold only. repeat case_match; lia.
      * intros h. rewrite E3. unfold only_host. repeat case_match; lia.
    + destruct (is_unpinned_hostless _ Eh (Hok eq_refl)) as (E0 & E1 & E2 & E3).
      eapply commits_tallied; [apply tallied_refl|apply commits_wrapM, incrementStat_tallied|]. intros _ d1 H1.
      eapply commits_tallied; [exact H1|apply commits_wrapM, incrementStat_tallied|]. intros _ d2 H2.
      eapply commits_mono; [apply commits_wrapM, incrementHost_tallied|]. cbn beta. intros _ d3 H3.
      eapply tallied_ext; [exact (tallied_trans _ _ _ _ _ _ _ H2 H3)|..].
      * intros n. rewrite E1, E2. unfold only. repeat case_match; lia.
      * intros h. rewrite E3. cbn beta iota. lia.
Qed.

Lemma MigrateSector_commits root hostKey d : store_ok d → commits (tables_MigrateSector root hostKey) (λ _, store_ok) d.
Proof.
  intros Hok. unfold tables_MigrateSector. do 3 tx_step. destruct (find_sector root d) as [[id s]|] eqn:Hf; [|by tx_step]. apply find_row_Some in Hf as [Hs _].
  destruct (find_host hostKey d) as [[host hr]|] eqn:Hh; [|by tx_step]. apply find_row_Some in Hh as [Hhost _]. do 4 tx_step.
  rewrite (moved_one id s (migrate (db_now d) host)) by done. set (f := migrate (db_now d) host).
  assert (chosen (λ _, true) [(id, s)] d) as Hch by (split; [apply NoDup_singleton|by intros p ->%list_elem_of_singleton]).
  eapply commits_tallied; [apply tallied_refl|apply commits_wrapM, incrementStat_tallied|]. intros _ d1 H1.
  eapply commits_tallied; [exact H1|apply migrate_stats|].
  { intros Eh. by apply (so_contract _ (sk_sectors _ (st_slabs _ Hok)) _ _ Hs). }
  intros _ d2 (Hc & Hst & Hhs). tx_step. destruct (migrate_kinds (db_now d) host s) as (M1 & M2 & M3 & M4). fold f in M1, M2, M3, M4.
  eapply (moved_store_ok _ [(id, s)] f d d2); [done|exact Hch|exact Hc|done| |exact Hst|exact Hhs|..].
  - intros p ->%list_elem_of_singleton. split; [by eexists|done].
  - unfold only. simpl. lia.
  - unfold change, lsum. cbn [foldr fst snd]. rewrite M1. unfold only. simpl. lia.
  - unfold change, lsum. cbn [foldr fst snd]. rewrite M2. unfold only. simpl. lia.
  - unfold change, lsum. cbn [foldr fst snd]. rewrite M3. unfold only. simpl. lia.
  - intros h _. unfold change, lsum. cbn [foldr fst snd]. rewrite M4. unfold only_host. lia.
Qed.

(** ** Integrity checks *)

(** Updates that neither move nor pin a sector change no counter. *)
Lemma kept_store_ok P rows f d d' (δ : string → Z) :
  store_ok d → chosen P rows d → tallied δ (λ _, 0%Z) (moved rows.*1 f d) d' →
  (∀ s, se_sector_root (f s) = se_sector_root s ∧ se_host_id (f s) = se_host_id s ∧ se_contract_sectors_map_id (f s) = se_contract_sectors_map_id s) →
  δ statSlabs = 0%Z → δ statPinnedSectors = 0%Z → δ statUnpinnedSectors = 0%Z → δ statUnpinnableSectors = 0%Z → store_ok d'.
Proof.
  intros Hok Hch (Hc & Hs & Hh) Hf D1 D2 D3 D4.
  assert (∀ Q : SectorRow → bool, (∀ s, Q (f s) = Q s) → change f rows Q = 0%Z) as Hzero.
  { intros Q HQ. unfold change. rewrite (lsum_ext _ (λ p, 0 * 1 + 0 * 1)%Z) by (intros p _; rewrite HQ; lia). by rewrite lsum_linear. }
  assert (∀ s, is_pinned (f s) = is_pinned s) as K1 by (intros s; unfold is_pinned; destruct (Hf s) as (_ & _ & ->); done).
  assert (∀ s, is_unpinned (f s) = is_unpinned s) as K2 by (intros s; unfold is_unpinned; rewrite K1; destruct (Hf s) as (_ & -> & _); done).
  eapply (moved_store_ok _ rows f d d'); [done|exact Hch|exact Hc|apply Hf| |exact Hs|exact Hh|done|..].
  - intros p Hp. unfold placed. destruct (Hf p.2) as (_ & -> & ->). destruct (ch_rows _ _ _ Hch _ Hp) as [Hrow _].
    apply (sectors_placed _ p.1); [apply Hok|done].
  - by rewrite Hzero.
  - by rewrite Hzero.
  - rewrite Hzero; [done|]. intros s. unfold is_unpinnable. by rewrite K1, K2.
  - intros h _. rewrite Hzero; [done|]. intros s. unfold unpinned_on. rewrite K2. destruct (Hf s) as (_ & -> & _). done.
Qed.

Lemma chosen_nil P d : chosen P [] d.
Proof. split; [constructor|]. by intros p ?%elem_of_nil. Qed.

Lemma recordIntegrityCheck_commits success next hostKey roots d :
  store_ok d → commits (recordIntegrityCheck order success next hostKey roots) (λ _, store_ok) d.
Proof.
  intros Hok. unfold recordIntegrityCheck, update_sectors. do 2 tx_step. cbn zeta. set (rows := match find_host hostKey d with Some _ => _ | None => _ end).
  assert (∃ P, chosen P rows d) as [P Hch].
  { unfold rows. destruct (find_host hostKey d) as [[host r]|]; [eexists; apply select_chosen|exists (λ _, true); apply chosen_nil]. }
  assert (∀ f d2, (∀ s, se_sector_root (f s) = se_sector_root s ∧ se_host_id (f s) = se_host_id s ∧ se_contract_sectors_map_id (f s) = se_contract_sectors_map_id s) →
    d2 = moved rows.*1 f d → commits (wrapM "failed to increment sectors checked stat: " (incrementStat statSectorsChecked (Z.of_nat (length roots))) ;;
      (if success then mret tt else wrapM "failed to increment sectors failed stat: " (incrementStat statSectorsCheckFailed (Z.of_nat (length roots))))) (λ _, store_ok) d2) as Hfin.
  { intros f d2 Hf ->. eapply commits_tallied; [apply tallied_refl|apply commits_wrapM, incrementStat_tallied|]. intros _ d1 H1. destruct success.
    - tx_step. by apply (kept_store_ok P rows f d d1 _ Hok Hch H1).
    - eapply commits_mono; [apply commits_wrapM, incrementStat_tallied|]. cbn beta. intros _ d3 H3.
      by apply (kept_store_ok P rows f d d3 _ Hok Hch (tallied_trans _ _ _ _ _ _ _ H1 H3)). }
  tx_step. destruct success.
  - tx_step. by apply (Hfin (checked next 0)).
  - do 3 tx_step. by apply (Hfin (λ s, checked next (se_consecutive_failed_checks s + 1) s)).
Qed.

Lemma sort_by_perm f rows : sort_by f rows ≡ₚ rows.
Proof. unfold sort_by. rewrite merge_sort_Permutation. rewrite <-list_fmap_compose. change (snd ∘ (λ p, (f p.2, p))) with (λ p : Z * SectorRow, p). by rewrite list_fmap_id. Qed.
Lemma chosen_perm P rows rows' d : rows' ≡ₚ rows → chosen P rows d → chosen P rows' d.
Proof. intros Hp [H1 H2]. split; [by rewrite Hp|]. intros p. rewrite Hp. apply H2. Qed.

Lemma SectorsForIntegrityCheck_commits hostKey n d : store_ok d → commits (tables_SectorsForIntegrityCheck order hostKey n) (λ _, store_ok) d.
Proof.
  intros Hok. unfold tables_SectorsForIntegrityCheck, update_sectors. do 3 tx_step. destruct (find_host hostKey d) as [[host r]|]; [|by tx_step].
  cbn zeta. set (rows := take n _). do 3 tx_step. change (set_sectors _ d) with (moved rows.*1 (λ s, checked (db_now d + integrityCheckClaimInterval) (se_consecutive_failed_checks s) s) d).
  eapply (kept_store_ok _ rows); [done| |apply tallied_refl|done..].
  eapply chosen_sublist; [apply sublist_take|]. eapply chosen_perm; [apply sort_by_perm|apply select_chosen].
Qed.

(** ** Slabs to repair *)

Lemma repaired_store_ok (f : Z → SlabRow → SlabRow) d :
  store_ok d → (∀ id s, slabs d !! id = Some s → same_slab s (f id s)) → store_ok (set_slabs (map_imap (λ id s, Some (f id s))) d).
Proof.
  intros [[B1 B2 B3 B4 B5 B6] S2 S3 S4 [C1 C2 C3 C4 C5]] Hf. set (d' := set_slabs _ d).
  assert (∀ id s', slabs d' !! id = Some s' → ∃ s, slabs d !! id = Some s ∧ s' = f id s) as Hback.
  { intros id s' Hs'. unfold d' in Hs'. cbn in Hs'. rewrite map_lookup_imap in Hs'. destruct (slabs d !! id) as [s|]; [|done]. exists s. split; [done|]. cbn in Hs'. congruence. }
  assert (∀ id s, slabs d !! id = Some s → slabs d' !! id = Some (f id s)) as Hfwd.
  { intros id s Hs. unfold d'. cbn. by rewrite map_lookup_imap, Hs. }
  assert (sectors_grow d d') as Hg by exact (sectors_grow_refl d).
  split; [split|..|split|split]; try done.
  - by apply (sectors_ok_frame d).
  - intros i j s t Hs Ht Hd. destruct (Hback _ _ Hs) as (s0 & Hs0 & ->), (Hback _ _ Ht) as (t0 & Ht0 & ->).
    destruct (Hf i s0 Hs0) as (E1 & _), (Hf j t0 Ht0) as (E2 & _). apply (B2 _ _ _ _ Hs0 Ht0). congruence.
  - intros i s Hs. destruct (Hback _ _ Hs) as (s0 & Hs0 & ->). by apply (B3 _ _ Hs0).
  - intros id s Hs. destruct (Hback _ _ Hs) as (s0 & Hs0 & ->). destruct (B4 _ _ Hs0) as (ids & roots & Hc). exists ids, roots. eapply content_grow; [done|by apply Hf|done..].
  - intros k v Hk. destruct (B5 _ _ Hk) as [s Hs]. rewrite (Hfwd _ _ Hs). by eexists.
  - intros k v Hk. destruct (B6 _ _ Hk) as [s Hs]. rewrite (Hfwd _ _ Hs). by eexists.
  - intros k os Hos. destruct (S2 _ _ Hos) as (o & id & s & Ho & Hs & Hd & Hp). exists o, id, (f id s). destruct (Hf id s Hs) as (E1 & _).
    split; [done|]. split; [by apply Hfwd|]. split; [congruence|done].
  - intros id a Ha Hl. destruct (tt_account _ S4 _ _ Ha Hl) as [-> ->]. split; [|done]. apply account_sum_ext; [done|]. intros i _. unfold slab_data.
    destruct (slabs d !! i) as [s|] eqn:Hs; [rewrite (Hfwd _ _ Hs); destruct (Hf i s Hs) as (_ & _ & -> & _); done|].
    destruct (slabs d' !! i) as [s'|] eqn:Hs'; [|done]. destruct (Hback _ _ Hs') as (s0 & Hs0 & _). congruence.
  - apply S4.
  - change (stat statSlabs d' = Z.of_nat (size (slabs d'))). unfold d' at 2. cbn [slabs set_slabs]. rewrite <-msum_size, msum_imap, msum_size. exact C1.
Qed.

Lemma UnhealthySlabs_commits now cursor n d : store_ok d → commits (tables_UnhealthySlabs order now cursor n) (λ _, store_ok) d.
Proof.
  intros Hok. unfold tables_UnhealthySlabs. do 3 tx_step. cbn zeta. do 3 tx_step. apply repaired_store_ok; [done|].
  intros id s _. by destruct (claimable _ _ _ _).
Qed.
Lemma MarkSlabRepaired_commits (now : Z) slabID success d : store_ok d → commits (tables_MarkSlabRepaired (mret now) slabID success) (λ _, store_ok) d.
Proof.
  intros Hok. assert (∀ id s t, slabs d !! id = Some s → same_slab s t → store_ok (set_slabs (insert id t) d)) as Hins.
  { intros id s t Hs Ht. assert (set_slabs (insert id t) d = set_slabs (map_imap (λ i r, Some (if (i =? id)%Z then t else r))) d) as ->.
    - assert (<[id := t]> (slabs d) = map_imap (λ i r, Some (if (i =? id)%Z then t else r)) (slabs d)) as E1.
      { apply map_eq. intros i. rewrite map_lookup_imap. destruct (decide (i = id)) as [->|Hne].
        - rewrite lookup_insert_eq, Hs. cbn. by rewrite Z.eqb_refl.
        - rewrite lookup_insert_ne by done. destruct (slabs d !! i); [|done]. cbn. by destruct (Z.eqb_spec i id). }
      unfold set_slabs. by rewrite E1.
    - apply (repaired_store_ok (λ i r, if (i =? id)%Z then t else r)); [done|]. intros i r Hr.
      destruct (Z.eqb_spec i id) as [->|]; [|by split_and!]. by replace r with s by congruence. }
  unfold tables_MarkSlabRepaired. do 3 tx_step. destruct (find_slab slabID d) as [[id s]|] eqn:Hf; [|by tx_step]. apply find_row_Some in Hf as [Hs _].
  destruct success; [tx_step; by eapply Hins|]. do 4 tx_step. tx_step. by eapply Hins.
Qed.
End store.
