(* ===== verification/ContractStore.v ===== *)
(** * The transactions on contracts keep the tables

    What slabs, sectors and objects need of the tables of contracts and of hosts, and
    that the transactions of ContractTables.v keep it. *)

From S2P Require Import Prelude Float Encoding External Hosts Contract Slabs Objects Accounts App Tables SlabTables SectorTables ContractTables PinStore Totals SlabStore ObjectStore SectorStore.

Section store.
Local Open Scope go_scope.
Context {C : CurrencyOps} {R : RhpOps} {V : V2.Methods} {CC : ContractColumns}.
Context {E : EncoderOps} {EL : EncoderLaws E} {HS : Hashed} {RL : RhpLaws R}.

(** ** Changes of other tables *)

(** The tables of slabs, sectors, objects and accounts. *)
Definition stored (d : db) :=
  (slabs d, account_slabs d, slab_sectors d, sectors d, objects d, object_slabs d, accounts d, connect_keys d, stats_deltas d, stats d).

(** Contracts and hosts differ, but not in what sectors need of them. *)
Record others (d d' : db) : Prop := {
  ot_stored : stored d' = stored d;
  ot_seq : ∀ t, t ∈ ["slabs"; "sectors"; "objects"]%string → currval t d' = currval t d;
  ot_count : ∀ h r, hosts d' !! h = Some r → h_unpinned_sectors r = number (unpinned_on h) d;
  ot_known : ∀ i s h, sectors d !! i = Some s → se_host_id s = Some h → is_Some (hosts d' !! h);
  ot_contracts : contracts_ok d' }.

Lemma others_ok d d' : others d d' → store_ok d → store_ok d'.
Proof.
  intros [E1 Eq E3 E4 E5] [[[A1 A2 A3 A4 A5] B2 B3 B4 B5 B6] S2 S3 S4 [C1 C2 C3 C4 C5]]. unfold stored in E1.
  injection E1 as F1 F2 F3 F4 F5 F6 F7 F8 F9 F10.
  assert (∀ P, number P d' = number P d) as Hn by (intros P; by apply number_same).
  assert (∀ n, stat n d' = stat n d) as Hst by (intros n; unfold stat; by rewrite F9, F10).
  split; [split; [split|..]|..|split|split]; unfold covered, objects_numbered, key_sum; rewrite ?Hst, ?Hn, ?F1, ?F2, ?F3, ?F4, ?F5, ?F6, ?F7, ?F8, ?Eq by set_solver; try done.
  - intros id s Hs. destruct (B4 _ _ Hs) as (ids & roots & [K1 K2 K3 K4 K5 K6]). exists ids, roots. split; rewrite ?F3, ?F4; done.
  - intros id a Ha Hl. destruct (tt_account _ S4 _ _ Ha Hl) as [-> ->].
    split; symmetry; apply account_sum_ext; try done; intros i _; unfold slab_data, slab_size, rows_count; by rewrite ?F1, ?F3.
  - apply S4.
  - intros h r Hr. rewrite Hn. by apply E3.
Qed.

(** Hosts keep their keys and counters. *)
Definition host_kept (d d' : db) : Prop :=
  ∀ h, (λ r, (h_public_key r, h_unpinned_sectors r)) <$> hosts d' !! h = (λ r, (h_public_key r, h_unpinned_sectors r)) <$> hosts d !! h.
Lemma host_kept_refl d : host_kept d d.
Proof. done. Qed.
Lemma host_kept_insert d d' id r r' :
  hosts d' = <[id := r']> (hosts d) → hosts d !! id = Some r → h_public_key r' = h_public_key r → h_unpinned_sectors r' = h_unpinned_sectors r → host_kept d d'.
Proof.
  intros Eh Hr E1 E2 h. rewrite Eh. destruct (decide (h = id)) as [->|Hne]; [|by rewrite lookup_insert_ne].
  rewrite lookup_insert_eq, Hr. cbn. congruence.
Qed.
Lemma host_kept_known d d' h : host_kept d d' → is_Some (hosts d !! h) → is_Some (hosts d' !! h).
Proof. intros Hk [r Hr]. specialize (Hk h). rewrite Hr in Hk. destruct (hosts d' !! h); [by eexists|done]. Qed.

Lemma contracts_store_ok d d' :
  store_ok d → stored d' = stored d → (∀ t, t ∈ ["slabs"; "sectors"; "objects"]%string → currval t d' = currval t d) →
  host_kept d d' → contracts_ok d' → store_ok d'.
Proof.
  intros Hok E1 E2 Hk Hc. apply (others_ok d); [|done]. split; try done.
  - intros h r' Hr'. pose proof (Hk h) as Eh. rewrite Hr' in Eh. destruct (hosts d !! h) as [r|] eqn:Hr; [|done]. cbn in Eh. injection Eh as _ ->.
    by apply (ct_hosts _ (st_counts _ Hok)).
  - intros i s h Hs Hh. apply (host_kept_known d); [done|]. by eapply (so_host _ (sk_sectors _ (st_slabs _ Hok))).
Qed.
Lemma store_contracts d : store_ok d → contracts_ok d.
Proof. intros Hok. apply (so_contracts _ (sk_sectors _ (st_slabs _ Hok))). Qed.

(** ** Contracts *)

(** Contracts keep their hosts, or new ones are with hosts that are known. *)
Lemma contracts_ok_map d d' :
  contracts_ok d →
  (∀ id c, contracts d !! id = Some c → ∃ c', contracts d' !! id = Some c' ∧ c_host_id c' = c_host_id c) →
  (∀ id c', contracts d' !! id = Some c' → is_Some (hosts d' !! c_host_id c')) →
  sectors d' = sectors d → contract_sectors_map d' = contract_sectors_map d →
  currval "contract_sectors_map" d' = currval "contract_sectors_map" d → contracts_ok d'.
Proof.
  intros [A1 A2 A3 A4 A5] Hc Hh E1 E2 E3. split; rewrite ?E1, ?E2, ?E3; try done.
  - intros m id Hm. destruct (A2 _ _ Hm) as [c Hid]. destruct (Hc _ _ Hid) as (c' & Hc' & _). by eexists.
  - intros i r m Hr Hm. destruct (A5 _ _ _ Hr Hm) as (id & c & Hid & Hcc & Eh). destruct (Hc _ _ Hcc) as (c' & Hc' & Eh'). exists id, c'. by rewrite Eh'.
Qed.

(** Updates that keep the host of every contract. *)
Lemma update_contracts_commits P f d :
  (∀ c, c_host_id (f c) = c_host_id c) → store_ok d → commits (update_contracts P f) (λ _, store_ok) d.
Proof.
  intros Hf Hok. unfold update_contracts. tx_step. apply (contracts_store_ok d); [done..|]. apply (contracts_ok_map d); [by apply store_contracts| |..|done|done|done].
  - intros id c Hc. cbn. rewrite map_lookup_imap, Hc. cbn. eexists. split; [done|]. by destruct (P id c).
  - intros id c'. cbn. rewrite map_lookup_imap. destruct (contracts d !! id) as [c|] eqn:Hc; [|done]. cbn. intros [= <-].
    replace (c_host_id (if P id c then f c else c)) with (c_host_id c) by (destruct (P id c); [by rewrite Hf|done]).
    by apply (lk_host _ (store_contracts d Hok) id).
Qed.
Lemma insert_contract_ok d id c :
  store_ok d → is_Some (hosts d !! c_host_id c) → (∀ c0, contracts d !! id = Some c0 → c_host_id c = c_host_id c0) →
  store_ok (set_contracts (insert id c) d).
Proof.
  intros Hok Hh Hc. apply (contracts_store_ok d); [done..|]. apply (contracts_ok_map d); [by apply store_contracts| |..|done|done|done]; cbn.
  - intros i c0 Hi. destruct (decide (i = id)) as [->|]; [rewrite lookup_insert_eq|rewrite lookup_insert_ne by done]; eauto.
  - intros i c0 [[<- <-]|[_ Hi]]%lookup_insert_Some; [done|]. by apply (lk_host _ (store_contracts d Hok) i).
Qed.
Lemma same_host_ok d id c c0 :
  store_ok d → contracts d !! id = Some c0 → c_host_id c = c_host_id c0 → store_ok (set_contracts (insert id c) d).
Proof.
  intros Hok Hc0 Eh. apply insert_contract_ok; [done| |].
  - rewrite Eh. by apply (lk_host _ (store_contracts d Hok) id).
  - intros c1 Hc1. congruence.
Qed.

Lemma commits_lift {A} (r : result A) (Q : A → db → Prop) d : (∀ a, r = Ok a → Q a d) → commits (lift r) Q d.
Proof. intros HQ a d'. unfold lift. destruct r as [x|e|]; intros [= <- <-]. by apply HQ. Qed.

Lemma updateHostUsage_commits hostKey usage d : store_ok d → commits (updateHostUsage hostKey usage) (λ _, store_ok) d.
Proof.
  intros Hok. unfold updateHostUsage, numeric. tx_step. apply commits_lift. intros cost _. do 2 tx_step.
  destruct (find_host hostKey d) as [[id h]|] eqn:Hf; [|by tx_step]. apply find_row_Some in Hf as [Hh _]. cbn zeta. do 5 tx_step.
  assert (host_kept d (set_hosts (insert id (with_usage (h_usage_account_funding h + Big (AccountFunding usage)) (h_usage_total_spent h + Big cost) h)) d)) as Hk
    by by eapply host_kept_insert.
  apply (contracts_store_ok d); [done..|]. apply (contracts_ok_frame d); [done..| |by intros i r m Hi Hm; exists i, r|by apply store_contracts].
  intros k. by apply host_kept_known.
Qed.

Lemma insert_map_commits id d : store_ok d → commits (insert_map id) (λ _, store_ok) d.
Proof.
  intros Hok. unfold insert_map. tx_steps. cbn in *. apply bool_decide_eq_true in H0. apply negb_true_iff in H.
  rewrite exists_row_false in H. destruct (store_contracts d Hok) as [A1 A2 A3 A4 A5].
  assert (∀ t, t ∈ ["slabs"; "sectors"; "objects"]%string → t ≠ "contract_sectors_map"%string) as Hne by set_solver.
  apply (contracts_store_ok d); [done..| |done|].
  - intros t Ht. unfold currval. cbn. rewrite lookup_insert_ne; [done|]. by apply not_eq_sym, Hne.
  - set (n := (currval "contract_sectors_map" d + 1)%Z) in *.
    split; cbn; [done|..].
    + intros m i [[<- <-]|[_ Hm]]%lookup_insert_Some; [done|]. by eapply A2.
    + intros m k i [[<- <-]|[_ Hm]]%lookup_insert_Some [[<- Hi]|[_ Hk]]%lookup_insert_Some; subst; try done; [..|by eapply A3].
      * specialize (H _ _ Hk). by rewrite N.eqb_refl in H.
      * specialize (H _ _ Hm). by rewrite N.eqb_refl in H.
    + unfold currval at 1. cbn. rewrite lookup_insert_eq. cbn. intros m i [[<- <-]|[_ Hm]]%lookup_insert_Some; [done|]. apply A4 in Hm. lia.
    + intros i r m Hr Hm. destruct (A5 _ _ _ Hr Hm) as (j & c & Hj & Hc & Eh). exists j, c. split_and!; [|done..].
      rewrite lookup_insert_ne; [done|]. intros <-. apply A4 in Hj. lia.
Qed.

(** ** Adding and revising *)

Lemma tables_AddFormedContract_commits hostKey id revision price allowance fee usage d :
  store_ok d → commits (tables_AddFormedContract hostKey id revision price allowance fee usage) (λ _, store_ok) d.
Proof.
  intros Hok. unfold tables_AddFormedContract, insert_contract, contract_widths, contract_checks, integer. do 3 tx_step.
  destruct (find_host hostKey d) as [[host h]|] eqn:Hf; [|by tx_step]. apply find_row_Some in Hf as [Hh _]. cbn zeta. tx_steps.
  all: eapply commits_mono; [apply insert_map_commits|by intros; apply updateHostUsage_commits].
  all: apply bool_decide_eq_true in H5; apply insert_contract_ok; [done|by eexists|congruence].
Qed.

(** The entry of the map moves to a contract with the same host. *)
Lemma moved_entry_ok d m from to old new :
  store_ok d → contract_sectors_map d !! m = Some from → contracts d !! from = Some old → contracts d !! to = Some new →
  c_host_id new = c_host_id old → (∀ i id, contract_sectors_map d !! i = Some id → i ≠ m → id ≠ to) →
  store_ok (set_contract_sectors_map (insert m to) d).
Proof.
  intros Hok Hm Hold Hnew Eh Huniq. destruct (store_contracts d Hok) as [A1 A2 A3 A4 A5]. apply (contracts_store_ok d); [done..|]. split; cbn; [done|..].
  - intros i id [[<- <-]|[_ Hi]]%lookup_insert_Some; [by eexists|by eapply A2].
  - intros i j id [[<- <-]|[Hne Hi]]%lookup_insert_Some [[<- E1]|[Hne' Hj]]%lookup_insert_Some; [done|..|by eapply A3].
    + by destruct (Huniq _ _ Hj).
    + subst. by destruct (Huniq _ _ Hi).
  - intros i id [[<- <-]|[_ Hi]]%lookup_insert_Some; by eapply A4.
  - intros i r j Hr Hj. destruct (A5 _ _ _ Hr Hj) as (id & c & Hid & Hc & Ehost). destruct (decide (j = m)) as [->|Hne].
    + rewrite lookup_insert_eq. exists to, new. split_and!; [done..|]. assert (id = from) as -> by congruence. congruence.
    + rewrite lookup_insert_ne by done. eauto.
Qed.

Lemma tables_AddRenewedContract_commits from to revision price fee usage d :
  store_ok d → commits (tables_AddRenewedContract from to revision price fee usage) (λ _, store_ok) d.
Proof.
  intros Hok. unfold tables_AddRenewedContract, insert_contract, contract_widths, contract_checks, integer. do 2 tx_step.
  apply commits_lift. intros risked _. do 2 tx_step. do 2 tx_step. cbn zeta. do 10 tx_step. destruct (contracts d !! from) as [old|] eqn:Hold.
  2: { tx_step. do 2 tx_step. rewrite Hold. tx_step. }
  set (new := renewed_row from (c_host_id old) (db_now d) revision price fee risked). do 8 tx_step. apply bool_decide_eq_true in H5.
  assert (store_ok (set_contracts (insert to new) d)) as Hok1.
  { apply insert_contract_ok; [done|exact (lk_host _ (store_contracts d Hok) from old Hold)|congruence]. }
  set (d1 := set_contracts _ d) in *. assert (to ≠ from) as Hne by congruence.
  assert (contracts d1 !! from = Some old) as Hold1 by (unfold d1; cbn; by rewrite lookup_insert_ne).
  assert (contracts d1 !! to = Some new) as Hnew by (unfold d1; cbn; by rewrite lookup_insert_eq).
  tx_step. fold d1. do 2 tx_step. rewrite Hold1. do 5 tx_step. set (d2 := set_contracts _ d1) in *.
  assert (store_ok d2) as Hok2 by by eapply same_host_ok.
  destruct (find_map from d1) as [m|] eqn:Hm; [|by tx_step]. unfold find_map in Hm. destruct (find_row _ _) as [[m' id]|] eqn:Hf; [|done].
  injection Hm as ->. apply find_row_Some in Hf as [Hm Hid%N.eqb_eq]. subst id. do 5 tx_step. apply updateHostUsage_commits.
  apply negb_true_iff in H8. rewrite exists_row_false in H8.
  apply (moved_entry_ok d2 m from to (with_renewed_to (Some to) old) new); [done|done|..].
  + unfold d2. cbn. by rewrite lookup_insert_eq.
  + unfold d2. cbn. by rewrite lookup_insert_ne.
  + done.
  + intros i id Hi Hne' ->. specialize (H8 _ _ Hi). cbn in H8. rewrite N.eqb_refl in H8. by destruct (Z.eqb_spec i m).
Qed.

Lemma tables_UpdateContractRevision_commits contract usage d :
  store_ok d → commits (tables_UpdateContractRevision contract usage) (λ _, store_ok) d.
Proof.
  intros Hok. unfold tables_UpdateContractRevision, contract_widths, contract_checks, integer. cbn zeta. do 3 tx_step.
  destruct (contracts d !! _) as [c|] eqn:Hc; [|by tx_step]. destruct (_ <=? _)%Z; [by tx_step|]. tx_step. apply commits_lift. intros risked _.
  tx_steps; apply updateHostUsage_commits; by eapply same_host_ok.
Qed.

Lemma markContractBad_commits id d : store_ok d → commits (markContractBad id) (λ _, store_ok) d.
Proof. intros Hok. unfold markContractBad. tx_steps. by eapply same_host_ok. Qed.

(** ** Deleting *)

(** An entry of the map that no sector is pinned to. *)
Lemma entry_deleted_ok d m :
  store_ok d → (∀ i r, sectors d !! i = Some r → se_contract_sectors_map_id r ≠ Some m) → store_ok (set_contract_sectors_map (delete m) d).
Proof.
  intros Hok Hno. destruct (store_contracts d Hok) as [A1 A2 A3 A4 A5]. apply (contracts_store_ok d); [done..|]. split; cbn; [done|..].
  - intros i id [_ Hi]%lookup_delete_Some. by eapply A2.
  - intros i j id [_ Hi]%lookup_delete_Some [_ Hj]%lookup_delete_Some. by eapply A3.
  - intros i id [_ Hi]%lookup_delete_Some. by eapply A4.
  - intros i r j Hr Hj. destruct (A5 _ _ _ Hr Hj) as (id & c & Hid & Hc & Ehost). exists id, c. rewrite lookup_delete_ne; [done|].
    intros ->. by apply (Hno _ _ Hr).
Qed.
Lemma not_pinned_to m d :
  negb (exists_row (λ _ s, bool_decide (se_contract_sectors_map_id s = Some m)) (sectors d)) = true →
  ∀ i r, sectors d !! i = Some r → se_contract_sectors_map_id r ≠ Some m.
Proof. intros Hm%negb_true_iff i r Hr. rewrite exists_row_false in Hm. eapply bool_decide_eq_false. by apply (Hm i). Qed.

Lemma delete_map_commits m d : store_ok d → commits (delete_map m) (λ _, store_ok) d.
Proof. intros Hok. unfold delete_map. tx_steps. apply entry_deleted_ok; [done|by apply not_pinned_to]. Qed.

Context (order : ∀ A, list A → list A) (order_perm : ∀ A (l : list A), order A l ≡ₚ l).

(** What is counted does not depend on the map. *)
Lemma tallied_map δ η x d d' : tallied δ η d d' → tallied δ η (set_contract_sectors_map (λ _, x) d) (set_contract_sectors_map (λ _, x) d').
Proof. intros ([E1 E2 E3] & Hs & Hh). split; [split; [by rewrite E1 at 1|done..]|done]. Qed.

Lemma pinned_to_kinds m s : pinned_to m s = true →
  is_pinned s = true ∧ is_unpinned s = false ∧ is_unpinnable s = false ∧ ∀ h, unpinned_on h s = false.
Proof.
  unfold pinned_to. intros Hs%bool_decide_eq_true. assert (is_pinned s = true) as Hp by (unfold is_pinned; rewrite Hs; by apply bool_decide_eq_true_2).
  unfold unpinned_on, is_unpinnable, is_unpinned. by rewrite Hp.
Qed.
Lemma unpin_kinds now s h : se_host_id s = Some h →
  is_pinned (unpin now s) = false ∧ is_unpinned (unpin now s) = true ∧ is_unpinnable (unpin now s) = false ∧ ∀ k, unpinned_on k (unpin now s) = (h =? k)%Z.
Proof. intros Hs. destruct (is_unpinned_hosted (unpin now s) h) as (E1 & E2 & E3); [done|]. by rewrite E1, E2. Qed.

(** The sectors of a deleted contract, on its host. *)
Lemma contract_unpinned_ok m id c rows now d d' (n := Z.of_nat (length rows)) :
  store_ok d → chosen (pinned_to m) rows d → contract_sectors_map d !! m = Some id → contracts d !! id = Some c →
  tallied (λ k, only statPinnedSectors k (- n) + only statUnpinnedSectors k n)%Z (λ h, only_host (c_host_id c) h n) (moved rows.*1 (unpin now) d) d' → store_ok d'.
Proof.
  intros Hok Hch Hm Hc (Hcn & Hs & Hh).
  assert (∀ p, p ∈ rows → pinned_to m p.2 = true ∧ se_host_id p.2 = Some (c_host_id c)) as Hrow.
  { intros p Hp. destruct (ch_rows _ _ _ Hch _ Hp) as [Hr Hpin]. split; [done|]. apply bool_decide_eq_true in Hpin.
    destruct (lk_sector _ (store_contracts d Hok) _ _ _ Hr Hpin) as (id' & c' & Hm' & Hc' & Eh). congruence. }
  assert (count_rows (λ _, true) rows = n) as Hlen by apply lsum_const.
  assert (∀ (Q : SectorRow → bool) a, (∀ p, p ∈ rows → (if Q (unpin now p.2) then 1 else 0) - (if Q p.2 then 1 else 0) = a)%Z → change (unpin now) rows Q = (a * n)%Z) as Hchange.
  { intros Q a HQ. rewrite (change_counts _ _ _ a 0 (λ _, true) (λ _, true)); [rewrite Hlen; lia|]. intros p Hp. rewrite HQ by done. cbn. lia. }
  eapply (moved_store_ok _ rows (unpin now) d d'); [done|exact Hch|exact Hcn|done| |exact Hs|exact Hh|done|..].
  - intros p Hp. destruct (Hrow p Hp) as [_ Eh]. unfold placed. cbn. rewrite Eh. split; [|done]. by apply (lk_host _ (store_contracts d Hok) id).
  - rewrite (Hchange is_pinned (-1)%Z); [unfold only; simpl; lia|]. intros p Hp. destruct (Hrow p Hp) as [Hpin Eh].
    by destruct (pinned_to_kinds _ _ Hpin) as (-> & _), (unpin_kinds now _ _ Eh) as (-> & _).
  - rewrite (Hchange is_unpinned 1%Z); [unfold only; simpl; lia|]. intros p Hp. destruct (Hrow p Hp) as [Hpin Eh].
    by destruct (pinned_to_kinds _ _ Hpin) as (_ & -> & _), (unpin_kinds now _ _ Eh) as (_ & -> & _).
  - rewrite (Hchange is_unpinnable 0%Z); [unfold only; simpl; lia|]. intros p Hp. destruct (Hrow p Hp) as [Hpin Eh].
    by destruct (pinned_to_kinds _ _ Hpin) as (_ & _ & -> & _), (unpin_kinds now _ _ Eh) as (_ & _ & -> & _).
  - intros h _. rewrite (Hchange (unpinned_on h) (if (c_host_id c =? h)%Z then 1 else 0)%Z); [unfold only_host; destruct (_ =? _)%Z; lia|]. intros p Hp. destruct (Hrow p Hp) as [Hpin Eh].
    destruct (pinned_to_kinds _ _ Hpin) as (_ & _ & _ & ->), (unpin_kinds now _ _ Eh) as (_ & _ & _ & ->). destruct (_ =? _)%Z; lia.
Qed.

Lemma tables_DeleteContract_commits id d : store_ok d → commits (tables_DeleteContract order id) (λ _, store_ok) d.
Proof.
  intros Hok. unfold tables_DeleteContract, delete_map, update_sectors. do 3 tx_step. destruct (find_map id d) as [m|] eqn:Hm; [|by tx_step].
  unfold find_map in Hm. destruct (find_row _ _) as [[m' id']|] eqn:Hf; [|done]. injection Hm as ->. apply find_row_Some in Hf as [Hm Hid%N.eqb_eq]. subst id'.
  cbn zeta. set (rows := select_sectors _ _ _). do 8 tx_step. change (set_sectors _ d) with (moved rows.*1 (unpin (db_now d)) d) in *.
  set (d1 := moved _ _ _) in *. pose proof (not_pinned_to _ _ H) as Hno. clear H.
  assert (chosen (pinned_to m) rows d) as Hch by apply select_chosen, order_perm.
  destruct (lk_entry _ (store_contracts d Hok) _ _ Hm) as [c Hc]. pose (n := Z.of_nat (length rows)).
  assert (∀ d2, tallied (λ k, only statPinnedSectors k (- n) + only statUnpinnedSectors k n)%Z (λ h, only_host (c_host_id c) h n)
    (set_contract_sectors_map (delete m) d1) d2 → store_ok d2) as Hfin.
  { intros d2 Ht. pose proof (tallied_map _ _ (contract_sectors_map d) _ _ Ht) as Hback. change (set_contract_sectors_map _ (set_contract_sectors_map _ d1)) with d1 in Hback.
    assert (store_ok (set_contract_sectors_map (λ _, contract_sectors_map d) d2)) as Hok2 by by eapply (contract_unpinned_ok m id c rows).
    destruct Ht as ([E1 _ _] & _). assert (contract_sectors_map d2 = delete m (contract_sectors_map d)) as Em by by rewrite E1.
    assert (set_contract_sectors_map (delete m) (set_contract_sectors_map (λ _, contract_sectors_map d) d2) = d2) as <-.
    { rewrite E1. done. }
    apply entry_deleted_ok; [done|]. intros i r Hr. apply (Hno i). by rewrite E1 in Hr. }
  do 2 tx_step. apply (commits_mono _ (λ _, store_ok)); [|intros a d3 Hd3; by apply markContractBad_commits]. destruct (Z.ltb_spec 0 (Z.of_nat (length rows))).
  - rewrite Hc.
    eapply commits_tallied; [apply tallied_refl|apply commits_wrapM, incrementStat_tallied|]. intros _ d2 H2.
    eapply commits_tallied; [exact H2|apply commits_wrapM, incrementStat_tallied|]. intros _ d3 H3.
    eapply commits_mono; [apply commits_wrapM, incrementHost_tallied|]. cbn beta. intros _ d4 H4. apply Hfin.
    eapply tallied_ext; [exact (tallied_trans _ _ _ _ _ _ _ H3 H4)|intros k; cbn beta; unfold n; lia|intros h; cbn beta; unfold n; lia].
  - tx_step. apply Hfin. assert (n = 0%Z) as -> by lia. eapply tallied_ext; [apply tallied_refl|..].
    + intros k. unfold only. by repeat case_match.
    + intros h. unfold only_host. by case_match.
Qed.

Lemma tables_PruneContractSectorsMap_commits n d : store_ok d → commits (tables_PruneContractSectorsMap order n) (λ _, store_ok) d.
Proof.
  intros Hok. unfold tables_PruneContractSectorsMap, update_sectors. do 5 tx_step. cbn zeta. destruct (bool_decide _); [by tx_step|].
  set (toPrune := order _ _). set (rows := select_sectors _ _ _). do 2 tx_step. change (set_sectors _ d) with (moved rows.*1 expire d).
  set (x := Z.of_nat (length rows)).
  match goal with rows := select_sectors order ?P d |- _ => assert (chosen P rows d) as Hch by apply select_chosen, order_perm end.
  assert (∀ p, p ∈ rows → is_pinned p.2 = true) as Hp.
  { intros p Hp. destruct (ch_rows _ _ _ Hch _ Hp) as [_ Hin]. unfold is_pinned. destruct (se_contract_sectors_map_id p.2); [done|discriminate]. }
  assert (count_rows (λ _, true) rows = x) as Hlen by apply lsum_const.
  assert (∀ (Q : SectorRow → bool) a, (∀ p, p ∈ rows → (if Q (expire p.2) then 1 else 0) - (if Q p.2 then 1 else 0) = a)%Z → change expire rows Q = (a * x)%Z) as Hchange.
  { intros Q a HQ. rewrite (change_counts _ _ _ a 0 (λ _, true) (λ _, true)); [rewrite Hlen; lia|]. intros p Hp'. rewrite HQ by done. cbn. lia. }
  eapply commits_tallied; [apply tallied_refl|apply commits_wrapM, incrementStat_tallied|]. intros _ d1 H1.
  eapply commits_tallied; [exact H1|apply commits_wrapM, incrementStat_tallied|]. intros _ d2 (Hc & Hs & Hh).
  apply commits_wrapM. apply (commits_forM store_ok); [|intros m d3 _; apply delete_map_commits].
  eapply (moved_store_ok _ rows expire d d2); [done|exact Hch|exact Hc|done|done|exact Hs|exact Hh|done|..].
  - rewrite (Hchange is_pinned (-1)%Z); [unfold only; simpl; lia|]. intros p Hin. by rewrite (Hp p Hin).
  - rewrite (Hchange is_unpinned 0%Z); [unfold only; simpl; lia|]. intros p Hin. unfold is_unpinned. by rewrite (Hp p Hin).
  - rewrite (Hchange is_unpinnable 1%Z); [unfold only; simpl; lia|]. intros p Hin. unfold is_unpinnable at 2. by rewrite (Hp p Hin).
  - intros h _. rewrite (Hchange (unpinned_on h) 0%Z); [lia|]. intros p Hin. unfold unpinned_on, is_unpinned at 2. by rewrite (Hp p Hin).
Qed.

(** The updates of the state of contracts. *)
Lemma tables_contract_state_commits d P f :
  (∀ c, c_host_id (f c) = c_host_id c) → store_ok d → commits (transaction (update_contracts P f)) (λ _, store_ok) d.
Proof. intros Hf Hok. tx_step. by apply update_contracts_commits. Qed.
Lemma tables_MarkUnrenewable_commits h d : store_ok d → commits (tables_MarkUnrenewableContractsBad h) (λ _, store_ok) d.
Proof. intros Hok. unfold tables_MarkUnrenewableContractsBad. do 3 tx_step. by apply update_contracts_commits. Qed.
Lemma tables_MarkBroadcastAttempt_commits id d : store_ok d → commits (tables_MarkBroadcastAttempt id) (λ _, store_ok) d.
Proof. intros Hok. unfold tables_MarkBroadcastAttempt. do 3 tx_step. by apply update_contracts_commits. Qed.
End store.
