(* ===== verification/ContractRefine.v ===== *)
(** * What the contract tables promise

    The tables of contracts implement the store that the revision manager was proved
    against, read back the contracts that were formed, and hand the pins of a contract
    over to its renewal. *)

From S2P Require Import Prelude Float Encoding External Hosts Contract Revision Slabs Objects Accounts App Tables SlabTables SectorTables ContractTables PinStore Totals SlabStore ObjectStore SectorStore ContractStore.

Section refine.
Local Open Scope go_scope.
Context {C : CurrencyOps} {R : RhpOps} {V : V2.Methods} {CC : ContractColumns} {CL : ContractColumnsLaws CC}.

(** ** What statements leave alone *)

Lemma updateHostUsage_contracts hk u d : commits (updateHostUsage hk u) (λ _ d', contracts d' = contracts d ∧ contract_sectors_map d' = contract_sectors_map d ∧ sectors d' = sectors d) d.
Proof.
  unfold updateHostUsage, numeric. tx_step. apply commits_lift. intros cost _. do 2 tx_step.
  destruct (find_host hk d) as [[id h]|]; [|by tx_step]. cbn zeta. by tx_steps.
Qed.

(** A transaction that does not succeed changes nothing. *)
Lemma transaction_or {A} (m : M db A) d r d' : transaction m d = (r, d') → (∃ a, r = Ok a ∧ m d = (Ok a, d')) ∨ (∀ a, r ≠ Ok a) ∧ d' = d.
Proof. unfold transaction. destruct (m d) as [[a|e|] d1]; intros [= <- <-]; [left; eauto|right; by split..]. Qed.

(** ** Revisions *)

(** The revision of a contract in the tables. *)
Definition row_revision (c : ContractRow) : option V2.FileContract :=
  match decode_revision (c_raw_revision c) with Ok r => Some r | _ => None end.
Definition revisions (d : db) : gmap FileContractID V2.FileContract := omap row_revision (contracts d).
Definition stored_revision (d : db) (id : FileContractID) : option V2.FileContract := revisions d !! id.
Lemma stored_row d id : stored_revision d id = contracts d !! id ≫= row_revision.
Proof. apply lookup_omap. Qed.

#[local] Instance db_revisions : RevisionStore db := {|
  store_ContractRevision := tables_ContractRevision;
  store_UpdateContractRevision := tables_UpdateContractRevision;
  store_MarkContractBad := tables_MarkContractBad |}.

Lemma revision_read id d r d' :
  tables_ContractRevision id d = (r, d') → d' = d ∧ ∀ c b, r = Ok (c, b) → CR_ID c = id ∧ stored_revision d id = Some (CR_Revision c).
Proof.
  unfold tables_ContractRevision, transaction, wrapM, lift, get, throw, bindM, mbind, M_bind, mret, M_ret. rewrite stored_row. unfold row_revision. cbn.
  destruct (contracts d !! id) as [c|]; cbn; [|by intros [= <- <-]]. destruct (decode_revision (c_raw_revision c)) as [rev|e|]; cbn; intros [= <- <-]; split; try done.
  by intros c' b [= <- <-].
Qed.

Lemma revision_updated c u d :
  commits (tables_UpdateContractRevision c u) (λ _ d', stored_revision d' (CR_ID c) = Some (CR_Revision c) ∧
    ∀ j, j ≠ CR_ID c → stored_revision d' j = stored_revision d j) d.
Proof.
  unfold tables_UpdateContractRevision, contract_widths, contract_checks, integer. cbn zeta. do 3 tx_step.
  destruct (contracts d !! CR_ID c) as [row|] eqn:Hc; [|by tx_step]. destruct (_ <=? _)%Z; [by tx_step|]. tx_step. apply commits_lift. intros risked _.
  tx_steps. all: eapply commits_mono; [apply updateHostUsage_contracts|]; cbn beta; intros _ d1 (E1 & _); setoid_rewrite stored_row; rewrite E1; cbn; split;
    [rewrite lookup_insert_eq; cbn; unfold row_revision; cbn; by rewrite decode_encode_revision|intros j Hj; by rewrite lookup_insert_ne].
Qed.
Lemma marked_bad_revisions id d : commits (tables_MarkContractBad id) (λ _ d', stored_revision d' = stored_revision d) d.
Proof.
  unfold tables_MarkContractBad, markContractBad. tx_steps. unfold stored_revision. cut (revisions (set_contracts (insert id (with_good false c)) d) = revisions d); [by intros ->|].
  apply map_eq. intros j. unfold revisions. rewrite !lookup_omap. cbn.
  destruct (decide (j = id)) as [->|Hne]; [by rewrite lookup_insert_eq, Heqo|by rewrite lookup_insert_ne].
Qed.

(** C14. The tables of contracts implement the store that the revision manager is proved against: reading a revision changes nothing and returns the one that is stored, an update that succeeds stores exactly the given revision and touches no other contract's, an update that fails - for a revision number that is not higher, an overflow, an unknown host - stores nothing, and marking a contract bad leaves every revision alone; so the guarantees of the revision manager hold of this database, with any host client that does not write to it. *)
Theorem tables_refine_revision_store (LC : LatestRevisionClient db) (CT : ChainTip db) :
  (∀ k i d r d', client_LatestRevision k i d = (r, d') → stored_revision d' = stored_revision d) →
  RevisionStoreLaws db_revisions LC CT stored_revision.
Proof.
  intros Hclient. split; cbn.
  - intros i d r d' H. by destruct (revision_read i d r d' H).
  - intros i d c b d' H. destruct (revision_read i d (Ok (c, b)) d' H) as [_ Hr]. by apply (Hr c b).
  - intros c u d d' H. by apply (revision_updated c u d tt d').
  - intros c u d r d' H Hr. destruct (transaction_or _ _ _ _ H) as [([] & -> & _)|[_ ->]]; [by destruct Hr|done].
  - intros i d r d' H. destruct (transaction_or _ _ _ _ H) as [([] & -> & _)|[_ ->]]; [by apply (marked_bad_revisions i d tt d')|done].
  - done.
Qed.

(** ** Formed and renewed contracts *)

Lemma find_map_unique d m id : contracts_ok d → contract_sectors_map d !! m = Some id → find_map id d = Some m.
Proof.
  intros Hok Hm. unfold find_map. rewrite (find_row_unique _ _ m id); [done|done|apply N.eqb_refl|].
  intros m' id' Hm' ->%N.eqb_eq. by eapply (lk_unique _ Hok).
Qed.

(** The contract that a sector is pinned to. *)
Definition contract_of (d : db) (s : SectorRow) : option FileContractID := se_contract_sectors_map_id s ≫= λ m, contract_sectors_map d !! m.

Lemma insert_map_commits_row id d :
  contracts_ok d → commits (insert_map id) (λ _ d', contracts d' = contracts d ∧ sectors d' = sectors d ∧ hosts d' = hosts d ∧
    ∃ m, contract_sectors_map d' = <[m := id]> (contract_sectors_map d) ∧ ∀ i s, sectors d !! i = Some s → se_contract_sectors_map_id s ≠ Some m) d.
Proof.
  intros Hok. unfold insert_map. tx_steps. cbn. split_and!; [done..|]. eexists. split; [done|]. intros i s Hs Hm.
  destruct (lk_sector _ Hok _ _ _ Hs Hm) as (j & c & Hj & _). apply (lk_seq _ Hok) in Hj. lia.
Qed.

(** A contract that was formed is there: its revision reads back as the one that was given and not renewed, with the given price and allowance, on the host of the given key; its entry of the sectors map exists, no sector is pinned to it yet, it is good, and every other contract is as it was. *)
Theorem formed_contract_roundtrip hk id revision price allowance fee usage d d' :
  contracts_ok d → tables_AddFormedContract hk id revision price allowance fee usage d = (Ok tt, d') →
  tables_ContractRevision id d' = (Ok (mkRevision id revision, false), d') ∧
  (∃ c h host, contracts d' !! id = Some c ∧ c_good c = true ∧ c_host_id c = h ∧ find_host hk d = Some (h, host) ∧
     c_contract_price c = Big price ∧ c_remaining_allowance c = Big allowance) ∧
  (∃ m, contract_sectors_map d' !! m = Some id ∧ ∀ i s, sectors d' !! i = Some s → se_contract_sectors_map_id s ≠ Some m) ∧
  ∀ j, j ≠ id → contracts d' !! j = contracts d !! j.
Proof.
  intros Hok Hrun.
  enough (commits (tables_AddFormedContract hk id revision price allowance fee usage) (λ _ d', ∃ h host m,
    find_host hk d = Some (h, host) ∧ contracts d' = <[id := formed_row h (db_now d) revision price allowance fee]> (contracts d) ∧
    contract_sectors_map d' !! m = Some id ∧ ∀ i s, sectors d' !! i = Some s → se_contract_sectors_map_id s ≠ Some m) d) as Hc.
  { destruct (Hc tt d' Hrun) as (h & host & m & Hf & Ec & Hm & Hs). split; [|split; [|split]].
    - unfold tables_ContractRevision, transaction, wrapM, lift, get, bindM, mbind, M_bind, mret, M_ret. rewrite Ec, lookup_insert_eq. cbn. by rewrite decode_encode_revision.
    - rewrite Ec, lookup_insert_eq. by eexists _, h, host.
    - by exists m.
    - intros j Hj. by rewrite Ec, lookup_insert_ne. }
  unfold tables_AddFormedContract, insert_contract, contract_widths, contract_checks, integer. do 3 tx_step.
  destruct (find_host hk d) as [[h host]|] eqn:Hf; [|by tx_step]. pose proof (find_row_Some _ _ _ _ Hf) as [Hh _]. cbn zeta.
  tx_steps. match goal with |- commits (insert_map _) _ ?d1 => set (d2 := d1) end. apply bool_decide_eq_true in H5.
  assert (contracts_ok d2) as Hok2.
  { apply (contracts_ok_map d); try done; unfold d2; cbn; [intros i c Hc; exists c; split; [|done]; rewrite lookup_insert_ne by congruence; done|].
    intros i c [[<- <-]|[_ Hi]]%lookup_insert_Some; [by eexists|by apply (lk_host _ Hok i)]. }
  eapply commits_mono; [by apply insert_map_commits_row|]. cbn beta. intros _ d3 (E1 & E2 & E3 & m & E4 & Hfree).
  eapply commits_mono; [apply updateHostUsage_contracts|]. cbn beta. intros _ d4 (F1 & F2 & F3).
  exists h, host, m. rewrite F1, E1, F2, E4, F3, E2, lookup_insert_eq. done.
Qed.

(** C13. Renewing a contract hands its sectors over: exactly the sectors that were pinned to the old contract are pinned to the renewal, without any row of a sector changing; the renewal is on the old contract's host, the old contract says what it was renewed to, and every other contract is as it was. *)
Theorem renewal_hands_over from to revision price fee usage d d' :
  contracts_ok d → tables_AddRenewedContract from to revision price fee usage d = (Ok tt, d') →
  sectors d' = sectors d ∧
  (∀ i s, sectors d !! i = Some s → contract_of d' s = if decide (contract_of d s = Some from) then Some to else contract_of d s) ∧
  (∃ old new, contracts d !! from = Some old ∧ contracts d !! to = None ∧ contracts d' !! to = Some new ∧ c_host_id new = c_host_id old ∧
     c_renewed_from new = Some from ∧ stored_revision d' to = Some revision ∧ contracts d' !! from = Some (with_renewed_to (Some to) old)) ∧
  ∀ j, j ≠ from → j ≠ to → contracts d' !! j = contracts d !! j.
Proof.
  intros Hok Hrun.
  enough (commits (tables_AddRenewedContract from to revision price fee usage) (λ _ d', ∃ old m risked,
    contracts d !! from = Some old ∧ contracts d !! to = None ∧ contract_sectors_map d !! m = Some from ∧ sectors d' = sectors d ∧
    contracts d' = <[from := with_renewed_to (Some to) old]> (<[to := renewed_row from (c_host_id old) (db_now d) revision price fee risked]> (contracts d)) ∧
    contract_sectors_map d' = <[m := to]> (contract_sectors_map d)) d) as Hc.
  { destruct (Hc tt d' Hrun) as (old & m & risked & Hold & Hto & Hm & Es & Ec & Em). assert (from ≠ to) as Hne by congruence. split; [done|]. split; [|split].
    - intros i s Hs. unfold contract_of. rewrite Em. destruct (se_contract_sectors_map_id s) as [k|] eqn:Hk; [|done]. cbn. destruct (decide (k = m)) as [->|Hkm].
      + rewrite lookup_insert_eq, Hm. by rewrite decide_True.
      + rewrite lookup_insert_ne by done. rewrite decide_False; [done|]. intros Hfrom. by destruct Hkm; eapply (lk_unique _ Hok).
    - eexists old, _. rewrite stored_row, Ec, lookup_insert_eq, lookup_insert_ne, lookup_insert_eq by done. split_and!; try done. cbn. unfold row_revision. cbn. by rewrite decode_encode_revision.
    - intros j H1 H2. by rewrite Ec, !lookup_insert_ne. }
  unfold tables_AddRenewedContract, insert_contract, contract_widths, contract_checks, integer. do 2 tx_step.
  apply commits_lift. intros risked _. do 4 tx_step. cbn zeta. do 10 tx_step. destruct (contracts d !! from) as [old|] eqn:Hold.
  2: { tx_step. do 2 tx_step. rewrite Hold. tx_step. }
  do 8 tx_step. apply bool_decide_eq_true in H5. assert (to ≠ from) as Hne by congruence. do 3 tx_step. cbn [contracts set_contracts].
  rewrite lookup_insert_ne by done. rewrite Hold. do 5 tx_step. destruct (find_map from _) as [m|] eqn:Hm; [|by tx_step].
  unfold find_map in Hm. destruct (find_row _ _) as [[m' id]|] eqn:Hf; [|done]. injection Hm as ->. apply find_row_Some in Hf as [Hm Hid%N.eqb_eq]. subst id.
  do 5 tx_step. eapply commits_mono; [apply updateHostUsage_contracts|]. cbn beta. intros _ d1 (F1 & F2 & F3).
  exists old, m, risked. rewrite F1, F2, F3. done.
Qed.

(** ** Deleted contracts *)

Context {E : EncoderOps} {EL : EncoderLaws E} {HS : Hashed} {RL : RhpLaws R}.
Context (order : ∀ A, list A → list A) (order_perm : ∀ A (l : list A), order A l ≡ₚ l).

Lemma counted_rows d d' : counted d d' → contracts d' = contracts d ∧ contract_sectors_map d' = contract_sectors_map d ∧ sectors d' = sectors d.
Proof. intros [E1 _ _]. by rewrite E1. Qed.

Lemma unpin_counters_commits (b : bool) n h (o : option ContractRow) e d :
  commits (if b then match o with
    | None => throw e
    | Some c =>
        wrapM "failed to update pinned sectors stat: " (incrementStat statPinnedSectors (- n)) ;;
        wrapM "failed to update unpinned sectors stat: " (incrementStat statUnpinnedSectors n) ;;
        wrapM "failed to update host unpinned sectors: " (incrementHostUnpinnedSectors (h c) n)
    end else mret tt) (λ _ d', counted d d') d.
Proof.
  destruct b; [|tx_step; apply counted_refl]. destruct o as [c|]; [|by tx_step].
  eapply commits_tallied; [apply tallied_refl|apply commits_wrapM, incrementStat_tallied|]. intros _ d1 H1.
  eapply commits_tallied; [exact H1|apply commits_wrapM, incrementStat_tallied|]. intros _ d2 H2.
  eapply commits_mono; [apply commits_wrapM, incrementHost_tallied|]. cbn beta. intros _ d3 H3.
  by apply (tallied_trans _ _ _ _ _ _ _ H2 H3).
Qed.

(** C16. Deleting a contract lets its sectors go: exactly the sectors that were pinned to it are pinned to no contract afterwards, each still on the host it was on and as new as if it had just been uploaded, so that it can be pinned again; the contract has no entry of the sectors map left and is bad, and every other contract is as it was. *)
Theorem deleted_contract_unpins id d d' :
  contracts_ok d → tables_DeleteContract order id d = (Ok tt, d') →
  (∀ i, sectors d' !! i = (λ s, if decide (contract_of d s = Some id) then unpin (db_now d) s else s) <$> sectors d !! i) ∧
  find_map id d' = None ∧ (∃ c, contracts d !! id = Some c ∧ contracts d' !! id = Some (with_good false c)) ∧
  ∀ j, j ≠ id → contracts d' !! j = contracts d !! j.
Proof.
  intros Hok. revert d'. enough (commits (tables_DeleteContract order id) (λ _ d',
    (∀ i, sectors d' !! i = (λ s, if decide (contract_of d s = Some id) then unpin (db_now d) s else s) <$> sectors d !! i) ∧
    find_map id d' = None ∧ (∃ c, contracts d !! id = Some c ∧ contracts d' !! id = Some (with_good false c)) ∧
    ∀ j, j ≠ id → contracts d' !! j = contracts d !! j) d) as H by exact (H tt).
  unfold tables_DeleteContract, delete_map, update_sectors. do 3 tx_step. destruct (find_map id d) as [m|] eqn:Hm; [|by tx_step].
  unfold find_map in Hm. destruct (find_row _ _) as [[m' id']|] eqn:Hf; [|done]. injection Hm as ->. apply find_row_Some in Hf as [Hm Hid%N.eqb_eq]. subst id'.
  cbn zeta. set (rows := select_sectors _ _ _). do 10 tx_step. eapply commits_mono; [apply unpin_counters_commits|]. cbn beta. intros _ d2 (E1 & E2 & E3)%counted_rows.
  unfold markContractBad. do 2 tx_step. rewrite E1. cbn [contracts set_contract_sectors_map set_sectors]. destruct (contracts d !! id) as [c|] eqn:Hc; [|by tx_step].
  tx_step. cbn [sectors contracts set_contracts]. rewrite E1, E3. cbn. split_and!.
  - intros i. rewrite map_lookup_imap. destruct (sectors d !! i) as [s|] eqn:Hs; [|done]. cbn. f_equal.
    unfold rows. rewrite (select_complete order order_perm (pinned_to m) d i s Hs).
    unfold pinned_to, contract_of. destruct (se_contract_sectors_map_id s) as [k|]; [|done]. cbn.
    destruct (decide (k = m)) as [->|Hne]; [rewrite bool_decide_eq_true_2, decide_True; done|].
    rewrite bool_decide_eq_false_2, decide_False; [done| |congruence]. intros Hk. by destruct Hne; eapply (lk_unique _ Hok).
  - unfold find_map. destruct (find_row _ _) as [[k j]|] eqn:Hf; [|done]. apply find_row_Some in Hf as [Hk Hj%N.eqb_eq]. subst j. cbn in Hk. rewrite E2 in Hk. cbn in Hk.
    apply lookup_delete_Some in Hk as [Hne Hk]. by destruct Hne; eapply (lk_unique _ Hok).
  - exists c. by rewrite lookup_insert_eq.
  - intros j Hj. by rewrite lookup_insert_ne.
Qed.
End refine.
