(* ===== verification/HostStore.v ===== *)
(** * The transactions on hosts keep the tables

    What the transactions of HostTables.v leave of the tables of sectors and contracts,
    and what blocking a host does. *)

From S2P Require Import Prelude Float Order Encoding External HostQueue App Hosts Alerts HostManager Contract Slabs Objects Accounts Tables SlabTables SectorTables ContractTables HostTables PinStore Totals SlabStore ObjectStore SectorStore ContractStore.

Section store.
Local Open Scope go_scope.
Context {C : CurrencyOps} {R : RhpOps} {V : V2.Methods} {PN : ProtocolNames} {CC : ContractColumns} {HC : HostColumns} {SM : SqlMath}.
Context {E : EncoderOps} {EL : EncoderLaws E} {HS : Hashed} {RL : RhpLaws R}.

(** ** Hosts *)

Lemma host_update_ok d d' :
  store_ok d → stored d' = stored d → contracts d' = contracts d → contract_sectors_map d' = contract_sectors_map d →
  (∀ t, t ∈ ["slabs"; "sectors"; "objects"; "contract_sectors_map"]%string → currval t d' = currval t d) → host_kept d d' → store_ok d'.
Proof.
  intros Hok E1 E2 E3 Hs Hk. apply (contracts_store_ok d); [done|done|intros; apply Hs; set_solver|done|].
  apply (contracts_ok_frame d); [done|done|apply Hs; set_solver|intros h; by apply host_kept_known| |by apply store_contracts].
  intros i r m Hi Hm. exists i, r. unfold stored in E1. split_and!; [|done..]. by replace (sectors d) with (sectors d') by congruence.
Qed.

Definition keeps_host (f : HostRow → HostRow) : Prop :=
  ∀ h, h_public_key (f h) = h_public_key h ∧ h_unpinned_sectors (f h) = h_unpinned_sectors h.

Lemma set_host_ok d id h h' :
  store_ok d → hosts d !! id = Some h → h_public_key h' = h_public_key h → h_unpinned_sectors h' = h_unpinned_sectors h →
  store_ok (set_hosts (insert id h') d).
Proof. intros Hok Hh E1 E2. apply (host_update_ok d); [done..|]. by eapply host_kept_insert. Qed.
Lemma update_hosts_commits P f d : keeps_host f → store_ok d → commits (update_hosts P f) (λ _, store_ok) d.
Proof.
  intros Hf Hok. unfold update_hosts. tx_step. apply (host_update_ok d); [done..|]. intros id. cbn. rewrite map_lookup_imap.
  destruct (hosts d !! id) as [h|]; [|done]. cbn. destruct (P id h); [|done]. by destruct (Hf h) as [-> ->].
Qed.

(** A host that is new has no sectors. *)
Lemma number_none (P : SectorRow → bool) d : (∀ i s, sectors d !! i = Some s → P s = false) → number P d = 0%Z.
Proof. intros HP. unfold number, count_if. apply msum_zero. intros i s Hs. by rewrite (HP _ _ Hs). Qed.
Lemma new_host_ok d id h : store_ok d → hosts d !! id = None → h_unpinned_sectors h = 0%Z → store_ok (set_hosts (insert id h) d).
Proof.
  intros Hok Hid Hz. pose proof (sk_sectors _ (st_slabs _ Hok)) as Hso. apply (others_ok d); [|done]. split; cbn; [done|done|..].
  - intros k r [[<- <-]|[_ Hr]]%lookup_insert_Some; [|by apply (ct_hosts _ (st_counts _ Hok))].
    rewrite Hz, number_none; [done|]. intros i s Hs. unfold unpinned_on. apply andb_false_iff. right. apply bool_decide_eq_false. intros Hh.
    destruct (so_host _ Hso _ _ _ Hs Hh). congruence.
  - intros i s k Hs Hk. destruct (so_host _ Hso _ _ _ Hs Hk) as [r Hr]. rewrite lookup_insert_is_Some'. right. by eexists.
  - apply (contracts_ok_frame d); [done..| |intros i r m Hi Hm; by exists i, r|by apply store_contracts]. cbn.
    intros k Hk. rewrite lookup_insert_is_Some'. by right.
Qed.

Lemma upsert_host_commits hk new update d :
  h_unpinned_sectors new = 0%Z → keeps_host update → store_ok d → commits (upsert_host hk new update) (λ _, store_ok) d.
Proof.
  intros Hz Hu Hok. assert (∀ n, store_ok (set_sequences (insert "hosts" n) d)) as Hseq.
  { intros n. apply (host_update_ok d); [done..| |done]. intros t Ht. unfold currval. cbn. rewrite lookup_insert_ne; [done|]. set_solver. }
  unfold upsert_host. do 4 tx_step. change (find_host hk (set_sequences _ d)) with (find_host hk d).
  destruct (find_host hk d) as [[id h]|] eqn:Hf.
  - apply find_row_Some in Hf as [Hh _]. tx_steps. destruct (Hu h) as [E1 E2]. by apply (set_host_ok _ id h).
  - tx_steps. apply bool_decide_eq_true in H. by apply new_host_ok.
Qed.

(** The addresses of hosts, and the numbers they get. *)
Lemma replace_addresses_commits id l d : store_ok d → commits (replace_addresses id l) (λ _, store_ok) d.
Proof.
  assert (∀ d f n, store_ok d → store_ok (set_host_addresses f (set_sequences (insert "host_addresses" n) d))) as Hset.
  { intros d1 f n Hok. apply (host_update_ok d1); [done..| |done]. intros t Ht. unfold currval. cbn. rewrite lookup_insert_ne; [done|]. set_solver. }
  intros Hok. unfold replace_addresses. do 2 tx_step. apply (commits_forM store_ok).
  - by apply (host_update_ok d).
  - intros na d1 _ Hd1. unfold insert_address. tx_steps. by apply Hset.
Qed.

Lemma announced_keeps ts q s : keeps_host (announced ts q s).
Proof. by intros h. Qed.
Lemma tables_AddHostAnnouncement_commits hk ha ts d : store_ok d → commits (tables_AddHostAnnouncement hk ha ts) (λ _, store_ok) d.
Proof.
  intros Hok. unfold tables_AddHostAnnouncement. do 3 tx_step. eapply commits_mono; [by apply upsert_host_commits, Hok|].
  cbn beta. intros id d1 H1. by apply replace_addresses_commits.
Qed.
Lemma tables_ImportHost_commits hk l d : store_ok d → commits (tables_ImportHost hk l) (λ _, store_ok) d.
Proof.
  intros Hok. unfold tables_ImportHost. do 5 tx_step. eapply commits_mono; [by apply upsert_host_commits, Hok|].
  cbn beta. intros id d1 H1. by apply replace_addresses_commits.
Qed.

(** ** Blocking *)

(** The reasons are merged as sets. *)
Lemma elem_of_Compact l r : r ∈ Compact l ↔ r ∈ l.
Proof.
  induction l as [|x [|y l] IH]; [done..|]. change (Compact (x :: y :: l)) with (if String.eqb x y then Compact (y :: l) else x :: Compact (y :: l)).
  destruct (String.eqb_spec x y) as [->|Hne].
  - rewrite IH. rewrite !elem_of_cons. tauto.
  - rewrite !elem_of_cons, IH, elem_of_cons. tauto.
Qed.
Lemma elem_of_merged l reasons r : r ∈ merged_reasons l reasons ↔ r ∈ l ∨ r ∈ reasons.
Proof. unfold merged_reasons. by rewrite elem_of_Compact, SliceStable_perm, elem_of_app. Qed.

(** A sector that waits on a host to be pinned. *)
Definition waits (on : Z → bool) (s : SectorRow) : bool :=
  match se_host_id s with Some h => on h && negb (is_pinned s) | None => false end.

Definition known_key (d : db) (h : Z) : option PublicKey := h_public_key <$> hosts d !! h.
Definition hosts_unique (d : db) : Prop := ∀ i j k, known_key d i = Some k → known_key d j = Some k → i = j.

(** The rows of the hosts, up to the counters of unpinned sectors. *)
Definition recounted (d d' : db) : Prop := ∀ h, ∃ n, hosts d' !! h = with_unpinned n <$> hosts d !! h.

Lemma with_unpinned_id r : with_unpinned (h_unpinned_sectors r) r = r.
Proof. by destruct r. Qed.
Lemma recounted_same d d' : hosts d' = hosts d → recounted d d'.
Proof.
  intros Eh h. rewrite Eh. exists (default 0%Z (h_unpinned_sectors <$> hosts d !! h)). destruct (hosts d !! h) as [r|]; [|done]. cbn. by rewrite with_unpinned_id.
Qed.
Lemma recounted_trans d1 d2 d3 : recounted d1 d2 → recounted d2 d3 → recounted d1 d3.
Proof. intros H1 H2 h. destruct (H1 h) as [n1 E1], (H2 h) as [n2 E2]. exists n2. rewrite E2, E1. by destruct (hosts d1 !! h). Qed.
Lemma recounted_keys d d' h : recounted d d' → known_key d' h = known_key d h.
Proof. intros Hr. destruct (Hr h) as [n En]. unfold known_key. rewrite En. by destruct (hosts d !! h). Qed.
Lemma incrementStat_recounted name x d : commits (incrementStat name x) (λ _, recounted d) d.
Proof. eapply commits_mono; [apply incrementStat_counted|]. cbn beta. intros _ d' (_ & Eh & _). by apply recounted_same. Qed.
Lemma incrementHost_recounted host x d : commits (incrementHostUnpinnedSectors host x) (λ _, recounted d) d.
Proof.
  unfold incrementHostUnpinnedSectors. tx_steps; [|by apply recounted_same]. intros k. cbn. destruct (decide (k = host)) as [->|Hne].
  - rewrite lookup_insert_eq. eexists. by rewrite Heqo.
  - rewrite lookup_insert_ne by done. by apply recounted_same.
Qed.

(** The reasons the row of a known host is on the blocklist for. *)
Definition blocked_for (d : db) (hk : PublicKey) (r : string) : Prop :=
  (∃ h, known_key d h = Some hk) ∧ ∃ l, hosts_blocklist d !! hk = Some l ∧ r ∈ l.

(** What blocking the hosts [hks] makes of the tables: the rows of the hosts up to their
    counters, the contracts, the sectors and the blocklist exactly; of the statistics only
    two may change; every other table stays. *)
Record blocked (reasons : list string) (hks : list PublicKey) (d d' : db) : Prop := {
  bl_hosts : recounted d d';
  bl_contracts : ∀ id, contracts d' !! id = (λ c, if host_in hks d (c_host_id c) then with_good false c else c) <$> contracts d !! id;
  bl_sectors : ∀ i, sectors d' !! i = (λ s, if waits (host_in hks d) s then unhost s else s) <$> sectors d !! i;
  bl_listed : ∀ hk, hk ∈ hks → ∃ l, hosts_blocklist d' !! hk = Some l ∧ ∀ r, r ∈ l ↔ r ∈ reasons ∨ blocked_for d hk r;
  bl_others : ∀ hk, hk ∉ hks → hosts_blocklist d' !! hk = hosts_blocklist d !! hk;
  bl_stats : ∀ n, n ≠ statUnpinnableSectors → n ≠ statUnpinnedSectors → stat n d' = stat n d;
  bl_seq : ∀ t, t ≠ "stats_deltas"%string → currval t d' = currval t d;
  bl_rest : d' = set_stats_deltas (λ _, stats_deltas d') (set_sequences (λ _, sequences d') (set_hosts (λ _, hosts d')
    (set_contracts (λ _, contracts d') (set_sectors (λ _, sectors d') (set_hosts_blocklist (λ _, hosts_blocklist d') d))))) }.

Lemma host_in_spec hks d h : host_in hks d h = true ↔ ∃ k, known_key d h = Some k ∧ k ∈ hks.
Proof.
  unfold host_in, known_key. destruct (hosts d !! h) as [r|]; cbn; [rewrite bool_decide_eq_true|]; [|naive_solver].
  split; [by eexists|]. by intros (k & [= <-] & ?).
Qed.
Lemma host_in_ext hks d d' h : known_key d' h = known_key d h → host_in hks d' h = host_in hks d h.
Proof. intros Hk. apply eq_true_iff_eq. by rewrite !host_in_spec, Hk. Qed.
Lemma host_in_nil d h : host_in [] d h = false.
Proof. apply not_true_iff_false. rewrite host_in_spec. by intros (k & _ & ?%elem_of_nil). Qed.
Lemma host_in_cons hk hks d h : host_in (hk :: hks) d h = host_in [hk] d h || host_in hks d h.
Proof.
  apply eq_true_iff_eq. rewrite orb_true_iff, !host_in_spec. split.
  - intros (k & Hk & [->|Hin]%elem_of_cons); [left; exists hk; split; [done|by left]|right; eauto].
  - intros [(k & Hk & ->%list_elem_of_singleton)|(k & Hk & Hin)]; exists k || exists hk; (split; [done|]); [by left|by right].
Qed.

Lemma blocked_nil reasons d : blocked reasons [] d d.
Proof.
  split; try done.
  - by apply recounted_same.
  - intros id. destruct (contracts d !! id); [|done]. cbn. by rewrite host_in_nil.
  - intros i. destruct (sectors d !! i) as [s|]; [|done]. cbn. unfold waits. destruct (se_host_id s); [|done]. by rewrite host_in_nil.
  - by intros hk ?%elem_of_nil.
  - by destruct d.
Qed.
Lemma blocked_cons reasons hk hks d d1 d2 :
  blocked reasons [hk] d d1 → blocked reasons hks d1 d2 → blocked reasons (hk :: hks) d d2.
Proof.
  intros [A1 A2 A3 A4 A5 A6 A7 A8] [B1 B2 B3 B4 B5 B6 B7 B8]. assert (∀ h, known_key d1 h = known_key d h) as Hk by (intros h; by apply recounted_keys). split.
  - by eapply recounted_trans.
  - intros id. rewrite B2, A2. destruct (contracts d !! id) as [c|]; [|done]. cbn. f_equal. rewrite (host_in_cons hk hks), (host_in_ext hks d d1) by done.
    destruct (host_in [hk] d (c_host_id c)); [|done]. cbn. by destruct (host_in hks d (c_host_id c)).
  - intros i. rewrite B3, A3. destruct (sectors d !! i) as [s|]; [|done]. cbn. f_equal. unfold waits. destruct (se_host_id s) as [h|] eqn:Eh; [|by rewrite Eh].
    rewrite (host_in_cons hk hks). destruct (host_in [hk] d h); cbn; [destruct (is_pinned s) eqn:Ep; cbn|]; rewrite ?Eh, ?Ep, ?andb_false_r; [done|done|].
    by rewrite (host_in_ext hks d d1).
  - intros k Hin. destruct (decide (k ∈ hks)) as [Hin'|Hin'].
    + destruct (B4 k Hin') as (l & Hl & Hr). exists l. split; [done|]. intros r. rewrite Hr. unfold blocked_for. setoid_rewrite Hk.
      destruct (decide (k = hk)) as [->|Hne]; [|by rewrite A5 by (by intros ?%list_elem_of_singleton)].
      destruct (A4 hk) as (l1 & Hl1 & Hr1); [by left|]. rewrite Hl1. split.
      * intros [Hr2|[_ (l' & [= <-] & Hr')]]; [by left|by apply Hr1].
      * intros [Hr2|Hf]; [by left|]. right. split; [apply Hf|]. exists l1. split; [done|]. apply Hr1. by right.
    + apply elem_of_cons in Hin as [->|]; [|done]. rewrite B5 by done. by apply A4, list_elem_of_singleton.
  - intros k [Hne Hin]%not_elem_of_cons. rewrite B5 by done. apply A5. by rewrite list_elem_of_singleton.
  - intros n N1 N2. by rewrite B6, A6.
  - intros t Ht. by rewrite B7, A7.
  - rewrite B8 at 1. rewrite A8. done.
Qed.

Context (order : ∀ A, list A → list A) (order_perm : ∀ A (l : list A), order A l ≡ₚ l).

(** The sectors that waited on the host [h], and the counters that follow them. *)
Lemma unhosted_store_ok h rows d d' (n := Z.of_nat (length rows)) :
  store_ok d → chosen (λ s, on_host h s && negb (is_pinned s)) rows d →
  tallied (λ k, only statUnpinnableSectors k n + only statUnpinnedSectors k (- n))%Z (λ k, only_host h k (- n)) (moved rows.*1 unhost d) d' → store_ok d'.
Proof.
  intros Hok Hch (Hcn & Hs & Hh).
  assert (∀ p, p ∈ rows → se_host_id p.2 = Some h ∧ is_pinned p.2 = false ∧ se_contract_sectors_map_id p.2 = None) as Hrow.
  { intros p Hp. destruct (ch_rows _ _ _ Hch _ Hp) as [_ [Hon%on_host_true Hpin%negb_true_iff]%andb_prop]. split_and!; [done..|].
    unfold is_pinned in Hpin. apply bool_decide_eq_false in Hpin. destruct (se_contract_sectors_map_id p.2); [|done]. destruct Hpin. by eexists. }
  assert (count_rows (λ _, true) rows = n) as Hlen by apply lsum_const.
  assert (∀ (Q : SectorRow → bool) a, (∀ p, p ∈ rows → (if Q (unhost p.2) then 1 else 0) - (if Q p.2 then 1 else 0) = a)%Z → change unhost rows Q = (a * n)%Z) as Hchange.
  { intros Q a HQ. rewrite (change_counts _ _ _ a 0 (λ _, true) (λ _, true)); [rewrite Hlen; lia|]. intros p Hp. rewrite HQ by done. cbn. lia. }
  assert (∀ p, p ∈ rows → (is_unpinned p.2 = true ∧ is_unpinnable p.2 = false ∧ ∀ k, unpinned_on k p.2 = (h =? k)%Z) ∧
    is_pinned (unhost p.2) = false ∧ is_unpinned (unhost p.2) = false ∧ is_unpinnable (unhost p.2) = true ∧ ∀ k, unpinned_on k (unhost p.2) = false) as Hkinds.
  { intros p Hp. destruct (Hrow p Hp) as (Eh & Ep & Ec). destruct (is_unpinned_hosted _ _ Eh) as (-> & -> & Hon). rewrite Ep. split.
    - split_and!; [done..|]. intros k. by rewrite Hon, Ep.
    - by apply is_unpinned_hostless. }
  eapply (moved_store_ok _ rows unhost d d'); [done|exact Hch|exact Hcn|done| |exact Hs|exact Hh|done|..].
  - intros p Hp. cbn. by apply Hrow.
  - rewrite (Hchange is_pinned 0%Z); [unfold only; simpl; lia|]. intros p Hp. destruct (Hkinds p Hp) as (_ & -> & _), (Hrow p Hp) as (_ & -> & _). done.
  - rewrite (Hchange is_unpinned (-1)%Z); [unfold only; simpl; lia|]. intros p Hp. by destruct (Hkinds p Hp) as ((-> & _) & _ & -> & _).
  - rewrite (Hchange is_unpinnable 1%Z); [unfold only; simpl; lia|]. intros p Hp. by destruct (Hkinds p Hp) as ((_ & -> & _) & _ & _ & -> & _).
  - intros k _. rewrite (Hchange (unpinned_on k) (if (h =? k)%Z then -1 else 0)%Z); [unfold only_host; destruct (_ =? _)%Z; lia|]. intros p Hp.
    destruct (Hkinds p Hp) as ((_ & _ & ->) & _ & _ & _ & ->). by destruct (_ =? _)%Z.
Qed.

Lemma waits_host h hks d s : (∀ k, host_in hks d k = (k =? h)%Z) → waits (host_in hks d) s = on_host h s && negb (is_pinned s).
Proof.
  intros Hin. unfold waits, on_host. destruct (se_host_id s) as [k|]; [|by rewrite bool_decide_eq_false_2].
  rewrite Hin. f_equal. destruct (Z.eqb_spec k h) as [->|Hne]; [by rewrite bool_decide_eq_true_2|rewrite bool_decide_eq_false_2 by congruence; done].
Qed.

(** The host that a public key finds. *)
Lemma find_host_in hk d h r : hosts_unique d → find_host hk d = Some (h, r) → ∀ k, host_in [hk] d k = (k =? h)%Z.
Proof.
  intros Hu Hf k. apply find_row_Some in Hf as [Hr Hk%N.eqb_eq]. assert (known_key d h = Some hk) as Hh by (unfold known_key; rewrite Hr; by subst).
  apply eq_true_iff_eq. rewrite host_in_spec, Z.eqb_eq. split.
  - intros (k' & Hk' & ->%list_elem_of_singleton). by eapply Hu.
  - intros ->. exists hk. split; [done|by left].
Qed.
Lemma find_host_not_in hk d : find_host hk d = None → ∀ k, known_key d k ≠ Some hk.
Proof.
  intros Hf k. unfold known_key. destruct (hosts d !! k) as [r|] eqn:Hr; [|done]. cbn. intros [= Hk].
  pose proof (find_row_None _ _ Hf _ _ Hr) as Hn. cbn in Hn. by apply N.eqb_neq in Hn.
Qed.

(** The blocklist, after one host is blocked. *)
Lemma block_host_listed reasons hk d d' (l := hosts_blocklist d) :
  hosts_blocklist d' = <[hk := merged_reasons (if find_host hk d then default [] (l !! hk) else []) reasons]> l →
  (∀ k, k ∈ [hk] → ∃ l', hosts_blocklist d' !! k = Some l' ∧ ∀ r, r ∈ l' ↔ r ∈ reasons ∨ blocked_for d k r) ∧
  (∀ k, k ∉ [hk] → hosts_blocklist d' !! k = l !! k).
Proof.
  intros E1. rewrite E1. split.
  - intros k ->%list_elem_of_singleton. rewrite lookup_insert_eq. eexists. split; [done|]. intros r. rewrite elem_of_merged.
    destruct (find_host hk d) as [[h row]|] eqn:Hf.
    + assert (∃ h, known_key d h = Some hk) as Hh.
      { apply find_row_Some in Hf as [Hr Hk%N.eqb_eq]. exists h. unfold known_key. rewrite Hr. by subst. }
      unfold blocked_for. fold l. destruct (l !! hk) as [l0|]; cbn; [|rewrite elem_of_nil]; naive_solver.
    + pose proof (find_host_not_in _ _ Hf) as Hno. unfold blocked_for. rewrite elem_of_nil. split; [tauto|]. intros [|[[h Hh] _]]; [by right|]. by destruct (Hno h).
  - intros k Hk. rewrite lookup_insert_ne; [done|]. intros ->. destruct Hk. by left.
Qed.

Lemma block_host_recounted reasons hk d : commits (block_host order reasons hk) (λ _, recounted d) d.
Proof.
  unfold block_host, mark_contracts, update_contracts, update_sectors. do 2 tx_step. cbn zeta. do 5 tx_step. destruct (find_host hk d) as [[h r]|]; [|tx_step; by apply recounted_same].
  do 4 tx_step. set (d1 := set_sectors _ _). assert (recounted d d1) as H1 by by apply recounted_same. destruct (0 <? _)%Z; [|by tx_step].
  do 2 tx_step. eapply commits_mono; [apply incrementStat_recounted|]. cbn beta. intros _ d2 H2.
  do 2 tx_step. eapply commits_mono; [apply incrementStat_recounted|]. cbn beta. intros _ d3 H3.
  tx_step. eapply commits_mono; [apply incrementHost_recounted|]. cbn beta. intros _ d4 H4. eauto using recounted_trans.
Qed.

Lemma block_host_commits reasons hk d :
  store_ok d → commits (block_host order reasons hk) (λ _ d', store_ok d' ∧ (hosts_unique d → recounted d d' → blocked reasons [hk] d d')) d.
Proof.
  intros Hok. unfold block_host, mark_contracts, update_contracts, update_sectors. do 2 tx_step. cbn zeta. do 5 tx_step.
  set (up := merged_reasons _ _). set (d0 := set_hosts_blocklist _ d).
  assert (store_ok d0) as Hok0 by by apply (host_update_ok d).
  destruct (find_host hk d) as [[h r]|] eqn:Hf.
  2: { tx_step. split; [done|]. intros _ Hre. destruct (block_host_listed reasons hk d d0) as (L1 & L2); [by rewrite Hf|].
    assert (∀ k, host_in [hk] d k = false) as Hno.
    { intros k. apply not_true_iff_false. rewrite host_in_spec. intros (k' & Hk & ->%list_elem_of_singleton). by destruct (find_host_not_in _ _ Hf k). }
    split; try done; intros i; cbn.
    - destruct (contracts d !! i); [|done]. cbn. by rewrite Hno.
    - destruct (sectors d !! i) as [s|]; [|done]. cbn. unfold waits. destruct (se_host_id s); [|done]. by rewrite Hno. }
  do 3 tx_step. set (d1 := set_contracts _ d0).
  assert (store_ok d1) as Hok1 by (by apply (update_contracts_commits (λ _ c, (h =? c_host_id c)%Z) (with_good false) d0 (λ _, eq_refl) Hok0 tt)).
  set (rows := select_sectors order _ _). assert (chosen (λ s, on_host h s && negb (is_pinned s)) rows d1) as Hch by (destruct (select_chosen order order_perm (λ s, on_host h s && negb (is_pinned s)) d); by split).
  do 1 tx_step. change (set_sectors _ d1) with (moved rows.*1 unhost d1). set (n := Z.of_nat (length rows)).
  assert (∀ d', tallied (λ k, only statUnpinnableSectors k n + only statUnpinnedSectors k (- n))%Z (λ k, only_host h k (- n)) (moved rows.*1 unhost d1) d' →
    store_ok d' ∧ (hosts_unique d → recounted d d' → blocked reasons [hk] d d')) as Hfin.
  { intros d' Ht. split; [by eapply (unhosted_store_ok h rows d1)|]. intros Hu Hre. pose proof (find_host_in _ _ _ _ Hu Hf) as Hin. destruct Ht as ([E1 E2 E3] & Hst & _).
    destruct (block_host_listed reasons hk d d') as (L1 & L2); [by rewrite E1, Hf|]. split; try done.
    - intros id. rewrite E1. cbn. rewrite map_lookup_imap. destruct (contracts d !! id) as [c|]; [|done]. cbn. by rewrite Hin, Z.eqb_sym.
    - intros i. rewrite E1. cbn. rewrite map_lookup_imap. destruct (sectors d !! i) as [s|] eqn:Hs; [|done]. cbn.
      rewrite (waits_host h) by done. unfold rows. by rewrite (select_complete order order_perm _ d i s).
    - intros m N1 N2. rewrite Hst. unfold only. rewrite !(proj2 (String.eqb_neq _ _)) by congruence. by rewrite Z.add_0_r.
    - rewrite E1. done. }
  destruct (Z.ltb_spec 0 n).
  - eapply commits_tallied; [apply tallied_refl|apply commits_wrapM, incrementStat_tallied|]. intros _ d2 H2.
    eapply commits_tallied; [exact H2|apply commits_wrapM, incrementStat_tallied|]. intros _ d3 H3.
    eapply commits_mono; [apply commits_wrapM, incrementHost_tallied|]. cbn beta. intros _ d4 H4. apply Hfin.
    eapply tallied_ext; [exact (tallied_trans _ _ _ _ _ _ _ H3 H4)|intros k; cbn beta; lia|intros k; cbn beta; lia].
  - tx_step. apply Hfin. assert (n = 0%Z) as -> by lia. eapply tallied_ext; [apply tallied_refl|..].
    + intros k. unfold only. by repeat case_match.
    + intros k. unfold only_host. by case_match.
Qed.

Lemma hosts_unique_keys d d' : (∀ h, known_key d' h = known_key d h) → hosts_unique d → hosts_unique d'.
Proof. intros Hk Hu i j k. rewrite !Hk. apply Hu. Qed.

Lemma block_hosts_commits reasons hks d :
  store_ok d → commits (forM hks (block_host order reasons)) (λ _ d', store_ok d' ∧ (hosts_unique d → blocked reasons hks d d')) d.
Proof.
  revert d. induction hks as [|hk hks IH]; intros d Hok; simpl.
  - tx_step. split; [done|]. intros _. apply blocked_nil.
  - tx_step. eapply commits_mono; [eapply commits_and; [by apply block_host_commits|apply block_host_recounted]|]. cbn beta. intros _ d1 [[Hok1 Hb1] Hr1].
    eapply commits_mono; [by apply IH|]. cbn beta. intros _ d2 [Hok2 Hb2].
    split; [done|]. intros Hu. eapply blocked_cons; [by apply Hb1|]. apply Hb2, (hosts_unique_keys d); [|done]. intros h. by apply recounted_keys.
Qed.

(** The counters of the hosts follow the sectors. *)
Lemma blocked_number reasons hks d d' h r :
  blocked reasons hks d d' → hosts d !! h = Some r →
  number (unpinned_on h) d' = if bool_decide (h_public_key r ∈ hks) then 0%Z else number (unpinned_on h) d.
Proof.
  intros Hb Hr. assert (host_in hks d h = bool_decide (h_public_key r ∈ hks)) as Ein by (unfold host_in; by rewrite Hr).
  assert (∀ t, se_host_id t ≠ Some h → unpinned_on h t = false) as Hoff by (intros t Ht; unfold unpinned_on; by rewrite (bool_decide_eq_false_2 _ Ht), andb_false_r).
  destruct (bool_decide _).
  - apply number_none. intros i s Hs. rewrite (bl_sectors _ _ _ _ Hb) in Hs. destruct (sectors d !! i) as [t|]; [|done]. injection Hs as <-.
    destruct (decide (se_host_id t = Some h)) as [Hh|Hh]; [|apply Hoff; by destruct (waits _ t)]. unfold waits. rewrite Hh, Ein. cbn.
    destruct (is_pinned t) eqn:Ep; [|by apply Hoff]. cbn. unfold unpinned_on, is_unpinned. by rewrite Ep.
  - assert (sectors d' = map_imap (λ _ s, Some (if waits (host_in hks d) s then unhost s else s)) (sectors d)) as Es.
    { apply map_eq. intros i. rewrite map_lookup_imap, (bl_sectors _ _ _ _ Hb). by destruct (sectors d !! i). }
    unfold number, count_if. rewrite Es, msum_imap. apply msum_ext. intros i t _. destruct (waits _ t) eqn:Ew; [|done].
    rewrite !Hoff; [done|..]; intros Hh; [|done]. unfold waits in Ew. by rewrite Hh, Ein in Ew.
Qed.

(** C12. Blocking hosts does what it has to, to the row, in tables that satisfy the invariant and name no host twice. Every host that is blocked ends up on the blocklist, with exactly the given reasons and, when the host is known, those it was listed for before; the other entries stay. Exactly the contracts with blocked hosts stop being good. Exactly the sectors on blocked hosts that no contract has pinned yet lose their host, so that the counter of unpinned sectors of a blocked host is 0; the rows of hosts do not change otherwise. The counters are those of the new tables; no statistic but those of unpinned and unpinnable sectors changes, and no other table. *)
Theorem blocked_hosts_exact hks reasons d d' :
  store_ok d → hosts_unique d → tables_BlockHosts order hks reasons d = (Ok tt, d') →
  blocked reasons hks d d' ∧ counts_ok d' ∧
  ∀ h, hosts d' !! h = (λ r, if bool_decide (h_public_key r ∈ hks) then with_unpinned 0 r else r) <$> hosts d !! h.
Proof.
  intros Hok Hu Hrun.
  destruct (commits_transaction _ _ _ (block_hosts_commits reasons hks d Hok) tt d' Hrun) as [Hok' Hb]. specialize (Hb Hu). split; [done|].
  split; [apply Hok'|]. intros h. destruct (bl_hosts _ _ _ _ Hb h) as [n En]. destruct (hosts d !! h) as [r|] eqn:Hr; [|done]. cbn in *. rewrite En. f_equal.
  pose proof (ct_hosts _ (st_counts _ Hok') _ _ En) as E'. cbn in E'. rewrite (blocked_number _ _ _ _ _ _ Hb Hr), <-(ct_hosts _ (st_counts _ Hok) _ _ Hr) in E'.
  subst n. case_bool_decide; [done|]. by rewrite with_unpinned_id.
Qed.

(** ** The other transactions *)

Lemma tables_BlockHosts_commits hks reasons d : store_ok d → commits (tables_BlockHosts order hks reasons) (λ _, store_ok) d.
Proof.
  intros Hok. unfold tables_BlockHosts. tx_step. eapply commits_mono; [by apply block_hosts_commits|]. by intros _ d' [Hd _].
Qed.

Lemma mark_contracts_commits good P d : store_ok d → commits (mark_contracts good P) (λ _, store_ok) d.
Proof. by apply update_contracts_commits. Qed.
Lemma blocklist_ok f d : store_ok d → store_ok (set_hosts_blocklist f d).
Proof. intros Hok. by apply (host_update_ok d). Qed.
Lemma tables_UnblockHost_commits hk d : store_ok d → commits (tables_UnblockHost hk) (λ _, store_ok) d.
Proof. intros Hok. unfold tables_UnblockHost. do 5 tx_step. by apply mark_contracts_commits, blocklist_ok. Qed.
Lemma tables_RemoveBlocklistReasons_commits hks reasons d : store_ok d → commits (tables_RemoveBlocklistReasons hks reasons) (λ _, store_ok) d.
Proof.
  intros Hok. unfold tables_RemoveBlocklistReasons. destruct (_ || _); [by tx_step|]. do 3 tx_step. cbn zeta. do 3 tx_step.
  apply (commits_mono _ (λ _, store_ok)).
  - destruct (bool_decide _); [tx_step; by apply blocklist_ok|]. by apply mark_contracts_commits, blocklist_ok.
  - intros _ d1 H1. tx_steps. by apply blocklist_ok.
Qed.

Lemma incrementNumScans_tallied success d : commits (incrementNumScans success) (λ _, tallied (λ k, only statScans k 1 + only statScansFailed k (if success then 0 else 1))%Z (λ _, 0%Z) d) d.
Proof.
  unfold incrementNumScans. eapply commits_tallied; [apply tallied_refl|apply incrementStat_tallied|]. intros _ d1 H1. destruct success.
  - tx_step. eapply tallied_ext; [exact H1|intros k; unfold only; repeat case_match; lia|done].
  - eapply commits_mono; [apply incrementStat_tallied|]. cbn beta. intros _ d2 H2.
    eapply tallied_ext; [exact (tallied_trans _ _ _ _ _ _ _ H1 H2)|intros k; cbn; lia|done].
Qed.

(** Counting scans changes no other counter. *)
Lemma moved_none f d : moved [] f d = d.
Proof.
  unfold moved. assert (map_imap (λ id s, Some (if bool_decide (id ∈ []) then f s else s)) (sectors d) = sectors d) as Es.
  { apply map_eq. intros i. rewrite map_lookup_imap. destruct (sectors d !! i); [|done]. cbn. by rewrite bool_decide_eq_false_2 by (by intros ?%elem_of_nil). }
  destruct d. unfold set_sectors. cbn in *. by rewrite Es.
Qed.
Lemma incrementNumScans_commits success d : store_ok d → commits (incrementNumScans success) (λ _, store_ok) d.
Proof.
  intros Hok. eapply commits_mono; [apply incrementNumScans_tallied|]. cbn beta. intros _ d' Ht.
  eapply (kept_store_ok (λ _, true) [] id d); [done|apply chosen_nil|by rewrite moved_none|done..].
Qed.

Lemma write_scan_commits id h h0 d :
  hosts d !! id = Some h0 → h_public_key h = h_public_key h0 → h_unpinned_sectors h = h_unpinned_sectors h0 → store_ok d → commits (write_scan id h) (λ _, store_ok) d.
Proof. intros Hh E1 E2 Hok. unfold write_scan, integer. tx_steps. by eapply set_host_ok. Qed.

Lemma tables_UpdateHostScan_commits hk hs loc success next d : store_ok d → commits (tables_UpdateHostScan hk hs loc success next) (λ _, store_ok) d.
Proof.
  intros Hok. unfold tables_UpdateHostScan. do 3 tx_step. destruct success; cbn [negb].
  - do 9 tx_step. destruct (find_host hk d) as [[id h]|] eqn:Hf; [|by tx_step]. apply find_row_Some in Hf as [Hh _]. do 2 tx_step.
    eapply commits_mono; [by eapply write_scan_commits|]. cbn beta. intros _ d1 Hd1. tx_step; [tx_step|]. tx_step. by apply incrementNumScans_commits.
  - destruct (find_host hk d) as [[id h]|] eqn:Hf; [|by tx_step]. apply find_row_Some in Hf as [Hh _]. tx_step.
    eapply commits_mono; [by eapply write_scan_commits|]. cbn beta. intros _ d1 Hd1. tx_step. by apply incrementNumScans_commits.
Qed.
Lemma tables_UpdateHostPrices_commits hk p d : store_ok d → commits (tables_UpdateHostPrices hk p) (λ _, store_ok) d.
Proof.
  intros Hok. unfold tables_UpdateHostPrices. do 5 tx_step. destruct (find_host hk d) as [[id h]|] eqn:Hf; [|by tx_step].
  apply find_row_Some in Hf as [Hh _]. tx_steps; [by eapply set_host_ok|done..].
Qed.
Lemma tables_ResetLostSectors_commits hk d : store_ok d → commits (tables_ResetLostSectors hk) (λ _, store_ok) d.
Proof.
  intros Hok. unfold tables_ResetLostSectors. do 3 tx_step. destruct (find_host hk d) as [[id h]|] eqn:Hf; [|by tx_step].
  apply find_row_Some in Hf as [Hh _]. tx_step. by eapply set_host_ok.
Qed.
Lemma tables_HostsForIntegrityChecks_commits t n d : store_ok d → commits (tables_HostsForIntegrityChecks order t n) (λ _, store_ok) d.
Proof.
  intros Hok. unfold tables_HostsForIntegrityChecks. do 5 tx_step. cbn zeta. tx_step.
  eapply commits_mono; [by apply update_hosts_commits, Hok|]. intros a d' Hd. by tx_step.
Qed.
Lemma tables_UpdateStuckHosts_commits stuck d : store_ok d → commits (tables_UpdateStuckHosts stuck) (λ _, store_ok) d.
Proof.
  intros Hok. unfold tables_UpdateStuckHosts. do 4 tx_step. apply (commits_mono _ (λ _, store_ok)).
  - destruct (bool_decide _); [by tx_step|]. by apply update_hosts_commits.
  - intros _ d1 Hd1. by apply update_hosts_commits.
Qed.

(** Hosts without contracts and sectors can go. *)
Lemma delete_hosts_commits P d : store_ok d → commits (delete_hosts P) (λ _, store_ok) d.
Proof.
  intros Hok. unfold delete_hosts. tx_steps. apply negb_true_iff in H, H0. rewrite exists_row_false in H; rewrite exists_row_false in H0.
  pose proof (sk_sectors _ (st_slabs _ Hok)) as Hso.
  assert (∀ h r, hosts d !! h = Some r → P h r = false → is_Some (delete_rows P (hosts d) !! h)) as Hstay.
  { intros h r Hr HP. exists r. by apply delete_rows_lookup. }
  apply (others_ok d); [|done]. split; try done; cbn.
  - intros h r [Hr _]%delete_rows_lookup. by apply (ct_hosts _ (st_counts _ Hok)).
  - intros i s h Hs Hh. destruct (so_host _ Hso _ _ _ Hs Hh) as [r Hr]. specialize (H0 _ _ Hs). cbn in H0. rewrite Hh, Hr in H0. by eapply Hstay.
  - destruct (store_contracts d Hok) as [A1 A2 A3 A4 A5]. split; try done. cbn. intros id c Hc. destruct (A1 _ _ Hc) as [r Hr].
    specialize (H _ _ Hc). cbn in H. rewrite Hr in H. by eapply Hstay.
Qed.
Lemma tables_PruneHosts_commits t n d : store_ok d → commits (tables_PruneHosts t n) (λ _, store_ok) d.
Proof.
  intros Hok. unfold tables_PruneHosts. do 3 tx_step. cbn zeta. do 2 tx_step.
  eapply commits_mono; [by apply delete_hosts_commits|]. intros a d' Hd. by tx_step.
Qed.
End store.
