(* ===== verification/References.v ===== *)
(** * References between the tables of accounts

    Every account has its connect key, only accounts pin slabs, and no two connect keys
    have the same name; with the rules that follow the statements of a transaction
    to show that it keeps an invariant. *)

From S2P Require Import Prelude Float Order Encoding External HostQueue Hosts Alerts HostManager Contract Slabs Objects Accounts App Connect Tables SlabTables SectorTables ContractTables HostTables AppTables FundingTables.

Record refs (accs : gmap Z AccountRow) (keys : gmap Z ConnectKeyRow) (pins : gmap (Z * Z) unit) : Prop := {
  rf_keys : ∀ id a, accs !! id = Some a → is_Some (keys !! a_connect_key_id a);
  rf_pins : ∀ k, is_Some (pins !! k) → is_Some (accs !! k.1);
  rf_unique : ∀ i j r k, keys !! i = Some r → keys !! j = Some k → ck_app_key r = ck_app_key k → i = j }.
Definition refs_ok (d : db) : Prop := refs (accounts d) (connect_keys d) (account_slabs d).

Lemma refs_account accs keys pins id a :
  refs accs keys pins → is_Some (keys !! a_connect_key_id a) → refs (<[id := a]> accs) keys pins.
Proof.
  intros [H1 H2 H3] Ha. split; [| |done].
  - intros i r [[<- <-]|[_ Hr]]%lookup_insert_Some; [done|by eapply H1].
  - intros k Hk. rewrite lookup_insert_is_Some'. right. by apply H2.
Qed.
Lemma refs_key accs keys pins id k :
  refs accs keys pins → (∀ j r, keys !! j = Some r → ck_app_key r = ck_app_key k → j = id) → refs accs (<[id := k]> keys) pins.
Proof.
  intros [H1 H2 H3] Hk. split; [|done|].
  - intros i r Hr. rewrite lookup_insert_is_Some'. right. by eapply H1.
  - intros i j r s [[<- <-]|[_ Hi]]%lookup_insert_Some [[<- <-]|[_ Hj]]%lookup_insert_Some E; [done|symmetry; by eapply Hk|by eapply Hk|by eapply H3].
Qed.
Lemma refs_same_key accs keys pins id k k' :
  refs accs keys pins → keys !! id = Some k → ck_app_key k' = ck_app_key k → refs accs (<[id := k']> keys) pins.
Proof. intros Hr Hk E. apply refs_key; [done|]. intros j r Hj Er. eapply (rf_unique _ _ _ Hr); [done..|congruence]. Qed.
Lemma refs_unpin accs keys pins pins' :
  refs accs keys pins → (∀ k, is_Some (pins' !! k) → is_Some (pins !! k)) → refs accs keys pins'.
Proof. intros [H1 H2 H3] Hp. split; [done| |done]. intros k Hk. by apply H2, Hp. Qed.
Lemma refs_delete_rows accs keys pins P : refs accs keys pins → refs accs keys (delete_rows P pins).
Proof. intros Hr. apply (refs_unpin _ _ _ _ Hr). intros k [v [Hv _]%delete_rows_lookup]. by eexists. Qed.

(** ** Transactions that keep an invariant *)

Definition keeps {S} (I : S → Prop) {A} (m : M S A) : Prop := ∀ d, I d → commits m (λ _, I) d.

Section keeps.
Local Open Scope go_scope.
Context {S : Type} (I : S → Prop).

Lemma keepsM_bind {A B} (m : M S A) (k : A → M S B) : keeps I m → (∀ a, keeps I (k a)) → keeps I (bindM m k).
Proof. intros Hm Hk d Hd. tx_step. eapply commits_mono; [by apply Hm|]. intros a d' Hd'. by apply Hk. Qed.
Lemma keepsM_ret {A} (a : A) : keeps I (mret a).
Proof. intros d Hd. by tx_step. Qed.
Lemma keeps_throw {A} e : keeps I (throw e : M S A).
Proof. intros d Hd. by tx_step. Qed.
Lemma keeps_panic {A} : keeps I (panic : M S A).
Proof. intros d Hd. by tx_step. Qed.
Lemma keeps_get : keeps I get.
Proof. intros d Hd. by tx_step. Qed.
Lemma keeps_lift {A} (r : result A) : keeps I (lift r).
Proof. intros d Hd a d'. unfold lift. by intros [= _ <-]. Qed.
Lemma keeps_modify f : (∀ d, I d → I (f d)) → keeps I (modify f).
Proof. intros Hf d Hd. tx_step. by apply Hf. Qed.
Lemma keeps_require b code : keeps I (require b code).
Proof. intros d Hd. by tx_step. Qed.
Lemma keeps_nextval (J : db → Prop) t : (∀ n d, J d → J (set_sequences (insert t n) d)) → keeps J (nextval t).
Proof. intros Hs d Hd. tx_step. by apply Hs. Qed.
Lemma keeps_wrapM {A} pre (m : M S A) : keeps I m → keeps I (wrapM pre m).
Proof. intros Hm d Hd. tx_step. by apply Hm. Qed.
Lemma keeps_transaction {A} (m : M S A) : keeps I m → keeps I (transaction m).
Proof. intros Hm d Hd. tx_step. by apply Hm. Qed.
Lemma keeps_forM {A} (l : list A) (f : A → M S unit) : (∀ x, keeps I (f x)) → keeps I (forM l f).
Proof. intros Hf d Hd. apply (commits_forM I); [done|]. intros x d1 _ H1. by apply Hf. Qed.
Lemma keeps_foldM {A B} (f : B → A → M S B) (l : list A) acc : (∀ b x, keeps I (f b x)) → keeps I (foldM f acc l).
Proof.
  intros Hf d Hd. apply (commits_foldM (λ _ _, I)); [done|]. intros ok x b d1 _ H1. by apply Hf.
Qed.
(** What a failed statement leaves is undone: only its error is seen. *)
Lemma keeps_try {A B} (m : M S A) (k : result A → M S B) :
  keeps I m → (∀ a, keeps I (k (Ok a))) → (∀ r d, (∀ a, r ≠ Ok a) → commits (k r) (λ _, I) d) → keeps I (bindM (try m) k).
Proof.
  intros Hm Hk Hr d Hd. tx_step. apply commits_try; [|by intros; apply Hr].
  eapply commits_mono; [by apply Hm|]. intros a d' Hd'. by apply Hk.
Qed.
(** Two invariants at once. *)
End keeps.

Create HintDb keeps discriminated.
#[export] Hint Resolve keepsM_ret keeps_throw keeps_panic keeps_get keeps_lift keeps_require : keeps.
#[export] Hint Extern 1 (keeps _ (nextval _)) => apply keeps_nextval; intros; assumption : keeps.

(** Follows the statements of a transaction, unfolding its definitions; what they write
    is left when it is not obvious. *)
Ltac unfold_head m := lazymatch m with ?f _ => unfold_head f | _ => unfold m end.
Ltac keeps_step :=
  lazymatch goal with
  | |- keeps _ (bindM (try _) _) => apply keeps_try; [|intros ?|intros [?|?|] ? ?; [naive_solver|tx_steps; fail|tx_steps; fail]]
  | |- keeps _ (bindM _ _) => apply keepsM_bind; [|intros ?]
  | |- keeps _ (wrapM _ _) => apply keeps_wrapM
  | |- keeps _ (transaction _) => apply keeps_transaction
  | |- keeps _ (forM _ _) => apply keeps_forM; intros ?
  | |- keeps _ (foldM _ _ _) => apply keeps_foldM; intros ? ?
  | |- keeps _ (modify _) => apply keeps_modify; intros ? ?; try solve [assumption|eauto 2 with keeps nocore]
  | |- keeps _ (match ?x with _ => _ end) => destruct x
  | |- keeps _ ?m => first [solve [auto 2 with keeps nocore]|progress unfold_head m]
  end.
Ltac keeps := intros; repeat (cbv zeta beta; keeps_step).

Section store.
Local Open Scope go_scope.
Context {C : CurrencyOps} {R : RhpOps} {V : V2.Methods} {PN : ProtocolNames} {CC : ContractColumns} {HC : HostColumns} {SM : SqlMath} {E : EncoderOps}.
Context (order : ∀ A, list A → list A).

(** ** The statements that write accounts, connect keys and pins *)

(** ... while an account is there. *)
Definition refs_with (o : option Z) (d : db) : Prop := refs_ok d ∧ ∀ a, o = Some a → is_Some (accounts d !! a).
Abbreviation keeps_refs m := (∀ o, keeps (refs_with o) m).

Lemma keeps_digests_of I l : keeps I (digests_of l).
Proof. induction l; cbn [digests_of]; keeps. Qed.
Lemma keeps_insert_slab_sectors (I : db → Prop) i n l :
  (∀ f d, I d → I (set_slab_sectors f d)) → keeps I (insert_slab_sectors i n l).
Proof. intros HI. revert n. induction l; intros n; cbn [insert_slab_sectors]; keeps. Qed.
Lemma keeps_insert_object_slabs (I : db → Prop) p i l :
  (∀ f d, I d → I (set_object_slabs f d)) → keeps I (insert_object_slabs p i l).
Proof. intros HI. revert i. induction l; intros i; cbn [insert_object_slabs]; keeps. Qed.
Hint Resolve keeps_digests_of : keeps.
Hint Extern 1 (keeps _ (insert_slab_sectors _ _ _)) => apply keeps_insert_slab_sectors; intros; assumption : keeps.
Hint Extern 1 (keeps _ (insert_object_slabs _ _ _)) => apply keeps_insert_object_slabs; intros; assumption : keeps.

Lemma refs_with_unpin o P d : refs_with o d → refs_with o (set_account_slabs (delete_rows P) d).
Proof. intros [Hr Ho]. split; [|done]. by apply refs_delete_rows. Qed.
Hint Resolve refs_with_unpin : keeps.

Lemma keeps_add_to_account id x y : keeps_refs (add_to_account id x y).
Proof.
  intros o d [Hr Ho]. unfold add_to_account. tx_steps. split.
  - apply (refs_account (accounts d)); [done|]. exact (rf_keys _ _ _ Hr id a Heqo0).
  - intros b Hb. cbn. rewrite lookup_insert_is_Some'. right. by apply Ho.
Qed.
Lemma keeps_add_to_key id x y : keeps_refs (add_to_key id x y).
Proof. intros o d [Hr Ho]. unfold add_to_key. tx_steps. split; [|done]. by eapply refs_same_key. Qed.
Hint Resolve keeps_add_to_account keeps_add_to_key : keeps.

Lemma keeps_insert_account_slab a s : keeps (refs_with (Some a)) (insert_account_slab a s).
Proof.
  intros d [[H1 H2 H3] Ha]. unfold insert_account_slab. tx_steps; [done|]. split; [|done]. split; [done| |done]. cbn.
  intros k [<-|Hk]%lookup_insert_is_Some'; [by apply Ha|by apply H2].
Qed.
Hint Resolve keeps_insert_account_slab : keeps.

Lemma keeps_pin_slabs a good next acc l : keeps (refs_with (Some a)) (foldM (pin_slab good a next) acc l).
Proof. keeps. Qed.

(** ** The transactions *)

Lemma refs_with_None d : refs_with None d ↔ refs_ok d.
Proof. split; [by intros [H _]|by split]. Qed.
Lemma find_account_known account d id a : find_account account d = Some (id, a) → accounts d !! id = Some a.
Proof. by intros [H _]%find_row_Some. Qed.
Lemma refs_with_account o a b d id :
  refs_with o d → accounts d !! id = Some a → a_connect_key_id b = a_connect_key_id a → refs_with o (set_accounts (insert id b) d).
Proof.
  intros [Hr Ho] Ha Hb. split.
  - apply (refs_account (accounts d)); [done|]. rewrite Hb. exact (rf_keys _ _ _ Hr id a Ha).
  - intros c Hc. cbn. rewrite lookup_insert_is_Some'. right. by apply Ho.
Qed.
Lemma keeps_PinSlabs account next l : keeps (refs_with None) (tables_PinSlabs account next l).
Proof.
  intros d [Hr _]. unfold tables_PinSlabs. do 3 tx_step. destruct (find_account account d) as [[a row]|] eqn:Ha; [|tx_step].
  apply find_account_known in Ha. assert (refs_with (Some a) d) as Hd by (split; [done|]; intros b [= <-]; by eexists).
  eapply commits_mono; [eapply (λ H : keeps (refs_with (Some a)) _, H d Hd); keeps|by intros r d1 [? _]; apply refs_with_None].
Qed.

Lemma keeps_delete_account id : keeps (refs_with None) (delete_account id).
Proof.
  intros d [[H1 H2 H3] _]. unfold delete_account. tx_steps. apply andb_true_iff in H as [_ Hn%negb_true_iff]. apply refs_with_None. split; [..|done]; cbn.
  - intros i a [_ Ha]%lookup_delete_Some. by eapply H1.
  - intros k Hk. apply lookup_delete_is_Some. split; [|by apply H2]. intros ->. destruct Hk as [v Hv].
    rewrite exists_row_false in Hn. specialize (Hn _ _ Hv). cbn in Hn. by rewrite Z.eqb_refl in Hn.
Qed.
Lemma keeps_DeleteAccount acc : keeps_refs (tables_DeleteAccount acc).
Proof.
  intros o. unfold tables_DeleteAccount. apply keeps_transaction, keeps_try; [|keeps|intros [|e|] d Hd; tx_steps; naive_solver].
  intros d Hd. do 2 tx_step. destruct (find_account acc d) as [[id a]|] eqn:Ha; [|tx_step].
  apply find_account_known in Ha. tx_step; [|tx_step]. do 3 tx_step.
  eapply commits_mono; [apply (keeps_add_to_key _ _ _ o); by eapply refs_with_account|]. intros k d1 H1. by tx_step.
Qed.
Hint Resolve keeps_PinSlabs keeps_delete_account keeps_DeleteAccount : keeps.

Lemma keeps_delete_connect_key id : keeps (refs_with None) (delete_connect_key id).
Proof.
  intros d [[H1 H2 H3] _]. unfold delete_connect_key, delete_pools. tx_steps. apply negb_true_iff in H. rewrite exists_row_false in H.
  apply refs_with_None. split; [|done|]; cbn.
  - intros i a Ha. apply lookup_delete_is_Some. split; [|by eapply H1]. intros ->. specialize (H _ _ Ha). by rewrite Z.eqb_refl in H.
  - intros i j r k [_ Hi]%lookup_delete_Some [_ Hj]%lookup_delete_Some. by apply H3.
Qed.
End store.
#[export] Hint Extern 1 (keeps _ (insert_slab_sectors _ _ _)) => apply keeps_insert_slab_sectors; intros; assumption : keeps.
#[export] Hint Extern 1 (keeps _ (insert_object_slabs _ _ _)) => apply keeps_insert_object_slabs; intros; assumption : keeps.
#[export] Hint Resolve keeps_digests_of refs_with_unpin
  keeps_add_to_account keeps_add_to_key keeps_PinSlabs keeps_delete_account keeps_DeleteAccount keeps_delete_connect_key : keeps.
