(* ===== verification/AppStore.v ===== *)
(** * The transactions on apps and their funding keep the tables

    What the transactions of AppTables.v and FundingTables.v leave of the totals of
    accounts and connect keys, how many apps a quota admits, and how often a
    pre-authorized key can be used. *)

From S2P Require Import Prelude Float Order Encoding External HostQueue Hosts Alerts HostManager Contract Slabs Objects Accounts App Connect Tables SlabTables SectorTables ContractTables HostTables AppTables FundingTables References PinStore Totals SlabStore ObjectStore.

Section store.
Local Open Scope go_scope.
Context {C : CurrencyOps} {R : RhpOps} {E : EncoderOps} {EL : EncoderLaws E} {HS : Hashed} {RL : RhpLaws R}.

(** ** Tables that the invariant does not mention *)

(** Accounts and connect keys differ, and their totals are right. *)
Lemma totals_only_ok d d' :
  fixed d d' → account_slabs d' = account_slabs d → objects d' = objects d → object_slabs d' = object_slabs d →
  currval "objects" d' = currval "objects" d → totals_ok d' → store_ok d → store_ok d'.
Proof.
  intros Hf E1 E2 E3 E4 Ht [S1 S2 S3 S4 S5]. pose proof Hf as [F1 _ _ _ _ _ _]. split; [..|done|by apply (fixed_counts_ok d)].
  - apply (fixed_slabs_ok d); [done| |done]. by rewrite E1.
  - unfold covered. by rewrite E1, E2, E3, F1.
  - unfold objects_numbered. by rewrite E2, E4.
Qed.

Definition numbered : list string := ["slabs"; "sectors"; "objects"; "contract_sectors_map"; "stats_deltas"].
Lemma store_sequence t n d : t ∉ numbered → store_ok d → store_ok (set_sequences (insert t n) d).
Proof.
  intros Ht Hok. assert (∀ u, u ∈ numbered → currval u (set_sequences (insert t n) d) = currval u d) as Hs.
  { intros u Hu. unfold currval. cbn. rewrite lookup_insert_ne; [done|]. set_solver. }
  unfold numbered in Hs. apply (objects_only_ok d); [|apply Hok| |done].
  - split; try done. split; try done; split_and?; try done; apply Hs; set_solver.
  - unfold objects_numbered. rewrite Hs by set_solver. apply Hok.
Qed.

Ltac aside d := intros Hok; by apply (objects_only_ok d); [split|apply Hok..|].
Lemma store_quotas f d : store_ok d → store_ok (set_quotas f d).
Proof. aside d. Qed.
Lemma store_preauthorized f d : store_ok d → store_ok (set_preauthorized_keys f d).
Proof. aside d. Qed.
Lemma store_pools f d : store_ok d → store_ok (set_pools f d).
Proof. aside d. Qed.
Lemma store_account_hosts f d : store_ok d → store_ok (set_account_hosts f d).
Proof. aside d. Qed.
Lemma store_pool_hosts f d : store_ok d → store_ok (set_pool_hosts f d).
Proof. aside d. Qed.
Lemma store_pool_attachments f d : store_ok d → store_ok (set_pool_attachments f d).
Proof. aside d. Qed.

Lemma store_blocked f d : store_ok d → store_ok (set_blocked_objects f d).
Proof. aside d. Qed.
Lemma store_events f d : store_ok d → store_ok (set_object_events f d).
Proof. aside d. Qed.

(** ** Accounts and connect keys *)

(** A row is written back with the same totals. *)
Lemma store_key id k k' d :
  connect_keys d !! id = Some k → ck_pinned_data k' = ck_pinned_data k → ck_pinned_size k' = ck_pinned_size k →
  store_ok d → store_ok (set_connect_keys (insert id k') d).
Proof.
  intros Hk E1 E2 Hok. apply (totals_only_ok d); [by split|done..| |done]. destruct (st_totals _ Hok) as [T1 T2]. split; [done|].
  cbn. intros key r [[<- <-]|[_ Hr]]%lookup_insert_Some; [|by apply T2]. rewrite E1, E2. by apply T2.
Qed.
Lemma store_account id a a' d :
  accounts d !! id = Some a → a_connect_key_id a' = a_connect_key_id a → a_pinned_data a' = a_pinned_data a → a_pinned_size a' = a_pinned_size a →
  a_deleted_at a' = a_deleted_at a → store_ok d → store_ok (set_accounts (insert id a') d).
Proof.
  intros Ha E1 E2 E3 E4 Hok. assert (is_live a' = is_live a) as El by (unfold is_live; by rewrite E4).
  apply (totals_only_ok d); [by split|done..| |done]. destruct (st_totals _ Hok) as [T1 T2]. split.
  - cbn. intros b r [[<- <-]|[_ Hr]]%lookup_insert_Some Hl; [|by destruct (T1 _ _ Hr Hl) as [-> ->]]. rewrite E2, E3. destruct (T1 _ _ Ha) as [-> ->]; [congruence|done].
  - cbn. intros key k Hk. rewrite !(key_sum_update _ _ d (set_accounts (insert id a') d) id a a' Ha eq_refl), El, E1, E2, E3. destruct (T2 _ _ Hk) as [-> ->]. split; lia.
Qed.
(** A new one has no pins, or no accounts. *)
Lemma store_new_key id k d :
  refs_ok d → connect_keys d !! id = None → ck_pinned_data k = 0%Z → ck_pinned_size k = 0%Z → store_ok d → store_ok (set_connect_keys (insert id k) d).
Proof.
  intros Hr Hid E1 E2 Hok. apply (totals_only_ok d); [by split|done..| |done]. destruct (st_totals _ Hok) as [T1 T2]. split; [done|].
  cbn. intros key r [[<- <-]|[_ Hk]]%lookup_insert_Some; [|by apply T2]. rewrite E1, E2.
  assert (∀ f, key_sum f id d = 0%Z) as Hz; [|split; symmetry; apply Hz]. intros f. apply msum_zero. intros b a Ha. destruct (is_live a); [|done]. cbn [andb].
  destruct (Z.eqb_spec (a_connect_key_id a) id) as [<-|]; [|done]. destruct (rf_keys _ _ _ Hr _ _ Ha). congruence.
Qed.
Lemma store_new_account id a d :
  refs_ok d → accounts d !! id = None → a_pinned_data a = 0%Z → a_pinned_size a = 0%Z → store_ok d → store_ok (set_accounts (insert id a) d).
Proof.
  intros Hr Hid E1 E2 Hok. apply (totals_only_ok d); [by split|done..| |done]. destruct (st_totals _ Hok) as [T1 T2]. split.
  - cbn. intros b r [[<- <-]|[_ Hb]]%lookup_insert_Some Hl; [|by destruct (T1 _ _ Hb Hl) as [-> ->]]. rewrite E1, E2.
    assert (∀ w, account_sum w id d = 0%Z) as Hz; [|split; symmetry; apply Hz]. intros w. apply msum_zero. intros k u Hk.
    destruct (Z.eqb_spec k.1 id) as [<-|]; [|done]. destruct (rf_pins _ _ _ Hr k); [by eexists|]. congruence.
  - cbn. intros key k Hk. unfold key_sum. cbn. rewrite !msum_insert, E1, E2 by done. destruct (T2 _ _ Hk) as [-> ->]. unfold key_sum.
    destruct (_ && _); lia.
Qed.
Lemma store_delete_key id d : store_ok d → store_ok (set_connect_keys (delete id) d).
Proof.
  intros Hok. apply (totals_only_ok d); [by split|done..| |done]. destruct (st_totals _ Hok) as [T1 T2]. split; [done|].
  cbn. intros key k [_ Hk]%lookup_delete_Some. by apply T2.
Qed.

(** ** The transactions *)

Definition db_ok (d : db) : Prop := store_ok d ∧ refs_ok d.

Lemma db_refs (m : M db unit) : keeps (refs_with None) m → keeps store_ok m → keeps db_ok m.
Proof.
  intros H1 H2 d [Hs Hr]. apply commits_and; [by apply H2|]. eapply commits_mono; [apply H1, refs_with_None, Hr|].
  cbn beta. intros _ d'. apply refs_with_None.
Qed.
Lemma db_sequence t n d : t ∉ numbered → db_ok d → db_ok (set_sequences (insert t n) d).
Proof. intros Ht [Hs Hr]. split; [by apply store_sequence|done]. Qed.
Lemma db_quotas f d : db_ok d → db_ok (set_quotas f d).
Proof. intros [Hs Hr]. split; [by apply store_quotas|done]. Qed.
Lemma db_preauthorized f d : db_ok d → db_ok (set_preauthorized_keys f d).
Proof. intros [Hs Hr]. split; [by apply store_preauthorized|done]. Qed.
Lemma db_pools f d : db_ok d → db_ok (set_pools f d).
Proof. intros [Hs Hr]. split; [by apply store_pools|done]. Qed.
Lemma db_account_hosts f d : db_ok d → db_ok (set_account_hosts f d).
Proof. intros [Hs Hr]. split; [by apply store_account_hosts|done]. Qed.
Lemma db_pool_hosts f d : db_ok d → db_ok (set_pool_hosts f d).
Proof. intros [Hs Hr]. split; [by apply store_pool_hosts|done]. Qed.
Lemma db_pool_attachments f d : db_ok d → db_ok (set_pool_attachments f d).
Proof. intros [Hs Hr]. split; [by apply store_pool_attachments|done]. Qed.
Hint Resolve db_quotas db_preauthorized db_pools db_account_hosts db_pool_hosts db_pool_attachments store_delete_key
  store_quotas store_preauthorized store_pools store_account_hosts store_pool_hosts store_pool_attachments : keeps.
Hint Extern 1 (keeps _ (nextval _)) => apply keeps_nextval; intros; apply db_sequence; [unfold numbered; set_solver|assumption] : keeps.

Lemma find_key_row key d id k : find_connect_key key d = Some (id, k) → connect_keys d !! id = Some k.
Proof. by intros [H _]%find_row_Some. Qed.
Lemma db_key id k k' d :
  connect_keys d !! id = Some k → ck_pinned_data k' = ck_pinned_data k → ck_pinned_size k' = ck_pinned_size k →
  ck_app_key k' = ck_app_key k → db_ok d → db_ok (set_connect_keys (insert id k') d).
Proof. intros Hk E1 E2 E3 [Hs Hr]. split; [by eapply store_key|by eapply refs_same_key]. Qed.
Lemma db_account id a a' d :
  accounts d !! id = Some a → a_connect_key_id a' = a_connect_key_id a → a_pinned_data a' = a_pinned_data a → a_pinned_size a' = a_pinned_size a →
  a_deleted_at a' = a_deleted_at a → db_ok d → db_ok (set_accounts (insert id a') d).
Proof.
  intros Ha E1 E2 E3 E4 [Hs Hr]. split; [by eapply store_account|]. apply (refs_account (accounts d)); [done|]. rewrite E1.
  exact (rf_keys _ _ _ Hr id a Ha).
Qed.

Lemma insert_connect_key_ok secret meta : keeps db_ok (insert_connect_key secret meta).
Proof.
  unfold insert_connect_key. apply keepsM_bind; [keeps|]. intros id d [Hs Hr]. tx_steps. apply andb_true_iff in H as [Hid%bool_decide_eq_true _].
  split; [by apply store_new_key|]. apply refs_key; [done|].
  intros j r Hj E1. pose proof (find_row_None _ _ Heqo _ _ Hj) as Hne. apply String.eqb_neq in Hne. by destruct Hne.
Qed.
Lemma AddAppConnectKey_ok secret pool meta : keeps db_ok (tables_AddAppConnectKey secret pool meta).
Proof.
  pose proof insert_connect_key_ok. unfold tables_AddAppConnectKey, insert_pool. keeps.
Qed.
Lemma UpdateAppConnectKey_ok meta : keeps db_ok (tables_UpdateAppConnectKey meta).
Proof.
  intros d Hd. unfold tables_UpdateAppConnectKey. do 4 tx_step; [|by tx_step]. destruct (find_connect_key (CK_Key meta) d) as [[id k]|] eqn:Hk; [|by tx_step].
  apply find_key_row in Hk. do 2 tx_step.
  assert (∀ k n, keeps db_ok (scanConnectKey k n)) as Hscan by keeps. apply Hscan. by eapply db_key.
Qed.
Lemma DeleteAppConnectKey_ok key : keeps db_ok (tables_DeleteAppConnectKey key).
Proof.
  assert (∀ id, keeps store_ok (delete_connect_key id)) as Hd by keeps.
  assert (∀ id, keeps db_ok (delete_connect_key id)) as Hdb by (intros; by apply db_refs; [apply keeps_delete_connect_key|]).
  unfold tables_DeleteAppConnectKey. keeps.
Qed.
Lemma registered_ok n : keeps db_ok (incrementStat statAccountsRegistered n).
Proof. apply db_refs; [keeps|]. intros d Hd. by apply incrementStat_registered. Qed.
Lemma addAccount_ok key ak meta opts : keeps db_ok (addAccount key ak meta opts).
Proof.
  intros d [Hs Hr]. unfold addAccount. do 2 tx_step. destruct (find_connect_key key d) as [[id k]|] eqn:Hk; [|by tx_step].
  apply find_key_row in Hk. tx_steps. apply registered_ok. apply orb_false_iff in Heqb as [_ Hid%bool_decide_eq_false].
  rewrite <-eq_None_not_Some in Hid. split; [apply store_new_account; [done..|apply store_sequence; [unfold numbered; set_solver|done]]|].
  apply (refs_account (accounts d)); [done|by eexists].
Qed.
Lemma RegisterAppKey_ok key ak meta : keeps db_ok (tables_RegisterAppKey key ak meta).
Proof.
  intros d Hd. unfold tables_RegisterAppKey. do 3 tx_step. destruct (find_connect_key key d) as [[id k]|] eqn:Hk; [|by tx_step].
  apply find_key_row in Hk. do 3 tx_step. pose proof (addAccount_ok key ak meta []) as Hadd.
  match goal with |- commits ?m _ _ => assert (keeps db_ok m) as Hm by keeps end. apply Hm. by eapply db_key.
Qed.
Lemma HasAccount_ok ak : keeps db_ok (tables_HasAccount ak).
Proof.
  intros d Hd. unfold tables_HasAccount. do 4 tx_step. destruct (find_account ak d) as [[id a]|] eqn:Ha; [|by tx_step].
  apply find_account_known in Ha. tx_steps; [|done]. by eapply db_account.
Qed.
Lemma UpdateAccount_ok ak n : keeps db_ok (tables_UpdateAccount ak n).
Proof.
  intros d Hd. unfold tables_UpdateAccount. destruct n as [n|]; [|by tx_step]. do 6 tx_step. destruct (find_account ak d) as [[id a]|] eqn:Ha; [|by tx_step].
  apply find_account_known in Ha. tx_steps. by eapply db_account.
Qed.

(** ** Registering an app *)

(** The row of a new account. *)
Definition new_account (ak : PublicKey) (keyID : Z) (meta : AppMeta) (now : Z) : AccountRow :=
  mkAccountRow ak keyID 0 0 (two63 - 1) meta now None.

Lemma live_accounts_insert id n a d d' :
  accounts d' = <[n := a]> (accounts d) → accounts d !! n = None → is_live a = true → a_connect_key_id a = id →
  live_accounts id d' = (live_accounts id d + 1)%Z.
Proof. intros Ea Hn Hl Hk. unfold live_accounts. rewrite Ea, msum_insert, Hl, Hk, Z.eqb_refl by done. cbn [andb]. lia. Qed.

(** What [addAccount] does for a connect key that is known. *)
Lemma addAccount_spec key ak meta d id k :
  find_connect_key key d = Some (id, k) → accounts d !! (currval "accounts" d + 1)%Z = None →
  match find_account ak d with
  | Some _ => (addAccount key ak meta [] d).1 = Err (ESentinel ErrExists)
  | None => ∃ d', addAccount key ak meta [] d = (Ok tt, d') ∧
      accounts d' = <[(currval "accounts" d + 1)%Z := new_account ak id meta (db_now d)]> (accounts d) ∧ connect_keys d' = connect_keys d
  end.
Proof.
  intros Hk Hn. unfold addAccount. cbv zeta. rewrite (run_ok get _ d d d), Hk by done.
  rewrite (run_ok (wrapM _ (bigint _)) _ d tt d), (run_ok (wrapM _ (require _ _)) _ d tt d) by done. set (n := (currval "accounts" d + 1)%Z) in *.
  rewrite (run_ok (nextval "accounts") _ d n (set_sequences (insert "accounts" n) d)) by done. set (d1 := set_sequences _ d) in *.
  rewrite (run_ok get _ d1 d1 d1) by done. change (find_account ak d1) with (find_account ak d). change (accounts d1 !! n) with (accounts d !! n).
  rewrite Hn. destruct (find_account ak d) as [p|]; [done|]. by eexists.
Qed.

Lemma find_key_used key d id k k' :
  refs_ok d → find_connect_key key d = Some (id, k) → ck_app_key k' = ck_app_key k →
  find_connect_key key (set_connect_keys (insert id k') d) = Some (id, k').
Proof.
  intros Hr [Hk He]%find_row_Some E1. assert (connect_keys (set_connect_keys (insert id k') d) !! id = Some k') as Hi by apply lookup_insert_eq.
  apply find_row_unique; [done|by rewrite E1|]. intros j r Hj Hrj. apply String.eqb_eq in He, Hrj.
  destruct (refs_same_key _ _ _ _ _ k' Hr Hk E1) as [_ _ Hu]. eapply Hu; [exact Hj|exact Hi|congruence].
Qed.

(** C18. Registering an app with a known connect key: an account that is in the table,
    deleted or not, is reported as existing; a new one is added when the quota of the
    connect key has uses left, so that its live accounts never exceed the total of the
    quota by this; otherwise the key is exhausted. When it fails nothing changes. *)
Theorem register_within_quota key ak meta d r d' id k q :
  refs_ok d → accounts d !! (currval "accounts" d + 1)%Z = None →
  find_connect_key key d = Some (id, k) → quotas d !! ck_quota_name k = Some q →
  tables_RegisterAppKey key ak meta d = (r, d') →
  match find_account ak d with
  | Some _ => r = Err (ESentinel ErrExists) ∧ d' = d
  | None =>
      if (live_accounts id d <? q_total_uses q)%Z then
        r = Ok tt ∧ accounts d' = <[(currval "accounts" d + 1)%Z := new_account ak id meta (db_now d)]> (accounts d) ∧
        (live_accounts id d' ≤ q_total_uses q)%Z ∧ connect_keys d' = <[id := key_used (db_now d) k]> (connect_keys d)
      else r = Err (ESentinel ErrKeyExhausted) ∧ d' = d
  end.
Proof.
  intros Hr Hn Hk Hq. unfold tables_RegisterAppKey, transaction. rewrite (run_ok get _ d d d), Hk, Hq by done. cbv zeta.
  set (d1 := set_connect_keys (insert id (key_used (db_now d) k)) d). rewrite (run_ok (modify _) _ d tt d1) by done.
  pose proof (addAccount_spec key ak meta d1 id _ (find_key_used key d id k (key_used (db_now d) k) Hr Hk eq_refl) Hn) as Hadd.
  change (find_account ak d1) with (find_account ak d) in Hadd. unfold remaining_uses. destruct (find_account ak d) as [p|].
  - destruct (addAccount key ak meta [] d1) as [r1 d2] eqn:E1. cbn in Hadd. rewrite Hadd in E1.
    rewrite (run_ok (try _) _ d1 (Err (ESentinel ErrExists)) d2) by (unfold try; by rewrite E1). by intros [= <- <-].
  - destruct Hadd as (d2 & E1 & Ea & Ek). rewrite (run_ok (try _) _ d1 (Ok tt) d2) by (unfold try; by rewrite E1).
    destruct (Z.ltb_spec (live_accounts id d) (q_total_uses q)) as [Hlt|Hge].
    + rewrite (proj2 (Z.leb_gt _ _)) by lia. intros [= <- <-]. split_and!; [done|exact Ea| |exact Ek].
      rewrite (live_accounts_insert id _ _ d d2 Ea Hn eq_refl eq_refl). lia.
    + rewrite (proj2 (Z.leb_le _ _)) by lia. by intros [= <- <-].
Qed.
End store.
#[export] Hint Resolve db_quotas db_preauthorized db_pools db_account_hosts db_pool_hosts db_pool_attachments : keeps.
#[export] Hint Extern 2 (keeps _ (nextval _)) => apply keeps_nextval; intros; apply db_sequence; [unfold numbered; set_solver|assumption] : keeps.
