(* ===== verification/History.v ===== *)
(** * Histories of transactions

    The transactions of SlabTables.v, SectorTables.v, ContractTables.v, HostTables.v,
    AppTables.v and FundingTables.v, one after the other: what they keep, whatever their
    order and whichever of them fail. *)

From S2P Require Import Prelude Float Encoding External Hosts HostManager Contract Slabs Objects Accounts App Tables SlabTables SectorTables ContractTables HostTables AppTables FundingTables References PinStore Totals SlabStore ObjectStore SectorStore ContractStore HostStore AppStore.

Section store.
Local Open Scope go_scope.
Context {C : CurrencyOps} {R : RhpOps} {E : EncoderOps} {EL : EncoderLaws E} {HS : Hashed} {RL : RhpLaws R}.
Context {V : V2.Methods} {PN : ProtocolNames} {CC : ContractColumns} {HC : HostColumns} {SM : SqlMath}.
Context (order : ∀ A, list A → list A) (order_perm : ∀ A (l : list A), order A l ≡ₚ l).

Inductive slab_tx : Type :=
| TxPinSlabs (account : PublicKey) (nextIntegrityCheck : Z) (toPin : list SlabPinParams)
| TxUnpinSlab (account : PublicKey) (slabID : SlabID)
| TxPinObject (account : PublicKey) (obj : PinObjectRequest)
| TxDeleteObject (account : PublicKey) (key : Hash256)
| TxPruneSlabs (accountID cursor cutoff : Z)
| TxDeleteAccount (account : PublicKey)
| TxPruneAccounts (limit : Z)
| TxPruneDeletedSlabs (limit : Z)
| TxMarkSectorsLost (hostKey : PublicKey) (roots : list Hash256)
| TxMarkFailingSectorsLost (hostKey : PublicKey) (maxChecks : Z) (batchSize : nat)
| TxPinSectors (contractID : FileContractID) (roots : list Hash256)
| TxMarkSectorsUnpinnable (threshold : Z) (limit : nat)
| TxMigrateSector (root : Hash256) (hostKey : PublicKey)
| TxRecordIntegrityCheck (success : bool) (nextCheck : Z) (hostKey : PublicKey) (roots : list Hash256)
| TxSectorsForIntegrityCheck (hostKey : PublicKey) (limit : nat)
| TxUnhealthySlabs (now cursor : Z) (limit : nat)
| TxMarkSlabRepaired (now : Z) (slabID : SlabID) (success : bool)
| TxBlockObject (key : Hash256) (reason : string)
| TxUnblockObject (key : Hash256)
| TxRecordSlabMigrated (slabID : SlabID).

Inductive contract_tx : Type :=
| TxAddFormedContract (hostKey : PublicKey) (id : FileContractID) (revision : V2.FileContract) (price allowance fee : Currency) (usage : Usage)
| TxAddRenewedContract (from to : FileContractID) (revision : V2.FileContract) (price fee : Currency) (usage : Usage)
| TxUpdateContractRevision (contract : ContractRevision) (usage : Usage)
| TxMarkContractBad (id : FileContractID)
| TxMarkUnrenewableContractsBad (maxProofHeight : Z)
| TxRejectPendingContracts (maxFormation : Z)
| TxMarkBroadcastAttempt (id : FileContractID)
| TxUpdateNextPrune (id : FileContractID) (nextPrune : Z)
| TxDeleteContract (id : FileContractID)
| TxPruneContractSectorsMap (maxBlocksSinceExpiry : Z).

Inductive host_tx : Type :=
| TxAddHostAnnouncement (hk : PublicKey) (ha : list NetAddress) (ts : Z)
| TxImportHost (hk : PublicKey) (addresses : list NetAddress)
| TxBlockHosts (hks : list PublicKey) (reasons : list string)
| TxUnblockHost (hk : PublicKey)
| TxRemoveBlocklistReasons (hks : list PublicKey) (reasons : list string)
| TxUpdateHostPrices (hk : PublicKey) (prices : HostPrices)
| TxUpdateHostScan (hk : PublicKey) (hs : HostSettings) (loc : Location) (scanSucceeded : bool) (nextScan : Z)
| TxPruneHosts (minLastSuccessfulScan minConsecutiveFailedScans : Z)
| TxHostsForIntegrityChecks (maxLastCheck limit : Z)
| TxResetLostSectors (hk : PublicKey)
| TxUpdateStuckHosts (stuck : list PublicKey).

Inductive app_tx : Type :=
| TxPutQuota (key : string) (req : PutQuotaRequest)
| TxDeleteQuota (key : string)
| TxAddAppConnectKey (userSecret : Hash256) (poolKey : N) (meta : AppConnectKeyRequest)
| TxUpdateAppConnectKey (meta : AppConnectKeyRequest)
| TxDeleteAppConnectKey (key : string)
| TxAddPreAuthorizedKey (req : PreAuthorizedKeyRequest)
| TxDeletePreAuthorizedKey (pk : PublicKey)
| TxPruneExpiredPreAuthorizedKeys (cutoff : Z)
| TxConsumePreAuthorizedKey (pk : PublicKey) (appID : Hash256)
| TxRegisterAppKey (key : string) (appKey : PublicKey) (meta : AppMeta)
| TxHasAccount (ak : PublicKey)
| TxUpdateAccount (ak : PublicKey) (maxPinnedData : option Z).

Inductive fund_tx : Type :=
| TxScheduleAccountForFunding (hostKey account : PublicKey)
| TxUpdateHostAccounts (l : list HostAccount)
| TxUpdateHostPools (l : list HostPool)
| TxInsertPoolAttachments (hk : PublicKey) (l : list PendingAttachment)
| TxMarkSharingPoolsAttached (hk : PublicKey) (l : list PendingAttachment).

Inductive store_tx : Type :=
| SlabTx (tx : slab_tx)
| ContractTx (tx : contract_tx)
| HostTx (tx : host_tx)
| AppTx (tx : app_tx)
| FundTx (tx : fund_tx).

Definition void {S A} (m : M S A) : M S unit := let* _ := m in mret tt.

Definition run_slab_tx (tx : slab_tx) : M db unit :=
  match tx with
  | TxPinSlabs account next toPin => void (tables_PinSlabs account next toPin)
  | TxUnpinSlab account slabID => tables_UnpinSlab account slabID
  | TxPinObject account obj => tables_PinObject account obj
  | TxDeleteObject account key => tables_DeleteObject account key
  | TxPruneSlabs id cursor cutoff => void (prune_batch id cursor cutoff)
  | TxDeleteAccount account => tables_DeleteAccount account
  | TxPruneAccounts limit => tables_PruneAccounts limit
  | TxPruneDeletedSlabs limit => void (tables_PruneDeletedSlabs limit)
  | TxMarkSectorsLost hostKey roots => tables_MarkSectorsLost order hostKey roots
  | TxMarkFailingSectorsLost hostKey maxChecks n => void (markFailingSectorsLostBatch order hostKey maxChecks n)
  | TxPinSectors contractID roots => tables_PinSectors order contractID roots
  | TxMarkSectorsUnpinnable threshold n => void (markSectorsUnpinnableBatch order threshold n)
  | TxMigrateSector root hostKey => void (tables_MigrateSector root hostKey)
  | TxRecordIntegrityCheck success next hostKey roots => transaction (recordIntegrityCheck order success next hostKey roots)
  | TxSectorsForIntegrityCheck hostKey n => void (tables_SectorsForIntegrityCheck order hostKey n)
  | TxUnhealthySlabs now cursor n => void (tables_UnhealthySlabs order now cursor n)
  | TxMarkSlabRepaired now slabID success => tables_MarkSlabRepaired (mret now) slabID success
  | TxBlockObject key reason => tables_BlockObject key reason
  | TxUnblockObject key => tables_UnblockObject key
  | TxRecordSlabMigrated slabID => tables_RecordSlabMigrated slabID
  end.

Definition run_contract_tx (tx : contract_tx) : M db unit :=
  match tx with
  | TxAddFormedContract hk id revision price allowance fee usage => tables_AddFormedContract hk id revision price allowance fee usage
  | TxAddRenewedContract from to revision price fee usage => tables_AddRenewedContract from to revision price fee usage
  | TxUpdateContractRevision contract usage => tables_UpdateContractRevision contract usage
  | TxMarkContractBad id => tables_MarkContractBad id
  | TxMarkUnrenewableContractsBad h => tables_MarkUnrenewableContractsBad h
  | TxRejectPendingContracts t => tables_RejectPendingContracts t
  | TxMarkBroadcastAttempt id => tables_MarkBroadcastAttempt id
  | TxUpdateNextPrune id t => tables_UpdateNextPrune id t
  | TxDeleteContract id => tables_DeleteContract order id
  | TxPruneContractSectorsMap n => tables_PruneContractSectorsMap order n
  end.

(** The chain update announces hosts within a transaction of its own. *)
Definition run_host_tx (tx : host_tx) : M db unit :=
  match tx with
  | TxAddHostAnnouncement hk ha ts => transaction (tables_AddHostAnnouncement hk ha ts)
  | TxImportHost hk addresses => tables_ImportHost hk addresses
  | TxBlockHosts hks reasons => tables_BlockHosts order hks reasons
  | TxUnblockHost hk => tables_UnblockHost hk
  | TxRemoveBlocklistReasons hks reasons => void (tables_RemoveBlocklistReasons hks reasons)
  | TxUpdateHostPrices hk prices => tables_UpdateHostPrices hk prices
  | TxUpdateHostScan hk hs loc success next => tables_UpdateHostScan hk hs loc success next
  | TxPruneHosts t n => void (tables_PruneHosts t n)
  | TxHostsForIntegrityChecks t n => void (tables_HostsForIntegrityChecks order t n)
  | TxResetLostSectors hk => tables_ResetLostSectors hk
  | TxUpdateStuckHosts stuck => tables_UpdateStuckHosts stuck
  end.

Definition run_app_tx (tx : app_tx) : M db unit :=
  match tx with
  | TxPutQuota key req => tables_PutQuota key req
  | TxDeleteQuota key => tables_DeleteQuota key
  | TxAddAppConnectKey secret pool meta => void (tables_AddAppConnectKey secret pool meta)
  | TxUpdateAppConnectKey meta => void (tables_UpdateAppConnectKey meta)
  | TxDeleteAppConnectKey key => tables_DeleteAppConnectKey key
  | TxAddPreAuthorizedKey req => void (tables_AddPreAuthorizedKey req)
  | TxDeletePreAuthorizedKey pk => tables_DeletePreAuthorizedKey pk
  | TxPruneExpiredPreAuthorizedKeys cutoff => tables_PruneExpiredPreAuthorizedKeys cutoff
  | TxConsumePreAuthorizedKey pk appID => void (tables_ConsumePreAuthorizedKey pk appID)
  | TxRegisterAppKey key ak meta => tables_RegisterAppKey key ak meta
  | TxHasAccount ak => void (tables_HasAccount ak)
  | TxUpdateAccount ak n => tables_UpdateAccount ak n
  end.

Definition run_fund_tx (tx : fund_tx) : M db unit :=
  match tx with
  | TxScheduleAccountForFunding hk ak => tables_ScheduleAccountForFunding hk ak
  | TxUpdateHostAccounts l => tables_UpdateHostAccounts l
  | TxUpdateHostPools l => tables_UpdateHostPools l
  | TxInsertPoolAttachments hk l => tables_InsertPoolAttachments hk l
  | TxMarkSharingPoolsAttached hk l => tables_MarkSharingPoolsAttached hk l
  end.

Definition run_tx (tx : store_tx) : M db unit :=
  match tx with
  | SlabTx tx => run_slab_tx tx
  | ContractTx tx => run_contract_tx tx
  | HostTx tx => run_host_tx tx
  | AppTx tx => run_app_tx tx
  | FundTx tx => run_fund_tx tx
  end.

(** The account is not soft-deleted. [PinSlabs] does not look (sectors.go:280); the API
    checks the account ([HasAccount]) before it calls. *)
Definition live_account (account : PublicKey) (d : db) : Prop :=
  ∀ id a, find_account account d = Some (id, a) → is_live a = true.

(** What a transaction is called with. Only [PinSlabs] asks for something: parameters of
    the width of their types whose digests do not collide, less than 2^64 bytes in all,
    and an account that is not deleted. *)
Definition tx_ok (tx : store_tx) (d : db) : Prop :=
  match tx with
  | SlabTx (TxPinSlabs account _ toPin) =>
      Forall widths_ok toPin ∧ (Z.of_nat (length toPin) * max_slab_size < 2 ^ 64)%Z ∧ live_account account d
  | _ => True
  end.

Lemma commits_void {A} (m : M db A) (Q : db → Prop) d : commits m (λ _, Q) d → commits (void m) (λ _, Q) d.
Proof. intros Hm. unfold void. tx_step. eapply commits_mono; [done|]. intros a d' Hd. by tx_step. Qed.

Lemma run_slab_tx_commits tx d : store_ok d → tx_ok (SlabTx tx) d → commits (run_slab_tx tx) (λ _, store_ok) d.
Proof.
  intros Hok Htx. destruct tx; cbn [run_slab_tx].
  - destruct Htx as (H1 & H2 & H3). apply commits_void. eapply commits_mono; [by apply PinSlabs_commits|]. by intros ids d' (Hs & _).
  - by apply UnpinSlab_commits.
  - by apply PinObject_commits.
  - by apply DeleteObject_commits.
  - by apply commits_void, prune_batch_commits.
  - by apply DeleteAccount_commits.
  - by apply PruneAccounts_commits.
  - by apply commits_void, PruneDeletedSlabs_commits.
  - by apply MarkSectorsLost_commits.
  - by apply commits_void, markFailingSectorsLost_commits.
  - by apply PinSectors_commits.
  - by apply commits_void, markSectorsUnpinnable_commits.
  - by apply commits_void, MigrateSector_commits.
  - by apply commits_transaction, recordIntegrityCheck_commits.
  - by apply commits_void, SectorsForIntegrityCheck_commits.
  - by apply commits_void, UnhealthySlabs_commits.
  - by apply MarkSlabRepaired_commits.
  - unfold tables_BlockObject. tx_steps. by apply store_blocked.
  - unfold tables_UnblockObject, touch_events. tx_steps; [by apply store_events, store_blocked|done].
  - unfold tables_RecordSlabMigrated, touch_events. tx_steps. by apply store_events.
Qed.

Lemma run_contract_tx_commits tx d : store_ok d → commits (run_contract_tx tx) (λ _, store_ok) d.
Proof.
  intros Hok. destruct tx; cbn [run_contract_tx].
  - by apply tables_AddFormedContract_commits.
  - by apply tables_AddRenewedContract_commits.
  - by apply tables_UpdateContractRevision_commits.
  - by apply commits_transaction, markContractBad_commits.
  - by apply tables_MarkUnrenewable_commits.
  - by apply tables_contract_state_commits.
  - by apply tables_MarkBroadcastAttempt_commits.
  - by apply tables_contract_state_commits.
  - by apply tables_DeleteContract_commits.
  - by apply tables_PruneContractSectorsMap_commits.
Qed.
Lemma run_host_tx_commits tx d : store_ok d → commits (run_host_tx tx) (λ _, store_ok) d.
Proof.
  intros Hok. destruct tx; cbn [run_host_tx].
  - by apply commits_transaction, tables_AddHostAnnouncement_commits.
  - by apply tables_ImportHost_commits.
  - by apply tables_BlockHosts_commits.
  - by apply tables_UnblockHost_commits.
  - by apply commits_void, tables_RemoveBlocklistReasons_commits.
  - by apply tables_UpdateHostPrices_commits.
  - by apply tables_UpdateHostScan_commits.
  - by apply commits_void, tables_PruneHosts_commits.
  - by apply commits_void, tables_HostsForIntegrityChecks_commits.
  - by apply tables_ResetLostSectors_commits.
  - by apply tables_UpdateStuckHosts_commits.
Qed.

(** The transactions on slabs, contracts and hosts write connect keys, accounts and pins
    in few places. *)
Lemma run_tx_refs tx : match tx with AppTx _ | FundTx _ => False | _ => True end → keeps (refs_with None) (run_tx tx).
Proof. intros Htx. destruct tx as [tx|tx|tx|tx|tx]; [..|done|done]; destruct tx; keeps. Qed.

Lemma run_app_tx_commits tx : keeps db_ok (run_app_tx tx).
Proof.
  assert (∀ A (m : M db A), keeps db_ok m → keeps db_ok (void m)) as Hvoid by keeps.
  destruct tx; cbn [run_app_tx]; [keeps|keeps|apply Hvoid, AddAppConnectKey_ok|apply Hvoid, UpdateAppConnectKey_ok|apply DeleteAppConnectKey_ok
    |keeps..|apply RegisterAppKey_ok|apply Hvoid, HasAccount_ok|apply UpdateAccount_ok].
Qed.
Lemma run_fund_tx_commits tx : keeps db_ok (run_fund_tx tx).
Proof. destruct tx; keeps. Qed.

Lemma run_tx_commits tx d : db_ok d → tx_ok tx d → commits (run_tx tx) (λ _, db_ok) d.
Proof.
  intros Hok Htx. assert (match tx with AppTx _ | FundTx _ => False | _ => True end → commits (run_tx tx) (λ _, store_ok) d → commits (run_tx tx) (λ _, db_ok) d) as Hand.
  { intros Ht Hs. apply commits_and; [done|]. eapply commits_mono; [by apply (run_tx_refs tx Ht), refs_with_None, Hok|].
    cbn beta. intros _ d'. apply refs_with_None. }
  destruct tx; [apply Hand, run_slab_tx_commits|apply Hand, run_contract_tx_commits|apply Hand, run_host_tx_commits|apply run_app_tx_commits|apply run_fund_tx_commits];
    done || apply Hok.
Qed.

(** A transaction that fails changes nothing. *)
Lemma void_fails {S A} (m : M S A) d r d' :
  (∀ r d', m d = (r, d') → (∀ a, r ≠ Ok a) → d' = d) → void m d = (r, d') → (∀ a, r ≠ Ok a) → d' = d.
Proof.
  intros Hm. unfold void, bindM, mbind, M_bind. destruct (m d) as [[a|e|] d1] eqn:E1; intros [= <- <-] Hr; [by destruct (Hr tt)|by eapply Hm..].
Qed.
(** The checks before a transaction. *)
Ltac fails := repeat match goal with
  | |- context [if ?b then _ else _] => destruct b; [by intros [= <- <-]|]
  | |- context [match ?o with _ => _ end] => destruct o; [|by intros [= <- <-]]
  end; apply transaction_fails.
Lemma run_tx_fails tx d r d' : run_tx tx d = (r, d') → (∀ a, r ≠ Ok a) → d' = d.
Proof.
  destruct tx as [tx|tx|tx|tx|tx]; destruct tx; cbn [run_tx run_slab_tx run_contract_tx run_host_tx run_app_tx run_fund_tx]; try (apply transaction_fails); try (apply void_fails; intros; by eapply transaction_fails).
  - unfold tables_PruneAccounts. fails.
  - apply void_fails. intros r1 d1. unfold tables_PruneDeletedSlabs. fails.
  - unfold tables_MarkSectorsLost. fails.
  - unfold tables_PinSectors. fails.
  - apply void_fails. intros r1 d1. unfold tables_RemoveBlocklistReasons. fails.
  - apply void_fails. intros r1 d1. unfold tables_HasAccount, wrapM. set (m := bindM get _). destruct (transaction m d) as [[b|e|] d2] eqn:E1.
    + intros [= <- <-] Hr. by destruct (Hr b).
    + intros [= <- <-] _. by apply (transaction_fails _ _ _ _ E1).
    + intros [= <- <-] _. by apply (transaction_fails _ _ _ _ E1).
  - unfold tables_UpdateAccount. fails.
  - unfold tables_UpdateHostAccounts. fails.
  - unfold tables_UpdateHostPools. fails.
  - unfold tables_InsertPoolAttachments. fails.
  - unfold tables_MarkSharingPoolsAttached. fails.
Qed.

(** The tables after transactions at successive times, some of which fail, each called as
    [tx_ok] says. *)
Inductive history (d0 : db) : db → Prop :=
| history_start : history d0 d0
| history_tx d t tx r d' : history d0 d → tx_ok tx (at_time t d) → run_tx tx (at_time t d) = (r, d') → history d0 d'.

Lemma at_time_ok t d : db_ok d → db_ok (at_time t d).
Proof. intros [Hok Hr]. split; [|done]. by apply (objects_only_ok d); [split|apply Hok..|]. Qed.

Lemma history_ok d0 d : db_ok d0 → history d0 d → db_ok d.
Proof.
  intros H0 H. induction H as [|d t tx r d' _ IH Htx Hrun]; [done|].
  pose proof (at_time_ok t d IH) as Hok. destruct r as [[]|e|]; [by apply (run_tx_commits tx _ Hok Htx _ _ Hrun)|..];
    by rewrite (run_tx_fails _ _ _ _ Hrun).
Qed.
End store.
