(* ===== verification/AppHistory.v ===== *)
(** * What apps can do over a history

    A pre-authorized key is used at most as often as it has uses left, whatever other
    transactions run in between; what consuming it answers; accounts that are deleted
    and registered again. *)

From S2P Require Import Prelude Float Order Encoding External Hosts HostManager Contract Slabs Objects Accounts App Connect Tables SlabTables SectorTables ContractTables HostTables AppTables FundingTables References PinStore Totals SlabStore ObjectStore AppStore History.

Section store.
Local Open Scope go_scope.
Context {C : CurrencyOps} {R : RhpOps} {E : EncoderOps} {EL : EncoderLaws E} {HS : Hashed} {RL : RhpLaws R}.
Context {V : V2.Methods} {PN : ProtocolNames} {CC : ContractColumns} {HC : HostColumns} {SM : SqlMath}.
Context (order : ∀ A, list A → list A).

(** ** Consuming a pre-authorized key *)

(** The uses a key has left. *)
Definition uses (pk : PublicKey) (d : db) : Z :=
  match preauthorized_keys d !! pk with Some k => Z.max 0 (pa_remaining_uses k) | None => 0 end.

Lemma consume_key_spec pk appID d r d' :
  refs_ok d → (∀ k, preauthorized_keys d !! pk = Some k → is_Some (connect_keys d !! pa_connect_key_id k)) →
  tables_ConsumePreAuthorizedKey pk appID d = (r, d') →
  match preauthorized pk d with
  | Some (k, c) =>
      if consumable d appID k then
        (∃ reconnecting, r = Ok (ck_app_key c, ck_user_secret c, reconnecting)) ∧
        d' = set_preauthorized_keys (insert pk (consumed (db_now d) k)) d ∧ uses pk d' = (uses pk d - 1)%Z
      else r = Err (ESentinel (consume_error d pk appID)) ∧ d' = d
  | None => r = Err (ESentinel ErrKeyNotFound) ∧ d' = d
  end.
Proof.
  intros Hr Hfk. unfold tables_ConsumePreAuthorizedKey, transaction. rewrite (run_ok get _ d d d) by done. unfold preauthorized.
  destruct (preauthorized_keys d !! pk) as [k|] eqn:Hk; cbn.
  - destruct (Hfk _ eq_refl) as [c Hc]. rewrite Hc. cbn. destruct (consumable d appID k) eqn:Hcon; [|by intros [= <- <-]].
    set (d1 := set_preauthorized_keys _ d). rewrite (run_ok (modify _) _ d tt d1) by done.
    assert (find_connect_key (ck_app_key c) d1 = Some (pa_connect_key_id k, c)) as Hf.
    { apply find_row_unique; [exact Hc|by apply String.eqb_refl|]. intros j s Hj Hs%String.eqb_eq. exact (rf_unique _ _ _ Hr _ _ _ _ Hj Hc Hs). }
    unfold appAuthorization. rewrite !bindM_assoc, (run_ok get _ d1 d1 d1), Hf by done. cbn. intros [= <- <-].
    split; [by eexists|]. split; [done|]. unfold uses. cbn. rewrite lookup_insert_eq, Hk. cbn.
    unfold consumable in Hcon. rewrite !andb_true_iff, Z.ltb_lt in Hcon. lia.
  - unfold consume_error. rewrite Hk. by intros [= <- <-].
Qed.

(** ** ... over a history *)

(** The transactions run one after the other: their results, and the tables. *)
Fixpoint run_all (l : list (Z * store_tx)) (d : db) : list (result unit) * db :=
  match l with
  | [] => ([], d)
  | (t, tx) :: l =>
      let '(r, d) := run_tx order tx (at_time t d) in
      let '(rs, d) := run_all l d in
      (r :: rs, d)
  end.

(** A use of the key that succeeds. *)
Definition consumption (pk : PublicKey) (tx : store_tx) (r : result unit) : nat :=
  match tx, r with
  | AppTx (TxConsumePreAuthorizedKey pk' _), Ok _ => if (pk' =? pk)%N then 1 else 0
  | _, _ => 0
  end.
Definition consumptions (pk : PublicKey) (l : list (Z * store_tx)) (rs : list (result unit)) : nat :=
  sum_list (zip_with (λ p, consumption pk p.2) l rs).
(** The key is not created. *)
Definition creates (pk : PublicKey) (tx : store_tx) : bool :=
  match tx with AppTx (TxAddPreAuthorizedKey req) => (PK_PublicKey req =? pk)%N | _ => false end.

Definition at_most (pk : PublicKey) (n : Z) (d : db) : Prop := (uses pk d ≤ n)%Z.

Lemma at_most_rows pk n P d : (0 ≤ n)%Z → at_most pk n d → at_most pk n (set_preauthorized_keys (delete_rows P) d).
Proof.
  intros Hn. unfold at_most, uses. cbn. destruct (delete_rows P (preauthorized_keys d) !! pk) as [k|] eqn:Hk; [|done].
  apply delete_rows_lookup in Hk as [-> _]. done.
Qed.
Lemma at_most_delete pk n pk' d : (0 ≤ n)%Z → at_most pk n d → at_most pk n (set_preauthorized_keys (delete pk') d).
Proof.
  intros Hn. unfold at_most, uses. cbn. destruct (decide (pk' = pk)) as [->|]; [by rewrite lookup_delete_eq|by rewrite lookup_delete_ne].
Qed.
Lemma at_most_insert pk n pk' k d : pk' ≠ pk → at_most pk n d → at_most pk n (set_preauthorized_keys (insert pk' k) d).
Proof. intros Hne. unfold at_most, uses. cbn. by rewrite lookup_insert_ne. Qed.
Lemma uses_nonneg pk d : (0 ≤ uses pk d)%Z.
Proof. unfold uses. destruct (_ !! _); lia. Qed.

Lemma run_tx_at_most pk n tx :
  (0 ≤ n)%Z → creates pk tx = false → consumption pk tx (Ok tt) = 0 → keeps (at_most pk n) (run_tx order tx).
Proof.
  intros Hn Hc Ht. destruct tx as [tx|tx|tx|tx|tx]; destruct tx; keeps.
  - by apply at_most_rows.
  - apply at_most_insert; [|done]. cbn in Hc. by apply N.eqb_neq.
  - by apply at_most_delete.
  - by apply at_most_rows.
  - apply at_most_insert; [|done]. intros ->. cbn in Ht. by rewrite N.eqb_refl in Ht.
Qed.

Lemma uses_at_time pk t d : uses pk (at_time t d) = uses pk d.
Proof. done. Qed.

(** Consuming the key takes a use. *)
Lemma consumed_at_most pk appID d :
  commits (tables_ConsumePreAuthorizedKey pk appID) (λ _, at_most pk (uses pk d - 1)) d.
Proof.
  unfold tables_ConsumePreAuthorizedKey. do 3 tx_step. unfold preauthorized. destruct (preauthorized_keys d !! pk) as [k|] eqn:Hk; cbn; [|by tx_step].
  destruct (connect_keys d !! pa_connect_key_id k) as [c|]; cbn; [|by tx_step]. destruct (consumable d appID k) eqn:Hcon; [|by tx_step]. do 2 tx_step.
  unfold consumable in Hcon. rewrite !andb_true_iff, Z.ltb_lt in Hcon. unfold appAuthorization. tx_steps.
  unfold at_most, uses. cbn. rewrite lookup_insert_eq, Hk. cbn. lia.
Qed.

Lemma run_tx_uses pk tx r d d' :
  creates pk tx = false → run_tx order tx d = (r, d') → (Z.of_nat (consumption pk tx r) + uses pk d' ≤ uses pk d)%Z.
Proof.
  intros Hc Hrun. destruct r as [[]|e|].
  - destruct (Nat.eqb_spec (consumption pk tx (Ok tt)) 0) as [He|Hne].
    + rewrite He. apply (run_tx_at_most pk (uses pk d) tx (uses_nonneg pk d) Hc) in Hrun; [exact Hrun|done|unfold at_most; lia].
    + destruct tx as [| | |tx|]; try done. destruct tx; try done. cbn in *. destruct (N.eqb_spec pk0 pk) as [->|]; [|done].
      pose proof (commits_void _ _ _ (consumed_at_most pk appID d) _ _ Hrun) as Hu. unfold at_most in Hu. lia.
  - rewrite (run_tx_fails order _ _ _ _ Hrun) by done. destruct tx as [| | |tx|]; try done. by destruct tx.
  - rewrite (run_tx_fails order _ _ _ _ Hrun) by done. destruct tx as [| | |tx|]; try done. by destruct tx.
Qed.

(** C19. A pre-authorized key cannot be used more often than it has uses left, whatever
    other transactions run in between, at whatever times and with whatever outcomes: the
    uses that succeed and those that are left at the end are at most those at the start;
    only creating the key again gives it new ones. *)
Theorem preauth_uses_bounded pk l d rs d' :
  Forall (λ p, creates pk p.2 = false) l → run_all l d = (rs, d') →
  (Z.of_nat (consumptions pk l rs) + uses pk d' ≤ uses pk d)%Z.
Proof.
  intros Hl. revert d rs d'. induction Hl as [|[t tx] l Hc _ IH]; intros d rs d'; cbn [run_all]; [by intros [= <- <-]|].
  destruct (run_tx order tx (at_time t d)) as [r d1] eqn:Hrun. destruct (run_all l d1) as [rs1 d2] eqn:Hall. intros [= <- <-].
  pose proof (run_tx_uses pk tx r _ _ Hc Hrun) as Hu. rewrite uses_at_time in Hu. specialize (IH _ _ _ Hall).
  unfold consumptions in *. cbn. lia.
Qed.

(** ** Deleted accounts *)

(** An account that is deleted but not pruned cannot be registered again: it is reported
    as existing, yet it is not known. *)
Lemma deleted_account_exists key ak meta d id k q a row :
  refs_ok d → accounts d !! (currval "accounts" d + 1)%Z = None →
  find_connect_key key d = Some (id, k) → quotas d !! ck_quota_name k = Some q →
  find_account ak d = Some (a, row) → is_live row = false →
  (tables_RegisterAppKey key ak meta d).1 = Err (ESentinel ErrExists) ∧ tables_HasAccount ak d = (Ok false, d).
Proof.
  intros Hr Hn Hk Hq Hf Hl. split.
  - unfold tables_RegisterAppKey, transaction. rewrite (run_ok get _ d d d), Hk, Hq by done. cbv zeta. set (k' := key_used (db_now d) k).
    set (d1 := set_connect_keys (insert id k') d). rewrite (run_ok (modify _) _ d tt d1) by done.
    pose proof (addAccount_spec key ak meta d1 id _ (find_key_used key d id k k' Hr Hk eq_refl) Hn) as Hadd.
    change (find_account ak d1) with (find_account ak d) in Hadd. rewrite Hf in Hadd.
    destruct (addAccount key ak meta [] d1) as [r1 d2] eqn:E1. cbn in Hadd. rewrite Hadd in E1.
    by rewrite (run_ok (try _) _ d1 (Err (ESentinel ErrExists)) d2) by (unfold try; by rewrite E1).
  - unfold tables_HasAccount, wrapM, transaction. rewrite (run_ok get _ d d d), Hf, Hl by done. done.
Qed.
End store.
