(* ===== verification/FundingStore.v ===== *)
(** * Which accounts are funded

    What the queries of FundingTables.v list: the accounts and pools that are due, those
    that were never funded first, then those that have waited longest; and that an
    account that was just updated waits for its next time. *)

From S2P Require Import Prelude Float Order Encoding External Hosts HostManager Contract Slabs Objects Accounts App Connect Tables SlabTables ContractTables HostTables AppTables FundingTables References AppStore.

(** ** Lists of rows *)

Lemma nodup_omap {A B K} (F : A → option B) (g : A → K) (h : B → K) l :
  NoDup l → (∀ x y, x ∈ l → y ∈ l → g x = g y → x = y) → (∀ x b, x ∈ l → F x = Some b → h b = g x) → NoDup (h <$> omap F l).
Proof.
  intros Hl Hg Hh. induction Hl as [|x l Hx Hl IH]; [constructor|]. cbn [omap list_omap].
  assert (NoDup (h <$> omap F l)) as Hn by (apply IH; intros; [apply Hg|eapply Hh]; try done; by right).
  destruct (F x) as [b|] eqn:Hb; [|done]. cbn. constructor; [|done]. intros (c & E1 & (y & Hy & Hc)%list_elem_of_omap)%list_elem_of_fmap.
  destruct Hx. enough (x = y) as -> by done. apply Hg; [by left|by right|]. rewrite <-(Hh x b), <-(Hh y c); try done; by constructor.
Qed.

(** A [for] loop that appends an element per row. *)
Lemma foldM_map {A B} (f : B → A → M db B) (g : B → A → B) l acc d :
  (∀ x acc, f acc x d = (Ok (g acc x), d)) → foldM f acc l d = (Ok (foldl g acc l), d).
Proof. intros Hf. revert acc. induction l as [|x l IH]; intros acc; cbn; [done|]. by rewrite (run_ok _ _ d _ _ (Hf x acc)). Qed.
Lemma foldl_append {A B} (g : A → B) l acc : foldl (λ acc x, acc ++ [g x]) acc l = acc ++ (g <$> l).
Proof. revert acc. induction l as [|x l IH]; intros acc; cbn; [by rewrite app_nil_r|]. by rewrite IH, <-app_assoc. Qed.

Section store.
Local Open Scope go_scope.
Context {C : CurrencyOps} {R : RhpOps}.
Context (order : ∀ A, list A → list A) (order_perm : ∀ A (l : list A), order A l ≡ₚ l).
Context (time_Now : M db Z) (clock : db → Z) (time_clock : ∀ d, time_Now d = (Ok (clock d), d)).

(** Every account has a key of its own. *)
Definition accounts_unique (d : db) : Prop := ∀ i j a b, accounts d !! i = Some a → accounts d !! j = Some b → a_public_key a = a_public_key b → i = j.

(** The row of an account that can be funded on a host: the account, the row of
    [account_hosts], whether its storage is full. *)
Abbreviation row := (AccountRow * option FundRow * bool)%type.
Definition row_key (r : row) : PublicKey := a_public_key r.1.1.

Lemma elem_of_fundable h q th due d r :
  r ∈ fundable_accounts h q th due d ↔
  ∃ id a k qt, accounts d !! id = Some a ∧ key_and_quota a d = Some (k, qt) ∧ active th a = true ∧ ck_quota_name k = q ∧
    due (account_hosts d !! (id, h)) = true ∧ r = (a, account_hosts d !! (id, h), account_full a k qt).
Proof.
  unfold fundable_accounts. rewrite list_elem_of_omap. split.
  - intros ([id a] & Hin%elem_of_map_to_list & Hr). cbn in Hr. destruct (key_and_quota a d) as [[k qt]|] eqn:Hkq; [|done].
    destruct (active th a && (ck_quota_name k =? q)%string && due (account_hosts d !! (id, h))) eqn:Hc; [|done]. injection Hr as <-.
    rewrite !andb_true_iff, String.eqb_eq in Hc. destruct Hc as [[Ha Hq] Hd]. exists id, a, k, qt. by split_and!.
  - intros (id & a & k & qt & Hid & Hkq & Ha & <- & Hd & ->). exists (id, a). split; [by apply elem_of_map_to_list|]. cbn.
    by rewrite Hkq, Ha, Hd, String.eqb_refl.
Qed.
Lemma fundable_nodup h q th due d : accounts_unique d → NoDup (row_key <$> fundable_accounts h q th due d).
Proof.
  intros Hu. unfold fundable_accounts. apply (nodup_omap _ (λ p, a_public_key p.2)); [apply NoDup_map_to_list|..].
  - intros [i a] [j b] Ha%elem_of_map_to_list Hb%elem_of_map_to_list E1. assert (i = j) as <- by (by eapply Hu). congruence.
  - intros [i a] r _ Hr. cbn in Hr. destruct (key_and_quota a d) as [[k qt]|]; [|done]. destruct (_ && _); [|done]. by injection Hr as <-.
Qed.

(** What the two queries return. *)
Definition new_rows h q th n d : list row := take n (order _ (fundable_accounts h q th unfunded d)).
Definition old_rows h q th n d : list row :=
  take n (SliceStable (λ p q, earlier p.1.2 q.1.2) (order _ (fundable_accounts h q th (due_at (db_now d)) d))).
Definition new_host_account hk now (r : row) : HostAccount := mkHostAccount (row_key r) hk 0 now r.2.

Lemma newHostAccounts_run hk h q th limit d :
  newHostAccountsForFunding order time_Now hk h q th limit d = (Ok (new_host_account hk (clock d) <$> new_rows h q th (Z.to_nat limit) d), d).
Proof.
  unfold newHostAccountsForFunding. rewrite (run_ok get _ d d d) by done. rewrite (foldM_map _ (λ acc r, acc ++ [new_host_account hk (clock d) r])).
  - by rewrite foldl_append.
  - intros [[a f] full] acc. by rewrite (run_ok _ _ d _ _ (time_clock d)).
Qed.

Lemma HostAccounts_run hk q th limit d l d' :
  tables_HostAccountsForFunding order time_Now hk q th limit d = (Ok l, d') → (0 < limit)%Z →
  d' = d ∧ ∃ hostID h, find_host hk d = Some (hostID, h) ∧
  let new := new_rows hostID q th (Z.to_nat limit) d in
  l = (new_host_account hk (clock d) <$> new) ++ (funded_account hk <$> old_rows hostID q th (Z.to_nat limit - length new) d).
Proof.
  unfold tables_HostAccountsForFunding. intros Hrun Hl. rewrite (proj2 (Z.ltb_ge _ _)), (proj2 (Z.eqb_neq _ _)) in Hrun by lia.
  unfold transaction in Hrun. rewrite (run_ok get _ d d d) in Hrun by done. destruct (find_host hk d) as [[hostID h]|]; [|done].
  set (new := new_rows hostID q th (Z.to_nat limit) d).
  rewrite (run_ok (wrapM _ _) _ d (new_host_account hk (clock d) <$> new) d) in Hrun by (unfold wrapM; by rewrite newHostAccounts_run).
  rewrite length_fmap in Hrun. assert (length new ≤ Z.to_nat limit) as Hlen by (unfold new, new_rows; rewrite length_take; lia).
  destruct (Z.leb_spec limit (Z.of_nat (length new))) as [Hle|Hgt].
  - injection Hrun as <- <-. split; [done|]. exists hostID, h. split; [done|]. cbn zeta. fold new.
    replace (Z.to_nat limit - length new) with 0 by lia. by rewrite app_nil_r.
  - cbn in Hrun. injection Hrun as <- <-. split; [done|]. exists hostID, h. split; [done|]. cbn zeta. fold new.
    replace (Z.to_nat (limit - Z.of_nat (length new))) with (Z.to_nat limit - length new) by lia. done.
Qed.

(** The accounts of a quota that a host is due to fund. *)
Definition due_rows h q th d : list row := fundable_accounts h q th (λ f, unfunded f || due_at (db_now d) f) d.
(** One that was never funded comes first, then the one that has waited longest. *)
Definition not_later (r' r : row) : Prop :=
  match r'.1.2, r.1.2 with
  | None, _ => True
  | Some f', Some f => (fr_next_fund f' ≤ fr_next_fund f)%Z
  | Some _, None => False
  end.

Lemma due_rows_elem h q th d r :
  r ∈ due_rows h q th d ↔
  r ∈ fundable_accounts h q th unfunded d ∧ r.1.2 = None ∨
  r ∈ fundable_accounts h q th (due_at (db_now d)) d ∧ ∃ f, r.1.2 = Some f.
Proof.
  unfold due_rows. rewrite !elem_of_fundable. split.
  - intros (id & a & k & qt & H1 & H2 & H3 & H4 & [H5|H5]%orb_true_iff & ->); [left|right]; cbn.
    + split; [exists id, a, k, qt; by split_and!|]. by apply bool_decide_eq_true in H5.
    + split; [exists id, a, k, qt; by split_and!|]. destruct (account_hosts d !! (id, h)); [by eexists|done].
  - intros [[(id & a & k & qt & H1 & H2 & H3 & H4 & H5 & ->) _]|[(id & a & k & qt & H1 & H2 & H3 & H4 & H5 & ->) _]];
      exists id, a, k, qt; split_and!; try done; by rewrite H5, ?orb_true_r.
Qed.
Lemma due_rows_same h q th d r r' :
  accounts_unique d → r ∈ due_rows h q th d → r' ∈ due_rows h q th d → row_key r = row_key r' → r = r'.
Proof.
  intros Hu (id & a & k & qt & H1 & H2 & _ & _ & _ & ->)%elem_of_fundable (id' & a' & k' & qt' & H1' & H2' & _ & _ & _ & ->)%elem_of_fundable E1.
  assert (id = id') as <- by (by eapply Hu). assert (a = a') as <- by congruence. congruence.
Qed.

Lemma elem_of_new h q th n d r : r ∈ new_rows h q th n d → r ∈ due_rows h q th d ∧ r.1.2 = None.
Proof.
  intros Hr. eapply elem_of_sublist in Hr; [|apply sublist_take]. rewrite order_perm in Hr.
  assert (r.1.2 = None) as Hn; [|split; [|done]; apply due_rows_elem; by left].
  apply elem_of_fundable in Hr as (id & a & k & qt & _ & _ & _ & _ & Hd & ->). by apply bool_decide_eq_true in Hd.
Qed.
Lemma elem_of_old h q th n d r : r ∈ old_rows h q th n d → r ∈ due_rows h q th d ∧ ∃ f, r.1.2 = Some f.
Proof.
  intros Hr. eapply elem_of_sublist in Hr; [|apply sublist_take]. rewrite SliceStable_perm, order_perm in Hr.
  assert (∃ f, r.1.2 = Some f) as Hn; [|split; [|done]; apply due_rows_elem; by right].
  apply elem_of_fundable in Hr as (id & a & k & qt & _ & _ & _ & _ & Hd & ->). cbn. destruct (account_hosts d !! (id, h)); [by eexists|done].
Qed.
Lemma earlier_preorder : preorder (λ p q : row, earlier p.1.2 q.1.2).
Proof. apply (pull_preorder int_Compare (λ p : row, default 0%Z (fr_next_fund <$> p.1.2))), int_preorder. Qed.

Lemma listed_keys hk h q th n d now (new := new_rows h q th n d) (old := old_rows h q th (n - length new) d) :
  AccountKey <$> ((new_host_account hk now <$> new) ++ (funded_account hk <$> old)) = row_key <$> (new ++ old).
Proof.
  rewrite !fmap_app, <-!list_fmap_compose. f_equal; apply list_fmap_ext; intros i [[a f] full] _; done.
Qed.

Lemma listed_nodup h q th n d (new := new_rows h q th n d) (old := old_rows h q th (n - length new) d) :
  accounts_unique d → NoDup (row_key <$> (new ++ old)).
Proof.
  intros Hu. rewrite fmap_app. apply NoDup_app. split_and!.
  - unfold new, new_rows. eapply sublist_NoDup; [|apply fmap_sublist, sublist_take]. rewrite order_perm. by apply fundable_nodup.
  - intros k (r & -> & Hr)%list_elem_of_fmap (r' & E1 & Hr')%list_elem_of_fmap. apply elem_of_new in Hr as [Hr Hn]. apply elem_of_old in Hr' as [Hr' [f Hf]].
    rewrite (due_rows_same h q th d r r' Hu Hr Hr' E1) in Hn. congruence.
  - unfold old, old_rows. eapply sublist_NoDup; [|apply fmap_sublist, sublist_take]. rewrite SliceStable_perm, order_perm. by apply fundable_nodup.
Qed.

(** A row that is left out: the limit is reached, and it is not later than those listed. *)
Lemma left_out h q th n d r (new := new_rows h q th n d) (old := old_rows h q th (n - length new) d) :
  accounts_unique d → r ∈ due_rows h q th d → row_key r ∉ row_key <$> (new ++ old) →
  length (new ++ old) = n ∧ ∀ r', r' ∈ new ++ old → not_later r' r.
Proof.
  intros Hu Hr Hout. assert (r ∉ new ++ old) as Hnot by (intros Hin; apply Hout, list_elem_of_fmap; by exists r). rewrite elem_of_app in Hnot.
  set (news := order _ (fundable_accounts h q th unfunded d)). assert (new = take n news) as En by done.
  set (olds := SliceStable (λ p q : row, earlier p.1.2 q.1.2) (order _ (fundable_accounts h q th (due_at (db_now d)) d))).
  assert (old = take (n - length new) olds) as Eo by done.
  apply due_rows_elem in Hr as [[Hr Hf]|[Hr [f Hf]]].
  - assert (r ∈ drop n news) as Hd.
    { assert (r ∈ news) as Hin by (unfold news; by rewrite order_perm). rewrite <-(take_drop n news) in Hin. apply elem_of_app in Hin as [|]; [|done]. rewrite <-En in *. tauto. }
    assert (n < length news) as Hlt by (apply list_elem_of_lookup in Hd as [i Hi]; apply lookup_lt_Some in Hi; rewrite length_drop in Hi; lia).
    assert (length new = n) as Hlen by (rewrite En, length_take; lia). assert (old = []) as -> by (rewrite Eo, Hlen, Nat.sub_diag; done).
    rewrite app_nil_r. split; [done|]. intros r' Hr'. unfold not_later. by rewrite (proj2 (elem_of_new _ _ _ _ _ _ Hr')).
  - assert (r ∈ drop (n - length new) olds) as Hd.
    { assert (r ∈ olds) as Hin by (unfold olds; by rewrite SliceStable_perm, order_perm). rewrite <-(take_drop (n - length new) olds) in Hin.
      apply elem_of_app in Hin as [|]; [|done]. rewrite <-Eo in *. tauto. }
    assert (n - length new < length olds) as Hlt by (apply list_elem_of_lookup in Hd as [i Hi]; apply lookup_lt_Some in Hi; rewrite length_drop in Hi; lia).
    assert (length new ≤ n) as Hle by (rewrite En, length_take; lia). split; [rewrite length_app, Eo, length_take; lia|].
    intros r' [Hr'|Hr']%elem_of_app; unfold not_later; [by rewrite (proj2 (elem_of_new _ _ _ _ _ _ Hr'))|].
    pose proof (elem_of_old _ _ _ _ _ _ Hr') as [_ [f' Hf']]. rewrite Hf, Hf'. rewrite Eo in Hr'.
    pose proof (SliceStable_best _ earlier_preorder _ _ _ _ Hr' Hd) as Hc. cbn beta in Hc. rewrite Hf, Hf' in Hc.
    change (int_Compare (fr_next_fund f') (fr_next_fund f) ≤ 0)%Z in Hc. unfold int_Compare in Hc. destruct (Z.compare_spec (fr_next_fund f') (fr_next_fund f)); lia.
Qed.

(** C20. The accounts that a host is asked to fund next, for a positive limit and accounts
    with distinct public keys: the query changes nothing and
    lists no account twice; each listed account is live, active since the threshold, of
    the quota, and was never funded on the host or is due, with the failures of its row
    and whether its storage is full; and if one of those is left out, the limit is
    reached and none that is listed comes after it: accounts that were never funded come
    first, then those that have waited longest. *)
Theorem accounts_for_funding_exact hk q th limit d l d' :
  accounts_unique d → (0 < limit)%Z →
  tables_HostAccountsForFunding order time_Now hk q th limit d = (Ok l, d') →
  d' = d ∧ ∃ hostID h, find_host hk d = Some (hostID, h) ∧ NoDup (AccountKey <$> l) ∧ (Z.of_nat (length l) ≤ limit)%Z ∧
  (∀ x, x ∈ l → ∃ r, r ∈ due_rows hostID q th d ∧ AccountKey x = row_key r ∧ AHostKey x = hk ∧ FullStorage x = r.2 ∧
     ConsecutiveFailedFunds x = default 0%Z (fr_consecutive_failed_funds <$> r.1.2)) ∧
  ∀ r, r ∈ due_rows hostID q th d → row_key r ∉ AccountKey <$> l →
    Z.of_nat (length l) = limit ∧ ∀ r', r' ∈ due_rows hostID q th d → row_key r' ∈ AccountKey <$> l → not_later r' r.
Proof.
  intros Hu Hl Hrun. apply HostAccounts_run in Hrun as (-> & hostID & h & Hh & El); [|done]. cbn zeta in El. split; [done|]. exists hostID, h. split; [done|].
  set (n := Z.to_nat limit) in *. set (new := new_rows hostID q th n d) in *. set (old := old_rows hostID q th (n - length new) d) in *.
  assert (AccountKey <$> l = row_key <$> (new ++ old)) as Ek by (rewrite El; apply listed_keys).
  assert (length l = length (new ++ old)) as Elen by (by rewrite El, !length_app, !length_fmap). rewrite Ek, Elen.
  split; [by apply listed_nodup|]. split; [|split].
  - rewrite length_app. unfold old, old_rows, new, new_rows. rewrite !length_take. lia.
  - intros x Hx. rewrite El in Hx. apply elem_of_app in Hx as [(r & -> & Hr)%list_elem_of_fmap|(r & -> & Hr)%list_elem_of_fmap]; exists r.
    + apply elem_of_new in Hr as [Hr Hf]. rewrite Hf. by split_and!.
    + apply elem_of_old in Hr as [Hr _]. destruct r as [[a f] full]. by split_and!.
  - intros r Hr Hout. destruct (left_out hostID q th n d r Hu Hr Hout) as [Hlen Hlater]. split; [change (Z.of_nat (length (new ++ old)) = limit); fold new old in Hlen; rewrite Hlen; lia|].
    intros r' Hr' (r2 & E1 & H2)%list_elem_of_fmap. rewrite (due_rows_same hostID q th d r' r2 Hu Hr'); [by apply Hlater| |done].
    apply elem_of_app in H2 as [H2|H2]; [by apply elem_of_new in H2 as [? _]|by apply elem_of_old in H2 as [? _]].
Qed.
End store.
