(* ===== verification/Serving.v ===== *)
(** * What is read back

    The slabs and objects that transactions stored are those that are read: in order,
    with the sectors of their digests, after any history. *)

From S2P Require Import Prelude Float Encoding External HostManager Slabs Objects Accounts App Tables SlabTables SectorTables ContractTables HostTables References PinStore Totals SlabStore ObjectStore SectorStore AppStore History.

(** ** The rows of a join table are in order *)

Lemma NoDup_omap_inj {A B} (f : A → option B) l :
  (∀ x y z, x ∈ l → y ∈ l → f x = Some z → f y = Some z → x = y) → NoDup l → NoDup (omap f l).
Proof.
  intros Hf. induction 1 as [|x l Hx Hl IH]; [constructor|]. cbn [omap list_omap]. destruct (f x) as [z|] eqn:Hz.
  - constructor.
    + intros Hin. apply list_elem_of_omap in Hin as (y & Hy & Hfy). destruct Hx. replace x with y; [done|]. eapply (Hf y x z); [by right|by left|done..].
    + apply IH. intros a b c Ha Hb. apply Hf; by right.
  - apply IH. intros a b c Ha Hb. apply Hf; by right.
Qed.

Section rows.
Context {V : Type}.
Implicit Types (m : gmap (Z * Z) V).

Definition row_list (k : Z) m : list (Z * V) := omap (λ p, if (p.1.1 =? k)%Z then Some (p.1.2, p.2) else None) (map_to_list m).

Lemma row_list_elem k m i v : (i, v) ∈ row_list k m ↔ m !! (k, i) = Some v.
Proof.
  unfold row_list. rewrite list_elem_of_omap. split.
  - intros ([[k' i'] v'] & Hin%elem_of_map_to_list & Hm). cbn in Hm. destruct (Z.eqb_spec k' k) as [->|]; [|done]. by injection Hm as -> ->.
  - intros Hm. exists (k, i, v). split; [by apply elem_of_map_to_list|]. cbn. by rewrite Z.eqb_refl.
Qed.
Lemma rows_of_elem k m v : v ∈ rows_of k m → ∃ i, m !! (k, i) = Some v.
Proof.
  unfold rows_of. fold (row_list k m). intros Hin. apply list_elem_of_fmap in Hin as ([i w] & -> & Hin). rewrite merge_sort_Permutation in Hin.
  exists i. by apply row_list_elem.
Qed.

#[local] Instance by_index_trans : Transitive (by_index (V := V)).
Proof. intros x y z. unfold by_index. lia. Qed.
#[local] Instance by_index_total : Total (by_index (V := V)).
Proof. intros x y. unfold by_index. lia. Qed.

Lemma imap_sorted (l : list V) n : StronglySorted by_index (imap (λ i v, (Z.of_nat (n + i), v)) l).
Proof.
  revert n. induction l as [|v l IH]; intros n; [constructor|]. rewrite imap_cons. constructor.
  - replace (imap _ l) with (imap (λ i v, (Z.of_nat (S n + i), v)) l); [apply IH|]. apply imap_ext. intros i w _. unfold compose. f_equal. lia.
  - apply Forall_forall. intros [i w] Hin. apply elem_of_lookup_imap in Hin as (j & w' & [= -> ->] & _). unfold by_index. cbn. lia.
Qed.

Lemma imap_NoDup (l : list V) n : NoDup (imap (λ i v, (Z.of_nat (n + i), v)) l).
Proof.
  revert n. induction l as [|v l IH]; intros n; [constructor|]. rewrite imap_cons.
  replace (imap _ l) with (imap (λ i v, (Z.of_nat (S n + i), v)) l); [|apply imap_ext; intros i w _; unfold compose; f_equal; lia].
  constructor; [|apply IH]. intros (j & w & [= Hj _] & _)%elem_of_lookup_imap. lia.
Qed.

(** Rows numbered from 0 come back as the list. *)
Lemma rows_of_list k m (l : list V) :
  (∀ i, m !! (k, i) = if (0 <=? i)%Z then l !! Z.to_nat i else None) → rows_of k m = l.
Proof.
  intros Hm. unfold rows_of. fold (row_list k m).
  assert (∀ i v, (i, v) ∈ row_list k m ↔ (i, v) ∈ imap (λ i v, (Z.of_nat (0 + i), v)) l) as Hel.
  { intros i v. rewrite row_list_elem, Hm, elem_of_lookup_imap. destruct (Z.leb_spec 0 i) as [Hi|Hi].
    - split; [intros Hv; exists (Z.to_nat i), v; split; [f_equal; lia|done]|]. intros (j & w & [= -> ->] & Hj). by rewrite Nat2Z.id.
    - split; [done|]. intros (j & w & [= -> ->] & _). lia. }
  replace (merge_sort by_index (row_list k m)) with (imap (λ i v, (Z.of_nat (0 + i), v)) l).
  - apply list_eq. intros i. rewrite list_lookup_fmap, list_lookup_imap. by destruct (l !! i).
  - apply (StronglySorted_unique_strong by_index).
    + intros [i v] [j w] Hx Hy Hij Hji. unfold by_index in *. cbn in *. assert (i = j) as -> by lia. rewrite merge_sort_Permutation in Hy.
      apply Hel in Hx. apply row_list_elem in Hx, Hy. congruence.
    + apply imap_sorted.
    + apply StronglySorted_merge_sort; apply _.
    + rewrite merge_sort_Permutation. apply NoDup_Permutation.
      * apply imap_NoDup.
      * unfold row_list. apply NoDup_omap_inj; [|apply NoDup_map_to_list]. intros [[a i] v] [[b j] w] z _ _. cbn.
        destruct (Z.eqb_spec a k) as [->|], (Z.eqb_spec b k) as [->|]; try done. congruence.
      * intros [i v]. by rewrite Hel.
Qed.
End rows.

Section serving.
Local Open Scope go_scope.
Context {C : CurrencyOps} {R : RhpOps} {E : EncoderOps} {EL : EncoderLaws E} {HS : Hashed} {RL : RhpLaws R}.
Context {V : V2.Methods} {PN : ProtocolNames} {CC : ContractColumns} {HC : HostColumns} {SM : SqlMath}.
Context (order : ∀ A, list A → list A) (order_perm : ∀ A (l : list A), order A l ≡ₚ l).

(** The UNIQUE constraints of accounts and objects. *)
Record unique_ok (d : db) : Prop := {
  uq_accounts : ∀ i j a b, accounts d !! i = Some a → accounts d !! j = Some b → a_public_key a = a_public_key b → i = j;
  uq_objects : ∀ i j o p, objects d !! i = Some o → objects d !! j = Some p → o_account_id o = o_account_id p →
    o_object_key o = o_object_key p → i = j }.

Lemma find_slab_ok d id s : slabs_ok d → slabs d !! id = Some s → find_slab (sl_digest s) d = Some (id, s).
Proof.
  intros Hok Hs. apply find_row_unique; [done|by apply N.eqb_eq|]. intros i t Ht Hd%N.eqb_eq. by apply (sk_digest _ Hok _ _ _ _ Ht Hs).
Qed.

(** ** Slabs *)

Lemma slab_sector_rows_content d id s ids roots :
  content d id s ids roots → Forall2 (λ sec r, sectors d !! sec = Some r) ids (slab_sector_rows d id) ∧ se_sector_root <$> slab_sector_rows d id = roots.
Proof.
  intros Hc. unfold slab_sector_rows. rewrite (rows_of_list _ _ ids) by apply Hc. pose proof (co_roots _ _ _ _ _ Hc) as Hr. clear Hc.
  induction Hr as [|sec root ids roots (r & Hr & <-) _ [IH1 IH2]]; [done|]. cbn [omap list_omap]. rewrite Hr. csimpl. split; [by constructor|].
  by rewrite IH2.
Qed.

(** The sectors with the keys of their hosts. *)
Lemma hosted_sectors d rows :
  sectors_ok d → Forall (λ r, ∃ i h, sectors d !! i = Some r ∧ se_host_id r = Some h) rows →
  PS_Root <$> omap (λ s, (λ hk, mkPinnedSector (se_sector_root s) hk None) <$> host_key d (se_host_id s)) rows = se_sector_root <$> rows.
Proof.
  intros Hok. induction 1 as [|r rows (i & h & Hr & Hh) _ IH]; [done|]. cbn [omap list_omap].
  destruct (so_host _ Hok _ _ _ Hr Hh) as [hr Hhr]. unfold host_key at 1. rewrite Hh. simpl. rewrite Hhr. simpl. by f_equal.
Qed.

Lemma PinnedSlab_reads account a row p d :
  slabs_ok d → find_account account d = Some (a, row) → pinned_as a p d →
  ∃ sectors, tables_PinnedSlab account (SlabPinParams_Digest p) d =
      (Ok (mkPinnedSlab (SlabPinParams_Digest p) (SP_Version p) (SP_EncryptionKey p) (SP_MinShards p) sectors), d) ∧
    PS_Root <$> sectors = PS_Root <$> SP_Sectors p.
Proof.
  intros Hok Hacc (sid & s & ids & Hs & (K1 & K2 & K3 & K4) & Hc & Hpin & Hhost).
  destruct (slab_sector_rows_content _ _ _ _ _ Hc) as [Hrows Hroots].
  assert (Forall (λ r, ∃ i h, sectors d !! i = Some r ∧ se_host_id r = Some h) (slab_sector_rows d sid)) as Hf.
  { apply Forall_forall. intros r [i Hi]%list_elem_of_lookup. destruct (Forall2_lookup_r _ _ _ _ _ Hrows Hi) as (sec & Hsec & Hr).
    rewrite Forall_lookup in Hhost. destruct (Hhost _ _ Hsec) as (r' & h & Hr' & Hh). exists sec, h. split; [done|congruence]. }
  pose proof (hosted_sectors _ _ (sk_sectors _ Hok) Hf) as Hsec. rewrite Hroots in Hsec.
  eexists. split; [|exact Hsec]. unfold tables_PinnedSlab, transaction, bindM, mbind, M_bind, get.
  rewrite <-K4, (find_slab_ok _ _ _ Hok Hs), Hacc. unfold pinned_by. rewrite bool_decide_eq_true_2 by done.
  apply (f_equal length) in Hsec. rewrite !length_fmap in Hsec. pose proof (co_shards _ _ _ _ _ Hc) as [Hb _]. pose proof (content_length _ _ _ _ _ Hc) as Hlen.
  rewrite length_fmap in Hlen. cbn zeta. rewrite Hsec, (proj2 (Z.ltb_ge _ _)) by lia.
  by rewrite K1, K2, K3.
Qed.

(** C7. What is pinned is read back: after slabs were pinned, the account reads each
    of them under the digest that was returned, with the version, the encryption
    key, the minimum of shards and the sectors that were pinned, in order. *)
Theorem pinned_slab_roundtrip account next toPin d ids d' :
  store_ok d → unique_ok d → tx_ok (SlabTx (TxPinSlabs account next toPin)) d →
  tables_PinSlabs account next toPin d = (Ok ids, d') →
  ids = SlabPinParams_Digest <$> toPin ∧
  ∀ p, p ∈ toPin → ∃ sectors, tables_PinnedSlab account (SlabPinParams_Digest p) d' =
      (Ok (mkPinnedSlab (SlabPinParams_Digest p) (SP_Version p) (SP_EncryptionKey p) (SP_MinShards p) sectors), d') ∧
    PS_Root <$> sectors = PS_Root <$> SP_Sectors p.
Proof.
  intros Hok Hu (Hw & Hlen & Hl) Hrun. destruct (PinSlabs_commits account next toPin d Hok Hw Hlen Hl _ _ Hrun) as (Hok' & -> & a & row & row' & Hf & Hall & Ea & Epk & _ & _).
  split; [done|]. intros p Hp. rewrite Forall_forall in Hall. apply (PinnedSlab_reads account a row'); [apply Hok'| |by apply Hall].
  apply find_row_Some in Hf as [Hrow Hkey]. apply find_row_unique.
  - by rewrite Ea, lookup_insert_eq.
  - by rewrite Epk.
  - intros i r Hr Hi%N.eqb_eq. destruct (decide (i = a)) as [->|Hne]; [done|]. rewrite Ea, lookup_insert_ne in Hr by done.
    apply N.eqb_eq in Hkey. apply (uq_accounts _ Hu _ _ _ _ Hr Hrow). congruence.
Qed.

(** C8. Nobody stores more than allowed: after slabs were pinned for an account that is not deleted (which the caller has to check, as the API does: [PinSlabs] itself pins for a deleted one too), with parameters of the width of their types and less than 2^64 bytes in the request, the account is not deleted, the sectors of the shards that it has pinned are within its limit, and those of all accounts of its connect key that are not deleted are together within the quota. *)
Theorem pinned_within_limits account next toPin d ids d' :
  store_ok d → Forall widths_ok toPin → (Z.of_nat (length toPin) * max_slab_size < 2 ^ 64)%Z → live_account account d →
  tables_PinSlabs account next toPin d = (Ok ids, d') →
  ∃ a row k q, accounts d' !! a = Some row ∧ a_public_key row = account ∧ is_live row = true ∧
    (account_data a d' ≤ a_max_pinned_data row)%Z ∧
    connect_keys d' !! a_connect_key_id row = Some k ∧ quotas d' !! ck_quota_name k = Some q ∧
    (msum (λ b r, if is_live r && (a_connect_key_id r =? a_connect_key_id row)%Z then account_data b d' else 0)%Z (accounts d') ≤ q_max_pinned_data q)%Z.
Proof.
  intros Hok Hw Hlen Hl Hrun.
  destruct (PinSlabs_commits account next toPin d Hok Hw Hlen Hl _ _ Hrun) as ([_ _ _ [T1 T2] _] & _ & a & row & row' & Hf & _ & Ea & Epk & Hlive & Hmax & k & q & Hk & Hq & Hle).
  apply find_row_Some in Hf as [Hrow Hkey%N.eqb_eq]. assert (accounts d' !! a = Some row') as Hrow' by (by rewrite Ea, lookup_insert_eq).
  exists a, row', k, q. split; [done|]. split; [congruence|]. split; [done|]. destruct (T1 _ _ Hrow' Hlive) as [<- _]. split; [done|]. split; [done|]. split; [done|].
  destruct (T2 _ _ Hk) as [Ek _]. rewrite Ek in Hle. etrans; [|exact Hle]. apply Z.eq_le_incl. apply msum_ext. intros b r Hr.
  destruct (is_live r) eqn:Hrl; cbn [andb]; [|done]. destruct (_ =? _)%Z; [|done]. by destruct (T1 _ _ Hr Hrl) as [-> _].
Qed.

(** ** Objects *)

Lemma object_slice_ok d k os :
  store_ok d → object_slabs d !! k = Some os → ∃ id s, find_slab (os_slab_digest os) d = Some (id, s) ∧
    SlabSlice_Digest (mkSlice (sl_version s) (sl_encryption_key s) (sl_min_shards s) (object_sectors d id) (os_slab_offset os) (os_slab_length os)) = os_slab_digest os.
Proof.
  intros Hok Hos. destruct (st_covered _ Hok _ _ Hos) as (o & id & s & _ & Hs & <- & _). exists id, s.
  split; [apply find_slab_ok; [apply Hok|done]|]. destruct (sk_content _ (st_slabs _ Hok) _ _ Hs) as (ids & roots & Hc).
  destruct (slab_sector_rows_content _ _ _ _ _ Hc) as [_ Hroots]. rewrite (co_digest _ _ _ _ _ Hc). unfold SlabSlice_Digest, slabDigest. cbn.
  rewrite slabDigest_roots. unfold object_sectors. rewrite <-(list_fmap_compose _ PS_Root).
  change (PS_Root ∘ (λ s, mkPinnedSector (se_sector_root s) (default 0%N (host_key d (se_host_id s))) None)) with se_sector_root. by rewrite Hroots.
Qed.

(** The slices of an object are those of its rows. *)
Definition slice_row (s : SlabSlice) : ObjectSlabRow := mkObjectSlabRow (SlabSlice_Digest s) (SS_Offset s) (SS_Length s).

Lemma object_slices_rows d oid : store_ok d → slice_row <$> object_slices d oid = rows_of oid (object_slabs d).
Proof.
  intros Hok. unfold object_slices. assert (∀ os, os ∈ rows_of oid (object_slabs d) → ∃ k, object_slabs d !! k = Some os) as Hin.
  { intros os Hos. apply rows_of_elem in Hos as [i Hi]. eauto. }
  induction (rows_of oid (object_slabs d)) as [|os l IH]; [done|]. cbn [omap list_omap].
  destruct (Hin os) as [k Hk]; [by left|]. destruct (object_slice_ok _ _ _ Hok Hk) as (id & s & -> & Hd). csimpl. rewrite IH by (intros x Hx; apply Hin; by right).
  unfold slice_row at 1. rewrite Hd. by destruct os.
Qed.

(** C3. Objects keep their data: after any history of transactions (in which slabs are pinned only for accounts that are not deleted), each row of an object reads as a slice with its range whose
    version, shards, key and sector roots hash to the digest of the row. *)
Theorem served_slices_match d0 d oid :
  db_ok d0 → history order d0 d →
  (λ s, (SlabSlice_Digest s, SS_Offset s, SS_Length s)) <$> object_slices d oid =
  (λ os, (os_slab_digest os, os_slab_offset os, os_slab_length os)) <$> rows_of oid (object_slabs d).
Proof.
  intros H0 H. rewrite <-(object_slices_rows d oid) by (by eapply (history_ok order) in H as [? _]). by rewrite <-list_fmap_compose.
Qed.

Definition object_slab_row (s : ObjectSlab) : ObjectSlabRow := mkObjectSlabRow (OS_ID s) (OS_Offset s) (OS_Length s).

Lemma insert_object_slabs_rows oid i l d :
  commits (insert_object_slabs oid i l) (λ _ d', d' = set_object_slabs (λ _, object_slabs d') d ∧
    ∀ j, object_slabs d' !! (oid, j) = match (if (i <=? j)%Z then l !! Z.to_nat (j - i) else None) with
      Some s => Some (object_slab_row s) | None => object_slabs d !! (oid, j) end) d.
Proof.
  revert i d. induction l as [|s l IH]; intros i d; cbn [insert_object_slabs].
  - tx_step. split; [by destruct d|]. intros j. rewrite lookup_nil. by destruct (i <=? j)%Z.
  - do 8 tx_step. eapply commits_mono; [apply IH|]. cbn beta. intros _ d' [E1 H1]. split; [rewrite E1 at 1; done|].
    intros j. rewrite H1. cbn. destruct (decide (j = i)) as [->|Hne].
    + rewrite Z.leb_refl, Z.sub_diag. destruct (Z.leb_spec (i + 1) i); [lia|]. cbn. by rewrite lookup_insert_eq.
    + rewrite lookup_insert_ne by congruence. destruct (Z.leb_spec i j), (Z.leb_spec (i + 1) j); try lia; [|done].
      replace (Z.to_nat (j - i)) with (S (Z.to_nat (j - (i + 1)))) by lia. done.
Qed.

(** What [PinObject] leaves: the row of the object, and those of its slabs. *)
Record object_stored (a : Z) (obj : PinObjectRequest) (d d' : db) : Prop := {
  os_row : ∃ oid o, objects d' = <[oid := o]> (objects d) ∧ (∀ p, objects d !! oid = Some p → o_account_id p = a ∧ o_object_key p = PR_ID obj) ∧
    ((∀ i p, objects d !! i = Some p → o_account_id p = a → o_object_key p = PR_ID obj → i = oid)) ∧
    o_account_id o = a ∧ o_object_key o = PR_ID obj ∧ o_encrypted_data_key o = PR_EncryptedDataKey obj ∧
    default [] (o_encrypted_meta_key o) = PR_EncryptedMetadataKey obj ∧ default [] (o_encrypted_metadata o) = PR_EncryptedMetadata obj ∧
    o_data_signature o = PR_DataSignature obj ∧ o_meta_signature o = PR_MetadataSignature obj ∧
    rows_of oid (object_slabs d') = object_slab_row <$> PR_Slabs obj;
  os_accounts : accounts d' = accounts d;
  os_blocked : blocked_objects d' !! PR_ID obj = None }.

Lemma upsert_object_row a obj d :
  unique_ok d → objects_numbered d → commits (upsert_object a obj) (λ oid d', accounts d' = accounts d ∧ blocked_objects d' = blocked_objects d ∧ ∃ o,
    objects d' = <[oid := o]> (objects d) ∧ (∀ p, objects d !! oid = Some p → o_account_id p = a ∧ o_object_key p = PR_ID obj) ∧
    ((∀ i p, objects d !! i = Some p → o_account_id p = a → o_object_key p = PR_ID obj → i = oid)) ∧
    o_account_id o = a ∧ o_object_key o = PR_ID obj ∧ o_encrypted_data_key o = PR_EncryptedDataKey obj ∧
    default [] (o_encrypted_meta_key o) = PR_EncryptedMetadataKey obj ∧ default [] (o_encrypted_metadata o) = PR_EncryptedMetadata obj ∧
    o_data_signature o = PR_DataSignature obj ∧ o_meta_signature o = PR_MetadataSignature obj) d.
Proof.
  intros Hu Hn. unfold upsert_object. cbn zeta. do 4 tx_step. destruct (find_object a (PR_ID obj) d) as [[oid o]|] eqn:Hf.
  - apply find_row_Some in Hf as [Ho [Ha%Z.eqb_eq Hk%N.eqb_eq]%andb_prop]. tx_steps. split; [done|]. split; [done|]. eexists. split; [done|].
    split; [intros p Hp; assert (p = o) as -> by congruence; done|]. split.
    { intros i p Hi Hpa Hpk. apply (uq_objects _ Hu _ _ _ _ Hi Ho); congruence. }
    cbn. destruct (PR_EncryptedMetadataKey obj), (PR_EncryptedMetadata obj); done.
  - pose proof (find_row_None _ _ Hf) as Hno. tx_steps. split; [done|]. split; [done|]. eexists. split; [done|].
    split; [intros p Hp; apply Hn in Hp; lia|]. split.
    { intros i p Hi Hpa Hpk. specialize (Hno _ _ Hi). cbn in Hno. by rewrite Hpa, Hpk, Z.eqb_refl, N.eqb_refl in Hno. }
    cbn. destruct (PR_EncryptedMetadataKey obj), (PR_EncryptedMetadata obj); done.
Qed.

Lemma PinObject_stores account obj d :
  store_ok d → unique_ok d →
  commits (tables_PinObject account obj) (λ _ d', ∃ a row, find_account account d = Some (a, row) ∧ object_stored a obj d d') d.
Proof.
  intros Hok Hu. unfold tables_PinObject, accountID, assertObjectNotBlocked. do 4 tx_step. destruct (find_account account d) as [[a row]|]; [|by tx_step].
  tx_step. destruct (bool_decide _); [by tx_step|]. do 3 tx_step. destruct (blocked_objects d !! _) eqn:Hb; [by tx_step|]. do 3 tx_step.
  eapply commits_mono; [apply upsert_object_row; [done|apply Hok]|]. cbn beta. intros oid d1 (Ea & Eb & o & Eo & Hold & Huniq & Hrow).
  do 4 tx_step. cbn zeta. destruct (negb _); [by tx_step|]. do 3 tx_step. eapply commits_mono; [apply insert_object_slabs_rows|]. cbn beta. intros _ d3 [E3 H3].
  exists a, row. split; [done|]. split; [|by rewrite E3|by rewrite E3; cbn; rewrite Eb]. exists oid, o. split; [by rewrite E3; cbn|]. split; [done|]. split; [done|].
  destruct Hrow as (? & ? & ? & ? & ? & ? & ?). split_and!; try done. apply rows_of_list. intros j. rewrite H3, list_lookup_fmap.
  assert (∀ v, object_slabs (set_object_slabs (delete_rows (λ k (_ : ObjectSlabRow), (k.1 =? oid)%Z))
    (set_object_events (insert (a, PR_ID obj) (mkEventRow false (this_second d1))) d1)) !! (oid, j) ≠ Some v) as Hnone.
  { intros v Hv. cbn in Hv. apply delete_rows_lookup in Hv as [_ Hv]. cbn in Hv. by rewrite Z.eqb_refl in Hv. }
  rewrite Z.sub_0_r. destruct (0 <=? j)%Z; [destruct (PR_Slabs obj !! _); [done|]|]; apply eq_None_not_Some; intros [v Hv]; by destruct (Hnone v).
Qed.

(** C4. A stored object is read back as it was stored: its keys, metadata and
    signatures, and its slices in order, whose content hashes to the digests of the
    request and which have its ranges. *)
Theorem stored_object_roundtrip account obj d d' :
  store_ok d → unique_ok d → tables_PinObject account obj d = (Ok tt, d') →
  ∃ so, tables_Object account (PR_ID obj) d' = (Ok so, d') ∧
    SO_EncryptedDataKey so = PR_EncryptedDataKey obj ∧ SO_DataSignature so = PR_DataSignature obj ∧
    SO_EncryptedMetadataKey so = PR_EncryptedMetadataKey obj ∧ SO_EncryptedMetadata so = PR_EncryptedMetadata obj ∧
    SO_MetadataSignature so = PR_MetadataSignature obj ∧
    (λ s, mkObjectSlab (SlabSlice_Digest s) (SS_Offset s) (SS_Length s)) <$> SO_Slabs so = PR_Slabs obj.
Proof.
  intros Hok Hu Hrun. pose proof (PinObject_commits account obj d Hok _ _ Hrun) as Hok'.
  destruct (PinObject_stores account obj d Hok Hu _ _ Hrun) as (a & row & Hf & [(oid & o & Eo & Hold & Huniq & H1 & H2 & H3 & H4 & H5 & H6 & H7 & Hrows) Eacc Hb]).
  exists (sealed_object d' oid o). split.
  - unfold tables_Object, transaction, accountID, assertObjectNotBlocked, bindM, mbind, M_bind, get.
    assert (find_account account d' = Some (a, row)) as -> by (unfold find_account in *; by rewrite Eacc).
    unfold mret, M_ret. cbv beta iota. rewrite Hb. cbv beta iota. cbn [fst].
    assert (find_object a (PR_ID obj) d' = Some (oid, o)) as ->; [|done]. apply find_row_unique.
    + by rewrite Eo, lookup_insert_eq.
    + by rewrite H1, H2, Z.eqb_refl, N.eqb_refl.
    + intros i p Hi [Ha%Z.eqb_eq Hk%N.eqb_eq]%andb_prop. destruct (decide (i = oid)) as [->|Hne]; [done|]. rewrite Eo, lookup_insert_ne in Hi by done. by eapply Huniq.
  - cbn. split_and!; try done. pose proof (object_slices_rows d' oid Hok') as Hs. rewrite Hrows in Hs.
    apply (f_equal (fmap (λ r, mkObjectSlab (os_slab_digest r) (os_slab_offset r) (os_slab_length r)))) in Hs. rewrite <-!list_fmap_compose in Hs.
    etrans; [exact Hs|]. rewrite <-(list_fmap_id (PR_Slabs obj)) at 2. apply list_fmap_ext. intros i x _. by destruct x.
Qed.

(** C2. Every history of transactions in which slabs are pinned only for accounts that are
    not deleted - slabs pinned and unpinned, objects stored,
    deleted and blocked, accounts deleted, slabs pruned, sectors lost, pinned to
    contracts, migrated and checked, repairs claimed, contracts formed, renewed, revised,
    marked bad and deleted, hosts announced, imported, scanned, blocked, unblocked and
    pruned, quotas and connect keys put and deleted, apps registered, accounts and pools
    funded and attached - keeps the invariant of the tables: slabs have the sectors of
    their digests, sectors are on known hosts and pinned only to contracts with their
    host, the slabs of every object are pinned by its account, the totals of accounts and
    connect keys are the sums over their pins, the counters of slabs, sectors and hosts
    are the numbers of rows, every account has its connect key and only accounts pin
    slabs. A transaction that fails changes nothing. Of the calls only those that pin slabs
    are restricted: the account is not deleted, which the store does not check itself and
    without which the totals go wrong ([pin_after_delete]), the parameters have the width of
    their types and digests that do not collide, and the request is less than 2^64 bytes. *)
Theorem slab_tables_kept d0 d tx :
  db_ok d0 → history order d0 d →
  db_ok d ∧ ∀ e d', run_tx order tx d = (Err e, d') → d' = d.
Proof. intros H0 H. split; [by eapply (history_ok order)|]. intros e d' Hrun. by apply (run_tx_fails order tx d (Err e)). Qed.

(** Tables without slabs, where nothing is pinned or counted. *)
Lemma no_slabs_ok d :
  slabs d = ∅ → account_slabs d = ∅ → slab_sectors d = ∅ → sectors d = ∅ → objects d = ∅ → object_slabs d = ∅ → stats_deltas d = [] →
  map_Forall (λ _ v, v = 0%Z) (stats d) → map_Forall (λ _ h, h_unpinned_sectors h = 0%Z) (hosts d) →
  map_Forall (λ _ a, a_pinned_data a = 0 ∧ a_pinned_size a = 0)%Z (accounts d) →
  map_Forall (λ _ k, ck_pinned_data k = 0 ∧ ck_pinned_size k = 0)%Z (connect_keys d) →
  contract_sectors_map d = ∅ → map_Forall (λ _ c, is_Some (hosts d !! c_host_id c)) (contracts d) → store_ok d.
Proof.
  intros E1 E2 E3 E4 E5 E6 E7 H1 H2 H3 H4 E8 H5.
  assert (∀ n, stat n d = 0%Z) as Hst.
  { intros n. unfold stat. rewrite E7. cbn. destruct (stats d !! n) as [v|] eqn:Hv; [rewrite (H1 _ _ Hv)|]; done. }
  assert (∀ P, number P d = 0%Z) as Hn by (intros P; unfold number, count_if; by rewrite E4).
  split.
  - split; [split; [..|split]|..]; rewrite ?E1, ?E2, ?E3, ?E4, ?E8; try (by intros *; rewrite ?lookup_empty). exact H5.
  - intros k os. by rewrite E6, lookup_empty.
  - intros i o. by rewrite E5, lookup_empty.
  - split.
    + intros id a Ha _. destruct (H3 _ _ Ha) as [-> ->]. unfold account_data, account_size, account_sum. by rewrite E2.
    + intros key k Hk. destruct (H4 _ _ Hk) as [-> ->]. unfold key_sum. split; symmetry; apply msum_zero; intros id a Ha; destruct (H3 _ _ Ha) as [Hd Hs]; rewrite ?Hd, ?Hs; by destruct (_ && _).
  - split; rewrite ?Hst, ?Hn, ?E1; try done. intros h r Hr. rewrite Hn. by apply (H2 _ _ Hr).
Qed.
End serving.

(** ** A concrete store *)

Module StoreWitness.
#[local] Existing Instances SiaEncoding.ops SiaEncoding.laws U128.ops U128.laws TestRhp.ops TestRhp.laws TestRhp.methods
  TestColumns.names TestColumns.contract_columns TestColumns.host_columns TestColumns.sql_math.

Definition sector_of (root host : N) : PinnedSector := mkPinnedSector root host None.
Definition slab : SlabPinParams := mkPinParams 1 9 1 [sector_of 11 21; sector_of 12 22].

#[local] Instance only_slab : Hashed.
Proof.
  refine (Build_Hashed _ (λ x, x = slabDigest_preimage (SP_Version slab) (SP_MinShards slab) (SP_EncryptionKey slab) (SP_Sectors slab)) _).
  congruence.
Defined.

(** Account 7 of connect key 1, two hosts with good contracts. *)
Definition account_row (deleted : option Z) : AccountRow := mkAccountRow 7 1 0 0 (2 ^ 40) (mkMeta 1 "app" "" "" "") 0 deleted.
(** A contract that is active and good, with the proof height 900. *)
Definition contract_row (host : Z) : ContractRow := mkContractRow host 0 900 1044 None None 1 1 0 2000 0 0 0 0 0 0 0 0 true [].
Definition start (deleted : option Z) : db := mkDB 1000 {["q" := mkQuotaRow "" (2 ^ 40) 10 0]}
  {[1%Z := mkConnectKeyRow 1 "key" "" "q" 0 0 None 0 0]} ∅ ∅ {[1%Z := account_row deleted]}
  {[1%Z := new_host 21 0 true true 0; 2%Z := new_host 22 0 true true 0]}
  {[31%N := contract_row 1; 32%N := contract_row 2]} ∅ 500 ∅ ∅ ∅ ∅ ∅ ∅ ∅ ∅ [] [] ∅ ∅
  ∅ default_globals ∅ [] ∅ ∅ ∅.

Definition digest : SlabID := SlabPinParams_Digest slab.
Definition zeros : list byte := replicate 72 Ascii.zero.
Definition obj : PinObjectRequest := mkPinRequest 5 zeros [mkObjectSlab digest 0 4096] 3 [] [] 4.
Definition after_pin : db := (tables_PinSlabs 7 2000 [slab] (start None)).2.
Definition after_object : db := (tables_PinObject 7 obj (at_time 1001 after_pin)).2.

Lemma start_ok deleted : store_ok (start deleted).
Proof.
  apply no_slabs_ok; try reflexivity; apply (bool_decide_unpack _); vm_compute; exact I.
Qed.
Lemma start_db_ok deleted : db_ok (start deleted).
Proof.
  split; [apply start_ok|]. split; cbn.
  - intros id a [<- <-]%lookup_singleton_Some. by eexists.
  - intros k [v Hv]. by rewrite lookup_empty in Hv.
  - intros i j r k [<- _]%lookup_singleton_Some [<- _]%lookup_singleton_Some _. done.
Qed.
Lemma start_unique deleted : unique_ok (start deleted).
Proof.
  split; cbn.
  - intros i j a b [<- _]%lookup_singleton_Some [<- _]%lookup_singleton_Some _. done.
  - intros i j o p Ho. by rewrite lookup_empty in Ho.
Qed.
Lemma pin_ok : tx_ok (SlabTx (TxPinSlabs 7 2000 [slab])) (start None).
Proof.
  split; [|split; [by vm_compute|]].
  - constructor; [|constructor]. split; [|reflexivity]. split; [by vm_compute|]. split; [by vm_compute|]. split; [by vm_compute|]. repeat constructor; by vm_compute.
  - intros id a Hf. apply find_row_Some in Hf as [Ha _]. cbn in Ha. apply lookup_singleton_Some in Ha as [_ <-]. reflexivity.
Qed.
Lemma pin_runs : tables_PinSlabs 7 2000 [slab] (start None) = (Ok [digest], after_pin).
Proof. apply injective_projections; cbn [fst snd]; [vm_compute; reflexivity|reflexivity]. Qed.
Lemma store_runs : tables_PinObject 7 obj (at_time 1001 after_pin) = (Ok tt, after_object).
Proof. apply injective_projections; cbn [fst snd]; [vm_compute; reflexivity|reflexivity]. Qed.

Definition same_order (A : Type) (l : list A) : list A := l.

Lemma pin_history : history same_order (start None) after_pin.
Proof.
  apply (history_tx _ _ (start None) 1000 (SlabTx (TxPinSlabs 7 2000 [slab])) (Ok tt)); [constructor|exact pin_ok|]. cbn [run_tx run_slab_tx].
  unfold void, bindM, mbind, M_bind. change (at_time 1000 (start None)) with (start None). by rewrite pin_runs.
Qed.
Lemma object_history : history same_order (start None) after_object.
Proof. apply (history_tx _ _ after_pin 1001 (SlabTx (TxPinObject 7 obj)) (Ok tt)); [exact pin_history|exact I|exact store_runs]. Qed.

Lemma at_time_unique t d : unique_ok d → unique_ok (at_time t d).
Proof. by intros [H1 H2]. Qed.
Lemma after_pin_unique : unique_ok after_pin.
Proof.
  split.
  - intros i j a b Ha Hb _. assert (map_Forall (λ i _, i = 1%Z) (accounts after_pin)) as H by (apply (bool_decide_unpack _); vm_compute; exact I).
    exact (eq_trans (H _ _ Ha) (eq_sym (H _ _ Hb))).
  - intros i j o p Ho. assert (map_Forall (λ _ _, False) (objects after_pin)) as H by (apply (bool_decide_unpack _); vm_compute; exact I).
    destruct (H _ _ Ho).
Qed.

Example slab_tables_kept_witness : db_ok after_object.
Proof. apply (slab_tables_kept same_order (λ _ _, Permutation_refl _) (start None) after_object (SlabTx (TxUnpinSlab 7 digest)) (start_db_ok None) object_history). Defined.

Example pinned_slab_roundtrip_witness : ∃ sectors,
  tables_PinnedSlab 7 digest after_pin = (Ok (mkPinnedSlab digest 1 9 1 sectors), after_pin) ∧ PS_Root <$> sectors = [11; 12]%N.
Proof.
  apply (proj2 (pinned_slab_roundtrip 7 2000 [slab] (start None) [digest] after_pin (start_ok None) (start_unique None) pin_ok pin_runs) slab). left.
Defined.

Example pinned_within_limits_witness : ∃ a row, accounts after_pin !! a = Some row ∧ (account_data a after_pin ≤ a_max_pinned_data row)%Z.
Proof.
  destruct (pinned_within_limits 7 2000 [slab] (start None) [digest] after_pin (start_ok None) (proj1 pin_ok) (proj1 (proj2 pin_ok)) (proj2 (proj2 pin_ok)) pin_runs)
    as (a & row & k & q & Ha & _ & _ & Hle & _).
  exists a, row. by split.
Defined.

Example served_slices_match_witness :
  (λ s, (SlabSlice_Digest s, SS_Offset s, SS_Length s)) <$> object_slices after_object 1 = [(digest, 0, 4096)%Z].
Proof. rewrite (served_slices_match same_order (λ _ _, Permutation_refl _) (start None) after_object 1 (start_db_ok None) object_history). vm_compute. reflexivity. Defined.

Example stored_object_roundtrip_witness : ∃ so, tables_Object 7 5 after_object = (Ok so, after_object) ∧ SO_DataSignature so = 3%N.
Proof.
  assert (unique_ok (at_time 1001 after_pin)) as Hu by (apply at_time_unique, after_pin_unique).
  destruct (stored_object_roundtrip 7 obj (at_time 1001 after_pin) after_object) as (so & H1 & _ & H2 & _); [|exact Hu|exact store_runs|].
  - apply at_time_ok. exact (history_ok same_order (λ _ _, Permutation_refl _) _ _ (start_db_ok None) pin_history).
  - exists so. by split.
Defined.

(** [PinSlabs] finds a deleted account: what it pins counts for the connect key, which
    no deletion gives back. *)
Lemma pin_after_delete :
  let d := (tables_PinSlabs 7 2000 [slab] (start (Some 900%Z))).2 in
  (tables_PinSlabs 7 2000 [slab] (start (Some 900%Z))).1 = Ok [digest] ∧
  ck_pinned_data <$> connect_keys d !! 1%Z = Some 4194304%Z ∧ key_sum a_pinned_data 1 d = 0%Z ∧
  (tables_DeleteAccount 7 d).1 = Err (ESentinel Accounts.ErrNotFound).
Proof. vm_compute. done. Qed.
End StoreWitness.
