(* ===== verification/PruneStore.v ===== *)
(** * Pruning the slabs of an account (src/persist/postgres/slabs.go)

    [PruneSlabs] ends, and leaves no slab pinned that is older than the cutoff and
    that no object of the account uses. *)

From S2P Require Import Prelude Float Encoding External HostManager Slabs Objects Accounts App Tables SlabTables SectorTables ContractTables HostTables PinStore Totals SlabStore ObjectStore SectorStore History Serving.

Section prune.
Local Open Scope go_scope.
Context {C : CurrencyOps} {R : RhpOps} {E : EncoderOps} {EL : EncoderLaws E} {HS : Hashed} {RL : RhpLaws R}.

(** What the batches look for, in order. *)
Definition prunable (a cursor cutoff : Z) (d : db) : list Z :=
  merge_sort Z.le (omap (λ p : Z * SlabRow,
    if pinned_by a p.1 d && (cursor <? p.1)%Z && (sl_pinned_at p.2 <? cutoff)%Z && negb (referenced a (sl_digest p.2) d)
    then Some p.1 else None) (map_to_list (slabs d))).

Lemma prunable_elem a cursor cutoff d i : i ∈ prunable a cursor cutoff d ↔ (cursor < i)%Z ∧ unpinnable_by a (Some cutoff) d i = true.
Proof.
  unfold prunable, unpinnable_by. rewrite merge_sort_Permutation, list_elem_of_omap. split.
  - intros ([j s] & Hin%elem_of_map_to_list & Hm). cbn in Hm. destruct (_ && _) eqn:Hb; [|done]. injection Hm as <-. rewrite Hin.
    apply andb_prop in Hb as [[[H1 H2%Z.ltb_lt]%andb_prop H3]%andb_prop H4]. split; [done|]. by rewrite H1, H3, H4.
  - intros [Hc Hu]. destruct (slabs d !! i) as [s|] eqn:Hs; [|done]. exists (i, s). split; [by apply elem_of_map_to_list|]. cbn.
    apply andb_prop in Hu as [[H1 H3]%andb_prop H4]. by rewrite H1, H3, H4, (proj2 (Z.ltb_lt _ _) Hc).
Qed.

(** Up to the last candidate of a batch, all are in it. *)
Lemma batch_complete a cursor cutoff n d last_id i :
  last (take n (prunable a cursor cutoff d)) = Some last_id → i ∈ prunable a cursor cutoff d → (i ≤ last_id)%Z → i ∈ take n (prunable a cursor cutoff d).
Proof.
  intros. eapply page_prefix; [apply sorted_sort|done..].
Qed.

Lemma unpinUnreferenced_pins a sIDs cutoff d :
  store_ok d → commits (unpinUnreferencedSlabs a sIDs cutoff) (λ _ d', store_ok d' ∧ ∃ P, unpinned a P d d' ∧
    ∀ i, i ∈ sIDs → unpinnable_by a cutoff d i = true → P i = true) d.
Proof.
  intros Hok r d' Hrun. split; [by apply (unpinUnreferenced_commits a sIDs cutoff d Hok r d' Hrun)|]. revert r d' Hrun.
  enough (commits (unpinUnreferencedSlabs a sIDs cutoff) (λ _ d', ∃ P, unpinned a P d d' ∧ ∀ i, i ∈ sIDs → unpinnable_by a cutoff d i = true → P i = true) d) by done.
  unfold unpinUnreferencedSlabs. do 2 tx_step. cbn zeta. set (l := filter _ _).
  assert (∀ i, i ∈ sIDs → unpinnable_by a cutoff d i = true → i ∈ l) as Hl.
  { intros i Hi Hu. apply list_elem_of_filter. by rewrite elem_of_remove_dups. }
  destruct (bool_decide_reflect (l = [])) as [Hnil|_].
  - tx_step. exists (λ _, false). split.
    + by apply (unpinned_id a sIDs).
    + intros i Hi Hu. specialize (Hl i Hi Hu). rewrite Hnil in Hl. by apply elem_of_nil in Hl.
  - eapply commits_mono; [apply unpinSlabs_commits, Hok|]. cbn beta. intros _ d' Hu. eexists. split; [exact Hu|].
    intros i Hi Hi'. apply bool_decide_eq_true. by apply Hl.
Qed.

(** What was unpinned is not unpinnable again; nothing new is. *)
Lemma unpinned_unpinnable a P cutoff d d' i :
  unpinned a P d d' → unpinnable_by a cutoff d' i = true → unpinnable_by a cutoff d i = true ∧ P i = false.
Proof.
  intros [U1 U2 U3 U4 U5 U6]. unfold unpinnable_by, referenced, pinned_by. rewrite (fx_slabs _ _ U1), U2, U3, U5. cbn [fst snd]. rewrite Z.eqb_refl. cbn [andb].
  destruct (slabs d !! i); [|done]. destruct (P i); [|done]. by rewrite bool_decide_eq_false_2 by (by intros [? ?]).
Qed.

(** One batch. *)
Lemma prune_batch_spec a cursor cutoff d :
  store_ok d → commits (prune_batch a cursor cutoff) (λ r d', store_ok d' ∧ slabs d' = slabs d ∧
    (∀ i, unpinnable_by a (Some cutoff) d' i = true → unpinnable_by a (Some cutoff) d i = true ∧ ((cursor < i)%Z → (r.1 < i)%Z ∧ r.2 = false)) ∧
    (r.2 = false → (cursor < r.1)%Z ∧ is_Some (slabs d !! r.1))) d.
Proof.
  intros Hok. unfold prune_batch, prunable_slabs. fold (prunable a cursor cutoff d). do 3 tx_step. cbn zeta. fold (prunable a cursor cutoff d).
  destruct (last (take prune_batchSize (prunable a cursor cutoff d))) as [n|] eqn:Hlast.
  - assert (n ∈ prunable a cursor cutoff d) as Hn.
    { apply last_Some_elem_of in Hlast. rewrite <-(take_drop prune_batchSize (prunable a cursor cutoff d)). apply elem_of_app. by left. }
    apply prunable_elem in Hn as [Hn Hnu].
    tx_step. eapply commits_mono; [by apply unpinUnreferenced_pins|]. cbn beta. intros _ d' (Hok' & P & Hu & HP). tx_step. cbn [fst snd].
    split; [done|]. split; [apply (un_fixed _ _ _ _ Hu)|]. split.
    + intros i Hi. destruct (unpinned_unpinnable _ _ _ _ _ _ Hu Hi) as [Hd HPi]. split; [done|]. intros Hc.
      assert (i ∉ take prune_batchSize (prunable a cursor cutoff d)) as Hnot by (intros Hin; rewrite (HP i Hin Hd) in HPi; done).
      assert (i ∈ prunable a cursor cutoff d) as Hin by (by apply prunable_elem). split.
      * destruct (Z.ltb_spec n i); [done|]. destruct Hnot. by eapply batch_complete.
      * apply Nat.ltb_ge. destruct (decide (length (prunable a cursor cutoff d) ≤ prune_batchSize)) as [Hle|Hgt]; [by rewrite take_ge in Hnot|].
        rewrite length_take. lia.
    + intros _. split; [done|]. unfold unpinnable_by in Hnu. destruct (slabs d !! n); [by eexists|done].
  - tx_step. cbn [fst snd]. split; [done|]. split; [done|].
    assert (prunable a cursor cutoff d = []) as Hnil.
    { apply last_None in Hlast. destruct (prunable a cursor cutoff d); [done|]. done. }
    rewrite Hnil. split; [|done]. intros i Hi. split; [done|]. intros Hc.
    assert (i ∈ prunable a cursor cutoff d) as Hin by (by apply prunable_elem). rewrite Hnil in Hin. by apply elem_of_nil in Hin.
Qed.

(** The slabs after the cursor. *)
Definition slabs_after (cursor : Z) (d : db) : Z := msum (λ i _, if (cursor <? i)%Z then 1 else 0)%Z (slabs d).

Lemma slabs_after_less cursor n d : (cursor < n)%Z → is_Some (slabs d !! n) → (slabs_after n d < slabs_after cursor d)%Z.
Proof.
  intros Hc [s Hs]. unfold slabs_after. rewrite <-(insert_delete_id _ _ _ Hs), !msum_insert by apply lookup_delete_eq.
  rewrite Z.ltb_irrefl, (proj2 (Z.ltb_lt cursor n) Hc).
  enough (msum (λ i _, if (n <? i)%Z then 1 else 0) (delete n (slabs d)) ≤ msum (λ i _, if (cursor <? i)%Z then 1 else 0) (delete n (slabs d)))%Z by lia.
  induction (delete n (slabs d)) as [|i v m Hi IH] using map_ind; [done|]. rewrite !msum_insert by done. destruct (Z.ltb_spec n i), (Z.ltb_spec cursor i); lia.
Qed.

Lemma prune_batches_spec fuel a cursor cutoff d :
  store_ok d → (slabs_after cursor d < Z.of_nat fuel)%Z → (∀ i, unpinnable_by a (Some cutoff) d i = true → (cursor < i)%Z) →
  commits (prune_batches fuel a cursor cutoff) (λ r d', r = Some tt ∧ store_ok d' ∧ slabs d' = slabs d ∧ ∀ i, unpinnable_by a (Some cutoff) d' i = false) d.
Proof.
  revert cursor d. induction fuel as [|fuel IH]; intros cursor d Hok Hfuel Hdone; cbn [prune_batches].
  - assert (0 ≤ slabs_after cursor d)%Z; [|lia]. apply msum_nonneg. intros i v _. by destruct (cursor <? i)%Z.
  - tx_step. eapply commits_mono; [by apply prune_batch_spec|]. cbn beta. intros [n exhausted] d1 (Hok1 & Es & Hun & Hex). cbn [fst snd] in *.
    destruct exhausted.
    + tx_step. split; [done|]. split; [done|]. split; [done|]. intros i. destruct (unpinnable_by a (Some cutoff) d1 i) eqn:Hi; [|done].
      destruct (Hun _ Hi) as [Hd Hc]. by destruct (Hc (Hdone _ Hd)).
    + destruct (Hex eq_refl) as [Hc Hn]. pose proof (slabs_after_less _ _ _ Hc Hn) as Hless.
      eapply commits_mono; [apply (IH n d1 Hok1)|].
      * unfold slabs_after in *. rewrite Es. lia.
      * intros i Hi. destruct (Hun _ Hi) as [Hd Hci]. by apply (Hci (Hdone _ Hd)).
      * cbn beta. intros r d' (-> & Hok' & Es' & Hall). split; [done|]. split; [done|]. split; [congruence|done].
Qed.

Lemma slabs_after_size cursor d : (slabs_after cursor d ≤ Z.of_nat (size (slabs d)))%Z.
Proof.
  unfold slabs_after. rewrite <-msum_size. induction (slabs d) as [|i v m Hi IH] using map_ind; [done|]. rewrite !msum_insert by done.
  destruct (cursor <? i)%Z; lia.
Qed.

(** C10. Pruning an account ends and finishes: when it succeeds, with as many batches as
    there are slabs at most, it did not run out of them, no slab is gone, and each
    slab that the account still has pinned is as new as the cutoff or used by one of
    its objects; identifiers are positive. *)
Theorem prune_slabs_complete fuel account cutoff d r d' :
  store_ok d → (size (slabs d) < fuel)%nat → (∀ i, is_Some (slabs d !! i) → (0 < i)%Z) →
  tables_PruneSlabs fuel account cutoff d = (Ok r, d') →
  r = Some tt ∧ store_ok d' ∧ slabs d' = slabs d ∧ ∃ a row, find_account account d = Some (a, row) ∧
    ∀ i s, slabs d' !! i = Some s → pinned_by a i d' = true → (cutoff ≤ sl_pinned_at s)%Z ∨ referenced a (sl_digest s) d' = true.
Proof.
  intros Hok Hfuel Hpos. revert r d'.
  enough (commits (tables_PruneSlabs fuel account cutoff) (λ r d', r = Some tt ∧ store_ok d' ∧ slabs d' = slabs d ∧ ∃ a row, find_account account d = Some (a, row) ∧
    ∀ i s, slabs d' !! i = Some s → pinned_by a i d' = true → (cutoff ≤ sl_pinned_at s)%Z ∨ referenced a (sl_digest s) d' = true) d) as H by exact H.
  unfold tables_PruneSlabs, accountID. do 5 tx_step. destruct (find_account account d) as [[a row]|]; [|by tx_step]. tx_step. cbn [fst].
  eapply commits_mono; [apply (prune_batches_spec fuel a 0 cutoff d Hok)|].
  - pose proof (slabs_after_size 0 d). lia.
  - intros i Hi. apply Hpos. unfold unpinnable_by in Hi. destruct (slabs d !! i); [by eexists|done].
  - cbn beta. intros r d' (-> & Hok' & Es & Hall). split; [done|]. split; [done|]. split; [done|]. exists a, row. split; [done|].
    intros i s Hs Hp. specialize (Hall i). unfold unpinnable_by in Hall. rewrite Hs, Hp in Hall. cbn [andb] in Hall.
    destruct (Z.ltb_spec (sl_pinned_at s) cutoff); [|by left]. cbn [andb] in Hall. right. by apply negb_false_iff.
Qed.
End prune.

(** ** A concrete pruning *)

Module PruneWitness.
Import StoreWitness.
#[local] Existing Instances SiaEncoding.ops SiaEncoding.laws U128.ops U128.laws TestRhp.ops TestRhp.laws TestRhp.methods only_slab
  TestColumns.names TestColumns.contract_columns TestColumns.host_columns TestColumns.sql_math.

(** The slab was pinned at 1000 and no object uses it. *)
Definition pruned : db := (tables_PruneSlabs 2 7 4000 after_pin).2.

Lemma prune_runs : tables_PruneSlabs 2 7 4000 after_pin = (Ok (Some tt), pruned).
Proof. apply injective_projections; cbn [fst snd]; [vm_compute; reflexivity|reflexivity]. Qed.
Lemma after_pin_ok : store_ok after_pin.
Proof. exact (proj1 (history_ok same_order (λ _ _, Permutation_refl _) _ _ (start_db_ok None) pin_history)). Qed.

Example prune_slabs_complete_witness :
  slabs pruned = slabs after_pin ∧ account_slabs pruned !! (1, 1)%Z = None ∧ accounts pruned !! 1%Z = accounts (start None) !! 1%Z.
Proof.
  destruct (prune_slabs_complete 2 7 4000 after_pin (Some tt) pruned after_pin_ok) as (_ & _ & Hs & _).
  - assert (size (slabs after_pin) = 1) as -> by (vm_compute; reflexivity). lia.
  - assert (map_Forall (λ i _, 0 < i)%Z (slabs after_pin)) as H by (apply (bool_decide_unpack _); vm_compute; exact I).
    intros i [s Hs]. exact (H _ _ Hs).
  - exact prune_runs.
  - split; [exact Hs|]. split; vm_compute; reflexivity.
Defined.
End PruneWitness.
