(* ===== verification/SharingStore.v ===== *)
(** * Sharing keys keep to their account

    Over any history of the transactions of the store: the totals of a sharing key are
    those of the objects that are attached to it, which exist and belong to the account
    of the key; and what is attached is what the holder of the key reads. *)

From S2P Require Import Prelude Encoding External Stream HostQueue Hosts Alerts HostManager Contract Slabs Objects Accounts App Connect Sharing Tables SlabTables SectorTables ContractTables HostTables AppTables FundingTables SharingTables References PinStore Totals SlabStore ObjectStore AppStore History Serving.

(** ** What the other transactions leave of objects *)

Section base.
Local Open Scope go_scope.
Context {C : CurrencyOps} {R : RhpOps} {E : EncoderOps}.
Context {V : V2.Methods} {PN : ProtocolNames} {CC : ContractColumns} {HC : HostColumns} {SM : SqlMath}.
Context (order : ∀ A, list A → list A).

(** Objects are never numbered twice, and keep their account and their name. *)
Record stable (objs : gmap Z ObjectRow) (n : Z) (d : db) : Prop := {
  sb_objects : objects_numbered d;
  sb_old : ∀ i, is_Some (objs !! i) → (i ≤ currval "objects" d)%Z;
  sb_keys : (n ≤ currval "sharing_keys" d)%Z;
  sb_same : ∀ i o o', objs !! i = Some o → objects d !! i = Some o' → o_account_id o' = o_account_id o ∧ o_object_key o' = o_object_key o }.

Lemma stable_refl d : objects_numbered d → stable (objects d) (currval "sharing_keys" d) d.
Proof. intros Hn. split; [done| |done|by intros; simplify_eq]. intros i [o Ho]. by eapply Hn. Qed.

Lemma stable_others objs n d d' :
  objects d' = objects d → (∀ t, t ∈ ["objects"; "sharing_keys"] → currval t d' = currval t d) → stable objs n d → stable objs n d'.
Proof. intros E1 E2 [H1 H2 H3 H4]. split; unfold objects_numbered in *; rewrite ?E1, ?E2 by set_solver; done. Qed.
Lemma stable_sequence objs n t x d : t ∉ ["objects"; "sharing_keys"] → stable objs n d → stable objs n (set_sequences (insert t x) d).
Proof. intros Ht. apply stable_others; [done|]. intros u Hu. unfold currval. cbn. rewrite lookup_insert_ne; [done|]. set_solver. Qed.
Lemma stable_sub objs n f d :
  (∀ i o, f (objects d) !! i = Some o → objects d !! i = Some o) → stable objs n d → stable objs n (set_objects f d).
Proof. intros Hf [H1 H2 H3 H4]. split; [|done|done|]; unfold objects_numbered; cbn; [intros i o Ho; apply (H1 i o); auto|eauto]. Qed.
Lemma stable_delete_rows objs n P d : stable objs n d → stable objs n (set_objects (delete_rows P) d).
Proof. apply stable_sub. by intros i o [H _]%delete_rows_lookup. Qed.

Lemma keeps_upsert_object objs n a obj : keeps (stable objs n) (upsert_object a obj).
Proof.
  intros d Hd. pose proof Hd as [H1 H2 H3 H4]. unfold upsert_object. cbn zeta. do 4 tx_step. destruct (find_object a (PR_ID obj) d) as [[oid o]|] eqn:Hf.
  - apply find_row_Some in Hf as [Ho [Ha%Z.eqb_eq Hk%N.eqb_eq]%andb_prop]. tx_steps. split; [|done|done|]; unfold objects_numbered; cbn.
    + intros i x [[<- _]|[_ Hi]]%lookup_insert_Some; eauto.
    + intros i x x' Hx [[<- <-]|[_ Hi]]%lookup_insert_Some; [|eauto]. destruct (H4 _ _ _ Hx Ho) as [<- <-]. by split.
  - tx_steps. set (m := (currval "objects" d + 1)%Z). set (d1 := set_objects _ _).
    assert (currval "objects" d1 = m) as Em by (unfold currval; cbn; by rewrite lookup_insert_eq).
    assert (currval "sharing_keys" d1 = currval "sharing_keys" d) as Es by (unfold currval; cbn; by rewrite lookup_insert_ne).
    split; rewrite ?Es; [..|done|]; unfold objects_numbered; rewrite ?Em; cbn.
    + intros i x [[<- _]|[_ Hi]]%lookup_insert_Some; [done|]. apply H1 in Hi. lia.
    + intros i Hi. apply H2 in Hi. lia.
    + intros i x x' Hx [[<- _]|[_ Hi]]%lookup_insert_Some; [|eauto]. specialize (H2 m ltac:(by eexists)). lia.
Qed.
Hint Extern 1 (keeps _ (upsert_object _ _)) => apply keeps_upsert_object : keeps.
Hint Extern 2 (keeps _ (nextval _)) => apply keeps_nextval; intros; apply stable_sequence; [set_solver|assumption] : keeps.
Hint Resolve stable_delete_rows : keeps.
Hint Extern 3 (stable _ _ _) => eapply stable_others; [| |eassumption]; [reflexivity|intros; reflexivity] : keeps.
Hint Extern 1 (keeps _ (insert_slab_sectors _ _ _)) => apply keeps_insert_slab_sectors; intros; auto with keeps nocore : keeps.
Hint Extern 1 (keeps _ (insert_object_slabs _ _ _)) => apply keeps_insert_object_slabs; intros; auto with keeps nocore : keeps.

Lemma run_tx_stable objs n tx : keeps (stable objs n) (run_tx order tx).
Proof.
  destruct tx as [tx|tx|tx|tx|tx]; destruct tx; keeps.
Qed.
End base.

(** ** The trigger *)

Section totals.
Implicit Types m : gmap (Z * Z) SharedObjectRow.

Lemma sum_of_key_empty c id : sum_of_key c id ∅ = 0%Z.
Proof. apply msum_empty. Qed.
Lemma sum_of_key_insert c id m k o :
  sum_of_key c id (<[k := o]> m) =
    (sum_of_key c id m + sum_of_key c id {[k := o]} - sum_of_key c id (match m !! k with Some o => {[k := o]} | None => ∅ end))%Z.
Proof.
  unfold sum_of_key. assert (∀ f o', msum f ({[k := o']} : gmap (Z * Z) SharedObjectRow) = f k o') as Hs.
  { intros f o'. rewrite <-insert_empty, msum_insert, msum_empty by apply lookup_empty. lia. }
  rewrite Hs. destruct (m !! k) as [o'|] eqn:Hk.
  - rewrite (msum_update _ _ _ _ _ Hk), Hs. lia.
  - rewrite msum_insert, msum_empty by done. lia.
Qed.
Lemma msum_filter (f : Z * Z → SharedObjectRow → Z) m (P : Z * Z → bool) :
  (msum f m - msum (λ k o, if negb (P k) then f k o else 0) m)%Z = msum (λ k o, if P k then f k o else 0)%Z m.
Proof.
  assert (msum f m = msum (λ k o, if P k then f k o else 0) m + msum (λ k o, if negb (P k) then f k o else 0) m)%Z as Ha; [|lia].
  rewrite <-msum_add. apply msum_ext. intros k o _. destruct (P k); cbn; lia.
Qed.
Lemma sum_of_key_delete c id m (P : Z * Z → bool) :
  sum_of_key c id (delete_rows (λ k _, P k) m) = (sum_of_key c id m - sum_of_key c id (filter (λ p, P p.1 = true) m))%Z.
Proof.
  unfold sum_of_key. rewrite msum_delete_rows. f_equal. symmetry.
  assert (filter (λ p, P p.1 = true) m = delete_rows (λ k _, negb (P k)) m) as ->.
  { unfold delete_rows. apply map_filter_ext. intros k o _. cbn. by destruct (P k). }
  rewrite msum_delete_rows. apply msum_filter.
Qed.
Lemma sum_of_key_absent c id m : id ∉ keys_of m → sum_of_key c id m = 0%Z.
Proof.
  intros Hid. apply msum_zero. intros k o Hk. destruct (Z.eqb_spec k.2 id) as [<-|]; [|done]. destruct Hid. unfold keys_of.
  apply elem_of_map. exists k. split; [done|]. by apply elem_of_dom_2 in Hk.
Qed.
End totals.

(** What the trigger leaves of a key *)
Definition key_fields (k : SharingKeyRow) := (sk_account_id k, sk_public_key k, sk_nonce k, sk_use_description k, sk_expires_at k, sk_created_at k).
Definition moved (δ : Z → column → Z) (keys keys' : gmap Z SharingKeyRow) : Prop :=
  ∀ id, option_Forall2 (λ k k', key_fields k' = key_fields k ∧ ∀ c, key_total c k' = (key_total c k + δ id c)%Z) (keys !! id) (keys' !! id).

Lemma moved_Some δ keys keys' id k' : moved δ keys keys' → keys' !! id = Some k' →
  ∃ k, keys !! id = Some k ∧ key_fields k' = key_fields k ∧ ∀ c, key_total c k' = (key_total c k + δ id c)%Z.
Proof. intros Hm Hk'. specialize (Hm id). rewrite Hk' in Hm. inversion Hm as [k ? [H1 H2] E1|]; subst. exists k. by split. Qed.
Lemma moved_None δ keys keys' id : moved δ keys keys' → is_Some (keys' !! id) ↔ is_Some (keys !! id).
Proof. intros Hm. specialize (Hm id). inversion Hm; subst; [split; by eexists|]. split; by intros []. Qed.

Section trigger.
Local Open Scope go_scope.

Lemma commits_lift1 {S L A} (m : M S A) (Q : A → S * L → Prop) p : commits m (λ a s, Q a (s, p.2)) p.1 → commits (lift1 m) Q p.
Proof.
  destruct p as [s l]. intros Hm a p'. unfold lift1. destruct (m s) as [r s1] eqn:Hr. intros [= -> <-]. by apply Hm.
Qed.
Lemma commits_set_local {S L} (f : L → L) (Q : unit → S * L → Prop) p : Q tt (p.1, f p.2) → commits (set_local f) Q p.
Proof. destruct p as [s l]. by intros HQ [] p' [= <-]. Qed.

Lemma maintain_keys_commits old new ids (s : sdb) :
  NoDup ids →
  commits (forM ids (maintain_key old new)) (λ _ s', s'.1 = s.1 ∧ shared_objects s'.2 = shared_objects s.2 ∧
    moved (λ id c, if bool_decide (id ∈ ids) then sum_of_key c id new - sum_of_key c id old else 0)%Z (sharing_keys s.2) (sharing_keys s'.2)) s.
Proof.
  intros Hn. revert s. induction Hn as [|id ids Hid Hn IH]; intros s; cbn [forM].
  - tx_step. split; [done|]. split; [done|]. intros i. destruct (sharing_keys s.2 !! i); constructor.
    split; [done|]. intros c. rewrite bool_decide_eq_false_2 by (by intros ?%elem_of_nil). lia.
  - tx_step. unfold maintain_key. do 2 tx_step. destruct (sharing_keys s.2 !! id) as [k|] eqn:Hk.
    + tx_step. eapply (commits_mono _ (λ _ s', s' = s)).
      { apply (commits_forM (λ s', s' = s)); [done|]. intros c s1 _ ->. by tx_steps. }
      intros [] s1 ->. apply commits_set_local. eapply commits_mono; [apply IH|]. cbn. intros _ s' (E1 & E2 & Hm). split; [done|]. split; [done|].
      intros i. specialize (Hm i). cbn in Hm. destruct (decide (i = id)) as [->|Hne].
      * rewrite lookup_insert_eq in Hm. rewrite bool_decide_eq_false_2 in Hm by done. rewrite Hk, bool_decide_eq_true_2 by (by left).
        inversion Hm as [k1 k' [H1 H2] X1 X2|X1 X2]; subst. constructor. split; [by rewrite H1|]. intros c. rewrite H2. destruct c; cbn; lia.
      * rewrite lookup_insert_ne in Hm by done. destruct (decide (i ∈ ids)) as [Hin|Hin].
        -- rewrite (bool_decide_eq_true_2 (i ∈ id :: ids)) by (by right). by rewrite (bool_decide_eq_true_2 (i ∈ ids)) in Hm.
        -- rewrite (bool_decide_eq_false_2 (i ∈ id :: ids)) by (by rewrite elem_of_cons; intros [|]). by rewrite (bool_decide_eq_false_2 (i ∈ ids)) in Hm.
    + tx_step. eapply commits_mono; [apply IH|]. cbn. intros _ s' (E1 & E2 & Hm). split; [done|]. split; [done|].
      intros i. specialize (Hm i). cbn in Hm. destruct (decide (i = id)) as [->|Hne]; [rewrite Hk in *; by inversion Hm; constructor|].
      destruct (decide (i ∈ ids)) as [Hin|Hin].
      * rewrite (bool_decide_eq_true_2 (i ∈ id :: ids)) by (by right). by rewrite (bool_decide_eq_true_2 (i ∈ ids)) in Hm.
      * rewrite (bool_decide_eq_false_2 (i ∈ id :: ids)) by (by rewrite elem_of_cons; intros [|]). by rewrite (bool_decide_eq_false_2 (i ∈ ids)) in Hm.
Qed.

Lemma maintain_commits old new (s : sdb) :
  commits (shared_objects_maintain_totals old new) (λ _ s', s'.1 = s.1 ∧ shared_objects s'.2 = shared_objects s.2 ∧
    moved (λ id c, sum_of_key c id new - sum_of_key c id old)%Z (sharing_keys s.2) (sharing_keys s'.2)) s.
Proof.
  eapply commits_mono; [apply maintain_keys_commits, NoDup_elements|]. cbn. intros _ s' (E1 & E2 & Hm). split; [done|]. split; [done|].
  intros id. specialize (Hm id). cbn in Hm. destruct (decide (id ∈ elements (keys_of old ∪ keys_of new))) as [Hin|Hout].
  - by rewrite (bool_decide_eq_true_2 (id ∈ elements _)) in Hm.
  - rewrite (bool_decide_eq_false_2 (id ∈ elements _)) in Hm by done. rewrite elem_of_elements, not_elem_of_union in Hout. destruct Hout as [Ho Hn].
    inversion Hm as [k k' [H1 H2]|]; constructor. split; [done|]. intros c. rewrite H2, !sum_of_key_absent by done. lia.
Qed.

(** The totals are those of the attached objects. *)
Definition totals_right (s : sdb) : Prop := ∀ id k c, sharing_keys s.2 !! id = Some k → key_total c k = sum_of_key c id (shared_objects s.2).

Lemma delete_shared_objects_commits P (s : sdb) :
  totals_right s →
  commits (delete_shared_objects P) (λ n s', s'.1 = s.1 ∧ shared_objects s'.2 = delete_rows (λ k _, P k) (shared_objects s.2) ∧
    n = size (filter (λ p, P p.1 = true) (shared_objects s.2)) ∧ totals_right s' ∧ ∃ δ, moved δ (sharing_keys s.2) (sharing_keys s'.2)) s.
Proof.
  intros Ht. unfold delete_shared_objects. do 3 tx_step. apply commits_set_local. tx_step. eapply commits_mono; [apply maintain_commits|].
  cbn. intros _ s' (E1 & E2 & Hm). tx_step. split; [done|]. split; [done|]. split; [done|]. split; [|by eexists].
  intros id k' c Hk'. destruct (moved_Some _ _ _ _ _ Hm Hk') as (k & Hk & _ & H2). rewrite H2, E2, sum_of_key_delete, sum_of_key_empty, (Ht _ _ c Hk). lia.
Qed.
End trigger.

(** ** The invariant *)

(** What holds of the sharing keys while another transaction runs ... *)
Record loose (s : sdb) : Prop := {
  lo_key : ∀ k o, shared_objects s.2 !! k = Some o → ∃ sk, sharing_keys s.2 !! k.2 = Some sk ∧
    ∀ ob, objects s.1 !! k.1 = Some ob → o_account_id ob = sk_account_id sk;
  lo_totals : totals_right s;
  lo_unique : ∀ i j k k', sharing_keys s.2 !! i = Some k → sharing_keys s.2 !! j = Some k' → sk_public_key k = sk_public_key k' → i = j;
  lo_numbered : ∀ i, is_Some (sharing_keys s.2 !! i) → (i ≤ currval "sharing_keys" s.1)%Z }.

(** ... and between transactions: the rows they refer to are there. *)
Record shares_ok (s : sdb) : Prop := {
  sh_loose : loose s;
  sh_owner : ∀ i k, sharing_keys s.2 !! i = Some k → is_Some (accounts s.1 !! sk_account_id k);
  sh_object : ∀ k, is_Some (shared_objects s.2 !! k) → is_Some (objects s.1 !! k.1) }.

Section invariant.
Local Open Scope go_scope.
Context {C : CurrencyOps} {R : RhpOps} {E : EncoderOps}.
Context {V : V2.Methods} {PN : ProtocolNames} {CC : ContractColumns} {HC : HostColumns} {SM : SqlMath}.
Context (order : ∀ A, list A → list A).

Lemma key_fields_eq k k' : key_fields k' = key_fields k → sk_account_id k' = sk_account_id k ∧ sk_public_key k' = sk_public_key k.
Proof. unfold key_fields. by intros [= -> -> _ _ _ _]. Qed.

(** Keys stay, but for some and their totals; objects are detached. *)
Record shrunk (s s' : sdb) : Prop := {
  sk_base : s'.1 = s.1;
  sk_keys : ∀ i k', sharing_keys s'.2 !! i = Some k' → ∃ k, sharing_keys s.2 !! i = Some k ∧ key_fields k' = key_fields k;
  sk_rows : ∀ k o, shared_objects s'.2 !! k = Some o → shared_objects s.2 !! k = Some o }.

Lemma shrunk_loose s s' : loose s → shrunk s s' → totals_right s' → (∀ k, is_Some (shared_objects s'.2 !! k) → is_Some (sharing_keys s'.2 !! k.2)) → loose s'.
Proof.
  intros [H1 _ H3 H4] [E1 Hk Hr] Ht Hs. split; [|done|..]; rewrite ?E1.
  - intros k o Ho. destruct (Hs k) as [sk' Hsk]; [by eexists|]. exists sk'. split; [done|]. intros ob Hob.
    destruct (Hk _ _ Hsk) as (sk & Hsk' & [-> _]%key_fields_eq). destruct (H1 _ _ (Hr _ _ Ho)) as (sk2 & Hsk2 & Hacc). simplify_eq. by apply Hacc.
  - intros i j k k' Hi Hj Ek. destruct (Hk _ _ Hi) as (x & Hx & [_ Ex]%key_fields_eq). destruct (Hk _ _ Hj) as (y & Hy & [_ Ey]%key_fields_eq).
    apply (H3 i j x y Hx Hy). congruence.
  - intros i [k' Hi]. destruct (Hk _ _ Hi) as (k & Hk' & _). apply H4. by eexists.
Qed.
Lemma shrunk_ok s s' : shares_ok s → shrunk s s' → loose s' → shares_ok s'.
Proof.
  intros [_ H2 H3] [E1 Hk Hr] Hl. split; [done|..]; rewrite ?E1.
  - intros i k' Hi. destruct (Hk _ _ Hi) as (k & Hk' & [-> _]%key_fields_eq). by eapply H2.
  - intros k [o Ho]. apply H3. exists o. by apply Hr.
Qed.

Lemma detach_commits P (s : sdb) :
  loose s → commits (delete_shared_objects P) (λ n s', shrunk s s' ∧ loose s' ∧
    shared_objects s'.2 = delete_rows (λ k _, P k) (shared_objects s.2) ∧ n = size (filter (λ p, P p.1 = true) (shared_objects s.2)) ∧
    ∀ i, is_Some (sharing_keys s'.2 !! i) ↔ is_Some (sharing_keys s.2 !! i)) s.
Proof.
  intros Hl. eapply commits_mono; [apply delete_shared_objects_commits, Hl|]. cbn. intros n s' (E1 & E2 & En & Ht & δ & Hm).
  assert (∀ i, is_Some (sharing_keys s'.2 !! i) ↔ is_Some (sharing_keys s.2 !! i)) as Hi by (intros i; by eapply moved_None).
  assert (shrunk s s') as Hs.
  { split; [done|..].
    - intros i k' Hk'. destruct (moved_Some _ _ _ _ _ Hm Hk') as (k & Hk & Hf & _). by exists k.
    - rewrite E2. by intros k o [Ho _]%delete_rows_lookup. }
  split; [done|]. split; [|by split]. apply (shrunk_loose s); [done..|]. rewrite E2. intros k [o [Ho _]%delete_rows_lookup]. apply Hi.
  destruct (lo_key _ Hl _ _ Ho) as (sk & Hsk & _). by eexists.
Qed.

Lemma delete_keys_commits P (s : sdb) :
  loose s → commits (delete_sharing_keys P) (λ n s', shrunk s s' ∧ loose s' ∧ n = size (filter (λ p, P p.2 = true) (sharing_keys s.2)) ∧
    (∀ i k', sharing_keys s'.2 !! i = Some k' → ∃ k, sharing_keys s.2 !! i = Some k ∧ P k = false) ∧
    (∀ i k, sharing_keys s.2 !! i = Some k → P k = false → is_Some (sharing_keys s'.2 !! i))) s.
Proof.
  intros Hl. unfold delete_sharing_keys. do 3 tx_step. apply commits_set_local. tx_step. set (gone := filter _ _). set (s1 := (s.1, _)).
  assert (totals_right s1) as Ht. { intros i k c [Hk _]%delete_rows_lookup. by apply Hl. }
  eapply commits_mono; [by apply delete_shared_objects_commits|]. cbn. intros n s' (E1 & E2 & En & Ht' & δ & Hm). tx_step.
  assert (∀ i k', sharing_keys s'.2 !! i = Some k' → ∃ k, sharing_keys s.2 !! i = Some k ∧ key_fields k' = key_fields k ∧ P k = false) as Hk.
  { intros i k' Hk'. destruct (moved_Some _ _ _ _ _ Hm Hk') as (k & [Hk Hp]%delete_rows_lookup & Hf & _). by exists k. }
  assert (∀ i k, sharing_keys s.2 !! i = Some k → P k = false → is_Some (sharing_keys s'.2 !! i)) as Hs.
  { intros i k Hi Hp. apply (moved_None _ _ _ _ Hm). exists k. by apply delete_rows_lookup. }
  assert (shrunk s s') as Hsh.
  { split; [done|..].
    - intros i k' Hk'. destruct (Hk _ _ Hk') as (k & ? & ? & _). by exists k.
    - rewrite E2. by intros k o [Ho _]%delete_rows_lookup. }
  split; [done|]. split; [|split; [done|split; [|done]]].
  - apply (shrunk_loose s); [done..|]. rewrite E2. intros k [o [Ho Hn%bool_decide_eq_false]%delete_rows_lookup].
    destruct (lo_key _ Hl _ _ Ho) as (sk & Hsk & _). apply (Hs k.2 sk Hsk). destruct (P sk) eqn:Hp; [|done]. destruct Hn.
    apply elem_of_dom. exists sk. by apply map_lookup_filter_Some.
  - intros i k' Hk'. destruct (Hk _ _ Hk') as (k & ? & _ & ?). by exists k.
Qed.

(** The cascades repair what a transaction on the other tables leaves behind. *)
Lemma shrunk_trans s1 s2 s3 : shrunk s1 s2 → shrunk s2 s3 → shrunk s1 s3.
Proof.
  intros [E1 K1 R1] [E2 K2 R2]. split; [congruence| |auto]. intros i k3 H3. destruct (K2 _ _ H3) as (k2 & H2 & F2). destruct (K1 _ _ H2) as (k1 & H1 & F1).
  exists k1. split; [done|congruence].
Qed.
Lemma cascade_commits (s : sdb) : loose s → commits cascade (λ _ s', shrunk s s' ∧ shares_ok s') s.
Proof.
  intros Hl. unfold cascade. do 3 tx_step. eapply commits_mono; [by apply delete_keys_commits|]. cbn. intros n s1 (Hs1 & Hl1 & _ & Hown & _).
  pose proof Hs1 as [E1 Hk1 Hr1].
  tx_step. eapply commits_mono; [by apply detach_commits|]. cbn. intros m s2 (Hs2 & Hl2 & Er & _ & _).
  pose proof Hs2 as [E2 Hk2 _]. tx_step. split; [by eapply shrunk_trans|].
  split; [done|..]; rewrite E2, E1.
  - intros i k2 Hi. destruct (Hk2 _ _ Hi) as (k1 & Hi1 & [-> _]%key_fields_eq). destruct (Hown _ _ Hi1) as (k & Hi0 & Hp%bool_decide_eq_false).
    destruct (Hk1 _ _ Hi1) as (k' & Hi0' & [-> _]%key_fields_eq). simplify_eq. by apply not_eq_None_Some.
  - rewrite Er. intros k [o [_ Hn%bool_decide_eq_false]%delete_rows_lookup]. by apply not_eq_None_Some.
Qed.

Lemma stable_loose (s : sdb) d : shares_ok s → stable (objects s.1) (currval "sharing_keys" s.1) d → loose (d, s.2).
Proof.
  intros [[K1 K2 K3 K4] _ Hobj] [H1 H2 H3 H4]. split; [|done|done|]; cbn.
  - intros k o Ho. destruct (K1 _ _ Ho) as (sk & Hsk & Hacc). exists sk. split; [done|]. intros ob Hob.
    destruct (Hobj k) as [ob0 Hob0]; [by eexists|]. destruct (H4 _ _ _ Hob0 Hob) as [-> _]. by apply Hacc.
  - intros i Hi. apply K4 in Hi. lia.
Qed.
Lemma with_cascade_commits tx (s : sdb) :
  shares_ok s → objects_numbered s.1 → commits (with_cascade (run_tx order tx)) (λ _ s', shares_ok s' ∧ objects_numbered s'.1) s.
Proof.
  intros Hok Hn. unfold with_cascade. do 2 tx_step. apply commits_lift1.
  eapply commits_mono; [by apply run_tx_stable, stable_refl|]. intros [] d Hd. tx_step.
  eapply commits_mono; [by apply cascade_commits, stable_loose|]. intros _ s' [[E1 _ _] Hok']. tx_step. split; [done|]. rewrite E1. apply Hd.
Qed.

Lemma no_shares_ok d : shares_ok (d, mkShares ∅ ∅).
Proof.
  split; [split|..]; unfold totals_right; cbn.
  - intros k o Ho. by rewrite lookup_empty in Ho.
  - intros i k c Hk. by rewrite lookup_empty in Hk.
  - intros i j k k' Hk. by rewrite lookup_empty in Hk.
  - intros i [k Hk]. by rewrite lookup_empty in Hk.
  - intros i k Hk. by rewrite lookup_empty in Hk.
  - intros k [o Ho]. by rewrite lookup_empty in Ho.
Qed.

(** *** The transactions on sharing keys *)

Lemma AddSharingKey_commits account req (s : sdb) :
  shares_ok s → commits (tables_AddSharingKey account req) (λ _ s', shares_ok s' ∧ objects s'.1 = objects s.1 ∧ currval "objects" s'.1 = currval "objects" s.1) s.
Proof.
  intros [[K1 K2 K3 K4] Hown Hobj]. unfold tables_AddSharingKey. do 2 tx_step. apply commits_lift1. unfold accountID. do 2 tx_step.
  destruct (find_account account s.1) as [[a row]|] eqn:Ha; [|tx_step]. apply find_account_known in Ha. tx_step. destruct (bool_decide _); [tx_step|].
  tx_step. apply commits_lift1. do 5 tx_step. cbn beta; cbn [fst snd]. remember (currval "sharing_keys" s.1 + 1)%Z as m eqn:Em.
  destruct (exists_row _ _) eqn:Hfree; [tx_step|]. tx_step. apply commits_set_local. tx_step. cbn [fst snd].
  rewrite exists_row_false in Hfree. cbn in Hfree.
  assert (sharing_keys s.2 !! m = None) as Hnew.
  { destruct (sharing_keys s.2 !! m) eqn:Hm; [|done]. specialize (K4 m ltac:(by eexists)). lia. }
  set (k0 := mkSharingKeyRow _ _ _ _ _ _ _ _ _ _ _).
  split; [split; [split|..]|split; [done|unfold currval; cbn; by rewrite lookup_insert_ne]]; cbn.
  - intros k o Ho. destruct (K1 _ _ Ho) as (sk & Hsk & Hacc). exists sk. split; [|done]. rewrite lookup_insert_ne; [done|]. congruence.
  - unfold totals_right. cbn. intros i k c [[<- <-]|[_ Hk]]%lookup_insert_Some; [|by apply K2]. symmetry. assert (key_total c k0 = 0%Z) as -> by (by destruct c). cbn.
    apply msum_zero. intros k o Ho. destruct (Z.eqb_spec k.2 m) as [Ek|]; [|done]. destruct (K1 _ _ Ho) as (sk & Hsk & _). by rewrite Ek, Hnew in Hsk.
  - assert (∀ i k, sharing_keys s.2 !! i = Some k → sk_public_key k ≠ KR_PublicKey req) as Hne.
    { intros i k Hk Ek. specialize (Hfree _ _ Hk). by rewrite Ek, N.eqb_refl in Hfree. }
    intros i j k k' [[<- <-]|[_ Hi]]%lookup_insert_Some [[<- <-]|[_ Hj]]%lookup_insert_Some Ek; [done|by destruct (Hne _ _ Hj)|by destruct (Hne _ _ Hi)|by eapply K3].
  - unfold currval. cbn. rewrite lookup_insert_eq. cbn. intros i [->|Hi]%lookup_insert_is_Some'; [done|]. apply K4 in Hi. lia.
  - intros i k [[<- <-]|[_ Hk]]%lookup_insert_Some; [by eexists|by eapply Hown].
  - done.
Qed.

Lemma DeleteSharingKey_commits account pk (s : sdb) :
  shares_ok s → commits (tables_DeleteSharingKey account pk) (λ _ s', shares_ok s' ∧ s'.1 = s.1) s.
Proof.
  destruct s as [d sh]. intros Hok. unfold tables_DeleteSharingKey, accountID. do 2 tx_step. apply commits_lift1; cbn [fst snd]. do 2 tx_step. destruct (find_account account d) as [[a row]|]; [|tx_step].
  do 2 tx_step. eapply commits_mono; [apply delete_keys_commits, Hok|]. cbn. intros n s' (Hs & Hl & _). tx_step; [tx_step|]. tx_step.
  split; [by apply (shrunk_ok _ _ Hok)|apply Hs].
Qed.
Lemma PruneExpired_commits cutoff (s : sdb) :
  shares_ok s → commits (tables_PruneExpiredSharingKeys cutoff) (λ _ s', shares_ok s' ∧ s'.1 = s.1) s.
Proof.
  intros Hok. unfold tables_PruneExpiredSharingKeys. do 2 tx_step. eapply commits_mono; [apply delete_keys_commits, Hok|]. cbn. intros n s' (Hs & Hl & _).
  tx_step. split; [by apply (shrunk_ok _ _ Hok)|apply Hs].
Qed.
Lemma DeleteSharedObject_commits account pk key (s : sdb) :
  shares_ok s → commits (tables_DeleteSharedObject account pk key) (λ _ s', shares_ok s' ∧ s'.1 = s.1) s.
Proof.
  destruct s as [d sh]. intros Hok. unfold tables_DeleteSharedObject, accountID. do 2 tx_step. apply commits_lift1; cbn [fst snd]. do 2 tx_step. destruct (find_account account d) as [[a row]|]; [|tx_step].
  do 4 tx_step. eapply commits_mono; [apply detach_commits, Hok|]. cbn. intros n s' (Hs & Hl & _). tx_step; [tx_step|]. tx_step.
  split; [by apply (shrunk_ok _ _ Hok)|apply Hs].
Qed.

(** Attaching an object to a key of its account *)
Lemma insert_shared_object_commits k req size data psize ob sk (s : sdb) :
  shares_ok s → objects s.1 !! k.1 = Some ob → sharing_keys s.2 !! k.2 = Some sk → o_account_id ob = sk_account_id sk →
  commits (insert_shared_object k req size data psize) (λ _ s', shares_ok s' ∧ s'.1 = s.1 ∧
    (∃ created, shared_objects s'.2 = <[k := attached_row req size data psize created (db_now s.1)]> (shared_objects s.2)) ∧
    ∃ δ, moved δ (sharing_keys s.2) (sharing_keys s'.2)) s.
Proof.
  intros [[K1 K2 K3 K4] Hown Hobj] Hob Hsk Hacc. unfold insert_shared_object, encode_int8. tx_step. tx_step; [|tx_step]. do 2 tx_step. tx_step; [|tx_step]. do 3 tx_step.
  cbv zeta. set (r := attached_row _ _ _ _ _ _). do 5 tx_step. apply commits_set_local. eapply commits_mono; [apply maintain_commits|]. cbn. intros _ s' (E1 & E2 & Hm).
  assert (∀ i k', sharing_keys s'.2 !! i = Some k' → ∃ x, sharing_keys s.2 !! i = Some x ∧ key_fields k' = key_fields x) as Hk.
  { intros i k' Hk'. destruct (moved_Some _ _ _ _ _ Hm Hk') as (x & Hx & Hf & _). by exists x. }
  split; [|split; [done|split; [by eexists|by eexists]]]. split; [split|..]; rewrite ?E1, ?E2.
  - intros k1 o Ho. assert (∃ x, sharing_keys s.2 !! k1.2 = Some x ∧ ∀ b, objects s.1 !! k1.1 = Some b → o_account_id b = sk_account_id x) as (x & Hx & Hb).
    { apply lookup_insert_Some in Ho as [[<- _]|[_ Ho]]; [|by eapply K1]. exists sk. split; [done|]. intros b Hb. congruence. }
    destruct (proj2 (moved_None _ _ _ k1.2 Hm) ltac:(by eexists)) as [k' Hk']. exists k'. split; [done|]. destruct (Hk _ _ Hk') as (x' & Hx' & [-> _]%key_fields_eq). simplify_eq. done.
  - intros i k' c Hk'. destruct (moved_Some _ _ _ _ _ Hm Hk') as (x & Hx & _ & H2). rewrite H2, E2, sum_of_key_insert, (K2 _ _ c Hx). lia.
  - intros i j k1 k2 Hi Hj Ek. destruct (Hk _ _ Hi) as (x & Hx & [_ Ex]%key_fields_eq). destruct (Hk _ _ Hj) as (y & Hy & [_ Ey]%key_fields_eq).
    apply (K3 i j x y Hx Hy). congruence.
  - intros i Hi. apply K4. by apply (moved_None _ _ _ i Hm).
  - intros i k' Hi. destruct (Hk _ _ Hi) as (x & Hx & [-> _]%key_fields_eq). by eapply Hown.
  - intros k1 [->|Hk1]%lookup_insert_is_Some'; [by eexists|by apply Hobj].
Qed.

(** What attaching an object writes *)
Lemma AddSharedObject_commits account pk req (s : sdb) :
  shares_ok s → commits (tables_AddSharedObject account pk req) (λ _ s', shares_ok s' ∧ s'.1 = s.1 ∧
    ∃ a row id sk oid ob size data psize created δ, find_account account s.1 = Some (a, row) ∧ is_live row = true ∧
      sharing_keys s.2 !! id = Some sk ∧ sk_public_key sk = pk ∧ sk_account_id sk = a ∧ unexpired (db_now s.1) sk = true ∧
      objects s.1 !! oid = Some ob ∧ o_account_id ob = a ∧ o_object_key ob = SR_ObjectID req ∧ blocked_objects s.1 !! SR_ObjectID req = None ∧
      shared_objects s'.2 = <[(oid, id) := attached_row req size data psize created (db_now s.1)]> (shared_objects s.2) ∧
      moved δ (sharing_keys s.2) (sharing_keys s'.2)) s.
Proof.
  destruct s as [d sh]. intros Hok. unfold tables_AddSharedObject, accountID, assertObjectNotBlocked. do 2 tx_step. apply commits_lift1; cbn [fst snd]. do 2 tx_step.
  destruct (find_account account d) as [[a row]|] eqn:Ha; [|tx_step]. tx_step. destruct (bool_decide (is_Some (a_deleted_at row))) eqn:Hlive; [tx_step|]. do 2 tx_step. cbn [fst snd].
  destruct (find_row _ (sharing_keys sh)) as [[id sk]|] eqn:Hsk; [|tx_step]. apply find_row_Some in Hsk as [Hsk [[Hpk%N.eqb_eq Hacc%Z.eqb_eq]%andb_prop Hexp]%andb_prop].
  tx_step. apply commits_lift1; cbn [fst snd]. do 2 tx_step. destruct (blocked_objects d !! SR_ObjectID req) eqn:Hb; [tx_step|]. tx_step. cbn [fst snd].
  destruct (find_object a (SR_ObjectID req) d) as [[oid ob]|] eqn:Hob; [|tx_step]. apply find_row_Some in Hob as [Hob [Hoa%Z.eqb_eq Hok'%N.eqb_eq]%andb_prop].
  do 6 tx_step. apply commits_try.
  - eapply commits_mono; [eapply (insert_shared_object_commits (oid, id)); [done|exact Hob|exact Hsk|congruence]|]. intros [] s' (H1 & H2 & [created H3] & δ & H4).
    tx_step. split; [done|]. split; [done|]. exists a, row, id, sk, oid, ob. do 4 eexists. exists δ. split_and!; try done.
    unfold is_live. by rewrite bool_decide_decide in Hlive |- *; destruct (a_deleted_at row); [destruct (decide _) as [|Hn]; [|destruct Hn; eexists]|].
  - intros [[]|e|] s' Hr; [by destruct (Hr tt)| |tx_step]. destruct (errors_Is _ _); tx_step.
Qed.

(** ** Histories *)

Inductive sharing_tx : Type :=
| TxAddSharingKey (account : PublicKey) (req : KeyRequest)
| TxDeleteSharingKey (account pk : PublicKey)
| TxAddSharedObject (account pk : PublicKey) (req : SharedObjectRequest)
| TxDeleteSharedObject (account pk : PublicKey) (key : Hash256)
| TxPruneExpiredSharingKeys (cutoff : Z).

Definition run_sharing_tx (tx : sharing_tx) : M sdb unit :=
  match tx with
  | TxAddSharingKey account req => void (tables_AddSharingKey account req)
  | TxDeleteSharingKey account pk => tables_DeleteSharingKey account pk
  | TxAddSharedObject account pk req => tables_AddSharedObject account pk req
  | TxDeleteSharedObject account pk key => tables_DeleteSharedObject account pk key
  | TxPruneExpiredSharingKeys cutoff => tables_PruneExpiredSharingKeys cutoff
  end.

(** Transactions run one after another, at whatever times and with whatever outcomes. *)
Inductive shared_history (s0 : sdb) : sdb → Prop :=
| shared_start : shared_history s0 s0
| shared_base s t tx r s' : shared_history s0 s → with_cascade (run_tx order tx) (at_time t s.1, s.2) = (r, s') → shared_history s0 s'
| shared_tx s t tx r s' : shared_history s0 s → run_sharing_tx tx (at_time t s.1, s.2) = (r, s') → shared_history s0 s'.

Definition store_shares_ok (s : sdb) : Prop := shares_ok s ∧ objects_numbered s.1.

Lemma shares_at_time t (s : sdb) : store_shares_ok s → store_shares_ok (at_time t s.1, s.2).
Proof. destruct s as [d sh]. intros [[[H1 H2 H3 H4] H5 H6] H7]. by repeat split. Qed.

Lemma keeps_sharing_tx tx : keeps store_shares_ok (run_sharing_tx tx).
Proof.
  intros s [Hok Hn]. assert (∀ s' : sdb, shares_ok s' ∧ s'.1 = s.1 → store_shares_ok s') as Hsame by (by intros s' [H1 E1]; split; [|rewrite E1]).
  destruct tx; cbn [run_sharing_tx].
  - unfold void. tx_step. eapply commits_mono; [by apply AddSharingKey_commits|]. cbn. intros k s' (H1 & E1 & E2). tx_step. split; [done|]. unfold objects_numbered. by rewrite E1, E2.
  - eapply commits_mono; [by apply DeleteSharingKey_commits|]. cbn. auto.
  - eapply commits_mono; [by apply AddSharedObject_commits|]. cbn. intros _ s' (H1 & E1 & _). auto.
  - eapply commits_mono; [by apply DeleteSharedObject_commits|]. cbn. auto.
  - eapply commits_mono; [by apply PruneExpired_commits|]. cbn. auto.
Qed.

Lemma run_sharing_tx_fails tx s r s' : run_sharing_tx tx s = (r, s') → (∀ a, r ≠ Ok a) → s' = s.
Proof.
  destruct tx; cbn [run_sharing_tx]; try apply transaction_fails. apply void_fails. intros r1 d1. apply transaction_fails.
Qed.

Lemma shared_history_ok s0 s : store_shares_ok s0 → shared_history s0 s → store_shares_ok s.
Proof.
  intros H0. induction 1 as [|s t tx r s' Hh IH Hrun|s t tx r s' Hh IH Hrun]; [done|..]; specialize (shares_at_time t _ IH) as Ht.
  - destruct r as [[]|e|]; [|rewrite (transaction_fails _ _ _ _ Hrun) by done; done..]. destruct Ht as [Hok Hn]. exact (with_cascade_commits tx _ Hok Hn _ _ Hrun).
  - destruct r as [[]|e|]; [|rewrite (run_sharing_tx_fails _ _ _ _ Hrun) by done; done..]. exact (keeps_sharing_tx tx _ Ht _ _ Hrun).
Qed.

(** C21. Sharing keys keep to their account: over any history of transactions, on sharing
    keys or on the other tables, at whatever times and with whatever outcomes, every key
    belongs to an account that exists and its totals are exactly the number and the sizes
    of the objects that are attached to it; and every attached object exists and belongs
    to the account of the key. Deleting an object, an account or a key detaches. *)
Theorem sharing_totals_kept s0 s :
  shares_ok s0 → objects_numbered s0.1 → shared_history s0 s →
  (∀ id k, sharing_keys s.2 !! id = Some k →
     is_Some (accounts s.1 !! sk_account_id k) ∧ ∀ c, key_total c k = sum_of_key c id (shared_objects s.2)) ∧
  ∀ k o, shared_objects s.2 !! k = Some o →
    ∃ ob sk, objects s.1 !! k.1 = Some ob ∧ sharing_keys s.2 !! k.2 = Some sk ∧ o_account_id ob = sk_account_id sk.
Proof.
  intros H1 H2 Hh. destruct (shared_history_ok s0 s (conj H1 H2) Hh) as [[Hl Hown Hobj] _]. split.
  - intros id k Hk. split; [by eapply Hown|]. intros c. by apply Hl.
  - intros k o Ho. destruct (lo_key _ Hl _ _ Ho) as (sk & Hsk & Hacc). destruct (Hobj k) as [ob Hob]; [by eexists|]. exists ob, sk. auto.
Qed.

(** ** What the holder of a key reads *)

Context {G : SigOps}.

(** The account has no object of that name. *)
Definition absent (a : Z) (key : Hash256) (d : db) : Prop := ∀ i o, objects d !! i = Some o → o_account_id o = a → o_object_key o ≠ key.
Lemma DeleteObject_absent account key d a row :
  unique_ok d → find_account account d = Some (a, row) → commits (tables_DeleteObject account key) (λ _, absent a key) d.
Proof.
  intros Hu Ha. unfold tables_DeleteObject, accountID. do 4 tx_step. rewrite Ha. do 3 tx_step. cbn [fst].
  destruct (find_object a key d) as [[oid o]|] eqn:Ho; [|tx_step]. apply find_row_Some in Ho as [Ho [Hoa%Z.eqb_eq Hok%N.eqb_eq]%andb_prop].
  cbv zeta. unfold delete_objects. do 4 tx_step.
  assert (absent a key (set_object_slabs (delete_rows (λ k _, bool_decide (k.1 ∈ [oid]))) (set_objects (delete_rows (λ i _, bool_decide (i ∈ [oid]))) d))) as Hd.
  { intros i x [Hi Hn%bool_decide_eq_false]%delete_rows_lookup Hx Ek. destruct Hn. apply list_elem_of_singleton. apply (uq_objects _ Hu _ _ _ _ Hi Ho); congruence. }
  revert Hd. generalize (set_object_slabs (delete_rows (λ k _, bool_decide (k.1 ∈ [oid]))) (set_objects (delete_rows (λ i _, bool_decide (i ∈ [oid]))) d)).
  intros d1 Hd. eapply (λ H : keeps (absent a key) _, H d1 Hd). keeps.
Qed.

Lemma find_sharing_key_moved δ pk (s s' : sdb) id sk row :
  shares_ok s' → s'.1 = s.1 → moved δ (sharing_keys s.2) (sharing_keys s'.2) → sharing_keys s.2 !! id = Some sk → sk_public_key sk = pk →
  unexpired (db_now s.1) sk = true → accounts s.1 !! sk_account_id sk = Some row → is_live row = true →
  ∃ sk', find_sharing_key pk s' = Some (id, sk', row) ∧ sharing_keys s'.2 !! id = Some sk' ∧ sk_account_id sk' = sk_account_id sk.
Proof.
  intros Hok E1 Hm Hsk Hpk Hexp Hrow Hlive. destruct (proj2 (moved_None _ _ _ id Hm) ltac:(by eexists)) as [sk' Hsk'].
  destruct (moved_Some _ _ _ _ _ Hm Hsk') as (x & Hx & Hf & _). rewrite Hsk in Hx. injection Hx as <-. exists sk'. pose proof (key_fields_eq _ _ Hf) as [Ea Ep].
  assert (sk_expires_at sk' = sk_expires_at sk) as Ee by (unfold key_fields in Hf; congruence). split; [|by split]. unfold find_sharing_key.
  rewrite (find_row_unique _ _ id sk'); [cbn; by rewrite E1, Ea, Hrow; cbn; rewrite Hlive|done|..].
  - by rewrite Ep, Hpk, N.eqb_refl, E1; unfold unexpired in *; rewrite Ee.
  - intros j k Hj [Hk%N.eqb_eq _]%andb_prop. eapply (lo_unique _ (sh_loose _ Hok) j id); [done..|congruence].
Qed.

(** The keys after a transaction on the other tables are keys that were there before. *)
Lemma with_cascade_keys {A} (m : M db A) (Q : db → Prop) (s : sdb) :
  loose s → (∀ d, Q d → loose (d, s.2)) → commits m (λ _, Q) s.1 →
  commits (with_cascade m) (λ _ s', Q s'.1 ∧ ∀ i k', sharing_keys s'.2 !! i = Some k' → ∃ k, sharing_keys s.2 !! i = Some k ∧ key_fields k' = key_fields k) s.
Proof.
  intros Hl HQ Hm. unfold with_cascade. do 2 tx_step. apply commits_lift1. eapply commits_mono; [done|]. intros a d Hd. tx_step.
  eapply commits_mono; [by apply cascade_commits, HQ|]. intros _ s' [[E1 Hk _] _]. tx_step. by rewrite E1.
Qed.

Lemma attached_not_found pk key a (s : sdb) so :
  shares_ok s → absent a key s.1 → (∀ i k, sharing_keys s.2 !! i = Some k → sk_public_key k = pk → sk_account_id k = a) →
  (tables_SharingKeyObject pk key s).1 ≠ Ok so.
Proof.
  intros [Hl _ _] Habs Hkeys. unfold tables_SharingKeyObject, transaction, assertObjectNotBlocked. rewrite (run_ok get _ s s s) by done.
  destruct (find_sharing_key pk s) as [[[id k] row]|] eqn:Hk; [|done]. unfold find_sharing_key in Hk.
  destruct (find_row _ (sharing_keys s.2)) as [[id' k']|] eqn:Hf; [|done]. cbn in Hk. destruct (accounts s.1 !! sk_account_id k') as [row'|]; [|done]. cbn in Hk.
  destruct (is_live row'); [|done]. injection Hk as -> -> ->. apply find_row_Some in Hf as [Hf [Hpk%N.eqb_eq _]%andb_prop].
  destruct s as [d sh]. cbn [fst snd] in *. unfold bindM, mbind, M_bind, lift1. destruct (blocked_objects d !! key) eqn:Hb; cbn; rewrite Hb; [done|]. cbn.
  destruct (find_row _ (shared_objects sh)) as [[k2 o]|] eqn:Ho; [|done]. apply find_row_Some in Ho as [Ho [Hid%Z.eqb_eq Hobj]%andb_prop].
  destruct (objects d !! k2.1) as [ob|] eqn:Hob; [|done]. apply N.eqb_eq in Hobj. destruct (lo_key _ Hl _ _ Ho) as (sk & Hsk & Hacc). cbn in Hsk. rewrite Hid, Hf in Hsk.
  injection Hsk as <-. destruct (Habs _ _ Hob); [|done]. rewrite (Hacc _ Hob). by eapply Hkeys.
Qed.

Lemma deleted_keys account key a row (s : sdb) :
  shares_ok s → objects_numbered s.1 → unique_ok s.1 → find_account account s.1 = Some (a, row) →
  commits (with_cascade (tables_DeleteObject account key)) (λ _ s', absent a key s'.1 ∧
    ∀ i k', sharing_keys s'.2 !! i = Some k' → ∃ k, sharing_keys s.2 !! i = Some k ∧ key_fields k' = key_fields k) s.
Proof.
  intros Hok Hn Hu Ha. eapply commits_mono.
  - apply (with_cascade_keys _ (λ d, absent a key d ∧ stable (objects s.1) (currval "sharing_keys" s.1) d)); [apply Hok|by intros d [_ Hd]; apply stable_loose|].
    apply commits_and; [by eapply DeleteObject_absent|]. exact (run_tx_stable order (objects s.1) (currval "sharing_keys" s.1) (SlabTx (TxDeleteObject account key)) s.1 (stable_refl _ Hn)).
  - intros _ s' [[H1 _] H2]. by split.
Qed.

Lemma SharingKeyObject_found pk id sk row oid ob key o (s : sdb) :
  shares_ok s → unique_ok s.1 → find_sharing_key pk s = Some (id, sk, row) → sharing_keys s.2 !! id = Some sk → blocked_objects s.1 !! key = None →
  objects s.1 !! oid = Some ob → o_object_key ob = key → shared_objects s.2 !! (oid, id) = Some o →
  tables_SharingKeyObject pk key s = (Ok (scanSharedObject s.1 oid o), s).
Proof.
  intros Hok Hu Hk Hsk Hb Hob <- Ho. destruct s as [d sh]. cbn [fst snd] in *. unfold tables_SharingKeyObject, transaction, assertObjectNotBlocked.
  rewrite (run_ok get _ (d, sh) (d, sh) (d, sh)) by done. rewrite Hk.
  unfold bindM, mbind, M_bind, lift1. cbn. rewrite Hb. cbn.
  rewrite (find_row_unique _ _ (oid, id) o Ho); [done|cbn; by rewrite Hob, Z.eqb_refl, N.eqb_refl|].
  intros [i j] x Hx [Hj%Z.eqb_eq Hi]%andb_prop. cbn in Hj, Hi. subst j. destruct (objects d !! i) as [b|] eqn:Hbi; [|done]. apply N.eqb_eq in Hi.
  destruct (lo_key _ (sh_loose _ Hok) _ _ Hx) as (k1 & Hk1 & Hacc1). destruct (lo_key _ (sh_loose _ Hok) _ _ Ho) as (k2 & Hk2 & Hacc2). cbn in *. f_equal.
  apply (uq_objects _ Hu _ _ _ _ Hbi Hob); [|done]. rewrite (Hacc1 _ Hbi), (Hacc2 _ Hob). congruence.
Qed.
Lemma Object_found account a row oid ob key d :
  unique_ok d → find_account account d = Some (a, row) → blocked_objects d !! key = None → objects d !! oid = Some ob → o_account_id ob = a → o_object_key ob = key →
  tables_Object account key d = (Ok (sealed_object d oid ob), d).
Proof.
  intros Hu Ha Hb Hob <- <-. unfold tables_Object, transaction, accountID, assertObjectNotBlocked, bindM, mbind, M_bind, get. cbn. rewrite Ha. cbn. rewrite Hb. cbn.
  unfold find_object. rewrite (find_row_unique _ _ oid ob Hob); [done|by rewrite Z.eqb_refl, N.eqb_refl|].
  intros i x Hx [Hi%Z.eqb_eq Hj%N.eqb_eq]%andb_prop. by apply (uq_objects _ Hu _ _ _ _ Hx Hob).
Qed.

(** C22. An object that is attached to a sharing key is what the holder of the key reads:
    under the key and the name of the object, the sealed keys, metadata and signatures
    of the request with the slabs that the owner of the object reads, while it is not
    blocked and the key is not expired. Once the owner deletes the object, the holder
    reads nothing under its name. *)
Theorem shared_object_roundtrip account pk req (s s' : sdb) :
  store_shares_ok s → unique_ok s.1 → tables_AddSharedObject account pk req s = (Ok tt, s') →
  (∃ so own, tables_SharingKeyObject pk (SR_ObjectID req) s' = (Ok so, s') ∧ tables_Object account (SR_ObjectID req) s.1 = (Ok own, s.1) ∧
     SO_EncryptedDataKey so = SR_EncryptedDataKey req ∧ SO_DataSignature so = SR_DataSignature req ∧
     SO_EncryptedMetadataKey so = SR_EncryptedMetadataKey req ∧ SO_EncryptedMetadata so = SR_EncryptedMetadata req ∧
     SO_MetadataSignature so = SR_MetadataSignature req ∧ SO_Slabs so = SO_Slabs own) ∧
  ∀ s'' so, with_cascade (tables_DeleteObject account (SR_ObjectID req)) s' = (Ok tt, s'') →
    (tables_SharingKeyObject pk (SR_ObjectID req) s'').1 ≠ Ok so.
Proof.
  intros [Hok Hn] Hu Hrun.
  destruct (AddSharedObject_commits account pk req s Hok _ _ Hrun) as (Hok' & E1 & a & row & id & sk & oid & ob & size & data & psize & created & δ &
    Ha & Hlive & Hsk & Hpk & Hacc & Hexp & Hob & Hoa & Hname & Hb & Erows & Hm).
  pose proof (find_account_known _ _ _ _ Ha) as Hrow. rewrite <-Hacc in Hrow.
  destruct (find_sharing_key_moved δ pk s s' id sk row Hok' E1 Hm Hsk Hpk Hexp Hrow Hlive) as (sk' & Hfind & Hsk' & Eacc). split.
  - exists (scanSharedObject s'.1 oid (attached_row req size data psize created (db_now s.1))), (sealed_object s.1 oid ob). split; [|split].
    + eapply SharingKeyObject_found; [exact Hok'|rewrite E1; exact Hu|exact Hfind|exact Hsk'|rewrite E1; exact Hb|rewrite E1; exact Hob|exact Hname|rewrite Erows; apply lookup_insert_eq].
    + eapply Object_found; [exact Hu|exact Ha|exact Hb|exact Hob|exact Hoa|exact Hname].
    + cbn. rewrite E1. destruct (SR_EncryptedMetadataKey req), (SR_EncryptedMetadata req); by split_and!.
  - intros s'' so Hdel. rewrite <-E1 in Hu, Hn, Ha.
    pose proof (with_cascade_commits (SlabTx (TxDeleteObject account (SR_ObjectID req))) s' Hok' Hn _ _ Hdel) as [Hok'' _].
    destruct (deleted_keys account (SR_ObjectID req) a row s' Hok' Hn Hu Ha _ _ Hdel) as [Habs Hkeys].
    apply (attached_not_found _ _ a); [done..|]. intros i k Hk Ek. destruct (Hkeys _ _ Hk) as (k0 & Hk0 & [-> Ep]%key_fields_eq).
    rewrite <-Hacc, <-Eacc. assert (i = id) as -> by (apply (lo_unique _ (sh_loose _ Hok') i id _ _ Hk0 Hsk'); destruct (moved_Some _ _ _ _ _ Hm Hsk') as (x & Hx & [_ Ex]%key_fields_eq & _); congruence).
    congruence.
Qed.
(** ** The manager on the tables *)

Context (order_perm : ∀ A (l : list A), order A l ≡ₚ l).
#[local] Instance db_sharing : Sharing.SharingStore sdb := {|
  store_AddSharingKey := tables_AddSharingKey;
  store_SharingKey := tables_SharingKey;
  store_SharingKeys := tables_SharingKeys;
  store_DeleteSharingKey := tables_DeleteSharingKey;
  store_AddSharedObject := tables_AddSharedObject;
  store_DeleteSharedObject := tables_DeleteSharedObject;
  store_PruneExpiredSharingKeys := tables_PruneExpiredSharingKeys;
  store_SharedObjects := tables_SharedObjects order;
  store_SharingKeyObject := tables_SharingKeyObject |}.

Lemma find_sharing_key_known pk (s : sdb) id k row :
  find_sharing_key pk s = Some (id, k, row) → sharing_keys s.2 !! id = Some k ∧ accounts s.1 !! sk_account_id k = Some row ∧ is_live row = true.
Proof.
  unfold find_sharing_key. destruct (find_row _ _) as [[i k']|] eqn:Hf; [|done]. cbn. destruct (accounts s.1 !! sk_account_id k') as [row'|] eqn:Hr; [|done]. cbn.
  destruct (is_live row') eqn:Hl; [|done]. intros [= -> -> ->]. by apply find_row_Some in Hf as [Hf _].
Qed.

(** What an account lists of one of its keys are objects of its own that are not blocked,
    with their current slabs. *)
Lemma owned_shared_objects account pk offset limit l (s s' : sdb) :
  shares_ok s → OwnedSharedObjects account pk offset limit s = (Ok l, s') →
  s' = s ∧ ∀ so, so ∈ l → ∃ oid ob row, objects s.1 !! oid = Some ob ∧ accounts s.1 !! o_account_id ob = Some row ∧ a_public_key row = account ∧
    is_live row = true ∧ blocked_objects s.1 !! o_object_key ob = None ∧ SO_Slabs so = object_slices s.1 oid.
Proof.
  intros Hok. unfold OwnedSharedObjects, OwnedSharingKey, SharingKey. cbn [store_SharingKey store_SharedObjects db_sharing].
  unfold tables_SharingKey, tables_SharedObjects, transaction. intros (key & s1 & H1 & H2)%bindM_ok. apply bindM_ok in H1 as (key' & s2 & H1 & H3).
  rewrite (run_ok get _ s s s) in H1 by done. destruct (find_sharing_key pk s) as [[[id k] row]|] eqn:Hk; [|done]. injection H1 as <- <-.
  cbn in H3. destruct (N.eqb_spec (a_public_key row) account) as [Ha|]; [|done]. injection H3 as <- <-.
  rewrite (run_ok get _ s s s), Hk in H2 by done. destruct (find_sharing_key_known _ _ _ _ _ Hk) as (Hsk & Hrow & Hlive).
  unfold newest, window, require in H2. destruct (0 <=? offset)%Z; [|done]. destruct (0 <=? limit)%Z; [|done]. cbn in H2. injection H2 as <- <-.
  split; [done|]. intros so ([oid o] & -> & Hin)%list_elem_of_fmap. cbn.
  eapply elem_of_sublist in Hin; [|etransitivity; [apply sublist_take|apply sublist_drop]]. apply list_elem_of_fmap in Hin as ([c p] & Ep & Hin). cbn in Ep. subst p.
  rewrite merge_sort_Permutation in Hin. apply list_elem_of_fmap in Hin as (p & [= _ <-] & Hin). rewrite order_perm in Hin.
  apply list_elem_of_omap in Hin as ([[i j] x] & Hx%elem_of_map_to_list & Hvis). cbn in Hvis. destruct (Z.eqb_spec j id) as [->|]; [|done].
  destruct (objects s.1 !! i) as [ob|] eqn:Hob; [|done]. destruct (bool_decide _) eqn:Hb; [|done]. injection Hvis as <- <-. apply bool_decide_eq_true in Hb.
  destruct (lo_key _ (sh_loose _ Hok) _ _ Hx) as (sk & Hsk' & Hacc). cbn in Hsk', Hacc. rewrite Hsk in Hsk'. injection Hsk' as <-.
  exists i, ob, row. rewrite (Hacc _ Hob). by split_and!.
Qed.
End invariant.

(** ** A concrete sharing key *)

(** The account of Serving.v shares its object, and deletes it. *)
Module SharingWitness.
Import StoreWitness.
#[local] Existing Instances SiaEncoding.ops SiaEncoding.laws U128.ops U128.laws TestRhp.ops TestRhp.laws TestRhp.methods only_slab
  TestColumns.names TestColumns.contract_columns TestColumns.host_columns TestColumns.sql_math TestSig.ops.

Definition unshared : sdb := (after_object, mkShares ∅ ∅).
Definition share : KeyRequest := mkKeyRequest 50 0 (replicate 32 Ascii.zero) "holiday" (Some 5000%Z).
Definition attach_request : SharedObjectRequest := mkSharedRequest 5 (replicate 72 Ascii.one) 8 [] [] 9.
Definition keyed : sdb := (void (tables_AddSharingKey 7 share) (at_time 1002 after_object, mkShares ∅ ∅)).2.
Definition full : sdb := (tables_AddSharedObject 7 50 attach_request keyed).2.
Definition emptied : sdb := (with_cascade (tables_DeleteObject 7 5) (at_time 1003 full.1, full.2)).2.

Lemma after_object_numbered : objects_numbered after_object.
Proof.
  assert (map_Forall (λ i _, i ≤ currval "objects" after_object)%Z (objects after_object)) as H by (apply (bool_decide_unpack _); vm_compute; exact I).
  intros i o Ho. exact (H _ _ Ho).
Qed.
Ltac run := apply injective_projections; cbn [fst snd]; [vm_compute; reflexivity|reflexivity].
Lemma share_runs : void (tables_AddSharingKey 7 share) (at_time 1002 after_object, mkShares ∅ ∅) = (Ok tt, keyed).
Proof. run. Qed.
Lemma attach_runs : tables_AddSharedObject 7 50 attach_request keyed = (Ok tt, full).
Proof. run. Qed.
Lemma detach_runs : with_cascade (tables_DeleteObject 7 5) (at_time 1003 full.1, full.2) = (Ok tt, emptied).
Proof. run. Qed.

Lemma shared_reached : shared_history same_order unshared keyed.
Proof. exact (shared_tx _ _ unshared 1002 (TxAddSharingKey 7 share) _ _ (shared_start _ _) share_runs). Qed.
Lemma attached_reached : shared_history same_order unshared full.
Proof.
  apply (shared_tx _ _ keyed 1002 (TxAddSharedObject 7 50 attach_request) (Ok tt)); [exact shared_reached|].
  cbn [run_sharing_tx]. assert ((at_time 1002 keyed.1, keyed.2) = keyed) as -> by (vm_compute; reflexivity). exact attach_runs.
Qed.
Lemma deletion_reached : shared_history same_order unshared emptied.
Proof. exact (shared_base _ _ full 1003 (SlabTx (TxDeleteObject 7 5)) _ _ attached_reached detach_runs). Qed.

(** The key counts the object, its 4096 bytes and what stores them, until it is deleted. *)
Example sharing_totals_kept_witness :
  (λ k, (λ c, key_total c k) <$> columns) <$> sharing_keys full.2 !! 1%Z = Some [1; 4096; 4194304; 8388608]%Z ∧
  ∀ k c, sharing_keys emptied.2 !! 1%Z = Some k → key_total c k = 0%Z.
Proof.
  split; [vm_compute; reflexivity|]. intros k c Hk.
  destruct (sharing_totals_kept same_order unshared emptied (no_shares_ok _) after_object_numbered deletion_reached) as [H _].
  destruct (H _ _ Hk) as [_ Ht]. rewrite Ht. vm_compute. by destruct c.
Defined.

Lemma after_object_unique : unique_ok after_object.
Proof.
  split.
  - intros i j a b Ha Hb _. assert (map_Forall (λ i _, i = 1%Z) (accounts after_object)) as H by (apply (bool_decide_unpack _); vm_compute; exact I).
    exact (eq_trans (H _ _ Ha) (eq_sym (H _ _ Hb))).
  - intros i j o p Ho Hp _ _. assert (map_Forall (λ i _, i = 1%Z) (objects after_object)) as H by (apply (bool_decide_unpack _); vm_compute; exact I).
    exact (eq_trans (H _ _ Ho) (eq_sym (H _ _ Hp))).
Qed.
Lemma shared_same : accounts keyed.1 = accounts after_object ∧ objects keyed.1 = objects after_object.
Proof. split; vm_compute; reflexivity. Qed.
Lemma shared_unique : unique_ok keyed.1.
Proof. destruct shared_same as [E1 E2]. destruct after_object_unique as [H1 H2]. split; [rewrite E1; exact H1|rewrite E2; exact H2]. Qed.

Example shared_object_roundtrip_witness : ∃ so, tables_SharingKeyObject 50 5 full = (Ok so, full) ∧ SO_DataSignature so = 8%N ∧ SO_Slabs so = object_slices full.1 1.
Proof.
  destruct (shared_object_roundtrip same_order 7 50 attach_request keyed full) as [(so & own & H1 & _ & _ & H2 & _) _];
    [exact (shared_history_ok same_order _ _ (conj (no_shares_ok _) after_object_numbered) shared_reached)|exact shared_unique|exact attach_runs|].
  exists so. split; [exact H1|]. split; [exact H2|].
  assert ((tables_SharingKeyObject 50 5 full).1 = Ok so) as E1 by exact (f_equal fst H1). revert E1. vm_compute. by intros [= <-].
Defined.
End SharingWitness.
