(* ===== verification/TablesWitness.v ===== *)
(** * A concrete database (witnesses of ContractRefine.v, HostStore.v and HostTables.v)

    The database of Serving.v, in which a slab is pinned, goes through the life of a
    contract, and one of its hosts is blocked. *)

From S2P Require Import Prelude Float Encoding External HostManager Contract Revision Slabs Objects Accounts App Tables SlabTables SectorTables ContractTables HostTables PinStore Totals SlabStore ObjectStore SectorStore ContractStore ContractRefine HostStore History Serving PruneStore.

Module TablesWitness.
Import StoreWitness.
#[local] Existing Instances SiaEncoding.ops SiaEncoding.laws U128.ops U128.laws TestRhp.ops TestRhp.laws TestRhp.methods only_slab
  TestColumns.names TestColumns.contract_columns TestColumns.contract_laws TestColumns.host_columns TestColumns.sql_math.

Definition sc : U128.t := U128.wrapped 1000.
Lemma order_perm A (l : list A) : same_order A l ≡ₚ l.
Proof. done. Qed.

(** ** A contract is formed, a sector pinned to it, the contract renewed or deleted *)

Definition form : M db unit := tables_AddFormedContract 21 33 TestColumns.revision sc sc sc NoUsage.
Definition formed : db := (form after_pin).2.
Definition pinned : db := (tables_PinSectors same_order 33 [11%N] formed).2.
Definition renew : M db unit := tables_AddRenewedContract 33 34 TestColumns.revision sc sc NoUsage.
Definition renewed : db := (renew pinned).2.
Definition deleted : db := (tables_DeleteContract same_order 33 pinned).2.

Ltac run := apply injective_projections; cbn [fst snd]; [vm_compute; reflexivity|reflexivity].
Lemma form_runs : form after_pin = (Ok tt, formed).
Proof. run. Qed.
Lemma pin_sector_runs : tables_PinSectors same_order 33 [11%N] formed = (Ok tt, pinned).
Proof. run. Qed.
Lemma renew_runs : renew pinned = (Ok tt, renewed).
Proof. run. Qed.
Lemma delete_runs : tables_DeleteContract same_order 33 pinned = (Ok tt, deleted).
Proof. run. Qed.

Lemma formed_ok : store_ok formed.
Proof. exact (tables_AddFormedContract_commits _ _ _ _ _ _ _ _ PruneWitness.after_pin_ok tt _ form_runs). Qed.
Lemma pinned_ok : store_ok pinned.
Proof. exact (PinSectors_commits same_order order_perm _ _ _ formed_ok tt _ pin_sector_runs). Qed.

Example formed_contract_roundtrip_witness :
  tables_ContractRevision 33 formed = (Ok (mkRevision 33 TestColumns.revision, false), formed) ∧ contracts formed !! 31%N = contracts after_pin !! 31%N.
Proof.
  destruct (formed_contract_roundtrip 21 33 TestColumns.revision sc sc sc NoUsage after_pin formed) as (H1 & _ & _ & H2);
    [apply store_contracts, PruneWitness.after_pin_ok|exact form_runs|].
  split; [exact H1|]. by apply H2.
Defined.

Definition contract_of_root (d : db) (root : Hash256) : option FileContractID := find_sector root d ≫= λ p, contract_of d p.2.
Example renewal_hands_over_witness :
  contract_of_root pinned 11 = Some 33%N ∧ contract_of_root pinned 12 = None ∧
  contract_of_root renewed 11 = Some 34%N ∧ contract_of_root renewed 12 = None ∧ sectors renewed = sectors pinned.
Proof.
  destruct (renewal_hands_over 33 34 TestColumns.revision sc sc NoUsage pinned renewed) as [H1 _]; [apply store_contracts, pinned_ok|exact renew_runs|].
  split; [vm_compute; reflexivity|]. split; [vm_compute; reflexivity|]. split; [vm_compute; reflexivity|]. split; [vm_compute; reflexivity|exact H1].
Defined.

Example deleted_contract_unpins_witness : find_map 33 deleted = None ∧ contract_of_root deleted 11 = None ∧ contracts deleted !! 31%N = contracts pinned !! 31%N.
Proof.
  destruct (deleted_contract_unpins same_order order_perm 33 pinned deleted) as (_ & H1 & _ & H2); [apply store_contracts, pinned_ok|exact delete_runs|].
  split; [exact H1|]. split; [vm_compute; reflexivity|]. by apply H2.
Defined.

(** ** Revisions *)

#[local] Instance no_client : LatestRevisionClient db := {| client_LatestRevision _ _ := throw (EMsg "offline") |}.
#[local] Instance tip : ChainTip db := {| tipHeight := scanned_height |}.
Example tables_refine_revision_store_witness :
  V2.RevisionNumber <$> stored_revision formed 33 = Some 1%Z ∧ RevisionStoreLaws db_revisions no_client tip stored_revision.
Proof. split; [vm_compute; reflexivity|]. apply (tables_refine_revision_store no_client tip). by intros k i d r d' [= <- <-]. Defined.

(** Unblocking a host makes a deleted contract good again: it has no entry of the sectors
    map, so that nothing can be pinned to it. *)
Definition unblocked : db := (tables_UnblockHost 21 deleted).2.
Lemma deleted_contract_good_again :
  c_good <$> contracts deleted !! 33%N = Some false ∧ c_good <$> contracts unblocked !! 33%N = Some true ∧ find_map 33 unblocked = None ∧
  (tables_PinSectors same_order 33 [12%N] unblocked).1 = Err (ESentinel ErrContractNotFound).
Proof. vm_compute. done. Qed.

(** ** The blocklist *)

Lemma unique : hosts_unique after_pin.
Proof.
  intros i j k. unfold known_key. assert (map_Forall (λ i h, i = Z.of_N (h_public_key h) - 20)%Z (hosts after_pin)) as H by (apply (bool_decide_unpack _); vm_compute; exact I).
  destruct (hosts after_pin !! i) as [a|] eqn:Ha; [|done]. destruct (hosts after_pin !! j) as [b|] eqn:Hb; [|done]. intros [= Ea] [= Eb].
  rewrite (H _ _ Ha), (H _ _ Hb). congruence.
Qed.
Definition blocked_db : db := (tables_BlockHosts same_order [21%N] ["slow"] after_pin).2.
Lemma block_runs : tables_BlockHosts same_order [21%N] ["slow"] after_pin = (Ok tt, blocked_db).
Proof. run. Qed.
Example blocked_hosts_exact_witness :
  c_good <$> contracts blocked_db !! 31%N = Some false ∧ c_good <$> contracts blocked_db !! 32%N = Some true ∧
  h_unpinned_sectors <$> hosts after_pin !! 1%Z = Some 1%Z ∧ h_unpinned_sectors <$> hosts blocked_db !! 1%Z = Some 0%Z ∧
  ∃ l, hosts_blocklist blocked_db !! 21%N = Some l ∧ "slow" ∈ l.
Proof.
  destruct (blocked_hosts_exact same_order order_perm [21%N] ["slow"] after_pin blocked_db PruneWitness.after_pin_ok unique block_runs) as (Hb & _ & Hh).
  split; [vm_compute; reflexivity|]. split; [vm_compute; reflexivity|]. split; [vm_compute; reflexivity|]. split; [rewrite (Hh 1%Z); vm_compute; reflexivity|].
  destruct (bl_listed _ _ _ _ Hb 21%N) as (l & Hl & Hin); [by left|]. exists l. split; [exact Hl|]. apply Hin. left. by left.
Defined.

(** The reasons of a blocked host that is not known are lost when it is blocked again. *)
Definition block_twice : M db unit := bindM (tables_BlockHosts same_order [77%N] ["fraud"]) (λ _, tables_BlockHosts same_order [77%N] ["slow"]).
Lemma unknown_reasons_lost : hosts_blocklist (block_twice after_pin).2 !! 77%N = Some ["slow"].
Proof. vm_compute. done. Qed.

(** A contract that is formed with a host after it was blocked is good: the host is to be
    funded. *)
Definition late : db := (bindM (tables_BlockHosts same_order [21%N] ["slow"]) (λ _, form) after_pin).2.
Lemma blocked_host_funded : (tables_HostsForFunding same_order blocked_db).1 = Ok [22%N] ∧ (21%N ∈ default [] (match (tables_HostsForFunding same_order late).1 with Ok l => Some l | _ => None end)).
Proof. split; [vm_compute; reflexivity|]. apply (bool_decide_unpack _). vm_compute. exact I. Qed.
End TablesWitness.
