(* ===== verification/AppWitness.v ===== *)
(** * Apps in a concrete database (witnesses of AppStore.v, AppHistory.v and FundingStore.v)

    The database of Serving.v, with an account and a connect key of ten uses: apps
    register, a pre-authorized key is used up, and a host funds the accounts. *)

From S2P Require Import Prelude Float Order Encoding External HostManager Contract Slabs Objects Accounts App Connect Tables SlabTables SectorTables ContractTables HostTables AppTables FundingTables References PinStore SlabStore ObjectStore AppStore History AppHistory FundingStore Serving.

Module AppWitness.
Import StoreWitness.
Local Open Scope go_scope.
#[local] Existing Instances SiaEncoding.ops SiaEncoding.laws U128.ops U128.laws TestRhp.ops TestRhp.laws TestRhp.methods only_slab
  TestColumns.names TestColumns.contract_columns TestColumns.host_columns TestColumns.sql_math.

(** ** Registering *)

Definition d0 : db := set_sequences (insert "accounts" 1%Z) (start None).
Definition meta : AppMeta := mkMeta 2 "other" "" "" "".
Definition registered : db := (tables_RegisterAppKey "key" 8 meta d0).2.
(** The quota has one use, which the account of Serving.v took. *)
Definition full : db := set_quotas (insert "q" (mkQuotaRow "" (2 ^ 40) 1 0)) d0.

Lemma d0_refs : refs_ok d0.
Proof. exact (proj2 (start_db_ok None)). Qed.

Example register_within_quota_witness :
  (tables_RegisterAppKey "key" 8 meta d0).1 = Ok tt ∧ live_accounts 1 registered = 2%Z ∧
  tables_RegisterAppKey "key" 8 meta full = (Err (ESentinel ErrKeyExhausted), full).
Proof.
  split; [vm_compute; reflexivity|]. split; [vm_compute; reflexivity|].
  destruct (tables_RegisterAppKey "key" 8 meta full) as [r d'] eqn:E1.
  destruct (register_within_quota "key" 8 meta full r d' 1 _ _ d0_refs eq_refl eq_refl eq_refl E1) as [-> ->]. reflexivity.
Defined.

(** An account that is deleted but not pruned cannot come back: it is reported as existing. *)
Lemma deleted_account_reported :
  (tables_RegisterAppKey "key" 7 meta (set_sequences (insert "accounts" 1%Z) (start (Some 900%Z)))).1 = Err (ESentinel ErrExists) ∧
  (tables_HasAccount 7 (start (Some 900%Z))).1 = Ok false ∧ (tables_Account 7 (start (Some 900%Z))).1 ≠ Err (ESentinel Accounts.ErrNotFound).
Proof. split_and!; by vm_compute. Qed.

(** ** Pre-authorized keys *)

Definition two_uses : db := (tables_AddPreAuthorizedKey (mkPreAuth 3 0 "key" 5000 2 None) d0).2.
Definition use_at (t : Z) : Z * store_tx := (t, AppTx (TxConsumePreAuthorizedKey 3 6)).
Definition key_history : list (Z * store_tx) :=
  [use_at 1001; (1002, AppTx (TxRegisterAppKey "key" 8 meta)); use_at 1003; use_at 1004; use_at 9000]%Z.

Example preauth_uses_bounded_witness :
  uses 3 two_uses = 2%Z ∧ consumptions 3 key_history (run_all same_order key_history two_uses).1 = 2 ∧
  (Z.of_nat (consumptions 3 key_history (run_all same_order key_history two_uses).1) + uses 3 (run_all same_order key_history two_uses).2 ≤ uses 3 two_uses)%Z.
Proof.
  split; [vm_compute; reflexivity|]. split; [vm_compute; reflexivity|].
  apply (preauth_uses_bounded same_order 3 key_history two_uses); [|apply surjective_pairing]. repeat constructor.
Defined.

(** ** Funding *)

(** Accounts 7, 8 and 9; the first two were funded on host 21. *)
Definition three : db := (tables_RegisterAppKey "key" 9 meta registered).2.
Definition funded : db :=
  (tables_UpdateHostAccounts [mkHostAccount 7 21 0 1500 false; mkHostAccount 8 21 2 1400 false] three).2.
Definition clock (d : db) : Z := db_now d.
Definition now : M db Z := λ d, (Ok (clock d), d).
Definition listed : list HostAccount := [mkHostAccount 9 21 0 1600 false; mkHostAccount 8 21 2 1400 false].

Lemma funded_unique : accounts_unique funded.
Proof.
  assert (map_Forall (λ i a, i = Z.of_N (a_public_key a) - 6)%Z (accounts funded)) as H by (apply (bool_decide_unpack _); vm_compute; exact I).
  intros i j a b Ha Hb E1. rewrite (H _ _ Ha), (H _ _ Hb). congruence.
Qed.
Lemma at_time_unique_accounts t d : accounts_unique d → accounts_unique (at_time t d).
Proof. done. Qed.
Lemma listed_runs : tables_HostAccountsForFunding same_order now 21 "q" 0 2 (at_time 1600 funded) = (Ok listed, at_time 1600 funded).
Proof. apply injective_projections; cbn [fst snd]; [vm_compute; reflexivity|reflexivity]. Qed.

Example accounts_for_funding_exact_witness :
  NoDup (AccountKey <$> listed) ∧ ∃ hostID h, find_host 21 (at_time 1600 funded) = Some (hostID, h).
Proof.
  assert (accounts_unique (at_time 1600 funded)) as Hu by apply at_time_unique_accounts, funded_unique. assert (0 < 2)%Z as Hl by lia.
  destruct (accounts_for_funding_exact same_order (λ _ _, Permutation_refl _) now clock (λ _, eq_refl) 21 "q" 0 2 (at_time 1600 funded) listed
    _ Hu Hl listed_runs) as (_ & hostID & h & Hh & Hn & _). split; [exact Hn|]. by exists hostID, h.
Defined.
End AppWitness.
