(* ===== verification/Cors.v ===== *)
(** * CORS routes (src/api/app/cors.go)

    The routes that answer OPTIONS requests are collected in a tree of path segments,
    in which a parameter takes the place of the static segments next to it. The Go
    code fills the tree in the random order of a map and mutates it in place; no two
    nodes share a map, so the tree is a value here. *)

From S2P Require Import Prelude Net.
From Stdlib Require Import Ascii.
From Stdlib Require String.

Inductive route := Route (last : bool) (sub : gmap string route).
Definition route_last (r : route) : bool := let 'Route l _ := r in l.
Definition route_sub (r : route) : gmap string route := let 'Route _ s := r in s.

Definition wildcardParamSegment : string := ":param".

(** [mergeOptionsSub(dst, r.sub)]. The keys of a map are distinct, so the order in
    which they are visited does not matter. *)
Fixpoint mergeOptionsSub (r : route) (dst : gmap string route) : gmap string route :=
  let 'Route _ sub := r in
  map_fold (λ key val dst,
    match dst !! key with
    | Some (Route l s) => <[key := Route (l || route_last val) (mergeOptionsSub val s)]> dst
    | None => <[key := val]> dst
    end) dst sub.

(** A parameter is normalized to the wildcard. *)
Definition norm (seg : string) : string := if String.prefix ":" seg then wildcardParamSegment else seg.

(** The static routes of a level, merged into the wildcard. *)
Definition merge_level (node : route) (m : gmap string route) : route :=
  map_fold (λ _ r node, Route (route_last node || route_last r) (mergeOptionsSub r (route_sub node))) node
    (delete wildcardParamSegment m).

Fixpoint addOptionsPath (m : gmap string route) (segments : list string) : gmap string route :=
  match segments with
  | [] => m
  | seg :: rest =>
      let seg := norm seg in
      let last := match rest with [] => true | _ => false end in
      match (if String.eqb seg wildcardParamSegment then None else m !! wildcardParamSegment) with
      | Some (Route l sub) => <[wildcardParamSegment := Route (l || last) (addOptionsPath sub rest)]> m
      | None =>
          let node := default (Route false ∅) (m !! seg) in
          if String.eqb seg wildcardParamSegment then
            let 'Route l sub := merge_level node m in {[seg := Route (l || last) (addOptionsPath sub rest)]}
          else
            let 'Route l sub := node in <[seg := Route (l || last) (addOptionsPath sub rest)]> m
      end
  end.

Fixpoint flatten_route (path : string) (r : route) : list string :=
  let 'Route last sub := r in
  (if last then [path] else []) ++
  map_fold (λ seg r paths, flatten_route (path +:+ "/" +:+ seg) r ++ paths) [] sub.
Definition flattenOptionsPaths (m : gmap string route) (prefix : string) : list string :=
  map_fold (λ seg r paths, flatten_route (prefix +:+ "/" +:+ seg) r ++ paths) [] m.

Fixpoint optionsTreeContains (m : gmap string route) (segments : list string) : bool :=
  match segments with
  | [] => false
  | seg :: rest =>
      let seg := norm seg in
      let check node := match rest with [] => route_last node | _ => optionsTreeContains (route_sub node) rest end in
      if String.eqb seg wildcardParamSegment then existsb check (map_to_list m).*2
      else match m !! seg with
           | Some node => check node
           | None => match m !! wildcardParamSegment with Some node => check node | None => false end
           end
  end.

(** [strings.Split] by one byte, and [strings.Fields] of text with spaces. *)
Fixpoint split_on (c : ascii) (l : bytes) : list bytes :=
  match l with
  | [] => [[]]
  | x :: l => if Ascii.eqb x c then [] :: split_on c l
              else match split_on c l with h :: t => (x :: h) :: t | [] => [[x]] end
  end.
Definition Split (s : string) (c : ascii) : list string := string_of <$> split_on c (bytes_of s).
Definition Fields (s : string) : list string := filter (λ f, f ≠ ""%string) (Split s " "%char).

(** [strings.Fields(key)[1]] and the segments of the path. *)
Definition route_path (key : string) : result string := of_option (Fields key !! 1).
Definition path_segments (path : string) : list string := drop 1 (Split path "/"%char).

Definition options_tree (enabled : list string) : result (gmap string route) :=
  foldl (λ m key, m ← m; path ← route_path key; mret (addOptionsPath m (path_segments path))) (Ok ∅) enabled.

Definition check_disabled (tree : gmap string route) (disabled : list string) : result unit :=
  foldl (λ r key, _ ← r; path ← route_path key; if optionsTreeContains tree (path_segments path) then Panic else Ok tt) (Ok tt) disabled.

(** [corsMux]: the keys of the routes that are registered, for the keys of the two
    maps in the order in which they are visited. *)
Definition corsMux (enabledRoutes disabledRoutes : list string) : result (list string) :=
  tree ← options_tree enabledRoutes;
  _ ← check_disabled tree disabledRoutes;
  mret (enabledRoutes ++ disabledRoutes ++ (String.append "OPTIONS " <$> flattenOptionsPaths tree "")).

(** The routes of [NewAPI]. *)
Definition NewAPI_enabled : list string :=
  ["GET /account"; "POST /auth/connect"; "GET /auth/connect/:requestID/status";
   "POST /auth/connect/:requestID/register"; "GET /auth/check"; "GET /hosts"; "GET /objects";
   "GET /objects/:key"; "GET /objects/:key/shared"; "POST /objects"; "DELETE /objects/:key"; "POST /sharing";
   "GET /sharing"; "GET /sharing/:key"; "DELETE /sharing/:key"; "POST /sharing/:key/objects";
   "GET /sharing/:key/objects"; "DELETE /sharing/:key/objects/:objectkey"; "GET /shared";
   "GET /shared/objects"; "GET /shared/objects/:id"; "GET /shared/hosts"; "GET /slabs"; "POST /slabs";
   "POST /slabs/prune"; "GET /slabs/:slabid"; "DELETE /slabs/:slabid"]%string.
Definition NewAPI_disabled : list string :=
  ["GET /auth/connect/:requestID"; "POST /auth/connect/:requestID"]%string.

(** ** The tree of a set of routes *)

(** No level has a wildcard and static segments: what the router accepts. *)
Inductive wf : gmap string route → Prop :=
  | wf_level m :
      (∀ seg r, m !! seg = Some r → wf (route_sub r)) →
      (m !! wildcardParamSegment = None ∨ ∃ r, m = {[wildcardParamSegment := r]}) → wf m.

(** A static segment next to a parameter ends its route. *)
Definition safe (P : list string → Prop) : Prop :=
  ∀ pre s t t', P (pre ++ s :: t) → P (pre ++ wildcardParamSegment :: t') → s = wildcardParamSegment ∨ t = [].

(** The paths below a segment. *)
Definition below (s : string) (P : list string → Prop) (t : list string) : Prop := t ≠ [] ∧ P (s :: t).

(** [m] is the tree of the set of normalized paths [P]. *)
Inductive rep : gmap string route → (list string → Prop) → Prop :=
  | rep_wild P b sub :
      (∃ t, P (wildcardParamSegment :: t)) → (b = true ↔ ∃ s, P [s]) →
      rep sub (below wildcardParamSegment P) → rep {[wildcardParamSegment := Route b sub]} P
  | rep_static m P :
      (∀ t, ¬ P (wildcardParamSegment :: t)) →
      (∀ s r, m !! s = Some r → route_last r = true ↔ P [s]) →
      (∀ s r, m !! s = Some r → ∃ t, P (s :: t)) →
      (∀ s r, m !! s = Some r → rep (route_sub r) (below s P)) →
      (∀ s t, P (s :: t) → is_Some (m !! s)) → rep m P.

Lemma rep_ext m P Q : rep m P → (∀ x, x ≠ [] → P x ↔ Q x) → rep m Q.
Proof.
  intros H. revert Q. induction H as [P b sub [t Ht] Hb _ IH|m P Hw Hl Hs _ IH Hin]; intros Q HQ.
  - apply rep_wild; [exists t; by apply HQ| |].
    + rewrite Hb. by split; intros [s Hs]; exists s; apply HQ.
    + apply IH. intros x Hx. unfold below. by rewrite (HQ (_ :: x)).
  - apply rep_static.
    + intros t Ht. by apply (Hw t), HQ.
    + intros s r Hr. by rewrite (Hl _ _ Hr), HQ.
    + intros s r Hr. destruct (Hs _ _ Hr) as [t Ht]. exists t. by apply HQ.
    + intros s r Hr. apply (IH _ _ Hr). intros x Hx. unfold below. by rewrite (HQ (_ :: x)).
    + intros s t Ht. eapply Hin. by apply HQ.
Qed.

Lemma rep_nothing : rep ∅ (λ _, False).
Proof. apply rep_static; [by intros t []|..]; intros s r H; [by rewrite lookup_empty in H..|done]. Qed.

Lemma rep_empty m P : rep m P → (∀ x, x ≠ [] → ¬ P x) → m = ∅.
Proof.
  intros [P' b sub [t Ht] _ _|m' P' _ _ Hs _ _] HP; [by destruct (HP (wildcardParamSegment :: t))|].
  apply map_empty. intros s. destruct (m' !! s) as [r|] eqn:Hr; [|done]. destruct (Hs _ _ Hr) as [t Ht].
  by destruct (HP (s :: t)).
Qed.

Lemma rep_unique m m' P : rep m P → rep m' P → m = m'.
Proof.
  intros H. revert m'. induction H as [P b sub Ht Hb _ IH|m P Hw Hl Hs _ IH Hin]; intros m' H'; inversion H' as [P' b' sub' Ht' Hb' Hsub'|? P' Hw' Hl' Hs' Hsub' Hin']; subst.
  - rewrite (IH _ Hsub'). replace b' with b; [done|]. apply Bool.eq_true_iff_eq. by rewrite Hb, Hb'.
  - destruct Ht as [t Ht]. by destruct (Hw' t).
  - destruct Ht' as [t Ht]. by destruct (Hw t).
  - apply map_eq. intros s. destruct (m !! s) as [r|] eqn:Hr.
    + destruct (Hs _ _ Hr) as [t Ht]. destruct (Hin' _ _ Ht) as [r' Hr']. rewrite Hr'. f_equal.
      destruct r as [b sub] eqn:Er, r' as [b' sub'] eqn:Er'. f_equal.
      * apply Bool.eq_true_iff_eq. by rewrite (Hl _ _ Hr : b = true ↔ _), (Hl' _ _ Hr' : b' = true ↔ _).
      * apply (IH _ _ Hr). apply (Hsub' _ _ Hr').
    + destruct (m' !! s) as [r'|] eqn:Hr'; [|done]. destruct (Hs' _ _ Hr') as [t Ht]. destruct (Hin _ _ Ht) as [r Hr1]. congruence.
Qed.

Lemma rep_wf m P : rep m P → wf m.
Proof.
  induction 1 as [P b sub Ht Hb _ IH|m P Hw Hl Hs _ IH Hin]; apply wf_level.
  - intros s r [<- <-]%lookup_singleton_Some. apply IH.
  - right. by eexists.
  - done.
  - left. destruct (m !! wildcardParamSegment) as [r|] eqn:Hr; [|done]. destruct (Hs _ _ Hr) as [t Ht]. by destruct (Hw t).
Qed.

(** *** Safe sets *)

Lemma safe_sub s (P Q : list string → Prop) : safe Q → (∀ x, x ≠ [] → P x → Q (s :: x)) → safe P.
Proof.
  intros HQ HP pre a t t' H1 H2. apply (HQ (s :: pre) a t t'); simpl; apply HP; try done; by destruct pre.
Qed.
Lemma safe_mono (P Q : list string → Prop) : safe Q → (∀ x, P x → Q x) → safe P.
Proof. intros HQ HP pre a t t' H1 H2. eapply HQ; eauto. Qed.

(** *** Adding a path *)

Lemma merge_leaves m node :
  (∀ s r, m !! s = Some r → route_sub r = ∅) → m !! wildcardParamSegment = None → route_sub node = ∅ →
  route_sub (merge_level node m) = ∅ ∧
  (route_last (merge_level node m) = true ↔ route_last node = true ∨ ∃ s r, m !! s = Some r ∧ route_last r = true).
Proof.
  intros Hm Hw Hn. unfold merge_level. rewrite delete_id by done. revert Hm. clear Hw.
  apply (map_fold_weak_ind (λ acc m, (∀ s r, m !! s = Some r → route_sub r = ∅) →
    route_sub acc = ∅ ∧ (route_last acc = true ↔ route_last node = true ∨ ∃ s r, m !! s = Some r ∧ route_last r = true))).
  - intros _. split; [done|]. split; [by left|]. intros [|(s & r & H & _)]; [done|]. by rewrite lookup_empty in H.
  - intros s r m' acc Hs IH Hm. destruct IH as [H1 H2].
    { intros s' r' H'. apply (Hm s'). rewrite lookup_insert_ne; [done|congruence]. }
    split.
    + simpl. rewrite H1. pose proof (Hm s r (lookup_insert_eq _ _ _)) as Hr. destruct r as [l sub]. simpl in *. by rewrite Hr, map_fold_empty.
    + simpl. rewrite orb_true_iff, H2. split.
      * intros [[|(s' & r' & H' & Hl)]|Hl]; [by left|right; exists s', r'|right; exists s, r; by rewrite lookup_insert_eq].
        rewrite lookup_insert_ne; [done|congruence].
      * intros [|(s' & r' & [[<- <-]|[_ H']]%lookup_insert_Some & Hl)]; [auto..|]. left. right. eauto.
Qed.

Lemma rep_add segs m P :
  rep m P → safe (λ x, P x ∨ x = norm <$> segs) → rep (addOptionsPath m segs) (λ x, P x ∨ x = norm <$> segs).
Proof.
  revert m P. induction segs as [|seg rest IH]; intros m P HP Hsafe.
  { eapply rep_ext; [exact HP|]. intros x Hx. split; [by left|]. by intros [| ->]. }
  set (w := wildcardParamSegment) in *. cbn [addOptionsPath]. fold w. set (σ := norm seg) in *.
  change (norm <$> seg :: rest) with (σ :: (norm <$> rest)) in *. set (τ := norm <$> rest) in *.
  set (last := match rest with [] => true | _ => false end).
  assert (last = true ↔ τ = []) as Hlast by (unfold last, τ; by destruct rest).
  (* the paths below the new segment *)
  assert (∀ sub, rep sub (below σ P) → rep (addOptionsPath sub rest) (below σ (λ x, P x ∨ x = σ :: τ))) as Hsub.
  { intros sub Hs. eapply rep_ext; [apply (IH _ _ Hs)|].
    - eapply (safe_sub σ); [exact Hsafe|]. intros x Hx [[_ ?]| ->]; [by left|by right].
    - intros x Hx. unfold below. split; [intros [[_ ?]| ->]; auto|]. intros [_ [|[= ->]]]; auto. }
  clear IH. inversion HP as [P' b sub Ht Hb Hr|m' P' Hw Hl Hs Hr Hin]; subst P'; try subst m'.
  - (* a wildcard is there *)
    subst m. destruct (String.eqb_spec σ w) as [Hσ|Hσ].
    + clearbody σ. subst σ. rewrite lookup_singleton_eq. simpl. unfold merge_level. fold w. rewrite delete_singleton_eq, map_fold_empty.
      apply rep_wild.
      * exists τ. by right.
      * rewrite orb_true_iff, Hb, Hlast. split; [intros [[s H]| ->]; [exists s; by left|exists w; by right]|].
        intros [s [H|[= -> <-]]]; [left; by exists s|by right].
      * by apply Hsub.
    + rewrite lookup_singleton_eq. destruct Ht as [t Ht].
      assert (τ = []) as Hτ by (destruct (Hsafe [] σ τ t); [by right|by left|done|done]).
      assert (rest = []) as -> by (by destruct rest). rewrite insert_singleton_eq. simpl addOptionsPath.
      apply rep_wild.
      * exists t. by left.
      * rewrite orb_true_iff. split; [|by right]. intros _. exists σ. right. by rewrite Hτ.
      * eapply rep_ext; [exact Hr|]. intros x Hx. unfold below. split; [intros [? ?]; auto|]. intros [? [|[= <- _]]]; auto. done.
  - (* the level is static *)
    assert (m !! w = None) as Hmw.
    { destruct (m !! w) as [r|] eqn:E; [|done]. destruct (Hs _ _ E) as [t Ht]. by destruct (Hw t). }
    destruct (String.eqb_spec σ w) as [Hσ|Hσ].
    + clearbody σ. subst σ. rewrite Hmw. simpl default.
      assert (∀ s r, m !! s = Some r → (∀ t, P (s :: t) → t = []) ∧ route_sub r = ∅) as Hleaf.
      { intros s r E. assert (∀ t, P (s :: t) → t = []) as Hnil.
        { intros t Ht. destruct (Hsafe [] s t τ) as [->|]; [by left|by right|by destruct (Hw t)|done]. }
        split; [done|]. eapply rep_empty; [apply (Hr _ _ E)|]. intros x Hx [_ H1]. by apply Hnil in H1. }
      destruct (merge_leaves m (Route false ∅)) as [Hm1 Hm2]; [intros s r E; by apply Hleaf in E as [_ ?]|done|done|].
      destruct (merge_level (Route false ∅) m) as [l sub]. simpl in Hm1, Hm2. subst sub. apply rep_wild.
      * exists τ. by right.
      * rewrite orb_true_iff, Hm2, Hlast. split.
        -- intros [[|(s & r & E & Hl')]| ->]; [done| |exists w; by right]. exists s. left. by apply (Hl _ _ E).
        -- intros [s [H|[= -> <-]]]; [|by right]. left. right. destruct (Hin _ _ H) as [r E]. exists s, r. split; [done|]. by apply (Hl _ _ E).
      * apply Hsub. eapply rep_ext; [apply rep_nothing|]. intros x Hx. unfold below. split; [done|]. intros [_ H]. by destruct (Hw x).
    + rewrite Hmw. set (node := default (Route false ∅) (m !! σ)).
      assert (rep (route_sub node) (below σ P) ∧ (route_last node = true ↔ P [σ])) as [Hn1 Hn2].
      { unfold node. destruct (m !! σ) as [r|] eqn:E; simpl; [by split; [apply (Hr _ _ E)|apply (Hl _ _ E)]|].
        assert (∀ t, ¬ P (σ :: t)) as Hno by (intros t Ht; destruct (Hin _ _ Ht); congruence).
        split; [|split; [done|intros H; by destruct (Hno [])]]. eapply rep_ext; [apply rep_nothing|]. intros x Hx. split; [done|]. intros [_ H]. by destruct (Hno x). }
      destruct node as [l sub]. simpl in Hn1, Hn2. apply rep_static.
      * intros t [H|[= H _]]; [by destruct (Hw t)|by apply Hσ].
      * intros s r [[<- <-]|[Hne E]]%lookup_insert_Some.
        -- simpl. rewrite orb_true_iff, Hn2, Hlast. split; [intros [| ->]; auto|]. intros [|[= <-]]; auto.
        -- rewrite (Hl _ _ E). split; [by left|]. intros [|[= <- _]]; done.
      * intros s r [[<- <-]|[Hne E]]%lookup_insert_Some; [exists τ; by right|]. destruct (Hs _ _ E) as [t Ht]. exists t. by left.
      * intros s r [[<- <-]|[Hne E]]%lookup_insert_Some; [by apply Hsub|]. eapply rep_ext; [apply (Hr _ _ E)|].
        intros x Hx. unfold below. split; [intros [? ?]; auto|]. intros [? [|[= <- _]]]; done.
      * intros s t [H|[= <- _]]; [|rewrite lookup_insert_eq; by eexists]. destruct (decide (s = σ)) as [->|Hne]; [rewrite lookup_insert_eq; by eexists|].
        rewrite lookup_insert_ne by done. by eapply Hin.
Qed.

Definition normed (routes : list (list string)) : list (list string) := (λ p : list string, norm <$> p) <$> routes.
Definition tree_of (routes : list (list string)) : gmap string route := foldl addOptionsPath ∅ routes.

Lemma tree_of_rep routes :
  safe (λ x, x ∈ normed routes) → rep (tree_of routes) (λ x, x ∈ normed routes).
Proof.
  induction routes as [|segs routes IH] using rev_ind; intros Hs.
  { eapply rep_ext; [apply rep_nothing|]. intros x _. split; [done|]. by intros ?%elem_of_nil. }
  assert (∀ x, x ∈ normed (routes ++ [segs]) ↔ x ∈ normed routes ∨ x = norm <$> segs) as Hx.
  { intros x. unfold normed. rewrite fmap_app, elem_of_app. cbn. rewrite list_elem_of_singleton. done. }
  unfold tree_of. rewrite foldl_app. eapply rep_ext; [|intros x _; symmetry; apply Hx].
  apply rep_add; [|eapply safe_mono; [exact Hs|]; intros x ?; by apply Hx].
  apply IH. eapply safe_mono; [exact Hs|]. intros x ?. apply Hx. by left.
Qed.

(** ** The paths of a tree *)

Inductive leaf : gmap string route → list string → Prop :=
  | leaf_last m s r : m !! s = Some r → route_last r = true → leaf m [s]
  | leaf_sub m s r t : m !! s = Some r → leaf (route_sub r) t → leaf m (s :: t).

Lemma append_append (a b c : string) : (a +:+ b) +:+ c = a +:+ b +:+ c.
Proof. induction a as [|x a IH]; [done|exact (f_equal (String x) IH)]. Qed.
Lemma append_empty_r (a : string) : a +:+ "" = a.
Proof. induction a as [|x a IH]; [done|exact (f_equal (String x) IH)]. Qed.

(** The text of a path. *)
Definition path_of (segs : list string) : string := foldr (λ s path, "/" +:+ s +:+ path) "" segs.

(** A path of the tree answers a route, or shares requests with it. *)
Definition covers : list string → list string → Prop := Forall2 (λ a b, a = b ∨ a = wildcardParamSegment).
Definition overlaps : list string → list string → Prop :=
  Forall2 (λ a b, a = b ∨ a = wildcardParamSegment ∨ b = wildcardParamSegment).

Lemma covers_overlaps l p : covers l p → overlaps l p.
Proof. induction 1; constructor; [intuition|done]. Qed.
Lemma covers_refl p : covers p p.
Proof. induction p; constructor; auto. Qed.
Lemma leaf_nonempty m l : leaf m l → l ≠ [].
Proof. by destruct 1. Qed.

Lemma elem_of_fold_app {A} (F : string → route → list A) m x :
  x ∈ map_fold (λ s r acc, F s r ++ acc) [] m ↔ ∃ s r, m !! s = Some r ∧ x ∈ F s r.
Proof.
  apply (map_fold_weak_ind (λ acc m, x ∈ acc ↔ ∃ s r, m !! s = Some r ∧ x ∈ F s r)).
  - split; [by intros ?%elem_of_nil|]. intros (s & r & H & _). by rewrite lookup_empty in H.
  - intros s r m' acc Hs IH. rewrite elem_of_app, IH. split.
    + intros [H|(s' & r' & H & Hx)]; [exists s, r; by rewrite lookup_insert_eq|]. exists s', r'.
      by rewrite lookup_insert_ne by congruence.
    + intros (s' & r' & [[<- <-]|[_ H]]%lookup_insert_Some & Hx); [by left|right; eauto].
Qed.

Lemma flatten_leaf m : wf m → ∀ pre path, path ∈ flattenOptionsPaths m pre ↔ ∃ l, leaf m l ∧ path = pre +:+ path_of l.
Proof.
  induction 1 as [m _ IH _]. intros pre path. unfold flattenOptionsPaths. rewrite elem_of_fold_app.
  assert (∀ p s x, (p +:+ "/" +:+ s) +:+ x = p +:+ "/" +:+ s +:+ x) as Happ.
  { intros p s x. by rewrite append_append. }
  split.
  - intros (s & r & Hm & Hx). specialize (IH s r Hm). destruct r as [b sub].
    apply elem_of_app in Hx as [Hx|Hx].
    + destruct b; [|by apply elem_of_nil in Hx]. apply list_elem_of_singleton in Hx as ->.
      exists [s]. split; [by eapply leaf_last|]. cbn. by rewrite append_empty_r.
    + apply IH in Hx as (l & Hl & ->). exists (s :: l). split; [by eapply leaf_sub|]. apply Happ.
  - intros (l & Hl & ->). destruct Hl as [m s r Hm Hr|m s r t Hm Hl]; exists s, r; (split; [done|]).
    + destruct r as [b sub]. simpl in Hr. subst b. apply elem_of_app. left. apply list_elem_of_singleton. cbn.
      by rewrite append_empty_r.
    + specialize (IH s r Hm). destruct r as [b sub]. apply elem_of_app. right. apply IH. exists t. split; [done|]. symmetry. apply Happ.
Qed.

Lemma wf_level_inv m s r : wf m → m !! s = Some r → wf (route_sub r).
Proof. intros [m' H _]. apply H. Qed.

(** [optionsTreeContains] finds the paths that share requests with a path of the tree. *)
Lemma check_leaf m s r (rest : list string) :
  m !! s = Some r →
  (∀ q, optionsTreeContains (route_sub r) q = true ↔ ∃ l, leaf (route_sub r) l ∧ overlaps l (norm <$> q)) →
  match rest with [] => route_last r | _ => optionsTreeContains (route_sub r) rest end = true ↔
  ∃ l, leaf m (s :: l) ∧ overlaps l (norm <$> rest).
Proof.
  intros Hm IH. destruct rest as [|x rest].
  - split; [intros H; exists []; split; [by eapply leaf_last|constructor]|].
    intros (l & Hl & Ho%Forall2_nil_inv_r). subst l.
    inversion Hl as [? ? r' H1 H2|? ? r' t H1 H2]; [congruence|by apply leaf_nonempty in H2].
  - rewrite IH. split; intros (l & Hl & Ho); exists l; (split; [|done]); [by eapply leaf_sub|].
    inversion Hl as [? ? r' H1 H2|? ? r' t H1 H2]; subst; [by apply Forall2_nil_cons_inv in Ho|congruence].
Qed.

Lemma contains_leaf m : wf m → ∀ q, optionsTreeContains m q = true ↔ ∃ l, leaf m l ∧ overlaps l (norm <$> q).
Proof.
  induction 1 as [m Hsub IH Hlevel]. intros [|seg rest].
  { split; [done|]. intros (l & Hl & Ho%Forall2_nil_inv_r). by apply leaf_nonempty in Hl. }
  assert (∀ s r, m !! s = Some r →
    match rest with [] => route_last r | _ => optionsTreeContains (route_sub r) rest end = true ↔
    ∃ l, leaf m (s :: l) ∧ overlaps l (norm <$> rest)) as Hcheck.
  { intros s r Hm. apply check_leaf; [done|]. by apply (IH s). }
  assert (∀ l, leaf m l → ∃ s t, l = s :: t ∧ is_Some (m !! s)) as Hhd by (destruct 1; eauto).
  cbn [optionsTreeContains]. change (norm <$> seg :: rest) with (norm seg :: (norm <$> rest)). set (σ := norm seg).
  destruct (String.eqb_spec σ wildcardParamSegment) as [->|Hσ].
  - rewrite existsb_exists. split.
    + intros (r & Hr%list_elem_of_In & Hc). apply list_elem_of_fmap in Hr as ([s r'] & -> & Hm%elem_of_map_to_list).
      apply (Hcheck _ _ Hm) in Hc as (l & Hl & Ho). exists (s :: l). split; [done|]. constructor; auto.
    + intros (l & Hl & Ho). destruct (Hhd _ Hl) as (s & t & -> & [r Hm]). apply Forall2_cons in Ho as [_ Ho].
      exists r. split; [|apply (Hcheck _ _ Hm); eauto]. apply list_elem_of_In, list_elem_of_fmap. exists (s, r).
      split; [done|]. by apply elem_of_map_to_list.
  - destruct (m !! σ) as [r|] eqn:Hm.
    + rewrite (Hcheck _ _ Hm). split; intros (l & Hl & Ho).
      * exists (σ :: l). split; [done|]. constructor; auto.
      * destruct (Hhd _ Hl) as (s & t & -> & [r' Hm']). apply Forall2_cons in Ho as [Hs Ho]. exists t. split; [|done].
        destruct Hs as [<-|[Hs|Hs]]; [done| |done]. subst s. destruct Hlevel as [E|[r'' ->]]; [congruence|].
        apply lookup_singleton_Some in Hm as [Hm _]. by symmetry in Hm.
    + destruct (m !! wildcardParamSegment) as [r|] eqn:Hw.
      * rewrite (Hcheck _ _ Hw). split; intros (l & Hl & Ho); [exists (wildcardParamSegment :: l); split; [done|]; constructor; auto|].
        destruct (Hhd _ Hl) as (s & t & -> & [r' Hm']). apply Forall2_cons in Ho as [Hs Ho]. exists t. split; [|done].
        destruct Hs as [<-|[<-|Hs]]; [congruence|done|done].
      * split; [done|]. intros (l & Hl & Ho). destruct (Hhd _ Hl) as (s & t & -> & [r' Hm']). apply Forall2_cons in Ho as [Hs Ho].
        destruct Hs as [->|[->|Hs]]; [congruence..|done].
Qed.

(** The paths of the tree of a safe set answer its paths and no others. *)
Lemma rep_covers m P : rep m P → safe P → ∀ p, p ≠ [] → P p → ∃ l, leaf m l ∧ covers l p.
Proof.
  induction 1 as [P b sub [t0 Ht0] Hb _ IH|m P Hw Hl Hs _ IH Hin]; intros Hsafe p Hp HP; (destruct p as [|s t]; [done|]).
  - destruct t as [|x t].
    + exists [wildcardParamSegment]. split; [|constructor; auto]. apply leaf_last with (r:=Route b sub); [apply lookup_singleton_eq|].
      apply Hb. by exists s.
    + assert (s = wildcardParamSegment) as -> by (by destruct (Hsafe [] s (x :: t) t0)).
      destruct IH with (p := x :: t) as (l & Hlf & Hc); [|done|done|].
      { eapply safe_sub; [exact Hsafe|]. by intros y _ [_ ?]. }
      exists (wildcardParamSegment :: l). split; [|constructor; auto]. eapply leaf_sub; [apply lookup_singleton_eq|done].
  - destruct (Hin _ _ HP) as [r Hm]. destruct t as [|x t].
    + exists [s]. split; [|constructor; auto]. eapply leaf_last; [done|]. by apply (Hl _ _ Hm).
    + destruct (IH _ _ Hm) with (p := x :: t) as (l & Hlf & Hc); [|done|done|].
      { eapply safe_sub; [exact Hsafe|]. by intros y _ [_ ?]. }
      exists (s :: l). split; [by eapply leaf_sub|constructor; auto].
Qed.

Lemma rep_leaf m P : rep m P → ∀ l, leaf m l → ∃ p, P p ∧ covers l p.
Proof.
  induction 1 as [P b sub _ Hb _ IH|m P Hw Hl Hs _ IH Hin]; intros l Hlf.
  - inversion Hlf as [? s r Hm Hr|? s r t Hm Ht]; subst; apply lookup_singleton_Some in Hm as [<- <-].
    + apply Hb in Hr as [s Hr]. exists [s]. split; [done|]. constructor; auto.
    + apply IH in Ht as (p & [_ Hp] & Hc). exists (wildcardParamSegment :: p). split; [done|]. constructor; auto.
  - inversion Hlf as [? s r Hm Hr|? s r t Hm Ht]; subst.
    + exists [s]. split; [by apply (Hl _ _ Hm)|]. constructor; auto.
    + apply (IH _ _ Hm) in Ht as (p & [_ Hp] & Hc). exists (s :: p). split; [done|]. constructor; auto.
Qed.

(** ** The routes *)

(** Two normalized paths that are not safe next to each other. *)
Fixpoint conflict (p q : list string) : bool :=
  match p, q with
  | s :: t, s' :: t' =>
      (String.eqb s' wildcardParamSegment && negb (String.eqb s wildcardParamSegment) && match t with [] => false | _ => true end)
      || (String.eqb s s' && conflict t t')
  | _, _ => false
  end.
Definition safe_paths (paths : list (list string)) : bool := forallb (λ p, forallb (λ q, negb (conflict p q)) paths) paths.

Lemma conflict_at pre s x t t' : s ≠ wildcardParamSegment → conflict (pre ++ s :: x :: t) (pre ++ wildcardParamSegment :: t') = true.
Proof.
  intros Hs. apply String.eqb_neq in Hs. induction pre as [|a pre IH]; cbn [app conflict].
  - rewrite Hs, String.eqb_refl. done.
  - by rewrite String.eqb_refl, IH, orb_true_r.
Qed.

Lemma safe_paths_safe paths : safe_paths paths = true → safe (λ x, x ∈ paths).
Proof.
  unfold safe_paths. rewrite forallb_forall. intros H pre s t t' H1 H2.
  destruct (decide (s = wildcardParamSegment)) as [|Hs]; [by left|]. right. destruct t as [|x t]; [done|].
  apply list_elem_of_In in H1. apply list_elem_of_In in H2. specialize (H _ H1). rewrite forallb_forall in H.
  specialize (H _ H2). by rewrite conflict_at in H.
Qed.

Lemma options_tree_paths enabled paths :
  Forall2 (λ key path, route_path key = Ok path) enabled paths →
  options_tree enabled = Ok (tree_of (path_segments <$> paths)).
Proof.
  intros H. unfold options_tree, tree_of. generalize (∅ : gmap string route).
  induction H as [|key path enabled paths Hk _ IH]; intros m; [done|]. cbn. rewrite Hk. apply IH.
Qed.

Lemma check_disabled_paths tree disabled paths :
  Forall2 (λ key path, route_path key = Ok path) disabled paths →
  check_disabled tree disabled = if existsb (λ p, optionsTreeContains tree (path_segments p)) paths then Panic else Ok tt.
Proof.
  intros H. unfold check_disabled.
  assert (∀ disabled, foldl (λ r key, _ ← r; path ← route_path key;
    if optionsTreeContains tree (path_segments path) then Panic else Ok tt) Panic disabled = Panic) as Hp by (intros l; by induction l).
  induction H as [|key path disabled paths Hk _ IH]; [done|]. cbn. rewrite Hk. cbn.
  destruct (optionsTreeContains tree (path_segments path)); [apply Hp|apply IH].
Qed.

(** C31. The tree of the OPTIONS routes is well formed. When no static segment next to
    a parameter has routes below it, the tree does not depend on the order in which the
    map of routes is visited: every order gives one tree, in which no level has a
    parameter next to a static segment, so that the router accepts its paths; an OPTIONS
    path answers every enabled route, every OPTIONS path answers some enabled route,
    and the routes are refused exactly when a disabled path shares requests with an
    OPTIONS path. *)
Theorem options_tree_spec enabled disabled paths dpaths :
  Forall2 (λ key path, route_path key = Ok path) enabled paths →
  Forall2 (λ key path, route_path key = Ok path) disabled dpaths →
  safe_paths (normed (path_segments <$> paths)) = true →
  ∃ tree, options_tree enabled = Ok tree ∧ wf tree ∧
    (∀ enabled', enabled ≡ₚ enabled' → options_tree enabled' = Ok tree) ∧
    (∀ path, path ∈ paths → path_segments path ≠ [] →
       ∃ l, path_of l ∈ flattenOptionsPaths tree "" ∧ covers l (norm <$> path_segments path)) ∧
    (∀ path, path ∈ flattenOptionsPaths tree "" → ∃ l p, path = path_of l ∧ p ∈ paths ∧ covers l (norm <$> path_segments p)) ∧
    (corsMux enabled disabled = Panic ∧ (∃ p l, p ∈ dpaths ∧ leaf tree l ∧ overlaps l (norm <$> path_segments p)) ∨
     corsMux enabled disabled = Ok (enabled ++ disabled ++ (String.append "OPTIONS " <$> flattenOptionsPaths tree "")) ∧
     ¬ ∃ p l, p ∈ dpaths ∧ leaf tree l ∧ overlaps l (norm <$> path_segments p)).
Proof.
  intros Hen Hdis Hsafe%safe_paths_safe. pose proof (options_tree_paths _ _ Hen) as Ht.
  pose proof (tree_of_rep _ Hsafe) as Hrep. set (tree := tree_of (path_segments <$> paths)) in *.
  pose proof (rep_wf _ _ Hrep) as Hwf. exists tree. split_and!; [done..| | | |].
  - intros enabled' Hp. destruct (Permutation_Forall2 Hp Hen) as (paths' & Hp' & Hen').
    rewrite (options_tree_paths _ _ Hen'). f_equal. eapply rep_unique; [|exact Hrep].
    assert (∀ x, x ∈ normed (path_segments <$> paths') ↔ x ∈ normed (path_segments <$> paths)) as Hx.
    { intros x. unfold normed. by rewrite Hp'. }
    eapply rep_ext; [apply tree_of_rep|intros x _; apply Hx]. eapply safe_mono; [exact Hsafe|]. intros x. apply Hx.
  - intros path Hpath Hne. destruct (rep_covers _ _ Hrep Hsafe (norm <$> path_segments path)) as (l & Hl & Hc).
    + by destruct (path_segments path).
    + unfold normed. rewrite <-list_fmap_compose. apply list_elem_of_fmap. by exists path.
    + exists l. split; [|done]. apply (flatten_leaf _ Hwf). by exists l.
  - intros path (l & Hl & ->)%(flatten_leaf _ Hwf). destruct (rep_leaf _ _ Hrep _ Hl) as (p & Hp & Hc).
    unfold normed in Hp. rewrite <-list_fmap_compose in Hp. apply list_elem_of_fmap in Hp as (q & -> & Hq). by exists l, q.
  - unfold corsMux. rewrite Ht. cbn. rewrite (check_disabled_paths _ _ _ Hdis).
    destruct (existsb _ dpaths) eqn:E; [left|right]; cbn; (split; [done|]).
    + apply existsb_exists in E as (p & Hp%list_elem_of_In & Hc). apply (contains_leaf _ Hwf) in Hc as (l & Hl & Ho). by exists p, l.
    + intros (p & l & Hp & Hl & Ho). apply not_true_iff_false in E. apply E, existsb_exists. exists p.
      split; [by apply list_elem_of_In|]. apply (contains_leaf _ Hwf). by exists l.
Qed.

Module CorsWitness.
Definition paths_of (keys : list string) : list string := omap (λ k, Fields k !! 1) keys.

(** The routes of [NewAPI] are accepted, in whatever order they are visited. *)
Example options_tree_spec_witness :
  ∃ tree, options_tree NewAPI_enabled = Ok tree ∧ wf tree ∧
    (∀ enabled', NewAPI_enabled ≡ₚ enabled' → options_tree enabled' = Ok tree).
Proof.
  destruct (options_tree_spec NewAPI_enabled NewAPI_disabled (paths_of NewAPI_enabled) (paths_of NewAPI_disabled))
    as (tree & H1 & H2 & H3 & _).
  - vm_compute. repeat constructor.
  - vm_compute. repeat constructor.
  - vm_compute. reflexivity.
  - exists tree. auto.
Defined.

Example NewAPI_accepted : is_ok (corsMux NewAPI_enabled NewAPI_disabled) = true.
Proof. vm_compute. reflexivity. Qed.

(** Outside the condition the tree depends on the order: when the parameter comes
    last, the merge keeps a static segment next to a parameter one level below, the
    conflict the tree is there to remove. *)
Example merge_depends_on_order :
  (tree ← options_tree ["GET /a/x"; "GET /b/:id"; "GET /:p"]%string; mret (flattenOptionsPaths tree ""))
    = Ok ["/:param"; "/:param/:param"; "/:param/x"]%string ∧
  (tree ← options_tree ["GET /:p"; "GET /a/x"; "GET /b/:id"]%string; mret (flattenOptionsPaths tree ""))
    = Ok ["/:param"; "/:param/:param"]%string.
Proof. vm_compute. done. Qed.
End CorsWitness.
