(* ===== verification/Subscriber.v ===== *)
(** * The chain subscriber (src/subscriber/subscriber.go)

    [Sync] hands the updates of the chain manager to the host, contract and wallet
    managers in one database transaction per batch and remembers how far it got.
    The managers, the chain manager and the store are interfaces. The abstract
    specification of a sync is a chain of blocks that is cut and extended, or
    started over; [sync_follows_chain] is the refinement. *)

From S2P Require Import Prelude.

(** [types.ChainIndex] *)
Record ChainIndex := mkIndex { CI_Height : Z; CI_ID : Hash256 }.
#[export] Instance ChainIndex_eq_dec : EqDecision ChainIndex.
Proof. solve_decision. Defined.

(** [chain.ApplyUpdate] and [chain.RevertUpdate]: the block and [State.Index], the
    index after the update. *)
Record ChainUpdate {B : Type} := mkChainUpdate { CU_Block : B; StateIndex : ChainIndex }.
Arguments mkChainUpdate {B} _ _.
Arguments ChainUpdate : clear implicits.

(** The managers, the store and the chain manager of the subscriber. *)
Class SubscriberDeps (S B : Type) := {
  cm_Tip : M S ChainIndex;
  cm_UpdatesSince : ChainIndex → Z → M S (list (ChainUpdate B) * list (ChainUpdate B));
  cm_PruneBlocks : Z → M S unit;
  contracts_ProcessActions : M S unit;
  contracts_UpdateChainState : list (ChainUpdate B) → list (ChainUpdate B) → M S unit;
  hosts_UpdateChainState : list (ChainUpdate B) → M S unit;
  wallet_UpdateChainState : list (ChainUpdate B) → list (ChainUpdate B) → M S unit;
  tx_UpdateLastScannedIndex : ChainIndex → M S unit;
  store_ResetChainState : M S unit;
  store_transaction : ∀ {A}, M S A → M S A;          (* UpdateChainState of the store *)
  store_LastScannedIndex : M S ChainIndex;
  sub_ctx_Err : M S (option error) }.

Section sync.
Local Open Scope go_scope.
Context {S B : Type} {D : SubscriberDeps S B}.
Variable updateBatchSize pruneTarget : Z.

Definition LastScannedIndex : M S ChainIndex := store_LastScannedIndex.

(** The function given to the transaction, which also sets [index]. *)
Definition apply_updates (rus aus : list (ChainUpdate B)) : M S ChainIndex :=
  wrapM "failed to update host chain state: " (hosts_UpdateChainState aus) ;;
  wrapM "failed to update contract chain state: " (contracts_UpdateChainState rus aus) ;;
  wrapM "failed to update wallet chain state: " (wallet_UpdateChainState rus aus) ;;
  let* index := lift (of_option (StateIndex <$> last (if Nat.ltb 0 (length aus) then aus else rus))) in
  wrapM "failed to update last scanned index: " (tx_UpdateLastScannedIndex index) ;;
  mret index.

(** The loop of [Sync]; one element of fuel per iteration, [None] when it ran out. *)
Fixpoint sync_loop (fuel : nat) (index : ChainIndex) (resetAttempts : nat) : M S (option ChainIndex) :=
  match fuel with
  | O => mret None
  | Datatypes.S fuel =>
      let* tip := cm_Tip in
      if decide (index = tip) then mret (Some index)
      else
        let* ctx := sub_ctx_Err in
        match ctx with
        | Some e => throw e
        | None =>
            let* u := try (cm_UpdatesSince index updateBatchSize) in
            match u with
            | Ok ([], []) => mret (Some index)
            | Ok (rus, aus) =>
                let* index := wrapM "failed to apply updates: " (store_transaction (apply_updates rus aus)) in
                sync_loop fuel index resetAttempts
            | Err e =>
                let resetAttempts := Datatypes.S resetAttempts in
                if Nat.ltb 3 resetAttempts then throw (EWrap "failed to sync chain state after multiple attempts: " e "")
                else
                  wrapM "failed to reset consensus state: " store_ResetChainState ;;
                  let* index := wrapM "failed to get last scanned index after reset: " store_LastScannedIndex in
                  sync_loop fuel index resetAttempts
            | Panic => panic
            end
        end
  end.

Definition Sync (fuel : nat) : M S (option unit) :=
  let* index := wrapM "failed to get last scanned index: " store_LastScannedIndex in
  let* r := sync_loop fuel index 0 in
  match r with
  | None => mret None
  | Some index =>
      let* _ := try contracts_ProcessActions in
      (if (0 <? pruneTarget)%Z && (pruneTarget <? CI_Height index)%Z
       then cm_PruneBlocks (u64 (CI_Height index - pruneTarget)) else mret tt) ;;
      mret (Some tt)
  end.

(** ** The abstract specification *)

(** The index before the first block. *)
Variable genesis : ChainIndex.
Variable index_of : B → ChainIndex.
Definition tip_of (P : list B) : ChainIndex := match last P with Some b => index_of b | None => genesis end.

(** A sync replaces some blocks at the end, or starts over. *)
Inductive follow (known : list B → Prop) : list B → list B → Prop :=
  | follow_reorg P old new : known (P ++ new) → follow known (P ++ old) (P ++ new)
  | follow_reset P : follow known P [].

(** What the database says: the blocks that the wallet and the contract manager have
    processed, the scanned index, and how often it was reset. *)
Record View := mkView { wallet_blocks : list B; contract_blocks : list B; scanned : ChainIndex; resets_done : nat }.

Variable view : S → View.
Variable known : list B → Prop.

(** A manager's view of a batch: the reverted blocks go, the last one first, and the
    applied blocks come. *)
Definition processed (rus aus : list (ChainUpdate B)) (old new : list B) : Prop :=
  ∀ P, old = P ++ reverse (CU_Block <$> rus) → new = P ++ (CU_Block <$> aus).

(** Calls that do not change the view. *)
Definition quiet {A} (m : M S A) : Prop := ∀ s, view (m s).2 = view s.

(** What the components promise. The chain manager describes the way from a chain it
    knows to one that it knows, with the index after each update. *)
Class SubscriberLaws : Prop := {
  Tip_quiet : quiet cm_Tip;
  ctx_quiet : quiet sub_ctx_Err;
  Prune_quiet : ∀ h, quiet (cm_PruneBlocks h);
  Actions_quiet : quiet contracts_ProcessActions;
  Scanned_reads : ∀ s, view (store_LastScannedIndex s).2 = view s ∧
    ∀ i, (store_LastScannedIndex s).1 = Ok i → i = scanned (view s);
  Hosts_quiet : ∀ aus, quiet (hosts_UpdateChainState aus);
  Updates_quiet : ∀ i n, quiet (cm_UpdatesSince i n);
  Updates_known : ∀ i n s rus aus P, (cm_UpdatesSince i n s).1 = Ok (rus, aus) → known P → tip_of P = i →
    ∃ P0, P = P0 ++ reverse (CU_Block <$> rus) ∧ known (P0 ++ (CU_Block <$> aus)) ∧
      (StateIndex <$> last aus = index_of <$> last (CU_Block <$> aus)) ∧
      (aus = [] → ∀ u, last rus = Some u → StateIndex u = tip_of P0);
  Contracts_process : ∀ rus aus s s', contracts_UpdateChainState rus aus s = (Ok tt, s') →
    processed rus aus (contract_blocks (view s)) (contract_blocks (view s')) ∧
    wallet_blocks (view s') = wallet_blocks (view s) ∧ resets_done (view s') = resets_done (view s);
  Wallet_process : ∀ rus aus s s', wallet_UpdateChainState rus aus s = (Ok tt, s') →
    processed rus aus (wallet_blocks (view s)) (wallet_blocks (view s')) ∧
    contract_blocks (view s') = contract_blocks (view s) ∧ resets_done (view s') = resets_done (view s);
  Scanned_writes : ∀ i s s', tx_UpdateLastScannedIndex i s = (Ok tt, s') →
    view s' = mkView (wallet_blocks (view s)) (contract_blocks (view s)) i (resets_done (view s));
  (* a transaction commits what its function did, or nothing *)
  Transaction : ∀ A (m : M S A) s r s', store_transaction m s = (r, s') →
    match r with Ok a => ∃ s1, m s = (Ok a, s1) ∧ view s' = view s1 | _ => view s' = view s end;
  (* the wallet starts over; the contracts stay *)
  Reset_law : ∀ s r s', store_ResetChainState s = (r, s') →
    match r with
    | Ok _ => view s' = mkView [] (contract_blocks (view s)) genesis (Datatypes.S (resets_done (view s)))
    | _ => view s' = view s
    end;
  known_genesis : known [] }.

Context {DL : SubscriberLaws}.

(** The scanned index belongs to the blocks that the wallet has processed. *)
Definition consistent (v : View) : Prop := known (wallet_blocks v) ∧ scanned v = tip_of (wallet_blocks v).

(** How the view may change from [v] to [v'] during a sync that has done [n] resets. *)
Record synced (n : nat) (v v' : View) : Prop := {
  sy_consistent : consistent v';
  sy_follow : rtc (follow known) (wallet_blocks v) (wallet_blocks v');
  sy_resets : resets_done v ≤ resets_done v' ≤ resets_done v + (3 - n);
  sy_contracts : resets_done v' = resets_done v → contract_blocks v = wallet_blocks v → contract_blocks v' = wallet_blocks v' }.

Lemma synced_refl n v : consistent v → synced n v v.
Proof. intros H. split; [done|done|lia|done]. Qed.

Lemma last_reverse_blocks (l : list (ChainUpdate B)) : l ≠ [] → is_Some (last l).
Proof. intros H. destruct (last l) eqn:E; [by eexists|]. by apply last_None in E. Qed.

(** One batch. *)
Lemma apply_updates_spec rus aus s r s' :
  consistent (view s) → (rus ≠ [] ∨ aus ≠ []) →
  (∃ n s0, (cm_UpdatesSince (scanned (view s)) n s0).1 = Ok (rus, aus)) →
  apply_updates rus aus s = (Ok r, s') →
  synced 3 (view s) (view s') ∧ r = scanned (view s').
Proof.
  intros [Hk Hs] Hne (n & s0 & Hu) H.
  destruct (Updates_known _ _ _ _ _ (wallet_blocks (view s)) Hu Hk) as (P0 & HP & Hk' & Hia & Hir); [done|].
  unfold apply_updates in H.
  apply bindM_ok in H as ([] & s1 & H1 & H). apply bindM_ok in H as ([] & s2 & H2 & H). apply bindM_ok in H as ([] & s3 & H3 & H).
  apply bindM_ok in H as (i & s4 & Hi & H). apply bindM_ok in H as ([] & s5 & H5 & H). injection H as <- <-.
  apply wrapM_ok in H1, H2, H3, H5. pose proof (Hosts_quiet aus s) as Hv1. rewrite H1 in Hv1. simpl in Hv1.
  apply Contracts_process in H2 as (Hc2 & Hw2 & Hr2). apply Wallet_process in H3 as (Hw3 & Hc3 & Hr3).
  unfold lift in Hi. injection Hi as Hi <-. apply Scanned_writes in H5. rewrite H5. simpl.
  rewrite Hv1 in *. assert (wallet_blocks (view s3) = P0 ++ (CU_Block <$> aus)) as HP3 by (apply Hw3; congruence).
  assert (i = tip_of (P0 ++ (CU_Block <$> aus))) as ->.
  { unfold tip_of. destruct aus as [|a aus].
    - simpl in Hi. destruct Hne as [Hne|]; [|done]. destruct (last_reverse_blocks rus Hne) as [u Hl]. rewrite Hl in Hi.
      simpl in Hi. injection Hi as <-. rewrite (Hir eq_refl u Hl). by rewrite app_nil_r.
    - cbn [length Nat.ltb Nat.leb] in Hi. rewrite Hia in Hi. rewrite last_app.
      destruct (last (CU_Block <$> a :: aus)); simpl in Hi; [by injection Hi as <-|done]. }
  assert (follow known (wallet_blocks (view s)) (P0 ++ (CU_Block <$> aus))) as Hf by (rewrite HP; by constructor).
  rewrite HP3. split; [|done]. split; simpl.
  - split; simpl; done.
  - by apply rtc_once.
  - lia.
  - intros _ Heq. rewrite Hc3. apply Hc2. congruence.
Qed.

Lemma synced_trans n v v1 v2 :
  synced 3 v v1 → synced n v1 v2 → synced n v v2.
Proof.
  intros [_ Hf1 Hr1 Hc1] [Hk2 Hf2 Hr2 Hc2]. assert (resets_done v1 = resets_done v) as Hr by lia. split; [done|by etrans|lia|].
  intros Heq Hc. apply Hc2; [lia|by apply Hc1].
Qed.

Lemma synced_reset n v v2 :
  n < 3 → synced (Datatypes.S n) (mkView [] (contract_blocks v) genesis (Datatypes.S (resets_done v))) v2 → synced n v v2.
Proof.
  intros Hn [Hk Hf Hr Hc]. simpl in *. split; [done| |lia|lia].
  eapply rtc_l; [|exact Hf]. constructor.
Qed.

(** A sync that ends well has reached the tip, or there was nothing to do. *)
Definition caught_up (i : ChainIndex) : Prop :=
  ∃ s, (cm_Tip s).1 = Ok i ∨ (cm_UpdatesSince i updateBatchSize s).1 = Ok ([], []).

(** What is to be shown of a run from a state with the view [v]. *)
Definition sync_ok (n : nat) (v : View) (r : result (option ChainIndex)) (s' : S) : Prop :=
  synced n v (view s') ∧ ∀ i, r = Ok (Some i) → i = scanned (view s') ∧ caught_up i.

Lemma sync_ok_stop n v r s' : consistent v → view s' = v → (∀ i, r ≠ Ok (Some i)) → sync_ok n v r s'.
Proof. intros Hc Hv Hr. split; [rewrite Hv; by apply synced_refl|]. by intros i ?%Hr. Qed.

(** A call that does not change the view goes on, or ends the run. *)
Lemma quiet_step {A} (m : M S A) (f : A → M S (option ChainIndex)) n v s r s' :
  quiet m → view s = v → consistent v → bindM m f s = (r, s') →
  (∀ a s1, (m s).1 = Ok a → view s1 = v → f a s1 = (r, s') → sync_ok n v r s') → sync_ok n v r s'.
Proof.
  intros Hq Hv Hc H Hf. specialize (Hq s). apply bindM_cases in H as [(a & s1 & Hm & H)|(Hst & _ & Hr)].
  - rewrite Hm in Hq, Hf. simpl in Hq. apply (Hf a s1); [done|congruence|done].
  - apply sync_ok_stop; [done|by rewrite <-Hst, Hq, Hv|by intros i].
Qed.

Lemma try_quiet {A} (m : M S A) : quiet m → quiet (try m).
Proof. intros H s. by rewrite try_state. Qed.
Lemma wrapM_quiet {A} pre (m : M S A) : quiet m → quiet (wrapM pre m).
Proof. intros H s. by rewrite wrapM_state. Qed.
Lemma try_result {A} (m : M S A) s r : (try m s).1 = Ok r → (m s).1 = r.
Proof. unfold try. destruct (m s) as [[]?]; simpl; congruence. Qed.

(** The transaction of a batch. *)
Lemma transaction_step rus aus (f : ChainIndex → M S (option ChainIndex)) n s r s' :
  consistent (view s) → rus ≠ [] ∨ aus ≠ [] →
  (∃ n s0, (cm_UpdatesSince (scanned (view s)) n s0).1 = Ok (rus, aus)) →
  bindM (wrapM "failed to apply updates: " (store_transaction (apply_updates rus aus))) f s = (r, s') →
  (∀ s1, synced 3 (view s) (view s1) → f (scanned (view s1)) s1 = (r, s') → sync_ok n (view s) r s') → sync_ok n (view s) r s'.
Proof.
  intros Hc Hne Hu H Hf. apply bindM_cases in H as [(i & s1 & Ht%wrapM_ok & H)|(Hst & Hno & Hr)].
  - apply Transaction in Ht as (s2 & Ha & Hv). apply apply_updates_spec in Ha as [Hs Hi]; [|done..].
    rewrite <-Hv in Hs, Hi. subst i. by eapply Hf.
  - rewrite wrapM_state in Hst. destruct (store_transaction (apply_updates rus aus) s) as [x s1] eqn:Et. simpl in Hst. subst s1.
    pose proof (Transaction _ _ _ _ _ Et) as Hv. apply sync_ok_stop; [done| |by intros i].
    destruct x as [a|e|]; [|done..]. exfalso. apply (Hno a). unfold wrapM. by rewrite Et.
Qed.

(** The reset of the chain state. *)
Lemma reset_step (f : M S (option ChainIndex)) n s r s' :
  consistent (view s) → (wrapM "failed to reset consensus state: " store_ResetChainState ;; f) s = (r, s') →
  (∀ s1, view s1 = mkView [] (contract_blocks (view s)) genesis (Datatypes.S (resets_done (view s))) →
     consistent (view s1) → f s1 = (r, s') → sync_ok n (view s) r s') → sync_ok n (view s) r s'.
Proof.
  intros Hc H Hf. apply bindM_cases in H as [([] & s1 & Hrs%wrapM_ok & H)|(Hst & Hno & Hr)].
  - apply Reset_law in Hrs. eapply Hf; [done| |done]. rewrite Hrs. split; [apply known_genesis|done].
  - rewrite wrapM_state in Hst. destruct (store_ResetChainState s) as [x s1] eqn:Et. simpl in Hst. subst s1.
    pose proof (Reset_law _ _ _ Et) as Hv. apply sync_ok_stop; [done| |by intros i].
    destruct x as [a|e'|]; [|done..]. exfalso. apply (Hno a). unfold wrapM. by rewrite Et.
Qed.

Lemma sync_loop_spec fuel n s r s' :
  consistent (view s) → n ≤ 3 → sync_loop fuel (scanned (view s)) n s = (r, s') → sync_ok n (view s) r s'.
Proof.
  revert n s. induction fuel as [|fuel IH]; intros n s Hc Hn H; simpl in H.
  { injection H as <- <-. by apply sync_ok_stop. }
  remember (view s) as v eqn:Hv. symmetry in Hv. eapply (quiet_step _ _ n v s); [apply Tip_quiet|done|done|exact H|]. clear H.
  intros tip s1 Htip Hv1 H. cbv beta in H. case_decide as Hd.
  { injection H as <- <-. split; [rewrite Hv1; by apply synced_refl|]. intros i [= <-]. rewrite Hv1. split; [done|].
    exists s. left. by rewrite Hd. }
  clear Hd. eapply (quiet_step _ _ n v s1); [apply ctx_quiet|done|done|exact H|]. clear H.
  intros ctx s2 _ Hv2 H. destruct ctx as [e|]; [injection H as <- <-; by apply sync_ok_stop|].
  eapply (quiet_step _ _ n v s2); [eapply try_quiet; apply Updates_quiet|done|done|exact H|]. clear H.
  intros u s3 Hu%try_result Hv3 H. destruct u as [[rus aus]|e|].
  - destruct (decide (rus = [] ∧ aus = [])) as [[-> ->]|Hne].
    { injection H as <- <-. split; [rewrite Hv3; by apply synced_refl|]. intros i [= <-]. rewrite Hv3. split; [done|]. exists s2. by right. }
    rewrite <-Hv3 in Hc, Hu |- *. eapply (transaction_step rus aus); [done| |by eexists _, s2| |].
    + destruct rus; [right|left]; naive_solver.
    + destruct rus, aus; [naive_solver|exact H..].
    + intros s4 Hs4 H4. apply IH in H4 as [H4 Hi4]; [|apply Hs4|done]. split; [by eapply synced_trans|done].
  - destruct (Nat.ltb_spec 3 (Datatypes.S n)); [injection H as <- <-; by apply sync_ok_stop|].
    rewrite <-Hv3 in Hc |- *. eapply reset_step; [done|exact H|]. clear H. intros s4 Hv4 Hc4 H4.
    apply bindM_cases in H4 as [(i & s5 & Hi%wrapM_ok & H)|(Hst & _ & Hr)]; destruct (Scanned_reads s4) as [Hq Hi4].
    + rewrite Hi in Hq, Hi4. simpl in Hq, Hi4. rewrite (Hi4 i eq_refl), <-Hq in H.
      apply IH in H as [H Hres]; [|by rewrite Hq|lia]. split; [|done]. apply synced_reset; [lia|]. by rewrite <-Hv4, <-Hq.
    + rewrite wrapM_state in Hst. rewrite Hst in Hq. split; [|by intros i ?%Hr]. rewrite Hq.
      apply synced_reset; [lia|]. rewrite <-Hv4. by apply synced_refl.
  - injection H as <- <-. by apply sync_ok_stop.
Qed.

(** C33. A sync refines following a chain: whatever fails and however it ends, the
    database has the wallet at a chain of blocks that the chain manager knows and the
    scanned index at its tip, and it got there by replacing blocks at the end, one
    batch at a time, or by at most three fresh starts. Without a fresh start the
    contracts have processed the same blocks. A sync that returns without an error
    has reached the tip or found nothing to do. *)
Theorem sync_follows_chain (fuel : nat) (s s' : S) (r : result (option unit)) :
  consistent (view s) → Sync fuel s = (r, s') →
  consistent (view s') ∧ rtc (follow known) (wallet_blocks (view s)) (wallet_blocks (view s')) ∧
  resets_done (view s') ≤ resets_done (view s) + 3 ∧
  (resets_done (view s') = resets_done (view s) → contract_blocks (view s) = wallet_blocks (view s) →
     contract_blocks (view s') = wallet_blocks (view s')) ∧
  (r = Ok (Some tt) → caught_up (scanned (view s'))).
Proof.
  intros Hc H. assert (synced 0 (view s) (view s') ∧ (r = Ok (Some tt) → caught_up (scanned (view s')))) as [[H1 H2 [_ H3] H4] H5];
    [|split_and!; [done|done|lia|done|done]].
  unfold Sync in H. apply bindM_cases in H as [(i & s1 & Hi%wrapM_ok & H)|(Hst & _ & Hr)]; destruct (Scanned_reads s) as [Hq Hi0].
  2: { rewrite wrapM_state in Hst. rewrite Hst in Hq. rewrite Hq. split; [by apply synced_refl|by intros ?%Hr]. }
  rewrite Hi in Hq, Hi0. simpl in Hq, Hi0. rewrite (Hi0 i eq_refl), <-Hq in H. rewrite <-Hq in Hc |- *.
  apply bindM_cases in H as [(o & s2 & Hl & H)|(Hst & _ & Hr)].
  2: { destruct (sync_loop fuel (scanned (view s1)) 0 s1) as [x s2] eqn:El. simpl in Hst. subst s2.
       apply sync_loop_spec in El as [El _]; [|done|lia]. split; [done|by intros ?%Hr]. }
  apply sync_loop_spec in Hl as [Hs Hend]; [|done|lia]. destruct o as [ci|]; [|by injection H as <- <-].
  destruct (Hend ci eq_refl) as [-> Hup]. assert (view s' = view s2) as ->; [|done].
  apply bindM_cases in H as [(x & s3 & Ha & H)|(Hst & _ & _)]; pose proof (try_quiet _ Actions_quiet s2) as Hq2.
  2: { by rewrite Hst in Hq2. }
  rewrite Ha in Hq2. simpl in Hq2. rewrite <-Hq2. apply bindM_cases in H as [([] & s4 & Hp & H)|(Hst & _ & _)].
  - injection H as _ <-. destruct (_ && _); [|by injection Hp as <-]. pose proof (Prune_quiet (u64 (CI_Height (scanned (view s2)) - pruneTarget)) s3) as Hq3.
    by rewrite Hp in Hq3.
  - destruct (_ && _); [|by simpl in Hst; subst s']. by rewrite <-Hst, Prune_quiet.
Qed.
End sync.

(** ** Concrete instances *)

Module SubscriberWitness.
(** Blocks are numbers; block 9 was on a fork that lost to the blocks 2 and 3. *)
Definition idx (b : nat) : ChainIndex := mkIndex (Z.of_nat b) (N.of_nat b).
Definition gen : ChainIndex := idx 0.
Definition chains : list (list nat) := [[]; [1]; [1; 2]; [1; 2; 3]; [1; 9]].
Definition upd (b : nat) (i : nat) : ChainUpdate nat := mkChainUpdate b (idx i).

Definition updates (i : ChainIndex) : result (list (ChainUpdate nat) * list (ChainUpdate nat)) :=
  if decide (i = idx 0) then Ok ([], [upd 1 1; upd 2 2])
  else if decide (i = idx 1) then Ok ([], [upd 2 2; upd 3 3])
  else if decide (i = idx 2) then Ok ([], [upd 3 3])
  else if decide (i = idx 3) then Ok ([], [])
  else if decide (i = idx 9) then Ok ([upd 9 1], [upd 2 2])
  else Err (EMsg "unknown index").

Definition process (rus aus : list (ChainUpdate nat)) (l : list nat) : list nat :=
  take (length l - length rus) l ++ (CU_Block <$> aus).

#[local] Instance deps : SubscriberDeps (@View nat) nat := {|
  cm_Tip := λ v, (Ok (idx 3), v);
  cm_UpdatesSince i _ := λ v, (updates i, v);
  cm_PruneBlocks _ := λ v, (Ok tt, v);
  contracts_ProcessActions := λ v, (Ok tt, v);
  contracts_UpdateChainState rus aus := λ v,
    (Ok tt, mkView (wallet_blocks v) (process rus aus (contract_blocks v)) (scanned v) (resets_done v));
  hosts_UpdateChainState _ := λ v, (Ok tt, v);
  wallet_UpdateChainState rus aus := λ v,
    (Ok tt, mkView (process rus aus (wallet_blocks v)) (contract_blocks v) (scanned v) (resets_done v));
  tx_UpdateLastScannedIndex i := λ v, (Ok tt, mkView (wallet_blocks v) (contract_blocks v) i (resets_done v));
  store_ResetChainState := λ v, (Ok tt, mkView [] (contract_blocks v) gen (Datatypes.S (resets_done v)));
  store_transaction A m := λ v, match m v with (Ok a, v') => (Ok a, v') | (r, _) => (r, v) end;
  store_LastScannedIndex := λ v, (Ok (scanned v), v);
  sub_ctx_Err := λ v, (Ok None, v) |}.

Lemma process_spec rus aus l : processed rus aus l (process rus aus l).
Proof.
  intros P ->. unfold process. f_equal. rewrite length_app, length_reverse, length_fmap, Nat.add_sub, take_app_le by lia.
  by rewrite take_ge by lia.
Qed.

#[local] Instance laws : SubscriberLaws gen idx (λ v : @View nat, v) (λ P, P ∈ chains).
Proof.
  split; try done.
  - intros v. split; [done|]. by intros i [= <-].
  - intros i n s rus aus P Hu HP <-. simpl in Hu. unfold chains in HP. rewrite !elem_of_cons, elem_of_nil in HP.
    destruct HP as [->|[->|[->|[->|[->|[]]]]]]; vm_compute in Hu; injection Hu as <- <-;
      [exists []|exists [1]|exists [1; 2]|exists [1; 2; 3]|exists [1]];
      (split_and!; [done|apply (bool_decide_unpack _); by vm_compute|done|by intros ?]).
  - intros rus aus v v' [= <-]. simpl. split; [apply process_spec|done].
  - intros rus aus v v' [= <-]. simpl. split; [apply process_spec|done].
  - by intros i v v' [= <-].
  - intros A m v r v' H. simpl in H. destruct (m v) as [[a|e|] v1]; injection H as <- <-; eauto.
  - by intros v r v' [= <- <-].
  - apply (bool_decide_unpack _). by vm_compute.
Qed.

Definition forked : @View nat := mkView [1; 9] [1; 9] (idx 9) 0.
Definition at_tip : @View nat := mkView [1; 2; 3] [1; 2; 3] (idx 3) 0.

Example synced_over : Sync 100 0 10 forked = (Ok (Some tt), at_tip).
Proof. vm_compute. reflexivity. Qed.

Example sync_follows_chain_witness : rtc (follow (λ P, P ∈ chains)) (wallet_blocks forked) (wallet_blocks at_tip).
Proof.
  refine (proj1 (proj2 (sync_follows_chain 100 0 gen idx (λ v, v) (λ P, P ∈ chains) 10 forked at_tip _ _ synced_over))).
  split; [apply (bool_decide_unpack _); vm_compute; exact I|reflexivity].
Defined.

(** A fresh start after an index that the chain manager does not know: the contracts
    process the blocks a second time. *)
Example reset_repeats_contracts :
  contract_blocks (Sync 100 0 10 (mkView [1; 7] [1; 7] (idx 7) 0)).2 = [1; 7; 1; 2; 3].
Proof. vm_compute. reflexivity. Qed.
End SubscriberWitness.
