(* ===== verification/WalletTables.v ===== *)
(** * The wallet in the database (src/persist/postgres/wallet.go, chain.go, settings.go)

    The elements and events of the wallet, which chain updates apply and revert, the
    transactions it broadcasts, and the index that was scanned last. They share no
    table with the rest of the store. *)

From S2P Require Import Prelude Order Encoding External Tables AppTables Subscriber.

(** ** What the store uses of coreutils/wallet *)

(** [types.SiacoinElement] *)
Record SiacoinElement {C : CurrencyOps} := mkElement {
  SE_ID : Hash256; SE_LeafIndex : Z; SE_MerkleProof : list Hash256; SE_Value : Currency; SE_Address : Hash256; SE_MaturityHeight : Z }.
Arguments SiacoinElement C : clear implicits.

(** [wallet.Event] and [wallet.BroadcastedSet], with their encodings as columns. *)
Class WalletTypes := {
  Event : Type; Event_ID : Event → Hash256; Event_Index : Event → ChainIndex; Event_MaturityHeight : Event → Z;
  with_Confirmations : Z → Event → Event;
  sqlWalletEvent_Value : Event → list byte; sqlWalletEvent_Scan : list byte → result Event;
  BroadcastedSet : Type; Set_ID : BroadcastedSet → Hash256; Set_BroadcastedAt : BroadcastedSet → Z }.
Class WalletLaws (W : WalletTypes) : Prop := {
  event_scanned : ∀ e, sqlWalletEvent_Scan (sqlWalletEvent_Value e) = Ok e }.

Definition ErrSiacoinElementNotFound : string := "not found".
Definition ErrBroadcastedSetNotFound : string := "broadcasted set not found".
Definition ErrDifferentSeed : string := "seed differs from wallet seed".

(** ** The tables *)

(** A row of [wallet_events]: the map is keyed by the serial number. *)
Record WalletEventRow := mkWalletEventRow { we_chain_index : ChainIndex; we_maturity_height : Z; we_event_id : Hash256; we_event_data : list byte }.

Record wallet_tables {C : CurrencyOps} {W : WalletTypes} := mkWallet {
  w_elements : gmap Hash256 (SiacoinElement C); w_events : gmap Z WalletEventRow; w_last_event : Z;
  w_broadcasted_sets : list BroadcastedSet; w_hash : option Hash256; w_scanned : ChainIndex }.
Arguments wallet_tables C W : clear implicits.

Section wallet.
Local Open Scope go_scope.
Context {C : CurrencyOps} {W : WalletTypes}.
Context (order : ∀ A, list A → list A).
Abbreviation wdb := (wallet_tables C W).

Definition set_elements (f : gmap Hash256 (SiacoinElement C) → gmap Hash256 (SiacoinElement C)) (w : wdb) : wdb :=
  mkWallet _ _ (f (w_elements w)) (w_events w) (w_last_event w) (w_broadcasted_sets w) (w_hash w) (w_scanned w).
Definition set_events (f : gmap Z WalletEventRow → gmap Z WalletEventRow) (w : wdb) : wdb :=
  mkWallet _ _ (w_elements w) (f (w_events w)) (w_last_event w) (w_broadcasted_sets w) (w_hash w) (w_scanned w).
Definition next_event (w : wdb) : wdb :=
  mkWallet _ _ (w_elements w) (w_events w) (w_last_event w + 1) (w_broadcasted_sets w) (w_hash w) (w_scanned w).
Definition set_sets (f : list BroadcastedSet → list BroadcastedSet) (w : wdb) : wdb :=
  mkWallet _ _ (w_elements w) (w_events w) (w_last_event w) (f (w_broadcasted_sets w)) (w_hash w) (w_scanned w).
Definition set_hash (h : option Hash256) (w : wdb) : wdb :=
  mkWallet _ _ (w_elements w) (w_events w) (w_last_event w) (w_broadcasted_sets w) h (w_scanned w).
Definition set_scanned (ci : ChainIndex) (w : wdb) : wdb :=
  mkWallet _ _ (w_elements w) (w_events w) (w_last_event w) (w_broadcasted_sets w) (w_hash w) ci.

(** A value that is written to an INTEGER column *)
Definition int4 (z : Z) : M wdb unit := require (bool_decide (- 2 ^ 31 ≤ z < 2 ^ 31)%Z) numeric_value_out_of_range.

(** ** The seed *)

Definition tables_VerifyWalletKey (seedHash : Hash256) : M wdb unit :=
  transaction (
    let* w := get in
    match w_hash w with
    | None => modify (set_hash (Some seedHash))
    | Some h => if (seedHash =? h)%N then mret tt else throw (ESentinel ErrDifferentSeed)
    end).

(** ** Broadcasted sets *)

Definition tables_AddBroadcastedSet (set : BroadcastedSet) : M wdb unit :=
  transaction (
    let* w := get in
    if bool_decide (Set_ID set ∈ Set_ID <$> w_broadcasted_sets w) then mret tt
    else modify (set_sets (λ l, l ++ [set]))).
Definition tables_BroadcastedSets : M wdb (list BroadcastedSet) :=
  transaction (let* w := get in mret (SliceStable (λ p q, int_Compare (Set_BroadcastedAt q) (Set_BroadcastedAt p)) (order _ (w_broadcasted_sets w)))).
Definition tables_RemoveBroadcastedSet (set : BroadcastedSet) : M wdb unit :=
  transaction (
    let* w := get in
    if bool_decide (Set_ID set ∈ Set_ID <$> w_broadcasted_sets w)
    then modify (set_sets (filter (λ s, Set_ID s ≠ Set_ID set))) else throw (ESentinel ErrBroadcastedSetNotFound)).

(** ** Reading *)

Definition getTip : M wdb ChainIndex := let* w := get in mret (w_scanned w).
Definition tables_LastScannedIndex : M wdb ChainIndex := transaction getTip.

Definition tables_UnspentSiacoinElements : M wdb (ChainIndex * list (SiacoinElement C)) :=
  transaction (let* tip := getTip in let* w := get in mret (tip, order _ (map_to_list (w_elements w)).*2)).

(** The confirmations are those at the tip; they stay as they are for an event above it. *)
Definition scanEvent (tip : ChainIndex) (data : list byte) : result Event :=
  match sqlWalletEvent_Scan data with
  | Ok event => Ok (if (CI_Height (Event_Index event) <=? CI_Height tip)%Z
                    then with_Confirmations (u64 (1 + CI_Height tip - CI_Height (Event_Index event))) event else event)
  | r => r
  end.

Definition tables_WalletEvent (id : Hash256) : M wdb Event :=
  transaction (
    let* tip := wrapM "failed to get tip: " getTip in
    let* w := get in
    match find_row (λ _ e, (we_event_id e =? id)%N) (w_events w) with
    | None => throw (ESentinel ErrNoRows)
    | Some (_, e) => lift (scanEvent tip (we_event_data e))
    end).

(** [ORDER BY maturity_height DESC, id DESC] *)
Definition later (p q : Z * WalletEventRow) : Prop :=
  (we_maturity_height q.2 < we_maturity_height p.2)%Z ∨ we_maturity_height q.2 = we_maturity_height p.2 ∧ (q.1 ≤ p.1)%Z.
#[global] Instance later_dec p q : Decision (later p q).
Proof. unfold later. apply _. Defined.
Definition event_rows (w : wdb) : list (Z * WalletEventRow) := merge_sort later (map_to_list (w_events w)).

Definition tables_WalletEvents (offset limit : Z) : M wdb (list Event) :=
  if (offset <? 0)%Z then throw (EMsg "offset can not be negative")
  else if (limit <? 0)%Z then throw (EMsg "limit can not be negative")
  else if (limit =? 0)%Z then mret []
  else
    transaction (
      let* tip := wrapM "failed to get tip: " getTip in
      let* w := get in
      foldM (λ events p, let* event := wrapM "failed to scan wallet event: " (lift (scanEvent tip (we_event_data p.2))) in mret (events ++ [event])) []
        (take (Z.to_nat limit) (drop (Z.to_nat offset) (event_rows w)))).

Definition tables_WalletEventCount : M wdb Z := transaction (let* w := get in mret (Z.of_nat (size (w_events w)))).

(** ** Chain updates *)

(** [updater.UpdateElementProof]: the leaf and its proof after the update *)
Definition tables_UpdateWalletSiacoinElementProofs (UpdateElementProof : Z * list Hash256 → Z * list Hash256) : M wdb unit :=
  let* w := get in
  forM (order _ (map_to_list (w_elements w)).*2) (λ se,
    let '(leafIndex, proof) := UpdateElementProof (SE_LeafIndex se, SE_MerkleProof se) in
    int4 leafIndex ;;
    modify (set_elements (insert (SE_ID se) (mkElement _ (SE_ID se) leafIndex proof (SE_Value se) (SE_Address se) (SE_MaturityHeight se))))).

Definition delete_element (se : SiacoinElement C) : M wdb unit :=
  let* w := get in
  match w_elements w !! SE_ID se with
  | None => throw (EWrap "failed to delete siacoin element: " (ESentinel ErrSiacoinElementNotFound) "")
  | Some _ => modify (set_elements (delete (SE_ID se)))
  end.
Definition insert_element (se : SiacoinElement C) : M wdb unit :=
  wrapM "failed to insert siacoin element: " (
    int4 (SE_LeafIndex se) ;; int4 (SE_MaturityHeight se) ;;
    let* w := get in
    require (bool_decide (w_elements w !! SE_ID se = None)) unique_violation ;;
    modify (set_elements (insert (SE_ID se) se))).
Definition insertWalletEvent (e : Event) : M wdb unit :=
  int4 (Event_MaturityHeight e) ;;
  modify next_event ;;
  let* w := get in
  require (negb (exists_row (λ _ x, (we_event_id x =? Event_ID e)%N) (w_events w))) unique_violation ;;
  modify (set_events (insert (w_last_event w) (mkWalletEventRow (Event_Index e) (Event_MaturityHeight e) (Event_ID e) (sqlWalletEvent_Value e)))).

Definition tables_WalletApplyIndex (index : ChainIndex) (created spent : list (SiacoinElement C)) (events : list Event) : M wdb unit :=
  forM spent delete_element ;;
  forM created insert_element ;;
  forM events (λ e, wrapM "failed to insert wallet event: " (insertWalletEvent e)).

Definition tables_WalletRevertIndex (index : ChainIndex) (removed unspent : list (SiacoinElement C)) : M wdb unit :=
  forM removed delete_element ;;
  forM unspent insert_element ;;
  modify (set_events (delete_rows (λ _ e, bool_decide (we_chain_index e = index)))).

Definition tables_UpdateLastScannedIndex (ci : ChainIndex) : M wdb unit := bigint (CI_Height ci) ;; modify (set_scanned ci).
Definition tables_SetCheckpoint (index : ChainIndex) : M wdb unit := transaction (bigint (CI_Height index) ;; modify (set_scanned index)).
Definition tables_UpdateChainState {A} (fn : M wdb A) : M wdb A := transaction fn.

Definition tables_ResetChainState : M wdb unit :=
  transaction (
    modify (set_elements (λ _, ∅)) ;;
    modify (set_sets (λ _, [])) ;;
    modify (set_events (λ _, ∅)) ;;
    modify (set_scanned (mkIndex 0 0))).
End wallet.
