(* ===== verification/WalletStore.v ===== *)
(** * Reverting a block undoes applying it, for the wallet

    What [WalletApplyIndex] does to the elements and events of the wallet,
    [WalletRevertIndex] undoes. *)

From S2P Require Import Prelude Order Encoding External Tables AppTables Subscriber WalletTables.

Section store.
Local Open Scope go_scope.
Context {C : CurrencyOps} {W : WalletTypes}.
Abbreviation wdb := (wallet_tables C W).
Implicit Types (w : wdb) (se : SiacoinElement C) (m : gmap Hash256 (SiacoinElement C)).

(** The columns of an element *)
Definition fits se : Prop := (- 2 ^ 31 ≤ SE_LeafIndex se < 2 ^ 31)%Z ∧ (- 2 ^ 31 ≤ SE_MaturityHeight se < 2 ^ 31)%Z.
Record wallet_ok w : Prop := {
  wo_elements : ∀ id se, w_elements w !! id = Some se → SE_ID se = id ∧ fits se;
  wo_events : ∀ i, is_Some (w_events w !! i) → (i ≤ w_last_event w)%Z }.

Definition ids (l : list (SiacoinElement C)) : list Hash256 := SE_ID <$> l.
Definition without (l : list Hash256) m : gmap Hash256 (SiacoinElement C) := filter (λ p, p.1 ∉ l) m.
Definition elements_of (l : list (SiacoinElement C)) : gmap Hash256 (SiacoinElement C) := list_to_map ((λ se, (SE_ID se, se)) <$> l).

Lemma without_lookup l m id : without l m !! id = if decide (id ∈ l) then None else m !! id.
Proof.
  unfold without. destruct (decide (id ∈ l)) as [Hin|Hout].
  - apply map_lookup_filter_None. right. intros x _ Hn. by apply Hn.
  - destruct (m !! id) eqn:Hm; [by apply map_lookup_filter_Some|]. apply map_lookup_filter_None. by left.
Qed.
Lemma elements_of_None l id : elements_of l !! id = None ↔ id ∉ ids l.
Proof. unfold elements_of, ids. rewrite <-not_elem_of_list_to_map. by rewrite <-list_fmap_compose. Qed.
Lemma elements_of_is_Some l id : is_Some (elements_of l !! id) ↔ id ∈ ids l.
Proof. rewrite <-not_eq_None_Some, elements_of_None. split; [apply dec_stable|tauto]. Qed.
(** ** The loops *)

Definition with_elements m w : wdb := set_elements (λ _, m) w.

Lemma without_cons id l m : without (id :: l) m = without l (delete id m).
Proof.
  apply map_eq. intros i. rewrite !without_lookup, lookup_delete. repeat case_decide; set_solver.
Qed.
Lemma without_nil m : without [] m = m.
Proof. apply map_eq. intros i. rewrite without_lookup, decide_False; [done|by intros ?%elem_of_nil]. Qed.

Lemma delete_elements_run l w :
  NoDup (ids l) → (∀ id, id ∈ ids l → is_Some (w_elements w !! id)) → forM l delete_element w = (Ok tt, with_elements (without (ids l) (w_elements w)) w).
Proof.
  revert w. induction l as [|se l IH]; intros w Hn Hin; cbn [forM].
  - cbn. rewrite without_nil. by destruct w.
  - cbn in Hn. apply NoDup_cons in Hn as [Hse Hn]. destruct (Hin (SE_ID se)) as [x Hx]; [by left|].
    rewrite (run_ok _ _ w tt (set_elements (delete (SE_ID se)) w)) by (unfold delete_element; rewrite (run_ok get _ w w w), Hx by done; done).
    rewrite IH; [by cbn; rewrite without_cons|done|]. intros id Hid. cbn. rewrite lookup_delete_ne by (intros <-; by apply Hse). apply Hin. by right.
Qed.
Lemma delete_elements_ok l w w' :
  forM l delete_element w = (Ok tt, w') → NoDup (ids l) ∧ (∀ id, id ∈ ids l → is_Some (w_elements w !! id)) ∧ w' = with_elements (without (ids l) (w_elements w)) w.
Proof.
  intros Hrun. assert (NoDup (ids l) ∧ ∀ id, id ∈ ids l → is_Some (w_elements w !! id)) as [Hn Hin].
  { revert w Hrun. induction l as [|se l IH]; intros w; cbn [forM]; [split; [constructor|by intros ? ?%elem_of_nil]|].
    intros ([] & w1 & H1 & H2)%bindM_ok. unfold delete_element in H1. rewrite (run_ok get _ w w w) in H1 by done.
    destruct (w_elements w !! SE_ID se) as [x|] eqn:Hx; [|done]. injection H1 as <-. destruct (IH _ H2) as [Hn Hin]. cbn in Hin. split.
    - cbn. constructor; [|done]. intros Hid%Hin. rewrite lookup_delete_eq in Hid. by destruct Hid.
    - intros id [->|Hid]%elem_of_cons; [by eexists|]. apply Hin in Hid. rewrite lookup_delete_is_Some in Hid. by destruct Hid. }
  rewrite delete_elements_run in Hrun by done. injection Hrun as <-. by split_and!.
Qed.

Lemma elements_of_cons se l m : SE_ID se ∉ ids l → elements_of (se :: l) ∪ m = elements_of l ∪ <[SE_ID se := se]> m.
Proof.
  intros Hn%elements_of_None. unfold elements_of in *. cbn. rewrite <-insert_union_l. by rewrite insert_union_r.
Qed.
Lemma insert_element_run se w :
  fits se → w_elements w !! SE_ID se = None → insert_element se w = (Ok tt, with_elements (<[SE_ID se := se]> (w_elements w)) w).
Proof.
  intros [H1 H2] Hn. unfold insert_element, int4, wrapM, bindM, mbind, M_bind. rewrite !bool_decide_eq_true_2 by done. cbn. by rewrite Hn.
Qed.
Lemma insert_elements_run l w :
  NoDup (ids l) → (∀ se, se ∈ l → fits se ∧ w_elements w !! SE_ID se = None) → forM l insert_element w = (Ok tt, with_elements (elements_of l ∪ w_elements w) w).
Proof.
  revert w. induction l as [|se l IH]; intros w Hn Hin; cbn [forM].
  - cbn. unfold elements_of. cbn. rewrite map_empty_union. by destruct w.
  - cbn in Hn. apply NoDup_cons in Hn as [Hse Hn]. destruct (Hin se) as [Hf Hx]; [by left|].
    rewrite (run_ok _ _ w tt _ (insert_element_run se w Hf Hx)), IH; [|done|].
    + rewrite elements_of_cons by done. done.
    + intros x Hxl. cbn. destruct (Hin x) as [Hfx Hnx]; [by right|]. split; [done|]. rewrite lookup_insert_ne; [done|].
      intros Hid. apply Hse. rewrite Hid. apply list_elem_of_fmap. by exists x.
Qed.
Lemma insert_elements_ok l w w' :
  forM l insert_element w = (Ok tt, w') →
  NoDup (ids l) ∧ (∀ se, se ∈ l → fits se ∧ w_elements w !! SE_ID se = None) ∧ w' = with_elements (elements_of l ∪ w_elements w) w.
Proof.
  intros Hrun. assert (NoDup (ids l) ∧ ∀ se, se ∈ l → fits se ∧ w_elements w !! SE_ID se = None) as [Hn Hin].
  { revert w Hrun. induction l as [|se l IH]; intros w; cbn [forM]; [split; [constructor|by intros ? ?%elem_of_nil]|].
    intros ([] & w1 & H1 & H2)%bindM_ok.
    assert (fits se ∧ w_elements w !! SE_ID se = None ∧ w1 = with_elements (<[SE_ID se := se]> (w_elements w)) w) as (Hf & Hx & ->).
    { revert H1. unfold insert_element, int4, wrapM, bindM, mbind, M_bind, fits. case_bool_decide; [|done]. cbn. case_bool_decide; [|done]. cbn.
      case_bool_decide; [|done]. cbn. by intros [= <-]. }
    destruct (IH _ H2) as [Hn Hin]. cbn in Hin. split.
    - cbn. constructor; [|done]. intros (x & Ex & Hxl)%list_elem_of_fmap. destruct (Hin _ Hxl) as [_ Hnone]. rewrite Ex, lookup_insert_eq in Hnone. done.
    - intros x [->|Hxl]%elem_of_cons; [done|]. destruct (Hin _ Hxl) as [Hfx Hnone]. split; [done|]. by apply lookup_insert_None in Hnone as [? _]. }
  rewrite insert_elements_run in Hrun by done. injection Hrun as <-. by split_and!.
Qed.

(** Events are appended. *)
Lemma insert_events_ok index l w w' :
  wallet_ok w → Forall (λ e, Event_Index e = index) l →
  forM l (λ e, wrapM "failed to insert wallet event: " (insertWalletEvent e)) w = (Ok tt, w') →
  w_elements w' = w_elements w ∧ w_scanned w' = w_scanned w ∧ (∀ i, is_Some (w_events w' !! i) → (i ≤ w_last_event w')%Z) ∧
  (∀ i e, w_events w !! i = Some e → w_events w' !! i = Some e) ∧
  (∀ i e, w_events w' !! i = Some e → w_events w !! i = Some e ∨ we_chain_index e = index).
Proof.
  intros [_ Hev] Hl. revert w Hev. induction Hl as [|e l He Hl IH]; intros w Hev; cbn [forM].
  - intros [= <-]. split_and!; try done. intros i e Hi. by left.
  - intros ([] & w1 & H1%wrapM_ok & H2)%bindM_ok.
    assert (w1 = set_events (insert (w_last_event w + 1)%Z (mkWalletEventRow (Event_Index e) (Event_MaturityHeight e) (Event_ID e) (sqlWalletEvent_Value e))) (next_event w)) as ->.
    { revert H1. unfold insertWalletEvent, int4, bindM, mbind, M_bind, require. case_bool_decide; [|done]. cbn. destruct (exists_row _ _); [done|]. cbn. by intros [= <-]. }
    apply IH in H2 as (E1 & E2 & H3 & H4 & H5).
    + cbn in *. split_and!; [done..| |].
      * intros i x Hi. apply H4. rewrite lookup_insert_ne; [done|]. intros <-. specialize (Hev _ (ex_intro _ x Hi)). lia.
      * intros i x Hi. destruct (H5 _ _ Hi) as [[[<- <-]|[_ Hold]]%lookup_insert_Some|]; [by right|by left|by right].
    + cbn. intros i [->|Hi]%lookup_insert_is_Some'; [done|]. apply Hev in Hi. lia.
Qed.

(** ** Applying and reverting *)

(** C24. Reverting a block undoes applying it: once the block is applied, the elements it
    created are there and those it spent are gone; reverting it, with whatever proofs the
    elements have then, succeeds, and leaves the elements that were there before with
    those proofs, and exactly the events that were there before. *)
Theorem wallet_revert_apply index created spent events removed unspent w w1 :
  wallet_ok w → (∀ i e, w_events w !! i = Some e → we_chain_index e ≠ index) → Forall (λ e, Event_Index e = index) events →
  ids removed = ids created → ids unspent = ids spent → Forall fits unspent →
  tables_WalletApplyIndex index created spent events w = (Ok tt, w1) →
  (∀ id, id ∈ ids created → is_Some (w_elements w1 !! id)) ∧ (∀ id, id ∈ ids spent → id ∉ ids created → w_elements w1 !! id = None) ∧
  ∃ w2, tables_WalletRevertIndex index removed unspent w1 = (Ok tt, w2) ∧ w_events w2 = w_events w ∧
    w_elements w2 = elements_of unspent ∪ w_elements w ∧ dom (w_elements w2) = dom (w_elements w).
Proof.
  intros Hok Hnew Hix Er Eu Hf Hrun. apply bindM_ok in Hrun as ([] & wa & Ha & Hrun). apply bindM_ok in Hrun as ([] & wb & Hb & Hc).
  destruct (delete_elements_ok _ _ _ Ha) as (Hns & Hspent & ->). destruct (insert_elements_ok _ _ _ Hb) as (Hnc & Hcreated & ->). cbn in Hcreated.
  assert (wallet_ok (with_elements (elements_of created ∪ without (ids spent) (w_elements w)) w)) as Hokb.
  { split; [|apply Hok]. cbn. intros id se [Hse|[_ Hse]]%lookup_union_Some_raw.
    - apply elem_of_list_to_map_2, list_elem_of_fmap in Hse as (x & [= -> ->] & Hx). split; [done|]. by apply Hcreated.
    - rewrite without_lookup in Hse. case_decide; [done|]. by apply Hok. }
  cbn in Hc. destruct (insert_events_ok index events _ w1 Hokb Hix Hc) as (E1 & _ & _ & H4 & H5). cbn in E1, H4, H5. rewrite E1.
  split; [|split].
  - intros id Hid. rewrite lookup_union_is_Some. left. by apply elements_of_is_Some.
  - intros id Hid Hn. apply elements_of_None in Hn. rewrite lookup_union_r, without_lookup, decide_True by done. done.
  - assert (without (ids removed) (w_elements w1) = without (ids spent) (w_elements w)) as Ew.
    { apply map_eq. intros id. rewrite E1, without_lookup, Er. case_decide as Hid.
      - apply list_elem_of_fmap in Hid as (se & -> & Hse). symmetry. by apply Hcreated.
      - by rewrite lookup_union_r by (by apply elements_of_None). }
    set (w2 := with_elements (elements_of unspent ∪ without (ids spent) (w_elements w)) w1).
    exists (set_events (delete_rows (λ _ e, bool_decide (we_chain_index e = index))) w2). split; [|split; [|split]].
    + unfold tables_WalletRevertIndex. rewrite (run_ok _ _ w1 tt (with_elements (without (ids spent) (w_elements w)) w1)).
      2: { rewrite delete_elements_run, Ew; [done|by rewrite Er|]. intros id Hid. rewrite Er in Hid. rewrite E1, lookup_union_is_Some. left. by apply elements_of_is_Some. }
      rewrite (run_ok _ _ _ tt w2); [done|]. rewrite insert_elements_run; [done|by rewrite Eu|]. intros se Hse. rewrite Forall_forall in Hf. split; [by apply Hf|].
      cbn. rewrite without_lookup, decide_True; [done|]. rewrite <-Eu. apply list_elem_of_fmap. by exists se.
    + apply map_eq. intros i. cbn. apply option_eq. intros e. rewrite delete_rows_lookup, bool_decide_eq_false. split.
      * intros [Hi Hne]. by destruct (H5 _ _ Hi).
      * intros Hi. split; [by apply H4|by eapply Hnew].
    + cbn. apply map_eq. intros id. rewrite !lookup_union, without_lookup. case_decide as Hid; [|done].
      rewrite <-Eu in Hid. destruct (elements_of unspent !! id) eqn:He; [by destruct (w_elements w !! id)|]. by apply elements_of_None in He.
    + cbn. apply set_eq. intros id. rewrite !elem_of_dom, lookup_union_is_Some, without_lookup. case_decide as Hid.
      * split; [intros _; by apply Hspent|]. intros _. left. apply elements_of_is_Some. by rewrite Eu.
      * split; [|by right]. intros [Hs%elements_of_is_Some|Hs]; [|done]. by rewrite Eu in Hs.
Qed.

End store.

(** ** A concrete wallet *)

Module WalletWitness.
#[local] Existing Instances U128.ops.

(** Events are their encodings; all are of one block. *)
Definition block : ChainIndex := mkIndex 7 70.
#[local] Instance text_events : WalletTypes := {|
  Event := list byte; Event_ID e := N.of_nat (length e); Event_Index _ := block; Event_MaturityHeight _ := 7%Z; with_Confirmations _ e := e;
  sqlWalletEvent_Value e := e; sqlWalletEvent_Scan := Ok; BroadcastedSet := N; Set_ID s := s; Set_BroadcastedAt _ := 0%Z |}.

Definition element (id : Hash256) (leaf : Z) : SiacoinElement U128.ops := mkElement _ id leaf [] (U128.wrapped 5) 9 0.
Definition before_block : wallet_tables U128.ops text_events := mkWallet _ _ {[1%N := element 1 10]} ∅ 3 [] None (mkIndex 6 60).
Definition payment : Event := [Ascii.zero].
Definition after_block : wallet_tables U128.ops text_events := (tables_WalletApplyIndex block [element 2 20] [element 1 10] [payment] before_block).2.

Lemma before_block_ok : wallet_ok before_block.
Proof.
  split; cbn; [|intros i [x Hx]; by rewrite lookup_empty in Hx].
  intros id se [<- <-]%lookup_singleton_Some. split; [done|]. split; by vm_compute.
Qed.
Lemma apply_runs : tables_WalletApplyIndex block [element 2 20] [element 1 10] [payment] before_block = (Ok tt, after_block).
Proof. apply injective_projections; cbn [fst snd]; [vm_compute; reflexivity|reflexivity]. Qed.

Lemma no_events_yet i e : w_events before_block !! i = Some e → we_chain_index e ≠ block.
Proof. intros Hi. exact (False_ind _ (lookup_empty_Some i e Hi)). Qed.
Lemma payment_of_block : Forall (λ e, Event_Index e = block) [payment].
Proof. constructor; [reflexivity|constructor]. Qed.
Lemma element_fits : Forall fits [element 1 15].
Proof. repeat constructor; by vm_compute. Qed.

Example wallet_revert_apply_witness :
  dom (w_elements after_block) = {[2%N]} ∧ size (w_events after_block) = 1 ∧
  ∃ w2, tables_WalletRevertIndex block [element 2 25] [element 1 15] after_block = (Ok tt, w2) ∧ w_events w2 = ∅ ∧ SE_LeafIndex <$> w_elements w2 !! 1%N = Some 15%Z.
Proof.
  split; [apply (bool_decide_unpack _); vm_compute; exact I|]. split; [vm_compute; reflexivity|].
  destruct (wallet_revert_apply block [element 2 20] [element 1 10] [payment] [element 2 25] [element 1 15] before_block after_block
    before_block_ok no_events_yet payment_of_block eq_refl eq_refl element_fits apply_runs) as (_ & _ & w2 & H1 & H2 & H3 & _).
  exists w2. split; [exact H1|]. split; [exact H2|]. rewrite H3. vm_compute. reflexivity.
Defined.
End WalletWitness.
