(* ===== verification/Funder.v ===== *)
(** * The funder (src/contracts/funder.go)

    [Funder] replenishes accounts and pools on a host, contract by contract: it
    skips contracts that are locked, asks the host to top up as many accounts as
    the contract's allowance pays for, and counts the contracts that ran dry. The
    two Go methods differ in the RPC and in the keys they send. *)

From S2P Require Import Prelude External Contract Revision Accounts Locking.

(** ** The interface to the contract locker *)

(** [TryLockContract] and the unlock function it returns, for a caller whose
    state [S] includes the locker. *)
Class LockOps (S : Type) := {
  TryLock : FileContractID → M S bool;
  Unlock : FileContractID → M S unit }.

(** What the locker promises a caller: [held s] are the contracts this caller
    holds. A contract is handed out only when nobody holds it. *)
Class LockLaws {S : Type} (LO : LockOps S) (held : S → gset FileContractID) : Prop := {
  TryLock_true : ∀ i s s', TryLock i s = (Ok true, s') → i ∉ held s ∧ held s' = {[i]} ∪ held s;
  TryLock_false : ∀ i s r s', TryLock i s = (r, s') → r ≠ Ok true → held s' = held s;
  Unlock_held : ∀ i s r s', Unlock i s = (r, s') → held s' = held s ∖ {[i]} }.

(** [defer unlock()]: the unlock runs whatever the call's outcome. *)
Definition with_unlock {S A} {LO : LockOps S} (i : FileContractID) (m : M S A) : M S A := λ s,
  let '(r, s) := m s in let '(_, s) := Unlock i s in (r, s).

Lemma wp_with_unlock {S A} {LO : LockOps S} i (m : M S A) Q s :
  wp m (λ r s1, ∀ r' s2, Unlock i s1 = (r', s2) → Q r s2) s → wp (with_unlock i m) Q s.
Proof.
  unfold wp, with_unlock. destruct (m s) as [r s1]. simpl. destruct (Unlock i s1) as [r' s2] eqn:E. intros H.
  by eapply H.
Qed.

Lemma with_unlock_ext {S A} {LO : LockOps S} i (m m' : M S A) s :
  m s = m' s → with_unlock i m s = with_unlock i m' s.
Proof. unfold with_unlock. by intros ->. Qed.

#[export] Instance lock_locals {S L} {LO : LockOps S} : LockOps (S * L) := {|
  TryLock i := lift1 (TryLock i); Unlock i := lift1 (Unlock i) |}.

#[export] Instance lock_laws_locals {S L} (LO : LockOps S) held :
  LockLaws LO held → LockLaws (S:=S * L) lock_locals (held ∘ fst).
Proof.
  intros LL. split; simpl.
  - intros i [s l] [s' l'] [H _]%lift1_inv. by apply TryLock_true in H.
  - intros i [s l] r [s' l'] [H _]%lift1_inv. by apply (TryLock_false i s r).
  - intros i [s l] r [s' l'] [H _]%lift1_inv. by apply (Unlock_held i s r).
Qed.

Lemma with_unlock_held {S A} {LO : LockOps S} {held} {LL : LockLaws LO held} i (m : M S A) s s1 :
  TryLock i s = (Ok true, s1) → held (m s1).2 = held s1 → held (with_unlock i m s1).2 = held s.
Proof.
  intros [Hni Hh]%TryLock_true Hm. unfold with_unlock. destruct (m s1) as [r s2]. simpl in Hm.
  destruct (Unlock i s2) as [r' s3] eqn:Eu. apply Unlock_held in Eu. simpl. rewrite Eu, Hm, Hh. set_solver.
Qed.

(** ** Funding *)

Section funder.
#[local] Open Scope go_scope.
Context {C : CurrencyOps} {R : RhpOps} {V : V2.Methods}.

(** [proto.AccountDeposit] and [FundedDeposit]. *)
Record AccountDeposit := mkDeposit { D_Account : PublicKey; D_Amount : Currency }.
Record FundedDeposit := mkFunded { FD_ContractID : FileContractID; FD_Deposit : AccountDeposit }.

(** The result of the replenish RPCs. *)
Record ReplenishResult := mkReplenish {
  RR_Revision : V2.FileContract; RR_Deposits : list AccountDeposit; RR_Usage : Usage }.

Context {S : Type} {RS : RevisionStore S} {LC : LatestRevisionClient S} {CT : ChainTip S} {LO : LockOps S}.

(** [RevisionManager.buffer] *)
Variable buffer : Z.
(** [FunderHostClient.ReplenishAccounts] and [ReplenishPools]: the accounts, the
    target and the contract. *)
Abbreviation replenish_rpc := (list PublicKey → Currency → ContractRevision → M S ReplenishResult) (only parsing).

(** The variables the closure passed to [WithRevision] assigns to. *)
Record locals := mkLocals {
  l_res : option V2.FileContract;      (* res.Revision *)
  l_funded : nat;
  l_drained : nat;
  l_deposits : list FundedDeposit }.

Definition funder_revise (rpc : replenish_rpc) (keys : list PublicKey) (target : Currency) (contractID : FileContractID)
    (contract : ContractRevision) : M (S * locals) (ContractRevision * Usage) :=
  if cLt (V2.RenterOutputValue (CR_Revision contract)) target then throw (ESentinel ErrContractInsufficientFunds)
  else
    let* quotient := lift (Div (V2.RenterOutputValue (CR_Revision contract)) target) in
    let batchSize := Z.to_nat (Z.max 1 (Z.min (u64 (Big quotient)) MaxAccountBatchSize)) in
    let* funded := local l_funded in
    let maxEnd := Nat.min (length keys) (funded + batchSize) in
    let* res := lift1 (rpc (take (maxEnd - funded) (drop funded keys)) target contract) in
    set_local (λ l, mkLocals (Some (RR_Revision res)) maxEnd (l_drained l)
      (l_deposits l ++ (mkFunded contractID <$> RR_Deposits res))) ;;
    mret (mkRevision contractID (RR_Revision res), RR_Usage res).

Definition drain (l : locals) : locals := mkLocals (l_res l) (l_funded l) (Datatypes.S (l_drained l)) (l_deposits l).

(** The zero [res.Revision] of a [WithRevision] that never called the closure
    has no allowance. *)
Definition res_allowance (res : option V2.FileContract) : Currency :=
  match res with Some rev => V2.RemainingAllowance rev | None => ZeroCurrency end.

(** The function called for each contract: whether every account is funded. *)
Definition fund_contract (rpc : replenish_rpc) (keys : list PublicKey) (target : Currency) (contractID : FileContractID) :
    M (S * locals) bool :=
  let* locked := TryLock contractID in
  if negb locked then mret false
  else with_unlock contractID (
    set_local (λ l, mkLocals None (l_funded l) (l_drained l) (l_deposits l)) ;;
    let* err := try (WithRevision buffer contractID (funder_revise rpc keys target contractID)) in
    match err with
    | Err e =>
        if errors_Is e ErrContractInsufficientFunds then set_local drain ;; mret false
        else if errors_Is e ErrContractNotRevisable then set_local drain ;; mret false
        else mret false
    | Ok _ =>
        let* res := local l_res in
        when (cLt (res_allowance res) target) (set_local drain) ;;
        let* funded := local l_funded in
        mret (Nat.eqb funded (length keys))
    | Panic => panic
    end).

(** The loop over the contracts, left when the function reports it is done. *)
Fixpoint fund_loop (rpc : replenish_rpc) (keys : list PublicKey) (target : Currency) (contractIDs : list FileContractID) :
    M (S * locals) unit :=
  match contractIDs with
  | [] => mret tt
  | contractID :: contractIDs =>
      let* done := fund_contract rpc keys target contractID in
      if done : bool then mret tt else fund_loop rpc keys target contractIDs
  end.

Definition fund (too_many : string) (rpc : replenish_rpc) (contractIDs : list FileContractID) (keys : list PublicKey)
    (target : Currency) : M S (nat * nat * list FundedDeposit) :=
  if (Z.of_nat (length keys) >? MaxAccountBatchSize)%Z then throw (EMsg too_many)
  else if Nat.eqb (length contractIDs) 0 then throw (EMsg "no contract provided")
  else if Nat.eqb (length keys) 0 then mret (0, 0, [])
  else
    let* '(_, l) := with_locals (mkLocals None 0 0 []) (fund_loop rpc keys target contractIDs) in
    mret (l_funded l, l_drained l, l_deposits l).

Section methods.
Variable client_ReplenishAccounts client_ReplenishPools : replenish_rpc.

Definition FundAccounts (contractIDs : list FileContractID) (accs : list HostAccount) (target : Currency) :
    M S (nat * nat * list FundedDeposit) :=
  fund "too many accounts" client_ReplenishAccounts contractIDs (AccountKey <$> accs) target.

Definition FundPools (contractIDs : list FileContractID) (pools : list HostPool) (target : Currency) :
    M S (nat * nat * list FundedDeposit) :=
  fund "too many pools" client_ReplenishPools contractIDs (PoolPublicKey <$> pools) target.

End methods.

(** ** What a funding round does *)

(** The store, the host client and the locker do not change what [obs] observes
    of the state. *)
Class Quiet {X} (obs : S → X) : Prop := {
  quiet_read : ∀ i s, obs (store_ContractRevision i s).2 = obs s;
  quiet_update : ∀ c u s, obs (store_UpdateContractRevision c u s).2 = obs s;
  quiet_bad : ∀ i s, obs (store_MarkContractBad i s).2 = obs s;
  quiet_client : ∀ k i s, obs (client_LatestRevision k i s).2 = obs s }.
Class QuietLocks {X} (obs : S → X) : Prop := {
  quiet_trylock : ∀ i s, obs (TryLock i s).2 = obs s;
  quiet_unlock : ∀ i s, obs (Unlock i s).2 = obs s }.

Lemma lift1_snd {A} (m : M S A) (p : S * locals) : (lift1 m p).2 = ((m p.1).2, p.2).
Proof. destruct p as [s l]. simpl. by destruct (m s). Qed.

(** An invariant of the observation and of the local variables that the revise
    function keeps is kept by [WithRevision]. *)
Lemma WithRevision_quiet {X} (obs : S → X) {Q : Quiet obs} (J : X → locals → Prop) contractID reviseFn p :
  (∀ c p, J (obs p.1) p.2 → J (obs (reviseFn c p).2.1) (reviseFn c p).2.2) →
  J (obs p.1) p.2 →
  J (obs (WithRevision (S:=S * locals) buffer contractID reviseFn p).2.1)
    (WithRevision (S:=S * locals) buffer contractID reviseFn p).2.2.
Proof.
  intros Hf. apply (WithRevision_invariant buffer (λ p, J (obs p.1) p.2)); [..|done];
    intros; unfold store_ContractRevision, store_UpdateContractRevision, store_MarkContractBad, client_LatestRevision,
      store_locals, client_locals; rewrite lift1_snd; simpl;
    rewrite ?quiet_read, ?quiet_update, ?quiet_bad, ?quiet_client; done.
Qed.

Section round.
Context (rpc : replenish_rpc) (keys : list PublicKey) (target : Currency).

(** *** The accounts sent to the host *)

Section sent.
(** [sent s]: the accounts of the replenish RPCs that succeeded so far. *)
Context (sent : S → list PublicKey) {Q : Quiet sent} {QL : QuietLocks sent}.
Context (rpc_sent : ∀ ks t c s, sent (rpc ks t c s).2 =
  match (rpc ks t c s).1 with Ok _ => sent s ++ ks | _ => sent s end).

(** After starting from [s0] with at most [k] contracts seen. *)
Definition progress (s0 : list PublicKey) (k : nat) (x : list PublicKey) (l : locals) : Prop :=
  l_funded l ≤ length keys ∧ l_drained l ≤ k ∧ x = s0 ++ take (l_funded l) keys.

Lemma revise_progress s0 k contractID c p :
  progress s0 k (sent p.1) p.2 →
  progress s0 k (sent (funder_revise rpc keys target contractID c p).2.1) (funder_revise rpc keys target contractID c p).2.2.
Proof.
  destruct p as [s l]. intros (Hf & Hd & Hs). simpl in *.
  unfold funder_revise. destruct (cLt _ _); [done|].
  unfold bindM, mbind, M_bind, lift. destruct (Div _ _) as [q|e|]; [|done..].
  unfold local, set_local, lift1. set (b := Z.to_nat _).
  set (ks := take _ (drop (l_funded l) keys)). pose proof (rpc_sent ks target c s) as Hr.
  destruct (rpc ks target c s) as [[res|e|] s']; simpl in *; unfold progress; simpl; [|split_and!; [done|done|by rewrite Hr]..].
  split_and!; [lia|done|]. rewrite Hr, Hs, <-app_assoc. f_equal. subst ks.
  set (m := length keys `min` (l_funded l + b)).
  replace (take m keys) with (take (l_funded l + (m - l_funded l)) keys) by (f_equal; lia).
  apply take_take_drop.
Qed.

Lemma progress_weaken s0 k k' x l l' :
  progress s0 k x l → l_funded l' = l_funded l → l_drained l' + k ≤ l_drained l + k' → k ≤ k' → progress s0 k' x l'.
Proof. intros (?&?&?) Hf ??. unfold progress. rewrite Hf. split_and!; [done|lia|done]. Qed.

Lemma fund_contract_progress s0 k contractID p :
  progress s0 k (sent p.1) p.2 →
  wp (fund_contract rpc keys target contractID) (λ _ p', progress s0 (Datatypes.S k) (sent p'.1) p'.2) p.
Proof.
  destruct p as [s l]. simpl. intros HJ. unfold fund_contract. wp_step. unfold TryLock at 1, lock_locals. wp_step.
  apply wp_intro. intros r s1 E. pose proof (quiet_trylock contractID s) as Ht. rewrite E in Ht. simpl in Ht.
  assert (progress s0 (Datatypes.S k) (sent s1) l) as Hw by (rewrite Ht; eapply progress_weaken; eauto; lia).
  destruct r as [[]|e|]; simpl; [|done..]. apply wp_with_unlock. do 3 wp_step. simpl. wp_step.
  apply wp_intro. intros r [s2 l2] E2.
  pose proof (WithRevision_quiet sent (progress s0 k) contractID (funder_revise rpc keys target contractID)
    (s1, mkLocals None (l_funded l) (l_drained l) (l_deposits l)) (λ c p, revise_progress s0 k contractID c p)) as H1.
  simpl in H1. rewrite Ht, E2 in H1. specialize (H1 HJ). simpl in H1.
  assert (∀ l3, l_funded l3 = l_funded l2 → l_drained l3 ≤ Datatypes.S (l_drained l2) →
    ∀ s3 l4 r, Unlock (S:=S * locals) contractID (s2, l3) = (r, (s3, l4)) →
    progress s0 (Datatypes.S k) (sent s3) l4) as Hdone.
  { intros l3 Hl3 Hd s3 l4 r' Hu. unfold Unlock, lock_locals in Hu. apply lift1_inv in Hu as [Hu Hl]. simpl in *. subst l4.
    pose proof (quiet_unlock contractID s2) as Hq. rewrite Hu in Hq. simpl in Hq. rewrite Hq.
    eapply progress_weaken; eauto; lia. }
  destruct r as [[]|e|]; simpl; wp_steps; simpl; intros r' [s3 l4] Hu; (eapply Hdone; [..|exact Hu]; simpl; lia).
Qed.

Lemma fund_loop_progress s0 k contractIDs p :
  progress s0 k (sent p.1) p.2 →
  wp (fund_loop rpc keys target contractIDs)
    (λ _ p', progress s0 (k + length contractIDs) (sent p'.1) p'.2) p.
Proof.
  revert k p. induction contractIDs as [|i ids IH]; intros k p H; simpl.
  { wp_step. by rewrite Nat.add_0_r. }
  assert (∀ x l, progress s0 (Datatypes.S k) x l → progress s0 (k + Datatypes.S (length ids)) x l) as Hweak
    by (intros; eapply progress_weaken; eauto; lia).
  wp_step. eapply wp_mono; [|by apply fund_contract_progress]. intros [[]|e|] p1 H1; simpl; try wp_step; auto.
  rewrite Nat.add_succ_r. by apply (IH (Datatypes.S k)).
Qed.

End sent.

(** *** The locks *)

Section locks.
Context (held : S → gset FileContractID) {LL : LockLaws LO held} {Q : Quiet held}.
Context (rpc_held : ∀ ks t c s, held (rpc ks t c s).2 = held s).

Lemma revise_held contractID c p : held (funder_revise rpc keys target contractID c p).2.1 = held p.1.
Proof.
  destruct p as [s l]. unfold funder_revise. destruct (cLt _ _); [done|].
  unfold bindM, mbind, M_bind, lift. destruct (Div _ _) as [q|e|]; [|done..].
  unfold local, set_local, lift1. set (ks := take _ _). pose proof (rpc_held ks target c s) as Hr.
  by destruct (rpc ks target c s) as [[res|e|] s'].
Qed.

Lemma fund_contract_held contractID p :
  wp (fund_contract rpc keys target contractID) (λ _ p', held p'.1 = held p.1) p.
Proof.
  destruct p as [s l]. unfold fund_contract. wp_step. unfold TryLock at 1, lock_locals. wp_step.
  apply wp_intro. intros r s1 E. simpl.
  destruct r as [[]|e|]; simpl; [|by apply (TryLock_false _ _ _ _ E)..].
  apply TryLock_true in E as [Hni Hh]. apply wp_with_unlock. do 3 wp_step. simpl. wp_step.
  apply wp_intro. intros r [s2 l2] E2.
  pose proof (WithRevision_quiet held (λ x _, x = held s1) contractID (funder_revise rpc keys target contractID)
    (s1, mkLocals None (l_funded l) (l_drained l) (l_deposits l))) as H1.
  simpl in H1. rewrite E2 in H1. simpl in H1.
  assert (held s2 = held s1) as Hs2 by (apply H1; [intros c p <-; apply revise_held|done]).
  assert (∀ l3 s3 l4 r, Unlock (S:=S * locals) contractID (s2, l3) = (r, (s3, l4)) → held s3 = held s) as Hdone.
  { intros l3 s3 l4 r' Hu. unfold Unlock, lock_locals in Hu. apply lift1_inv in Hu as [Hu%Unlock_held _].
    simpl in Hu. rewrite Hu, Hs2, Hh. set_solver. }
  destruct r as [[]|e|]; simpl; wp_steps; simpl; intros r' [s3 l4] Hu; exact (Hdone _ _ _ _ Hu).
Qed.

Lemma fund_loop_held contractIDs p :
  wp (fund_loop rpc keys target contractIDs) (λ _ p', held p'.1 = held p.1) p.
Proof.
  revert p. induction contractIDs as [|i ids IH]; intros p; simpl; [by wp_step|]. wp_step.
  eapply wp_mono; [|apply fund_contract_held]. intros [[]|e|] p1 <-; simpl; first [wp_step; done|done|apply IH].
Qed.
End locks.
End round.

(** *** What the host is asked for *)

(** The two replenish RPCs agree on the requests a contract can pay for: at most
    a batch of accounts, at most as many as the renter's remaining funds cover. *)
Definition agree_on_payable (rpc rpc' : replenish_rpc) (target : Currency) : Prop :=
  ∀ ks c s, (Z.of_nat (length ks) ≤ MaxAccountBatchSize)%Z →
    (Z.of_nat (length ks) * Big target ≤ Big (V2.RenterOutputValue (CR_Revision c)))%Z →
    rpc ks target c s = rpc' ks target c s.

Context {CL : CurrencyLaws C} {RL : RhpLaws R}.

Lemma revise_payable rpc rpc' keys target contractID c p :
  agree_on_payable rpc rpc' target →
  funder_revise rpc keys target contractID c p = funder_revise rpc' keys target contractID c p.
Proof.
  intros Hag. destruct p as [s l]. unfold funder_revise. rewrite cLt_spec.
  destruct (Z.ltb_spec (Big (V2.RenterOutputValue (CR_Revision c))) (Big target)) as [|Hge]; [done|].
  unfold bindM, mbind, M_bind, lift. destruct (Div _ _) as [q|e|] eqn:Eq; [|done..].
  apply Div_inv in Eq as [Hnz Hq]. unfold local, lift1.
  set (b := Z.to_nat _). set (ks := take _ _). rewrite (Hag ks c s); [done|..].
  all: assert (length ks ≤ b) as Hlen by (subst ks; rewrite length_take; lia).
  all: pose proof MaxAccountBatchSize_pos; pose proof (Big_nonneg target); pose proof (Big_nonneg (V2.RenterOutputValue (CR_Revision c))).
  - subst b. lia.
  - assert (0 ≤ Big q)%Z by apply Big_nonneg.
    assert (u64 (Big q) ≤ Big q)%Z by (unfold u64; apply Z.mod_le; unfold two64; lia).
    pose proof (u64_range (Big q)) as [? _].
    pose proof (Z.mul_div_le (Big (V2.RenterOutputValue (CR_Revision c))) (Big target) ltac:(lia)) as Hmul.
    rewrite <-Hq in Hmul.
    assert (Z.of_nat (length ks) ≤ Z.max 1 (Big q))%Z by (subst b; lia).
    destruct (Z.le_gt_cases (Big q) 1); nia.
Qed.

Lemma fund_loop_payable rpc rpc' keys target contractIDs p :
  agree_on_payable rpc rpc' target →
  fund_loop rpc keys target contractIDs p = fund_loop rpc' keys target contractIDs p.
Proof.
  intros Hag. revert p. induction contractIDs as [|i ids IH]; intros p; [done|]. simpl.
  assert (∀ p, fund_contract rpc keys target i p = fund_contract rpc' keys target i p) as Hc.
  { intros p0. unfold fund_contract. apply bindM_ext; [done|]. intros locked p1.
    destruct (negb locked); [done|]. apply with_unlock_ext. apply bindM_ext; [done|]. intros _ p2.
    apply bindM_ext; [|done]. apply try_ext, WithRevision_ext. intros c p3. by apply revise_payable. }
  unfold bindM, mbind, M_bind. rewrite Hc. destruct (fund_contract rpc' keys target i p) as [[[]|e|] p1]; done.
Qed.


(** ** Properties

    [FundAccounts] and [FundPools] are [fund] with their RPC and their keys. *)

Lemma wp_fund (Q : result (nat * nat * list FundedDeposit) → S → Prop) msg rpc contractIDs keys target s :
  (∀ e, Q (Err e) s) → Q (Ok (0, 0, [])) s →
  wp (fund_loop rpc keys target contractIDs) (λ r p,
    Q (match r with Ok _ => Ok (l_funded p.2, l_drained p.2, l_deposits p.2) | Err e => Err e | Panic => Panic end) p.1)
    (s, mkLocals None 0 0 []) →
  wp (fund msg rpc contractIDs keys target) Q s.
Proof.
  intros HE H0 HL. unfold fund. destruct (_ >? _)%Z; [by wp_step|]. destruct (Nat.eqb _ _); [by wp_step|].
  destruct (Nat.eqb _ _); [by wp_step|]. wp_step. unfold wp, with_locals in *.
  destruct (fund_loop rpc keys target contractIDs (s, mkLocals None 0 0 [])) as [[[]|e|] [s' l']]; done.
Qed.

(** A funding round reports exactly what the host was asked to do: the
    accounts whose replenish RPCs succeeded are the first [funded] accounts, in
    order and each once, even when a contract's revision could not be stored
    afterwards; and the counts stay within the lists the caller slices with
    them. *)
Theorem fund_prefix (sent : S → list PublicKey) {Q : Quiet sent} {QL : QuietLocks sent}
    (msg : string) (rpc : replenish_rpc) (contractIDs : list FileContractID) (keys : list PublicKey)
    (target : Currency) (s s' : S) (funded drained : nat) (deposits : list FundedDeposit) :
  (∀ ks t c s, sent (rpc ks t c s).2 = match (rpc ks t c s).1 with Ok _ => sent s ++ ks | _ => sent s end) →
  fund msg rpc contractIDs keys target s = (Ok (funded, drained, deposits), s') →
  funded ≤ length keys ∧ drained ≤ length contractIDs ∧ sent s' = sent s ++ take funded keys.
Proof.
  intros Hrpc E.
  enough (wp (fund msg rpc contractIDs keys target) (λ r s', ∀ f d l, r = Ok (f, d, l) →
    f ≤ length keys ∧ d ≤ length contractIDs ∧ sent s' = sent s ++ take f keys) s) as H.
  { by eapply (wp_elim _ _ _ _ _ E H). }
  apply wp_fund; [done|intros ??? [= <- <- <-]; split_and!; [lia|lia|by rewrite app_nil_r]|].
  eapply wp_mono; [|apply (fund_loop_progress rpc keys target sent Hrpc (sent s) 0)].
  - intros [[]|e|] p (? & ? & ?) f d l [= <- <- <-]. done.
  - unfold progress. simpl. split_and!; [lia|lia|by rewrite app_nil_r].
Qed.

(** A funding round releases every contract lock it takes, on success, on
    error and on panic. *)
Theorem fund_releases_locks (held : S → gset FileContractID) {LL : LockLaws LO held} {Q : Quiet held}
    (msg : string) (rpc : replenish_rpc) (contractIDs : list FileContractID) (keys : list PublicKey)
    (target : Currency) (s : S) :
  (∀ ks t c s, held (rpc ks t c s).2 = held s) →
  held (fund msg rpc contractIDs keys target s).2 = held s.
Proof.
  intros Hrpc. change (wp (fund msg rpc contractIDs keys target) (λ _ s', held s' = held s) s).
  apply wp_fund; [done|done|]. eapply wp_mono; [|apply (fund_loop_held rpc keys target held Hrpc)]. done.
Qed.

(** A funding round never asks a host for more than the contract can pay:
    two RPCs that agree on the requests within the batch size whose total is
    within the renter's remaining funds give the same run. *)
Theorem fund_affordable (msg : string) (rpc rpc' : replenish_rpc) (contractIDs : list FileContractID)
    (keys : list PublicKey) (target : Currency) (s : S) :
  agree_on_payable rpc rpc' target →
  fund msg rpc contractIDs keys target s = fund msg rpc' contractIDs keys target s.
Proof.
  intros Hag. unfold fund. repeat (case_match; [done|]). apply bindM_ext; [|done].
  unfold with_locals. by rewrite (fund_loop_payable rpc rpc').
Qed.

End funder.

(** ** A concrete host *)

Module FunderWitness.
#[local] Existing Instances U128.ops U128.laws TestRhp.ops TestRhp.laws TestRhp.methods.
Import RevisionWitness.

(** The database, the accounts replenished and the locks held. *)
Abbreviation world := (db * (list N * gset N))%type (only parsing).

#[local] Instance locks : LockOps world := {|
  TryLock i := λ '(d, (sent, held)), if decide (i ∈ held) then (Ok false, (d, (sent, held))) else (Ok true, (d, (sent, {[i]} ∪ held)));
  Unlock i := λ '(d, (sent, held)), (Ok tt, (d, (sent, held ∖ {[i]}))) |}.
#[local] Instance lock_laws : LockLaws locks (λ s : world, s.2.2).
Proof.
  split; simpl.
  - intros i [d [se h]] s'. case_decide; [done|]. by intros [= <-].
  - intros i [d [se h]] r s'. case_decide; intros [= <- <-]; done.
  - by intros i [d [se h]] r s' [= _ <-].
Qed.

Lemma lift1_locals {A S L} (m : M S A) (p : S * L) : (lift1 m p).2.2 = p.2.
Proof. destruct p as [s l]. simpl. by destruct (m s). Qed.
#[local] Instance quiet_second {X} (f : list N * gset N → X) : Quiet (S:=world) (λ s, f s.2).
Proof.
  split.
  - intros i p. f_equal. apply (lift1_locals _ p).
  - intros c u p. f_equal. apply (lift1_locals _ p).
  - intros i p. f_equal. apply (lift1_locals _ p).
  - intros k i p. f_equal. apply (lift1_locals _ p).
Qed.
#[local] Instance quiet_sent : QuietLocks (S:=world) (λ s, s.2.1).
Proof. split; intros i [d [se h]]; simpl; [by case_decide|done]. Qed.

(** The host funds every request and charges [target] for each account. *)
Definition rpc (ks : list N) (target : Currency) (c : ContractRevision) : M world ReplenishResult :=
  λ '(d, (sent, held)),
    (Ok (mkReplenish (rev (V2.RevisionNumber (CR_Revision c) + 1)) ((λ k, mkDeposit k target) <$> ks) NoUsage), (d, (sent ++ ks, held))).
Definition world0 : world := (s0, ([], ∅)).
Definition sc (n : Z) : U128.t := U128.wrapped (n * 10 ^ 24).

Definition run : result (nat * nat * list FundedDeposit) * world :=
  fund 144 "too many" rpc [8%N; 7%N] [1%N; 2%N; 3%N] (sc 5) world0.

(** Contract 8 was renewed; contract 7 has 10 SC, enough for two accounts. *)
Lemma run_result : ∃ l, run = (Ok (2, 0, l), run.2).
Proof.
  assert (match run.1 with Ok (2, 0, _) => true | _ => false end = true) as H by (vm_compute; reflexivity).
  destruct run as [[[[[|[|[|]]] [|]] l]|e|] s']; try discriminate H. by exists l.
Qed.

Example fund_prefix_witness : 2 ≤ 3 ∧ 0 ≤ 2 ∧ run.2.2.1 = [1%N; 2%N].
Proof.
  destruct run_result as [l E].
  refine (fund_prefix 144 (λ s : world, s.2.1) "too many" rpc [8%N; 7%N] [1%N; 2%N; 3%N] (sc 5) world0 run.2 2 0 l _ E).
  by intros ks t c [d [se h]].
Defined.

Example fund_releases_locks_witness : run.2.2.2 = world0.2.2.
Proof.
  assert (∀ ks t c (s : world), (rpc ks t c s).2.2.2 = s.2.2) as Hrpc by by intros ks t c [d [se h]].
  pose proof (fund_releases_locks 144 (λ s : world, s.2.2) "too many" rpc [8%N; 7%N] [1%N; 2%N; 3%N] (sc 5) world0) as H.
  specialize (H Hrpc). exact H.
Defined.

(** The same host, which panics on a request the contract cannot pay for. *)
Definition strict_rpc (ks : list N) (target : Currency) (c : ContractRevision) : M world ReplenishResult :=
  if (Z.of_nat (length ks) * Big target <=? Big (V2.RenterOutputValue (CR_Revision c)))%Z then rpc ks target c else panic.

Example fund_affordable_witness :
  fund 144 "too many" rpc [8%N; 7%N] [1%N; 2%N; 3%N] (sc 5) world0 =
  fund 144 "too many" strict_rpc [8%N; 7%N] [1%N; 2%N; 3%N] (sc 5) world0.
Proof.
  apply (fund_affordable 144 "too many" rpc strict_rpc). intros ks c s _ Hle. unfold strict_rpc.
  apply Z.leb_le in Hle. by rewrite Hle.
Defined.

End FunderWitness.
