(* ===== verification/Funding.v ===== *)
(** * Funding accounts and pools (src/contracts/funding.go)

    The contract manager's funding passes: attaching pools, the fund target of a
    contract, and topping up accounts, service accounts and pools of a host with
    its contracts. The account manager and the funder are interfaces, as in the
    code; [Funder] implements the second one. *)

From S2P Require Import Prelude External Hosts Accounts Revision Funder.

(** ** Interfaces *)

Section interfaces.
Context {C : CurrencyOps} {R : RhpOps}.

Record FundingEvent := mkEvent {
  EvAccountKey : PublicKey;
  EvHostKey : PublicKey;
  EvContractID : FileContractID;
  EvAmountSC : Currency;
  EstimatedUploadBytes : Z;
  EstimatedDownloadBytes : Z;
  FundType : string;
  EvPoolID : option Z }.

(** [AccountManager] *)
Class AccountManager (S : Type) := {
  PendingPoolAttachments : PublicKey → Z → M S (list PendingAttachment);
  InsertPoolAttachments : PublicKey → list PendingAttachment → M S unit;
  SharingPoolAttachments : PublicKey → Z → M S (list PendingAttachment);
  MarkSharingPoolsAttached : PublicKey → list PendingAttachment → M S unit;
  PoolFundingInfo : Z → M S (list QuotaFundInfo);
  AccountFundingInfo : Z → M S (list QuotaFundInfo);
  am_ServiceAccounts : PublicKey → M S (list HostAccount);
  AccountsForFunding : PublicKey → string → Z → Z → M S (list HostAccount);
  PoolsForFunding : PublicKey → string → Z → Z → M S (list HostPool);
  UpdateHostAccounts : list HostAccount → M S unit;
  UpdateHostPools : list HostPool → M S unit;
  am_UpdateServiceAccounts : list HostAccount → Currency → M S unit;
  RecordFundingEvents : list FundingEvent → M S unit;
  time_Now : M S Z }.

(** [AccountFunder]: the accounts or pools funded, the contracts drained and the
    deposits made. *)
Class AccountFunder (S : Type) := {
  af_FundAccounts : Host → list FileContractID → list HostAccount → Currency → M S (nat * nat * list FundedDeposit);
  af_FundPools : Host → list FileContractID → list HostPool → Currency → M S (nat * nat * list FundedDeposit);
  af_AttachPools : PublicKey → list (PublicKey * PublicKey) → M S unit }.

End interfaces.

(** ** Estimates *)

Section estimate.
Context {C : CurrencyOps} {R : RhpOps}.

(** [result.Big().Uint64()], or MaxInt64 when it does not fit. *)
Definition uint64_or_max (c : Currency) : Z := if (Big c <? two64)%Z then Big c else (two63 - 1)%Z.

Definition estimatedBytes (amount costPerSector : Currency) (readOnly : bool) : result Z :=
  if IsZero costPerSector then mret 0%Z
  else if readOnly then
    m ← Mul64 amount SectorSize; r ← Div m costPerSector; mret (uint64_or_max r)
  else
    divisor ← Mul64 costPerSector 2;
    if IsZero divisor then mret 0%Z
    else m ← Mul64 amount SectorSize; r ← Div m divisor; mret (uint64_or_max r).

(** One event per deposit; [readOnly] deposits estimate no upload. *)
Definition funding_event (host : Host) (readOnly : bool) (fundType : string) (poolID : PublicKey → option Z)
    (writeCost readCost : Currency) (d : FundedDeposit) : result FundingEvent :=
  down ← estimatedBytes (D_Amount (FD_Deposit d)) readCost readOnly;
  up ← (if readOnly then mret 0%Z else estimatedBytes (D_Amount (FD_Deposit d)) writeCost false);
  mret (mkEvent (D_Account (FD_Deposit d)) (Host.PublicKey host) (FD_ContractID d) (D_Amount (FD_Deposit d))
    up down fundType (poolID (D_Account (FD_Deposit d)))).

Fixpoint mapR {A B} (f : A → result B) (l : list A) : result (list B) :=
  match l with [] => mret [] | a :: l => b ← f a; l ← mapR f l; mret (b :: l) end.

Definition funding_events (host : Host) (readOnly : bool) (fundType : string) (poolID : PublicKey → option Z)
    (deposits : list FundedDeposit) : result (list FundingEvent) :=
  wu ← RPCWriteSectorCost (Prices (Host.Settings host)) SectorSize; writeCost ← RenterCost wu;
  ru ← RPCReadSectorCost (Prices (Host.Settings host)) SectorSize; readCost ← RenterCost ru;
  mapR (funding_event host readOnly fundType poolID writeCost readCost) deposits.

End estimate.

(** ** The funding passes *)

Section funding.
#[local] Open Scope go_scope.
Context {C : CurrencyOps} {R : RhpOps}.
Context {S : Type} {AM : AccountManager S} {AF : AccountFunder S}.
Variable out_of_range : Z → Z.
(** [ContractManager.maxAccountFundingBackoff] *)
Variable maxAccountFundingBackoff : Z.

Definition serviceAccountFundTargetBytes : Z := 16 * 2 ^ 30.

(** Errors of the store are only logged. *)
Definition record_events (events : result (list FundingEvent)) : M S unit :=
  let* events := lift events in
  let* _ := try (RecordFundingEvents events) in mret tt.

Definition recordFundingEvents (host : Host) (deposits : list FundedDeposit) (readOnly : bool) : M S unit :=
  if Nat.eqb (length deposits) 0 then mret tt
  else record_events (funding_events host readOnly FundingTypeAccount (λ _, None) deposits).

(** The id of the pool with a given key; a Go map gives 0 for a missing one, and
    the last pool with a key wins. *)
Definition pool_ids (pools : list HostPool) : gmap PublicKey Z :=
  foldl (λ m p, <[PoolPublicKey p := PoolID p]> m) ∅ pools.

Definition recordPoolFundingEvents (host : Host) (deposits : list FundedDeposit) (pools : list HostPool) (readOnly : bool) : M S unit :=
  if Nat.eqb (length deposits) 0 then mret tt
  else record_events (funding_events host readOnly FundingTypePool
    (λ k, Some (default 0%Z (pool_ids pools !! k))) deposits).

(** *** Attaching pools *)

Definition attach_inputs (pending : list PendingAttachment) : list (PublicKey * PublicKey) :=
  (λ p, (PA_AccountKey p, PA_PoolKey p)) <$> pending.

(** [for !exhausted]: fetch a batch, attach it, record it; [None] when [fuel]
    batches were not enough. *)
Fixpoint attach_loop (fuel : nat) (fetch : M S (list PendingAttachment)) (record : list PendingAttachment → M S unit)
    (e_fetch e_attach e_record : string) (hostKey : PublicKey) : M S (option unit) :=
  match fuel with
  | O => mret None
  | Datatypes.S fuel =>
      let* pending := wrapM e_fetch fetch in
      if Nat.eqb (length pending) 0 then mret (Some tt)
      else
        let exhausted := (Z.of_nat (length pending) <? MaxAccountBatchSize)%Z in
        wrapM e_attach (af_AttachPools hostKey (attach_inputs pending)) ;;
        wrapM e_record (record pending) ;;
        if exhausted then mret (Some tt) else attach_loop fuel fetch record e_fetch e_attach e_record hostKey
  end.

Definition attachSharingPools (fuel : nat) (hostKey : PublicKey) : M S (option unit) :=
  attach_loop fuel (SharingPoolAttachments hostKey MaxAccountBatchSize) (MarkSharingPoolsAttached hostKey)
    "failed to fetch sharing pool attachments: " "failed to attach sharing pools: "
    "failed to record sharing attachments: " hostKey.

Definition AttachPools (fuel : nat) (hostKey : PublicKey) : M S (option unit) :=
  let* r := attach_loop fuel (PendingPoolAttachments hostKey MaxAccountBatchSize) (InsertPoolAttachments hostKey)
    "failed to fetch pending attachments: " "failed to attach pools: " "failed to record attachments: " hostKey in
  match r with None => mret None | Some _ => attachSharingPools fuel hostKey end.

(** *** The fund target of a contract *)

Definition info_target (host : Host) (info : QuotaFundInfo) : result Currency :=
  let fullStorage := Z.min (QFullStorage info) (Active info) in
  let upload := u64 (Active info - fullStorage) in
  t ← HostFundTarget host (FundTargetBytes info); t ← Mul64 t upload;
  tr ← HostReadFundTarget host (FundTargetBytes info); tr ← Mul64 tr fullStorage;
  cAdd t tr.

Fixpoint sum_targets (host : Host) (infos : list QuotaFundInfo) (target : Currency) : result Currency :=
  match infos with
  | [] => mret target
  | info :: infos => t ← info_target host info; target ← cAdd target t; sum_targets host infos target
  end.

Definition ContractFundTarget (host : Host) (minAllowance : Currency) : M S Currency :=
  let* now := time_Now in
  let threshold := (now - AccountActivityThreshold)%Z in
  let* infos := (if HasPoolSupport host then PoolFundingInfo threshold else AccountFundingInfo threshold) in
  let* target := lift (sum_targets host infos ZeroCurrency) in
  let* service := am_ServiceAccounts (Host.PublicKey host) in
  let* target := lift (
    t ← HostFundTarget host serviceAccountFundTargetBytes;
    t ← Mul64 t (Z.of_nat (length service)); cAdd target t) in
  mret (if cLt target minAllowance then minAllowance else target).

(** *** FundAccounts and FundPools *)

(** [contractIDs[drained:]] *)
Definition slice_from {A} (n : nat) (l : list A) : result (list A) :=
  if Nat.ltb (length l) n then Panic else Ok (drop n l).

(** One of the two batches of a round: [None] is [break OUTER]. *)
Definition fund_accounts_batch (host : Host) (contractIDs : list FileContractID)
    (accs : list HostAccount) (target : Currency) (readOnly : bool) : M S (option (list FileContractID)) :=
  if Nat.eqb (length accs) 0 || IsZero target then mret (Some contractIDs)
  else
    let* '(funded, drained, deposits) := wrapM "failed to fund accounts: " (af_FundAccounts host contractIDs accs target) in
    recordFundingEvents host deposits readOnly ;;
    let* accs := UpdateFundedAccounts time_Now out_of_range accs funded maxAccountFundingBackoff in
    wrapM "failed to update accounts: " (UpdateHostAccounts accs) ;;
    let* contractIDs := lift (slice_from drained contractIDs) in
    mret (if Nat.eqb (length contractIDs) 0 then None else Some contractIDs).

Definition fund_pools_batch (host : Host) (contractIDs : list FileContractID)
    (pools : list HostPool) (target : Currency) (readOnly : bool) : M S (option (list FileContractID)) :=
  if Nat.eqb (length pools) 0 || IsZero target then mret (Some contractIDs)
  else
    let* '(funded, drained, deposits) := wrapM "failed to fund pools: " (af_FundPools host contractIDs pools target) in
    recordPoolFundingEvents host deposits pools readOnly ;;
    let* pools := UpdateFundedPools time_Now out_of_range pools funded maxAccountFundingBackoff in
    wrapM "failed to update pools: " (UpdateHostPools pools) ;;
    let* contractIDs := lift (slice_from drained contractIDs) in
    mret (if Nat.eqb (length contractIDs) 0 then None else Some contractIDs).

(** How a quota's loop ended: out of fuel, [break OUTER], or with contracts left. *)
Inductive quota_end := OutOfFuel | BreakOuter | Contracts (ids : list FileContractID).

(** The loop [for !exhausted] over the batches of one quota, for accounts or
    pools [A]: fetch, split by storage state, fund both groups. *)
Fixpoint quota_loop {A} (fuel : nat) (fetch : M S (list A)) (full : A → bool)
    (batch : list FileContractID → list A → Currency → bool → M S (option (list FileContractID)))
    (fundTarget readFundTarget : Currency) (contractIDs : list FileContractID) : M S quota_end :=
  match fuel with
  | O => mret OutOfFuel
  | Datatypes.S fuel =>
      let* accs := fetch in
      let exhausted := (Z.of_nat (length accs) <? MaxAccountBatchSize)%Z in
      if Nat.eqb (length accs) 0 then mret (Contracts contractIDs)
      else
        let uploadAccs := filter (λ a, full a = false) accs in
        let fullStorageAccs := filter (λ a, full a = true) accs in
        let* ids := batch contractIDs uploadAccs fundTarget false in
        match ids with
        | None => mret BreakOuter
        | Some contractIDs =>
            let* ids := batch contractIDs fullStorageAccs readFundTarget true in
            match ids with
            | None => mret BreakOuter
            | Some contractIDs =>
                if exhausted then mret (Contracts contractIDs)
                else quota_loop fuel fetch full batch fundTarget readFundTarget contractIDs
            end
        end
  end.

(** The loop over the quotas; [None] is out of fuel. *)
Fixpoint quotas_loop {A} (fuel : nat) (host : Host) (fetch : Quota → M S (list A)) (full : A → bool)
    (batch : list FileContractID → list A → Currency → bool → M S (option (list FileContractID)))
    (quotas : list Quota) (contractIDs : list FileContractID) : M S (option unit) :=
  match quotas with
  | [] => mret (Some tt)
  | quota :: quotas =>
      let* fundTarget := lift (HostFundTarget host (QuotaFundTargetBytes quota)) in
      let* readFundTarget := lift (HostReadFundTarget host (QuotaFundTargetBytes quota)) in
      if IsZero fundTarget && IsZero readFundTarget then quotas_loop fuel host fetch full batch quotas contractIDs
      else
        let* e := quota_loop fuel (fetch quota) full batch fundTarget readFundTarget contractIDs in
        match e with
        | OutOfFuel => mret None
        | BreakOuter => mret (Some tt)
        | Contracts contractIDs => quotas_loop fuel host fetch full batch quotas contractIDs
        end
  end.

Definition FundAccounts (fuel : nat) (host : Host) (contractIDs : list FileContractID) (quotas : list Quota) : M S (option unit) :=
  if Nat.eqb (length contractIDs) 0 then mret (Some tt)
  else if Host.Blocked host then mret (Some tt)
  else if negb (Usability.Usable (Host.Usability host)) then mret (Some tt)
  else if HasPoolSupport host then mret (Some tt)
  else
    let* now := time_Now in
    let threshold := (now - AccountActivityThreshold)%Z in
    quotas_loop fuel host
      (λ quota, wrapM "failed to fetch accounts for funding: "
        (AccountsForFunding (Host.PublicKey host) (QuotaKey quota) threshold MaxAccountBatchSize))
      FullStorage (fund_accounts_batch host) quotas contractIDs.

Definition FundPools (fuel : nat) (host : Host) (contractIDs : list FileContractID) (quotas : list Quota) : M S (option unit) :=
  if negb (HasPoolSupport host) then mret (Some tt)
  else if Nat.eqb (length contractIDs) 0 then mret (Some tt)
  else if Host.Blocked host then mret (Some tt)
  else if negb (Usability.Usable (Host.Usability host)) then mret (Some tt)
  else
    let* now := time_Now in
    let threshold := (now - AccountActivityThreshold)%Z in
    quotas_loop fuel host
      (λ quota, wrapM "failed to fetch pools for funding: "
        (PoolsForFunding (Host.PublicKey host) (QuotaKey quota) threshold MaxAccountBatchSize))
      PFullStorage (fund_pools_batch host) quotas contractIDs.

Definition FundServiceAccounts (host : Host) (contractIDs : list FileContractID) : M S unit :=
  if Nat.eqb (length contractIDs) 0 then mret tt
  else if Host.Blocked host then mret tt
  else if negb (Usability.Usable (Host.Usability host)) then mret tt
  else
    let* serviceAccounts := am_ServiceAccounts (Host.PublicKey host) in
    if Nat.eqb (length serviceAccounts) 0 then mret tt
    else
      let* fundTarget := lift (HostFundTarget host serviceAccountFundTargetBytes) in
      let* '(funded, _, deposits) := wrapM "failed to fund service accounts: "
        (af_FundAccounts host contractIDs serviceAccounts fundTarget) in
      recordFundingEvents host deposits false ;;
      (* serviceAccounts[:funded]; a failed update is only logged *)
      if Nat.ltb (length serviceAccounts) funded then panic
      else let* _ := try (am_UpdateServiceAccounts (take funded serviceAccounts) fundTarget) in mret tt.

End funding.

(** ** Properties *)

Section properties.
#[local] Open Scope go_scope.
Context {C : CurrencyOps} {R : RhpOps} {L : CurrencyLaws C}.

(** *** The fund target *)

(** What the quotas need, in hastings: per active unit the full target, or the
    read target for the units without storage left. *)
Inductive quotas_need (host : Host) : list QuotaFundInfo → Z → Prop :=
  | need_nil : quotas_need host [] 0
  | need_cons info infos t tr n :
      HostFundTarget host (FundTargetBytes info) = Ok t →
      HostReadFundTarget host (FundTargetBytes info) = Ok tr →
      quotas_need host infos n →
      let full := Z.min (QFullStorage info) (Active info) in
      quotas_need host (info :: infos) (Big t * (Active info - full) + Big tr * full + n).

(** Counters as the database returns them. *)
Definition counts_ok (info : QuotaFundInfo) : Prop := is_u64 (Active info) ∧ is_u64 (QFullStorage info).

Lemma info_target_inv host info c :
  counts_ok info → info_target host info = Ok c →
  ∃ t tr, HostFundTarget host (FundTargetBytes info) = Ok t ∧ HostReadFundTarget host (FundTargetBytes info) = Ok tr ∧
    let full := Z.min (QFullStorage info) (Active info) in
    Big c = (Big t * (Active info - full) + Big tr * full)%Z.
Proof.
  intros [Ha Hf]. unfold info_target, is_u64 in *. set (full := Z.min _ _).
  intros (t & Ht & (t' & Ht' & (tr & Htr & (tr' & Htr' & Hc)%bind_ok)%bind_ok)%bind_ok)%bind_ok.
  exists t, tr. split_and!; [done..|]. rewrite u64_id in Ht' by (unfold is_u64; lia).
  apply Mul64_inv in Ht', Htr'; [|unfold is_u64; lia..]. apply cAdd_inv in Hc. lia.
Qed.

Lemma sum_targets_inv host infos acc c :
  Forall counts_ok infos → sum_targets host infos acc = Ok c →
  ∃ n, quotas_need host infos n ∧ Big c = (Big acc + n)%Z.
Proof.
  intros Hok. revert acc. induction Hok as [|info infos Hi _ IH]; intros acc; simpl.
  { intros [= <-]. exists 0%Z. split; [constructor|lia]. }
  intros (t & Ht & (acc' & Hacc & H)%bind_ok)%bind_ok. apply IH in H as (n & Hn & Hc).
  apply info_target_inv in Ht as (ht & htr & Hht & Hhtr & Ht); [|done]. apply cAdd_inv in Hacc.
  eexists. split; [by econstructor|]. cbv zeta in *. lia.
Qed.

Context {S : Type} {AM : AccountManager S}.

(** The fund target of a contract is the larger of the minimum allowance and
    what its host's accounts need: for every quota the full target per active
    unit that can upload and the read target per unit that cannot, plus a full
    target for each service account; pools are counted on hosts that support
    them and accounts elsewhere. *)
Theorem contract_fund_target_spec (host : Host) (minAllowance t : Currency) (s s' : S) :
  (∀ th s l s', PoolFundingInfo th s = (Ok l, s') → Forall counts_ok l) →
  (∀ th s l s', AccountFundingInfo th s = (Ok l, s') → Forall counts_ok l) →
  (∀ k s l s', am_ServiceAccounts k s = (Ok l, s') → is_u64 (Z.of_nat (length l))) →
  ContractFundTarget host minAllowance s = (Ok t, s') →
  ∃ th infos n ht accs s1 s2 s3,
    (if HasPoolSupport host then PoolFundingInfo th else AccountFundingInfo th) s1 = (Ok infos, s2) ∧
    am_ServiceAccounts (Host.PublicKey host) s2 = (Ok accs, s3) ∧
    quotas_need host infos n ∧ HostFundTarget host serviceAccountFundTargetBytes = Ok ht ∧
    Big t = Z.max (Big minAllowance) (n + Big ht * Z.of_nat (length accs)).
Proof.
  intros Hp Ha Hs. unfold ContractFundTarget.
  intros (now & s1 & Hnow & (infos & s2 & Hi & (tq & s3 & Htq & (accs & s4 & Hacc & (tt & s5 & Htt & Ht)%bindM_ok)%bindM_ok)%bindM_ok)%bindM_ok)%bindM_ok.
  injection Htq as Htq <-. injection Htt as Htt <-. injection Ht as <- <-.
  apply sum_targets_inv in Htq as (n & Hn & Hq); [|destruct (HasPoolSupport host); eauto].
  apply bind_ok in Htt as (ht & Hht & (m & Hm & Hadd)%bind_ok).
  apply Mul64_inv in Hm; [|by eapply Hs]. apply cAdd_inv in Hadd. rewrite ZeroCurrency_Big in Hq.
  eexists _, infos, n, ht, accs, s1, s2, s4. split_and!; [exact Hi|exact Hacc|done|done|].
  rewrite cLt_spec. destruct (Z.ltb_spec (Big tt) (Big minAllowance)); lia.
Qed.

(** *** What the funder is asked for *)

(** Two funders agree on the requests that make sense: some contract, some
    account or pool, and a target that is not zero. *)
Definition agree_on_sensible (AF AF' : AccountFunder S) : Prop :=
  (∀ h ids accs t s, ids ≠ [] → accs ≠ [] → (0 < Big t)%Z →
     af_FundAccounts (AccountFunder:=AF) h ids accs t s = af_FundAccounts (AccountFunder:=AF') h ids accs t s) ∧
  (∀ h ids pools t s, ids ≠ [] → pools ≠ [] → (0 < Big t)%Z →
     af_FundPools (AccountFunder:=AF) h ids pools t s = af_FundPools (AccountFunder:=AF') h ids pools t s).

Lemma IsZero_false c : IsZero c = false → (0 < Big c)%Z.
Proof. rewrite IsZero_spec. pose proof (Big_nonneg c). lia. Qed.

Section loops.
Context {A : Type} (full : A → bool).
(** Two batch functions that agree while contracts are left, and that leave
    contracts or none. *)
Context (batch batch' : list FileContractID → list A → Currency → bool → M S (option (list FileContractID))).
Context (same : ∀ ids l t b s, ids ≠ [] → batch ids l t b s = batch' ids l t b s).
Context (left : ∀ ids l t b s ids' s', ids ≠ [] → batch ids l t b s = (Ok (Some ids'), s') → ids' ≠ []).

Lemma quota_loop_same fuel fetch ft rt ids s :
  ids ≠ [] →
  quota_loop fuel fetch full batch ft rt ids s = quota_loop fuel fetch full batch' ft rt ids s ∧
  ∀ ids' s', quota_loop fuel fetch full batch ft rt ids s = (Ok (Contracts ids'), s') → ids' ≠ [].
Proof.
  revert ids s. induction fuel as [|fuel IH]; intros ids s Hids; [done|].
  simpl. unfold bindM, mbind, M_bind. destruct (fetch s) as [[l|e|] s1]; [|done..].
  destruct (Nat.eqb _ _); [split; [done|by intros ?? [= <- _]]|].
  rewrite <-same by done. destruct (batch ids _ ft false s1) as [[[ids1|]|e|] s2] eqn:E1; [|done..].
  apply left in E1; [|done]. rewrite <-same by done.
  destruct (batch ids1 _ rt true s2) as [[[ids2|]|e|] s3] eqn:E2; [|done..].
  apply left in E2; [|done]. destruct (_ <? _)%Z; [split; [done|by intros ?? [= <- _]]|by apply IH].
Qed.

Lemma quotas_loop_same fuel host fetch quotas ids s :
  ids ≠ [] → quotas_loop fuel host fetch full batch quotas ids s = quotas_loop fuel host fetch full batch' quotas ids s.
Proof.
  revert ids s. induction quotas as [|q quotas IH]; intros ids s Hids; [done|]. simpl.
  apply bindM_ext; [done|]. intros ft s1. apply bindM_ext; [done|]. intros rt s2.
  destruct (_ && _); [by apply IH|]. unfold bindM, mbind, M_bind.
  destruct (quota_loop_same fuel (fetch q) ft rt ids s2 Hids) as [<- Hl].
  destruct (quota_loop fuel (fetch q) full batch ft rt ids s2) as [[[| |ids1]|e|] s3]; try done.
  apply IH. by eapply Hl.
Qed.
End loops.

Lemma accounts_batch_same AF AF' oor mb host ids accs t b s :
  agree_on_sensible AF AF' → ids ≠ [] →
  fund_accounts_batch (AF:=AF) oor mb host ids accs t b s = fund_accounts_batch (AF:=AF') oor mb host ids accs t b s.
Proof.
  intros [Ha _] Hids. unfold fund_accounts_batch. destruct (Nat.eqb_spec (length accs) 0) as [|Hne]; [done|].
  destruct (IsZero t) eqn:Hz; [done|]. apply bindM_ext; [|by intros [[??]?]]. apply wrapM_ext, Ha; [done| |by apply IsZero_false].
  by destruct accs.
Qed.

Lemma pools_batch_same AF AF' oor mb host ids pools t b s :
  agree_on_sensible AF AF' → ids ≠ [] →
  fund_pools_batch (AF:=AF) oor mb host ids pools t b s = fund_pools_batch (AF:=AF') oor mb host ids pools t b s.
Proof.
  intros [_ Hp] Hids. unfold fund_pools_batch. destruct (Nat.eqb_spec (length pools) 0) as [|Hne]; [done|].
  destruct (IsZero t) eqn:Hz; [done|]. apply bindM_ext; [|by intros [[??]?]]. apply wrapM_ext, Hp; [done| |by apply IsZero_false].
  by destruct pools.
Qed.

Lemma batch_left {A} (m : M S A) (k : A → M S (list FileContractID)) ids' s s' :
  (let* a := m in let* ids := k a in mret (if Nat.eqb (length ids) 0 then None else Some ids)) s = (Ok (Some ids'), s') →
  ids' ≠ [].
Proof.
  intros (a & s1 & _ & (ids & s2 & _ & H)%bindM_ok)%bindM_ok. destruct ids; [done|]. by injection H as <- _.
Qed.

Lemma accounts_batch_left {AF : AccountFunder S} oor mb host ids accs t b s ids' s' :
  ids ≠ [] → fund_accounts_batch oor mb host ids accs t b s = (Ok (Some ids'), s') → ids' ≠ [].
Proof.
  intros Hids. unfold fund_accounts_batch. destruct (_ || _); [by intros [= <- _]|].
  intros ([[f d] ds] & s1 & _ & (? & s2 & _ & (? & s3 & _ & H)%bindM_ok)%bindM_ok)%bindM_ok.
  by apply batch_left in H.
Qed.

Lemma pools_batch_left {AF : AccountFunder S} oor mb host ids pools t b s ids' s' :
  ids ≠ [] → fund_pools_batch oor mb host ids pools t b s = (Ok (Some ids'), s') → ids' ≠ [].
Proof.
  intros Hids. unfold fund_pools_batch. destruct (_ || _); [by intros [= <- _]|].
  intros ([[f d] ds] & s1 & _ & (? & s2 & _ & (? & s3 & _ & H)%bindM_ok)%bindM_ok)%bindM_ok.
  by apply batch_left in H.
Qed.

(** The funding passes over accounts and over pools only send the funder
    requests it can serve: two funders that agree on the requests with at least
    one contract, at least one account and a non-zero target give the same run,
    for any host, contracts, quotas and store. *)
Theorem funding_requests_sensible (AF AF' : AccountFunder S) (oor : Z → Z) (maxBackoff : Z) (fuel : nat)
    (host : Host) (contractIDs : list FileContractID) (quotas : list Quota) (s : S) :
  agree_on_sensible AF AF' →
  FundAccounts (AF:=AF) oor maxBackoff fuel host contractIDs quotas s =
    FundAccounts (AF:=AF') oor maxBackoff fuel host contractIDs quotas s ∧
  FundPools (AF:=AF) oor maxBackoff fuel host contractIDs quotas s =
    FundPools (AF:=AF') oor maxBackoff fuel host contractIDs quotas s.
Proof.
  intros Hag. unfold FundAccounts, FundPools.
  destruct (Nat.eqb_spec (length contractIDs) 0) as [|Hne]; [by destruct (HasPoolSupport host)|].
  assert (contractIDs ≠ []) as Hids by by destruct contractIDs.
  destruct (Host.Blocked host); [by destruct (HasPoolSupport host)|].
  destruct (Usability.Usable _); [|by destruct (HasPoolSupport host)].
  destruct (HasPoolSupport host); (split; [|try done]); simpl; try done; (apply bindM_ext; [done|]; intros now s1).
  - apply quotas_loop_same; [|intros; eapply (pools_batch_left (AF:=AF)); eassumption|done]. intros. by apply pools_batch_same.
  - apply quotas_loop_same; [|intros; eapply (accounts_batch_left (AF:=AF)); eassumption|done]. intros. by apply accounts_batch_same.
Qed.

End properties.

(** ** A concrete contract manager *)

Module FundingWitness.
#[local] Existing Instances U128.ops U128.laws TestRhp.ops TestRhp.laws TestRhp.methods.
#[local] Existing Instances FunderWitness.locks.
Import FunderWitness.
#[local] Existing Instances RevisionWitness.store RevisionWitness.client RevisionWitness.chain.

Definition amount (n : Z) : U128.t := U128.wrapped n.
Definition settings (price : Z) : HostSettings :=
  mkSettings 502%Z 0%N (amount (10 ^ 27)) 1000000 (TestRhp.mkPrices (amount price) (amount price) (amount price) 100).
Definition host (price : Z) : Host :=
  Host.mk 3%N 0 0 0 0 0 (Float.of_int 1) [] "NL" (Float.of_int 0) (Float.of_int 0) (settings price)
    Usability.GoodUsability false [] 0 0 (amount 0) (amount 0) 0.
Definition account (k : N) : HostAccount := mkHostAccount k 3 0 0 false.

#[local] Instance accounts : AccountManager world := {|
  PendingPoolAttachments _ _ := mret [];
  InsertPoolAttachments _ _ := mret tt;
  SharingPoolAttachments _ _ := mret [];
  MarkSharingPoolsAttached _ _ := mret tt;
  PoolFundingInfo _ := mret [];
  AccountFundingInfo _ := mret [mkQuotaFundInfo "default" 5000000 3 1];
  am_ServiceAccounts _ := mret [account 9];
  AccountsForFunding _ _ _ _ := mret [account 1; account 2];
  PoolsForFunding _ _ _ _ := mret [];
  UpdateHostAccounts _ := mret tt;
  UpdateHostPools _ := mret tt;
  am_UpdateServiceAccounts _ _ := mret tt;
  RecordFundingEvents _ := mret tt;
  time_Now := mret 1000%Z |}.

(** The funder of Funder.v is the account funder of the contract manager. *)
Definition funder (rpc : list N → Currency → ContractRevision → M world ReplenishResult) : AccountFunder world := {|
  af_FundAccounts _ ids accs t := Funder.FundAccounts 144 rpc ids accs t;
  af_FundPools _ ids pools t := Funder.FundPools 144 rpc ids pools t;
  af_AttachPools _ _ := mret tt |}.

Definition target (price : Z) : result Currency * world := ContractFundTarget (host price) (amount 1000) world0.
Definition unwrap (r : result U128.t) : U128.t := match r with Ok c => c | _ => amount 0 end.

Lemma target_result : target 1000 = (Ok (unwrap (target 1000).1), (target 1000).2).
Proof.
  assert (is_ok (target 1000).1 = true) as H by (vm_compute; reflexivity).
  destruct (target 1000) as [[c|e|] s]; try discriminate H. reflexivity.
Qed.

Example contract_fund_target_spec_witness :
  ∃ th infos n ht accs s1 s2 s3,
    (if HasPoolSupport (host 1000) then PoolFundingInfo th else AccountFundingInfo th) s1 = (Ok infos, s2) ∧
    am_ServiceAccounts 3%N s2 = (Ok accs, s3) ∧
    quotas_need (host 1000) infos n ∧ HostFundTarget (host 1000) serviceAccountFundTargetBytes = Ok ht ∧
    Big (unwrap (target 1000).1) = Z.max (Big (amount 1000)) (n + Big ht * Z.of_nat (length accs)).
Proof.
  refine (contract_fund_target_spec (host 1000) (amount 1000) _ world0 (target 1000).2 _ _ _ target_result).
  - intros th s l s' [= <- _]. constructor.
  - intros th s l s' [= <- _]. repeat constructor; done.
  - intros k s l s' [= <- _]. done.
Defined.

(** A funder that panics on requests without a target. *)
Definition strict_funder : AccountFunder world := {|
  af_FundAccounts _ ids accs t := if (0 <? Big t)%Z then Funder.FundAccounts 144 rpc ids accs t else panic;
  af_FundPools _ ids pools t := if (0 <? Big t)%Z then Funder.FundPools 144 rpc ids pools t else panic;
  af_AttachPools _ _ := mret tt |}.

Example funding_requests_sensible_witness :
  let quotas := [mkQuota "default" "" 0 0 5000000] in
  FundAccounts (AF:=funder rpc) (λ _, 0%Z) Hour 3 (host 1000) [7%N] quotas world0 =
    FundAccounts (AF:=strict_funder) (λ _, 0%Z) Hour 3 (host 1000) [7%N] quotas world0 ∧
  FundPools (AF:=funder rpc) (λ _, 0%Z) Hour 3 (host 1000) [7%N] quotas world0 =
    FundPools (AF:=strict_funder) (λ _, 0%Z) Hour 3 (host 1000) [7%N] quotas world0.
Proof.
  intros quotas. apply (funding_requests_sensible (funder rpc) strict_funder).
  split; intros h ids l t s _ _ Ht; cbn [af_FundAccounts af_FundPools strict_funder funder]; apply Z.ltb_lt in Ht; by rewrite Ht.
Defined.

(** [FundServiceAccounts] lacks the check for a zero target that the other
    passes have: for a usable host without prices the funder divides by zero. *)
Example service_accounts_zero_target :
  (FundServiceAccounts (AF:=funder rpc) (host 0) [7%N] world0).1 = Panic.
Proof. vm_compute. reflexivity. Qed.

(** The drained contracts are taken to be the first ones: when the first contract
    is locked and the second runs dry, it is the first that is dropped. *)
Definition locked_world : world := (RevisionWitness.s0, ([], {[5%N]})).
Example drained_is_not_a_prefix :
  match Funder.FundAccounts 144 rpc [5%N; 7%N] [account 1; account 2] (sc 11) locked_world with
  | (Ok (funded, drained, _), _) => (funded, drop drained [5%N; 7%N]) = (0, [7%N])
  | _ => False
  end.
Proof. vm_compute. reflexivity. Qed.

End FundingWitness.
