(* ===== verification/Deps.v ===== *)
(** * What the contract manager depends on (src/contracts/manager.go)

    The interfaces [HostManager], [Store], [HostClient] and [Wallet] of the
    contract manager, cut into classes by the part of the manager that uses them,
    the query options of contracts, and the blocking lock of a contract. *)

From S2P Require Import Prelude External Hosts Contract Funder.

(** ** Query options (src/contracts/contract.go) *)

Record ContractSortOpt := mkCSort { CField : string; CDescending : bool }.
Record ContractQueryOpts := mkCQuery {
  QRevisable : option bool;
  QGood : option bool;
  QIDs : list FileContractID;
  QHostKeys : list PublicKey;
  QSorting : list ContractSortOpt }.

Abbreviation ContractQueryOpt := (ContractQueryOpts → ContractQueryOpts) (only parsing).

Definition WithGood (good : bool) : ContractQueryOpt := λ o,
  mkCQuery (QRevisable o) (Some good) (QIDs o) (QHostKeys o) (QSorting o).
Definition WithRevisable (revisable : bool) : ContractQueryOpt := λ o,
  mkCQuery (Some revisable) (QGood o) (QIDs o) (QHostKeys o) (QSorting o).
Definition WithIDs (ids : list FileContractID) : ContractQueryOpt := λ o,
  mkCQuery (QRevisable o) (QGood o) ids (QHostKeys o) (QSorting o).
Definition WithHostKeys (hks : list PublicKey) : ContractQueryOpt := λ o,
  mkCQuery (QRevisable o) (QGood o) (QIDs o) hks (QSorting o).
Definition WithContractSorting (field : string) (descending : bool) : ContractQueryOpt := λ o,
  mkCQuery (QRevisable o) (QGood o) (QIDs o) (QHostKeys o) (QSorting o ++ [mkCSort field descending]).

Definition contract_query (opts : list ContractQueryOpt) : ContractQueryOpts :=
  foldl (λ o f, f o) (mkCQuery None None [] [] []) opts.

(** ** Settings *)

(** [MaintenanceSettings] *)
Record MaintenanceSettings := mkMaintenance {
  Enabled : bool; Period : Z; RenewWindow : Z; WantedContracts : Z }.

Definition DefaultMaintenanceSettings : MaintenanceSettings :=
  mkMaintenance false (144 * 7 * 6) (144 * 7 * 2) 50.

(** [hosts.UsabilitySettings] of src/hosts/host.go *)
Record UsabilitySettings {C : CurrencyOps} {R : RhpOps} := mkUsability {
  MaxEgressPrice : Currency;
  MaxIngressPrice : Currency;
  MaxStoragePrice : Currency;
  MinCollateral : Currency;
  MinProtocolVersion : Version }.
Arguments mkUsability {C R} _ _ _ _ _.

Section constants.
Context {C : CurrencyOps} {R : RhpOps}.
Definition oneTB : Z := 2 ^ 40.
Definition minRemainingStorage : Z := 10 * 2 ^ 30 / SectorSize.
End constants.

(** ** Interfaces *)

Section interfaces.
Context {C : CurrencyOps} {R : RhpOps}.

(** Transaction sets are the library's: the miner fees of their transactions are
    what the program reads. *)
Class TxnSetOps := { TxnSet : Type; MinerFees : TxnSet → list Currency }.

(** [HostManager] *)
Class HostsDep (S : Type) := {
  hm_WithScannedHost : PublicKey → (Host → M S unit) → M S unit;
  hm_Hosts : Z → Z → list HostQueryOpt → M S (list Host);
  hm_HostsForFunding : M S (list PublicKey);
  hm_HostsForPruning : M S (list PublicKey);
  hm_HostsForPinning : M S (list PublicKey);
  hm_BlockHosts : list PublicKey → list string → M S unit;
  hm_HostsWithUnpinnableSectors : M S (list PublicKey);
  hm_UsabilitySettings : M S UsabilitySettings }.

(** The parts of [Store] that forming, refreshing and renewing use. *)
Class FormStore (S : Type) := {
  fs_Contracts : Z → Z → list ContractQueryOpt → M S (list Contract);
  (* host key, id, revision, contract price, allowance, miner fee, usage *)
  fs_AddFormedContract : PublicKey → FileContractID → V2.FileContract → Currency → Currency → Currency → Usage → M S unit;
  (* old id, new id, revision, contract price, miner fee, usage *)
  fs_AddRenewedContract : FileContractID → FileContractID → V2.FileContract → Currency → Currency → Usage → M S unit;
  fs_UpdateStuckHosts : list PublicKey → M S unit }.

(** The results of the forming RPCs. *)
Context {T : TxnSetOps}.
Record FormResult := mkFormResult { res_Contract : ContractRevision; res_Set : TxnSet; res_Usage : Usage }.
Record FormParams := mkFormParams {
  fp_HostKey : PublicKey;
  fp_HostAddress : N;
  fp_RenterPublicKey : PublicKey;
  fp_RenterAddress : N;
  fp_Allowance : Currency;
  fp_Collateral : Currency;
  fp_ProofHeight : Z }.

(** The parts of [HostClient], of the wallet and of the protocol library that
    forming uses. *)
Class FormClient (S : Type) := {
  client_FormContract : FormParams → M S FormResult;
  (* contract, allowance, collateral *)
  client_RefreshContract : ContractRevision → Currency → Currency → M S FormResult;
  (* contract, allowance, collateral, proof height *)
  client_RenewContract : ContractRevision → Currency → Currency → Z → M S FormResult;
  (* revision, prices, host address, allowance, collateral, proof height *)
  proto_RenewContract : V2.FileContract → HostPrices → N → Currency → Currency → Z → result V2.FileContract;
  wallet_Address : M S N;
  wallet_BroadcastTxnSet : TxnSet → M S unit;
  ErrNotEnoughFunds : string }.

End interfaces.

(** ** Locking a contract *)

(** [LockContract] blocks until the contract is free; a caller that holds the
    contract itself would wait for ever, so nothing is said about that. *)
Class BlockingLock (S : Type) := { LockContract : FileContractID → M S unit }.
Class BlockingLockLaws {S : Type} (BL : BlockingLock S) (held : S → gset FileContractID) : Prop := {
  LockContract_spec : ∀ i s r s', i ∉ held s → LockContract i s = (r, s') →
    r = Ok tt ∧ held s' = {[i]} ∪ held s }.

(** [lc, unlock := LockContract(i); defer unlock()] *)
Definition with_lock {S A} {BL : BlockingLock S} {LO : LockOps S} (i : FileContractID) (m : M S A) : M S A :=
  bindM (LockContract i) (λ _, with_unlock i m).

Lemma with_lock_held {S A} {BL : BlockingLock S} {LO : LockOps S} held {LL : LockLaws LO held} {BLL : BlockingLockLaws BL held}
    i (m : M S A) s :
  i ∉ held s → (∀ s, held (m s).2 = held s) → held (with_lock i m s).2 = held s.
Proof.
  intros Hni Hm. unfold with_lock, bindM, mbind, M_bind, with_unlock.
  destruct (LockContract i s) as [r s1] eqn:El. apply LockContract_spec in El as (-> & Hh); [|done].
  specialize (Hm s1). destruct (m s1) as [r2 s2]. destruct (Unlock i s2) as [r3 s3] eqn:Eu. apply Unlock_held in Eu.
  simpl in *. rewrite Eu, Hm, Hh. set_solver.
Qed.

Lemma with_lock_ext {S A} {BL : BlockingLock S} {LO : LockOps S} i (m m' : M S A) s :
  (∀ s, m s = m' s) → with_lock i m s = with_lock i m' s.
Proof. intros H. unfold with_lock. apply bindM_ext; [done|]. intros _ s1. by apply with_unlock_ext. Qed.

#[export] Instance blocking_locals {S L} {BL : BlockingLock S} : BlockingLock (S * L) := {| LockContract i := lift1 (LockContract i) |}.
