(* ===== verification/ContractQueries.v ===== *)
(** * Queries of contracts (src/persist/postgres/contracts.go)

    Reading contracts, listing them by options and sort columns, the contracts that are
    up for broadcasting, funding, pinning and pruning, contract elements, and statistics. *)

From S2P Require Import Prelude Float Order Encoding External Hosts Contract Deps Slabs Objects Accounts Tables SlabTables SectorTables ContractTables HostTables.

Section queries.
Local Open Scope go_scope.
Context {C : CurrencyOps} {R : RhpOps} {V : V2.Methods} {CC : ContractColumns}.
Context (order : ∀ {A}, list A → list A).
Arguments order {A} _.

(** ** Reading *)

(** An integer that is read into a [uint64]. *)
Definition scan_uint (z : Z) : result Z := if (0 <=? z)%Z then Ok z else Err (EMsg "%d is less than zero for uint64").
(** [sqlContractState.Scan] *)
Definition read_state (z : Z) : result ContractState :=
  match z with
  | 0 => Ok ContractStatePending
  | 1 => Ok ContractStateActive
  | 2 => Ok ContractStateResolved
  | 3 => Ok ContractStateExpired
  | 4 => Ok ContractStateRejected
  | _ => Err (EMsg "invalid contract state %v")
  end%Z.

(** [INNER JOIN hosts h ON c.host_id = h.id] *)
Definition host_of (d : db) (c : ContractRow) : option HostRow := hosts d !! c_host_id c.

(** [scanContract]: nothing writes the columns of spending. *)
Definition scanContract (id : FileContractID) (h : HostRow) (c : ContractRow) : M db Contract :=
  let* proof := lift (scan_uint (c_proof_height c)) in
  let* expiration := lift (scan_uint (c_expiration_height c)) in
  let* number := lift (scan_uint (c_revision_number c)) in
  let* state := lift (read_state (c_state c)) in
  let* capacity := lift (scan_uint (c_capacity c)) in
  let* size := lift (scan_uint (c_size c)) in
  let* price := lift (scan_currency (c_contract_price c)) in
  let* initial := lift (scan_currency (c_initial_allowance c)) in
  let* remaining := lift (scan_currency (c_remaining_allowance c)) in
  let* fee := lift (scan_currency (c_miner_fee c)) in
  let* used := lift (scan_currency (c_used_collateral c)) in
  let* total := lift (scan_currency (c_total_collateral c)) in
  let* zero := lift (scan_currency 0) in
  mret (mkContract id (h_public_key h) (c_formation c) (default 0%N (c_renewed_from c)) (c_next_prune c) (c_last_broadcast_attempt c) number
    proof expiration capacity size initial remaining total (default 0%N (c_renewed_to c)) used price fee (c_good c) state
    (mkSpending zero zero zero zero)).

Definition tables_Contract (contractID : FileContractID) : M db Contract :=
  transaction (
    let* d := get in
    match contracts d !! contractID with
    | None => throw contract_not_found
    | Some c =>
        match host_of d c with
        | None => throw contract_not_found
        | Some h => wrapM "failed to fetch contract: " (scanContract contractID h c)
        end
    end).

(** ** Listing *)

(** [buildContractOrderByClause] *)
Definition contract_sortMapping : list (string * string) :=
  [("id", "c.contract_id"); ("hostKey", "h.public_key"); ("formation", "c.formation"); ("renewedFrom", "c.renewed_from");
   ("nextPrune", "c.next_prune"); ("lastBroadcastAttempt", "c.last_broadcast_attempt"); ("revisionNumber", "c.revision_number");
   ("proofHeight", "c.proof_height"); ("expirationHeight", "c.expiration_height"); ("capacity", "c.capacity"); ("size", "c.size");
   ("initialAllowance", "c.initial_allowance"); ("remainingAllowance", "c.remaining_allowance"); ("totalCollateral", "c.total_collateral");
   ("renewedTo", "c.renewed_to"); ("usedCollateral", "c.used_collateral"); ("contractPrice", "c.contract_price"); ("minerFee", "c.miner_fee");
   ("good", "c.good"); ("state", "c.state"); ("spending.appendSector", "c.append_sector_spending");
   ("spending.freeSector", "c.free_sector_spending"); ("spending.fundAccount", "c.fund_account_spending");
   ("spending.sectorRoots", "c.sector_roots_spending")]%string.

Fixpoint contract_order_columns (sorts : list ContractSortOpt) : result (list (string * bool)) :=
  match sorts with
  | [] => Ok []
  | o :: sorts =>
      match assoc (CField o) contract_sortMapping with
      | None => Err (EWrap "" (ESentinel ErrInvalidSortField) ": invalid sort column: %q, must be one of %v")
      | Some column =>
          match contract_order_columns sorts with
          | Ok parts => Ok ((column, CDescending o) :: parts)
          | r => r
          end
      end
  end.
Definition buildContractOrderByClause (sorts : list ContractSortOpt) : result (list (string * bool)) :=
  match sorts with
  | [] => Ok [("c.contract_id", false)]%string
  | _ => contract_order_columns sorts
  end.

Abbreviation contract_row := (FileContractID * (HostRow * ContractRow))%type (only parsing).

(** The value of a column; [None] is NULL, which is greater than any value. *)
Definition contract_value (p : contract_row) (column : string) : option Z :=
  let '(id, (h, c)) := p in
  default (Some 0%Z) (assoc column
    [("c.contract_id", Some (Z.of_N id)); ("h.public_key", Some (Z.of_N (h_public_key h))); ("c.formation", Some (c_formation c));
     ("c.renewed_from", Z.of_N <$> c_renewed_from c); ("c.next_prune", Some (c_next_prune c));
     ("c.last_broadcast_attempt", Some (c_last_broadcast_attempt c)); ("c.revision_number", Some (c_revision_number c));
     ("c.proof_height", Some (c_proof_height c)); ("c.expiration_height", Some (c_expiration_height c)); ("c.capacity", Some (c_capacity c));
     ("c.size", Some (c_size c)); ("c.initial_allowance", Some (c_initial_allowance c)); ("c.remaining_allowance", Some (c_remaining_allowance c));
     ("c.total_collateral", Some (c_total_collateral c)); ("c.renewed_to", Z.of_N <$> c_renewed_to c);
     ("c.used_collateral", Some (c_used_collateral c)); ("c.contract_price", Some (c_contract_price c)); ("c.miner_fee", Some (c_miner_fee c));
     ("c.good", Some (if c_good c then 1 else 0)); ("c.state", Some (c_state c))]%string%Z).
Definition null_Compare (a b : option Z) : Z :=
  match a, b with
  | Some x, Some y => int_Compare x y
  | Some _, None => -1
  | None, Some _ => 1
  | None, None => 0
  end.
(** Ties are left to the database. *)
Fixpoint contracts_Compare (parts : list (string * bool)) (a b : contract_row) : Z :=
  match parts with
  | [] => 0
  | (column, descending) :: parts =>
      then_by (λ a b, if descending : bool then null_Compare (contract_value b column) (contract_value a column)
                      else null_Compare (contract_value a column) (contract_value b column)) (contracts_Compare parts) a b
  end.

Definition selected_contract (opts : ContractQueryOpts) (d : db) (p : contract_row) : bool :=
  let '(id, (h, c)) := p in
  match QGood opts with Some g => Bool.eqb g (c_good c) | None => true end &&
  match QRevisable opts with
  | None => true
  | Some true => revisable d c
  | Some false => (c_state c =? 2)%Z || (c_state c =? 3)%Z || (c_state c =? 4)%Z
  end &&
  (bool_decide (QIDs opts = []) || bool_decide (id ∈ QIDs opts)) &&
  (bool_decide (QHostKeys opts = []) || bool_decide (h_public_key h ∈ QHostKeys opts)).

Definition contract_rows (d : db) : list contract_row :=
  omap (λ p : FileContractID * ContractRow, (λ h, (p.1, (h, p.2))) <$> host_of d p.2) (map_to_list (contracts d)).

Definition tables_Contracts (offset limit : Z) (queryOpts : list ContractQueryOpt) : M db (list Contract) :=
  let opts := contract_query queryOpts in
  let* parts := lift (buildContractOrderByClause (QSorting opts)) in
  transaction (
    wrapM "failed to query contracts: " (require (0 <=? limit)%Z "2201W" ;; require (0 <=? offset)%Z "2201X") ;;
    let* d := get in
    let rows := page offset limit (SliceStable (contracts_Compare parts) (order (filter (λ p, selected_contract opts d p = true) (contract_rows d)))) in
    foldM (λ contracts p, let* c := wrapM "failed to scan contract: " (scanContract p.1 p.2.1 p.2.2) in mret (contracts ++ [c])) [] rows).

(** ** Contracts by what is to be done with them *)

Definition select_contracts (P : ContractRow → bool) (by_value : ContractRow → Z) (d : db) : list (FileContractID * ContractRow) :=
  SliceStable (λ p q, int_Compare (by_value p.2) (by_value q.2)) (order (filter (λ p, P p.2 = true) (map_to_list (contracts d)))).

Definition tables_ContractsForBroadcasting (minBroadcast limit : Z) : M db (list FileContractID) :=
  transaction (
    wrapM "failed to fetch contracts for broadcasting: " (require (0 <=? limit)%Z "2201W") ;;
    let* d := get in
    mret (take (Z.to_nat limit) (select_contracts (λ c, revisable d c && (c_last_broadcast_attempt c <? minBroadcast)%Z) c_last_broadcast_attempt d)).*1).

(** [c.host_id = (SELECT id FROM hosts WHERE public_key = $1)], and good for use *)
Definition usable_contract (hk : PublicKey) (d : db) (c : ContractRow) : bool :=
  match find_host hk d with Some (id, _) => (c_host_id c =? id)%Z | None => false end &&
  revisable d c && c_good c && (0 <? c_remaining_allowance c)%Z.

Definition tables_ContractsForFunding (hk : PublicKey) (limit : Z) : M db (list FileContractID) :=
  transaction (
    wrapM "failed to fetch contracts for funding: " (require (0 <=? limit)%Z "2201W") ;;
    let* d := get in
    mret (take (Z.to_nat limit) (select_contracts (usable_contract hk d) (λ c, - c_remaining_allowance c)%Z d)).*1).

Definition tables_ContractsForPinning (hk : PublicKey) (maxContractSize : Z) : M db (list FileContractID) :=
  transaction (
    wrapM "failed to fetch contracts for pinning: " (bigint maxContractSize) ;;
    let* d := get in
    mret (select_contracts (λ c, usable_contract hk d c && (c_size c <? maxContractSize)%Z) (λ c, - (c_capacity c - c_size c))%Z d).*1).

Definition tables_ContractsForPruning (hk : PublicKey) : M db (list FileContractID) :=
  transaction (
    let* d := get in
    mret (select_contracts (λ c, usable_contract hk d c && (c_next_prune c <? db_now d)%Z) (λ c, - c_size c)%Z d).*1).

(** ** Contract elements and settings *)

Definition tables_ContractElement (contractID : FileContractID) : M db ElementRow :=
  transaction (
    let* d := get in
    match contract_elements d !! contractID with
    | None => throw contract_not_found
    | Some e => mret e
    end).

Definition expired_for (n : Z) (d : db) (id : FileContractID) (P : ContractRow → bool) : bool :=
  match contracts d !! id with Some c => (c_expiration_height c + n <=? scanned_height d)%Z && P c | None => false end.

Definition tables_ContractElementsForBroadcast (maxBlocksSinceExpiry : Z) : M db (list (FileContractID * ElementRow)) :=
  transaction (
    bigint maxBlocksSinceExpiry ;;
    let* d := get in
    mret (order (filter (λ p, expired_for maxBlocksSinceExpiry d p.1 (λ c, (c_state c =? 1)%Z && bool_decide (c_renewed_to c = None)) = true)
      (map_to_list (contract_elements d))))).

Definition tables_PruneExpiredContractElements (maxBlocksSinceExpiry : Z) : M db unit :=
  transaction (
    bigint maxBlocksSinceExpiry ;;
    let* d := get in
    modify (set_contract_elements (delete_rows (λ id _, expired_for maxBlocksSinceExpiry d id (λ _, true))))).

Definition tables_MaintenanceSettings : M db MaintenanceSettings :=
  transaction (let* d := get in let g := globals d in
    mret (mkMaintenance (gs_maintenance_enabled g) (gs_contracts_period g) (gs_contracts_renew_window g) (gs_contracts_wanted g))).

(** ** Statistics *)

(** [contracts.Stats] *)
Record ContractStats := mkContractStats {
  cs_Contracts : Z; cs_BadContracts : Z; cs_Renewing : Z; cs_LockedAllowance : Currency; cs_RemainingAllowance : Currency;
  cs_TotalCapacity : Z; cs_TotalSize : Z }.

Definition sum_contracts (P : ContractRow → bool) (f : ContractRow → Z) (d : db) : Z := msum (λ _ c, if P c then f c else 0)%Z (contracts d).
(** A sum that is read into a [uint64]. *)
Definition scan_sum (z : Z) : result Z := if (0 <=? z)%Z && (z <? two64)%Z then Ok z else Err (EMsg "%d is out of range for uint64").

Definition tables_ContractsStats : M db ContractStats :=
  transaction (
    let* d := get in
    let sum := sum_contracts (revisable d) in
    let numContracts := sum (λ _, 1)%Z d in
    let numGood := sum (λ c, if c_good c then 1 else 0)%Z d in
    let* capacity := lift (scan_sum (sum c_capacity d)) in
    let* size := lift (scan_sum (sum c_size d)) in
    let* locked := lift (scan_currency (sum c_initial_allowance d)) in
    let* remaining := lift (scan_currency (sum c_remaining_allowance d)) in
    let numRenewing := sum_contracts (λ c, c_good c && revisable d c &&
      (c_proof_height c <=? scanned_height d + gs_contracts_renew_window (globals d))%Z) (λ _, 1)%Z d in
    mret (mkContractStats numContracts (u64 (numContracts - numGood)) numRenewing locked remaining capacity size)).

(** ** What is picked *)

Context (order_perm : ∀ A (l : list A), order l ≡ₚ l).

Lemma by_value_preorder (f : ContractRow → Z) : preorder (λ p q : FileContractID * ContractRow, int_Compare (f p.2) (f q.2)).
Proof. apply (pull_preorder int_Compare (λ p, f p.2)), int_preorder. Qed.
Lemma int_Compare_le x y : (int_Compare x y ≤ 0 ↔ x ≤ y)%Z.
Proof. unfold int_Compare. destruct (Z.compare_spec x y); lia. Qed.
Lemma elem_of_select P f d id c : (id, c) ∈ select_contracts P f d ↔ contracts d !! id = Some c ∧ P c = true.
Proof.
  unfold select_contracts. rewrite SliceStable_perm, order_perm, list_elem_of_filter, elem_of_map_to_list. cbn. tauto.
Qed.
Lemma select_nodup P f d : NoDup (select_contracts P f d).*1.
Proof.
  unfold select_contracts. rewrite SliceStable_perm, order_perm. apply (sublist_NoDup _ (map_to_list (contracts d)).*1); [apply NoDup_fst_map_to_list|].
  apply fmap_sublist, sublist_filter.
Qed.
(** The rows up to a limit come before the others. *)
Lemma select_best P f d n id c : contracts d !! id = Some c → P c = true → id ∉ (take n (select_contracts P f d)).*1 →
  ∀ i r, i ∈ (take n (select_contracts P f d)).*1 → contracts d !! i = Some r → (f r ≤ f c)%Z.
Proof.
  intros Hid HP Hout i r ([j s] & -> & Hj)%list_elem_of_fmap Hr. cbn in Hr.
  assert ((j, s) ∈ select_contracts P f d) as Hs by (rewrite <-(take_drop n (select_contracts P f d)); apply elem_of_app; by left).
  apply elem_of_select in Hs as [Hs _]. assert (s = r) as -> by congruence.
  assert ((id, c) ∈ drop n (select_contracts P f d)) as Hd.
  { assert ((id, c) ∈ select_contracts P f d) as Hin by (by apply elem_of_select). rewrite <-(take_drop n (select_contracts P f d)) in Hin.
    apply elem_of_app in Hin as [Hin|]; [|done]. destruct Hout. apply list_elem_of_fmap. by exists (id, c). }
  apply int_Compare_le. exact (SliceStable_best _ (by_value_preorder f) _ n _ _ Hj Hd).
Qed.

(** C17. The contracts that a host's accounts are funded from are its best: the query changes nothing, every listed contract is on the host, good, unrenewed, not ended and has allowance left, none is listed twice, and if the limit left a contract of that kind out, every listed one has at least its remaining allowance; below the limit, all of them are listed. *)
Theorem contracts_for_funding_richest hk limit d l d' :
  tables_ContractsForFunding hk limit d = (Ok l, d') →
  d' = d ∧ NoDup l ∧ (Z.of_nat (length l) ≤ limit)%Z ∧
  (∀ id, id ∈ l → ∃ c, contracts d !! id = Some c ∧ usable_contract hk d c = true) ∧
  ∀ id c, contracts d !! id = Some c → usable_contract hk d c = true → id ∉ l →
    Z.of_nat (length l) = limit ∧ ∀ i r, i ∈ l → contracts d !! i = Some r → (c_remaining_allowance c ≤ c_remaining_allowance r)%Z.
Proof.
  unfold tables_ContractsForFunding, transaction, wrapM, require, get, bindM, mbind, M_bind, mret, M_ret, throw. destruct (Z.leb_spec 0 limit) as [Hl|]; cbn; [|done].
  intros [= <- <-]. set (f := λ c, (- c_remaining_allowance c)%Z). set (P := usable_contract hk d). set (n := Z.to_nat limit). split; [done|]. split; [|split; [|split]].
  - eapply sublist_NoDup; [apply (select_nodup P f d)|]. apply fmap_sublist, sublist_take.
  - rewrite length_fmap, length_take. lia.
  - intros id ([i c] & -> & Hin)%list_elem_of_fmap. eapply elem_of_sublist in Hin; [|apply sublist_take].
    apply elem_of_select in Hin. eauto.
  - intros id c Hid HP Hout. split.
    + rewrite length_fmap, length_take. enough (n ≤ length (select_contracts P f d)) by lia.
      destruct (Nat.le_gt_cases n (length (select_contracts P f d))) as [|Hgt]; [done|]. exfalso. apply Hout. rewrite take_ge by lia.
      apply list_elem_of_fmap. exists (id, c). split; [done|]. by apply elem_of_select.
    + intros i r Hi Hr. pose proof (select_best P f d n id c Hid HP Hout i r Hi Hr) as Hle. unfold f in Hle. lia.
Qed.
End queries.

Module QueryWitness.
#[local] Existing Instances U128.ops TestRhp.ops TestColumns.contract_columns.

Definition row (allowance : Z) (renewed : option FileContractID) (good : bool) : ContractRow :=
  mkContractRow 1 0 900 1044 None renewed 1 1 0 0 100 50 0 0 allowance 0 0 0 good [].
Definition store : db := mkDB 1000 ∅ ∅ ∅ ∅ ∅ {[1%Z := new_host 21 0 true true 0]}
  (list_to_map [(31, row 5 None true); (32, row 9 None true); (33, row 7 None true); (34, row 20 None false); (35, row 30 (Some 31) true)]%N)
  ∅ 500 ∅ ∅ ∅ ∅ ∅ ∅ ∅ ∅ [] [] ∅ ∅ ∅ default_globals ∅ [] ∅ ∅ ∅.
Definition same (A : Type) (l : list A) : list A := l.

Lemma funding_runs : tables_ContractsForFunding same 21 2 store = (Ok [32; 33]%N, store).
Proof. apply injective_projections; cbn [fst snd]; [vm_compute; reflexivity|reflexivity]. Qed.
Example contracts_for_funding_richest_witness : NoDup [32; 33]%N ∧ (31%N ∉ [32; 33]%N → Z.of_nat 2 = 2%Z).
Proof.
  destruct (contracts_for_funding_richest same (λ _ _, Permutation_refl _) 21 2 store [32; 33]%N store funding_runs) as (_ & H1 & _ & _ & H2). split; [exact H1|].
  intros Hout. apply (H2 31%N (row 5 None true)); [vm_compute; reflexivity|vm_compute; reflexivity|exact Hout].
Defined.

(** An active contract that was renewed is neither revisable nor not. *)
Definition listed (revisable : bool) : option (list FileContractID) :=
  match (tables_Contracts same 0 100 [WithRevisable revisable] store).1 with Ok l => Some (ID <$> l) | _ => None end.
Lemma renewed_contract_unlisted : listed true = Some [31; 32; 33; 34]%N ∧ listed false = Some [].
Proof. vm_compute. done. Qed.
End QueryWitness.
