(* ===== verification/Pins.v ===== *)
(** * Pinned prices (src/pins/manager.go)

    Prices that are pinned to an external currency: the exchange rates the manager
    collects, the decision when to update, the conversion into the network's
    currency and the settings that are written. Decimal numbers are those of
    github.com/shopspring/decimal, a parameter. *)

From Stdlib Require Import QArith Qround Qabs Lqa.
From S2P Require Import Prelude Float Order External Deps.
Local Close Scope Q_scope.

(** ** Libraries *)

Class DecimalOps := {
  Decimal : Type;
  dZero : Decimal;
  dNewFromFloat : float64 → Decimal;
  dNewFromInt : Z → Decimal;
  dNew : Z → Z → Decimal;                        (* value, exponent *)
  dAdd : Decimal → Decimal → Decimal;
  dSub : Decimal → Decimal → Decimal;
  dMul : Decimal → Decimal → Decimal;
  dDiv : Decimal → Decimal → result Decimal;     (* panics on zero *)
  dAbs : Decimal → Decimal;
  dGreaterThanOrEqual : Decimal → Decimal → bool;
  dIsZero : Decimal → bool;
  dBigInt : Decimal → Z }.

(** Values are exact but for division, which keeps 16 digits after the point; the
    integer part is cut towards zero. *)
Class DecimalLaws (D : DecimalOps) := {
  dval : Decimal → Q;
  dZero_val : (dval dZero == 0)%Q;
  dNewFromInt_val : ∀ z, (dval (dNewFromInt z) == inject_Z z)%Q;
  dNew_val : ∀ v e, (0 ≤ e)%Z → (dval (dNew v e) == inject_Z (v * 10 ^ e))%Q;
  dNewFromFloat_pos : ∀ f, flt (of_int 0) f = true → (0 < dval (dNewFromFloat f))%Q;
  dAdd_val : ∀ a b, (dval (dAdd a b) == dval a + dval b)%Q;
  dSub_val : ∀ a b, (dval (dSub a b) == dval a - dval b)%Q;
  dMul_val : ∀ a b, (dval (dMul a b) == dval a * dval b)%Q;
  dDiv_val : ∀ a b, ¬ (dval b == 0)%Q → ∃ c, dDiv a b = Ok c ∧ (Qabs (dval c - dval a / dval b) <= 1 # (10 ^ 16))%Q ∧
    (0 <= dval a → 0 < dval b → 0 <= dval c)%Q;
  dAbs_val : ∀ a, (dval (dAbs a) == Qabs (dval a))%Q;
  dGte_val : ∀ a b, dGreaterThanOrEqual a b = true ↔ (dval b <= dval a)%Q;
  dIsZero_val : ∀ a, dIsZero a = true ↔ (dval a == 0)%Q;
  dBigInt_val : ∀ a, (0 <= dval a)%Q → dBigInt a = Qfloor (dval a) }.

(** [types.NewCurrency(lo, hi)] *)
Class NewCurrencyOps {C : CurrencyOps} := { NewCurrency : Z → Z → Currency }.
Class NewCurrencyLaws {C : CurrencyOps} (NC : NewCurrencyOps) : Prop := {
  NewCurrency_Big : ∀ lo hi, is_u64 lo → is_u64 hi → Big (NewCurrency lo hi) = (lo + two64 * hi)%Z }.

(** ** Data *)

Definition priceUpdateThreshold : float64 := of_decimal 2 2.
Definition oneTB : Z := 10 ^ 12.
Definition oneMonth : Z := 4320.

(** [Pin] is a [float64]. *)
Abbreviation Pin := float64 (only parsing).
Definition Pin_Enabled (p : Pin) : bool := flt (of_int 0) p.

Record PinnedSettings := mkPins {
  Pins_Currency : string; Pin_MaxEgress : Pin; Pin_MaxIngress : Pin; Pin_MaxStorage : Pin; Pin_MinCollateral : Pin }.

Definition Pins_Enabled (ps : PinnedSettings) : bool :=
  negb (String.eqb (Pins_Currency ps) "") &&
  (Pin_Enabled (Pin_MinCollateral ps) || Pin_Enabled (Pin_MaxStorage ps) ||
   Pin_Enabled (Pin_MaxIngress ps) || Pin_Enabled (Pin_MaxEgress ps)).

Section pins.
Context {C : CurrencyOps} {R : RhpOps} {NC : NewCurrencyOps} {D : DecimalOps}.

(** The fields of [PinManager] that [mu] guards. *)
Record rate_state := mkRates { rates : list Decimal; average : Decimal; currency : string }.

Definition ConvertCurrencyToSC (target rate : Decimal) : result Currency :=
  if dIsZero rate then Err (EMsg "zero rate")
  else
    q ← dDiv target rate;
    let i := dBigInt (dMul q (dNew 1 24)) in
    if (i <? 0)%Z then Err (EMsg "negative currency")
    else if (2 ^ 128 <=? i)%Z then Err (EMsg "currency overflow")
    else Ok (NewCurrency (u64 i) (u64 (i / 2 ^ 64))).

(** The rates after the new one, of [addRate]. *)
Definition push_rate (maxRates : Z) (l : list Decimal) (r : Decimal) : list Decimal :=
  let l := l ++ [r] in
  if (maxRates <? Z.of_nat (length l))%Z then tail l else l.

Definition addRate (rateWindow updatePriceFrequency : Z) (cur : string) (rate : float64) (st : rate_state) : result (bool * rate_state) :=
  let l := if String.eqb (currency st) cur then rates st else [] in
  let maxRates := Z.quot rateWindow updatePriceFrequency in
  let l := push_rate maxRates l (dNewFromFloat rate) in
  let sum := foldl dAdd dZero l in
  avg ← dDiv sum (dNewFromInt (Z.of_nat (length l)));
  let threshold := dMul (average st) (dNewFromFloat priceUpdateThreshold) in
  let diff := dAbs (dSub (average st) avg) in
  mret (dGreaterThanOrEqual diff threshold, mkRates l avg cur).

(** The store, the explorer (nil or not) and the host manager. *)
Class PinDeps (S : Type) := {
  pin_PinnedSettings : M S PinnedSettings;
  pin_UpdatePinnedSettings : PinnedSettings → M S unit;
  pin_explorer : option (string → M S float64);
  pin_UsabilitySettings : M S UsabilitySettings;
  pin_UpdateUsabilitySettings : UsabilitySettings → M S unit }.

(** The new value of a setting: the old one unless its pin is enabled. *)
Definition pinned_price (name : string) (pin : Pin) (rate : float64) (divide : Currency → result Currency) (old : Currency) : result Currency :=
  if Pin_Enabled pin then
    match ConvertCurrencyToSC (dNewFromFloat pin) (dNewFromFloat rate) with
    | Ok value => divide value
    | Err e => Err (EWrap ("failed to convert " +:+ name +:+ " price, ") e "")
    | Panic => Panic
    end
  else Ok old.

Definition per_byte (v : Currency) : result Currency := Div64 v oneTB.
Definition per_byte_block (v : Currency) : result Currency := v ← Div64 v oneTB; Div64 v oneMonth.

Definition pinned_settings (pins : PinnedSettings) (rate : float64) (settings : UsabilitySettings) : result UsabilitySettings :=
  egress ← pinned_price "MaxEgressPrice" (Pin_MaxEgress pins) rate per_byte (MaxEgressPrice settings);
  ingress ← pinned_price "MaxIngressPrice" (Pin_MaxIngress pins) rate per_byte (MaxIngressPrice settings);
  storage ← pinned_price "MaxStoragePrice" (Pin_MaxStorage pins) rate per_byte_block (MaxStoragePrice settings);
  collateral ← pinned_price "MinCollateral" (Pin_MinCollateral pins) rate per_byte_block (MinCollateral settings);
  mret (mkUsability egress ingress storage collateral (MinProtocolVersion settings)).

Section calls.
Local Open Scope go_scope.
Context {S : Type} {PD : PinDeps S}.
Variable rateWindow updatePriceFrequency : Z.

(** [updatePrices]; the rates are the local state. *)
Definition updatePrices (force : bool) : M (S * rate_state) unit :=
  let* pins := lift1 (wrapM "failed to retrieve pinned settings, " pin_PinnedSettings) in
  let pins := if String.eqb (Pins_Currency pins) "" then mkPins "usd" (of_int 0) (of_int 0) (of_int 0) (of_int 0) else pins in
  match pin_explorer with
  | None => mret tt
  | Some rate_of =>
      let* rate := lift1 (wrapM "failed to retrieve exchange rate, " (rate_of (Pins_Currency pins))) in
      if negb (flt (of_int 0) rate) && negb (is_nan rate) then throw (EMsg "invalid exchange rate, %v")
      else
        let* st := local id in
        let* p := lift (addRate rateWindow updatePriceFrequency (Pins_Currency pins) rate st) in
        let '(update, st) := p in
        set_local (λ _, st) ;;
        if negb force && negb update then mret tt
        else if negb (Pins_Enabled pins) then mret tt
        else
          let* settings := lift1 (wrapM "failed to retrieve host usability settings, " pin_UsabilitySettings) in
          let* settings := lift (pinned_settings pins rate settings) in
          lift1 (wrapM "failed to update host usability settings, " (pin_UpdateUsabilitySettings settings))
  end.

Definition manager_PinnedSettings : M S PinnedSettings := pin_PinnedSettings.

Definition UpdatePinnedSettings (ps : PinnedSettings) : M (S * rate_state) unit :=
  lift1 (wrapM "failed to update pinned settings: " (pin_UpdatePinnedSettings ps)) ;;
  updatePrices true.
End calls.

(** The checks of [NewManager]. *)
Definition NewManager_check (rateWindow updatePriceFrequency : Z) : option error :=
  if (rateWindow =? 0)%Z then Some (EMsg "rate window must be set")
  else if (updatePriceFrequency =? 0)%Z then Some (EMsg "price update frequency must be set")
  else if (rateWindow <? updatePriceFrequency)%Z then Some (EMsg "price update frequency exceeds rate window")
  else None.

(** ** Properties *)

Context {CL : CurrencyLaws C} {NL : NewCurrencyLaws NC} {DL : DecimalLaws D}.

Lemma NewCurrency_split i : (0 ≤ i < two128)%Z → Big (NewCurrency (u64 i) (u64 (i / 2 ^ 64))) = i.
Proof.
  intros Hi. rewrite NewCurrency_Big by apply u64_range. change (2 ^ 64)%Z with two64. unfold u64.
  assert (two128 = two64 * two64)%Z as H by reflexivity. assert (0 < two64)%Z as Hp by reflexivity.
  rewrite (Z.mod_small (i / two64)); [|split; [by apply Z.div_pos; lia|apply Z.div_lt_upper_bound; lia]].
  pose proof (Z.div_mod i two64 ltac:(lia)). lia.
Qed.

(** Converting a price keeps its value up to 10^8 hastings and the fraction of a
    hasting, or says that it does not fit 128 bits; with a positive rate there is no
    other outcome. *)
Theorem convert_currency_close (target rate : Decimal) :
  (0 <= dval target)%Q → (0 < dval rate)%Q →
  let exact := (dval target / dval rate * inject_Z (10 ^ 24))%Q in
  match ConvertCurrencyToSC target rate with
  | Ok c => (Qabs (inject_Z (Big c) - exact) <= inject_Z (10 ^ 8 + 1))%Q
  | Err e => e = EMsg "currency overflow" ∧ (inject_Z (2 ^ 128 - 10 ^ 8) <= exact)%Q
  | Panic => False
  end.
Proof.
  intros Ht Hr exact. assert (¬ (dval rate == 0)%Q) as Hz by (intros H; rewrite H in Hr; by apply Qlt_irrefl in Hr).
  unfold ConvertCurrencyToSC. destruct (dIsZero rate) eqn:Ez; [by apply dIsZero_val in Ez|].
  destruct (dDiv_val target rate Hz) as (q & -> & Hq & Hq0). specialize (Hq0 Ht Hr). cbn [mbind result_bind].
  set (x := dMul q (dNew 1 24)).
  assert (dval x == dval q * inject_Z (10 ^ 24))%Q as Hx.
  { unfold x. rewrite dMul_val, (dNew_val 1 24) by lia. by rewrite Z.mul_1_l. }
  assert (0 <= dval x)%Q as Hx0 by (rewrite Hx; apply Qmult_le_0_compat; [done|discriminate]).
  assert (Qabs (dval x - exact) <= inject_Z (10 ^ 8))%Q as Hd.
  { assert (dval x - exact == (dval q - dval target / dval rate) * inject_Z (10 ^ 24))%Q as -> by (rewrite Hx; unfold exact; ring).
    rewrite Qabs_Qmult. assert (inject_Z (10 ^ 8) == (1 # 10 ^ 16) * Qabs (inject_Z (10 ^ 24)))%Q as -> by reflexivity.
    apply Qmult_le_compat_r; [done|apply Qabs_nonneg]. }
  rewrite dBigInt_val by done. pose proof (Qfloor_le (dval x)) as Hf1. clearbody exact. pose proof (Qlt_floor (dval x)) as Hf2.
  set (i := Qfloor (dval x)) in *.
  assert (0 ≤ i)%Z as Hi by (apply (Qfloor_resp_le 0), Hx0).
  apply Qabs_Qle_condition in Hd as [Hd1 Hd2]. rewrite inject_Z_plus in Hf2.
  rewrite (proj2 (Z.ltb_ge _ _)) by done. destruct (Z.leb_spec (2 ^ 128) i) as [Hov|Hfit].
  - split; [done|]. rewrite Zle_Qle in Hov. unfold Z.sub. rewrite inject_Z_plus, inject_Z_opp. lra.
  - rewrite NewCurrency_split by (change two128 with (2 ^ 128)%Z; lia).
    cbv beta iota. rewrite Qabs_Qle_condition, inject_Z_plus. change (inject_Z 1) with 1%Q in *. split; lra.
Qed.

(** *** The window of rates *)

Lemma push_rate_last (m : Z) (l : list Decimal) r :
  (1 ≤ m)%Z → (Z.of_nat (length l) ≤ m)%Z →
  push_rate m l r = drop (length (l ++ [r]) - Z.to_nat m) (l ++ [r]) ∧ (1 ≤ Z.of_nat (length (push_rate m l r)) ≤ m)%Z.
Proof.
  intros Hm Hl. unfold push_rate. rewrite length_app. simpl.
  destruct (Z.ltb_spec m (Z.of_nat (length l + 1))) as [Hlt|Hge].
  - replace (length l + 1 - Z.to_nat m) with 1 by lia. destruct l as [|x l]; simpl in *; [lia|]. rewrite drop_0. split; [done|].
    rewrite length_app. simpl. lia.
  - replace (length l + 1 - Z.to_nat m) with 0 by lia. rewrite drop_0, length_app. simpl. split; [done|lia].
Qed.

(** The rates of a run of [addRate], in one currency. *)
Fixpoint add_rates (rateWindow updatePriceFrequency : Z) (cur : string) (l : list float64) (st : rate_state) : result (list bool * rate_state) :=
  match l with
  | [] => Ok ([], st)
  | r :: l =>
      p ← addRate rateWindow updatePriceFrequency cur r st;
      q ← add_rates rateWindow updatePriceFrequency cur l p.2;
      mret (p.1 :: q.1, q.2)
  end.

Definition within (n : Q) (a b : Q) : Prop := (Qabs (a - b) <= n)%Q.

Lemma foldl_dAdd_val (l : list Decimal) a :
  (dval (foldl dAdd a l) == dval a + foldr (λ d, Qplus (dval d)) 0 l)%Q.
Proof.
  revert a. induction l as [|x l IH]; intros a; simpl; [ring|]. rewrite IH, dAdd_val. ring.
Qed.

Lemma addRate_spec w f cur r st :
  let m := Z.quot w f in
  let l := push_rate m (if String.eqb (currency st) cur then rates st else []) (dNewFromFloat r) in
  (1 ≤ m)%Z → (Z.of_nat (length (rates st)) ≤ m)%Z →
  ∃ b avg, addRate w f cur r st = Ok (b, mkRates l avg cur) ∧
    within (1 # 10 ^ 16) (dval avg) (foldr (λ d, Qplus (dval d)) 0 l / inject_Z (Z.of_nat (length l)))%Q ∧
    (b = true ↔ (dval (average st) * dval (dNewFromFloat priceUpdateThreshold) <= Qabs (dval (average st) - dval avg))%Q).
Proof.
  intros m l Hm Hlen. assert (1 ≤ Z.of_nat (length l) ≤ m)%Z as Hl.
  { apply (push_rate_last m); [done|]. destruct (String.eqb (currency st) cur); [done|simpl; lia]. }
  unfold addRate. fold m. fold l.
  assert (¬ (dval (dNewFromInt (Z.of_nat (length l))) == 0)%Q) as Hz.
  { rewrite dNewFromInt_val. intros H. assert (Z.of_nat (length l) = 0)%Z; [|lia]. by apply (proj1 (inject_Z_injective _ 0)). }
  destruct (dDiv_val (foldl dAdd dZero l) _ Hz) as (avg & -> & Ha & _). cbn [mbind result_bind].
  eexists _, avg. split; [done|]. split.
  - unfold within. rewrite foldl_dAdd_val, dZero_val, dNewFromInt_val, Qplus_0_l in Ha. exact Ha.
  - by rewrite dGte_val, dAbs_val, dSub_val, dMul_val.
Qed.

(** After any rates in one currency the manager has the last ones, as many as the
    update interval fits the window; rates of another currency are forgotten. Its
    average is the mean of those, to sixteen digits, and the last call asked for an
    update of the prices exactly if the average moved by the threshold from the
    average before that call. *)
Theorem rate_window (w f : Z) (cur : string) (l : list float64) (r : float64) (st : rate_state) :
  (1 ≤ Z.quot w f)%Z → (Z.of_nat (length (rates st)) ≤ Z.quot w f)%Z →
  let old := if String.eqb (currency st) cur then rates st else [] in
  let all := old ++ (dNewFromFloat <$> l ++ [r]) in
  ∃ bs st0 b st',
    add_rates w f cur l st = Ok (bs, st0) ∧ addRate w f cur r st0 = Ok (b, st') ∧ currency st' = cur ∧
    rates st' = drop (length all - Z.to_nat (Z.quot w f)) all ∧
    within (1 # 10 ^ 16) (dval (average st')) (foldr (λ d, Qplus (dval d)) 0 (rates st') / inject_Z (Z.of_nat (length (rates st'))))%Q ∧
    (b = true ↔ (dval (average st0) * dval (dNewFromFloat priceUpdateThreshold) <= Qabs (dval (average st0) - dval (average st')))%Q).
Proof.
  intros Hm. set (m := Z.quot w f) in *. revert st. induction l as [|x l IH]; intros st Hlen; cbv zeta.
  - destruct (addRate_spec w f cur r st Hm Hlen) as (b & avg & E & Ha & Hb). eexists [], st, b, _.
    split; [done|]. split; [exact E|]. split; [done|]. split; [|done]. cbn [rates app fmap list_fmap].
    apply push_rate_last; [done|]. destruct (String.eqb (currency st) cur); [done|simpl; lia].
  - destruct (addRate_spec w f cur x st Hm Hlen) as (b & avg & E & _). set (old := if String.eqb (currency st) cur then rates st else []) in *.
    fold m in E. assert (Z.of_nat (length old) ≤ m)%Z as Hold by (unfold old; destruct (String.eqb _ _); [done|simpl; lia]).
    destruct (push_rate_last m old (dNewFromFloat x) Hm Hold) as [Hp Hpl].
    destruct (IH (mkRates (push_rate m old (dNewFromFloat x)) avg cur)) as (bs & st0 & b' & st' & H1 & H2 & H3 & H4 & H5); [simpl; lia|].
    exists (b :: bs), st0, b', st'. cbn [add_rates]. rewrite E. cbn [mbind result_bind snd fst]. rewrite H1.
    split_and!; [done|done|done| |apply H5..].
    rewrite H4. cbn [currency rates]. rewrite String.eqb_refl, Hp. rewrite !fmap_app, !fmap_cons, !fmap_nil.
    set (k := length (old ++ [dNewFromFloat x]) - Z.to_nat m). set (t := (dNewFromFloat <$> l) ++ [dNewFromFloat r]).
    replace (old ++ (dNewFromFloat x :: (dNewFromFloat <$> l)) ++ [dNewFromFloat r]) with ((old ++ [dNewFromFloat x]) ++ t)
      by (unfold t; by rewrite <-!app_assoc).
    assert (k ≤ length (old ++ [dNewFromFloat x])) as Hk by (unfold k; lia).
    rewrite <-(drop_app_le _ t) by done. rewrite length_drop, drop_drop. f_equal. rewrite length_app in *. unfold k in *. lia.
Qed.

(** *** The settings that are written *)

Lemma pinned_price_spec name pin rate divide old v :
  pinned_price name pin rate divide old = Ok v →
  if Pin_Enabled pin then ∃ p, ConvertCurrencyToSC (dNewFromFloat pin) (dNewFromFloat rate) = Ok p ∧ divide p = Ok v else v = old.
Proof.
  unfold pinned_price. destruct (Pin_Enabled pin); [|congruence].
  destruct (ConvertCurrencyToSC _ _) as [p|e|]; [|done..]. eauto.
Qed.

Lemma per_byte_Big p v : per_byte p = Ok v → Big v = (Big p / oneTB)%Z.
Proof. intros H. by apply Div64_inv in H. Qed.
Lemma per_byte_block_Big p v : per_byte_block p = Ok v → Big v = (Big p / oneTB / oneMonth)%Z.
Proof.
  unfold per_byte_block. intros H. apply bind_ok in H as (q & Hq & H).
  apply Div64_inv in Hq; [|done..]. apply Div64_inv in H; [|done..]. congruence.
Qed.

(** The settings that are written have the price of every enabled pin at the
    current rate, per byte or per byte and block, rounded down; the settings whose
    pin is not enabled and the protocol version stay as they are. *)
Theorem pinned_settings_exact (pins : PinnedSettings) (rate : float64) (old new : UsabilitySettings) :
  pinned_settings pins rate old = Ok new →
  let converted (pin : Pin) (before after : Currency) (unit : Z → Z) :=
    if Pin_Enabled pin
    then ∃ p, ConvertCurrencyToSC (dNewFromFloat pin) (dNewFromFloat rate) = Ok p ∧ Big after = unit (Big p)
    else after = before in
  converted (Pin_MaxEgress pins) (MaxEgressPrice old) (MaxEgressPrice new) (λ p, p / 10 ^ 12)%Z ∧
  converted (Pin_MaxIngress pins) (MaxIngressPrice old) (MaxIngressPrice new) (λ p, p / 10 ^ 12)%Z ∧
  converted (Pin_MaxStorage pins) (MaxStoragePrice old) (MaxStoragePrice new) (λ p, p / 10 ^ 12 / 4320)%Z ∧
  converted (Pin_MinCollateral pins) (MinCollateral old) (MinCollateral new) (λ p, p / 10 ^ 12 / 4320)%Z ∧
  MinProtocolVersion new = MinProtocolVersion old.
Proof.
  intros H. unfold pinned_settings in H. apply bind_ok in H as (e & He & H). apply bind_ok in H as (i & Hi & H).
  apply bind_ok in H as (s & Hs & H). apply bind_ok in H as (c & Hc & H). injection H as <-.
  apply pinned_price_spec in He, Hi, Hs, Hc. cbv zeta. cbn [MaxEgressPrice MaxIngressPrice MaxStoragePrice MinCollateral MinProtocolVersion].
  split_and!; [..|done].
  - destruct (Pin_Enabled (Pin_MaxEgress pins)); [|done]. destruct He as (p & ? & ?%per_byte_Big). eauto.
  - destruct (Pin_Enabled (Pin_MaxIngress pins)); [|done]. destruct Hi as (p & ? & ?%per_byte_Big). eauto.
  - destruct (Pin_Enabled (Pin_MaxStorage pins)); [|done]. destruct Hs as (p & ? & ?%per_byte_block_Big). eauto.
  - destruct (Pin_Enabled (Pin_MinCollateral pins)); [|done]. destruct Hc as (p & ? & ?%per_byte_block_Big). eauto.
Qed.
End pins.

(** ** Concrete instances *)

Module PinsWitness.
#[local] Existing Instances U128.ops U128.laws TestRhp.ops.

(** Rational numbers as decimals; division keeps sixteen digits. *)
Definition float_Q (f : float64) : Q :=
  match f with
  | S754_finite s m e =>
      let v := if (0 <=? e)%Z then inject_Z (Z.pos m * 2 ^ e) else (Z.pos m # Z.to_pos (2 ^ (- e)))%Q in
      if s : bool then Qopp v else v
  | S754_infinity false => 1%Q
  | _ => 0%Q
  end.

Definition cut (x : Q) : Q := Qred (Qfloor (x * inject_Z (10 ^ 16)) # 10 ^ 16)%Q.

#[local] Instance decimal : DecimalOps := {|
  Decimal := Q;
  dZero := 0%Q;
  dNewFromFloat f := Qred (float_Q f);
  dNewFromInt := inject_Z;
  dNew v e := inject_Z (v * 10 ^ e);
  dAdd a b := Qred (a + b)%Q;
  dSub a b := Qred (a - b)%Q;
  dMul a b := Qred (a * b)%Q;
  dDiv a b := if Qeq_bool b 0 then Panic else Ok (cut (a / b)%Q);
  dAbs := Qabs;
  dGreaterThanOrEqual a b := Qle_bool b a;
  dIsZero a := Qeq_bool a 0;
  dBigInt a := if Qle_bool 0 a then Qfloor a else (- Qfloor (- a)%Q)%Z |}.

Lemma cut_close x : (Qabs (cut x - x) <= 1 # 10 ^ 16)%Q ∧ (0 <= x → 0 <= cut x)%Q.
Proof.
  unfold cut. rewrite Qred_correct. set (y := (x * inject_Z (10 ^ 16))%Q).
  assert ((Qfloor y # 10 ^ 16) == inject_Z (Qfloor y) * (1 # 10 ^ 16))%Q as -> by (unfold Qeq; simpl; lia).
  assert (x == y * (1 # 10 ^ 16))%Q as Hx by (unfold y; rewrite <-Qmult_assoc; setoid_rewrite <-(Qmult_1_r x) at 1; by apply Qmult_comp).
  assert (0 <= x → 0 <= y)%Q as Hy by (intros H0; unfold y; by apply Qmult_le_0_compat). clearbody y.
  pose proof (Qfloor_le y) as H1. pose proof (Qlt_floor y) as H2. rewrite inject_Z_plus in H2. split.
  - rewrite Hx. apply (proj2 (Qabs_Qle_condition _ _)). set (z := inject_Z (Qfloor y)) in *. clearbody z. change (inject_Z 1) with 1%Q in H2. change (10 ^ 16)%positive with 10000000000000000%positive. split; lra.
  - intros H0. apply Qmult_le_0_compat; [|discriminate]. rewrite <-(Zle_Qle 0). by apply (Qfloor_resp_le 0), Hy.
Qed.

#[local] Instance decimal_laws : DecimalLaws decimal.
Proof.
  refine {| dval (q : @Decimal decimal) := q : Q |}; simpl.
  - reflexivity.
  - intros z. reflexivity.
  - intros v e _. reflexivity.
  - intros f Hf. rewrite Qred_correct. destruct f as [s|[]| |[] m e]; try (vm_compute in Hf; discriminate); [done|].
    simpl. destruct (0 <=? e)%Z eqn:He; [|done]. rewrite <-(Zlt_Qlt 0). pose proof (Z.pow_pos_nonneg 2 e). lia.
  - intros a b. apply Qred_correct.
  - intros a b. apply Qred_correct.
  - intros a b. apply Qred_correct.
  - intros a b Hb. destruct (Qeq_bool b 0) eqn:E; [by apply Qeq_bool_iff in E|]. eexists. split; [done|].
    destruct (cut_close (a / b)) as [H1 H2]. split; [done|]. intros Ha Hpos. apply H2.
    apply Qmult_le_0_compat; [done|]. by apply Qlt_le_weak, Qinv_lt_0_compat.
  - reflexivity.
  - intros a b. apply Qle_bool_iff.
  - intros a. apply Qeq_bool_iff.
  - intros a Ha. by rewrite (proj2 (Qle_bool_iff 0 a) Ha).
Defined.

#[local] Instance new_currency : NewCurrencyOps := {| NewCurrency lo hi := U128.wrapped (lo + two64 * hi) |}.
#[local] Instance new_currency_laws : NewCurrencyLaws new_currency.
Proof.
  split. intros lo hi Hlo Hhi. unfold is_u64 in *. simpl. apply Z.mod_small. unfold two64, two128 in *. lia.
Qed.

Example convert_currency_close_witness :
  (Qabs (inject_Z (3 * 10 ^ 26) - 1.5 / 0.005 * inject_Z (10 ^ 24)) <= inject_Z (10 ^ 8 + 1))%Q.
Proof. exact (convert_currency_close 1.5%Q 0.005%Q ltac:(discriminate) ltac:(reflexivity)). Defined.

Definition no_rates : rate_state := mkRates [] 0%Q "".

Example rate_window_witness :
  ∃ bs st0 b st', add_rates 10 5 "usd" [of_int 1; of_int 3] no_rates = Ok (bs, st0) ∧
    addRate 10 5 "usd" (of_int 5) st0 = Ok (b, st') ∧ rates st' = [3; 5]%Q.
Proof.
  destruct (rate_window 10 5 "usd" [of_int 1; of_int 3] (of_int 5) no_rates) as (bs & st0 & b & st' & H1 & H2 & _ & H4 & _);
    [vm_compute; congruence|vm_compute; congruence|]. exists bs, st0, b, st'. split; [exact H1|]. split; [exact H2|].
  rewrite H4. vm_compute. reflexivity.
Defined.

Definition one : @Currency U128.ops := U128.wrapped 1.
Definition old : UsabilitySettings := mkUsability one one one one 500%Z.
(** Only the egress price is pinned, at 2 of the currency per terabyte. *)
Definition pins : PinnedSettings := mkPins "usd" (of_int 2) (of_int 0) (of_int 0) (of_int 0).
Definition new : UsabilitySettings := mkUsability (U128.wrapped (4 * 10 ^ 12)) one one one 500%Z.

Lemma pinned : pinned_settings pins (of_decimal 5 1) old = Ok new.
Proof.
  unfold pinned_settings, pinned_price. change (Pin_Enabled (Pin_MaxEgress pins)) with true.
  change (Pin_Enabled (Pin_MaxIngress pins)) with false. change (Pin_Enabled (Pin_MaxStorage pins)) with false.
  change (Pin_Enabled (Pin_MinCollateral pins)) with false. cbv iota.
  destruct (Div64_ok (C:=U128.ops) (U128.wrapped (4 * 10 ^ 24)) oneTB ltac:(done) ltac:(done)) as (e & He & Hv).
  assert (ConvertCurrencyToSC (dNewFromFloat (Pin_MaxEgress pins)) (dNewFromFloat (of_decimal 5 1)) = Ok (U128.wrapped (4 * 10 ^ 24))) as ->.
  { vm_compute. reflexivity. }
  unfold per_byte. rewrite He. cbn [mbind result_bind]. unfold new, mret, result_ret. do 2 f_equal.
  apply (Big_inj (C:=U128.ops)). rewrite Hv. vm_compute. reflexivity.
Qed.

Example pinned_settings_exact_witness : MaxIngressPrice new = MaxIngressPrice old.
Proof. exact (proj1 (proj2 (pinned_settings_exact pins (of_decimal 5 1) old new pinned))). Defined.

(** With the default window of 72 rates the price of the currency can double without
    an update: every average is less than 2% from the one before. *)
Definition doubled : list float64 := repeat (of_int 1) 72 ++ repeat (of_int 2) 72.
Example double_unnoticed :
  match add_rates (6 * Hour) (5 * Minute) "usd" doubled no_rates with
  | Ok (bs, st) => bs = true :: repeat false 143 ∧ average st = 2%Q
  | _ => False
  end.
Proof. vm_compute. split; reflexivity. Qed.
End PinsWitness.
