(* ===== verification/Form.v ===== *)
(** * Forming and refreshing contracts (src/contracts/form.go)

    A formation pass looks at every contract of the usable hosts, picks the best
    one of each host, refreshes or replaces those that are not good, and forms
    contracts with new hosts until there are enough. [performContractFormation]
    keeps its closures' variables in a record of locals; the order in which Go
    visits a map is a parameter. *)

From S2P Require Import Prelude External Float Hosts Contract Accounts Revision Funder Funding Deps.

(** ** One contract *)

Section form.
#[local] Open Scope go_scope.
Context {C : CurrencyOps} {R : RhpOps} {V : V2.Methods} {T : TxnSetOps}.
Context {S : Type} {AM : AccountManager S} {RS : RevisionStore S} {LC : LatestRevisionClient S} {CT : ChainTip S}.
Context {LO : LockOps S} {BL : BlockingLock S} {HD : HostsDep S} {FS : FormStore S} {FC : FormClient S}.

(** [RevisionManager.buffer] and [ContractManager.renterKey] *)
Variable buffer : Z.
Variable renterKey : PublicKey.

(** [set.Transactions[len(set.Transactions)-1].MinerFee] *)
Definition lastMinerFee (set : TxnSet) : result Currency := of_option (last (MinerFees set)).

Definition formContract (host : PublicKey) (period : Z) (fundTarget : Currency) : M S unit :=
  hm_WithScannedHost host (λ host,
    if negb (IsGood host) then throw (EMsg "host is not good")
    else
      let* '(allowance, collateral) := lift (contractFunding (Host.Settings host) 0 fundTarget (u64 (period + ProofWindow))) in
      let* address := wallet_Address in
      let* height := gets tipHeight in
      let* res := wrapM "failed to form contract: " (client_FormContract
        (mkFormParams (Host.PublicKey host) (WalletAddress (Host.Settings host)) renterKey address allowance collateral (u64 (height + period)))) in
      (* a failed broadcast is only logged *)
      let* _ := try (wallet_BroadcastTxnSet (res_Set res)) in
      let* minerFee := lift (lastMinerFee (res_Set res)) in
      wrapM "failed to add formed contract: " (fs_AddFormedContract (Host.PublicKey host) (CR_ID (res_Contract res))
        (CR_Revision (res_Contract res)) (ContractPrice (Prices (Host.Settings host))) allowance minerFee (res_Usage res))).

(** The collateral a refresh asks for: capped so that the total stays within the
    host's maximum. *)
Definition cappedCollateral (settings : HostSettings) (rev : V2.FileContract) (collateral : Currency) : result Currency :=
  totalCollateral ← (if (VersionCmp (ProtocolVersion settings) ProtocolVersion502 >=? 0)%Z
    then risked ← V2.RiskedCollateral rev; cAdd risked collateral
    else cAdd (V2.TotalCollateral rev) collateral);
  if cGt totalCollateral (MaxCollateral settings) then
    risked ← V2.RiskedCollateral rev;
    let '(capped, underflow) := SubWithUnderflow (MaxCollateral settings) risked in
    mret (if underflow : bool then ZeroCurrency else capped)
  else mret collateral.

(** The closure of [refreshContract]; its result is the variable [res]. *)
Definition refresh_revise (host : Host) (fundTarget : Currency) (duration : Z) (rev : ContractRevision) :
    M (S * option FormResult) (ContractRevision * Usage) :=
  if (VersionCmp (ProtocolVersion (Host.Settings host)) ProtocolVersion500 <? 0)%Z
  then throw (EMsg "host does not support contract refresh")
  else
    let* '(allowance, collateral) := lift (contractFunding (Host.Settings host) (V2.Filesize (CR_Revision rev)) fundTarget duration) in
    let* capped := lift (cappedCollateral (Host.Settings host) (CR_Revision rev) collateral) in
    let* res := lift1 (client_RefreshContract rev allowance capped) in
    set_local (λ _, Some res) ;;
    mret (rev, res_Usage res).

Definition refreshContract (contract : Contract) (fundTarget : Currency) : M S unit :=
  hm_WithScannedHost (HostKey contract) (λ host,
    if negb (IsGood host) then throw (EMsg "host is not good")
    else if (ProofHeight contract <=? TipHeight (Prices (Host.Settings host)))%Z
    then throw (EMsg "contract is expired and cannot be refreshed")
    else
      let duration := u64 (ExpirationHeight contract - TipHeight (Prices (Host.Settings host))) in
      with_lock (ID contract) (
        let* '(_, res) := wrapM "failed to refresh contract: " (with_locals None
          (WithRevision buffer (ID contract) (refresh_revise host fundTarget duration))) in
        let* res := lift (of_option res) in
        let* _ := try (wallet_BroadcastTxnSet (res_Set res)) in
        let* minerFee := lift (lastMinerFee (res_Set res)) in
        wrapM "failed to store refreshed contract: " (fs_AddRenewedContract (ID contract) (CR_ID (res_Contract res))
          (CR_Revision (res_Contract res)) (ContractPrice (Prices (Host.Settings host))) minerFee (res_Usage res)))).

(** ** Choosing a contract per host *)

Record candidateContract := mkCandidate {
  cc_host : Host;
  cc_contract : Contract;
  goodForRefresh : option error;
  goodForFunding : option error;
  goodForAppend : option error }.

Definition isNil (e : option error) : bool := match e with None => true | Some _ => false end.

Definition shouldReplaceContract (current candidate : candidateContract) : bool :=
  if isNil (goodForAppend current) && isNil (goodForFunding current) then false
  else if isNil (goodForRefresh current) && negb (isNil (goodForRefresh candidate)) &&
    (negb (isNil (goodForAppend candidate)) || negb (isNil (goodForFunding candidate))) then false
  else if isNil (goodForAppend current) && negb (isNil (goodForAppend candidate)) &&
    negb (isNil (goodForRefresh candidate)) then false
  else if isNil (goodForFunding current) && negb (isNil (goodForFunding candidate)) &&
    negb (isNil (goodForRefresh candidate)) then false
  else true.

(** ** The pass *)

Record formLocals := mkFormLocals {
  hostsWithoutContracts : gmap PublicKey Host;
  hasStuckContract : gset PublicKey;
  hasGoodContract : gset PublicKey;
  formed : Z;
  refreshed : Z }.

Definition on_formed (hk : PublicKey) (l : formLocals) : formLocals :=
  mkFormLocals (delete hk (hostsWithoutContracts l)) (hasStuckContract l) ({[hk]} ∪ hasGoodContract l) (formed l + 1) (refreshed l).
Definition on_refreshed (hk : PublicKey) (l : formLocals) : formLocals :=
  mkFormLocals (delete hk (hostsWithoutContracts l)) (hasStuckContract l) ({[hk]} ∪ hasGoodContract l) (formed l) (refreshed l + 1).
Definition on_stuck (hk : PublicKey) (l : formLocals) : formLocals :=
  mkFormLocals (hostsWithoutContracts l) ({[hk]} ∪ hasStuckContract l) (hasGoodContract l) (formed l) (refreshed l).
Definition on_good (hk : PublicKey) (l : formLocals) : formLocals :=
  mkFormLocals (hostsWithoutContracts l) (hasStuckContract l) ({[hk]} ∪ hasGoodContract l) (formed l) (refreshed l).

Abbreviation MF := (M (S * formLocals)) (only parsing).

(** The two closures share their handling of the outcome. *)
Definition attempt (host : Host) (existingHost : bool) (op : Currency → M S unit) (success : formLocals → formLocals) : MF bool :=
  let* target := try (lift1 (ContractFundTarget host minAllowance)) in
  match target with
  | Err _ => mret false
  | Panic => panic
  | Ok target =>
      let* target := lift (Mul64 target 2) in
      let* err := try (lift1 (op target)) in
      match err with
      | Ok _ => set_local success ;; mret true
      | Err e =>
          if existingHost && errors_Is e ErrNotEnoughFunds then mret true
          else set_local (on_stuck (Host.PublicKey host)) ;; mret false
      | Panic => panic
      end
  end.

Definition try_form (period : Z) (host : Host) (existingHost : bool) : MF bool :=
  attempt host existingHost (formContract (Host.PublicKey host) period) (on_formed (Host.PublicKey host)).

Definition try_refresh (host : Host) (contract : Contract) (existingHost : bool) : MF bool :=
  if negb (Host.PublicKey host =? HostKey contract)%N then panic
  else attempt host existingHost (refreshContract contract) (on_refreshed (Host.PublicKey host)).

(** Maintaining the contract of one host: the number of good contracts. *)
Definition maintain_existing (period : Z) (good : Z) (entry : PublicKey * candidateContract) : MF Z :=
  let '(hostKey, cc) := entry in
  if isNil (goodForAppend cc) && isNil (goodForFunding cc) then
    set_local (on_good hostKey) ;; mret (good + 1)%Z
  else if isNil (goodForRefresh cc) then
    let* ok := try_refresh (cc_host cc) (cc_contract cc) true in
    mret (if ok : bool then good + 1 else good)%Z
  else
    let* ok := try_form period (cc_host cc) true in
    mret (if ok : bool then good + 1 else good)%Z.

Definition form_unpinnable (period : Z) (good : Z) (hostKey : PublicKey) : MF Z :=
  let* host := local (λ l, hostsWithoutContracts l !! hostKey) in
  match host with
  | None => mret good
  | Some host =>
      let* ok := try_form period host false in
      mret (if ok : bool then good + 1 else good)%Z
  end.

Context {MO : MathOps}.

(** The checks on a new host, in order. *)
Definition candidate_ok (us : UsabilitySettings) (set : SpacedSet) (host : Host) : result bool :=
  let prices := Prices (Host.Settings host) in
  if (RemainingStorage (Host.Settings host) <? minRemainingStorage)%Z then mret false
  else
    storage ← withinGougingLeeway (StoragePrice prices) (MaxStoragePrice us);
    if storage : bool then mret false
    else
      ingress ← withinGougingLeeway (IngressPrice prices) (MaxIngressPrice us);
      if ingress : bool then mret false
      else
        egress ← withinGougingLeeway (EgressPrice prices) (MaxEgressPrice us);
        if egress : bool then mret false
        else mret (CanAddHost set host).

(** The loop over the hosts without contracts: how many are still missing. *)
Fixpoint form_additional {X : Type} (us : UsabilitySettings) (form : Host → M X bool) (candidates : list Host)
    (set : SpacedSet) (additional : Z) : M X Z :=
  match candidates with
  | [] => mret additional
  | host :: candidates =>
      if (additional <=? 0)%Z then mret additional
      else
        let* ok := lift (candidate_ok us set host) in
        if negb ok then form_additional us form candidates set additional
        else
          let* done := form host in
          if done : bool then form_additional us form candidates (Add set host).1 (additional - 1)
          else form_additional us form candidates set additional
  end.

(** [ContractManager.minHostDistanceKm], and the order in which [range] visits
    the maps of the pass: the contracts to maintain, the hosts to space, the new
    hosts and the stuck hosts. *)
Variable minHostDistanceKm : float64.
Variable range_usable range_spaced : gmap PublicKey candidateContract → list (PublicKey * candidateContract).
Variable range_hosts : gmap PublicKey Host → list (PublicKey * Host).
Variable range_stuck : gset PublicKey → list PublicKey.

Definition formationBatchSize : Z := 100.

(** A page of hosts, then the pages of contracts. *)
Definition collect_hosts (fuel : nat) : M S (option (gmap PublicKey Host)) :=
  pages fuel formationBatchSize 0
    (λ offset, wrapM "failed to fetch hosts to form contracts with: " (hm_Hosts offset formationBatchSize [WithUsable true; WithBlocked false]))
    (λ m h, mret (<[Host.PublicKey h := h]> m)) ∅.

Definition evaluate (settings : MaintenanceSettings) (height : Z) (target : Currency) (host : Host) (contract : Contract) :
    result candidateContract :=
  refresh ← GoodForRefresh contract (Host.Settings host) target (RenewWindow settings) height (Period settings);
  append ← GoodForAppend contract (Host.Settings host) (RenewWindow settings) height (Period settings);
  mret (mkCandidate host contract refresh (GoodForAccountFunding contract target) append).

(** The best candidate per host, and the hosts without contracts. *)
Definition consider (settings : MaintenanceSettings) (height : Z) (hostMap : gmap PublicKey Host)
    (acc : gmap PublicKey candidateContract * gmap PublicKey Host) (contract : Contract) :
    M S (gmap PublicKey candidateContract * gmap PublicKey Host) :=
  let '(usable, without) := acc in
  match hostMap !! HostKey contract with
  | None => mret (usable, without)
  | Some host =>
      let without := delete (HostKey contract) without in
      let* target := wrapM "failed to get fund target: " (ContractFundTarget host minAllowance) in
      let* candidate := lift (evaluate settings height target host contract) in
      let usable := match usable !! HostKey contract with
                    | Some current => if shouldReplaceContract current candidate then <[HostKey contract := candidate]> usable else usable
                    | None => <[HostKey contract := candidate]> usable
                    end in
      mret (usable, without)
  end.

Definition collect_contracts (fuel : nat) (settings : MaintenanceSettings) (height : Z) (hostMap : gmap PublicKey Host) :
    M S (option (gmap PublicKey candidateContract * gmap PublicKey Host)) :=
  pages fuel formationBatchSize 0
    (λ offset, wrapM "failed to fetch active contracts: " (fs_Contracts offset formationBatchSize [WithRevisable true]))
    (consider settings height hostMap) (∅, hostMap).

(** Everything after the evaluation, and the number of contracts still missing. *)
Definition maintain (settings : MaintenanceSettings) (usableHostContracts : gmap PublicKey candidateContract) : MF unit :=
  let* goodContracts := foldM (maintain_existing (Period settings)) 0%Z (range_usable usableHostContracts) in
  let* hwus := wrapM "failed to fetch hosts with unpinnable sectors: " (lift1 hm_HostsWithUnpinnableSectors) in
  let* goodContracts := foldM (form_unpinnable (Period settings)) goodContracts hwus in
  let* without := local hostsWithoutContracts in
  when ((goodContracts <? i64 (WantedContracts settings))%Z && bool_decide (without ≠ ∅)) (
    let* us := wrapM "failed to get usability settings: " (lift1 hm_UsabilitySettings) in
    let set := foldl (λ set e, (Add set (cc_host e.2)).1) (NewSpacedSet minHostDistanceKm) (range_spaced usableHostContracts) in
    let additional := i64 (i64 (WantedContracts settings) - goodContracts) in
    let* _ := form_additional us (λ host, try_form (Period settings) host false) (range_hosts without).*2 set additional in
    mret tt).

Definition stuckHosts (l : formLocals) : list PublicKey :=
  filter (λ hk, hk ∉ hasGoodContract l) (range_stuck (hasStuckContract l)).

Definition performContractFormation (fuel : nat) (settings : MaintenanceSettings) (height : Z) : M S (option unit) :=
  let* hostMap := collect_hosts fuel in
  match hostMap with
  | None => mret None
  | Some hostMap =>
      let* collected := collect_contracts fuel settings height hostMap in
      match collected with
      | None => mret None
      | Some (usable, without) =>
          let* '(_, l) := with_locals (mkFormLocals without ∅ ∅ 0 0) (maintain settings usable) in
          (* a failure of the update is only logged *)
          let* _ := try (fs_UpdateStuckHosts (stuckHosts l)) in
          mret (Some tt)
      end
  end.

End form.

(** ** Properties *)

Section properties.
#[local] Open Scope go_scope.
Context {C : CurrencyOps} {L : CurrencyLaws C} {R : RhpOps} {V : V2.Methods}.

(** The collateral of a refresh: from protocol 5.0.2 on, where a refreshed
    contract's total collateral is the risked collateral plus the new one, the
    total exceeds the host's maximum only when the risked collateral alone does
    (then nothing is added); the collateral is never more than asked for, and it
    is what was asked for whenever that fits. *)
Theorem capped_collateral_fits (settings : HostSettings) (rev : V2.FileContract) (collateral risked c : Currency) :
  (VersionCmp (ProtocolVersion settings) ProtocolVersion502 >= 0)%Z →
  V2.RiskedCollateral rev = Ok risked → cappedCollateral settings rev collateral = Ok c →
  (Big risked + Big c ≤ Z.max (Big risked) (Big (MaxCollateral settings)))%Z ∧ (Big c ≤ Big collateral)%Z ∧
  ((Big risked + Big collateral ≤ Big (MaxCollateral settings))%Z → c = collateral).
Proof.
  intros Hv Hr. unfold cappedCollateral. rewrite Hr. cbn [mbind result_bind].
  destruct (Z.geb_spec (VersionCmp (ProtocolVersion settings) ProtocolVersion502) 0); [|lia].
  intros (total & Ht%cAdd_inv & Hc)%bind_ok. rewrite cGt_spec in Hc.
  pose proof (Big_nonneg risked). pose proof (Big_nonneg collateral).
  destruct (Z.ltb_spec (Big (MaxCollateral settings)) (Big total)) as [Hgt|Hle].
  - destruct (SubWithUnderflow (MaxCollateral settings) risked) as [capped under] eqn:Es.
    destruct (Z.lt_ge_cases (Big (MaxCollateral settings)) (Big risked)) as [Hu|Hu].
    + pose proof (SubWithUnderflow_under _ _ Hu) as E. rewrite Es in E. simpl in E. subst under.
      injection Hc as <-. rewrite ZeroCurrency_Big. lia.
    + pose proof (SubWithUnderflow_ok _ _ Hu) as [E1 E2]. rewrite Es in E1, E2. simpl in E1, E2. subst under.
      injection Hc as <-. lia.
  - injection Hc as <-. split; [lia|]. split; [lia|done].
Qed.

(** *** The best contract of a host *)

Definition is_good (c : candidateContract) : bool := isNil (goodForAppend c) && isNil (goodForFunding c).
Definition is_refreshable (c : candidateContract) : bool := isNil (goodForRefresh c).
Definition is_usable (c : candidateContract) : bool := isNil (goodForAppend c) || isNil (goodForFunding c).

(** [c] is as good as any of [cs]. *)
Definition best (c : candidateContract) (cs : list candidateContract) : Prop :=
  c ∈ cs ∧ ((∃ x, x ∈ cs ∧ is_good x = true) → is_good c = true) ∧
  ((∃ x, x ∈ cs ∧ is_refreshable x = true) → is_good c = true ∨ is_refreshable c = true) ∧
  ((∃ x, x ∈ cs ∧ is_usable x = true) → is_usable c = true ∨ is_refreshable c = true).

Lemma best_single c : best c [c].
Proof.
  split; [by left|]. split_and!; intros (x & ->%list_elem_of_singleton & Hx); [done|by right|by left].
Qed.

Lemma best_snoc cur cs c : best cur cs → best (if shouldReplaceContract cur c then c else cur) (cs ++ [c]).
Proof.
  intros (Hin & Hg & Hr & Hu). unfold best.
  assert (∀ P : candidateContract → Prop, (∃ x, x ∈ cs ++ [c] ∧ P x) ↔ (∃ x, x ∈ cs ∧ P x) ∨ P c) as Hex.
  { intros P. split.
    - intros (x & [Hx| ->%list_elem_of_singleton]%elem_of_app & HP); eauto.
    - intros [(x & Hx & HP)|HP].
      + exists x. split; [|done]. apply elem_of_app. by left.
      + exists c. split; [|done]. apply elem_of_app. right. by apply list_elem_of_singleton. }
  rewrite !Hex. clear Hex. split.
  { apply elem_of_app. case_match; [right; by apply list_elem_of_singleton|by left]. }
  clear Hin. revert Hg Hr Hu.
  generalize (∃ x, x ∈ cs ∧ is_good x = true) (∃ x, x ∈ cs ∧ is_refreshable x = true) (∃ x, x ∈ cs ∧ is_usable x = true).
  intros G F U. destruct (shouldReplaceContract cur c) eqn:E; revert E; unfold shouldReplaceContract, is_good, is_refreshable, is_usable;
  destruct (isNil (goodForAppend cur)), (isNil (goodForFunding cur)), (isNil (goodForRefresh cur)),
    (isNil (goodForAppend c)), (isNil (goodForFunding c)), (isNil (goodForRefresh c)); simpl; try done; intuition congruence.
Qed.

Section selection.
Context {S : Type} {AM : AccountManager S} {FS : FormStore S}.
Variables (settings : MaintenanceSettings) (height : Z) (hostMap : gmap PublicKey Host).

(** Judged with a fund target that the account manager returned for the host. *)
Definition evaluated (host : Host) (c : candidateContract) : Prop :=
  ∃ target (s s' : S), ContractFundTarget host minAllowance s = (Ok target, s') ∧
    evaluate settings height target host (cc_contract c) = Ok c.

(** The outcome for one host after looking at [contracts]. *)
Definition chosen (contracts : list Contract) (hk : PublicKey)
    (usable : gmap PublicKey candidateContract) (without : gmap PublicKey Host) : Prop :=
  match hostMap !! hk with
  | None => usable !! hk = None ∧ without !! hk = None
  | Some host =>
      match filter (λ c, HostKey c = hk) contracts with
      | [] => usable !! hk = None ∧ without !! hk = Some host
      | own => without !! hk = None ∧ ∃ cur cands, usable !! hk = Some cur ∧ cc_contract <$> cands = own ∧
          Forall (evaluated host) cands ∧ best cur cands
      end
  end.

Lemma evaluate_contract target host contract c (s s' : S) :
  wrapM "failed to get fund target: " (ContractFundTarget host minAllowance) s = (Ok target, s') →
  evaluate settings height target host contract = Ok c → cc_contract c = contract ∧ evaluated host c.
Proof.
  intros Ht H. assert (cc_contract c = contract) as Hc.
  { unfold evaluate in H. apply bind_ok in H as (? & _ & (? & _ & [= <-])%bind_ok). done. }
  split; [done|]. apply wrapM_ok in Ht. exists target, s, s'. by rewrite Hc.
Qed.

Lemma consider_chosen pre usable without contract s acc' s' :
  (∀ hk, chosen pre hk usable without) → consider settings height hostMap (usable, without) contract s = (Ok acc', s') →
  ∀ hk, chosen (pre ++ [contract]) hk acc'.1 acc'.2.
Proof.
  intros Hinv Hc hk. specialize (Hinv hk). unfold chosen in *. unfold consider in Hc.
  rewrite filter_app, filter_cons, filter_nil.
  destruct (hostMap !! HostKey contract) as [host|] eqn:Eh.
  2: { injection Hc as <- <-. simpl. destruct (hostMap !! hk) as [h|] eqn:Ehk; [|done].
       rewrite decide_False by (intros E; congruence). by rewrite app_nil_r. }
  apply bindM_ok in Hc as (target & s1 & Ht & Hc). apply bindM_ok in Hc as (cand & s2 & Hev & Hc).
  injection Hev as Hev <-. injection Hc as <- <-. simpl. eapply evaluate_contract in Hev as [Hcc Hev]; [|exact Ht].
  destruct (decide (HostKey contract = hk)) as [<-|Hne].
  2: { rewrite app_nil_r, lookup_delete_ne by done.
       destruct (usable !! HostKey contract) as [cur|]; [destruct (shouldReplaceContract cur cand)|]; rewrite ?lookup_insert_ne by done; exact Hinv. }
  rewrite Eh in *. rewrite lookup_delete_eq. destruct (filter _ pre) as [|c own] eqn:Ef; simpl.
  - destruct Hinv as [-> _]. split; [done|]. exists cand, [cand]. rewrite lookup_insert_eq.
    split_and!; [done|by csimpl; rewrite Hcc|by constructor|apply best_single].
  - destruct Hinv as (_ & cur & cands & Hcur & Hown & Hall & Hbest). rewrite Hcur. split; [done|].
    exists (if shouldReplaceContract cur cand then cand else cur), (cands ++ [cand]). split_and!.
    + destruct (shouldReplaceContract cur cand); [apply lookup_insert_eq|done].
    + rewrite fmap_app, Hown. csimpl. by rewrite Hcc.
    + apply Forall_app. split; [done|by constructor].
    + by apply best_snoc.
Qed.

(** C39. What the evaluation of a formation pass chooses, for a store that pages
    through [contracts]. A host without contracts is left for new contracts. For
    any other usable host one contract is picked, and it is as good as any: good
    for uploading and funding if some contract of the host is; else refreshable
    if some is; else good for one of the two if some is. *)
Theorem collect_contracts_best (fuel : nat) (contracts : list Contract) (s s' : S)
    (usable : gmap PublicKey candidateContract) (without : gmap PublicKey Host) :
  (∀ offset s, (0 ≤ offset)%Z → fs_Contracts offset formationBatchSize [WithRevisable true] s =
    (Ok (take (Z.to_nat formationBatchSize) (drop (Z.to_nat offset) contracts)), s)) →
  (Z.of_nat (length contracts) < Z.of_nat fuel * formationBatchSize)%Z →
  collect_contracts fuel settings height hostMap s = (Ok (Some (usable, without)), s') →
  ∀ hk, chosen contracts hk usable without.
Proof.
  intros Hpages Hfuel Hc. unfold collect_contracts in Hc. rewrite (pages_all _ _ _ _ _ contracts) in Hc; [|done| |done].
  2: { intros offset s0 Ho. unfold wrapM. by rewrite Hpages. }
  apply bindM_ok in Hc as (acc & s1 & Hf & [= -> ->]). change (usable, without) with ((usable, without).1, (usable, without).2) in *.
  assert (∀ l pre acc s, (∀ hk, chosen pre hk acc.1 acc.2) → foldM (consider settings height hostMap) acc l s = (Ok (usable, without), s') →
    ∀ hk, chosen (pre ++ l) hk usable without) as Hgen.
  2: { apply (Hgen contracts [] (∅, hostMap) s); [|exact Hf]. intros hk. unfold chosen. simpl. simpl. rewrite ?lookup_empty.
       by destruct (hostMap !! hk). }
  clear. induction l as [|c l IH]; intros pre [u w] s Hinv Hf; simpl in Hf.
  - injection Hf as -> -> _. by rewrite app_nil_r.
  - apply bindM_ok in Hf as (acc & s1 & Hc & Hf). replace (pre ++ c :: l) with ((pre ++ [c]) ++ l) by by rewrite <-app_assoc.
    apply (IH _ acc s1); [|done]. by eapply consider_chosen.
Qed.

End selection.

(** *** Additional contracts *)

Lemma withinGougingLeeway_spec cost limit b :
  withinGougingLeeway cost limit = Ok b → b = (8 * Big limit <? 10 * Big cost)%Z.
Proof.
  unfold withinGougingLeeway. intros (c & Hc & (l & Hl & [= <-])%bind_ok)%bind_ok.
  apply Mul64_inv in Hc, Hl; [|done..]. rewrite cGt_spec. lia.
Qed.

(** What [form] reported, with the hosts it formed a contract with. *)
Definition logged {X} (form : Host → M X bool) (h : Host) : M (X * list Host) bool :=
  let* ok := lift1 (form h) in
  if ok : bool then set_local (λ l, l ++ [h]) ;; mret true else mret false.

(** A host that has storage left and whose prices are at most 80% of the limits. *)
Definition affordable (us : UsabilitySettings) (h : Host) : Prop :=
  let prices := Prices (Host.Settings h) in
  (minRemainingStorage ≤ RemainingStorage (Host.Settings h))%Z ∧
  (10 * Big (StoragePrice prices) ≤ 8 * Big (MaxStoragePrice us))%Z ∧
  (10 * Big (IngressPrice prices) ≤ 8 * Big (MaxIngressPrice us))%Z ∧
  (10 * Big (EgressPrice prices) ≤ 8 * Big (MaxEgressPrice us))%Z.

Context {MO : MathOps}.

Lemma candidate_ok_spec us set h b : candidate_ok us set h = Ok b → b = true → affordable us h ∧ CanAddHost set h = true.
Proof.
  unfold candidate_ok, affordable. destruct (Z.ltb_spec (RemainingStorage (Host.Settings h)) minRemainingStorage); [by intros [= <-]|].
  intros (b1 & H1%withinGougingLeeway_spec & Hk)%bind_ok. destruct b1; [by injection Hk as <-|].
  apply bind_ok in Hk as (b2 & H2%withinGougingLeeway_spec & Hk). destruct b2; [by injection Hk as <-|].
  apply bind_ok in Hk as (b3 & H3%withinGougingLeeway_spec & Hk). destruct b3; [by injection Hk as <-|].
  injection Hk as <-. intros ->. split; [|done]. split_and!; [done|symmetry in H1; apply Z.ltb_ge in H1|symmetry in H2; apply Z.ltb_ge in H2|symmetry in H3; apply Z.ltb_ge in H3]; lia.
Qed.

Lemma form_additional_log {X} us (form : Host → M X bool) candidates set additional x r x' acc :
  form_additional us form candidates set additional x = (Ok r, x') → (0 ≤ additional)%Z →
  ∃ log, form_additional us (logged form) candidates set additional (x, acc) = (Ok r, (x', acc ++ log)) ∧
    (0 ≤ r)%Z ∧ (r + Z.of_nat (length log) = additional)%Z ∧ sublist log candidates ∧
    Forall (affordable us) log ∧ (add_all set log).2 = log.
Proof.
  revert set additional x acc. induction candidates as [|h l IH]; intros set additional x acc; simpl.
  { intros [= -> ->] Ha. exists []. rewrite app_nil_r. split_and!; [done..|simpl; lia|apply sublist_nil_l|done|done]. }
  destruct (Z.leb_spec additional 0).
  { intros [= -> ->] Ha. exists []. rewrite app_nil_r. split_and!; [done..|simpl; lia|apply sublist_nil_l|done|done]. }
  intros (ok & x1 & Hok & Hk)%bindM_ok Ha. unfold lift in Hok. injection Hok as Hok <-.
  unfold bindM at 1, mbind, M_bind, lift. rewrite Hok. destruct ok; simpl in *.
  2: { destruct (IH set additional x acc Hk Ha) as (log & Hl & H0 & H1 & H2 & H3). exists log. split_and!; [done..|by apply sublist_cons|apply H3|apply H3]. }
  apply candidate_ok_spec in Hok as [Haff Hcan]; [|done].
  apply bindM_ok in Hk as (done & x2 & Hf & Hk). unfold bindM, mbind, M_bind, logged, lift1. unfold bindM, mbind, M_bind. rewrite Hf.
  destruct done; simpl in *.
  - destruct (IH (Add set h).1 (additional - 1)%Z x2 (acc ++ [h]) Hk) as (log & Hl & H0 & H1 & H2 & H3 & H4); [lia|].
    exists (h :: log). rewrite <-app_assoc in Hl. split_and!; [done..|cbn [length]; lia|by apply sublist_skip|by constructor|].
    simpl. unfold Add in *. rewrite Hcan in *. simpl in *. destruct (add_all _ log) as [s2 a2]. simpl in *. by subst.
  - destruct (IH set additional x2 acc Hk Ha) as (log & Hl & H0 & H1 & H2 & H3). exists log. split_and!; [done..|by apply sublist_cons|apply H3|apply H3].
Qed.

(** The contracts formed with new hosts: never more than are missing, and only
    with candidates that have 10 GiB of storage left, whose storage, ingress and
    egress prices are at most 80% of the configured limits, and that the spaced
    set still accepts after the existing hosts and the hosts formed before. *)
Theorem additional_contracts_spec {X} (us : UsabilitySettings) (form : Host → M X bool) (candidates : list Host)
    (set : SpacedSet) (additional r : Z) (x x' : X) :
  (0 ≤ additional)%Z → form_additional us form candidates set additional x = (Ok r, x') →
  ∃ hosts, form_additional us (logged form) candidates set additional (x, []) = (Ok r, (x', hosts)) ∧
    (0 ≤ r)%Z ∧ (r + Z.of_nat (length hosts) = additional)%Z ∧ sublist hosts candidates ∧
    Forall (affordable us) hosts ∧ (add_all set hosts).2 = hosts.
Proof. intros Ha Hf. exact (form_additional_log us form candidates set additional x r x' [] Hf Ha). Qed.

End properties.

Module FormWitness.
#[local] Existing Instances U128.ops U128.laws TestRhp.ops TestRhp.laws TestRhp.methods.
#[local] Existing Instances HostsWitness.math FundingWitness.accounts.
Abbreviation sc := ContractWitness.sc.
Abbreviation zero := ContractWitness.zero.

(** Host settings of a protocol version, with 1000 SC of maximum collateral. *)
Definition settings (version : Z) : HostSettings := mkSettings version 0%N (sc 1000) 1000000 ContractWitness.prices.
(** A revision with 900 SC of total collateral, none of it at risk. *)
Definition rev : V2.FileContract := V2.mk 0 0 2000 2144 5 (sc 10) (sc 900) 3%N.
Definition capped (version : Z) : U128.t := ContractWitness.unwrap zero (cappedCollateral (settings version) rev (sc 1500)).

Example capped_collateral_fits_witness :
  (0 + Big (capped 502) ≤ Z.max 0 (Big (sc 1000)))%Z ∧ (Big (capped 502) ≤ Big (sc 1500))%Z ∧
  ((0 + Big (sc 1500) ≤ Big (sc 1000))%Z → capped 502 = sc 1500).
Proof.
  apply (capped_collateral_fits (settings 502) rev (sc 1500) zero (capped 502)); [vm_compute; discriminate|reflexivity|].
  vm_compute. reflexivity.
Defined.

(** For hosts before 5.0.2, where a refresh adds to the total collateral, the cap
    still subtracts the risked collateral: the result exceeds the maximum. *)
Example capped_collateral_exceeds :
  (Big (MaxCollateral (settings 501)) <? Big (V2.TotalCollateral rev) + Big (capped 501))%Z = true.
Proof. vm_compute. reflexivity. Qed.

(** Two contracts of host 3: the first has no allowance left. *)
Definition contract (id : FileContractID) (allowance : Z) : Contract :=
  mkContract id 3%N 0 0%N 0 0 5 2000 2144 4194304 4194304 (sc 10) (sc allowance) (sc 20) 0%N (sc 1) zero zero
    true ContractStateActive (mkSpending zero zero zero zero).
Definition table : list Contract := [contract 7%N 0; contract 8%N 100; contract 9%N 0].
#[local] Instance store : FormStore FunderWitness.world := {|
  fs_Contracts offset limit _ := mret (take (Z.to_nat limit) (drop (Z.to_nat offset) table));
  fs_AddFormedContract _ _ _ _ _ _ _ := mret tt;
  fs_AddRenewedContract _ _ _ _ _ _ := mret tt;
  fs_UpdateStuckHosts _ := mret tt |}.
Definition ms : MaintenanceSettings := mkMaintenance true 6048 100 50.
Definition hostMap : gmap PublicKey Host := {[ 3%N := HostsWitness.host 3 0 0; 4%N := HostsWitness.host 4 50 50 ]}.
Definition run := collect_contracts 1 ms 900 hostMap FunderWitness.world0.
Definition outcome : gmap PublicKey candidateContract * gmap PublicKey Host :=
  match run.1 with Ok (Some p) => p | _ => (∅, ∅) end.

Lemma run_outcome : run = (Ok (Some (outcome.1, outcome.2)), run.2).
Proof.
  assert (match run.1 with Ok (Some _) => true | _ => false end = true) as H by (vm_compute; reflexivity).
  unfold outcome. destruct run as [[[[u w]|]|e|] s]; try discriminate H. reflexivity.
Qed.

Example collect_contracts_best_witness : chosen ms 900 hostMap table 3%N outcome.1 outcome.2.
Proof.
  apply (collect_contracts_best ms 900 hostMap 1 table FunderWitness.world0 run.2); [reflexivity|reflexivity|exact run_outcome].
Defined.

(** It is the second contract that is picked, and host 4 gets a new one. *)
Example collect_contracts_picks :
  (ID ∘ cc_contract <$> outcome.1 !! (3%N : PublicKey), Host.PublicKey <$> outcome.2 !! (4%N : PublicKey)) = (Some 8%N, Some 4%N).
Proof. vm_compute. reflexivity. Qed.

(** One contract is missing: host 3 is too close to host 2, host 1 is formed with. *)
Definition us : UsabilitySettings := mkUsability (sc 1) (sc 1) (sc 1) zero 500%Z.
Definition candidates : list Host := [HostsWitness.host 3 0 1; HostsWitness.host 1 50 50; HostsWitness.host 4 80 80].
Definition existing : SpacedSet := (Add (NewSpacedSet (of_int 200)) (HostsWitness.host 2 0 0)).1.
Definition form (h : Host) : M nat bool := λ n, (Ok true, n + 1).
Definition additional := form_additional us form candidates existing 1 0.

Example additional_contracts_spec_witness :
  ∃ hosts, form_additional us (logged form) candidates existing 1 (0, []) = (Ok 0%Z, (1, hosts)) ∧
    (0 ≤ 0)%Z ∧ (0 + Z.of_nat (length hosts) = 1)%Z ∧ sublist hosts candidates ∧
    Forall (affordable us) hosts ∧ (add_all existing hosts).2 = hosts.
Proof. apply (additional_contracts_spec us form candidates existing 1 0 0 1); [done|]. vm_compute. reflexivity. Defined.

End FormWitness.
