(* ===== verification/Renew.v ===== *)
(** * Renewing contracts (src/contracts/renew.go)

    A renewal pass renews the good contracts that are within the renew window of
    their proof height. Renewing an empty contract gives another empty one, so a
    host keeps at most one of those. *)

From S2P Require Import Prelude External Float Hosts Contract Accounts Revision Funder Funding Deps Form.

(** ** One contract *)

Section renew.
#[local] Open Scope go_scope.
Context {C : CurrencyOps} {R : RhpOps} {V : V2.Methods} {T : TxnSetOps}.
Context {S : Type} {AM : AccountManager S} {RS : RevisionStore S} {LC : LatestRevisionClient S} {CT : ChainTip S}.
Context {LO : LockOps S} {BL : BlockingLock S} {HD : HostsDep S} {FS : FormStore S} {FC : FormClient S}.

(** [RevisionManager.buffer] *)
Variable buffer : Z.

(** The collateral a renewal asks for, capped by the host's maximum for the
    contract the library estimates. *)
Definition renewCollateral (settings : HostSettings) (rev : V2.FileContract) (allowance collateral : Currency) (proofHeight : Z) :
    result Currency :=
  estimated ← proto_RenewContract rev (Prices settings) (WalletAddress settings) allowance collateral proofHeight;
  if cGt (V2.TotalCollateral estimated) (MaxCollateral settings) then
    risked ← V2.RiskedCollateral estimated;
    let '(capped, underflow) := SubWithUnderflow (MaxCollateral settings) risked in
    mret (if underflow : bool then ZeroCurrency else capped)
  else mret collateral.

(** The closure of [renewContract]; its result is the variable [res]. *)
Definition renew_revise (settings : HostSettings) (allowance collateral : Currency) (proofHeight : Z) (rev : ContractRevision) :
    M (S * option FormResult) (ContractRevision * Usage) :=
  let* capped := lift (renewCollateral settings (CR_Revision rev) allowance collateral proofHeight) in
  let* res := lift1 (client_RenewContract rev allowance capped proofHeight) in
  set_local (λ _, Some res) ;;
  mret (rev, res_Usage res).

Definition renewContract (contract : Contract) (proofHeight : Z) : M S unit :=
  hm_WithScannedHost (HostKey contract) (λ host,
    let* target := wrapM "failed to get fund target: " (ContractFundTarget host minAllowance) in
    let settings := Host.Settings host in
    if (TipHeight (Prices settings) >? proofHeight)%Z
    then throw (EMsg "cannot renew contract with proof height before tip height")
    else
      let duration := u64 (proofHeight + ProofWindow - TipHeight (Prices settings)) in
      let* target := lift (Mul64 target 2) in
      let* '(allowance, collateral) := lift (contractFunding settings (Size contract) target duration) in
      with_lock (ID contract) (
        let* '(_, res) := wrapM "failed to renew contract: " (with_locals None
          (WithRevision buffer (ID contract) (renew_revise settings allowance collateral proofHeight))) in
        let* res := lift (of_option res) in
        (* a failed broadcast is only logged *)
        let* _ := try (wallet_BroadcastTxnSet (res_Set res)) in
        let* minerFee := lift (lastMinerFee (res_Set res)) in
        wrapM "failed to store renewed contract: " (fs_AddRenewedContract (ID contract) (CR_ID (res_Contract res))
          (CR_Revision (res_Contract res)) (ContractPrice (Prices settings)) minerFee (res_Usage res)))).

End renew.

(** ** The pass *)

Section pass.
#[local] Open Scope go_scope.
Context {C : CurrencyOps}.

Definition renewalBatchSize : Z := 50.

(** Sorting a contract into the eligible ones, or the host's retained empty one. *)
Definition sort_eligible (minProofHeight : Z) (acc : list Contract * gset PublicKey) (contract : Contract) :
    list Contract * gset PublicKey :=
  let '(eligible, hostsWithActiveEmptyContract) := acc in
  if (ProofHeight contract >? minProofHeight)%Z then
    (eligible, if (Size contract =? 0)%Z then {[HostKey contract]} ∪ hostsWithActiveEmptyContract else hostsWithActiveEmptyContract)
  else (eligible ++ [contract], hostsWithActiveEmptyContract).

Section loops.
Context {X : Type} (fetch : Z → M X (list Contract)) (renew : Contract → M X unit).

Definition collect_eligible (fuel : nat) (minProofHeight : Z) : M X (option (list Contract * gset PublicKey)) :=
  pages fuel renewalBatchSize 0 fetch (λ acc contract, mret (sort_eligible minProofHeight acc contract)) ([], ∅).

(** A failed renewal is only logged. *)
Definition renew_one (hostsWithActiveEmptyContract : gset PublicKey) (contract : Contract) : M X (gset PublicKey) :=
  if (Size contract =? 0)%Z && bool_decide (HostKey contract ∈ hostsWithActiveEmptyContract)
  then mret hostsWithActiveEmptyContract
  else
    let* err := try (renew contract) in
    match err with
    | Err _ => mret hostsWithActiveEmptyContract
    | _ => mret (if (Size contract =? 0)%Z then {[HostKey contract]} ∪ hostsWithActiveEmptyContract else hostsWithActiveEmptyContract)
    end.

Definition renew_eligible (fuel : nat) (minProofHeight : Z) : M X (option unit) :=
  let* collected := collect_eligible fuel minProofHeight in
  match collected with
  | None => mret None
  | Some (eligible, hostsWithActiveEmptyContract) =>
      let* _ := foldM renew_one hostsWithActiveEmptyContract eligible in mret (Some tt)
  end.
End loops.

Context {R : RhpOps} {V : V2.Methods} {T : TxnSetOps}.
Context {S : Type} {AM : AccountManager S} {RS : RevisionStore S} {LC : LatestRevisionClient S} {CT : ChainTip S}.
Context {LO : LockOps S} {BL : BlockingLock S} {HD : HostsDep S} {FS : FormStore S} {FC : FormClient S}.
Variable buffer : Z.

Definition fetch_renewable (offset : Z) : M S (list Contract) :=
  wrapM "failed to fetch contracts for renewal: " (fs_Contracts offset renewalBatchSize [WithGood true; WithRevisable true]).

Definition performContractRenewals (fuel : nat) (period renewWindow : Z) : M S (option unit) :=
  let* bh := gets tipHeight in
  let minProofHeight := u64 (bh + renewWindow) in
  let newProofHeight := u64 (bh + period) in
  renew_eligible fetch_renewable (λ contract, renewContract buffer contract newProofHeight) fuel minProofHeight.

End pass.

(** ** Properties *)

Section properties.
#[local] Open Scope go_scope.
Context {C : CurrencyOps}.

Definition empty (c : Contract) : bool := (Size c =? 0)%Z.
Definition due (minProofHeight : Z) (c : Contract) : bool := (ProofHeight c <=? minProofHeight)%Z.

(** A renew function that also records every attempt and whether it succeeded. *)
Definition recorded {X} (renew : Contract → M X unit) (c : Contract) : M (X * list (Contract * bool)) unit :=
  let* r := try (lift1 (renew c)) in
  set_local (λ l, l ++ [(c, is_ok r)]) ;;
  lift r.

Lemma sort_eligible_all minProofHeight contracts eligible hosts :
  foldl (sort_eligible minProofHeight) (eligible, hosts) contracts =
    (eligible ++ filter (λ c, due minProofHeight c = true) contracts,
     foldl (λ hs c, {[HostKey c]} ∪ hs) hosts (filter (λ c, due minProofHeight c = false ∧ empty c = true) contracts)).
Proof.
  revert eligible hosts. induction contracts as [|c l IH]; intros eligible hosts; cbn [foldl]; [by rewrite app_nil_r|].
  rewrite !filter_cons. unfold sort_eligible at 2, due, empty.
  destruct (Z.gtb_spec (ProofHeight c) minProofHeight), (Z.leb_spec (ProofHeight c) minProofHeight); try lia.
  - rewrite IH. rewrite decide_False by done. destruct (Size c =? 0)%Z eqn:E.
    + rewrite decide_True by done. done.
    + rewrite decide_False by naive_solver. done.
  - rewrite IH, decide_True by done. rewrite decide_False by naive_solver. by rewrite <-app_assoc.
Qed.

Lemma elem_of_foldl_keys (l : list Contract) (hosts : gset PublicKey) h :
  h ∈ foldl (λ hs c, {[HostKey c]} ∪ hs) hosts l ↔ h ∈ hosts ∨ h ∈ HostKey <$> l.
Proof.
  revert hosts. induction l as [|c l IH]; intros hosts; csimpl; [set_solver|]. rewrite IH. set_solver.
Qed.

(** What the attempts keep: per host at most one empty contract. *)
Definition renewed_empty (h : PublicKey) (log : list (Contract * bool)) : list (Contract * bool) :=
  filter (λ a, HostKey a.1 = h ∧ empty a.1 = true ∧ a.2 = true) log.

Record outcome_ok (eligible : list Contract) (hosts : gset PublicKey) (log : list (Contract * bool)) : Prop := {
  ok_attempts : sublist log.*1 eligible;
  ok_data : filter (λ c, empty c = false) log.*1 = filter (λ c, empty c = false) eligible;
  ok_empty : ∀ h, length (renewed_empty h log) + (if bool_decide (h ∈ hosts) then 1 else 0) ≤ 1;
  ok_skip : ∀ c, c ∈ eligible → c ∈ log.*1 ∨ empty c = true ∧ (HostKey c ∈ hosts ∨ renewed_empty (HostKey c) log ≠ []) }.

Lemma renewed_empty_cons h c b log :
  renewed_empty h ((c, b) :: log) =
    if bool_decide (HostKey c = h) && empty c && b then (c, b) :: renewed_empty h log else renewed_empty h log.
Proof.
  unfold renewed_empty. rewrite filter_cons. simpl. destruct (decide (HostKey c = h)) as [Hh|Hh].
  - rewrite (bool_decide_eq_true_2 _ Hh). destruct (empty c), b; simpl; case_decide; naive_solver.
  - rewrite (bool_decide_eq_false_2 _ Hh). simpl. by rewrite decide_False by naive_solver.
Qed.

Lemma outcome_nil hosts : outcome_ok [] hosts [].
Proof.
  split; [done|done| |].
  - intros h. simpl. case_bool_decide; lia.
  - intros c Hc. by apply elem_of_nil in Hc.
Qed.

Lemma outcome_skip c l hosts log :
  empty c = true → HostKey c ∈ hosts → outcome_ok l hosts log → outcome_ok (c :: l) hosts log.
Proof.
  intros He Hin [H1 H2 H3 H4]. split.
  - by apply sublist_cons.
  - rewrite filter_cons, decide_False by congruence. done.
  - done.
  - intros y [->|Hy]%elem_of_cons; [right; by auto|]. destruct (H4 y Hy) as [?|[? ?]]; auto.
Qed.

Lemma outcome_attempt c b l hosts log :
  (empty c = true → HostKey c ∉ hosts) →
  outcome_ok l (if empty c && b then {[HostKey c]} ∪ hosts else hosts) log → outcome_ok (c :: l) hosts ((c, b) :: log).
Proof.
  intros Hni [H1 H2 H3 H4]. split.
  - by apply sublist_skip.
  - csimpl. rewrite !filter_cons. by destruct (decide (empty c = false)); rewrite H2.
  - intros h. specialize (H3 h). rewrite renewed_empty_cons. destruct (empty c && b) eqn:Eb.
    + rewrite <-andb_assoc, Eb, andb_true_r. apply andb_true_iff in Eb as [He _]. specialize (Hni He).
      destruct (decide (HostKey c = h)) as [<-|Hne].
      * rewrite (bool_decide_eq_true_2 (HostKey c = _)) by done. rewrite bool_decide_eq_true_2 in H3 by set_solver.
        rewrite bool_decide_eq_false_2 by done. simpl. lia.
      * rewrite (bool_decide_eq_false_2 (HostKey c = _)) by done. erewrite bool_decide_ext; [exact H3|]. set_solver.
    + by rewrite <-andb_assoc, Eb, andb_false_r.
  - intros y [->|Hy]%elem_of_cons; [left; csimpl; by left|]. destruct (H4 y Hy) as [?|[He Hor]]; [left; csimpl; by right|].
    right. split; [done|]. rewrite renewed_empty_cons. destruct Hor as [Hh|Hr]; [|right; destruct (bool_decide _ && _ && b); done].
    destruct (empty c && b) eqn:Eb; [|by left]. apply elem_of_union in Hh as [->%elem_of_singleton|Hh]; [|by left].
    right. by rewrite bool_decide_eq_true_2, <-andb_assoc, Eb by done.
Qed.

Lemma renew_all_ok {X} (renew : Contract → M X unit) eligible hosts x r x' log0 log1 :
  foldM (renew_one (recorded renew)) hosts eligible (x, log0) = (Ok r, (x', log1)) →
  ∃ log, log1 = log0 ++ log ∧ outcome_ok eligible hosts log.
Proof.
  revert hosts x log0. induction eligible as [|c l IH]; intros hosts x log0; simpl.
  { intros [= -> -> ->]. exists []. rewrite app_nil_r. split; [done|apply outcome_nil]. }
  intros (hosts' & [x1 l1] & Hone & Hrest)%bindM_ok. apply IH in Hrest as (log & -> & Hok). clear IH.
  unfold renew_one in Hone. fold (empty c) in Hone.
  destruct (empty c && bool_decide (HostKey c ∈ hosts)) eqn:Eskip.
  { injection Hone as -> -> ->. apply andb_true_iff in Eskip as [He Hin%bool_decide_eq_true_1].
    exists log. split; [done|by apply outcome_skip]. }
  assert (∃ b, hosts' = (if empty c && b then {[HostKey c]} ∪ hosts else hosts) ∧ l1 = log0 ++ [(c, b)]) as (b & -> & ->).
  { unfold bindM, mbind, M_bind, recorded, try, lift1 in Hone. unfold bindM, mbind, M_bind in Hone.
    destruct (renew c x) as [[[]|e|] x2]; simpl in Hone; simplify_eq/=.
    - exists true. injection Hone as <- _ <-. by rewrite andb_true_r.
    - exists false. injection Hone as <- _ <-. by rewrite andb_false_r. }
  exists ((c, b) :: log). rewrite <-app_assoc. split; [done|]. apply outcome_attempt; [|done].
  intros He. rewrite He in Eskip. by apply bool_decide_eq_false_1 in Eskip.
Qed.

(** A renewal pass over a store that pages through [contracts], whatever the
    renewals do. Attempted are only contracts that are due, each at most once,
    and every due contract that holds data. Empty ones: of one host at most one
    renewal succeeds, none if the host has an empty contract that is not due yet;
    and one is only passed over when the host keeps such a contract. *)
Theorem renewals_one_empty {X} (fetch : Z → M X (list Contract)) (renew : Contract → M X unit) (contracts : list Contract)
    (fuel : nat) (minProofHeight : Z) (x x' : X) (r : option unit) (log : list (Contract * bool)) :
  (∀ offset x, (0 ≤ offset)%Z →
    fetch offset x = (Ok (take (Z.to_nat renewalBatchSize) (drop (Z.to_nat offset) contracts)), x)) →
  (Z.of_nat (length contracts) < Z.of_nat fuel * renewalBatchSize)%Z →
  renew_eligible (λ offset, lift1 (fetch offset)) (recorded renew) fuel minProofHeight (x, []) = (Ok r, (x', log)) →
  let eligible := filter (λ c, due minProofHeight c = true) contracts in
  let retained h := filter (λ c, due minProofHeight c = false ∧ empty c = true ∧ HostKey c = h) contracts in
  sublist log.*1 eligible ∧
  filter (λ c, empty c = false) log.*1 = filter (λ c, empty c = false) eligible ∧
  (∀ h, length (renewed_empty h log) ≤ (if bool_decide (retained h = []) then 1 else 0)) ∧
  (∀ c, c ∈ eligible → c ∈ log.*1 ∨
    empty c = true ∧ (retained (HostKey c) ≠ [] ∨ renewed_empty (HostKey c) log ≠ [])).
Proof.
  intros Hpages Hfuel Hrun eligible retained. unfold renew_eligible, collect_eligible in Hrun.
  apply bindM_ok in Hrun as (col & [x1 l1] & Hcol & Hrun). rewrite (pages_all _ _ _ _ _ contracts) in Hcol; [|done| |done].
  2: { intros offset [x2 l2] Ho. unfold lift1. by rewrite Hpages. }
  apply bindM_ok in Hcol as (acc & [x2 l2] & Hf & [= <- <- <-]).
  rewrite foldM_pure, sort_eligible_all in Hf. injection Hf as <- <- <-. simpl in Hrun.
  apply bindM_ok in Hrun as (hs & [x3 l3] & Hfold & [= _ <- <-]).
  apply renew_all_ok in Hfold as (log' & -> & [H1 H2 H3 H4]). simpl.
  assert (∀ h, h ∈ foldl (λ hs c, {[HostKey c]} ∪ hs) (∅ : gset PublicKey) (filter (λ c, due minProofHeight c = false ∧ empty c = true) contracts)
    ↔ retained h ≠ []) as Hkeys.
  { intros h. rewrite elem_of_foldl_keys. split.
    - intros [?|(c & -> & [[Hd He] Hc]%list_elem_of_filter)%list_elem_of_fmap]; [set_solver|]. intros Hnil.
      assert (c ∈ (nil : list Contract)) as Habs; [|by apply elem_of_nil in Habs]. rewrite <-Hnil. unfold retained. by apply list_elem_of_filter.
    - intros Hne. right. destruct (retained h) as [|c l] eqn:Ef; [done|].
      assert (c ∈ retained h) as Hc by (rewrite Ef; by left). apply list_elem_of_filter in Hc as [(Hd & He & Hh) Hc].
      apply list_elem_of_fmap. exists c. split; [done|]. by apply list_elem_of_filter. }
  split_and!; [done|done| |].
  - intros h. specialize (H3 h). destruct (decide (retained h = [])) as [Hr|Hr].
    + rewrite bool_decide_eq_true_2 by done. lia.
    + rewrite (bool_decide_eq_false_2 _ Hr). apply Hkeys in Hr. rewrite bool_decide_eq_true_2 in H3 by done. lia.
  - intros c Hc. destruct (H4 c Hc) as [?|[He [Hh|Hr]]]; [by left|right|by auto]. apply Hkeys in Hh. auto.
Qed.

End properties.

Module RenewWitness.
#[local] Existing Instances U128.ops U128.laws.
Abbreviation sc := ContractWitness.sc.
Abbreviation zero := ContractWitness.zero.

Definition contract (id : FileContractID) (host : PublicKey) (proofHeight size : Z) : Contract :=
  mkContract id host 0 0%N 0 0 5 proofHeight (proofHeight + 144) size size (sc 10) (sc 5) (sc 20) 0%N (sc 1) zero zero
    true ContractStateActive (mkSpending zero zero zero zero).

(** Host 3 has two empty contracts and one with data that are due, host 4 an empty
    one that is due and one that is not. *)
Definition table : list Contract :=
  [contract 1 3 900 0; contract 2 3 900 0; contract 3 3 950 4194304; contract 4 4 900 0; contract 5 4 2000 0].
Definition fetch (offset : Z) : M nat (list Contract) := mret (take (Z.to_nat renewalBatchSize) (drop (Z.to_nat offset) table)).
Definition renew (c : Contract) : M nat unit := λ n, (if (ID c =? 3)%N then Err (EMsg "offline") else Ok tt, n + 1).

Definition log : list (Contract * bool) := [(contract 1 3 900 0, true); (contract 3 3 950 4194304, false)].

Example renewals_one_empty_witness :
  let eligible := filter (λ c, due 1000 c = true) table in
  let retained h := filter (λ c, due 1000 c = false ∧ empty c = true ∧ HostKey c = h) table in
  sublist log.*1 eligible ∧
  filter (λ c, empty c = false) log.*1 = filter (λ c, empty c = false) eligible ∧
  (∀ h, length (renewed_empty h log) ≤ (if bool_decide (retained h = []) then 1 else 0)) ∧
  (∀ c, c ∈ eligible → c ∈ log.*1 ∨
    empty c = true ∧ (retained (HostKey c) ≠ [] ∨ renewed_empty (HostKey c) log ≠ [])).
Proof. apply (renewals_one_empty fetch renew table 1 1000 0 2 (Some ())); [done|done|reflexivity]. Defined.

End RenewWitness.
