(* ===== verification/Pinning.v ===== *)
(** * Pinning sectors (src/contracts/pinning.go)

    A pinning pass appends a host's unpinned sectors to the contracts with it,
    contract by contract, as many as the contract has room, collateral and
    allowance for. Sectors the host does not have any more are marked lost. *)

From S2P Require Import Prelude External Hosts Contract Revision Funder Deps.

(** ** Interfaces *)

Section interfaces.
Context {C : CurrencyOps} {R : RhpOps}.

(** The context of the call. *)
Class CtxDep (S : Type) := { ctx_Err : M S (option error) }.

(** The parts of [Store] that pinning uses. *)
Class PinStore (S : Type) := {
  ps_MaintenanceSettings : M S MaintenanceSettings;
  ps_ContractsForPinning : PublicKey → Z → M S (list FileContractID);
  ps_UnpinnedSectors : PublicKey → Z → M S (list Hash256);
  ps_MarkSectorsLost : PublicKey → list Hash256 → M S unit;
  ps_PinSectors : FileContractID → list Hash256 → M S unit }.

(** [rhp.RPCAppendSectorsResult] *)
Record AppendResult := mkAppend { ar_Sectors : list Hash256; ar_Revision : V2.FileContract; ar_Usage : Usage }.

(** [HostClient.Prices] and [HostClient.AppendSectors] *)
Class PricesClient (S : Type) := { client_Prices : PublicKey → M S HostPrices }.
Class AppendClient (S : Type) := { client_AppendSectors : ContractRevision → list Hash256 → M S AppendResult }.

End interfaces.

Definition ErrNotFound : string := "contract not found".

(** ** Pinning *)

Section pinning.
#[local] Open Scope go_scope.
Context {C : CurrencyOps} {R : RhpOps} {V : V2.Methods}.
Context {S : Type} {RS : RevisionStore S} {LC : LatestRevisionClient S} {CT : ChainTip S}.
Context {LO : LockOps S} {BL : BlockingLock S} {CD : CtxDep S} {PS : PinStore S} {PC : PricesClient S} {AC : AppendClient S}.

(** [RevisionManager.buffer], and the order in which the keys of a map are
    collected. *)
Variable buffer : Z.
Variable range_set : gset Hash256 → list Hash256.

(** The variables [res] and [attempted]. *)
Record pinLocals := mkPinLocals { p_res : option AppendResult; p_attempted : nat }.

(** A cost of zero counts as one hasting. *)
Definition nonzero (c : Currency) : Currency := if IsZero c then NewCurrency64 1 else c.

(** How many sectors a contract takes: an error when it is none. *)
Definition maxAppendSectors (prices : HostPrices) (rev : V2.FileContract) (maxSize : Z) : result Z :=
  let maxRemainingSectors := (u64 (maxSize - V2.Filesize rev) / SectorSize)%Z in
  let free := (u64 (V2.Capacity rev - V2.Filesize rev) / SectorSize)%Z in
  if (V2.ExpirationHeight rev <=? TipHeight prices)%Z then Err (EMsg "contract has expired")
  else
    let duration := u64 (V2.ExpirationHeight rev - TipHeight prices) in
    cost ← RPCAppendSectorsCost prices 1 duration;
    renterCost ← RenterCost cost;
    byCollateral ← Div (V2.RemainingCollateral rev) (nonzero (HostRiskedCollateral cost));
    byAllowance ← Div (V2.RemainingAllowance rev) (nonzero renterCost);
    let maxSectorsByCollateral := u64 (Big byCollateral) in
    let maxSectorsByAllowance := u64 (Big byAllowance) in
    let max := u64 (free + Z.min maxSectorsByAllowance maxSectorsByCollateral) in
    let max := Z.min max maxRemainingSectors in
    if (max =? 0)%Z then
      if (maxSectorsByAllowance =? 0)%Z then Err (ESentinel ErrContractOutOfFunds)
      else if (maxSectorsByCollateral =? 0)%Z then Err (ESentinel ErrContractOutOfCollateral)
      else if (maxRemainingSectors =? 0)%Z then Err (ESentinel ErrContractMaxSize)
      else Err (EMsg "maxAppendSectors is zero for unknown reason")
    else mret max.

(** The closure passed to [WithRevision]. *)
Definition pin_revise (prices : HostPrices) (maxSize : Z) (sectors : list Hash256) (contract : ContractRevision) :
    M (S * pinLocals) (ContractRevision * Usage) :=
  if (V2.Filesize (CR_Revision contract) >=? maxSize)%Z
  then throw (EWrap "contract is too large: " (ESentinel ErrContractMaxSize) "")
  else
    let* max := lift (maxAppendSectors prices (CR_Revision contract) maxSize) in
    let attemptedSectors := if (Z.of_nat (length sectors) >? max)%Z then take (Z.to_nat max) sectors else sectors in
    let* res := wrapM "failed to append sectors: " (lift1 (client_AppendSectors contract attemptedSectors)) in
    set_local (λ _, mkPinLocals (Some res) (length attemptedSectors)) ;;
    mret (mkRevision (CR_ID contract) (ar_Revision res), ar_Usage res).

(** The attempted sectors the host did not append. *)
Definition missingSectors (sectors : list Hash256) (attempted : nat) (appended : list Hash256) : gset Hash256 :=
  foldl (λ lookup sector, lookup ∖ {[sector]}) (list_to_set (take attempted sectors)) appended.

(** The function called for each contract: the sectors that are left and whether
    the host answered. *)
Definition pin_contract (hostKey : PublicKey) (maxSize : Z) (sectors : list Hash256) (contractID : FileContractID) :
    M S (list Hash256 * bool) :=
  with_lock contractID (
    let* prices := try (client_Prices hostKey) in
    match prices with
    | Err _ => mret (sectors, false)
    | Panic => panic
    | Ok prices =>
        let* err := try (with_locals (mkPinLocals None 0) (WithRevision buffer contractID (pin_revise prices maxSize sectors))) in
        match err with
        | Err _ => mret (sectors, false)
        | Panic => panic
        | Ok (_, l) =>
            let attempted := p_attempted l in
            let appended := match p_res l with Some res => ar_Sectors res | None => [] end in
            when (negb (Nat.eqb (length appended) attempted))
              (wrapM "failed to mark sectors as lost: "
                (ps_MarkSectorsLost hostKey (range_set (missingSectors sectors attempted appended)))) ;;
            wrapM "failed to pin sectors: " (ps_PinSectors contractID appended) ;;
            mret (drop attempted sectors, true)
        end
    end).

Fixpoint pin_loop (hostKey : PublicKey) (maxSize : Z) (contractIDs : list FileContractID) (sectors : list Hash256)
    (success : bool) : M S bool :=
  match contractIDs with
  | [] => mret success
  | contractID :: contractIDs =>
      if Nat.eqb (length sectors) 0 then mret success
      else
        let* '(sectors, ok) := pin_contract hostKey maxSize sectors contractID in
        pin_loop hostKey maxSize contractIDs sectors (success || ok)
  end.

Definition pinSectors (hostKey : PublicKey) (contractIDs : list FileContractID) (sectors : list Hash256) (maxSize : Z) : M S unit :=
  if (Z.of_nat (length sectors) >? MaxSectorBatchSize)%Z then throw (EMsg "too many sectors")
  else
    let* success := pin_loop hostKey maxSize contractIDs sectors false in
    if success : bool then mret tt else throw (EMsg "all contracts failed to pin sectors").

(** [for !exhausted && ctx.Err() == nil]; [None] when [fuel] was not enough. *)
Fixpoint pin_batches (fuel : nat) (hostKey : PublicKey) (contractIDs : list FileContractID) (maxSize : Z) : M S (option unit) :=
  match fuel with
  | O => mret None
  | Datatypes.S fuel =>
      let* done := ctx_Err in
      match done with
      | Some _ => mret (Some tt)
      | None =>
          let* roots := wrapM "failed to fetch unpinned sectors: " (ps_UnpinnedSectors hostKey MaxSectorBatchSize) in
          let exhausted := (Z.of_nat (length roots) <? MaxSectorBatchSize)%Z in
          wrapM "failed to pin sectors: " (pinSectors hostKey contractIDs roots maxSize) ;;
          if exhausted then mret (Some tt) else pin_batches fuel hostKey contractIDs maxSize
      end
  end.

Definition performSectorPinningOnHost (fuel : nat) (host : Host) : M S (option unit) :=
  if negb (IsGood host) then throw (EMsg "host is bad")
  else
    let* ms := wrapM "failed to fetch maintenance settings for sector pinning: " ps_MaintenanceSettings in
    let* maxRenewableSize := lift (maxRenewableContractSize (Host.Settings host) (Period ms)) in
    let* contractIDs := wrapM "failed to fetch contracts for pinning: " (ps_ContractsForPinning (Host.PublicKey host) maxRenewableSize) in
    if Nat.eqb (length contractIDs) 0 then throw (EMsg "no contracts for pinning")
    else
      let* r := pin_batches fuel (Host.PublicKey host) contractIDs maxRenewableSize in
      match r with
      | None => mret None
      | Some _ =>
          let* err := ctx_Err in
          match err with Some e => throw e | None => mret (Some tt) end
      end.

End pinning.

(** ** Properties *)

Section properties.
#[local] Open Scope go_scope.
Context {C : CurrencyOps} {L : CurrencyLaws C} {R : RhpOps} {RL : RhpLaws R} {V : V2.Methods}.

Lemma nonzero_Big c : Big (nonzero c) = Z.max 1 (Big c).
Proof.
  unfold nonzero. rewrite IsZero_spec. pose proof (Big_nonneg c). destruct (Z.eqb_spec (Big c) 0).
  - rewrite NewCurrency64_Big by done. lia.
  - lia.
Qed.

Lemma u64_le z : (0 ≤ z)%Z → (0 ≤ u64 z ≤ z)%Z.
Proof. intros Hz. unfold u64. pose proof (Z.mod_pos_bound z two64 ltac:(done)). pose proof (Z.mod_le z two64 Hz ltac:(done)). lia. Qed.

(** [n] times a cost is covered by funds that [n] was bounded by. *)
Lemma div_nonzero_le funds cost q n : Div funds (nonzero cost) = Ok q → (n ≤ u64 (Big q))%Z → (n * Big cost ≤ Big funds)%Z.
Proof.
  intros Hq Hn. apply Div_inv in Hq as [_ Hq]. rewrite nonzero_Big in Hq.
  pose proof (Big_nonneg funds). pose proof (Big_nonneg cost).
  pose proof (u64_le (Big q) (Big_nonneg q)). pose proof (Z.mul_div_le (Big funds) (Z.max 1 (Big cost)) ltac:(lia)).
  pose proof (Z.div_pos (Big funds) (Z.max 1 (Big cost)) ltac:(lia) ltac:(lia)). nia.
Qed.

(** A request to append sectors that respects every limit: a non-empty batch,
    within the maximum size, before the contract expires, and what exceeds the
    contract's capacity is covered by its allowance and its collateral. *)
Record append_ok (prices : HostPrices) (maxSize : Z) (rev : V2.FileContract) (n : Z) : Prop := {
  append_positive : (0 < n ≤ MaxSectorBatchSize)%Z;
  append_live : (TipHeight prices < V2.ExpirationHeight rev)%Z;
  append_size : (0 ≤ V2.Filesize rev)%Z → (V2.Filesize rev + n * SectorSize ≤ maxSize)%Z;
  append_funds : (0 ≤ V2.Filesize rev ≤ V2.Capacity rev)%Z → is_u64 (V2.Capacity rev) → ∃ u rc,
    RPCAppendSectorsCost prices 1 (u64 (V2.ExpirationHeight rev - TipHeight prices)) = Ok u ∧ RenterCost u = Ok rc ∧
    let extra := (n - (V2.Capacity rev - V2.Filesize rev) / SectorSize)%Z in
    (extra * Big rc ≤ Big (V2.RemainingAllowance rev))%Z ∧
    (extra * Big (HostRiskedCollateral u) ≤ Big (V2.RemainingCollateral rev))%Z }.

Lemma maxAppendSectors_pos prices rev maxSize max : maxAppendSectors prices rev maxSize = Ok max → (0 < max)%Z.
Proof.
  unfold maxAppendSectors. pose proof SectorSize_pos. destruct (V2.ExpirationHeight rev <=? TipHeight prices)%Z; [done|].
  intros (u & _ & (rc & _ & (bc & _ & (ba & _ & Hm)%bind_ok)%bind_ok)%bind_ok)%bind_ok.
  match type of Hm with context [Z.min (u64 ?a) ?b] => assert (0 ≤ Z.min (u64 a) b)%Z as Hmin;
    [apply Z.min_glb; [apply u64_range|apply Z.div_pos; [apply u64_range|lia]]|] end.
  case_match eqn:E; [repeat case_match; done|]. apply Z.eqb_neq in E. injection Hm as <-. lia.
Qed.

Lemma maxAppendSectors_ok prices rev maxSize max n :
  is_u64 maxSize → (V2.Filesize rev < maxSize)%Z → maxAppendSectors prices rev maxSize = Ok max →
  (0 < n ≤ MaxSectorBatchSize)%Z → (n ≤ max)%Z → append_ok prices maxSize rev n.
Proof.
  intros Hmax Hlt Hm Hn Hnm. unfold maxAppendSectors in Hm. pose proof SectorSize_pos as HS.
  destruct (Z.leb_spec (V2.ExpirationHeight rev) (TipHeight prices)); [done|].
  apply bind_ok in Hm as (u & Hu & Hm). apply bind_ok in Hm as (rc & Hrc & Hm).
  apply bind_ok in Hm as (bc & Hbc & Hm). apply bind_ok in Hm as (ba & Hba & Hm).
  set (mx := Z.min _ _) in Hm. destruct (mx =? 0)%Z eqn:Emx.
  { repeat case_match; done. }
  injection Hm as <-. split; [done|lia| |].
  - intros Hf. assert (n ≤ (maxSize - V2.Filesize rev) / SectorSize)%Z as Hle.
    { etrans; [exact Hnm|]. unfold mx. rewrite (u64_id (maxSize - V2.Filesize rev)); [lia|]. unfold is_u64 in *. lia. }
    pose proof (Z.mul_div_le (maxSize - V2.Filesize rev) SectorSize (proj1 HS)). nia.
  - intros Hf Hcap. exists u, rc. split; [done|]. split; [done|].
    set (free := ((V2.Capacity rev - V2.Filesize rev) / SectorSize)%Z).
    assert (n - free ≤ Z.min (u64 (Big ba)) (u64 (Big bc)))%Z as Hex.
    { unfold mx in Hnm. rewrite (u64_id (V2.Capacity rev - V2.Filesize rev)) in Hnm by (unfold is_u64 in *; lia).
      fold free in Hnm. assert (0 ≤ free)%Z by (apply Z.div_pos; lia).
      pose proof (u64_range (Big ba)). pose proof (u64_range (Big bc)). unfold is_u64 in *.
      pose proof (u64_le (free + Z.min (u64 (Big ba)) (u64 (Big bc)))). lia. }
    split; [apply (div_nonzero_le _ _ ba); [done|lia]|apply (div_nonzero_le _ _ bc); [done|lia]].
Qed.

Context {S : Type} {RS : RevisionStore S} {LC : LatestRevisionClient S} {CT : ChainTip S}.
Context {LO : LockOps S} {BL : BlockingLock S} {CD : CtxDep S} {PS : PinStore S} {PC : PricesClient S}.
Variable buffer : Z.
Variable range_set : gset Hash256 → list Hash256.

(** *** Requests *)

(** The two hosts agree on the requests that respect the limits. *)
Definition agree_on_ok (AC AC' : AppendClient S) (hostKey : PublicKey) (maxSize : Z) : Prop :=
  ∀ prices contract sectors, (∃ s s', client_Prices hostKey s = (Ok prices, s')) →
  append_ok prices maxSize (CR_Revision contract) (Z.of_nat (length sectors)) →
  client_AppendSectors (AppendClient:=AC) contract sectors = client_AppendSectors (AppendClient:=AC') contract sectors.

Section requests.
Context (AC AC' : AppendClient S) (hostKey : PublicKey) (maxSize : Z).
Context (Hagree : agree_on_ok AC AC' hostKey maxSize) (Hmax : is_u64 maxSize).

Lemma pin_revise_same prices sectors contract p :
  (∃ s s', client_Prices hostKey s = (Ok prices, s')) → sectors ≠ [] → (Z.of_nat (length sectors) ≤ MaxSectorBatchSize)%Z →
  pin_revise (AC:=AC) prices maxSize sectors contract p = pin_revise (AC:=AC') prices maxSize sectors contract p.
Proof.
  intros Hp Hne Hlen. unfold pin_revise. destruct (Z.geb_spec (V2.Filesize (CR_Revision contract)) maxSize) as [|Hlt]; [done|].
  apply bindM_ext_ok; [done|]. intros max p1 Hm. unfold lift in Hm. injection Hm as Hm <-.
  set (n := if (Z.of_nat (length sectors) >? max)%Z then take (Z.to_nat max) sectors else sectors).
  assert (0 < max)%Z as Hpos by by eapply maxAppendSectors_pos.
  assert (0 < Z.of_nat (length n) ∧ Z.of_nat (length n) ≤ max ∧ Z.of_nat (length n) ≤ Z.of_nat (length sectors))%Z as (Hn1 & Hn2 & Hn3).
  { unfold n. destruct sectors as [|x l]; [done|]. destruct (Z.gtb_spec (Z.of_nat (length (x :: l))) max); [rewrite length_take|]; simpl in *; lia. }
  apply bindM_ext; [|done]. apply wrapM_ext. unfold lift1. destruct p as [s l]. rewrite (Hagree prices contract n Hp); [done|].
  apply (maxAppendSectors_ok _ _ _ max); [done|lia|done|lia|done].
Qed.

Lemma pin_contract_same sectors contractID s :
  sectors ≠ [] → (Z.of_nat (length sectors) ≤ MaxSectorBatchSize)%Z →
  pin_contract (AC:=AC) buffer range_set hostKey maxSize sectors contractID s =
  pin_contract (AC:=AC') buffer range_set hostKey maxSize sectors contractID s.
Proof.
  intros Hne Hlen. unfold pin_contract. apply with_lock_ext. intros s1.
  apply bindM_ext_ok; [done|]. intros [prices|e|] s2 Hp; [|done..].
  apply bindM_ext; [|done]. apply try_ext, with_locals_ext, WithRevision_ext. intros c p. apply pin_revise_same; [|done..].
  unfold try in Hp. destruct (client_Prices hostKey s1) as [[pr|e|] s3] eqn:E; try done. injection Hp as -> _. eauto.
Qed.

End requests.

Lemma pin_contract_left {AC : AppendClient S} hostKey maxSize sectors contractID s sectors' ok s' :
  pin_contract buffer range_set hostKey maxSize sectors contractID s = (Ok (sectors', ok), s') → ∃ k, sectors' = drop k sectors.
Proof.
  intros H. assert (wp (pin_contract buffer range_set hostKey maxSize sectors contractID)
    (λ r _, ∀ x b, r = Ok (x, b) → ∃ k, x = drop k sectors) s) as Hwp; [|unfold wp in Hwp; rewrite H in Hwp; by eapply Hwp].
  clear H. unfold pin_contract, with_lock. wp_step. apply wp_intro. intros r s1 _. destruct r; simpl; [|done..].
  apply wp_with_unlock. do 2 wp_step. apply wp_intro. intros r s2 _. destruct r as [prices|e|]; simpl; [|wp_step|done].
  2: { intros _ _ _ x b [= <- _]. by exists 0. }
  do 2 wp_step. apply wp_intro. intros r s3 _. destruct r as [[[] l]|e|]; simpl; [|wp_step|done].
  2: { intros _ _ _ x b [= <- _]. by exists 0. }
  wp_step. apply wp_intro. intros r s4 _. destruct r as [[]|e|]; simpl; [|done..].
  wp_step. apply wp_intro. intros r s5 _. destruct r as [[]|e|]; simpl; [|done..]. wp_step.
  intros _ _ _ x b [= <- _]. by eexists.
Qed.

(** Every request to append sectors respects the contract's limits: with two
    hosts that agree on the requests that do, pinning runs the same. *)
Theorem pin_within_limits (AC AC' : AppendClient S) (hostKey : PublicKey) (contractIDs : list FileContractID)
    (sectors : list Hash256) (maxSize : Z) (s : S) :
  is_u64 maxSize → agree_on_ok AC AC' hostKey maxSize →
  pinSectors (AC:=AC) buffer range_set hostKey contractIDs sectors maxSize s =
  pinSectors (AC:=AC') buffer range_set hostKey contractIDs sectors maxSize s.
Proof.
  intros Hmax Hagree. unfold pinSectors. destruct (Z.gtb_spec (Z.of_nat (length sectors)) MaxSectorBatchSize) as [|Hlen]; [done|].
  apply bindM_ext; [|done]. generalize false. revert sectors s Hlen.
  induction contractIDs as [|i ids IH]; intros sectors s Hlen b; simpl; [done|].
  destruct (Nat.eqb_spec (length sectors) 0) as [|Hne]; [done|].
  apply bindM_ext_ok; [apply pin_contract_same; [done|done| |done]; by intros ->|].
  intros [sectors' ok] s1 Hp. apply pin_contract_left in Hp as [k ->]. apply IH. rewrite length_drop. lia.
Qed.

(** Without sectors left to pin, [pinSectors] reports that all contracts
    failed; the pinning pass of a host asks for one more batch whenever the number
    of unpinned sectors is a multiple of the batch size, so it ends in this error. *)
Lemma pin_nothing_fails {AC : AppendClient S} (hostKey : PublicKey) (contractIDs : list FileContractID) (maxSize : Z) (s : S) :
  pinSectors buffer range_set hostKey contractIDs [] maxSize s = (Err (EMsg "all contracts failed to pin sectors"), s).
Proof.
  unfold pinSectors. pose proof MaxSectorBatchSize_pos. destruct (Z.gtb_spec (Z.of_nat (length (@nil Hash256))) MaxSectorBatchSize); [simpl in *; lia|].
  by destruct contractIDs.
Qed.

End properties.

Module PinningWitness.
#[local] Existing Instances U128.ops U128.laws TestRhp.ops TestRhp.laws TestRhp.methods.
#[local] Existing Instances RevisionWitness.store RevisionWitness.client RevisionWitness.chain FunderWitness.locks.
Import FunderWitness.

#[local] Instance blocking : BlockingLock world := {|
  LockContract i := λ '(d, (sent, held)), (Ok tt, (d, (sent, {[i]} ∪ held))) |}.
#[local] Instance ctx : CtxDep world := {| ctx_Err := mret None |}.
#[local] Instance store : PinStore world := {|
  ps_MaintenanceSettings := mret DefaultMaintenanceSettings;
  ps_ContractsForPinning _ _ := mret [7%N];
  ps_UnpinnedSectors _ _ := mret [1%N; 2%N; 3%N];
  ps_MarkSectorsLost _ lost := λ '(d, (sent, held)), (Ok tt, (d, (sent ++ (N.add 100 <$> lost), held)));
  ps_PinSectors _ pinned := λ '(d, (sent, held)), (Ok tt, (d, (sent ++ pinned, held))) |}.
#[local] Instance prices : PricesClient world := {| client_Prices _ := λ s, (Ok (ContractWitness.prices : HostPrices), s) |}.
(** The host has lost sector 2. *)
Definition append (contract : ContractRevision) (sectors : list Hash256) : M world AppendResult :=
  mret (mkAppend (filter (λ x, x ≠ 2%N) sectors) (CR_Revision contract) NoUsage).
Definition host : AppendClient world := {| client_AppendSectors := append |}.
(** A host that panics on a request beyond 12 MiB. *)
Definition strict_host : AppendClient world := {|
  client_AppendSectors contract sectors :=
    if (0 <=? V2.Filesize (CR_Revision contract))%Z &&
       (12582912 <? V2.Filesize (CR_Revision contract) + Z.of_nat (length sectors) * SectorSize)%Z
    then panic else append contract sectors |}.

Example pin_within_limits_witness :
  pinSectors (AC:=host) 144 elements 3%N [7%N; 8%N] [1%N; 2%N; 3%N] 12582912 world0 =
  pinSectors (AC:=strict_host) 144 elements 3%N [7%N; 8%N] [1%N; 2%N; 3%N] 12582912 world0.
Proof.
  apply (pin_within_limits 144 elements host strict_host); [by unfold is_u64, two64|].
  intros pr c l _ [_ _ Hsize _]. cbn [client_AppendSectors host strict_host].
  destruct (Z.leb_spec 0 (V2.Filesize (CR_Revision c))); [|done]. specialize (Hsize H). simpl.
  destruct (Z.ltb_spec 12582912 (V2.Filesize (CR_Revision c) + Z.of_nat (length l) * 4194304)); [|done]. exfalso.
  clear -Hsize H0. simpl in Hsize. apply Z.le_ngt in Hsize. by apply Hsize.
Defined.

(** Two of the three sectors fit: sector 1 is pinned, sector 2 is marked lost,
    sector 3 is left. *)
Example pin_sectors_run :
  (pinSectors (AC:=host) 144 elements 3%N [7%N] [1%N; 2%N; 3%N] 12582912 world0).2.2 = ([102%N; 1%N], ∅).
Proof. vm_compute. reflexivity. Qed.

Example pin_nothing_fails_witness :
  pinSectors (AC:=host) 144 elements 3%N [7%N] [] 12582912 world0 = (Err (EMsg "all contracts failed to pin sectors"), world0).
Proof. apply (pin_nothing_fails 144 elements). Defined.

End PinningWitness.
