(* ===== verification/Pruning.v ===== *)
(** * Pruning contracts (src/contracts/pruning.go)

    A pruning pass walks over the sector roots of a contract in batches, asks the
    database which of them nothing refers to any more, and has the host free
    those. *)

From S2P Require Import Prelude External Hosts Contract Revision Funder Deps Pinning.

(** ** Interfaces *)

Section interfaces.
Context {C : CurrencyOps} {R : RhpOps}.

(** The parts of [Store] that pruning uses, and the clock. *)
Class PruneStore (S : Type) := {
  pr_ContractsForPruning : PublicKey → M S (list FileContractID);
  pr_PrunableContractRoots : FileContractID → list Hash256 → M S (list Hash256);
  pr_UpdateNextPrune : FileContractID → Z → M S unit;
  pr_Now : M S Z }.

(** [rhp.RPCSectorRootsResult] *)
Record RootsResult := mkRoots { rr_Roots : list Hash256; rr_Revision : V2.FileContract; rr_Usage : Usage }.

(** [HostClient.SectorRoots] (offset and length) and [HostClient.FreeSectors]. *)
Class PruneClient (S : Type) := {
  client_SectorRoots : ContractRevision → Z → Z → M S RootsResult;
  client_FreeSectors : ContractRevision → list Z → M S (V2.FileContract * Usage) }.

End interfaces.

(** ** Pruning *)

Section pruning.
#[local] Open Scope go_scope.
Context {C : CurrencyOps} {R : RhpOps} {V : V2.Methods}.
Context {S : Type} {RS : RevisionStore S} {LC : LatestRevisionClient S} {CT : ChainTip S}.
Context {LO : LockOps S} {BL : BlockingLock S} {CD : CtxDep S} {PS : PruneStore S} {PC : PruneClient S}.

(** [RevisionManager.buffer] and [ContractManager.sectorRootsBatchSize] *)
Variable buffer : Z.
Variable sectorRootsBatchSize : Z.

Definition dbRootsBatchSize : nat := Z.to_nat 10000.

(** The slices of at most [n] elements of a list; [length l] as fuel is enough. *)
Fixpoint slices {A} (fuel n : nat) (l : list A) : list (list A) :=
  match fuel, l with
  | Datatypes.S fuel, _ :: _ => take n l :: slices fuel n (drop n l)
  | _, _ => []
  end.

(** The first closure; its result is the variable [roots]. *)
Definition roots_revise (offset length : Z) (rev : ContractRevision) : M (S * list Hash256) (ContractRevision * Usage) :=
  let* res := lift1 (client_SectorRoots rev offset length) in
  set_local (λ _, rr_Roots res) ;;
  mret (mkRevision (CR_ID rev) (rr_Revision res), rr_Usage res).

Definition free_revise (indices : list Z) (rev : ContractRevision) : M S (ContractRevision * Usage) :=
  let* '(revision, usage) := client_FreeSectors rev indices in
  mret (mkRevision (CR_ID rev) revision, usage).

Definition prunable_roots (contractID : FileContractID) (roots : list Hash256) : M S (gset Hash256) :=
  foldM (λ prunable slice,
    let* batch := wrapM "failed to fetch prunable contract roots: " (pr_PrunableContractRoots contractID slice) in
    mret (prunable ∪ list_to_set batch)) ∅ (slices (length roots) dbRootsBatchSize roots).

(** The indices of the prunable roots of a batch that starts at [offset]. *)
Definition prune_indices (offset : Z) (roots : list Hash256) (prunable : gset Hash256) : list Z :=
  (λ p, u64 (offset + Z.of_nat p.1)) <$> filter (λ p, p.2 ∈ prunable) (imap pair roots).

(** The loop over the batches; [None] when [fuel] was not enough. *)
Fixpoint prune_loop (fuel : nat) (contractID : FileContractID) (offset contractSectors pruned : Z) : M S (option Z) :=
  match fuel with
  | O => mret None
  | Datatypes.S fuel =>
      if (offset <? contractSectors)%Z then
        let len := Z.min sectorRootsBatchSize (u64 (contractSectors - offset)) in
        let* '(_, roots) := wrapM "failed to fetch contract sectors: "
          (with_locals [] (WithRevision buffer contractID (roots_revise offset len))) in
        let next := u64 (offset + sectorRootsBatchSize) in
        if Nat.eqb (length roots) 0 then prune_loop fuel contractID next contractSectors pruned
        else
          let* prunable := prunable_roots contractID roots in
          let indices := prune_indices offset roots prunable in
          if Nat.eqb (length indices) 0 then prune_loop fuel contractID next contractSectors pruned
          else
            wrapM "failed to prune contract sectors: " (WithRevision buffer contractID (free_revise indices)) ;;
            prune_loop fuel contractID next (u64 (contractSectors - Z.of_nat (length indices))) (pruned + Z.of_nat (length indices))
      else mret (Some pruned)
  end.

Definition pruneContract (fuel : nat) (contractID : FileContractID) : M S (option Z) :=
  with_lock contractID (
    let* '(contract, renewed) := wrapM "failed to fetch contract revision: " (store_ContractRevision contractID) in
    if renewed : bool then mret (Some 0%Z)
    else prune_loop fuel contractID 0 (V2.Filesize (CR_Revision contract) / SectorSize) 0).

(** [ContractManager.pruneIntervalSuccess] and [pruneIntervalFailure] *)
Variables pruneIntervalSuccess pruneIntervalFailure : Z.

(** The loop over a host's contracts, left when the context is done; failures are
    logged. [false] when a contract ran out of fuel. *)
Fixpoint prune_contracts (fuel : nat) (contracts : list FileContractID) : M S bool :=
  match contracts with
  | [] => mret true
  | contract :: contracts =>
      let* done := ctx_Err in
      match done with
      | Some _ => mret true
      | None =>
          let* n := try (pruneContract fuel contract) in
          match n with
          | Panic => panic
          | Err _ =>
              let* now := pr_Now in
              let* _ := try (pr_UpdateNextPrune contract (now + pruneIntervalFailure)) in
              prune_contracts fuel contracts
          | Ok None => mret false
          | Ok (Some _) =>
              let* now := pr_Now in
              let* _ := try (pr_UpdateNextPrune contract (now + pruneIntervalSuccess)) in
              prune_contracts fuel contracts
          end
      end
  end.

Definition performContractPruningOnHost (fuel : nat) (host : Host) : M S bool :=
  let* contracts := wrapM "failed to fetch contracts for pruning: " (pr_ContractsForPruning (Host.PublicKey host)) in
  if Nat.eqb (length contracts) 0 then mret true else prune_contracts fuel contracts.

End pruning.

(** ** Properties *)

Section properties.
#[local] Open Scope go_scope.
Context {C : CurrencyOps} {R : RhpOps} {V : V2.Methods}.
Context {S : Type} {RS : RevisionStore S} {LC : LatestRevisionClient S} {CT : ChainTip S}.
Context {LO : LockOps S} {BL : BlockingLock S} {PS : PruneStore S} {PC : PruneClient S}.
Variable buffer : Z.
Variable sectorRootsBatchSize : Z.

(** The roots of a contract at the host, the roots the database refers to, and
    what freeing sectors leaves: the roots at the other indices, in some order
    (the host swaps the freed sectors to the end and trims). *)
Context (host_roots : S → FileContractID → list Hash256) (referenced : Hash256 → bool).

Definition left_by (indices : list Z) (roots : list Hash256) : list Hash256 :=
  (filter (λ p : nat * Hash256, Z.of_nat p.1 ∉ indices) (imap pair roots)).*2.
Definition freed (s s' : S) (i : FileContractID) (indices : list Z) : Prop :=
  host_roots s' i ≡ₚ left_by indices (host_roots s i) ∧ ∀ j, j ≠ i → host_roots s' j = host_roots s j.

(** The host answers with the roots asked for; it frees what it is told to, or,
    on an error, possibly nothing, and certainly nothing when it rejects the
    signature. The database lists exactly the roots nothing refers to. *)
Class PruneLaws : Prop := {
  roots_ok : ∀ c offset len s res s', client_SectorRoots c offset len s = (Ok res, s') →
    rr_Roots res = take (Z.to_nat len) (drop (Z.to_nat offset) (host_roots s (CR_ID c)));
  roots_quiet : ∀ c offset len s, host_roots (client_SectorRoots c offset len s).2 = host_roots s;
  free_ok : ∀ c indices s res s', client_FreeSectors c indices s = (Ok res, s') → freed s s' (CR_ID c) indices;
  free_err : ∀ c indices s r s', client_FreeSectors c indices s = (r, s') →
    host_roots s' = host_roots s ∨ freed s s' (CR_ID c) indices;
  free_rejected : ∀ c indices s e s', client_FreeSectors c indices s = (Err e, s') →
    strings_Contains (error_string e) ErrInvalidSignature = true → host_roots s' = host_roots s;
  prunable_ok : ∀ i roots s batch s', pr_PrunableContractRoots i roots s = (Ok batch, s') →
    batch = filter (λ r, referenced r = false) roots;
  prunable_quiet : ∀ i roots s, host_roots (pr_PrunableContractRoots i roots s).2 = host_roots s;
  lock_quiet : ∀ i s, host_roots (LockContract i s).2 = host_roots s;
  read_id : ∀ i s c b s', store_ContractRevision i s = (Ok (c, b), s') → CR_ID c = i }.

(** No referenced root is lost and nothing is added; other contracts are left alone. *)
Definition kept (i : FileContractID) (h h' : FileContractID → list Hash256) : Prop :=
  filter (λ r, referenced r = true) (h' i) ≡ₚ filter (λ r, referenced r = true) (h i) ∧
  h' i ⊆+ h i ∧ ∀ j, j ≠ i → h' j = h j.

Lemma kept_refl i h : kept i h h.
Proof. done. Qed.

Lemma kept_trans i h1 h2 h3 : kept i h1 h2 → kept i h2 h3 → kept i h1 h3.
Proof.
  intros (A1 & A2 & A3) (B1 & B2 & B3). split; [by etrans|]. split; [by etrans|].
  intros j Hj. rewrite B3 by done. by apply A3.
Qed.

(** *** Lists *)

Lemma snd_imap_pair (l : list Hash256) : (imap pair l).*2 = l.
Proof. apply list_eq. intros i. rewrite list_lookup_fmap, list_lookup_imap. by destruct (l !! i). Qed.

Lemma left_by_submseteq indices roots : left_by indices roots ⊆+ roots.
Proof.
  unfold left_by. rewrite <-(snd_imap_pair roots) at 2. apply fmap_submseteq, sublist_submseteq, sublist_filter.
Qed.

(** Removing only unreferenced roots keeps the referenced ones. *)
Lemma left_by_kept indices roots :
  (∀ k r, roots !! k = Some r → Z.of_nat k ∈ indices → referenced r = false) →
  filter (λ r, referenced r = true) (left_by indices roots) = filter (λ r, referenced r = true) roots.
Proof.
  intros Hidx. unfold left_by.
  assert (∀ l : list (nat * Hash256), (∀ p, p ∈ l → roots !! p.1 = Some p.2) →
    filter (λ r, referenced r = true) (filter (λ p : nat * Hash256, Z.of_nat p.1 ∉ indices) l).*2 =
    filter (λ r, referenced r = true) l.*2) as Hgen.
  { induction l as [|p l IH]; intros Hl; [done|]. rewrite filter_cons. csimpl.
    specialize (IH (λ q Hq, Hl q (list_elem_of_further _ _ _ Hq))).
    case_decide as Hin; csimpl; rewrite !filter_cons, IH; [done|].
    rewrite (decide_False (P:=referenced p.2 = true)); [done|].
    rewrite (Hidx p.1 p.2); [done|apply Hl; by left|done]. }
  rewrite Hgen.
  - by rewrite snd_imap_pair.
  - intros p Hp. apply elem_of_lookup_imap in Hp as (k & r & -> & Hk). done.
Qed.

Lemma concat_slices {A} fuel n (l : list A) : 0 < n → length l ≤ fuel → concat (slices fuel n l) = l.
Proof.
  intros Hn. revert l. induction fuel as [|fuel IH]; intros l Hl; [by destruct l; simpl in *; [|lia]|].
  destruct l as [|x l]; [done|]. cbn [slices concat]. rewrite IH; [apply take_drop|]. rewrite length_drop. simpl in *. lia.
Qed.

Lemma prune_indices_in offset roots prunable k :
  k ∈ prune_indices offset roots prunable ↔
    ∃ i r, roots !! i = Some r ∧ r ∈ prunable ∧ k = u64 (offset + Z.of_nat i).
Proof.
  unfold prune_indices. rewrite list_elem_of_fmap. split.
  - intros ([i r] & -> & [Hr Hin]%list_elem_of_filter). apply elem_of_lookup_imap in Hin as (j & r' & [= -> ->] & Hj). eauto.
  - intros (i & r & Hi & Hr & ->). exists (i, r). split; [done|]. apply list_elem_of_filter. split; [done|].
    apply elem_of_lookup_imap. eauto.
Qed.

(** *** A run *)

Context {PL : PruneLaws} {Q : Quiet host_roots} {QL : QuietLocks host_roots}.

Lemma fetch_roots contractID offset len s r s' :
  with_locals [] (WithRevision buffer contractID (roots_revise offset len)) s = (r, s') →
  host_roots s' = host_roots s ∧ ∀ roots, r = Ok (tt, roots) →
    roots = [] ∨ roots = take (Z.to_nat len) (drop (Z.to_nat offset) (host_roots s contractID)).
Proof.
  set (slice := take (Z.to_nat len) (drop (Z.to_nat offset) (host_roots s contractID))).
  set (I := λ p : S * list Hash256, host_roots p.1 = host_roots s ∧ (p.2 = [] ∨ p.2 = slice)).
  intros Hrun. assert (I (WithRevision buffer contractID (roots_revise offset len) (s, [])).2) as HI.
  { apply (WithRevision_phases buffer I I); unfold I.
    - intros i [t l] c b [t' l'] H. cbn in H. destruct (store_ContractRevision i t) as [x t1] eqn:E.
      injection H as -> -> ->. by eapply read_id.
    - intros i [t l] [Ht Hl]. simpl in *. pose proof (quiet_read (obs:=host_roots) i t) as E.
      destruct (store_ContractRevision i t). simpl in *. by rewrite E.
    - intros c u [t l] [Ht Hl]. simpl in *. pose proof (quiet_update (obs:=host_roots) c u t) as E.
      destruct (store_UpdateContractRevision c u t). simpl in *. by rewrite E.
    - intros c u [t l] [Ht Hl]. simpl in *. pose proof (quiet_update (obs:=host_roots) c u t) as E.
      destruct (store_UpdateContractRevision c u t). simpl in *. by rewrite E.
    - intros i [t l] [Ht Hl]. simpl in *. pose proof (quiet_bad (obs:=host_roots) i t) as E.
      destruct (store_MarkContractBad i t). simpl in *. by rewrite E.
    - intros k i [t l] [Ht Hl]. simpl in *. pose proof (quiet_client (obs:=host_roots) k i t) as E.
      destruct (client_LatestRevision k i t). simpl in *. by rewrite E.
    - done.
    - intros c [t l] Hc [Ht Hl]. simpl in Ht, Hl. unfold roots_revise, bindM, mbind, M_bind, lift1.
      pose proof (roots_quiet c offset len t) as Hq. destruct (client_SectorRoots c offset len t) as [[res|e|] t'] eqn:E; simpl in *.
      + split; [by rewrite Hq|]. right. by rewrite (roots_ok _ _ _ _ _ _ E), Hc, Ht.
      + rewrite Hq. by case_match.
      + by rewrite Hq.
    - simpl. split; [done|by left]. }
  unfold with_locals in Hrun. destruct (WithRevision buffer contractID _ (s, [])) as [[[]|e|] [s1 l]]; simpl in HI;
    destruct HI as [H1 H2]; injection Hrun as <- <-; (split; [done|]); intros roots; [intros [= <-]|intros [=]..]; done.
Qed.

Lemma free_roots contractID indices s :
  (∀ k r, host_roots s contractID !! k = Some r → Z.of_nat k ∈ indices → referenced r = false) →
  kept contractID (host_roots s) (host_roots (WithRevision buffer contractID (free_revise indices) s).2).
Proof.
  intros Hidx. apply (WithRevision_phases buffer (λ t, host_roots t = host_roots s) (λ t, kept contractID (host_roots s) (host_roots t))).
  - intros i t c b t'. apply read_id.
  - intros i t Ht. by rewrite (quiet_read (obs:=host_roots)).
  - intros c u t Ht. by rewrite (quiet_update (obs:=host_roots)).
  - intros c u t Ht. by rewrite (quiet_update (obs:=host_roots)).
  - intros i t Ht. by rewrite (quiet_bad (obs:=host_roots)).
  - intros k i t Ht. by rewrite (quiet_client (obs:=host_roots)).
  - intros t ->. apply kept_refl.
  - intros c t Hc Ht. unfold free_revise, bindM, mbind, M_bind.
    assert (∀ t', freed t t' (CR_ID c) indices → kept contractID (host_roots s) (host_roots t')) as Hfreed.
    { intros t' [Hp Ho]. rewrite Hc, Ht in Hp. split; [|split].
      - rewrite Hp. by rewrite left_by_kept.
      - rewrite Hp. apply left_by_submseteq.
      - intros j Hj. rewrite Ho by congruence. by rewrite Ht. }
    destruct (client_FreeSectors c indices t) as [[[rv u]|e|] t'] eqn:E; simpl.
    + by apply Hfreed, (free_ok _ _ _ _ _ E).
    + destruct (strings_Contains (error_string e) ErrInvalidSignature) eqn:Es.
      * by rewrite (free_rejected _ _ _ _ _ E Es).
      * destruct (free_err _ _ _ _ _ E) as [->|Hf]; [by rewrite Ht|by apply Hfreed].
    + destruct (free_err _ _ _ _ _ E) as [->|Hf]; [by rewrite Ht|by apply Hfreed].
  - done.
Qed.

Lemma prunable_roots_ok contractID roots s r s' :
  prunable_roots contractID roots s = (r, s') →
  host_roots s' = host_roots s ∧ ∀ prunable, r = Ok prunable → ∀ x, x ∈ prunable ↔ x ∈ roots ∧ referenced x = false.
Proof.
  unfold prunable_roots. intros H.
  assert (∀ (l : list (list Hash256)) (acc : gset Hash256) s r s', foldM (λ prunable slice,
      let* batch := wrapM "failed to fetch prunable contract roots: " (pr_PrunableContractRoots contractID slice) in
      mret (prunable ∪ list_to_set batch)) acc l s = (r, s') →
    host_roots s' = host_roots s ∧ ∀ prunable, r = Ok prunable →
      ∀ x : Hash256, x ∈ prunable ↔ x ∈ acc ∨ x ∈ concat l ∧ referenced x = false) as Hgen.
  { clear H r s s'. induction l as [|sl l IH]; intros acc s r s'; simpl.
    { intros [= <- <-]. split; [done|]. intros p [= <-] x. set_solver. }
    unfold bindM at 1, mbind, M_bind. unfold bindM at 1, mbind, M_bind, wrapM.
    pose proof (prunable_quiet contractID sl s) as Hq. destruct (pr_PrunableContractRoots contractID sl s) as [[batch|e|] s1] eqn:E; simpl in *.
    - intros Hrest. apply IH in Hrest as [Hh Hx]. rewrite Hh. split; [done|]. intros p Hp x. rewrite (Hx p Hp x).
      rewrite (prunable_ok _ _ _ _ _ E), elem_of_union, elem_of_list_to_set, list_elem_of_filter, elem_of_app. tauto.
    - by intros [= <- <-].
    - by intros [= <- <-]. }
  apply Hgen in H as [Hh Hx]. split; [done|]. intros p Hp x. rewrite (Hx p Hp x).
  rewrite concat_slices by (unfold dbRootsBatchSize; lia). set_solver.
Qed.

Lemma prune_loop_kept fuel contractID offset contractSectors pruned s :
  (Z.of_nat (length (host_roots s contractID)) < two64)%Z → (0 ≤ offset)%Z →
  kept contractID (host_roots s) (host_roots (prune_loop buffer sectorRootsBatchSize fuel contractID offset contractSectors pruned s).2).
Proof.
  revert offset contractSectors pruned s. induction fuel as [|fuel IH]; intros offset n pruned s Hlen Ho; [apply kept_refl|].
  change (wp (prune_loop buffer sectorRootsBatchSize (Datatypes.S fuel) contractID offset n pruned)
    (λ _ s', kept contractID (host_roots s) (host_roots s')) s).
  cbn [prune_loop]. case_match; [|wp_step; apply kept_refl]. wp_step. wp_step. apply wp_intro. intros r s1 Hf.
  apply fetch_roots in Hf as [H1 Hroots].
  assert (∀ offset n pruned, (0 ≤ offset)%Z → kept contractID (host_roots s)
    (host_roots (prune_loop buffer sectorRootsBatchSize fuel contractID offset n pruned s1).2)) as Hnext.
  { intros o' n' p' Ho'. rewrite <-H1. apply IH; [by rewrite H1|done]. }
  pose proof (λ z, proj1 (u64_range z)) as Hu. destruct r as [[[] roots]|e|]; simpl; [|rewrite H1; apply kept_refl..].
  case_match; [by apply Hnext|]. wp_step. apply wp_intro. intros r s2 Hp. apply prunable_roots_ok in Hp as [H2 Hprun].
  destruct r as [prunable|e|]; simpl; [|rewrite H2, H1; apply kept_refl..]. specialize (Hprun prunable eq_refl).
  destruct (Hroots roots eq_refl) as [->|Hr]; [done|]. clear Hroots.
  case_match.
  { rewrite <-H1, <-H2. apply IH; [by rewrite H2, H1|apply Hu]. }
  wp_step. wp_step. apply wp_intro. intros r s3 Hfree.
  assert (kept contractID (host_roots s) (host_roots s3)) as Hk.
  { rewrite <-H1, <-H2. pose proof (free_roots contractID (prune_indices offset roots prunable) s2) as Hfk.
    rewrite Hfree in Hfk. apply Hfk. intros k x Hk Hin. apply prune_indices_in in Hin as (i & y & Hi & Hy & Heq).
    rewrite H2, H1 in Hk. rewrite Hr in Hi. apply lookup_take_Some in Hi as [Hi _]. rewrite lookup_drop in Hi.
    pose proof (lookup_lt_Some _ _ _ Hi) as Hlt.
    rewrite u64_id in Heq by (unfold is_u64; lia). assert (k = Z.to_nat offset + i) as -> by lia.
    rewrite Hk in Hi. injection Hi as ->. by apply Hprun in Hy as [_ ?]. }
  destruct r as [[]|e|]; simpl; [|done..]. eapply kept_trans; [exact Hk|]. apply IH; [|apply Hu].
  destruct Hk as (_ & Hsub%submseteq_length & _). lia.
Qed.

(** C5. Pruning never loses a sector the database refers to: however the pass over
    a contract ends, the host still has every referenced root of the contract, as
    often as before; nothing is added, and other contracts are left alone. It
    assumes that the database's references do not change during the pass. *)
Theorem prune_keeps_referenced (fuel : nat) (contractID : FileContractID) (s : S) :
  (Z.of_nat (length (host_roots s contractID)) < two64)%Z →
  kept contractID (host_roots s) (host_roots (pruneContract buffer sectorRootsBatchSize fuel contractID s).2).
Proof.
  intros Hlen. change (wp (pruneContract buffer sectorRootsBatchSize fuel contractID)
    (λ _ s', kept contractID (host_roots s) (host_roots s')) s).
  unfold pruneContract, with_lock. wp_step. apply wp_intro. intros r s1 Hl.
  pose proof (lock_quiet contractID s) as H1. rewrite Hl in H1. simpl in H1.
  destruct r as [[]|e|]; simpl; [|rewrite H1; apply kept_refl..]. apply wp_with_unlock.
  assert (∀ s2, kept contractID (host_roots s) (host_roots s2) → ∀ r' s3, Unlock contractID s2 = (r', s3) →
    kept contractID (host_roots s) (host_roots s3)) as Hun.
  { intros s2 Hk r' s3 Hu. pose proof (quiet_unlock (obs:=host_roots) contractID s2) as E. rewrite Hu in E. simpl in E. by rewrite E. }
  wp_step. wp_step. apply wp_intro. intros r s2 Hr. pose proof (quiet_read (obs:=host_roots) contractID s1) as H2.
  rewrite Hr in H2. simpl in H2. destruct r as [[c renewed]|e|]; simpl; [|apply Hun; rewrite H2, H1; apply kept_refl..].
  case_match; [wp_step; apply Hun; rewrite H2, H1; apply kept_refl|].
  apply wp_intro. intros r s3 Hloop. apply Hun. rewrite <-H1, <-H2.
  pose proof (prune_loop_kept fuel contractID 0 (V2.Filesize (CR_Revision c) / SectorSize) 0 s2) as Hk. rewrite Hloop in Hk.
  apply Hk; [by rewrite H2, H1|done].
Qed.

(** *** Termination *)

Lemma prune_indices_length offset roots prunable : length (prune_indices offset roots prunable) ≤ length roots.
Proof.
  unfold prune_indices. rewrite length_fmap. etrans; [apply length_filter|]. by rewrite length_imap.
Qed.

(** The loop over the batches ends: each pass advances by a batch and the
    sectors left never grow, so for [n] sectors one pass more than [n / batch],
    rounded up, is enough, whether or not anything is pruned. *)
Theorem prune_loop_terminates (fuel : nat) (contractID : FileContractID) (offset n pruned : Z) (s : S) :
  (0 < sectorRootsBatchSize)%Z → (0 ≤ offset)%Z → (n + sectorRootsBatchSize < two64)%Z →
  (n - offset + sectorRootsBatchSize ≤ Z.of_nat fuel * sectorRootsBatchSize)%Z → 0 < fuel →
  (prune_loop buffer sectorRootsBatchSize fuel contractID offset n pruned s).1 ≠ Ok None.
Proof.
  intros Hb. revert offset n pruned s. induction fuel as [|fuel IH]; intros offset n pruned s Ho Hn Hfuel Hpos; [lia|].
  change (wp (prune_loop buffer sectorRootsBatchSize (Datatypes.S fuel) contractID offset n pruned) (λ r _, r ≠ Ok None) s).
  cbn [prune_loop]. case_match eqn:Elt; [|by wp_step]. apply Z.ltb_lt in Elt.
  assert (∀ m p t, (m ≤ n)%Z → wp (prune_loop buffer sectorRootsBatchSize fuel contractID (u64 (offset + sectorRootsBatchSize)) m p) (λ r _, r ≠ Ok None) t) as Hnext.
  { intros m p t Hm. rewrite u64_id by (unfold is_u64; lia). apply IH; [lia|lia|nia|]. destruct fuel; [nia|lia]. }
  wp_step. wp_step. apply wp_intro. intros r s1 Hf. apply fetch_roots in Hf as [_ Hroots].
  destruct r as [[[] roots]|e|]; simpl; [|done..]. specialize (Hroots roots eq_refl).
  case_match; [by apply Hnext|]. wp_step. apply wp_intro. intros r s2 _. destruct r as [prunable|e|]; simpl; [|done..].
  case_match; [by apply Hnext|]. wp_step. wp_step. apply wp_intro. intros r s3 _. destruct r as [[]|e|]; simpl; [|done..].
  apply Hnext. pose proof (prune_indices_length offset roots prunable) as Hlen.
  assert (Z.of_nat (length roots) ≤ n - offset)%Z as Hle.
  { destruct Hroots as [->| ->]; [simpl; lia|]. rewrite length_take. rewrite u64_id by (unfold is_u64; lia). lia. }
  pose proof (u64_le (n - Z.of_nat (length (prune_indices offset roots prunable)))). lia.
Qed.

End properties.

Module PruningWitness.
#[local] Existing Instances U128.ops U128.laws TestRhp.ops TestRhp.laws TestRhp.methods.
#[local] Existing Instances RevisionWitness.store RevisionWitness.client RevisionWitness.chain FunderWitness.locks FunderWitness.quiet_second PinningWitness.blocking.
Import FunderWitness.

(** The world's list holds the roots of contract 7 at the host; the database
    refers to the even ones. *)
Definition roots_of (x : list N * gset N) : FileContractID → list Hash256 := λ i, if (i =? 7)%N then x.1 else [].
Definition host_roots (s : world) : FileContractID → list Hash256 := roots_of s.2.
Definition referenced (r : Hash256) : bool := N.even r.

#[local] Instance store : PruneStore world := {|
  pr_ContractsForPruning _ := mret [7%N];
  pr_PrunableContractRoots _ roots := mret (filter (λ r, referenced r = false) roots);
  pr_UpdateNextPrune _ _ := mret tt;
  pr_Now := mret 0%Z |}.

(** A host with a given way of freeing sectors; contracts other than 7 are empty. *)
Definition host (free : list Z → list Hash256 → list Hash256) : PruneClient world := {|
  client_SectorRoots c offset len := λ s,
    (Ok (mkRoots (take (Z.to_nat len) (drop (Z.to_nat offset) (host_roots s (CR_ID c)))) (CR_Revision c) NoUsage), s);
  client_FreeSectors c indices := λ '(d, (roots, held)),
    (Ok (CR_Revision c, NoUsage), (d, (if (CR_ID c =? 7)%N then free indices roots else roots, held))) |}.
#[local] Instance keep_order : PruneClient world := host left_by.

#[local] Instance prune_laws : PruneLaws host_roots referenced.
Proof.
  split.
  - intros c offset len s res s' [= <- _]. done.
  - done.
  - intros c indices [d [roots held]] res s' H. cbn in H. injection H as _ <-. unfold freed, host_roots, roots_of. simpl.
    destruct (N.eqb_spec (CR_ID c) 7) as [->|Hne]; (split; [done|]); intros j Hj; destruct (N.eqb_spec j 7); congruence.
  - intros c indices [d [roots held]] r s' H. cbn in H. injection H as _ <-. right. unfold freed, host_roots, roots_of. simpl.
    destruct (N.eqb_spec (CR_ID c) 7) as [->|Hne]; (split; [done|]); intros j Hj; destruct (N.eqb_spec j 7); congruence.
  - intros c indices [d [roots held]] e s' H. cbn in H. done.
  - intros i roots s batch s' H. cbn in H. by injection H as <- _.
  - done.
  - by intros i [d [roots held]].
  - intros i [d x] c b s' H. cbn in H. destruct (RevisionWitness.rows d !! i) as [[r rn]|]; [|done]. by injection H as <- _ _.
Qed.
#[local] Instance quiet_roots : Quiet host_roots := quiet_second roots_of.
#[local] Instance quiet_locks : QuietLocks host_roots.
Proof. split; intros i [d [se h]]; simpl; [by case_decide|done]. Qed.

(** Contract 7 has one sector by its file size; give it four. *)
Definition db4 : RevisionWitness.db :=
  RevisionWitness.mkDb {[ 7%N := (V2.mk (4 * 4194304) (4 * 4194304) 2000 2144 5 (sc 10) (sc 10) 3%N, false) ]} 900 (RevisionWitness.rev 9).
Definition world4 : world := (db4, ([1; 2; 3; 4]%N, ∅)).

Example prune_keeps_referenced_witness :
  kept referenced 7%N (host_roots world4) (host_roots (pruneContract 144 2 3 7%N world4).2).
Proof. apply (prune_keeps_referenced 144 2 host_roots referenced 3 7%N world4). vm_compute. reflexivity. Defined.

Example prune_loop_terminates_witness : (prune_loop 144 2 3 7%N 0 4 0 world4).1 ≠ Ok None.
Proof.
  apply (prune_loop_terminates 144 2 host_roots referenced 3 7%N 0 4 0 world4); [done..|lia].
Defined.

(** The host moves the last sector into a freed slot: a pass over batches of two
    leaves the unreferenced root 5, which moved to an index already passed. *)
Fixpoint swap_remove (indices : list Z) (roots : list Hash256) : list Hash256 :=
  match indices with
  | [] => roots
  | i :: indices =>
      let roots := swap_remove indices roots in
      match last roots with
      | Some l => take (length roots - 1) (<[Z.to_nat i := l]> roots)
      | None => roots
      end
  end.

Example prune_skips_moved :
  (pruneContract (PC:=host swap_remove) 144 2 3 7%N (db4, ([1; 2; 4; 5]%N, ∅))).2.2.1 = [5; 2; 4]%N.
Proof. vm_compute. reflexivity. Qed.

End PruningWitness.
