(* ===== verification/Maintenance.v ===== *)
(** * The maintenance loops (src/contracts/maintenance.go, broadcast.go, manager.go)

    What one round of each loop does: the contract maintenance with its phases in
    order, the funding of one host, the wallet's outputs, blocking bad hosts,
    broadcasting revisions, and waiting for the node to be synced. The loops
    themselves, their tickers and goroutines are not modelled. *)

From S2P Require Import Prelude External Float Hosts Contract Accounts Revision Funder Funding Deps Form Renew Pinning.

(** ** Interfaces *)

Section interfaces.
Context {C : CurrencyOps} {R : RhpOps}.

(** Contract elements and transactions are the library's. *)
Class MaintTypes := { FileContractElement : Type; MaintTxn : Type; TxnBasis : Type }.
Context {T : MaintTypes}.

(** The parts of [Store] that the loops use. *)
Class MaintStore (S : Type) := {
  mt_MaintenanceSettings : M S MaintenanceSettings;
  mt_MarkUnrenewableContractsBad : Z → M S unit;
  mt_ContractsForFunding : PublicKey → Z → M S (list FileContractID);
  mt_ContractsForBroadcasting : Z → Z → M S (list FileContractID);
  mt_MarkBroadcastAttempt : FileContractID → M S unit;
  mt_ContractElement : FileContractID → M S FileContractElement;
  mt_LastScannedIndex : M S Hash256 }.

(** The parts of the wallet and the chain manager, and the clock. [SplitUTXO]
    reports nothing the program uses but to log it. *)
Class MaintEnv (S : Type) := {
  me_RecommendedFee : M S Currency;
  me_FundV2Transaction : MaintTxn → Currency → M S (TxnBasis * list nat * MaintTxn);
  me_SignV2Inputs : MaintTxn → list nat → M S MaintTxn;
  me_BroadcastV2TransactionSet : TxnBasis → list MaintTxn → M S unit;
  me_ReleaseInputs : list MaintTxn → M S unit;
  me_SplitUTXO : Z → Currency → M S unit;
  me_BlockTimestamp : Hash256 → M S (option Z);
  me_Now : M S Z;
  revisionTxn : FileContractElement → V2.FileContract → Currency → MaintTxn }.

End interfaces.

Section maintenance.
#[local] Open Scope go_scope.
Context {C : CurrencyOps} {R : RhpOps} {V : V2.Methods} {TS : TxnSetOps} {MO : MathOps} {T : MaintTypes}.
Context {S : Type} {AM : AccountManager S} {AF : AccountFunder S} {RS : RevisionStore S} {LC : LatestRevisionClient S} {CT : ChainTip S}.
Context {LO : LockOps S} {BL : BlockingLock S} {HD : HostsDep S} {FS : FormStore S} {FC : FormClient S}.
Context {CD : CtxDep S} {MS : MaintStore S} {ME : MaintEnv S}.

(** ** Blocking bad hosts (src/contracts/manager.go) *)

(** The order in which [range] visits the map of hosts to block. *)
Variable range_block : gmap PublicKey (list string) → list (PublicKey * list string).

Definition blockBatchSize : Z := 100.

Definition bad_hosts (fuel : nat) : M S (option (gmap PublicKey (list string))) :=
  pages fuel blockBatchSize 0
    (λ offset, wrapM "failed to fetch hosts to block: "
      (hm_Hosts offset blockBatchSize [WithUsable false; WithBlocked false; WithActiveContracts true]))
    (λ m h, mret (<[Host.PublicKey h := Usability.FailedChecks (Host.Usability h)]> m)) ∅.

(** A failure to block a host is only logged. *)
Definition blockBadHosts (fuel : nat) : M S (option unit) :=
  let* toBlock := bad_hosts fuel in
  match toBlock with
  | None => mret None
  | Some toBlock =>
      forM (range_block toBlock) (λ e, let* _ := try (hm_BlockHosts [e.1] e.2) in mret tt) ;;
      mret (Some tt)
  end.

(** [HealthyContracts] *)
Definition HealthyContracts (fuel : nat) : M S (option (list Contract)) :=
  pages fuel 50 0 (λ offset, wrapM "failed to fetch contracts: " (fs_Contracts offset 50 [WithRevisable true; WithGood true]))
    (λ good c, mret (good ++ [c])) [].

(** ** Broadcasting revisions (src/contracts/broadcast.go) *)

(** [ContractManager.revisionBroadcastInterval] *)
Variable revisionBroadcastInterval : Z.

(** Failures to fund or broadcast are logged; the inputs are released. *)
Definition broadcastContractRevision (contractID : FileContractID) : M S unit :=
  let* fce := wrapM "failed to fetch contract element: " (mt_ContractElement contractID) in
  let* '(contract, _) := wrapM "failed to fetch contract revision: " (store_ContractRevision contractID) in
  let* fee := me_RecommendedFee in
  let* fee := lift (Mul64 fee 1000) in
  let txn := revisionTxn fce (CR_Revision contract) fee in
  let* funded := try (me_FundV2Transaction txn fee) in
  match funded with
  | Err _ => mret tt
  | Panic => panic
  | Ok (basis, toSign, txn) =>
      let* txn := me_SignV2Inputs txn toSign in
      let* sent := try (me_BroadcastV2TransactionSet basis [txn]) in
      match sent with
      | Ok _ => mret tt
      | Err _ => me_ReleaseInputs [txn]
      | Panic => panic
      end
  end.

(** One batch; [Some e] when the context is done. *)
Fixpoint broadcast_batch (contracts : list FileContractID) : M S (option error) :=
  match contracts with
  | [] => mret None
  | contractID :: contracts =>
      let* done := ctx_Err in
      match done with
      | Some e => mret (Some e)
      | None =>
          let* _ := try (broadcastContractRevision contractID) in
          let* _ := try (mt_MarkBroadcastAttempt contractID) in
          broadcast_batch contracts
      end
  end.

(** [for !exhausted]; [None] when [fuel] batches were not enough. *)
Fixpoint broadcast_batches (fuel : nat) (minBroadcast : Z) : M S (option unit) :=
  match fuel with
  | O => mret None
  | Datatypes.S fuel =>
      let* done := ctx_Err in
      match done with
      | Some e => throw e
      | None =>
          let* contracts := wrapM "failed to fetch contracts for broadcasting: " (mt_ContractsForBroadcasting minBroadcast 10) in
          let exhausted := Nat.ltb (length contracts) 10 in
          let* done := broadcast_batch contracts in
          match done with
          | Some e => throw e
          | None => if exhausted then mret (Some tt) else broadcast_batches fuel minBroadcast
          end
      end
  end.

Definition performBroadcastContractRevisions (fuel : nat) : M S (option unit) :=
  let* now := me_Now in broadcast_batches fuel (now - revisionBroadcastInterval).

(** ** Contract maintenance (src/contracts/maintenance.go) *)

(** [RevisionManager.buffer], [ContractManager.renterKey] and
    [minHostDistanceKm], and the iteration orders of [performContractFormation]. *)
Variable buffer : Z.
Variable renterKey : PublicKey.
Variable minHostDistanceKm : float64.
Variable range_usable range_spaced : gmap PublicKey candidateContract → list (PublicKey * candidateContract).
Variable range_hosts : gmap PublicKey Host → list (PublicKey * Host).
Variable range_stuck : gset PublicKey → list PublicKey.

(** Continue unless the phase ran out of fuel. *)
Definition then_ (pre : string) (m : M S (option unit)) (k : M S (option unit)) : M S (option unit) :=
  let* r := wrapM pre m in match r with None => mret None | Some _ => k end.

Definition performContractMaintenance (fuel : nat) : M S (option unit) :=
  let* settings := wrapM "failed to fetch settings for contract maintenance: " mt_MaintenanceSettings in
  if negb (Enabled settings) then mret (Some tt)
  else
    let* blockHeight := gets tipHeight in
    then_ "failed to block bad hosts: " (blockBadHosts fuel) (
    then_ "failed to renew contracts: " (performContractRenewals buffer fuel (Period settings) (RenewWindow settings)) (
    wrapM "failed to mark unrenewable contracts bad: "
      (mt_MarkUnrenewableContractsBad (u64 (blockHeight + RenewWindow settings / 2))) ;;
    then_ "failed to form contracts: " (performContractFormation buffer renterKey minHostDistanceKm
      range_usable range_spaced range_hosts range_stuck fuel settings blockHeight) (
    then_ "failed to broadcast contract revisions: " (performBroadcastContractRevisions fuel) (mret (Some tt))))).

(** ** Funding one host *)

Variable out_of_range : Z → Z.
Variable maxAccountFundingBackoff : Z.

(** The goroutine of one host in [performAccountFunding]: every failure is
    logged, and pools are attached even without contracts. [fuel] bounds the
    batches of the funding passes. *)
Definition fund_host (fuel : nat) (quotas : list Quota) (hostKey : PublicKey) : M S unit :=
  let* contractIDs := try (mt_ContractsForFunding hostKey 10) in
  match contractIDs with
  | Err _ => mret tt
  | Panic => panic
  | Ok contractIDs =>
      when (negb (Nat.eqb (length contractIDs) 0)) (
        let* _ := try (hm_WithScannedHost hostKey (λ host,
          let* _ := try (FundServiceAccounts host contractIDs) in
          let* _ := try (FundPools out_of_range maxAccountFundingBackoff fuel host contractIDs quotas) in
          let* _ := try (FundAccounts out_of_range maxAccountFundingBackoff fuel host contractIDs quotas) in
          mret tt)) in
        mret tt) ;;
      let* _ := try (AttachPools fuel hostKey) in
      mret tt
  end.

(** ** The wallet *)

Definition maxUTXOs : Z := 250.

Definition utxoCount (hosts wantedContracts : Z) : Z := Z.min (Z.max (Z.max hosts (i64 wantedContracts)) 1) maxUTXOs.

Definition performWalletMaintenance : M S unit :=
  let* settings := wrapM "failed to fetch maintenance settings: " mt_MaintenanceSettings in
  let* hosts := wrapM "failed to fetch active contracts: " (hm_Hosts 0 maxUTXOs [WithActiveContracts true; WithUsable true]) in
  wrapM "failed to split UTXOs: " (me_SplitUTXO (utxoCount (Z.of_nat (length hosts)) (WantedContracts settings)) (Siacoins 1000)).

(** ** Waiting for the node *)

Definition syncedMaxAge : Z := 3 * Hour.

Definition isSynced : M S bool :=
  let* ci := wrapM "failed to get last scanned index: " mt_LastScannedIndex in
  let* block := me_BlockTimestamp ci in
  match block with
  | None => throw (EMsg "failed to get block for last scanned index")
  | Some timestamp => let* now := me_Now in mret (time_Sub now timestamp <? syncedMaxAge)%Z
  end.

(** The first check and then one per poll interval; [None] after [fuel] polls. *)
Fixpoint wait_synced (fuel : nat) : M S (option bool) :=
  match fuel with
  | O => mret None
  | Datatypes.S fuel =>
      let* done := ctx_Err in
      match done with
      | Some _ => mret (Some false)
      | None =>
          let* synced := try isSynced in
          match synced with Ok true => mret (Some true) | Panic => panic | _ => wait_synced fuel end
      end
  end.

Definition waitUntilSynced (fuel : nat) : M S (option bool) :=
  let* synced := try isSynced in
  match synced with Ok true => mret (Some true) | Panic => panic | _ => wait_synced fuel end.

End maintenance.

(** ** Properties *)

Section properties.
#[local] Open Scope go_scope.
Context {C : CurrencyOps} {R : RhpOps} {T : MaintTypes}.
Context {S : Type} {RS : RevisionStore S} {CD : CtxDep S} {MS : MaintStore S} {ME : MaintEnv S}.

(** What the wallet promises: [inputs] of a transaction, the inputs it holds
    [reserved], and the inputs of transactions that were [published]. Funding
    reserves inputs, releasing frees them, signing keeps them, and a transaction
    set is published only when broadcasting it succeeds. Nothing else touches them. *)
Context (reserved published : S → gset N) (inputs : MaintTxn → gset N).
Definition wallet (s : S) : gset N * gset N := (reserved s, published s).
Definition all_inputs (txns : list MaintTxn) : gset N := ⋃ (inputs <$> txns).

Class WalletLaws : Prop := {
  fund_inputs : ∀ txn fee s r s', me_FundV2Transaction txn fee s = (r, s') →
    wallet s' = match r with Ok (_, _, txn') => (inputs txn' ∪ reserved s, published s) | _ => wallet s end;
  sign_inputs : ∀ txn ts s r s', me_SignV2Inputs txn ts s = (r, s') →
    wallet s' = wallet s ∧ ∃ txn', r = Ok txn' ∧ inputs txn' = inputs txn;
  broadcast_inputs : ∀ b txns s r s', me_BroadcastV2TransactionSet b txns s = (r, s') → r ≠ Panic ∧
    wallet s' = match r with Ok _ => (reserved s, all_inputs txns ∪ published s) | _ => wallet s end;
  release_inputs : ∀ txns s r s', me_ReleaseInputs txns s = (r, s') →
    wallet s' = (reserved s ∖ all_inputs txns, published s);
  quiet_fee : ∀ s, wallet (me_RecommendedFee s).2 = wallet s;
  quiet_now : ∀ s, wallet (me_Now s).2 = wallet s;
  quiet_ctx : ∀ s, wallet (ctx_Err s).2 = wallet s;
  quiet_element : ∀ i s, wallet (mt_ContractElement i s).2 = wallet s;
  quiet_revision : ∀ i s, wallet (store_ContractRevision i s).2 = wallet s;
  quiet_fetch : ∀ t n s, wallet (mt_ContractsForBroadcasting t n s).2 = wallet s;
  quiet_attempt : ∀ i s, wallet (mt_MarkBroadcastAttempt i s).2 = wallet s }.
Context {WL : WalletLaws}.

(** Inputs that are reserved for a transaction that was never published. *)
Definition leaked (s : S) : gset N := reserved s ∖ published s.

Lemma leaked_wallet s s' : wallet s' = wallet s → leaked s' = leaked s.
Proof. unfold wallet, leaked. by intros [= -> ->]. Qed.

Lemma wp_quiet {A} (m : M S A) (Q : result A → S → Prop) s :
  wallet (m s).2 = wallet s → (∀ r s', wallet s' = wallet s → Q r s') → wp m Q s.
Proof. intros Hq HQ. apply wp_intro. intros r s' E. apply HQ. by rewrite E in Hq. Qed.

Lemma broadcast_revision_leaks contractID s0 s :
  leaked s ⊆ leaked s0 → wp (broadcastContractRevision contractID) (λ _ s', leaked s' ⊆ leaked s0) s.
Proof.
  intros Hl. unfold broadcastContractRevision.
  wp_step. wp_step. apply wp_quiet; [apply quiet_element|]. intros r s1 H1.
  assert (leaked s1 ⊆ leaked s0) as Hl1 by by rewrite (leaked_wallet _ _ H1).
  destruct r as [fce|e|]; simpl; [|done..]. wp_step. wp_step. apply wp_quiet; [apply quiet_revision|]. intros r s2 H2.
  assert (leaked s2 ⊆ leaked s0) as Hl2 by by rewrite (leaked_wallet _ _ H2).
  destruct r as [[c b]|e|]; simpl; [|done..]. wp_step. apply wp_quiet; [apply quiet_fee|]. intros r s3 H3.
  assert (leaked s3 ⊆ leaked s0) as Hl3 by by rewrite (leaked_wallet _ _ H3).
  destruct r as [fee|e|]; simpl; [|done..]. wp_step. wp_step. destruct (Mul64 fee 1000) as [fee'|e|]; simpl; [|done..].
  wp_step. wp_step. apply wp_intro. intros r s4 Hf. apply fund_inputs in Hf.
  destruct r as [[[basis toSign] txn]|e|]; simpl; [|wp_step; by rewrite (leaked_wallet _ _ Hf)|by rewrite (leaked_wallet _ _ Hf)].
  wp_step. apply wp_intro. intros r s5 Hs. apply sign_inputs in Hs as [Hs (txn' & -> & Hin)]. simpl.
  wp_step. wp_step. apply wp_intro. intros r s6 Hb. apply broadcast_inputs in Hb as [Hnp Hb].
  unfold wallet in *. injection Hs as Hs1 Hs2. injection Hf as Hf1 Hf2. unfold leaked in *.
  assert (all_inputs [txn'] = inputs txn) as Hall by (unfold all_inputs; csimpl; rewrite Hin; set_solver).
  destruct r as [[]|e|]; simpl; [| |done].
  - wp_step. injection Hb as -> ->. rewrite Hall, Hs1, Hs2, Hf1, Hf2. set_solver.
  - apply wp_intro. intros r s7 Hr. apply release_inputs in Hr. unfold wallet in Hr. injection Hr as -> ->.
    injection Hb as -> ->. rewrite Hall, Hs1, Hs2, Hf1, Hf2. set_solver.
Qed.

Lemma broadcast_batch_leaks contracts s0 s :
  leaked s ⊆ leaked s0 → wp (broadcast_batch contracts) (λ _ s', leaked s' ⊆ leaked s0) s.
Proof.
  revert s. induction contracts as [|i l IH]; intros s Hl; simpl; [by wp_step|].
  wp_step. apply wp_quiet; [apply quiet_ctx|]. intros r s1 H1.
  assert (leaked s1 ⊆ leaked s0) as Hl1 by by rewrite (leaked_wallet _ _ H1).
  destruct r as [[e|]|e|]; simpl; [by wp_step| |done..].
  wp_step. wp_step. eapply wp_mono; [|by apply broadcast_revision_leaks]. intros r s2 Hl2. simpl.
  assert (wp (let* _ := try (mt_MarkBroadcastAttempt i) in broadcast_batch l) (λ _ s', leaked s' ⊆ leaked s0) s2) as Hrest.
  { wp_step. wp_step. apply wp_quiet; [apply quiet_attempt|]. intros r' s3 H3.
    assert (leaked s3 ⊆ leaked s0) as Hl3 by by rewrite (leaked_wallet _ _ H3). destruct r'; simpl; auto. }
  destruct r; simpl; auto.
Qed.

(** Broadcasting revisions leaks no wallet inputs: after any round, however it
    ends, the inputs that are reserved without having been published are among
    those that were before it. *)
Theorem broadcast_leaks_nothing (revisionBroadcastInterval : Z) (fuel : nat) (s : S) :
  leaked (performBroadcastContractRevisions revisionBroadcastInterval fuel s).2 ⊆ leaked s.
Proof.
  change (wp (performBroadcastContractRevisions revisionBroadcastInterval fuel) (λ _ s', leaked s' ⊆ leaked s) s).
  unfold performBroadcastContractRevisions. wp_step. apply wp_quiet; [apply quiet_now|]. intros r s1 H1.
  apply leaked_wallet in H1. destruct r as [now|e|]; simpl; [|by rewrite H1..].
  assert (leaked s1 ⊆ leaked s) as Hl by by rewrite H1. clear H1. revert s1 Hl.
  induction fuel as [|fuel IH]; intros s1 Hl; simpl; [by wp_step|].
  wp_step. apply wp_quiet; [apply quiet_ctx|]. intros r s2 H2%leaked_wallet.
  destruct r as [[e|]|e|]; simpl; [wp_step; by rewrite H2| |by rewrite H2..].
  wp_step. wp_step. apply wp_quiet; [apply quiet_fetch|]. intros r s3 H3%leaked_wallet.
  destruct r as [contracts|e|]; simpl; [|by rewrite H3, H2..].
  wp_step. eapply wp_mono; [|apply (broadcast_batch_leaks contracts s); by rewrite H3, H2].
  intros r s4 Hl4. destruct r as [[e|]|e|]; simpl; [by wp_step| |done..]. case_match; [by wp_step|by apply IH].
Qed.

End properties.

Module MaintenanceWitness.
#[local] Existing Instances U128.ops U128.laws TestRhp.ops TestRhp.laws TestRhp.methods.
#[local] Existing Instances RevisionWitness.store.

(** The database, the reserved and the published inputs. A transaction is the set
    of its inputs; every funding takes input 5. *)
Abbreviation world := (RevisionWitness.db * (gset N * gset N))%type (only parsing).
#[local] Instance types : MaintTypes := {| FileContractElement := N; MaintTxn := gset N; TxnBasis := unit |}.
#[local] Instance ctx : CtxDep world := {| ctx_Err := mret None |}.
#[local] Instance mstore : MaintStore world := {|
  mt_MaintenanceSettings := mret DefaultMaintenanceSettings;
  mt_MarkUnrenewableContractsBad _ := mret tt;
  mt_ContractsForFunding _ _ := mret [];
  mt_ContractsForBroadcasting _ _ := mret [7%N];
  mt_MarkBroadcastAttempt _ := mret tt;
  mt_ContractElement i := λ s, (Ok i, s);
  mt_LastScannedIndex := mret 0%N |}.
(** A network that rejects every transaction set. *)
#[local] Instance env : MaintEnv world := {|
  me_RecommendedFee := λ s, (Ok (U128.wrapped 1), s);
  me_FundV2Transaction txn _ := λ '(d, (res, pub)), (Ok (tt, [0], {[5%N]} ∪ txn), (d, ({[5%N]} ∪ txn ∪ res, pub)));
  me_SignV2Inputs txn _ := λ s, (Ok txn, s);
  me_BroadcastV2TransactionSet _ _ := throw (EMsg "rejected");
  me_ReleaseInputs txns := λ '(d, (res, pub)), (Ok tt, (d, (res ∖ ⋃ (id <$> txns), pub)));
  me_SplitUTXO _ _ := mret tt;
  me_BlockTimestamp _ := mret (Some 0%Z);
  me_Now := mret 0%Z;
  revisionTxn _ _ _ := ∅ |}.

Definition inputs_of (txn : gset N) : gset N := txn.

Lemma quiet_read_second i (s : world) : (store_ContractRevision i s).2.2 = s.2.
Proof. apply (FunderWitness.lift1_locals (store_ContractRevision i) s). Qed.

#[local] Instance wallet_laws : WalletLaws (λ s : world, s.2.1) (λ s : world, s.2.2) inputs_of.
Proof.
  split; try done.
  - intros txn fee [d [res pub]] r s' H. cbn in H. injection H as <- <-. done.
  - intros txn ts s r s' H. injection H as <- <-. eauto.
  - intros b txns s r s' H. injection H as <- <-. done.
  - intros txns [d [res pub]] r s' H. cbn in H. injection H as _ <-. done.
  - intros i s. unfold wallet. by rewrite quiet_read_second.
Qed.

Definition world0 : world := (RevisionWitness.s0, ({[9%N]}, ∅)).

Example broadcast_leaks_nothing_witness :
  leaked (λ s : world, s.2.1) (λ s : world, s.2.2) (performBroadcastContractRevisions Hour 2 world0).2 ⊆
  leaked (λ s : world, s.2.1) (λ s : world, s.2.2) world0.
Proof. apply (broadcast_leaks_nothing (T:=types) _ _ inputs_of). Defined.

End MaintenanceWitness.
