(* ===== verification/Migrations.v ===== *)
(** * Migrating slabs (src/slabs/migrations.go)

    Which sectors of a slab move and to which hosts, the migration of a slab with
    the uploads of Uploads.v, and how the primary node stores the outcome. *)

From S2P Require Import Prelude Float External Contract Hosts HostQueue Deps Slabs Uploads.

Section migrations.
Context {C : CurrencyOps} {R : RhpOps} {MO : MathOps}.

(** [MigrationState] *)
Record MigrationState := mkState {
  MS_Height : Z;
  MS_HealthyContracts : list Contract;
  MS_Hosts : list Host;
  MS_Settings : MaintenanceSettings;
  MS_MinHostDistanceKm : float64 }.

(** [MigrationState{}] *)
Definition no_state : MigrationState := mkState 0 [] [] (mkMaintenance false 0 0 0) (of_int 0).

Record MigrationBatch := mkBatch { MB_Slabs : list Slab; MB_State : MigrationState; NextCursor : Z }.

Record MigrationResult := mkResult {
  MR_SlabID : SlabID; Migrated : list Shard; Lost : list Shard; Recovered : bool; Success : bool }.

(** ** Which sectors move *)

(** [hostsMap] *)
Definition good_hosts (hosts : list Host) : gmap PublicKey Host :=
  foldl (λ m h, if IsGood h then <[Host.PublicKey h := h]> m else m) ∅ hosts.

(** [healthyContractMap] and [hasAppendContract] *)
Fixpoint contract_maps (state : MigrationState) (hostsMap : gmap PublicKey Host) (contracts : list Contract)
    (healthy : gmap FileContractID Contract) (hasAppend : gset PublicKey) :
    result (gmap FileContractID Contract * gset PublicKey) :=
  match contracts with
  | [] => mret (healthy, hasAppend)
  | contract :: contracts =>
      match hostsMap !! HostKey contract with
      | None => contract_maps state hostsMap contracts healthy hasAppend
      | Some host =>
          let healthy := <[ID contract := contract]> healthy in
          bad ← GoodForAppend contract (Host.Settings host) (RenewWindow (MS_Settings state)) (MS_Height state) (Period (MS_Settings state));
          contract_maps state hostsMap contracts healthy
            (if bad : option error then hasAppend else {[HostKey contract]} ∪ hasAppend)
      end
  end.

(** The variables of the loop over the sectors. *)
Record scan_state := mkScan {
  sc_hosts : gmap PublicKey Host; sc_healthy : gmap FileContractID Contract; sc_set : SpacedSet; sc_migrate : list nat }.

Definition scan_sector (st : scan_state) (i : nat) (sector : Sector) : scan_state :=
  let migrate st := mkScan (sc_hosts st) (sc_healthy st) (sc_set st) (sc_migrate st ++ [i]) in
  match Sec_HostKey sector with
  | None => migrate st
  | Some hk =>
      match sc_hosts st !! hk with
      | None => migrate st
      | Some host =>
          let st := mkScan (delete hk (sc_hosts st)) (sc_healthy st) (sc_set st) (sc_migrate st) in
          let keep st := mkScan (sc_hosts st) (sc_healthy st) (Add (sc_set st) host).1 (sc_migrate st) in
          match Sec_ContractID sector with
          | Some cid =>
              match sc_healthy st !! cid with
              | None => migrate st
              | Some _ => keep (mkScan (sc_hosts st) (delete cid (sc_healthy st)) (sc_set st) (sc_migrate st))
              end
          | None => keep st
          end
      end
  end.

Definition scan (st : scan_state) (sectors : list Sector) : scan_state :=
  foldl (λ st p, scan_sector st p.1 p.2) st (imap pair sectors).

(** The order in which [range] visits the map of hosts. *)
Variable range_hosts : gmap PublicKey Host → list Host.

Fixpoint pick_candidates (hasAppend : gset PublicKey) (set : SpacedSet) (hosts : list Host) : list PublicKey :=
  match hosts with
  | [] => []
  | host :: hosts =>
      if negb (bool_decide (Host.PublicKey host ∈ hasAppend)) then pick_candidates hasAppend set hosts
      else if negb (GoodForUpload host) then pick_candidates hasAppend set hosts
      else
        let '(set, ok) := Add set host in
        if ok : bool then Host.PublicKey host :: pick_candidates hasAppend set hosts
        else pick_candidates hasAppend set hosts
  end.

Definition sectorsToMigrate (slab : Slab) (state : MigrationState) : result (list nat * list PublicKey) :=
  let hostsMap := good_hosts (MS_Hosts state) in
  maps ← contract_maps state hostsMap (MS_HealthyContracts state) ∅ ∅;
  let '(healthy, hasAppend) := maps in
  let st := scan (mkScan hostsMap healthy (NewSpacedSet (MS_MinHostDistanceKm state)) []) (Slab_Sectors slab) in
  mret (sc_migrate st, pick_candidates hasAppend (sc_set st) (range_hosts (sc_hosts st))).

(** *** The maps *)

Lemma good_hosts_lookup hosts k h :
  good_hosts hosts !! k = Some h → h ∈ hosts ∧ Host.PublicKey h = k ∧ IsGood h = true.
Proof.
  unfold good_hosts. assert (∀ (m : gmap PublicKey Host), foldl (λ m h, if IsGood h then <[Host.PublicKey h := h]> m else m) m hosts !! k = Some h →
    m !! k = Some h ∨ h ∈ hosts ∧ Host.PublicKey h = k ∧ IsGood h = true) as H.
  { induction hosts as [|x l IH]; intros m Hm; simpl in *; [by left|].
    apply IH in Hm as [Hm|(? & ? & ?)]; [|right; split_and!; [by right|done..]].
    destruct (IsGood x) eqn:Hx; [|by left]. apply lookup_insert_Some in Hm as [[<- <-]|[_ Hm]]; [|by left].
    right. split_and!; [left|done..]. }
  intros Hm. apply H in Hm as [Hm|]; [by rewrite lookup_empty in Hm|done].
Qed.

Lemma good_hosts_None hosts k h :
  good_hosts hosts !! k = None → h ∈ hosts → Host.PublicKey h = k → IsGood h = false.
Proof.
  unfold good_hosts. assert (∀ (m : gmap PublicKey Host), foldl (λ m h, if IsGood h then <[Host.PublicKey h := h]> m else m) m hosts !! k = None →
    m !! k = None ∧ (h ∈ hosts → Host.PublicKey h = k → IsGood h = false)) as H.
  { induction hosts as [|x l IH]; intros m Hm; simpl in *; [split; [done|]; by intros ?%elem_of_nil|].
    apply IH in Hm as [Hm Hl]. destruct (IsGood x) eqn:Hx.
    - apply lookup_insert_None in Hm as [Hm Hne]. split; [done|].
      intros [->|Hin]%elem_of_cons Hk; [done|auto].
    - split; [done|]. intros [->|Hin]%elem_of_cons Hk; [done|auto]. }
  intros Hm. by apply H in Hm as [_ ?].
Qed.

(** A healthy contract of a good host. *)
Definition healthy_contract (state : MigrationState) (c : Contract) : Prop :=
  c ∈ MS_HealthyContracts state ∧ is_Some (good_hosts (MS_Hosts state) !! HostKey c).

Definition appendable (state : MigrationState) (h : Host) : Prop :=
  ∃ c, c ∈ MS_HealthyContracts state ∧ HostKey c = Host.PublicKey h ∧
    GoodForAppend c (Host.Settings h) (RenewWindow (MS_Settings state)) (MS_Height state) (Period (MS_Settings state)) = Ok None.

Lemma contract_maps_spec state cs healthy hac healthy' hac' :
  contract_maps state (good_hosts (MS_Hosts state)) cs healthy hac = Ok (healthy', hac') →
  (∀ i c, healthy' !! i = Some c → healthy !! i = Some c ∨ c ∈ cs ∧ ID c = i ∧ is_Some (good_hosts (MS_Hosts state) !! HostKey c)) ∧
  (∀ i, healthy' !! i = None → healthy !! i = None ∧ ∀ c, c ∈ cs → ID c = i → good_hosts (MS_Hosts state) !! HostKey c = None) ∧
  (∀ k, k ∈ hac' → k ∈ hac ∨ ∃ c h, c ∈ cs ∧ HostKey c = k ∧ good_hosts (MS_Hosts state) !! k = Some h ∧
     GoodForAppend c (Host.Settings h) (RenewWindow (MS_Settings state)) (MS_Height state) (Period (MS_Settings state)) = Ok None).
Proof.
  revert healthy hac. induction cs as [|c cs IH]; intros healthy hac H; simpl in H.
  { injection H as -> ->. split_and!; [by left|intros i Hi; split; [done|by intros c ?%elem_of_nil]|by left]. }
  destruct (good_hosts (MS_Hosts state) !! HostKey c) as [host|] eqn:Eh.
  - apply bind_ok in H as (bad & Hbad & H). apply IH in H as (H1 & H2 & H3). split_and!.
    + intros i c' [Hi|(? & ? & ?)]%H1; [|right; split_and!; [by right|done..]].
      apply lookup_insert_Some in Hi as [[<- <-]|[_ Hi]]; [right; split_and!; [left|done|by eexists]|by left].
    + intros i [Hi Hc]%H2. apply lookup_insert_None in Hi as [Hi Hne]. split; [done|].
      intros c' [->|Hin]%elem_of_cons Hk; [done|auto].
    + intros k [Hk|(c' & h & ? & ? & ? & ?)]%H3; [|right; exists c', h; split_and!; [by right|done..]].
      destruct bad as [e|]; [by left|]. apply elem_of_union in Hk as [->%elem_of_singleton|Hk]; [|by left].
      right. exists c, host. split_and!; [left|done..].
  - apply IH in H as (H1 & H2 & H3). split_and!.
    + intros i c' [?|(? & ? & ?)]%H1; [by left|right; split_and!; [by right|done..]].
    + intros i [? Hc]%H2. split; [done|]. intros c' [->|Hin]%elem_of_cons Hk; [done|auto].
    + intros k [?|(c' & h & ? & ? & ? & ?)]%H3; [by left|right; exists c', h; split_and!; [by right|done..]].
Qed.

(** *** The loop over the sectors *)

Lemma add_all_snoc s l h : (add_all s (l ++ [h])).1 = (Add (add_all s l).1 h).1.
Proof.
  revert s. induction l as [|x l IH]; intros s; simpl; [by destruct (Add s h)|].
  destruct (Add s x) as [s1 ok]. specialize (IH s1).
  destruct (add_all s1 (l ++ [h])), (add_all s1 l). done.
Qed.

(** Sector [i] stays. *)
Definition stays (sectors : list Sector) (moved : list nat) (i : nat) (sec : Sector) : Prop :=
  sectors !! i = Some sec ∧ i ∉ moved.

(** Why a sector moves. *)
Definition must_move (hostsMap : gmap PublicKey Host) (healthy : gmap FileContractID Contract)
    (sectors : list Sector) (moved : list nat) (i : nat) (sec : Sector) : Prop :=
  match Sec_HostKey sec with
  | None => True
  | Some hk =>
      hostsMap !! hk = None ∨
      (∃ j sec', j < i ∧ sectors !! j = Some sec' ∧ Sec_HostKey sec' = Some hk) ∨
      ∃ cid, Sec_ContractID sec = Some cid ∧
        (healthy !! cid = None ∨ ∃ j sec', j < i ∧ stays sectors moved j sec' ∧ Sec_ContractID sec' = Some cid)
  end.

Record ScanInv (hostsMap : gmap PublicKey Host) (healthy : gmap FileContractID Contract) (d : float64)
    (sectors : list Sector) (st : scan_state) : Prop := {
  sv_hosts : ∀ k h, sc_hosts st !! k = Some h ↔ hostsMap !! k = Some h ∧ ∀ sec, sec ∈ sectors → Sec_HostKey sec ≠ Some k;
  sv_healthy : ∀ c x, sc_healthy st !! c = Some x ↔
    healthy !! c = Some x ∧ ∀ j sec, stays sectors (sc_migrate st) j sec → Sec_ContractID sec ≠ Some c;
  sv_bound : ∀ i, i ∈ sc_migrate st → i < length sectors;
  sv_nodup : NoDup (sc_migrate st);
  sv_iff : ∀ i sec, sectors !! i = Some sec → i ∈ sc_migrate st ↔ must_move hostsMap healthy sectors (sc_migrate st) i sec;
  sv_set : ∃ kept, sc_set st = (add_all (NewSpacedSet d) kept).1 ∧
    ∀ h, h ∈ kept ↔ ∃ i sec hk, stays sectors (sc_migrate st) i sec ∧ Sec_HostKey sec = Some hk ∧ hostsMap !! hk = Some h }.

Lemma stays_snoc sectors x moved i sec :
  (∀ i, i ∈ moved → i < length sectors) →
  stays (sectors ++ [x]) moved i sec ↔ stays sectors moved i sec ∨ i = length sectors ∧ sec = x.
Proof.
  intros Hb. unfold stays. rewrite lookup_app. destruct (sectors !! i) eqn:E.
  - split; [by left|]. intros [?|[-> _]]; [done|]. apply lookup_lt_Some in E. lia.
  - apply lookup_ge_None in E. destruct (decide (i = length sectors)) as [->|].
    + rewrite Nat.sub_diag. simpl. split; [intros [[= ->] _]; by right|]. intros [[? _]|[_ ->]]; [done|].
      split; [done|]. intros H%Hb. lia.
    + rewrite list_lookup_singleton_Some. split; [intros [[? _] _]; lia|]. intros [[? _]|[? _]]; [done|lia].
Qed.

Lemma stays_moved sectors x moved i sec :
  (∀ i, i ∈ moved → i < length sectors) →
  stays (sectors ++ [x]) (moved ++ [length sectors]) i sec ↔ stays sectors moved i sec.
Proof.
  intros Hb. unfold stays. rewrite not_elem_of_app, list_elem_of_singleton. split.
  - intros [H [? Hne]]. rewrite lookup_app in H. destruct (sectors !! i) eqn:E; [naive_solver|].
    apply lookup_ge_None in E. apply list_lookup_singleton_Some in H as [? _]. lia.
  - intros [H ?]. rewrite lookup_app, H. split_and!; [done..|]. apply lookup_lt_Some in H. lia.
Qed.

(** Later sectors do not matter for whether an earlier one moves. *)
Lemma must_move_snoc hm he sectors x moved moved' i sec :
  i < length sectors →
  (∀ j sec', j < i → stays (sectors ++ [x]) moved' j sec' ↔ stays sectors moved j sec') →
  must_move hm he (sectors ++ [x]) moved' i sec ↔ must_move hm he sectors moved i sec.
Proof.
  intros Hi Hst. unfold must_move. destruct (Sec_HostKey sec); [|done].
  assert (∀ j sec', j < i → (sectors ++ [x]) !! j = Some sec' ↔ sectors !! j = Some sec') as Hl
    by (intros j sec' Hj; by rewrite lookup_app_l by lia).
  split; (intros [?|[(j & s' & Hj & Hs & ?)|(cid & ? & [?|(j & s' & Hj & Hs & ?)])]];
    [by left
    |right; left; exists j, s'; split_and!; [done|by apply Hl|done]
    |right; right; exists cid; split; [done|by left]
    |right; right; exists cid; split; [done|right; exists j, s'; split_and!; [done|by apply Hst|done]]]).
Qed.

Lemma ScanInv_init hm he d : ScanInv hm he d [] (mkScan hm he (NewSpacedSet d) []).
Proof.
  constructor; simpl.
  - intros k h. split; [|naive_solver]. intros ?. split; [done|]. by intros sec ?%elem_of_nil.
  - intros c x. split; [|naive_solver]. intros ?. split; [done|]. intros j sec [? _]. done.
  - by intros i ?%elem_of_nil.
  - constructor.
  - intros i sec H. done.
  - exists []. split; [done|]. intros h. split; [by intros ?%elem_of_nil|]. intros (i & sec & hk & [? _] & _). done.
Qed.

(** Searching the sectors. *)
Lemma sector_on_host (sectors : list Sector) hk :
  (∃ j sec, sectors !! j = Some sec ∧ Sec_HostKey sec = Some hk) ∨ ∀ sec, sec ∈ sectors → Sec_HostKey sec ≠ Some hk.
Proof.
  destruct (decide (Exists (λ sec, Sec_HostKey sec = Some hk) sectors)) as [H|H].
  - left. apply list.Exists_exists in H as (sec & [j Hj]%list_elem_of_lookup & Hk). eauto.
  - right. intros sec Hs Hk. apply H, list.Exists_exists. eauto.
Qed.

Lemma stays_on_contract (sectors : list Sector) (moved : list nat) cid :
  (∃ j sec, stays sectors moved j sec ∧ Sec_ContractID sec = Some cid) ∨
  ∀ j sec, stays sectors moved j sec → Sec_ContractID sec ≠ Some cid.
Proof.
  destruct (decide (Exists (λ p, p.1 ∉ moved ∧ Sec_ContractID p.2 = Some cid) (imap pair sectors))) as [H|H].
  - left. apply list.Exists_exists in H as ([j sec] & [k Hk]%list_elem_of_lookup & Hm & Hc).
    rewrite list_lookup_imap in Hk. destruct (sectors !! k) eqn:E; [|done]. injection Hk as <- <-. exists k, s. done.
  - right. intros j sec [Hj Hm] Hc. apply H, list.Exists_exists. exists (j, sec). split; [|done].
    apply list_elem_of_lookup. exists j. by rewrite list_lookup_imap, Hj.
Qed.

Lemma ScanInv_step hm he d sectors x st :
  ScanInv hm he d sectors st → ScanInv hm he d (sectors ++ [x]) (scan_sector st (length sectors) x).
Proof.
  intros I. destruct I as [Hh Hc Hb Hnd Hiff (kept & Hset & Hkept)].
  set (n := length sectors) in *.
  assert (∀ i sec, (sectors ++ [x]) !! i = Some sec → i < n ∧ sectors !! i = Some sec ∨ i = n ∧ sec = x) as Hlook.
  { intros i sec H. rewrite lookup_app in H. destruct (sectors !! i) eqn:E.
    - left. split; [by apply lookup_lt_Some in E|done].
    - right. apply lookup_ge_None in E. apply list_lookup_singleton_Some in H as [? ->]. split; [lia|done]. }
  assert ((sectors ++ [x]) !! n = Some x) as Hxn by (by apply list_lookup_middle).
  (* a sector that moves *)
  assert (∀ hosts', (∀ k h, hosts' !! k = Some h ↔ sc_hosts st !! k = Some h ∧ Sec_HostKey x ≠ Some k) →
    must_move hm he (sectors ++ [x]) (sc_migrate st ++ [n]) n x →
    ScanInv hm he d (sectors ++ [x]) (mkScan hosts' (sc_healthy st) (sc_set st) (sc_migrate st ++ [n]))) as Hmove.
  { intros hosts' Hh' Hmust.
    assert (∀ j sec, stays (sectors ++ [x]) (sc_migrate st ++ [n]) j sec ↔ stays sectors (sc_migrate st) j sec) as Hst
      by (intros; by apply stays_moved).
    constructor; simpl.
    - intros k h. rewrite Hh', Hh. setoid_rewrite elem_of_app. setoid_rewrite list_elem_of_singleton. naive_solver.
    - intros c y. rewrite Hc. by setoid_rewrite Hst.
    - intros i [Hi%Hb| ->%list_elem_of_singleton]%elem_of_app; rewrite length_app; simpl; lia.
    - apply NoDup_app. split_and!; [done| |apply NoDup_singleton]. intros i Hi%Hb ->%list_elem_of_singleton. lia.
    - intros i sec [[Hi Hs]|[-> ->]]%Hlook.
      + rewrite (must_move_snoc hm he sectors x (sc_migrate st)), <-Hiff by (done || naive_solver).
        rewrite elem_of_app, list_elem_of_singleton. naive_solver lia.
      + split; [done|]. intros _. apply elem_of_app. right. by apply list_elem_of_singleton.
    - exists kept. split; [done|]. intros h. rewrite Hkept. by setoid_rewrite Hst. }
  (* a sector that stays *)
  assert (∀ hk h healthy', Sec_HostKey x = Some hk → sc_hosts st !! hk = Some h →
    (∀ c y, healthy' !! c = Some y ↔ sc_healthy st !! c = Some y ∧ Sec_ContractID x ≠ Some c) →
    (∀ c, Sec_ContractID x = Some c → is_Some (sc_healthy st !! c)) →
    ScanInv hm he d (sectors ++ [x]) (mkScan (delete hk (sc_hosts st)) healthy' (Add (sc_set st) h).1 (sc_migrate st))) as Hkeep.
  { intros hk h healthy' Hx Hhk Hc' Hcid.
    assert (∀ j sec, stays (sectors ++ [x]) (sc_migrate st) j sec ↔ stays sectors (sc_migrate st) j sec ∨ j = n ∧ sec = x) as Hst
      by (intros; by apply stays_snoc).
    constructor; simpl.
    - intros k h'. rewrite lookup_delete_Some, Hh. setoid_rewrite elem_of_app. setoid_rewrite list_elem_of_singleton.
      naive_solver.
    - intros c y. rewrite Hc', Hc. setoid_rewrite Hst. naive_solver.
    - intros i Hi%Hb. rewrite length_app. simpl. lia.
    - done.
    - intros i sec [[Hi Hs]|[-> ->]]%Hlook.
      + rewrite (must_move_snoc hm he sectors x (sc_migrate st)), <-Hiff; [done|done|done|].
        intros j sec' Hj. rewrite Hst. naive_solver lia.
      + split; [intros Hn%Hb; lia|]. intros Hmust. exfalso. unfold must_move in Hmust. rewrite Hx in Hmust.
        apply Hh in Hhk as [Hhm Hnew]. destruct Hmust as [Hm|[(j & s' & Hj & Hs & Hk)|(c & Hxc & [Hm|(j & s' & Hj & Hs & Hk)])]].
        * congruence.
        * rewrite lookup_app_l in Hs by done. apply (Hnew s'); [by eapply list_elem_of_lookup_2|done].
        * destruct (Hcid c Hxc) as [y [Hy _]%Hc]. congruence.
        * apply Hst in Hs as [Hs|[-> _]]; [|lia]. destruct (Hcid c Hxc) as [y [_ Hy]%Hc]. by apply (Hy j s').
    - exists (kept ++ [h]). rewrite add_all_snoc, <-Hset. split; [done|]. intros h'.
      rewrite elem_of_app, list_elem_of_singleton, Hkept. setoid_rewrite Hst. apply Hh in Hhk as [Hhm _]. split.
      + intros [(i & sec & hk' & ? & ? & ?)| ->]; [exists i, sec, hk'; split_and!; [by left|done..]|].
        exists n, x, hk. split_and!; [by right|done..].
      + intros (i & sec & hk' & [?|[-> ->]] & ? & ?); [left; by exists i, sec, hk'|right; congruence]. }
  unfold scan_sector. destruct (Sec_HostKey x) as [hk|] eqn:Hx.
  2: { apply Hmove; [naive_solver|]. unfold must_move. by rewrite Hx. }
  destruct (sc_hosts st !! hk) as [h|] eqn:Hhk.
  2: { apply Hmove; [intros k h'; split; [|naive_solver]; intros Hk; split; [done|]; intros [= ->]; congruence|].
       unfold must_move. rewrite Hx. destruct (hm !! hk) as [h|] eqn:Eh; [right; left|by left].
       destruct (sector_on_host sectors hk) as [(j & sec & Hj & Hk)|Hnone].
       - exists j, sec. split_and!; [by apply lookup_lt_Some in Hj|by rewrite lookup_app_l by (by apply lookup_lt_Some in Hj)|done].
       - assert (sc_hosts st !! hk = Some h) by (by apply Hh). congruence. }
  simpl. destruct (Sec_ContractID x) as [cid|] eqn:Hcx; [destruct (sc_healthy st !! cid) as [y|] eqn:Hcid|].
  - apply (Hkeep hk h); [done|done| |naive_solver]. intros c z. rewrite lookup_delete_Some. naive_solver.
  - apply Hmove; [intros k h'; rewrite lookup_delete_Some; naive_solver|].
    unfold must_move. rewrite Hx. right. right. exists cid. split; [done|].
    destruct (he !! cid) as [y|] eqn:Ey; [right|by left].
    destruct (stays_on_contract sectors (sc_migrate st) cid) as [(j & sec & Hj & Hk)|Hnone].
    + exists j, sec. split_and!; [by destruct Hj as [?%lookup_lt_Some _]|by apply stays_moved|done].
    + assert (sc_healthy st !! cid = Some y) by (by apply Hc). congruence.
  - apply (Hkeep hk h); [done|done|naive_solver|naive_solver].
Qed.

Lemma scan_inv hm he d sectors :
  ScanInv hm he d sectors (scan (mkScan hm he (NewSpacedSet d) []) sectors).
Proof.
  unfold scan. induction sectors as [|x l IH] using rev_ind; [apply ScanInv_init|].
  rewrite imap_app, foldl_app. simpl. rewrite Nat.add_0_r. by apply ScanInv_step.
Qed.

(** C32. A sector moves exactly when it was lost, its host is not good, an earlier
    sector of the slab is on the same host, or it is pinned to a contract that is not
    a healthy contract of a good host or that an earlier sector which stays is
    pinned to. So what stays is on distinct good hosts and distinct healthy
    contracts. *)
Theorem sectors_to_migrate_exact (slab : Slab) (state : MigrationState) (moved : list nat) (candidates : list PublicKey) :
  sectorsToMigrate slab state = Ok (moved, candidates) →
  NoDup moved ∧ (∀ i, i ∈ moved → i < length (Slab_Sectors slab)) ∧
  ∀ i sec, Slab_Sectors slab !! i = Some sec →
    i ∈ moved ↔
    match Sec_HostKey sec with
    | None => True
    | Some hk =>
        (∀ h, h ∈ MS_Hosts state → Host.PublicKey h = hk → IsGood h = false) ∨
        (∃ j sec', j < i ∧ Slab_Sectors slab !! j = Some sec' ∧ Sec_HostKey sec' = Some hk) ∨
        ∃ cid, Sec_ContractID sec = Some cid ∧
          ((∀ c, healthy_contract state c → ID c ≠ cid) ∨
           ∃ j sec', j < i ∧ Slab_Sectors slab !! j = Some sec' ∧ j ∉ moved ∧ Sec_ContractID sec' = Some cid)
    end.
Proof.
  unfold sectorsToMigrate. intros ([healthy hac] & Hmaps & [= <- <-])%bind_ok.
  apply contract_maps_spec in Hmaps as (Hh & Hn & _).
  pose proof (scan_inv (good_hosts (MS_Hosts state)) healthy (MS_MinHostDistanceKm state) (Slab_Sectors slab)) as I.
  set (st := scan _ _) in *. split; [apply I|]. split; [apply I|]. intros i sec Hi.
  rewrite (sv_iff _ _ _ _ _ I i sec Hi). unfold must_move. destruct (Sec_HostKey sec) as [hk|]; [|done].
  assert (good_hosts (MS_Hosts state) !! hk = None ↔
    ∀ h, h ∈ MS_Hosts state → Host.PublicKey h = hk → IsGood h = false) as ->.
  { split; [intros Hg h; by apply good_hosts_None|]. intros Hg.
    destruct (good_hosts (MS_Hosts state) !! hk) as [h|] eqn:E; [|done].
    apply good_hosts_lookup in E as (Hin & Hk & Hgood). rewrite (Hg h Hin Hk) in Hgood. done. }
  assert (∀ cid, healthy !! cid = None ↔ ∀ c, healthy_contract state c → ID c ≠ cid) as Hcid.
  { intros cid. split.
    - intros [_ Hc]%Hn c [Hin [h Hh']] Hid. rewrite (Hc c Hin Hid) in Hh'. done.
    - intros Hc. destruct (healthy !! cid) as [c|] eqn:E; [|done].
      apply Hh in E as [E|(Hin & Hid & Hg)]; [by rewrite lookup_empty in E|].
      exfalso. by apply (Hc c). }
  unfold stays. split.
  - intros [?|[?|(cid & ? & [Hc|(j & s & ? & [? ?] & ?)])]]; [by left|by right; left|..];
      (right; right; exists cid; split; [done|]); [left; by apply Hcid|right; by exists j, s].
  - intros [?|[?|(cid & ? & [Hc|(j & s & ? & ? & ? & ?)])]]; [by left|by right; left|..];
      (right; right; exists cid; split; [done|]); [left; by apply Hcid|right; by exists j, s].
Qed.

(** *** The candidates *)

Lemma pick_candidates_add_all hac set hosts :
  pick_candidates hac set hosts =
  Host.PublicKey <$> (add_all set (filter (λ h, Host.PublicKey h ∈ hac ∧ GoodForUpload h = true) hosts)).2.
Proof.
  revert set. induction hosts as [|h l IH]; intros set; [done|]. simpl. rewrite filter_cons.
  case_bool_decide as Hk; simpl; [|by rewrite decide_False by naive_solver].
  destruct (GoodForUpload h) eqn:Hg; simpl; [|by rewrite decide_False by naive_solver].
  rewrite decide_True by done. simpl. destruct (Add set h) as [s1 ok]. rewrite IH.
  destruct (add_all s1 _) as [s2 kept]. by destruct ok.
Qed.

(** What was added is selected at its location, and is new. *)
Lemma add_all_added {ML : MathLaws MO} s hosts h :
  h ∈ (add_all s hosts).2 →
  selected (add_all s hosts).1 !! Host.PublicKey h = Some (host_Location h) ∧ selected s !! Host.PublicKey h = None.
Proof.
  revert s. induction hosts as [|x l IH]; intros s; simpl; [by intros ?%elem_of_nil|].
  pose proof (Add_subset s x) as Hsub. destruct (Add s x) as [s1 ok] eqn:E. simpl in Hsub. unfold Add in E.
  pose proof (add_all_spec l s1) as Hspec. specialize (IH s1).
  destruct (add_all s1 l) as [s2 kept]. destruct Hspec as (_ & Hsub2 & _). simpl in *.
  destruct (CanAddHost s x) eqn:Hc; injection E as <- <-; [|auto].
  apply CanAddHost_spec in Hc as [Hnew _].
  intros [->|Hin]%elem_of_cons.
  - split; [|done]. eapply lookup_weaken; [|done]. simpl. by rewrite lookup_insert_eq.
  - destruct (IH Hin) as [? Hn]. split; [done|]. simpl in Hn. by apply lookup_insert_None in Hn as [? _].
Qed.

Lemma add_all_keys_nodup {ML : MathLaws MO} s hosts : NoDup (Host.PublicKey <$> (add_all s hosts).2).
Proof.
  revert s. induction hosts as [|x l IH]; intros s; simpl; [constructor|].
  destruct (Add s x) as [s1 ok] eqn:E. unfold Add in E. specialize (IH s1).
  pose proof (add_all_added s1 l) as Hadd. destruct (add_all s1 l) as [s2 kept]. simpl in *.
  destruct (CanAddHost s x); injection E as <- <-; [|done]. simpl. constructor; [|done].
  intros (h & Hk & [_ Hn]%Hadd)%list_elem_of_fmap. simpl in Hn. rewrite <-Hk in Hn. by rewrite lookup_insert_eq in Hn.
Qed.

(** Host [k] stores a sector that stays. *)
Definition keeps_sector (slab : Slab) (state : MigrationState) (moved : list nat) (k : Host) : Prop :=
  good_hosts (MS_Hosts state) !! Host.PublicKey k = Some k ∧
  ∃ i sec, stays (Slab_Sectors slab) moved i sec ∧ Sec_HostKey sec = Some (Host.PublicKey k).

Definition too_close (state : MigrationState) (a b : Host) : Prop :=
  flt (HaversineDistanceKm (host_Location a) (host_Location b)) (MS_MinHostDistanceKm state) = true.

(** The hosts behind the candidates. *)
Lemma chosen_hosts {ML : MathLaws MO} (slab : Slab) (state : MigrationState) healthy hac :
  (∀ m, range_hosts m ≡ₚ (map_to_list m).*2) →
  let st := scan (mkScan (good_hosts (MS_Hosts state)) healthy (NewSpacedSet (MS_MinHostDistanceKm state)) []) (Slab_Sectors slab) in
  let chosen := (add_all (sc_set st) (filter (λ h, Host.PublicKey h ∈ hac ∧ GoodForUpload h = true) (range_hosts (sc_hosts st)))).2 in
  pick_candidates hac (sc_set st) (range_hosts (sc_hosts st)) = Host.PublicKey <$> chosen ∧
  NoDup (Host.PublicKey <$> chosen) ∧
  ∀ h, h ∈ chosen → good_hosts (MS_Hosts state) !! Host.PublicKey h = Some h ∧ Host.PublicKey h ∈ hac ∧
    GoodForUpload h = true ∧ ∀ sec, sec ∈ Slab_Sectors slab → Sec_HostKey sec ≠ Some (Host.PublicKey h).
Proof.
  intros Hrange st chosen. split; [apply pick_candidates_add_all|]. split; [apply add_all_keys_nodup|].
  pose proof (scan_inv (good_hosts (MS_Hosts state)) healthy (MS_MinHostDistanceKm state) (Slab_Sectors slab)) as I.
  fold st in I. intros h Hh. unfold chosen in Hh. pose proof (add_all_spec (filter (λ h, Host.PublicKey h ∈ hac ∧ GoodForUpload h = true) (range_hosts (sc_hosts st))) (sc_set st)) as Hs.
  destruct (add_all _ _) as [s2 l]. destruct Hs as (_ & _ & _ & Hsubl & _). simpl in Hh.
  apply (elem_of_sublist _ _ _ Hh) in Hsubl as [[Hk Hg] Hin]%list_elem_of_filter. rewrite Hrange in Hin.
  apply list_elem_of_fmap in Hin as ([k h'] & -> & Hin%elem_of_map_to_list). simpl in *.
  apply (sv_hosts _ _ _ _ _ I) in Hin as [Hgh Hno]. destruct (good_hosts_lookup _ _ _ Hgh) as (_ & <- & _). done.
Qed.

(** The candidates for the moved sectors are distinct good hosts with storage left
    and a healthy contract that can append; none of them stores a sector of the
    slab, kept or moved, and with a minimum distance set any two are that far apart.
    A candidate is that far from every host that keeps a sector as well, except from
    one that is itself too close to another host that keeps a sector. *)
Theorem migration_candidates {ML : MathLaws MO} (slab : Slab) (state : MigrationState) (moved : list nat) (candidates : list PublicKey) :
  (∀ m, range_hosts m ≡ₚ (map_to_list m).*2) →
  sectorsToMigrate slab state = Ok (moved, candidates) →
  ∃ chosen : list Host, candidates = Host.PublicKey <$> chosen ∧ NoDup candidates ∧
    (∀ h, h ∈ chosen → h ∈ MS_Hosts state ∧ GoodForUpload h = true ∧ appendable state h ∧
       ∀ sec, sec ∈ Slab_Sectors slab → Sec_HostKey sec ≠ Some (Host.PublicKey h)) ∧
    (flt (of_int 0) (MS_MinHostDistanceKm state) = true →
       (∀ a b, a ∈ chosen → b ∈ chosen → Host.PublicKey a ≠ Host.PublicKey b → ¬ too_close state a b) ∧
       ∀ a k, a ∈ chosen → keeps_sector slab state moved k →
         ¬ too_close state a k ∨
         ∃ k', keeps_sector slab state moved k' ∧ Host.PublicKey k' ≠ Host.PublicKey k ∧ too_close state k k').
Proof.
  intros Hrange. unfold sectorsToMigrate. intros ([healthy hac] & Hmaps & [= <- <-])%bind_ok.
  apply contract_maps_spec in Hmaps as (_ & _ & Hhac).
  pose proof (scan_inv (good_hosts (MS_Hosts state)) healthy (MS_MinHostDistanceKm state) (Slab_Sectors slab)) as I.
  set (st := scan _ _) in *. destruct (sv_set _ _ _ _ _ I) as (kept & Hset & Hkept).
  destruct (chosen_hosts slab state healthy hac Hrange) as (Hpick & Hnd & Hchosen).
  fold st in Hpick, Hnd, Hchosen. rewrite Hpick.
  set (eligible := filter _ _) in *.
  pose proof (add_all_spec kept (NewSpacedSet (MS_MinHostDistanceKm state))) as Hs1.
  pose proof (add_all_added (NewSpacedSet (MS_MinHostDistanceKm state)) kept) as Ha1.
  destruct (add_all (NewSpacedSet (MS_MinHostDistanceKm state)) kept) as [s1 kept1]. simpl in Hset. rewrite Hset.
  destruct Hs1 as (Hm1 & _ & Hsp1 & Hsub1 & Hall1 & Hsel1). simpl in Hm1.
  pose proof (add_all_spec eligible s1) as Hs2. pose proof (add_all_added s1 eligible) as Ha2.
  rewrite Hset in Hnd, Hchosen. destruct (add_all s1 eligible) as [s2 chosen]. destruct Hs2 as (Hm2 & Hsub2 & Hsp2 & Hsubl & _).
  rewrite Hm1 in Hm2.
  assert (spaced s2) as Hspaced.
  { apply Hsp2, Hsp1. intros _ a b la lb Ha. simpl in Ha. by rewrite lookup_empty in Ha. }
  assert (∀ k, keeps_sector slab state (sc_migrate st) k ↔ k ∈ kept) as Hkeeps.
  { intros k. rewrite Hkept. unfold keeps_sector. split.
    - intros (? & i & sec & ? & ?). exists i, sec, (Host.PublicKey k). done.
    - intros (i & sec & hk & ? & ? & Hg). destruct (good_hosts_lookup _ _ _ Hg) as (_ & <- & _). eauto. }
  exists chosen. split; [done|]. split; [done|]. split.
  - intros h Hh. destruct (Hchosen h Hh) as (Hg & Hk & Hup & Hno). destruct (good_hosts_lookup _ _ _ Hg) as (Hin & _ & _).
    split_and!; [done..| |done]. apply Hhac in Hk as [Hk|(c & h' & Hc & Hck & Hh' & Happ)]; [set_solver|].
    rewrite Hg in Hh'. injection Hh' as <-. by exists c.
  - intros Hmin. rewrite <-Hm2 in Hmin. unfold too_close. rewrite <-Hm2. split.
    + intros a b [Ha _]%Ha2 [Hb _]%Ha2 Hne. rewrite (Hspaced Hmin _ _ _ _ Ha Hb Hne). done.
    + intros a k Ha Hk%Hkeeps. destruct (Ha2 a Ha) as [Hsa _]. destruct (Hchosen a Ha) as (_ & _ & _ & Hno).
      assert (Host.PublicKey a ≠ Host.PublicKey k) as Hak.
      { intros Heq. apply Hkept in Hk as (i & sec & hk & [Hi _] & Hsk & Hgk).
        destruct (good_hosts_lookup _ _ _ Hgk) as (_ & <- & _).
        apply (Hno sec); [by eapply list_elem_of_lookup_2|by rewrite Heq]. }
      destruct (Hall1 k Hk) as [Hadd|(x & lx & Hx & Hc)].
      * left. destruct (Ha1 k Hadd) as [Hsk _]. simpl in Hsk. apply (lookup_weaken _ (selected s2)) in Hsk; [|done].
        by rewrite (Hspaced Hmin _ _ _ _ Hsa Hsk Hak).
      * destruct (Hsel1 x lx Hx) as [Hs|(k' & Hk' & <- & <-)]; [simpl in Hs; by rewrite lookup_empty in Hs|].
        apply (elem_of_sublist _ kept) in Hk'; [|done].
        destruct (decide (Host.PublicKey k' = Host.PublicKey k)) as [Heq|Hne].
        -- left. apply Hkeeps in Hk as [Hgk _]. apply Hkeeps in Hk' as [Hgk' _].
           assert (k' = k) as -> by congruence. apply (lookup_weaken _ (selected s2)) in Hx; [|done].
           by rewrite (Hspaced Hmin _ _ _ _ Hsa Hx Hak).
        -- right. exists k'. apply Hkeeps in Hk'. split_and!; [done|done|].
           destruct Hc as [?|[_ Hc]]; [done|]. by rewrite Hm1, <-Hm2 in Hc.
Qed.

(** What [sectorsToMigrate] decides and [uploadShards] assumes fit together: when
    the candidates of a slab are prioritised and its moved sectors uploaded, no
    interleaving of the uploads reaches the panic for a host that already holds a
    shard of the slab, and every migrated shard lands on a host of its own that
    stored none of the slab's sectors. *)
Theorem migration_uploads_fit {ML : MathLaws MO} {S : Type} {CS : @ClientStore S} (time_Now : M S Z) {SR : StoreReads time_Now}
    (slab : Slab) (state : MigrationState) (moved : list nat) (candidates avail : list PublicKey) (s : S) (p : Provider)
    (u : @upload_state Provider) :
  (∀ m, range_hosts m ≡ₚ (map_to_list m).*2) →
  (∀ h, is_i64 (inflightWrites (metric_of p h))) →
  sectorsToMigrate slab state = Ok (moved, candidates) →
  Prioritize time_Now candidates (s, p) = (Ok avail, (s, p)) →
  let hosts := omap Sec_HostKey (Slab_Sectors slab) in
  upload_reachable (Sec_Root <$> Slab_Sectors slab) (λ i, bool_decide (i ∈ moved)) p hosts avail u →
  panicked u = false ∧
  NoDup (Sh_HostKey <$> (migrated u).*2) ∧
  ∀ i sh, (i, sh) ∈ migrated u →
    i ∈ moved ∧ Sh_HostKey sh ∈ candidates ∧
    ∃ sec, Slab_Sectors slab !! i = Some sec ∧ Sec_Root sec = Sh_Root sh ∧
      ∀ sec', sec' ∈ Slab_Sectors slab → Sec_HostKey sec' ≠ Some (Sh_HostKey sh).
Proof.
  intros Hrange Hw. unfold sectorsToMigrate. intros Hsm Hprio Hr.
  apply bind_ok in Hsm as ([healthy hac] & _ & [= Hm Hc]).
  subst moved candidates.
  destruct (chosen_hosts slab state healthy hac Hrange) as (Hpick & Hnd & Hchosen). cbv zeta in *. rewrite Hpick in *.
  set (chosen := (add_all _ _).2) in *. set (moved := sc_migrate _) in *. set (hosts := omap _ _) in *.
  destruct (Prioritize_spec time_Now (Host.PublicKey <$> chosen) s p) as (l & Hl & Hperm).
  rewrite Hprio in Hl. injection Hl as <-.
  assert (∀ h, h ∈ avail → h ∈ Host.PublicKey <$> chosen) as Hsub
    by (intros h; rewrite Hperm, list_elem_of_filter; tauto).
  assert (∀ h, h ∈ Host.PublicKey <$> chosen → ∀ sec, sec ∈ Slab_Sectors slab → Sec_HostKey sec ≠ Some h) as Hfree.
  { intros h (x & -> & Hx)%list_elem_of_fmap. by destruct (Hchosen x Hx) as (_ & _ & _ & ?). }
  assert (NoDup avail) as Havail by (rewrite Hperm; by apply NoDup_filter).
  assert (∀ h, h ∈ avail → h ∉ hosts) as Hnew.
  { intros h Hh (sec & Hs & Hk)%list_elem_of_omap. by apply (Hfree h (Hsub h Hh) sec). }
  apply (Inv_reachable (W:=provider_pool) _ _ p hosts avail Havail Hnew Hw) in Hr as I.
  destruct (inv_distinct _ _ _ _ _ I). split_and!; [apply I|done|].
  intros i sh Hi. destruct (inv_migrated _ _ _ _ _ I i sh Hi) as (_ & Hneed & Hroot & Hc & _).
  apply bool_decide_eq_true in Hneed. apply list_lookup_fmap_Some in Hroot as (sec & Hroot & Hsec).
  split_and!; [done|auto|]. exists sec. split_and!; [done|done|]. intros sec'. apply Hfree. auto.
Qed.

(** ** Migrating a slab *)

Section migrate.
Local Open Scope go_scope.
Context {S : Type}.
Variable ctx_Err : M S (option error).
(** [executeMigration]: the migrated and the lost shards, and the error of the
    recovery. Its uploads are those of Uploads.v. *)
Variable executeMigration : Slab → list nat → list PublicKey → M S (list Shard * list Shard * option error).

Definition no_result (id : SlabID) : MigrationResult := mkResult id [] [] false false.

(** The result and [attempted]. *)
Definition MigrateSlab (slab : Slab) (state : MigrationState) : M S (MigrationResult * bool) :=
  let res := no_result (Slab_ID slab) in
  let* e := ctx_Err in
  match e with
  | Some _ => mret (res, false)
  | None =>
      let* p := lift (sectorsToMigrate slab state) in
      let '(indices, candidates) := p in
      if Nat.eqb (length indices) 0 then mret (res, false)
      else if Nat.eqb (length candidates) 0 then mret (res, false)
      else
        let* r := executeMigration slab indices candidates in
        let '(migrated, lost, err) := r in
        match err with
        | Some _ => mret (mkResult (Slab_ID slab) migrated lost false false, true)
        | None => mret (mkResult (Slab_ID slab) migrated lost true (Nat.eqb (length migrated) (length indices)), true)
        end
  end.
End migrate.

(** ** The primary node's store *)

(** The parts of [Store] and of [ContractManager] that migrations use. *)
Class MigrationStore {S : Type} := {
  ms_Hosts : Z → Z → list HostQueryOpt → M S (list Host);
  ms_MaintenanceSettings : M S MaintenanceSettings;
  ms_TipHeight : M S Z;
  ms_HealthyContracts : M S (list Contract);
  ms_UnhealthySlabs : Z → Z → M S (list SlabID * Z);
  ms_Slab : SlabID → M S Slab;
  ms_MarkSectorsLost : PublicKey → list Hash256 → M S unit;
  ms_MigrateSector : Hash256 → PublicKey → M S bool;
  ms_RecordSlabMigrated : SlabID → M S unit;
  ms_MarkSlabRepaired : SlabID → bool → M S unit }.

(** [errors.Join(errs...)] *)
Definition join_all (errs : list error) : option error :=
  match errs with [] => None | e :: es => Some (foldl EJoin e es) end.

Section store.
Local Open Scope go_scope.
Context {S : Type}.

Section calls.
Context {ST : @MigrationStore S}.

(** [for offset := 0; ; offset += batchSize] over the hosts; one element of fuel
    per page. *)
Definition fetchMigrationState (fuel : nat) (minHostDistanceKm : float64) : M S (option MigrationState) :=
  let* hosts := wrapM "failed to fetch hosts: "
    (pages fuel 500 0 (λ offset, ms_Hosts offset 500 [WithBlocked false; WithActiveContracts true])
      (λ acc h, mret (acc ++ [h])) []) in
  match hosts with
  | None => mret None
  | Some hosts =>
      let* contracts := wrapM "failed to fetch healthy contracts: " ms_HealthyContracts in
      let* settings := wrapM "failed to fetch maintenance settings: " ms_MaintenanceSettings in
      let* height := wrapM "failed to fetch consensus tip: " ms_TipHeight in
      mret (Some (mkState height contracts hosts settings minHostDistanceKm))
  end.

(** [lostByHost] *)
Definition lost_by_host (lost : list Shard) : gmap PublicKey (list Hash256) :=
  foldl (λ m s, <[Sh_HostKey s := default [] (m !! Sh_HostKey s) ++ [Sh_Root s]]> m) ∅ lost.

(** The order in which [range] visits the map of lost sectors. *)
Variable range_lost : gmap PublicKey (list Hash256) → list (PublicKey * list Hash256).

(** Marking the sectors of each host; the errors so far are collected. *)
Definition mark_lost (lost : list Shard) : M S (list error) :=
  foldM (λ errs p, let* r := try (ms_MarkSectorsLost p.1 p.2) in
                   mret (match r with Err e => errs ++ [EWrap "failed to mark sectors as lost: " e ""] | _ => errs end))
    [] (range_lost (lost_by_host lost)).

(** [persisted] and the errors after the loop over the migrated shards *)
Definition persist_migrated (errs : list error) (migrated : list Shard) : M S (list error * nat) :=
  foldM (λ acc sh, let* r := try (ms_MigrateSector (Sh_Root sh) (Sh_HostKey sh)) in
                   mret (match r with
                         | Err e => (acc.1 ++ [EWrap "failed to record migrated sector: " e ""], acc.2)
                         | Ok false => acc
                         | _ => (acc.1, Datatypes.S acc.2)
                         end))
    (errs, 0) migrated.

(** The returned error, if any. *)
Definition applyMigrationResult (res : MigrationResult) : M S (option error) :=
  let* errs := (if Nat.ltb 0 (length (Lost res)) then mark_lost (Lost res) else mret []) in
  if negb (Recovered res) then mret (join_all errs)
  else
    let* p := persist_migrated errs (Migrated res) in
    let '(errs, persisted) := p in
    (if Nat.ltb 0 persisted then let* _ := try (ms_RecordSlabMigrated (MR_SlabID res)) in mret tt else mret tt) ;;
    let success := Success res && Nat.eqb persisted (length (Migrated res)) in
    let* r := try (ms_MarkSlabRepaired (MR_SlabID res) success) in
    mret (join_all (match r with
                    | Err e => if errors_Is e ErrSlabNotFound then errs else errs ++ [EWrap "failed to mark slab repaired: " e ""]
                    | _ => errs
                    end)).

(** The slabs that can be fetched. *)
Fixpoint fetch_slabs (ids : list SlabID) : M S (list Slab) :=
  match ids with
  | [] => mret []
  | id :: ids =>
      let* r := try (ms_Slab id) in
      let* rest := fetch_slabs ids in
      mret (match r with Ok slab => slab :: rest | _ => rest end)
  end.

Definition PrepareMigrationBatch (fuel : nat) (minHostDistanceKm : float64) (cursor limit : Z) : M S (option MigrationBatch) :=
  let* p := wrapM "failed to fetch unhealthy slabs: " (ms_UnhealthySlabs cursor limit) in
  let '(ids, nextCursor) := p in
  if Nat.eqb (length ids) 0 then mret (Some (mkBatch [] no_state nextCursor))
  else
    let* state := wrapM "failed to fetch migration state: " (fetchMigrationState fuel minHostDistanceKm) in
    match state with
    | None => mret None
    | Some state =>
        let* slabs := fetch_slabs ids in
        mret (Some (mkBatch slabs state nextCursor))
    end.

(** [failed] and [lastErr] *)
Definition ApplyMigrationResults (results : list MigrationResult) : M S unit :=
  let* p := foldM (λ acc res, let* e := applyMigrationResult res in
                              mret (match e with Some err => (Datatypes.S acc.1, Some err) | None => acc end))
              (0, None) results in
  match p with
  | (failed, Some lastErr) =>
      if Nat.ltb 0 (length results) && Nat.eqb failed (length results)
      then throw (EWrap "failed to persist all %d migration results: " lastErr "") else mret tt
  | (_, None) => mret tt
  end.

(** [migrateSlab] of the local migration loop; errors are logged. *)
Definition migrateSlab (ctx_Err : M S (option error))
    (executeMigration : Slab → list nat → list PublicKey → M S (list Shard * list Shard * option error))
    (slabID : SlabID) (state : MigrationState) : M S unit :=
  let* r := try (ms_Slab slabID) in
  match r with
  | Ok slab =>
      let* p := MigrateSlab ctx_Err executeMigration slab state in
      let '(res, attempted) := p in
      if attempted : bool then let* _ := applyMigrationResult res in mret tt else mret tt
  | _ => mret tt
  end.
End calls.

(** *** What is marked repaired *)

(** The sector with this root is recorded at this host. *)
Variable At : S → Hash256 → PublicKey → Prop.

(** What the store promises about where sectors are recorded. *)
Class RecordsSectors (ST : @MigrationStore S) : Prop := {
  migrate_records : ∀ r h s s', ms_MigrateSector r h s = (Ok true, s') → At s' r h;
  migrate_keeps : ∀ r h r' h' s, At s r h → r' ≠ r → At (ms_MigrateSector r' h' s).2 r h;
  migrated_keeps : ∀ id r h s, At s r h → At (ms_RecordSlabMigrated id s).2 r h }.

(** Two stores that agree on every call but on marking the slab repaired while one
    of its migrated shards is not recorded. *)
Record agree_repair (res : MigrationResult) (A B : @MigrationStore S) : Prop := {
  ag_lost : ∀ hk roots s, @ms_MarkSectorsLost S A hk roots s = @ms_MarkSectorsLost S B hk roots s;
  ag_migrate : ∀ r h s, @ms_MigrateSector S A r h s = @ms_MigrateSector S B r h s;
  ag_migrated : ∀ id s, @ms_RecordSlabMigrated S A id s = @ms_RecordSlabMigrated S B id s;
  ag_failed : ∀ id s, @ms_MarkSlabRepaired S A id false s = @ms_MarkSlabRepaired S B id false s;
  ag_repaired : ∀ s, Recovered res = true → Success res = true →
    (∀ sh, sh ∈ Migrated res → At s (Sh_Root sh) (Sh_HostKey sh)) →
    @ms_MarkSlabRepaired S A (MR_SlabID res) true s = @ms_MarkSlabRepaired S B (MR_SlabID res) true s }.

(** Every shard of the list is recorded when as many were persisted. *)
Lemma persist_all {ST : @MigrationStore S} {RS : RecordsSectors ST} l errs k s errs' k' s' :
  NoDup (Sh_Root <$> l) →
  foldM (λ acc sh, let* r := try (ms_MigrateSector (Sh_Root sh) (Sh_HostKey sh)) in
                   mret (match r with
                         | Err e => (acc.1 ++ [EWrap "failed to record migrated sector: " e ""], acc.2)
                         | Ok false => acc
                         | _ => (acc.1, Datatypes.S acc.2)
                         end)) (errs, k) l s = (Ok (errs', k'), s') →
  k' ≤ k + length l ∧
  (∀ r h, At s r h → r ∉ Sh_Root <$> l → At s' r h) ∧
  (k' = k + length l → ∀ sh, sh ∈ l → At s' (Sh_Root sh) (Sh_HostKey sh)).
Proof.
  revert errs k s. induction l as [|x l IH]; intros errs k s Hnd H; simpl in H.
  - injection H as <- <- <-. split_and!; [simpl; lia|done|]. by intros _ sh ?%elem_of_nil.
  - apply bindM_ok in H as ([errs1 k1] & s1 & H1 & H). apply bindM_ok in H1 as (r & s2 & Htry & Hr).
    simpl in Hnd. apply NoDup_cons in Hnd as [Hx Hnd].
    pose proof (migrate_records (Sh_Root x) (Sh_HostKey x) s) as Hrec.
    pose proof (λ r h, migrate_keeps r h (Sh_Root x) (Sh_HostKey x) s) as Hkeep.
    unfold try in Htry. destruct (ms_MigrateSector (Sh_Root x) (Sh_HostKey x) s) as [rm s3]. simpl in Hkeep.
    assert (s1 = s3 ∧ k1 ≤ Datatypes.S k ∧ (k1 = Datatypes.S k → rm = Ok true)) as (-> & Hk1 & Hok).
    { destruct rm as [[]|e|]; [injection Htry as <- <-..|done]; injection Hr as _ <- <-;
        split_and!; try done; simpl; try lia. }
    apply IH in H as (Hle & Hold & Hall); [|done].
    split_and!; [simpl; lia|..].
    + intros r0 h Hat [Hne Hnotin]%not_elem_of_cons. apply Hold; [|done]. apply Hkeep; [done|congruence].
    + intros Hk sh [->|Hin]%elem_of_cons; simpl in Hk.
      * apply Hold; [|done]. eapply Hrec. rewrite (Hok ltac:(lia)). done.
      * apply Hall; [lia|done].
Qed.

(** C25. A slab is only marked repaired when its repair is on record: given a store
    that keeps what it recorded and a result whose migrated shards have distinct roots,
    applying the result calls nothing but the calls on
    which the two stores agree, so [MarkSlabRepaired(id, true)] happens only for a
    successful recovery all of whose migrated shards the store has recorded at their
    new hosts. *)
Theorem repaired_only_if_recorded (range_lost : gmap PublicKey (list Hash256) → list (PublicKey * list Hash256))
    (A B : @MigrationStore S) {RS : RecordsSectors A} (res : MigrationResult) (s : S) :
  NoDup (Sh_Root <$> Migrated res) → agree_repair res A B →
  applyMigrationResult (ST:=A) range_lost res s = applyMigrationResult (ST:=B) range_lost res s.
Proof.
  intros Hnd Hag. unfold applyMigrationResult. apply bindM_ext_ok.
  { destruct (Nat.ltb 0 (length (Lost res))); [|done]. apply foldM_ext. intros acc p s' _.
    apply bindM_ext; [|done]. apply try_ext, (ag_lost _ _ _ Hag). }
  intros errs s1 _. destruct (Recovered res) eqn:Hrec; simpl; [|done]. apply bindM_ext_ok.
  { apply foldM_ext. intros acc p s' _. apply bindM_ext; [|done]. apply try_ext, (ag_migrate _ _ _ Hag). }
  intros [errs2 persisted] s2 Hp.
  assert (persist_migrated (ST:=A) errs (Migrated res) s1 = (Ok (errs2, persisted), s2)) as HpA.
  { rewrite <-Hp. apply foldM_ext. intros acc p s' _. apply bindM_ext; [|done]. apply try_ext, (ag_migrate _ _ _ Hag). }
  apply persist_all in HpA as (_ & _ & Hall); [|done]. apply bindM_ext_ok.
  { destruct persisted; simpl; [done|]. apply bindM_ext; [|done]. apply try_ext, (ag_migrated _ _ _ Hag). }
  intros [] s3 Hs3. apply bindM_ext; [|done]. apply try_ext.
  destruct (Success res) eqn:Hsucc; simpl; [|apply (ag_failed _ _ _ Hag)].
  destruct (Nat.eqb_spec persisted (length (Migrated res))) as [Heq|]; [|apply (ag_failed _ _ _ Hag)].
  apply (ag_repaired _ _ _ Hag); [done|done|]. intros sh Hsh.
  assert (At s2 (Sh_Root sh) (Sh_HostKey sh)) as Hat by (apply Hall; [lia|done]).
  destruct persisted; simpl in Hs3; [by injection Hs3 as <-|].
  apply bindM_ok in Hs3 as (r & s4 & Htry & Hret). injection Hret as <-. unfold try in Htry.
  pose proof (migrated_keeps (MR_SlabID res) (Sh_Root sh) (Sh_HostKey sh) s2 Hat) as Hk.
  rewrite (ag_migrated _ _ _ Hag) in Hk. destruct (ms_RecordSlabMigrated (MR_SlabID res) s2) as [[]]; naive_solver.
Qed.
End store.
End migrations.

(** ** Concrete instances *)

Module MigrationsWitness.
#[local] Existing Instances U128.ops U128.laws TestRhp.ops TestRhp.laws HostsWitness.math HostsWitness.math_laws.

Definition sc (n : Z) : U128.t := U128.wrapped n.
Definition contract (id hk : N) : Contract :=
  mkContract id hk 10 0 0 0 1 20000 20144 (2 ^ 30) (2 ^ 22) (sc (10 ^ 27)) (sc (10 ^ 27)) (sc (10 ^ 27)) 0 (sc 0) (sc 0) (sc 0)
    true ContractStateActive (mkSpending (sc 0) (sc 0) (sc 0) (sc 0)).
Definition range (m : gmap PublicKey Host) : list Host := (map_to_list m).*2.

(** Hosts 1, 2 and 3 are 111 km apart in a row, at a minimum distance of 200 km. *)
Definition state : MigrationState :=
  mkState 100 [contract 101 1; contract 102 2; contract 103 3]
    [HostsWitness.host 1 0 0; HostsWitness.host 2 0 1; HostsWitness.host 3 0 2] (mkMaintenance true 6048 2016 50) (of_int 200).
(** The third sector is lost. *)
Definition slab : Slab := mkSlab 9 1 5 1
  [mkSector 11 (Some 101%N) (Some 1%N); mkSector 12 (Some 102%N) (Some 2%N); mkSector 13 None None] 0.

Lemma decided : sectorsToMigrate range slab state = Ok ([2], [3%N]).
Proof. vm_compute. reflexivity. Qed.

Example sectors_to_migrate_exact_witness : NoDup [2] ∧ ∀ i, i ∈ [2] → i < 3.
Proof.
  destruct (sectors_to_migrate_exact range slab state [2] [3%N] decided) as (H1 & H2 & _). exact (conj H1 H2).
Defined.

Example migration_candidates_witness :
  ∃ chosen : list Host, [3%N] = Host.PublicKey <$> chosen ∧ ∀ h, h ∈ chosen → GoodForUpload h = true.
Proof.
  destruct (migration_candidates range slab state [2] [3%N] (λ m, Permutation_refl _) decided) as (c & H1 & _ & H2 & _).
  exists c. split; [exact H1|]. intros h Hh. exact (proj1 (proj2 (H2 h Hh))).
Defined.

(** The candidate is too close to host 2, which keeps its sector: host 2 is too close
    to host 1, so it is not in the set the candidates are compared with. *)
Example candidate_too_close :
  sectorsToMigrate range slab state = Ok ([2], [3%N]) ∧
  keeps_sector slab state [2] (HostsWitness.host 2 0 1) ∧
  too_close state (HostsWitness.host 3 0 2) (HostsWitness.host 2 0 1).
Proof.
  split; [apply decided|]. split; [|vm_compute; reflexivity]. split; [reflexivity|].
  exists 1, (mkSector 12 (Some 102%N) (Some 2%N)). split; [|reflexivity]. split; [reflexivity|].
  intros H. apply list_elem_of_singleton in H. discriminate H.
Qed.

Definition uploaded : @upload_state Provider :=
  mkUpload true 0 ∅ [3%N] (list_to_set [1%N; 2%N]) [] NewProvider false.

#[local] Instance no_store : @ClientStore unit := {|
  cs_UsableHosts := λ s, (Ok [], s); cs_Addresses _ := λ s, (Ok [], s); cs_Usable _ := λ s, (Ok true, s) |}.
#[local] Instance reads : StoreReads (λ s : unit, (Ok 0%Z, s)).
Proof. refine {| usable_at _ _ := true; now_at _ := 0%Z |}; done. Defined.

Example migration_uploads_fit_witness : panicked uploaded = false.
Proof.
  refine (proj1 (migration_uploads_fit range (λ s : unit, (Ok 0%Z, s)) slab state [2] [3%N] [3%N] tt NewProvider uploaded
    (λ m, Permutation_refl _) _ decided eq_refl _)).
  - intros h. vm_compute. split; congruence.
  - apply rtc_once. apply (step_cancel _ _ (upload_init NewProvider [1%N; 2%N] [3%N])). reflexivity.
Defined.

(** A store that only knows where sectors are. *)
#[local] Instance sectors_store : MigrationStore (S:=gmap N N) := {|
  ms_Hosts _ _ _ := λ s, (Ok [], s);
  ms_MaintenanceSettings := λ s, (Ok DefaultMaintenanceSettings, s);
  ms_TipHeight := λ s, (Ok 100%Z, s);
  ms_HealthyContracts := λ s, (Ok [], s);
  ms_UnhealthySlabs _ _ := λ s, (Ok ([], 0%Z), s);
  ms_Slab _ := throw (ESentinel ErrSlabNotFound);
  ms_MarkSectorsLost _ _ := mret tt;
  ms_MigrateSector r h := λ s, (Ok true, <[r := h]> s);
  ms_RecordSlabMigrated _ := mret tt;
  ms_MarkSlabRepaired _ _ := mret tt |}.
(** The same, but marking a slab repaired with nothing recorded panics. *)
Definition strict_store : MigrationStore (S:=gmap N N) := {|
  ms_Hosts := @ms_Hosts _ _ _ sectors_store;
  ms_MaintenanceSettings := @ms_MaintenanceSettings _ _ _ sectors_store;
  ms_TipHeight := @ms_TipHeight _ _ _ sectors_store;
  ms_HealthyContracts := @ms_HealthyContracts _ _ _ sectors_store;
  ms_UnhealthySlabs := @ms_UnhealthySlabs _ _ _ sectors_store;
  ms_Slab := @ms_Slab _ _ _ sectors_store;
  ms_MarkSectorsLost := @ms_MarkSectorsLost _ _ _ sectors_store;
  ms_MigrateSector := @ms_MigrateSector _ _ _ sectors_store;
  ms_RecordSlabMigrated := @ms_RecordSlabMigrated _ _ _ sectors_store;
  ms_MarkSlabRepaired _ success := λ s, if success && bool_decide (s !! 13%N = None) then (Panic, s) else (Ok tt, s) |}.

Definition recorded_at (s : gmap N N) (r h : N) : Prop := s !! r = Some h.
#[local] Instance records : RecordsSectors recorded_at sectors_store.
Proof.
  unfold recorded_at. split; simpl.
  - intros r h s s' [= <-]. apply lookup_insert_eq.
  - intros r h r' h' s Hat Hne. by rewrite lookup_insert_ne.
  - done.
Qed.

Example repaired_only_if_recorded_witness :
  let res := mkResult 9 [mkShard 13 3] [] true true in
  applyMigrationResult (ST:=sectors_store) map_to_list res ∅ = applyMigrationResult (ST:=strict_store) map_to_list res ∅.
Proof.
  intros res.
  apply (repaired_only_if_recorded recorded_at map_to_list sectors_store strict_store res ∅).
  - apply (bool_decide_unpack _). vm_compute. exact I.
  - split; try done. intros s _ _ Hrec. simpl. specialize (Hrec (mkShard 13 3) ltac:(by left)). unfold recorded_at in Hrec.
    simpl in Hrec. by rewrite Hrec.
Defined.
End MigrationsWitness.
