(* ===== verification/Remote.v ===== *)
(** * Remote migration workers (src/slabs/remote.go)

    A worker without a database: it fetches batches of unhealthy slabs from the
    primary node, migrates them as Migrations.v does and reports the results. This
    file has the hosts it caches, which are a store for the host ranking of
    HostQueue.v, the pauses between passes, and the collection and reporting of the
    results of a pass as a step relation. *)

From S2P Require Import Prelude Float Net External Contract Hosts HostQueue Deps Slabs Uploads Migrations.

Definition remoteMigrationInterval : Z := Minute.
Definition maxBackoffShift : Z := 5.
Definition resultReportGroupSize : nat := 100.

(** ** The cached hosts *)

(** [hosts.ErrNotFound] *)
Definition hosts_ErrNotFound : string := "host not found".

Section cache.
Context {C : CurrencyOps} {R : RhpOps}.

(** [cachedHostStore] *)
Abbreviation cachedHostStore := (gmap PublicKey Host) (only parsing).
Definition newCachedHostStore : cachedHostStore := ∅.

Definition cache_merge (usableHosts : list Host) (s : cachedHostStore) : cachedHostStore :=
  foldl (λ m host, <[Host.PublicKey host := host]> m) s usableHosts.
Definition cache_clear (s : cachedHostStore) : cachedHostStore := ∅.

(** The order in which [range] visits the hosts. *)
Variable range_hosts : cachedHostStore → list Host.

Definition host_info (h : Host) : HostInfo :=
  mkHostInfo (Host.PublicKey h) (Host.Addresses h) (Host.CountryCode h) (Host.Latitude h) (Host.Longitude h) (GoodForUpload h).

Definition cache_Addresses (hostKey : PublicKey) (s : cachedHostStore) : result (list NetAddress) :=
  match s !! hostKey with Some h => Ok (Host.Addresses h) | None => Err (ESentinel hosts_ErrNotFound) end.
Definition cache_Usable (hostKey : PublicKey) (s : cachedHostStore) : bool :=
  match s !! hostKey with Some h => IsGood h | None => false end.
Definition cache_UsableHosts (s : cachedHostStore) : list HostInfo := host_info <$> range_hosts s.

Definition cached_store : @ClientStore cachedHostStore := {|
  cs_UsableHosts := λ s, (Ok (cache_UsableHosts s), s);
  cs_Addresses hostKey := λ s, (cache_Addresses hostKey s, s);
  cs_Usable hostKey := λ s, (Ok (cache_Usable hostKey s), s) |}.

(** The cache answers from its state, so the picks of HostQueue.v apply to it. *)
Definition cached_reads (time_Now : M cachedHostStore Z) (now : cachedHostStore → Z)
    (H : ∀ s, time_Now s = (Ok (now s), s)) : StoreReads (CS:=cached_store) time_Now.
Proof.
  refine {| usable_at s h := cache_Usable h s; now_at := now |}; [|done].
  intros h s. simpl. split; [done|]. split; [done|]. split; [by intros ->|congruence].
Defined.

Lemma cache_merge_lookup l s k :
  (∀ h, cache_merge l s !! k = Some h → h ∈ l ∧ Host.PublicKey h = k ∨ s !! k = Some h ∧ ∀ x, x ∈ l → Host.PublicKey x ≠ k) ∧
  (is_Some (s !! k) → is_Some (cache_merge l s !! k)) ∧
  (∀ h, h ∈ l → Host.PublicKey h = k → is_Some (cache_merge l s !! k)).
Proof.
  unfold cache_merge. induction l as [|x l IH] using rev_ind.
  { simpl. split_and!; [|done|by intros h ?%elem_of_nil]. intros h Hh. right. split; [done|by intros x ?%elem_of_nil]. }
  rewrite foldl_app. simpl. destruct IH as (H1 & H2 & H3). destruct (decide (Host.PublicKey x = k)) as [<-|Hne].
  - rewrite lookup_insert_eq. split_and!; [|by eexists|by eexists]. intros h [= <-]. left. split; [set_solver|done].
  - rewrite lookup_insert_ne by done. split_and!; [|done|].
    + intros h [[Hin Hk]|[Hs Hno]]%H1; [left|right]; (split; [set_solver|]); [done|].
      intros y [Hy|Hy]%elem_of_app; [by apply Hno|]. by apply list_elem_of_singleton in Hy as ->.
    + intros h [Hh|Hh]%elem_of_app Hk; [by eapply H3|]. apply list_elem_of_singleton in Hh as ->. done.
Qed.

(** Within a pass no host is lost from under a migration: a host that was known
    stays known and keeps its last announced record, every host of a merged batch is
    known, and a host is usable exactly when it is known and good. *)
Theorem cached_hosts_kept (l : list Host) (s : cachedHostStore) (k : PublicKey) :
  let s' := cache_merge l s in
  (is_Some (s !! k) ∨ (∃ h, h ∈ l ∧ Host.PublicKey h = k) ↔ is_Some (s' !! k)) ∧
  (∀ h, s' !! k = Some h → (h ∈ l ∧ Host.PublicKey h = k) ∨ s !! k = Some h ∧ ∀ x, x ∈ l → Host.PublicKey x ≠ k) ∧
  ((cs_Usable (ClientStore:=cached_store) k s').1 = Ok true ↔ ∃ h, s' !! k = Some h ∧ IsGood h = true) ∧
  ((cs_Addresses (ClientStore:=cached_store) k s').1 = Err (ESentinel hosts_ErrNotFound) ↔ s' !! k = None).
Proof.
  intros s'. destruct (cache_merge_lookup l s k) as (H1 & H2 & H3). fold s' in H1, H2, H3. split_and!.
  - split; [intros [H|(h & Hh & Hk)]; eauto|]. intros [h Hh]. destruct (H1 h Hh) as [[? ?]|[? _]]; [right|left]; eauto.
  - done.
  - simpl. unfold cache_Usable. destruct (s' !! k) as [x|]; split; intros H; try done; [injection H as H; eauto|destruct H as (y & [= <-] & ->); done|by destruct H as (y & ? & _)].
  - simpl. unfold cache_Addresses. by destruct (s' !! k).
Qed.
End cache.

(** ** The pauses *)

(** [failedPasses] after a pass. *)
Definition next_failed (failedPasses : Z) (executed migrated : Z) : Z :=
  if (0 <? executed)%Z then (if (0 <? migrated)%Z then 0%Z else (failedPasses + 1)%Z) else failedPasses.

Definition pass_interval (interval failedPasses : Z) : Z :=
  if (0 <? failedPasses)%Z then i64 (Z.shiftl interval (Z.min failedPasses maxBackoffShift)) else interval.

(** The pauses of a run, from the outcomes of its passes. *)
Fixpoint pauses (interval failedPasses : Z) (passes : list (Z * Z)) : list Z :=
  match passes with
  | [] => []
  | (executed, migrated) :: passes =>
      let failedPasses := next_failed failedPasses executed migrated in
      pass_interval interval failedPasses :: pauses interval failedPasses passes
  end.

Lemma pass_interval_bounds interval f :
  (0 < interval < 2 ^ 57)%Z → (0 ≤ f)%Z →
  (interval ≤ pass_interval interval f ≤ 32 * interval)%Z ∧ pass_interval interval f = (interval * 2 ^ Z.min f maxBackoffShift)%Z.
Proof.
  intros Hi Hf. unfold pass_interval, maxBackoffShift. destruct (Z.ltb_spec 0 f) as [H|H].
  - assert (1 ≤ 2 ^ Z.min f 5 ≤ 32)%Z as Hp.
    { change 32%Z with (2 ^ 5)%Z. split; [|apply Z.pow_le_mono_r; lia]. change 1%Z with (2 ^ 0)%Z. apply Z.pow_le_mono_r; lia. }
    rewrite Z.shiftl_mul_pow2 by lia. rewrite i64_id; [split; [nia|done]|]. unfold is_i64, two63. nia.
  - replace f with 0%Z by lia. rewrite Z.min_l by lia. lia.
Qed.

(** The pause between passes is the interval or, after passes that attempted
    migrations and persisted none, at most 32 times the interval; it doubles with
    each such pass up to the fifth and is the interval again after progress. *)
Theorem pauses_bounded (interval failedPasses : Z) (passes : list (Z * Z)) :
  (0 < interval < 2 ^ 57)%Z → (0 ≤ failedPasses)%Z →
  length (pauses interval failedPasses passes) = length passes ∧
  (∀ p, p ∈ pauses interval failedPasses passes → interval ≤ p ≤ 32 * interval)%Z ∧
  (∀ executed migrated, (0 < executed)%Z → (0 < migrated)%Z →
     last (pauses interval failedPasses (passes ++ [(executed, migrated)])) = Some interval).
Proof.
  intros Hi. revert failedPasses. induction passes as [|[e m] passes IH]; intros f Hf; simpl.
  - split_and!; [done|by intros p ?%elem_of_nil|]. intros e m He Hm. unfold next_failed.
    rewrite (proj2 (Z.ltb_lt _ _) He), (proj2 (Z.ltb_lt _ _) Hm). done.
  - assert (0 ≤ next_failed f e m)%Z as Hn by (unfold next_failed; destruct (0 <? e)%Z, (0 <? m)%Z; lia).
    destruct (IH _ Hn) as (H1 & H2 & H3). split_and!; [by rewrite H1| |].
    + intros p [->|Hp]%elem_of_cons; [by apply pass_interval_bounds|auto].
    + intros e' m' He Hm. specialize (H3 e' m' He Hm). destruct (pauses interval (next_failed f e m) (passes ++ [(e', m')])) eqn:E; [done|].
      by rewrite last_cons_cons.
Qed.

(** ** Reporting the results of a pass *)

(** [countSectors] *)
Definition countSectors (results : list MigrationResult) : nat := sum_list_with (λ r, length (Migrated r)) results.

Inductive collect_phase := Collecting | Draining | Reported.

(** The variables of the collect loop; [received] and [reports] are the results that
    arrived and the reports that ended, with their outcome. *)
Record pass := mkPass {
  p_phase : collect_phase;
  p_executed : nat;
  p_pending : list MigrationResult;
  p_inflight : option (list MigrationResult);         (* [reporting] *)
  p_reportErr : option error;
  p_migrated : nat;
  p_cancelled : bool;                                 (* [cancelPass()] was called *)
  p_received : list MigrationResult;
  p_reports : list (list MigrationResult * option error) }.

Definition pass_init : pass := mkPass Collecting 0 [] None None 0 false [] [].

Definition startReport (s : pass) : pass :=
  if Nat.eqb (length (p_pending s)) 0 || bool_decide (is_Some (p_inflight s)) || bool_decide (is_Some (p_reportErr s)) then s
  else mkPass (p_phase s) (p_executed s) [] (Some (p_pending s)) (p_reportErr s) (p_migrated s) (p_cancelled s) (p_received s) (p_reports s).

(** The report of [group], which was in flight, ended with [err]. *)
Definition finishReport (s : pass) (group : list MigrationResult) (err : option error) : pass :=
  let reports := p_reports s ++ [(group, err)] in
  match err with
  | None => mkPass (p_phase s) (p_executed s) (p_pending s) None (p_reportErr s) (p_migrated s + countSectors group) (p_cancelled s) (p_received s) reports
  | Some e =>
      match p_reportErr s with
      | None => mkPass (p_phase s) (p_executed s) (p_pending s) None (Some (EWrap "failed to report migration results: " e "")) (p_migrated s) true (p_received s) reports
      | Some _ => mkPass (p_phase s) (p_executed s) (p_pending s) None (p_reportErr s) (p_migrated s) (p_cancelled s) (p_received s) reports
      end
  end.

Definition with_collect_phase (s : pass) (ph : collect_phase) : pass :=
  mkPass ph (p_executed s) (p_pending s) (p_inflight s) (p_reportErr s) (p_migrated s) (p_cancelled s) (p_received s) (p_reports s).

(** A result that arrived. *)
Definition receive (s : pass) (res : MigrationResult) : pass :=
  mkPass (p_phase s) (p_executed s + 1) (p_pending s ++ [res]) (p_inflight s) (p_reportErr s) (p_migrated s) (p_cancelled s)
    (p_received s ++ [res]) (p_reports s).

(** The report of what is left, after the loop. *)
Definition final_report (s : pass) (err : option error) : pass :=
  let reports := p_reports s ++ [(p_pending s, err)] in
  match err with
  | None => mkPass Reported (p_executed s) [] None (p_reportErr s) (p_migrated s + countSectors (p_pending s)) (p_cancelled s) (p_received s) reports
  | Some e =>
      mkPass Reported (p_executed s) [] None
        (match p_reportErr s with None => Some (EWrap "failed to report migration results: " e "") | Some e => Some e end)
        (p_migrated s) (p_cancelled s) (p_received s) reports
  end.

Inductive collect_step : pass → pass → Prop :=
  | collect_result s res :
      p_phase s = Collecting →
      collect_step s (let s := receive s res in if Nat.leb resultReportGroupSize (length (p_pending s)) then startReport s else s)
  | collect_done s group err :
      p_phase s = Collecting → p_inflight s = Some group → collect_step s (startReport (finishReport s group err))
  | collect_tick s :
      p_phase s = Collecting → collect_step s (startReport s)
  (** [resultCh] is closed *)
  | collect_closed s :
      p_phase s = Collecting → collect_step s (with_collect_phase s Draining)
  | collect_drain s group err :
      p_phase s = Draining → p_inflight s = Some group → collect_step s (finishReport s group err)
  | collect_flush s err :
      p_phase s = Draining → p_inflight s = None → p_pending s ≠ [] → collect_step s (final_report s err)
  | collect_end s :
      p_phase s = Draining → p_inflight s = None → p_pending s = [] → collect_step s (with_collect_phase s Reported).

(** What [runPass] returns: the sectors persisted by the primary, and the error. *)
Definition pass_error (s : pass) (producerErr ctx_err : option error) : option error :=
  match p_reportErr s with
  | Some e => Some e
  | None => match producerErr with Some e => Some e | None => ctx_err end
  end.

Definition reported_ok (reports : list (list MigrationResult * option error)) : nat :=
  sum_list_with (λ p, match p.2 with None => countSectors p.1 | Some _ => 0 end) reports.

Record PassInv (s : pass) : Prop := {
  pi_order : concat (p_reports s).*1 ++ default [] (p_inflight s) ++ p_pending s = p_received s;
  pi_executed : p_executed s = length (p_received s);
  pi_migrated : p_migrated s = reported_ok (p_reports s);
  pi_groups : Forall (λ g, g ≠ []) ((p_reports s).*1 ++ match p_inflight s with Some g => [g] | None => [] end);
  pi_error : is_Some (p_reportErr s) ↔ Exists (λ p, is_Some p.2) (p_reports s);
  pi_final : p_phase s = Reported → p_inflight s = None ∧ p_pending s = [] }.

Lemma reported_ok_app l p : reported_ok (l ++ [p]) = reported_ok l + match p.2 with None => countSectors p.1 | Some _ => 0 end.
Proof. unfold reported_ok. rewrite sum_list_with_app. simpl. lia. Qed.

Lemma PassInv_start s : PassInv s → PassInv (startReport s).
Proof.
  intros I. unfold startReport. destruct (Nat.eqb_spec (length (p_pending s)) 0) as [Hp|Hp]; [done|].
  destruct (p_inflight s) as [g|] eqn:Ei; [by rewrite bool_decide_eq_true_2 by by eexists|].
  rewrite (bool_decide_eq_false_2 (is_Some None)) by (by intros [? ?]). case_bool_decide; [done|]. simpl.
  destruct I as [H1 H2 H3 H4 H5 H6]. rewrite Ei in *. constructor; simpl; try done.
  - rewrite <-H1. simpl. by rewrite app_nil_r.
  - rewrite app_nil_r in H4. apply Forall_app. split; [done|]. constructor; [|done]. intros E. by rewrite E in Hp.
  - intros Hph. apply H6 in Hph as [_ E]. by rewrite E in Hp.
Qed.

Lemma PassInv_finish s g err : PassInv s → p_inflight s = Some g → p_phase s ≠ Reported → PassInv (finishReport s g err).
Proof.
  intros [H1 H2 H3 H4 H5 H6] Hg Hph. rewrite Hg in *. simpl in *.
  assert (∀ e ph m c, PassInv (mkPass (p_phase s) (p_executed s) (p_pending s) None e m c (p_received s) (p_reports s ++ [(g, ph)])) ↔
    (m = reported_ok (p_reports s ++ [(g, ph)]) ∧ (is_Some e ↔ Exists (λ p, is_Some p.2) (p_reports s ++ [(g, ph)])))) as Hinv.
  { intros e ph m c. split; [intros [_ _ ? _ ? _]; done|]. intros [Hm He]. constructor; simpl; try done.
    - by rewrite <-H1, fmap_app, concat_app, <-app_assoc; simpl; rewrite app_nil_r.
    - rewrite fmap_app, app_nil_r. done. }
  unfold finishReport. destruct err as [e|]; [destruct (p_reportErr s) eqn:Er|]; apply Hinv;
    rewrite reported_ok_app, Exists_app, Exists_cons, Exists_nil; simpl; (split; [lia|]).
  - split; [intros _; right; left; by eexists|intros _; by eexists].
  - split; [intros _; right; left; by eexists|intros _; by eexists].
  - rewrite H5. split; [auto|]. intros [?|[[? ?]|[]]]; done.
Qed.

Lemma PassInv_step s s' : PassInv s → collect_step s s' → PassInv s'.
Proof.
  intros I Hs. destruct Hs as [s res Hp|s g err Hp Hg|s Hp|s Hp|s g err Hp Hg|s err Hp Hg Hpe|s Hp Hg Hpe].
  - assert (PassInv (receive s res)) as Hr.
    { destruct I as [H1 H2 H3 H4 H5 H6]. constructor; simpl; try done.
      - by rewrite <-H1, !app_assoc.
      - rewrite length_app. simpl. lia.
      - congruence. }
    cbv zeta. destruct (Nat.leb _ _); [by apply PassInv_start|done].
  - apply PassInv_start, PassInv_finish; [done|done|congruence].
  - by apply PassInv_start.
  - destruct I as [H1 H2 H3 H4 H5 H6]. by constructor.
  - apply PassInv_finish; [done|done|congruence].
  - destruct I as [H1 H2 H3 H4 H5 H6]. rewrite Hg in *. simpl in *. rewrite app_nil_r in H4.
    unfold final_report. destruct err as [e|]; constructor; simpl; rewrite ?reported_ok_app, ?Exists_app, ?Exists_cons, ?Exists_nil; simpl; try done;
      rewrite ?fmap_app, ?concat_app; simpl; rewrite ?app_nil_r; try done; try lia.
    + apply Forall_app. split; [done|]. by constructor.
    + split; [intros _; right; left; by eexists|]. intros _. destruct (p_reportErr s); by eexists.
    + apply Forall_app. split; [done|]. by constructor.
    + rewrite H5. split; [auto|]. intros [?|[[? ?]|[]]]; done.
  - destruct I as [H1 H2 H3 H4 H5 H6]. constructor; simpl; done.
Qed.

(** C35. However results, reports and the ticker interleave: when the pass is over,
    every result that arrived was reported to the primary in exactly one report, in
    the order of arrival, also after a report failed. The sectors it counts as
    migrated are those of the reports that succeeded, and it ends with an error if
    one of them failed. *)
Theorem results_reported_once (s : pass) (producerErr ctx_err : option error) :
  rtc collect_step pass_init s → p_phase s = Reported →
  concat (p_reports s).*1 = p_received s ∧ Forall (λ g, g ≠ []) (p_reports s).*1 ∧
  p_executed s = length (p_received s) ∧ p_migrated s = reported_ok (p_reports s) ∧
  (Exists (λ p, is_Some p.2) (p_reports s) → is_Some (pass_error s producerErr ctx_err)).
Proof.
  intros Hr Hp. assert (PassInv s) as [H1 H2 H3 H4 H5 H6].
  { revert Hr. apply (rtc_ind_r (λ s, PassInv s)); [|eauto using PassInv_step].
    constructor; simpl; try done; try by constructor. split; [by intros [? ?]|by intros ?%Exists_nil]. }
  destruct (H6 Hp) as [Hi Hpe]. rewrite Hi, Hpe in *. simpl in *. rewrite !app_nil_r in *. split_and!; [done..|].
  intros [e He]%H5. unfold pass_error. rewrite He. by eexists.
Qed.

(** ** Concrete instances *)

Module RemoteWitness.
Definition res (n : N) : MigrationResult := mkResult n [mkShard n 1] [] true true.

(** Two results and a tick; the report fails while the second result arrives, which
    is reported at the end. *)
Definition over : pass :=
  mkPass Reported 2 [] None (Some (EWrap "failed to report migration results: " (EMsg "timeout") "")) 1 true [res 1; res 2]
    [([res 1], Some (EMsg "timeout")); ([res 2], None)].

Example pass_run : rtc collect_step pass_init over.
Proof.
  eapply rtc_l; [apply (collect_result _ (res 1)); reflexivity|].
  eapply rtc_l; [apply collect_tick; reflexivity|].
  eapply rtc_l; [apply (collect_result _ (res 2)); reflexivity|].
  eapply rtc_l; [apply collect_closed; reflexivity|].
  eapply rtc_l; [apply (collect_drain _ [res 1] (Some (EMsg "timeout"))); reflexivity|].
  eapply rtc_l; [apply (collect_flush _ None); [reflexivity|reflexivity|vm_compute; congruence]|].
  match goal with |- rtc _ ?a _ => replace a with over by (vm_compute; reflexivity) end. apply rtc_refl.
Qed.

Example results_reported_once_witness : concat (p_reports over).*1 = p_received over.
Proof. exact (proj1 (results_reported_once over None None pass_run eq_refl)). Defined.

Example pauses_bounded_witness :
  (∀ p, p ∈ pauses 60 0 [(3, 0); (3, 0); (0, 0); (2, 1)] → 60 ≤ p ≤ 32 * 60)%Z ∧
  pauses 60 0 [(3, 0); (3, 0); (0, 0); (2, 1)]%Z = [120; 240; 240; 60]%Z.
Proof.
  split; [|reflexivity]. exact (proj1 (proj2 (pauses_bounded 60 0 [(3, 0); (3, 0); (0, 0); (2, 1)]%Z ltac:(lia) ltac:(lia)))).
Defined.
End RemoteWitness.
